(* ===== verification/_CoqProject ===== *)
-Q . S2P
Prelude.v
Transport.v
Statistics.v
Session.v
Protocol.v
Xml.v
XmlSpec.v
XmlRoundTrip.v
XmlClaims.v
Message.v
MessageBuilder.v
ServerSM.v
ServerSMSpec.v
ServerSMClaims.v
BuilderClaims.v
ClientSM.v
ClientSMSpec.v
ClientSMClaims.v
Client.v
Wire.v
Binary.v
BinarySpec.v
BinaryClaims.v
CThrift.v
CThriftSpec.v
CReaderSpec.v
CSandesh.v
CClaims.v
DerivedStats.v
DerivedSumSpec.v
DerivedStatsIf.v
DerivedMapSpec.v
DerivedClaims.v
DerivedEwm.v
Pipeline.v
PipelineClaims.v
Server.v
SandeshServerClaims.v
Uve.v
UveSpec.v
UveGroupSpec.v
UveClaims.v
Receive.v
FileTransport.v
Facility.v
Trace.v
FacilityClaims.v
FacilityClient.v
Generated.v
GeneratedSpec.v
GeneratedWrite.v
GeneratedClaims.v
CGenerated.v
CGeneratedWrite.v
CGeneratedRead.v
CGeneratedClaims.v
AgentKernel.v
GeneratedReceive.v
FileClaims.v
