(* ===== verification/Prelude.v ===== *)
(** * Sandesh: a verification development

    Sandesh (src/library) carries structured messages between a generator and a
    collector: generated code writes a message through a protocol object into a
    memory transport, a session frames it and puts it on a TCP connection, the
    session of the other side cuts the stream back into messages, and the state
    machine of the connection decides what becomes of them.  The development follows
    this path through the C++ library (src/library/cpp), from the bytes upwards to the
    facility a program calls, with the C++ and the C code that the compiler (src/compiler)
    generates to read, write and send messages, and models the C library (src/library/c)
    that kernel modules use for the same messages.

    ** Files

    - Prelude.v: machine integers ([wrapU], [wrapS] and the abbreviations u8..i64),
      bytes and C strings, [memcpy] and reads with bounds, decimal digits; tactics
      ([zify_bools], [split_tests]) and the lemmas the components share.
    - Transport.v: transport/TTransport.h, TBufferTransports.h and .cpp.  The class
      [Transport] is the virtual interface and [TransportLaws] what a transport that
      is a queue of bytes promises, with room for writing or readable or both; [TMemoryBuffer] is the growing memory buffer with
      its 32-bit sizes, [Allocator] says which allocations succeed.
    - Statistics.v: sandesh_statistics.h and .cc, message and event counters by type
      and drop reason.
    - Session.v: sandesh_session.h and .cc.  [SandeshWriter] encodes, patches the
      length, packs messages into bulk buffers and sends; [SandeshReader] cuts the
      stream at the frames.
    - Protocol.v: protocol/TProtocol.h and TProtocol.cpp: types, the class [Protocol] and
      the generic [skip], in a state monad whose failure is undefined behaviour.
    - Xml.v: protocol/TXMLProtocol.h and .cpp, all readers and writers; [Texts] is the
      conversion of numbers, addresses and UUIDs to text and back, with the laws
      [TextsLaws].  XmlSpec.v (escaping, the look-ahead reader), XmlRoundTrip.v
      (tags, fields, structs) and XmlClaims.v hold its proofs.
    - Message.v: message headers, [DoDropSandeshMessage], [ExtractMsgHeader],
      [DecodeCtrlSandesh].
    - MessageBuilder.v: sandesh_message_builder.h and .cc, messages with their headers made of
      received bytes, over pugixml ([Pugi]); it is the builder that ServerSM.v calls.
      BuilderClaims.v holds the claim on headers and control messages.
    - ServerSM.v: sandesh_state_machine.h and .cc with sandesh_connection.h and .cc:
      the collector's end of a connection.  ServerSMSpec.v holds the invariants,
      ServerSMClaims.v the claims.
    - ClientSM.v: sandesh_client_sm.h, sandesh_client_sm_priv.h and .cc, the
      generator's end: five states, the list of collectors and the one selected,
      attempts and back-off, the two timers.  The class [Mgr] is the abstract
      SandeshClientSM::Mgr the machine calls.  ClientSMSpec.v holds the invariants,
      ClientSMClaims.v the claims.
    - Client.v: sandesh_client.cc, the manager: start, stop, new collectors, messages
      received, the throttled closing of the session; [SandeshClient.manager] is an
      instance of [Mgr].
    - Wire.v: what the binary encoding means, independently of the code: values of
      the sandesh types, their reference encoding [encode], the integers and sizes
      that have one ([value_ok]).
    - Binary.v: protocol/TBinaryProtocol.h and .tcc, all readers and writers with the
      limits and the strict modes.  BinarySpec.v holds the writer and the reader of a
      [value], composed of the protocol's calls the way generated code composes
      them, and their proofs over any transport with [TransportLaws]; BinaryClaims.v
      the claims.
    - CThrift.v: the C library (src/library/c): [ThriftMemoryBuffer],
      [ThriftFakeTransport], [ThriftBinaryProtocol] with [thrift_protocol_skip], and
      the skip in a buffer.  CThriftSpec.v (the buffer, writers), CReaderSpec.v
      (readers and skips) hold the proofs.  CSandesh.v is sandesh.c: decoding,
      encoding and measuring messages.  CClaims.v holds the claims, those that relate
      C and C++ included.
    - DerivedStats.v: derived_stats_algo.h, one Module for each algorithm; a double is
      an element of a type with [Doubles], which IEEE 754 binary64 is ([binary64]).
      DerivedStatsIf.v: derived_stats.h, the interface over any algorithm with
      [DSAlgo].  DerivedSumSpec.v (the bins of a sum), DerivedMapSpec.v (the loops over
      maps, key by key, with [DSAlgoLaws], what an algorithm promises the interface),
      DerivedClaims.v and DerivedEwm.v (exponentially weighted means) hold the proofs.
    - Pipeline.v: request_pipeline.h and .cc, pipelines of stages of parallel
      instances; PipelineClaims.v holds the invariant and the claims.
    - Server.v: sandesh_server.h and .cc, the collector with its bitmap of connection
      indices and its map of connections, over the class [Connection],
      whose [conn_destroy] is the destructor of a connection and its state machine;
      [MachineConnection.machine] is the state machine of ServerSM.v as an instance.
      SandeshServerClaims.v holds the claims, the composition of the two included.
    - Uve.v: sandesh_uve.h and .cc, the caches of UVEs: one type ([UveMap]), the native and
      proxy caches of a type ([UveGroup], over the class [PerTypeMap]) and all types
      ([UveTypes]).  The class [UveType] is what is generated for a type.  UveSpec.v (one
      cache as a map from names and tables, with the laws [UveLaws]), UveGroupSpec.v
      (loops over the caches of a type) and UveClaims.v hold the proofs.
    - Receive.v: the binary messages of sandesh.cc that need no session.
    - FileTransport.v: transport/TFDTransport.h and .cpp, TSimpleFileTransport.h and .cpp
      and the binary messages of sandesh.cc in files, over the system calls [Posix] with
      the laws [PosixLaws] on an abstract file system; that no error and no more interruptions
      come than the code retries ([calm]) is a separate hypothesis.  FileClaims.v shows that a file that
      is read and one that is appended to keep [TransportLaws], and holds the claim.
    - Facility.v: the static part of class Sandesh (sandesh.h, sandesh.cc) with the
      generated functions [Send] and the limit of the rate (t_cpp_generator.cc), the
      requests of sandesh_req.cc and [MakeEndpoint] (sandesh_util.cc), over the class
      [FacClient].  FacilityClaims.v holds the proofs, against [FacClientLaws];
      FacilityClient.v makes the client of Client.v an instance with these laws.
    - Trace.v: sandesh_trace.h and .cc, reading trace buffers for a page or the collector and
      the requests about them, over base/trace.h ([TraceLib]), with their proofs.
    - Generated.v: the readers and writers that t_cpp_generator.cc emits for a struct and a
      sandesh, as functions of the definition, over Binary.v.  GeneratedSpec.v holds the
      reference [conv], which object a reader makes of a value, and that the readers agree
      with it; GeneratedWrite.v what a writer writes and what a reader of another version
      of the definition gets of it; GeneratedClaims.v the claims.  GeneratedReceive.v is the
      factory of messages (sandesh.h) over definitions, and the way of a message from the
      generated code of a module in the kernel through Receive.v to that of the agent.
    - CGenerated.v: what t_c_generator.cc emits for a struct and a sandesh: the writer and
      the reader through the protocol of CThrift.v, those on a block of bytes, the deleter
      and the table of a program.  CGeneratedWrite.v relates both writers to the value of an
      object, CGeneratedRead.v both readers to the reference [c_conv]; CGeneratedClaims.v
      holds the claims.  AgentKernel.v is the way of a message from the agent to the module
      in the kernel.

    ** How the code is rendered

    A C++ object is a record, a method a function on it; a method that can reach
    undefined behaviour, a failed assertion or an uninitialised result returns an
    option, [None] being that outcome.  Widths are kept: 32-bit buffer sizes, 64-bit
    counters and [size_t] wrap where the code lets them.  A state of a
    boost::statechart machine is a constructor, a reaction a function of the event;
    leaving and entering are separate functions composed as the library does.  Work
    queues, timers and the sessions alive are part of a machine's state, and what
    the environment can do (accept, deliver, close, expire, dequeue, delete) is a type
    of inputs with a step function, so that reachability quantifies over every
    interleaving of them; the runtime serialises the tasks of one connection.  The
    task scheduler of the request pipeline runs its tasks in any order: which task runs,
    what the client's callback answers and when its worker goes on are inputs.

    Code that is not part of the repository is a parameter: [TcpSession::Send], the
    allocator, boost's and base's conversions, pugixml, base/trace.h, the virtual
    functions of a server, the order in which a hash map iterates, the result of starting
    the HTTP server, the time of day, the system calls on files.  So is, in the files on sessions, on received
    messages and on UVEs, the code generated for a message, and in the C library the
    functions of a message that a [sandesh_info] points to; Generated.v and Facility.v
    hold what the C++ generator emits, CGenerated.v what the C generator emits.  Emitted
    text is rendered as a function of the definition; text that is not C has no meaning
    ([None]).  [sizeof], which the C compiler decides, is a parameter.  What the facility does to the world, objects made and
    released, lines of the log, answers to requests, is a list in the order of the
    calls ([fx]).  The host of the C library is little-endian; a
    double is its 64 bits.  A timer of base/timer.h is a flag that says
    whether it runs; an input lets a running timer expire.

    ** Bounds and fuel

    Loops that are not structural take fuel.  [TMemoryBuffer]'s growth loop has 66
    rounds, more than the 64 doublings a 64-bit size allows; the read loop of a
    session takes the length of its buffer plus one, since each round consumes a
    frame; the XML readers take a caller's fuel, and the round-trip theorems hold for
    every fuel above the length of the text.  That an unclosed tag has no such bound
    is a theorem.  Reading or skipping a binary value takes [fuel_for] of it, more than
    its depth and than the elements of each container; decoding a buffer takes its
    length plus one, since a message has a byte.  The search for the width of a bin takes
    25 rounds, after which the shift in it is undefined.  A generated reader, in C++ and in C,
    takes the [fuel_for] of the message.  Synchronising the UVEs of a type takes more fuel
    than a name has tables, and that no fuel is enough for one table of several is a
    theorem.  [readAll] has a turn for each byte and one more, since a read that succeeds
    brings a byte; the retries of a read of a file are counted by the code itself, and each
    turn of a write to a file writes a byte.

    Claims on the client quantify over fewer than 2^31 - 1 inputs, since its counters
    of connects and attempts are C++ ints whose overflow is undefined, and over lists
    of fewer than 2^31 collectors, the index being an int.

    ** What is shown

    - A memory buffer behaves as a byte queue, grows as announced below 2^31 bytes and
      does not beyond.
    - The frames of a writer are the messages in order, whatever the socket answers,
      and a reader delivers exactly these messages, however the stream is cut.  The
      reader returns on any input that announces no frame shorter than its envelope, up to
      the first message its callback refuses.
    - Fields and flat structs written as XML, containers and message tags are read back and
      what follows is left, if no text holds a NUL or spells an entity; where they are not
      (literal entities, unclosed tags, skipping a list) is stated.
    - Counters equal the log of what happened, each reason under the counter of a table
      written down beside the code, and the aggregate is the sum of the types.
    - The server's state machine: undefined behaviour exactly characterised, sessions
      owned once and deleted once, state and session fit, queue balance, and what
      becomes of a message, a close and a new session; which fields of a header, written by the
      protocol, survive the parser of the builder and the reading of a control message.
    - The client's state machine: under a manager that makes sessions, undefined exactly at an
      unreadable header or at a message the manager has no answer to; every session deleted once, an attempt never without a timer, the next
      collector after every failure with the exponential back-off of the code, and the
      way to Established; closes by the send queue are throttled.
    - Binary values, in C++ and in C: what is written is the reference encoding, what
      is read is the value and exactly its bytes, skipping takes exactly its bytes;
      both libraries agree on the bytes except for doubles.  The C memory buffer is a
      bounded queue, the length measured is the room needed, a C reader notices every
      truncation, and a buffer of messages is decoded in order.
    - Derived statistics: a sum over a time range counts exactly the samples of its
      bins, within the precision the code announces; the map interface acts on each
      key alone; totals become differences whose sum is the latest total; a detector
      sees one value for each period; means and variances are the exponentially
      weighted ones in exact arithmetic; when an anomaly is reported.
    - The request pipeline: pipelines run one after the other and stage by stage, each
      instance once, without undefined behaviour or deadlock whatever the
      interleaving, as long as each has a stage; and all of them end if each stage has
      an instance.
    - The server: the bitmap is a set of indices in use, the task instances of
      connections are distinct, and server and state machines together are undefined
      exactly where one state machine is or a connection that still holds a session is
      destroyed; one that has just been shut down is destroyed.
    - The caches of UVEs: over every history each object is filed under its own name and
      table and no assertion fails; a synchronisation sends exactly the objects newer than
      what the collector has; an object nobody updates is deleted and announced after two
      rounds of its timeout; a type is processed in every tick its period says; a
      configuration of derived statistics takes effect as a whole or not at all.
    - Messages the generated C code of the kernel writes are processed by the agent in their
      order, each as what the agent's definition makes of it, and what follows a message
      that the agent does not know or cannot read; and the same from the generated C++ code
      of the agent to the kernel.
    - A message written to a file by generated code is appended and comes back, however
      the system cuts reads and writes into pieces, while no call fails and no read is
      interrupted more often than the code retries; descriptors are closed.
    - The facility: every message sent is taken by the client, only logged, or counted
      once under the reason it is dropped for, and its object is released once; a system
      log passes exactly if fewer than the limit passed in its second; over every
      history of initialisations and ends, an operation fails exactly where it is said.
    - Generated code: a reader agrees with its reference in front of any message, with
      unknown, repeated, missing and retyped fields, if containers hold the element types it
      expects, which it does not test; and messages between different versions of a
      definition keep every member that both have, or fail at a required one that is missing.
    - Generated C code: the writers on a block and through the protocol agree byte by byte
      and never leave the block, but the one on a block refuses doubles; the readers agree, on
      whole messages and on those that were cut short, if the fields to skip are of types the
      library skips whatever the bytes it never sets hold; a deleter releases all blocks but the strings in lists.
    - Where the code does not do what it means to, the deviation is a theorem too:
      a frame shorter than its envelope, a stale close at the client, a missing session
      in Connect, an unknown control message, truncated input of the C++ binary
      protocol, a negative set size, the C skips of a list and of a struct that is
      cut off, a weight of an anomaly detector that is not a number or too small, a
      pipeline without stages or instances, the indices the server leaks, the
      connection FindConnection finds and the fifth attempt of its Initialize, a
      synchronisation of UVEs for one table that does not end, a connection destroyed with
      a session it took after its shutdown, a second initialisation
      that replaces the client, a read that fails in the middle of [readAll], a full disk,
      an escaped character in the header of a control message.

    ** What is not modelled

    Of the compiler, the lexer and the grammar, the checks of definitions and the generators
    of Python and of documentation; the field annotations and default values of generated
    C++ code; constants and enumerations of the C code.  The HTTP introspection server, which is built on
    an http library that is not part of the repository; the program options; the Python
    library.  Logging is a line in a list where the facility decides about it and left out
    elsewhere; locks are left out, their critical sections are the steps here. *)

From Stdlib Require Export Strings.Byte ZArith Lia.
From Stdlib Require Strings.String.
From stdpp Require Export base list gmap strings numbers.

Declare Scope sandesh_scope.
Delimit Scope sandesh_scope with snh.

Local Open Scope Z_scope.

(** ** Machine integers: a w-bit value is a [Z] with its wrap-around written out *)
Definition wrapU (w z : Z) : Z := z `mod` 2 ^ w.
Definition wrapS (w z : Z) : Z := (z + 2 ^ (w - 1)) `mod` 2 ^ w - 2 ^ (w - 1).

Abbreviation u8 := (wrapU 8).
Abbreviation u16 := (wrapU 16).
Abbreviation u32 := (wrapU 32).
Abbreviation u64 := (wrapU 64).
Abbreviation i8 := (wrapS 8).
Abbreviation i16 := (wrapS 16).
Abbreviation i32 := (wrapS 32).
Abbreviation i64 := (wrapS 64).

(** ** Bytes *)
Definition byte_of_Z (z : Z) : byte :=
  match Byte.of_N (Z.to_N (z `mod` 256)) with Some b => b | None => x00 end.
Definition byte_to_Z (b : byte) : Z := Z.of_N (Byte.to_N b).

#[global] Instance byte_eq_dec : EqDecision byte := Byte.byte_eq_dec.

(** The bytes of a string literal. *)
Definition bs (s : string) : list byte := Strings.String.list_byte_of_string s.

(** [n] bytes of [z], least significant first. *)
Fixpoint le_bytes (n : nat) (z : Z) : list byte :=
  match n with
  | O => []
  | S n => byte_of_Z z :: le_bytes n (z / 256)
  end.
Fixpoint le_value (l : list byte) : Z :=
  match l with
  | [] => 0
  | b :: l => byte_to_Z b + 256 * le_value l
  end.
Definition be_bytes (n : nat) (z : Z) : list byte := rev (le_bytes n z).
Definition be_value (l : list byte) : Z := le_value (rev l).

(** ** Loops whose rounds can fail *)
Fixpoint foldM {A S} (f : A -> S -> option S) (l : list A) (s : S) : option S :=
  match l with
  | [] => Some s
  | a :: l => s ← f a s; foldM f l s
  end.

Lemma foldM_ext {A S} (f f' : A -> S -> option S) l s :
  (forall a s, f a s = f' a s) -> foldM f l s = foldM f' l s.
Proof.
  intros H. revert s. induction l as [|a l IH]; intros s; [done|]. cbn. rewrite H.
  destruct (f' a s) as [s'|]; [apply IH|done].
Qed.
Lemma foldM_app {A S} (f : A -> S -> option S) l k s : foldM f (l ++ k) s = (foldM f l s ≫= foldM f k).
Proof.
  revert s. induction l as [|a l IH]; intros s; [done|]. cbn. destruct (f a s) as [s'|]; [apply IH|done].
Qed.

(** ** Bytes and C strings *)
#[export] Instance byte_countable : Countable byte := inj_countable Byte.to_N Byte.of_N Byte.of_to_N.

(** The characters in front of the first NUL. *)
Fixpoint c_str (l : list byte) : list byte :=
  match l with
  | [] => []
  | b :: l => if decide (b = x00) then [] else b :: c_str l
  end.

(** ** [memcpy] into an allocated block; [None] is an access outside of it *)
Definition memcpy (dst : list byte) (off : Z) (src : list byte) : option (list byte) :=
  if bool_decide (0 <= off /\ off + Z.of_nat (length src) <= Z.of_nat (length dst))
  then Some (take (Z.to_nat off) dst ++ src
             ++ drop (Z.to_nat off + length src) dst)
  else None.

(** Several copies, each behind the one before. *)
Fixpoint memcpys (dst : list byte) (off : Z) (srcs : list (list byte)) : option (list byte) :=
  match srcs with
  | [] => Some dst
  | d :: srcs => dst ← memcpy dst off d; memcpys dst (off + Z.of_nat (length d)) srcs
  end.

(** [n] bytes read at offset [off] of a block; [None] is an access outside of it. *)
Definition mread (m : list byte) (off n : Z) : option (list byte) :=
  if bool_decide (0 <= off /\ 0 <= n /\ off + n <= Z.of_nat (length m))
  then Some (take (Z.to_nat n) (drop (Z.to_nat off) m))
  else None.

(** Length of a byte sequence as a [Z]. *)
Abbreviation zlen l := (Z.of_nat (length l)).

(** ** Automation *)
Create HintDb snh discriminated.

(** Case analysis on the [bool_decide]s and [Z] comparisons of a goal. *)
Ltac zify_bools :=
  repeat match goal with
  | H : (_ <? _) = true |- _ => apply Z.ltb_lt in H
  | H : (_ <? _) = false |- _ => apply Z.ltb_ge in H
  | H : (_ <=? _) = true |- _ => apply Z.leb_le in H
  | H : (_ <=? _) = false |- _ => apply Z.leb_gt in H
  | H : (_ =? _) = true |- _ => apply Z.eqb_eq in H
  | H : (_ =? _) = false |- _ => apply Z.eqb_neq in H
  | H : bool_decide _ = true |- _ => apply bool_decide_eq_true_1 in H
  | H : bool_decide _ = false |- _ => apply bool_decide_eq_false_1 in H
  | H : negb _ = true |- _ => apply negb_true_iff in H
  | H : negb _ = false |- _ => apply negb_false_iff in H
  | H : (_ && _)%bool = true |- _ => apply andb_true_iff in H; destruct H
  | H : (_ || _)%bool = false |- _ => apply orb_false_iff in H; destruct H
  end.

(** Split on the tests of the goal, keeping the equations as facts of [Z]. *)
Ltac split_tests :=
  repeat match goal with
  | |- context [if ?b then _ else _] => destruct b eqn:?
  end; zify_bools.

(** ** Lemmas on integers *)
Lemma wrapU_small w z : 0 <= z < 2 ^ w -> wrapU w z = z.
Proof. apply Z.mod_small. Qed.

Lemma wrapU_range w z : 0 <= w -> 0 <= wrapU w z < 2 ^ w.
Proof. intros. apply Z.mod_pos_bound. by apply Z.pow_pos_nonneg. Qed.

Lemma wrapS_small w z : 0 < w -> - 2 ^ (w - 1) <= z < 2 ^ (w - 1) -> wrapS w z = z.
Proof.
  intros Hw Hz. unfold wrapS. rewrite Z.mod_small; [lia|].
  replace (2 ^ w) with (2 * 2 ^ (w - 1)); [lia|].
  rewrite <- Z.pow_succ_r by lia. f_equal. lia.
Qed.

Lemma wrapS_range w z : 0 < w -> - 2 ^ (w - 1) <= wrapS w z < 2 ^ (w - 1).
Proof.
  intros Hw. unfold wrapS.
  pose proof (Z.mod_pos_bound (z + 2 ^ (w - 1)) (2 ^ w)) as H.
  assert (E : 2 ^ w = 2 * 2 ^ (w - 1)).
  { rewrite <- Z.pow_succ_r by lia. f_equal. lia. }
  pose proof (Z.pow_pos_nonneg 2 (w - 1)). lia.
Qed.

Lemma wrapS_wrapU w z : 0 < w -> wrapS w (wrapU w z) = wrapS w z.
Proof.
  intros. unfold wrapS, wrapU. by rewrite Zplus_mod_idemp_l.
Qed.

(** ** Lemmas on bytes *)
Lemma byte_to_Z_range b : 0 <= byte_to_Z b < 256.
Proof. unfold byte_to_Z. pose proof (Byte.to_N_bounded b). lia. Qed.

Lemma byte_of_to_Z b : byte_of_Z (byte_to_Z b) = b.
Proof.
  unfold byte_of_Z. rewrite Z.mod_small by apply byte_to_Z_range.
  unfold byte_to_Z. by rewrite N2Z.id, Byte.of_to_N.
Qed.

Lemma byte_to_of_Z z : byte_to_Z (byte_of_Z z) = z `mod` 256.
Proof.
  unfold byte_of_Z. pose proof (Z.mod_pos_bound z 256).
  destruct (Byte.of_N _) as [b|] eqn:E.
  - apply Byte.to_of_N in E. unfold byte_to_Z. rewrite E. lia.
  - apply Byte.of_N_None_iff in E. lia.
Qed.

Lemma length_le_bytes n z : length (le_bytes n z) = n.
Proof. revert z. induction n as [|n IH]; intros; simpl; [done|]. by rewrite IH. Qed.

Lemma length_be_bytes n z : length (be_bytes n z) = n.
Proof. unfold be_bytes. by rewrite length_rev, length_le_bytes. Qed.

Lemma le_value_bytes n z : le_value (le_bytes n z) = wrapU (8 * Z.of_nat n) z.
Proof.
  revert z. induction n as [|n IH]; intros z; [by rewrite Z.mul_0_r; unfold wrapU; rewrite Z.mod_1_r|].
  cbn [le_bytes le_value]. rewrite IH, byte_to_of_Z. unfold wrapU.
  replace (8 * Z.of_nat (S n)) with (8 + 8 * Z.of_nat n) by lia.
  rewrite Z.pow_add_r by lia. change (2 ^ 8) with 256.
  rewrite Z.rem_mul_r by (try lia; apply Z.pow_nonzero; lia). lia.
Qed.

Lemma le_bytes_value l : le_bytes (length l) (le_value l) = l.
Proof.
  induction l as [|b l IH]; [done|]. cbn [le_value length le_bytes].
  pose proof (byte_to_Z_range b). f_equal.
  - rewrite <- (byte_of_to_Z b) at 2. unfold byte_of_Z.
    by rewrite Z.mul_comm, Z.mod_add by lia.
  - by rewrite Z.mul_comm, Z.div_add, Z.div_small by lia.
Qed.

Lemma be_value_bytes n z : be_value (be_bytes n z) = wrapU (8 * Z.of_nat n) z.
Proof. unfold be_value, be_bytes. by rewrite rev_involutive, le_value_bytes. Qed.

Lemma be_bytes_value l : be_bytes (length l) (be_value l) = l.
Proof.
  unfold be_value, be_bytes. rewrite <- (length_rev l).
  by rewrite le_bytes_value, rev_involutive.
Qed.

(** ** Lemmas on blocks *)
Lemma memcpy_Some dst off src :
  0 <= off -> off + zlen src <= zlen dst ->
  memcpy dst off src = Some (take (Z.to_nat off) dst ++ src
             ++ drop (Z.to_nat off + length src) dst).
Proof. intros. unfold memcpy. by rewrite bool_decide_eq_true_2. Qed.

Lemma memcpy_inv dst off src dst' :
  memcpy dst off src = Some dst' ->
  0 <= off /\ off + zlen src <= zlen dst /\
  dst' = take (Z.to_nat off) dst ++ src ++ drop (Z.to_nat off + length src) dst.
Proof.
  unfold memcpy. case_bool_decide as H; intros [= <-]. tauto.
Qed.

Lemma memcpy_length dst off src dst' :
  memcpy dst off src = Some dst' -> length dst' = length dst.
Proof.
  intros (?&?&->)%memcpy_inv. rewrite !length_app, length_take, length_drop. lia.
Qed.

(** What a copy leaves below and what it puts at its offset. *)
Lemma memcpy_take dst off src dst' :
  memcpy dst off src = Some dst' ->
  take (Z.to_nat off + length src) dst' = take (Z.to_nat off) dst ++ src.
Proof.
  intros (?&?&->)%memcpy_inv. rewrite app_assoc, take_app_length'; [done|].
  rewrite length_app, length_take. lia.
Qed.

Lemma memcpy_take_below dst off src dst' n :
  memcpy dst off src = Some dst' -> (n <= Z.to_nat off)%nat ->
  take n dst' = take n dst.
Proof.
  intros (?&?&->)%memcpy_inv Hn. rewrite take_app_le by (rewrite length_take; lia).
  rewrite take_take. f_equal. lia.
Qed.

Lemma memcpy_app dst off a b dst' :
  memcpy dst off a = Some dst' -> off + zlen a + zlen b <= zlen dst ->
  memcpy dst' (off + zlen a) b = memcpy dst off (a ++ b).
Proof.
  intros E Hb. pose proof (memcpy_length _ _ _ _ E) as Hl. pose proof (memcpy_take _ _ _ _ E) as Ht.
  apply memcpy_inv in E as (?&?&->). rewrite !memcpy_Some by (rewrite ?length_app in *; lia).
  f_equal. replace (Z.to_nat (off + zlen a)) with (Z.to_nat off + length a)%nat by lia.
  rewrite Ht, <- !app_assoc. do 2 f_equal. f_equal.
  rewrite (app_assoc (take _ _)), drop_app_ge; rewrite length_app, length_take; [|lia].
  rewrite drop_drop, length_app. f_equal. lia.
Qed.

Lemma memcpys_join dst off srcs :
  0 <= off -> off + zlen (concat srcs) <= zlen dst ->
  memcpys dst off srcs = memcpy dst off (concat srcs).
Proof.
  revert dst off. induction srcs as [|d srcs IH]; intros dst off Ho Hf.
  - cbn. rewrite memcpy_Some by (simpl in *; lia). simpl.
    by rewrite Nat.add_0_r, take_drop.
  - cbn [memcpys concat] in *. rewrite length_app in Hf.
    destruct (memcpy dst off d) as [m|] eqn:E; [|rewrite memcpy_Some in E by lia; done].
    cbn [mbind option_bind]. pose proof (memcpy_length _ _ _ _ E).
    rewrite IH by lia. apply memcpy_app; [done|lia].
Qed.

Lemma take_take_le {A} (l : list A) n m : (n <= m)%nat -> take n (take m l) = take n l.
Proof. intros. rewrite take_take. f_equal. lia. Qed.

Lemma drop_take_app {A} (l k : list A) n m :
  (n <= m)%nat -> (m <= length l)%nat -> drop n (take m l ++ k) = drop n (take m l) ++ k.
Proof. intros. apply drop_app_le. rewrite length_take. lia. Qed.

Lemma mread_Some m off n :
  0 <= off -> 0 <= n -> off + n <= zlen m ->
  mread m off n = Some (take (Z.to_nat n) (drop (Z.to_nat off) m)).
Proof. intros. unfold mread. by rewrite bool_decide_eq_true_2. Qed.

(** ** Decimal text *)
Definition digit (d : Z) : byte := byte_of_Z (48 + d).
Definition digit_value (b : byte) : Z := byte_to_Z b - 48.
Definition is_digit (b : byte) : bool := (48 <=? byte_to_Z b) && (byte_to_Z b <=? 57).

(** Digits of [z], least significant first; [fuel] digits at most. *)
Fixpoint dec_digits (fuel : nat) (z : Z) : list byte :=
  match fuel with
  | O => []
  | S fuel => digit (z `mod` 10) :: (if z <? 10 then [] else dec_digits fuel (z / 10))
  end.

(** Decimal text of a natural number; 20 digits hold every 64-bit value. *)
Definition dec_text (z : Z) : list byte := rev (dec_digits 20 z).

(** Value of a text of decimal digits. *)
Definition dec_value (l : list byte) : Z :=
  foldl (fun acc b => acc * 10 + digit_value b) 0 l.

(** [ostream] output with a width and a fill character (right adjusted). *)
Definition pad_left (width : nat) (fill : byte) (l : list byte) : list byte :=
  replicate (width - length l) fill ++ l.

Lemma digit_value_digit d : 0 <= d < 10 -> digit_value (digit d) = d.
Proof.
  intros. unfold digit_value, digit. rewrite byte_to_of_Z, Z.mod_small by lia. lia.
Qed.

Lemma is_digit_digit d : 0 <= d < 10 -> is_digit (digit d) = true.
Proof.
  intros. unfold is_digit, digit. rewrite byte_to_of_Z, Z.mod_small by lia.
  apply andb_true_iff. split; apply Z.leb_le; lia.
Qed.

Lemma dec_value_snoc l b : dec_value (l ++ [b]) = dec_value l * 10 + digit_value b.
Proof. unfold dec_value. by rewrite foldl_app. Qed.

Lemma dec_digits_value fuel z :
  0 <= z < 10 ^ Z.of_nat fuel -> dec_value (rev (dec_digits fuel z)) = z.
Proof.
  revert z. induction fuel as [|fuel IH]; intros z Hz.
  { change (10 ^ Z.of_nat 0) with 1 in Hz. cbn. lia. }
  cbn [dec_digits rev]. rewrite dec_value_snoc, digit_value_digit by (apply Z.mod_pos_bound; lia).
  destruct (Z.ltb_spec z 10).
  - cbn. rewrite Z.mod_small by lia. lia.
  - rewrite IH; [pose proof (Z.div_mod z 10); lia|].
    replace (Z.of_nat (S fuel)) with (1 + Z.of_nat fuel) in Hz by lia.
    rewrite Z.pow_add_r in Hz by lia. split; [apply Z.div_pos; lia|].
    apply Z.div_lt_upper_bound; lia.
Qed.

Lemma dec_digits_digit fuel z : 0 <= z -> Forall (fun b => is_digit b = true) (dec_digits fuel z).
Proof.
  revert z. induction fuel as [|fuel IH]; intros z Hz; [constructor|].
  cbn [dec_digits]. constructor; [apply is_digit_digit, Z.mod_pos_bound; lia|].
  destruct (z <? 10); [constructor|]. apply IH, Z.div_pos; lia.
Qed.

Lemma dec_digits_length fuel z k :
  0 <= z < 10 ^ Z.of_nat k -> (0 < k)%nat -> (length (dec_digits fuel z) <= k)%nat.
Proof.
  revert z k. induction fuel as [|fuel IH]; intros z k Hz Hk; [simpl; lia|].
  cbn [dec_digits length]. destruct (Z.ltb_spec z 10); [simpl; lia|].
  destruct k as [|[|k]]; [lia|change (10 ^ Z.of_nat 1) with 10 in Hz; lia|].
  apply le_n_S, IH; [|lia].
  replace (Z.of_nat (S (S k))) with (1 + Z.of_nat (S k)) in Hz by lia.
  rewrite Z.pow_add_r in Hz by lia. split; [apply Z.div_pos; lia|].
  apply Z.div_lt_upper_bound; lia.
Qed.

Lemma dec_value_zeros k l : dec_value (replicate k (digit 0) ++ l) = dec_value l.
Proof.
  unfold dec_value. rewrite foldl_app. f_equal.
  induction k as [|k IH]; [done|]. exact IH.
Qed.

(** A number below 10^k in a field of width [k] filled with zeros: the width is
    exactly [k], every character is a digit, and the value reads back. *)
Lemma pad_left_spec k z :
  (0 < k <= 20)%nat -> 0 <= z < 10 ^ Z.of_nat k ->
  length (pad_left k (digit 0) (dec_text z)) = k /\
  Forall (fun b => is_digit b = true) (pad_left k (digit 0) (dec_text z)) /\
  dec_value (pad_left k (digit 0) (dec_text z)) = z.
Proof.
  intros Hk Hz. unfold pad_left, dec_text.
  pose proof (dec_digits_length 20 z k Hz) as Hl. split; [|split].
  - rewrite length_app, length_replicate, length_rev. lia.
  - apply Forall_app. split.
    + apply Forall_replicate. by apply is_digit_digit.
    + apply Forall_rev, dec_digits_digit. lia.
  - rewrite dec_value_zeros. apply dec_digits_value. split; [lia|].
    eapply Z.lt_le_trans; [apply Hz|]. apply Z.pow_le_mono_r; lia.
Qed.
