(* ===== verification/Transport.v ===== *)
(** * Transports

    The C++ transport layer: [TMemoryBuffer] (transport/TBufferTransports.h and
    .cpp) with the fast paths of [TBufferBase], the generic [readAll] of
    transport/TTransport.h, and the interface the protocols are written
    against.

    Pointers into the buffer are offsets from [buffer_].  A result [None] is an
    [assert] that fails, a memory access outside of the allocated block, or a
    loop that does not end.  The allocator is a parameter. *)

From S2P Require Import Prelude.
Local Open Scope Z_scope.

(** The C allocator: which sizes it can serve, and what fresh memory holds. *)
Class Allocator := { alloc_ok : Z -> bool; junk : byte }.

(** ** The interface of a transport *)
Class Transport (T : Type) := {
  tread : T -> Z -> option (Z * list byte * T);
  twrite : T -> list byte -> option (Z * T);
}.

(** [data] put into the caller's buffer at [have], where the bytes [got] are known. *)
Definition overlay (got : list byte) (have : Z) (data : list byte) : list byte :=
  take (Z.to_nat have) got ++ data ++ drop (Z.to_nat have + length data) got.

Lemma overlay_end got data : overlay got (zlen got) data = got ++ data.
Proof. unfold overlay. rewrite Nat2Z.id, firstn_all, drop_ge, app_nil_r by lia. done. Qed.

(** [readAll] of TTransport.h: [get] is unsigned, so [get <= 0] is [get == 0].  Every read
    that does not fail brings a byte, so there are turns enough unless several fail. *)
Fixpoint readAll_loop `{Transport T} (fuel : nat) (t : T) (got : list byte) (have len : Z)
    : option (Z * list byte * T) :=
  if have <? len then
    match fuel with
    | O => None
    | S fuel =>
        '(ret, data, t) ← tread t (u32 (len - have));
        let get := u32 ret in
        let got := overlay got have data in
        if get =? 0 then Some (-1, got, t)
        else readAll_loop fuel t got (u32 (have + get)) len
    end
  else Some (i32 have, got, t).

Definition readAll `{Transport T} (t : T) (len : Z) : option (Z * list byte * T) :=
  readAll_loop (S (Z.to_nat len)) t [] 0 len.

(** ** What a protocol uses of a transport

    [t_borrow t len] is the pointer [borrow(NULL, &len)] returns, as the [len]
    bytes it points to, or [None] for a null pointer. *)
Class TTransport (T : Type) := {
  t_readAll : T -> Z -> option (Z * list byte * T);
  t_write : T -> list byte -> option (Z * T);
  t_borrow : T -> Z -> option (option (list byte) * T);
  t_consume : T -> Z -> option T;
}.

(** The allocator serves every size that fits an [int32_t]. *)
Definition plenty `{!Allocator} : Prop := forall n, 0 <= n < 2 ^ 31 -> alloc_ok n = true.

(** What a transport promises: it is a queue of bytes.  Writes append as long as there
    is room; reads and borrows take from the front, and fail when it is too short.  One
    that is readable may have no room, and one with room need not be readable.  Of a
    transport that does not lend its bytes a protocol reads strings into memory of its
    own, which must be there. *)
Class TransportLaws (T : Type) `{!Allocator} `{TTransport T} := {
  t_ok : T -> Prop;
  t_readable : T -> Prop;
  t_contents : T -> list byte;
  t_room : T -> Z -> Prop;
  t_room_le t n m : 0 <= n -> n <= m -> t_room t m -> t_room t n;
  t_write_ok t d :
    t_ok t -> t_room t (zlen d) ->
    exists t', t_write t d = Some (0, t') /\ t_ok t' /\ (t_readable t -> t_readable t') /\
      t_contents t' = t_contents t ++ d /\
      forall n, 0 <= n -> t_room t (zlen d + n) -> t_room t' n;
  t_readAll_ok t n :
    t_readable t -> 0 <= n < 2 ^ 31 -> n <= zlen (t_contents t) ->
    exists t', t_readAll t n = Some (n, take (Z.to_nat n) (t_contents t), t') /\ t_readable t' /\
      t_contents t' = drop (Z.to_nat n) (t_contents t);
  t_readAll_short t n :
    t_readable t -> 0 <= n < 2 ^ 31 -> zlen (t_contents t) < n ->
    exists t', t_readAll t n = Some (-1, t_contents t, t') /\ t_readable t' /\
      t_contents t' = [];
  t_borrow_ok t n :
    t_readable t -> 0 <= n < 2 ^ 31 ->
    exists r t', t_borrow t n = Some (r, t') /\ t_readable t' /\ t_contents t' = t_contents t /\
      match r with
      | Some d => d = take (Z.to_nat n) (t_contents t) /\ n <= zlen (t_contents t) /\
          exists t'', t_consume t' n = Some t'' /\ t_readable t'' /\
            t_contents t'' = drop (Z.to_nat n) (t_contents t)
      | None => zlen (t_contents t) < n \/ plenty
      end;
}.

(** ** [TMemoryBuffer] *)
Module TMemoryBuffer.

Definition ENOMEM : Z := 12.
Definition defaultSize : Z := 1024.

Inductive MemoryPolicy := OBSERVE | COPY | TAKE_OWNERSHIP.

Record t := Mk {
  buffer_ : option (list byte);
  bufferSize_ : Z;
  rBase_ : Z;
  rBound_ : Z;
  wBase_ : Z;
  wBound_ : Z;
  owner_ : bool;
}.

Definition mem (b : t) : list byte := default [] (buffer_ b).

Definition set_rBase (v : Z) (b : t) : t :=
  Mk (buffer_ b) (bufferSize_ b) v (rBound_ b) (wBase_ b) (wBound_ b) (owner_ b).
Definition set_rBound (v : Z) (b : t) : t :=
  Mk (buffer_ b) (bufferSize_ b) (rBase_ b) v (wBase_ b) (wBound_ b) (owner_ b).
Definition set_wBase (v : Z) (b : t) : t :=
  Mk (buffer_ b) (bufferSize_ b) (rBase_ b) (rBound_ b) v (wBound_ b) (owner_ b).
Definition set_mem (m : list byte) (b : t) : t :=
  Mk ((fun _ => m) <$> buffer_ b) (bufferSize_ b) (rBase_ b) (rBound_ b) (wBase_ b)
     (wBound_ b) (owner_ b).

Definition available_read (b : t) : Z := u32 (wBase_ b - rBase_ b).
Definition available_write (b : t) : Z := u32 (wBound_ b - wBase_ b).

Section Operations.
Context `{!Allocator}.

Definition malloc (n : Z) : option (list byte) :=
  if alloc_ok n then Some (replicate (Z.to_nat n) junk) else None.

Definition realloc (m : list byte) (n : Z) : option (list byte) :=
  if alloc_ok n then Some (resize (Z.to_nat n) junk m) else None.

Definition initCommon (buf : option (list byte)) (size : Z) (owner : bool) (wPos : Z)
    : option t :=
  buf ← (match buf with
         | None => if size =? 0 then Some None
                   else if owner then Some <$> malloc size else None
         | Some m => Some (Some m)
         end);
  Some (Mk buf size 0 wPos wPos size owner).

Definition new_default : option t := initCommon None defaultSize true 0.
Definition new_size (sz : Z) : option t := initCommon None sz true 0.

Fixpoint grow (fuel : nat) (len avail new_size aw size : Z) : option Z :=
  if avail <? len then
    match fuel with
    | O => None
    | S fuel =>
        let new_size := if 0 <? new_size then u32 (new_size * 2) else 1 in
        grow fuel len (u32 (aw + u32 (new_size - size))) new_size aw size
    end
  else Some new_size.

(** Doubling a [uint32_t] visits every power of two within 33 turns and then
    repeats, so 66 turns decide whether the loop ends. *)
Definition grow_fuel : nat := 66.

Definition ensureCanWrite (len : Z) (b : t) : option (Z * t) :=
  let avail := available_write b in
  if len <=? avail then Some (0, b)
  else if negb (owner_ b) then Some (ENOMEM, b)
  else
    new_size ← grow grow_fuel len avail (bufferSize_ b) avail (bufferSize_ b);
    match realloc (mem b) new_size with
    | None => Some (ENOMEM, b)
    | Some m => Some (0, Mk (Some m) new_size (rBase_ b) (rBound_ b) (wBase_ b)
                            new_size (owner_ b))
    end.

Definition writeSlow (buf : list byte) (b : t) : option (Z * t) :=
  '(error, b) ← ensureCanWrite (zlen buf) b;
  if negb (error =? 0) then Some (error, b)
  else
    m ← memcpy (mem b) (wBase_ b) buf;
    Some (error, set_wBase (wBase_ b + zlen buf) (set_mem m b)).

Definition write (buf : list byte) (b : t) : option (Z * t) :=
  let new_wBase := wBase_ b + zlen buf in
  if new_wBase <=? wBound_ b then
    m ← memcpy (mem b) (wBase_ b) buf;
    Some (0, set_wBase new_wBase (set_mem m b))
  else writeSlow buf b.

Definition new_buffer (buf : option (list byte)) (sz : Z) (policy : MemoryPolicy)
    : option t :=
  match buf with
  | None => if sz =? 0 then Some tt else None
  | Some _ => Some tt
  end;;
  match policy with
  | OBSERVE => initCommon buf sz false sz
  | TAKE_OWNERSHIP => initCommon buf sz true sz
  | COPY => b ← initCommon None sz true 0;
            data ← mread (default [] buf) 0 sz;
            snd <$> write data b
  end.

Definition computeRead (len : Z) (b : t) : Z * Z * t :=
  let b := set_rBound (wBase_ b) b in
  let give := len `min` available_read b in
  (rBase_ b, give, set_rBase (rBase_ b + give) b).

Definition readSlow (len : Z) (b : t) : option (Z * list byte * t) :=
  let '(start, give, b) := computeRead len b in
  data ← mread (mem b) start give;
  Some (give, data, b).

Definition read (len : Z) (b : t) : option (Z * list byte * t) :=
  let new_rBase := rBase_ b + len in
  if new_rBase <=? rBound_ b then
    data ← mread (mem b) (rBase_ b) len;
    Some (i32 len, data, set_rBase new_rBase b)
  else '(give, data, b) ← readSlow len b; Some (i32 give, data, b).

#[export] Instance transport : Transport t := {
  tread b len := read len b;
  twrite b buf := write buf b;
}.

Definition readAll (len : Z) (b : t) : option (Z * list byte * t) :=
  let new_rBase := rBase_ b + len in
  if new_rBase <=? rBound_ b then
    data ← mread (mem b) (rBase_ b) len;
    Some (i32 len, data, set_rBase new_rBase b)
  else Transport.readAll b len.

Definition borrowSlow (len : Z) (b : t) : option (Z * Z) * t :=
  let b := set_rBound (wBase_ b) b in
  if len <=? available_read b then (Some (rBase_ b, available_read b), b) else (None, b).

(** [Some (p, n)]: a pointer to [n] readable bytes at offset [p]. *)
Definition borrow (len : Z) (b : t) : option (Z * Z) * t :=
  if len <=? rBound_ b - rBase_ b
  then (Some (rBase_ b, u32 (rBound_ b - rBase_ b)), b)
  else borrowSlow len b.

Definition consume (len : Z) (b : t) : option t :=
  if len <=? rBound_ b - rBase_ b then Some (set_rBase (rBase_ b + len) b) else None.

Definition readAppendToString (str : list byte) (len : Z) (b : t)
    : option (Z * list byte * t) :=
  match buffer_ b with
  | None => Some (0, str, b)
  | Some _ =>
      let '(start, give, b) := computeRead len b in
      data ← mread (mem b) start give;
      Some (give, str ++ data, b)
  end.

Definition readAsString (len : Z) (b : t) : option (list byte * t) :=
  '(_, str, b) ← readAppendToString [] len b; Some (str, b).

Definition getBuffer (b : t) : Z * Z := (rBase_ b, u32 (wBase_ b - rBase_ b)).

Definition getBufferAsString (b : t) : option (list byte) :=
  match buffer_ b with
  | None => Some []
  | Some m => let '(p, sz) := getBuffer b in mread m p sz
  end.

Definition peek (b : t) : bool := rBase_ b <? wBase_ b.

Definition resetBuffer (b : t) : t :=
  if owner_ b then Mk (buffer_ b) (bufferSize_ b) 0 0 0 (wBound_ b) true
  else Mk (buffer_ b) 0 0 0 0 0 false.

Definition readEnd (b : t) : Z * t :=
  (u32 (rBase_ b), if rBase_ b =? wBase_ b then resetBuffer b else b).

Definition writeEnd (b : t) : Z := u32 (wBase_ b).

Definition getWritePtr (len : Z) (b : t) : option (Z * t) :=
  '(_, b) ← ensureCanWrite len b; Some (wBase_ b, b).

Definition wroteBytes (len : Z) (b : t) : option t :=
  if available_write b <? len then None else Some (set_wBase (wBase_ b + len) b).

(** What [borrow] hands to a protocol: the bytes behind the pointer. *)
Definition borrow_bytes (b : t) (len : Z) : option (option (list byte) * t) :=
  let '(r, b) := borrow len b in
  match r with
  | Some (p, _) => data ← mread (mem b) p len; Some (Some data, b)
  | None => Some (None, b)
  end.

#[global] Instance ttransport : TTransport t := {
  t_readAll b n := readAll n b;
  t_write b d := write d b;
  t_borrow := borrow_bytes;
  t_consume b n := consume n b;
}.

End Operations.

(** ** The buffer as a queue of bytes *)

(** The offsets are ordered and stay inside of the allocated block. *)
Definition wf (b : t) : Prop :=
  0 <= rBase_ b /\ rBase_ b <= rBound_ b /\ rBound_ b <= wBase_ b /\
  wBase_ b <= wBound_ b /\ wBound_ b = bufferSize_ b /\
  bufferSize_ b <= zlen (mem b) /\ bufferSize_ b < 2 ^ 32 /\
  (buffer_ b = None -> bufferSize_ b = 0).

(** The bytes written and not read yet. *)
Definition contents (b : t) : list byte :=
  drop (Z.to_nat (rBase_ b)) (take (Z.to_nat (wBase_ b)) (mem b)).

Section Proofs.
Context `{!Allocator}.

Lemma contents_length b : wf b -> zlen (contents b) = wBase_ b - rBase_ b.
Proof.
  intros (?&?&?&?&?&?&?&?). unfold contents. rewrite length_drop, length_take. lia.
Qed.

Lemma available_read_contents b : wf b -> available_read b = zlen (contents b).
Proof.
  intros Hb. rewrite contents_length by done. destruct Hb as (?&?&?&?&?&?&?&?).
  apply wrapU_small. lia.
Qed.

(** Reading [n] bytes at the read pointer returns the front of the queue. *)
Lemma mread_contents b n :
  wf b -> 0 <= n <= zlen (contents b) ->
  mread (mem b) (rBase_ b) n = Some (take (Z.to_nat n) (contents b)).
Proof.
  intros Hb Hn. rewrite contents_length in Hn by done.
  destruct Hb as (?&?&?&?&?&?&?&?). rewrite mread_Some by lia. f_equal.
  unfold contents. rewrite skipn_firstn_comm, take_take_le by lia. done.
Qed.

Lemma set_rBase_contents b n :
  wf b -> 0 <= n -> rBase_ b + n <= rBound_ b ->
  wf (set_rBase (rBase_ b + n) b) /\
  contents (set_rBase (rBase_ b + n) b) = drop (Z.to_nat n) (contents b).
Proof.
  intros (?&?&?&?&?&?&?&?) ??. split.
  - repeat split; simpl; (lia || done).
  - unfold contents; simpl. rewrite drop_drop. f_equal. lia.
Qed.

Lemma set_rBound_wf b : wf b -> wf (set_rBound (wBase_ b) b).
Proof. intros (?&?&?&?&?&?&?&?). repeat split; simpl; (lia || done). Qed.

Lemma grow_spec fuel len w ns size :
  0 <= w -> 0 < len -> w + len <= 2 ^ 31 -> 0 <= w <= size -> size <= ns ->
  (ns = 0 \/ 1 <= ns) -> ns < 2 ^ 32 ->
  w + len <= (if ns =? 0 then 1 else 2 * ns) * 2 ^ (Z.of_nat fuel - 1) ->
  (0 < fuel)%nat ->
  exists ns', grow fuel len (u32 (ns - w)) ns (u32 (size - w)) size = Some ns' /\
    w + len <= ns' < 2 ^ 32 /\ ns <= ns'.
Proof.
  intros ????. revert ns. induction fuel as [|fuel IH]; intros ns ? Hns ? Hf ?; [lia|].
  assert (u32 (size - w) = size - w) as E3 by (apply wrapU_small; lia).
  rewrite !E3 in *. cbn [grow]. rewrite (wrapU_small 32 (ns - w)) by lia.
  destruct (Z.ltb_spec (ns - w) len); [|exists ns; split; [done|lia]].
  set (ns2 := if 0 <? ns then u32 (ns * 2) else 1).
  assert (ns2 = if ns =? 0 then 1 else 2 * ns) as E2.
  { unfold ns2. destruct (Z.ltb_spec 0 ns), (Z.eqb_spec ns 0); try lia.
    rewrite wrapU_small by lia. lia. }
  clearbody ns2.
  assert (1 <= ns2 < 2 ^ 32 /\ ns <= ns2) as [? ?] by (destruct (ns =? 0) eqn:?; lia).
  replace (size - w + u32 (ns2 - size)) with (ns2 - w) by (rewrite wrapU_small by lia; lia).
  replace (Z.of_nat (S fuel) - 1) with (Z.of_nat fuel) in Hf by lia.
  rewrite <- E2 in Hf. destruct fuel as [|fuel].
  - change (2 ^ Z.of_nat 0) with 1 in Hf. exists ns2.
    cbn [grow]. rewrite wrapU_small by lia.
    destruct (Z.ltb_spec (ns2 - w) len); [lia|]. split; [done|lia].
  - edestruct (IH ns2) as (ns'&->&?&?); try lia.
    + destruct (Z.eqb_spec ns2 0); [lia|].
      replace (Z.of_nat (S fuel)) with (1 + (Z.of_nat (S fuel) - 1)) in Hf by lia.
      rewrite Z.pow_add_r in Hf by lia. lia.
    + exists ns'. split; [done|lia].
Qed.

(** [n] more bytes fit: there is space, or the buffer is owned, stays within
    2^31 bytes and the allocator serves it. *)
Definition room (b : t) (n : Z) : Prop :=
  wBase_ b + n <= wBound_ b \/
  (owner_ b = true /\ wBase_ b + n <= 2 ^ 31 /\ forall k, 0 <= k < 2 ^ 32 -> alloc_ok k = true).

Lemma ensureCanWrite_spec b len :
  wf b -> 0 <= len -> room b len ->
  exists b', ensureCanWrite len b = Some (0, b') /\ wf b' /\ contents b' = contents b /\
    wBase_ b' = wBase_ b /\ rBase_ b' = rBase_ b /\ owner_ b' = owner_ b /\
    wBase_ b + len <= wBound_ b' /\ wBound_ b <= wBound_ b' /\
    (0 < len -> is_Some (buffer_ b')).
Proof.
  intros (?&?&?&?&?&?&?&Hnull) ? Hroom. unfold ensureCanWrite.
  assert (available_write b = wBound_ b - wBase_ b) as -> by (apply wrapU_small; lia).
  destruct (Z.leb_spec len (wBound_ b - wBase_ b)) as [Hfit|Hfit].
  - exists b. split; [done|]. do 7 (split; [repeat split; (lia || done)|]). intros Hlen.
    destruct (buffer_ b) eqn:E; [by eexists|]. specialize (Hnull eq_refl). lia.
  - destruct Hroom as [?|(->&?&Halloc)]; [lia|]. cbn [negb].
    destruct (grow_spec grow_fuel len (wBase_ b) (bufferSize_ b) (bufferSize_ b))
      as (ns&E&?&?); try (unfold grow_fuel; lia).
    { destruct (Z.eqb_spec (bufferSize_ b) 0).
      - change (2 ^ (Z.of_nat grow_fuel - 1)) with (2 ^ 65). lia.
      - change (2 ^ (Z.of_nat grow_fuel - 1)) with (2 ^ 65). lia. }
    replace (wBound_ b) with (bufferSize_ b).
    rewrite (wrapU_small 32) in E by lia. rewrite E. cbn [mbind option_bind].
    unfold realloc. rewrite Halloc by lia. eexists. split; [done|].
    assert (length (resize (Z.to_nat ns) junk (mem b)) = Z.to_nat ns) by apply length_resize.
    assert (take (Z.to_nat (wBase_ b)) (resize (Z.to_nat ns) junk (mem b))
            = take (Z.to_nat (wBase_ b)) (mem b)) as Etake.
    { rewrite resize_spec, take_app_le by (rewrite length_take; lia).
      rewrite take_take_le by lia. done. }
    set (m := resize _ _ _) in *. clearbody m. split; [|split].
    + unfold wf, mem; simpl. repeat split; (lia || done).
    + unfold contents. simpl. rewrite <- Etake. done.
    + simpl. repeat split; (lia || done).
Qed.

(** Copying [data] to the write pointer and moving it, where [data] fits. *)
Lemma put_spec c data :
  wf c -> (0 < zlen data -> is_Some (buffer_ c)) -> wBase_ c + zlen data <= wBound_ c ->
  exists m, memcpy (mem c) (wBase_ c) data = Some m /\
    wf (set_wBase (wBase_ c + zlen data) (set_mem m c)) /\
    contents (set_wBase (wBase_ c + zlen data) (set_mem m c)) = contents c ++ data.
Proof.
  intros (?&?&?&?&?&?&?&Hnull) Hsome Hfit.
  rewrite memcpy_Some by lia. eexists; split; [done|].
  set (m := take _ _ ++ _). assert (length m = length (mem c)) as Hlen.
  { unfold m. rewrite !length_app, length_take, length_drop. lia. }
  assert (take (Z.to_nat (wBase_ c + zlen data)) m = take (Z.to_nat (wBase_ c)) (mem c) ++ data)
    as Htk.
  { unfold m. rewrite app_assoc, take_app_length'; [done|].
    rewrite length_app, length_take. lia. }
  clearbody m. assert (mem (set_mem m c) = m) as Hm.
  { unfold mem, set_mem in *; simpl. destruct (buffer_ c) eqn:Ec; [done|].
    by destruct m. }
  split.
  - unfold wf. change (mem (set_wBase _ (set_mem m c))) with (mem (set_mem m c)). rewrite Hm.
    simpl. repeat split; try lia. intros E. destruct (buffer_ c); simplify_eq/=; auto.
  - unfold contents. change (mem (set_wBase _ (set_mem m c))) with (mem (set_mem m c)).
    rewrite Hm. simpl. rewrite Htk, drop_app_le by (rewrite length_take; lia). done.
Qed.

Lemma wf_null b n : wf b -> 0 < n -> wBase_ b + n <= wBound_ b -> is_Some (buffer_ b).
Proof.
  intros (?&?&?&?&?&?&?&Hnull) ??. destruct (buffer_ b); [by eexists|].
  specialize (Hnull eq_refl). lia.
Qed.

(** A write appends to the queue, on the fast and on the slow path alike. *)
Lemma write_append b data :
  wf b -> room b (zlen data) ->
  exists b', write data b = Some (0, b') /\ wf b' /\ contents b' = contents b ++ data /\
    (forall n, 0 <= n -> room b (zlen data + n) -> room b' n).
Proof.
  intros Hb Hroom. unfold write.
  destruct (Z.leb_spec (wBase_ b + zlen data) (wBound_ b)) as [Hfit|Hfit].
  - destruct (put_spec b data Hb) as (m&->&?&?); [eauto using wf_null|done|].
    eexists; split; [done|]. do 2 (split; [done|]).
    unfold room; simpl. intros n ? [?|(?&?&?)]; [left; lia|right; split_and!; (done || lia)].
  - unfold writeSlow.
    destruct (ensureCanWrite_spec b (zlen data) Hb) as (c&->&Hc&Ec&Ew&Er&Eo&?&?&Hs);
      [lia|done|]. simpl.
    destruct (put_spec c data Hc Hs) as (m&->&?&Ec'); [lia|]. simpl. eexists; split; [done|].
    split; [done|]. split; [by rewrite Ec', Ec|].
    unfold room; simpl. rewrite Ew, Eo.
    intros n ? [?|(?&?&?)]; [left; lia|right; split_and!; (done || lia)].
Qed.

(** A read takes what it can from the front of the queue. *)
Lemma read_front b len :
  wf b -> 0 <= len < 2 ^ 31 ->
  exists b', let give := len `min` zlen (contents b) in
    read len b = Some (give, take (Z.to_nat give) (contents b), b') /\ wf b' /\
    contents b' = drop (Z.to_nat give) (contents b).
Proof.
  intros Hb Hlen. simpl. pose proof (contents_length b Hb) as Hc. unfold read.
  destruct (Z.leb_spec (rBase_ b + len) (rBound_ b)) as [Hfit|Hfit].
  - assert (rBound_ b <= wBase_ b) by (destruct Hb as (?&?&?&?); lia).
    rewrite Z.min_l by lia. rewrite mread_contents by (done || lia). simpl.
    rewrite (wrapS_small 32) by lia. eexists. split; [done|].
    apply set_rBase_contents; (done || lia).
  - pose proof (set_rBound_wf b Hb) as Hb'. set (b1 := set_rBound (wBase_ b) b) in *.
    unfold readSlow, computeRead. fold b1. rewrite available_read_contents by done.
    assert (contents b1 = contents b) as Eb by done. rewrite Eb.
    set (give := len `min` _). assert (0 <= give <= zlen (contents b1)) by (rewrite Eb; lia).
    change (mem (set_rBase _ b1)) with (mem b1).
    rewrite mread_contents by done. cbn [mbind option_bind]. rewrite (wrapS_small 32) by lia.
    rewrite Eb. exists (set_rBase (rBase_ b1 + give) b1). split; [done|]. rewrite <- Eb.
    apply set_rBase_contents; [done|lia|]. simpl. lia.
Qed.

Lemma readAll_enough b len :
  wf b -> 0 <= len < 2 ^ 31 -> len <= zlen (contents b) ->
  exists b', readAll len b = Some (len, take (Z.to_nat len) (contents b), b') /\ wf b' /\
    contents b' = drop (Z.to_nat len) (contents b).
Proof.
  intros Hb Hlen Hc. unfold readAll. destruct (read_front b len Hb Hlen) as (b'&E&?&?).
  rewrite Z.min_l in * by lia. exists b'. split; [|done].
  unfold read in E. destruct (Z.leb_spec (rBase_ b + len) (rBound_ b)) as [|Hfit]; [done|].
  destruct Hb as (?&?&?&?). unfold Transport.readAll. cbn [readAll_loop].
  destruct (Z.ltb_spec 0 len); [|lia].
  rewrite Z.sub_0_r, (wrapU_small 32 len) by lia.
  cbn [tread transport]. unfold read.
  destruct (Z.leb_spec (rBase_ b + len) (rBound_ b)); [lia|]. rewrite E. cbn [mbind option_bind].
  rewrite (overlay_end []), app_nil_l.
  rewrite (wrapU_small 32 len) by lia. destruct (Z.eqb_spec len 0); [lia|].
  rewrite Z.add_0_l, (wrapU_small 32 len) by lia.
  destruct (Z.to_nat len) eqn:?; [lia|]. cbn [readAll_loop].
  by rewrite Z.ltb_irrefl, (wrapS_small 32) by lia.
Qed.

(** When there is less than asked for, [readAll] fails and empties the queue. *)
Lemma readAll_short b len :
  wf b -> 0 <= len < 2 ^ 31 -> zlen (contents b) < len ->
  exists b', readAll len b = Some (-1, contents b, b') /\ wf b' /\ contents b' = [].
Proof.
  intros Hb Hlen Hc. destruct (read_front b len Hb Hlen) as (b1&E1&Hb1&Hc1).
  rewrite Z.min_r in * by lia. rewrite Nat2Z.id, firstn_all in E1.
  rewrite Nat2Z.id, drop_all in Hc1.
  pose proof (contents_length b Hb). unfold readAll.
  destruct (Z.leb_spec (rBase_ b + len) (rBound_ b)); [destruct Hb as (?&?&?&?); lia|].
  unfold Transport.readAll. destruct (Z.to_nat len) as [|k] eqn:Ek; [lia|].
  cbn [readAll_loop]. destruct (Z.ltb_spec 0 len); [|lia].
  rewrite Z.sub_0_r, (wrapU_small 32 len) by lia. cbn [tread transport]. rewrite E1.
  cbn [mbind option_bind]. rewrite (overlay_end []), app_nil_l.
  rewrite (wrapU_small 32 (zlen (contents b))) by lia.
  destruct (Z.eqb_spec (zlen (contents b)) 0) as [E0|]; [by eexists|].
  rewrite (wrapU_small 32 (0 + _)) by lia. destruct (Z.ltb_spec (0 + zlen (contents b)) len); [|lia].
  rewrite (wrapU_small 32 (len - _)) by lia.
  destruct (read_front b1 (len - (0 + zlen (contents b))) Hb1) as (b2&->&?&?); [lia|].
  rewrite Hc1 in *. rewrite Z.min_r by (simpl; lia). cbn [mbind option_bind].
  rewrite Z.add_0_l, overlay_end, take_nil, app_nil_r, drop_nil in *. by eexists.
Qed.

(** Reads leave the writing side alone. *)
Lemma read_room b len r d b' : read len b = Some (r, d, b') -> forall n, room b n -> room b' n.
Proof.
  unfold read, readSlow, computeRead, mread. intros E n.
  destruct (_ <=? _), (bool_decide _) in E; simplify_eq/=; done.
Qed.

Lemma readAll_loop_room fuel b got have len r d b' :
  readAll_loop fuel b got have len = Some (r, d, b') -> forall n, room b n -> room b' n.
Proof.
  revert b got have. induction fuel as [|fuel IH]; intros b got have E n Hn;
    cbn [readAll_loop] in E; destruct (have <? len); simplify_eq; try done.
  destruct (tread b _) as [[[r1 d1] b1]|] eqn:E1; simplify_eq/=.
  pose proof (read_room _ _ _ _ _ E1 n Hn).
  destruct (_ =? 0); simplify_eq; eauto.
Qed.

Lemma readAll_room b len r d b' :
  readAll len b = Some (r, d, b') -> forall n, room b n -> room b' n.
Proof.
  unfold readAll. destruct (_ <=? _); [|apply readAll_loop_room].
  unfold mread. destruct (bool_decide _); intros; simplify_eq/=; done.
Qed.

(** *** Construction *)

(** A buffer of a given size is empty; one over existing bytes holds them. *)
Lemma new_size_ok sz b :
  0 <= sz < 2 ^ 32 -> new_size sz = Some b -> wf b /\ contents b = [] /\ owner_ b = true.
Proof.
  unfold new_size, initCommon, malloc. intros ?.
  destruct (Z.eqb_spec sz 0) as [->|]; [intros [= <-]|destruct (alloc_ok sz); intros [= <-]];
    (split; [|done]); unfold wf, mem; simpl; rewrite ?length_replicate;
    repeat split; (lia || done).
Qed.

Lemma new_size_total sz : alloc_ok sz = true -> is_Some (new_size sz).
Proof.
  unfold new_size, initCommon, malloc. intros ->. destruct (sz =? 0); by eexists.
Qed.

Lemma new_observe m :
  zlen m < 2 ^ 32 ->
  exists b, new_buffer (Some m) (zlen m) OBSERVE = Some b /\ wf b /\ contents b = m.
Proof.
  intros. eexists. split; [done|]. split.
  - unfold wf, mem; simpl. repeat split; (lia || done).
  - unfold contents, mem; simpl. by rewrite Nat2Z.id, firstn_all.
Qed.

(** *** Resetting *)
Lemma resetBuffer_wf b : wf b -> wf (resetBuffer b) /\ contents (resetBuffer b) = [].
Proof.
  intros (?&?&?&?&?&?&?&?). unfold resetBuffer. destruct (owner_ b); (split; [|done]);
    unfold wf, mem in *; simpl; repeat split; (lia || done).
Qed.

(** *** The pieces [SandeshWriter] uses: reserve, copy, commit *)

(** Reserving [len] bytes, copying to the returned pointer and committing them
    appends them. *)
Definition append_raw (data : list byte) (b : t) : option t :=
  '(p, b) ← getWritePtr (zlen data) b;
  m ← memcpy (mem b) p data;
  wroteBytes (zlen data) (set_mem m b).

Lemma append_raw_spec b data :
  wf b -> room b (zlen data) ->
  exists b', append_raw data b = Some b' /\ wf b' /\ contents b' = contents b ++ data /\
    (forall n, 0 <= n -> room b (zlen data + n) -> room b' n).
Proof.
  intros Hb Hroom. unfold append_raw, getWritePtr.
  destruct (ensureCanWrite_spec b (zlen data) Hb) as (c&->&Hc&Ec&Ew&Er&Eo&?&?&Hs);
    [lia|done|]. simpl.
  destruct (put_spec c data Hc Hs) as (m&->&?&Ec'); [lia|]. simpl.
  unfold wroteBytes. change (available_write (set_mem m c)) with (available_write c).
  assert (available_write c = wBound_ c - wBase_ c) as ->.
  { destruct Hc as (?&?&?&?&?&?&?&?). apply wrapU_small. lia. }
  destruct (Z.ltb_spec (wBound_ c - wBase_ c) (zlen data)); [lia|].
  eexists; split; [done|]. split; [done|]. split; [by rewrite <- Ec, <- Ec'|].
  unfold room; simpl. rewrite Ew, Eo.
  intros n ? [?|(?&?&?)]; [left; lia|right; split_and!; (done || lia)].
Qed.

Lemma getBuffer_contents b :
  wf b -> mread (mem b) (rBase_ b) (getBuffer b).2 = Some (contents b) /\
          (getBuffer b).2 = zlen (contents b).
Proof.
  intros Hb. pose proof (available_read_contents b Hb) as E. unfold available_read in E.
  unfold getBuffer; simpl. rewrite E. split; [|done].
  rewrite mread_contents by (done || lia). by rewrite Nat2Z.id, firstn_all.
Qed.

(** Overwriting bytes inside of the queue. *)
Lemma contents_patch b k d :
  wf b -> 0 <= k -> k + zlen d <= zlen (contents b) ->
  exists m, memcpy (mem b) (rBase_ b + k) d = Some m /\ wf (set_mem m b) /\
    contents (set_mem m b) =
      take (Z.to_nat k) (contents b) ++ d ++ drop (Z.to_nat k + length d) (contents b).
Proof.
  intros Hb Hk Hd. pose proof (contents_length b Hb) as Hc.
  destruct Hb as (?&?&?&?&?&?&?&Hnull). rewrite memcpy_Some by lia.
  eexists; split; [done|]. set (m := take _ _ ++ _).
  assert (length m = length (mem b)) as Hm.
  { unfold m. rewrite !length_app, length_take, length_drop. lia. }
  assert (mem (set_mem m b) = m) as Em.
  { clearbody m. unfold mem, set_mem in *; simpl. destruct (buffer_ b) eqn:Ec; [done|].
    by destruct m. }
  split.
  - unfold wf. rewrite Em. simpl. repeat split; try lia.
    intros E. destruct (buffer_ b); simplify_eq/=; auto.
  - unfold contents. rewrite Em. simpl. unfold m.
    rewrite <- (take_drop (Z.to_nat (wBase_ b)) (mem b)) at 1 2.
    set (c := take (Z.to_nat (wBase_ b)) (mem b)).
    assert (length c = Z.to_nat (wBase_ b)) as Hlc by (unfold c; rewrite length_take; lia).
    rewrite (take_app_le c), (drop_app_le c) by lia.
    rewrite !app_assoc, take_app_length', <- !app_assoc
      by (rewrite !length_app, length_take, length_drop; lia).
    rewrite (drop_app_le (take _ c)) by (rewrite length_take; lia).
    rewrite skipn_firstn_comm. f_equal; [f_equal; lia|].
    f_equal. rewrite drop_drop. f_equal. lia.
Qed.

(** *** Borrowing *)

(** A borrow succeeds exactly when the queue has the bytes, and the bytes it
    points to are the front of the queue. *)
Lemma borrow_spec b len :
  wf b -> 0 <= len < 2 ^ 32 ->
  let '(r, b') := borrow len b in
  wf b' /\ contents b' = contents b /\ owner_ b' = owner_ b /\
  match r with
  | Some (p, n) => len <= n <= zlen (contents b) /\
      mread (mem b') p len = Some (take (Z.to_nat len) (contents b)) /\
      exists b'', consume len b' = Some b'' /\ wf b'' /\
        contents b'' = drop (Z.to_nat len) (contents b)
  | None => zlen (contents b) < len
  end.
Proof.
  intros Hb ?. pose proof (contents_length b Hb) as Hlen.
  assert (Hord : rBound_ b <= wBase_ b /\ 0 <= rBase_ b /\ rBase_ b <= rBound_ b /\
    wBase_ b < 2 ^ 32) by (destruct Hb as (?&?&?&?&?&?&?&?); lia).
  unfold borrow, borrowSlow.
  destruct (Z.leb_spec len (rBound_ b - rBase_ b)) as [Hfit|Hfit].
  - rewrite wrapU_small by lia. do 3 (split; [done|]). split; [lia|].
    split; [apply mread_contents; (done || lia)|]. unfold consume.
    destruct (Z.leb_spec len (rBound_ b - rBase_ b)); [|lia].
    eexists; split; [done|]. apply set_rBase_contents; (done || lia).
  - pose proof (set_rBound_wf b Hb) as Hb1. set (b1 := set_rBound (wBase_ b) b) in *.
    assert (contents b1 = contents b) as E by done.
    rewrite available_read_contents, E by done.
    destruct (Z.leb_spec len (zlen (contents b))); do 3 (split; [done|]); [|lia].
    split; [lia|]. rewrite <- E in *. split; [apply mread_contents; (done || lia)|].
    assert (rBound_ b1 = wBase_ b /\ rBase_ b1 = rBase_ b) as [E1 E2] by done.
    unfold consume. destruct (Z.leb_spec len (rBound_ b1 - rBase_ b1)); [|lia].
    eexists; split; [done|]. apply set_rBase_contents; (done || lia).
Qed.

(** The buffer keeps the promises of a transport. *)
#[global] Instance transport_laws : TransportLaws t.
Proof.
  refine {| t_ok := wf; t_readable := wf; t_contents := contents; t_room := room |}.
  - intros b n m ? ?. unfold room. intuition lia.
  - intros b d Hb Hr. destruct (write_append b d Hb Hr) as (b'&E&?&?&?). by exists b'.
  - intros b n. apply readAll_enough.
  - intros b n. apply readAll_short.
  - intros b n Hb ?. pose proof (borrow_spec b n Hb) as H'. cbn. unfold borrow_bytes.
    destruct (borrow n b) as [[[p k]|] b'].
    + destruct H' as (?&?&?&?&Hr&?); [lia|]. rewrite Hr. simpl.
      eexists _, _. split; [done|]. split_and!; (done || lia).
    + destruct H' as (?&?&?&?); [lia|]. eexists _, _. split_and!; [done..|by left].
Defined.

End Proofs.

(** ** Properties *)

(** The abstract machine: a queue of bytes with the two operations of the
    protocols, and the answers they give. *)
Inductive op := OWrite (d : list byte) | OReadAll (n : Z).

Definition queue_step (q : list byte) (o : op) : Z * list byte * list byte :=
  match o with
  | OWrite d => (0, [], q ++ d)
  | OReadAll n => if n <=? zlen q then (n, take (Z.to_nat n) q, drop (Z.to_nat n) q)
                  else (-1, q, [])
  end.

Fixpoint queue_run (q : list byte) (ops : list op) : list (Z * list byte) :=
  match ops with
  | [] => []
  | o :: ops => let '(r, d, q) := queue_step q o in (r, d) :: queue_run q ops
  end.

Definition buffer_step `{!Allocator} (b : t) (o : op) : option (Z * list byte * t) :=
  match o with
  | OWrite d => '(r, b) ← write d b; Some (r, [], b)
  | OReadAll n => readAll n b
  end.

Fixpoint buffer_run `{!Allocator} (b : t) (ops : list op) : option (list (Z * list byte)) :=
  match ops with
  | [] => Some []
  | o :: ops => '(r, d, b) ← buffer_step b o; rest ← buffer_run b ops; Some ((r, d) :: rest)
  end.

(** Bytes the writes of a run add, and the condition on the reads' lengths. *)
Definition written (ops : list op) : Z :=
  foldr (fun o n => match o with OWrite d => zlen d + n | _ => n end) 0 ops.
Definition reads_ok (ops : list op) : Prop :=
  Forall (fun o => match o with OReadAll n => 0 <= n < 2 ^ 31 | _ => True end) ops.

Lemma written_nonneg ops : 0 <= written ops.
Proof. induction ops as [|[]]; simpl; lia. Qed.

Lemma buffer_run_queue `{!Allocator} ops b :
  wf b -> room b (written ops) -> reads_ok ops ->
  buffer_run b ops = Some (queue_run (contents b) ops).
Proof.
  intros Hb Hroom Hops. revert b Hb Hroom.
  induction Hops as [|o ops Ho _ IH]; intros b Hb Hroom; [done|].
  pose proof (written_nonneg ops). cbn [buffer_run queue_run].
  destruct o as [d|n]; cbn [buffer_step queue_step] in *.
  - cbn [written foldr] in Hroom.
    destruct (write_append b d Hb) as (b'&->&?&Hc&Hr).
    { destruct Hroom as [?|(?&?&?)]; [left; fold (written ops) in *; lia|].
      right. fold (written ops) in *. split_and!; (done || lia). }
    simpl. rewrite IH; [by rewrite Hc|done|]. by apply Hr.
  - destruct (Z.leb_spec n (zlen (contents b))).
    + destruct (readAll_enough b n Hb Ho) as (b'&E&?&Hc); [done|].
      rewrite E. simpl. rewrite IH; [by rewrite Hc|done|]. eauto using readAll_room.
    + destruct (readAll_short b n Hb Ho) as (b'&E&?&Hc); [done|].
      rewrite E. simpl. rewrite IH; [by rewrite Hc|done|]. eauto using readAll_room.
Qed.

(** C12: an owned [TMemoryBuffer] is a queue of bytes.  From construction, any
    sequence of writes (up to 2^31 bytes in all) and [readAll]s gives exactly the
    answers of the abstract queue: fast and slow paths, reallocation, the lagging
    [rBound_] and a read that finds too little are all invisible, no access
    leaves the block and no call fails to return. *)
Theorem memory_buffer_is_queue `{!Allocator} sz b ops :
  0 <= sz < 2 ^ 32 -> new_size sz = Some b ->
  (forall k, 0 <= k < 2 ^ 32 -> alloc_ok k = true) ->
  written ops <= 2 ^ 31 -> reads_ok ops ->
  buffer_run b ops = Some (queue_run [] ops).
Proof.
  intros Hsz Hnew Halloc Hw Hops.
  destruct (new_size_ok sz b Hsz Hnew) as (Hb&<-&Ho).
  apply buffer_run_queue; [done| |done]. right. split_and!; [done| |done].
  unfold new_size, initCommon in Hnew. by destruct (sz =? 0), (malloc sz); simplify_eq/=.
Qed.

(** An allocator that serves every request. *)
Definition total_allocator : Allocator := {| alloc_ok _ := true; junk := x00 |}.

Lemma memory_buffer_is_queue_witness :
  let _ := total_allocator in
  exists b, new_size 2 = Some b /\
    buffer_run b [OWrite (bs "abc"); OReadAll 2; OWrite (bs "de"); OReadAll 4; OReadAll 0]
    = Some [(0, []); (2, bs "ab"); (0, []); (-1, bs "cde"); (0, [])].
Proof.
  intros A. eexists. split; [reflexivity|].
  apply (memory_buffer_is_queue 2); [lia|reflexivity|reflexivity|vm_compute; congruence|].
  repeat constructor; lia.
Defined.

(** Growing the buffer is safe below 2^31 bytes.  For an owned, well-formed
    buffer whose end of data plus [len] stays within 2^31, [ensureCanWrite]
    returns 0 with room for [len] bytes, a size that fits 32 bits, and the same
    data. *)
Theorem ensureCanWrite_grows `{!Allocator} b len :
  wf b -> owner_ b = true -> 0 <= len -> wBase_ b + len <= 2 ^ 31 ->
  (forall k, 0 <= k < 2 ^ 32 -> alloc_ok k = true) ->
  exists b', ensureCanWrite len b = Some (0, b') /\ wf b' /\ contents b' = contents b /\
    len <= available_write b' /\ bufferSize_ b <= bufferSize_ b' < 2 ^ 32.
Proof.
  intros Hb Ho ? ? Ha.
  destruct (ensureCanWrite_spec b len Hb) as (b'&E&Hb'&Ec&Ew&_&_&?&?&_); [done|by right|].
  exists b'. split; [done|]. split; [done|]. split; [done|].
  destruct Hb as (?&?&?&?&?&?&?&_), Hb' as (?&?&?&?&?&?&?&_).
  unfold available_write. rewrite wrapU_small by lia. lia.
Qed.

Lemma ensureCanWrite_grows_witness :
  let _ := total_allocator in
  let b := Mk (Some (bs "abcd")) 4 1 1 3 4 true in
  exists b', ensureCanWrite 9 b = Some (0, b') /\ contents b' = bs "bc" /\
    9 <= available_write b'.
Proof.
  intros A b. destruct (ensureCanWrite_grows b 9) as (b'&?&_&?&?&_); [|done|lia|simpl; lia|done|].
  - repeat split; simpl; (lia || done).
  - eauto.
Defined.

(** Past 2^31 bytes the doubling of the [uint32_t] size wraps to 0.  On a full,
    well-formed buffer of 2^31 bytes, [ensureCanWrite 1] takes the allocation of 0
    bytes for one with room, reports success, and the write that follows leaves
    the block. *)
Theorem ensureCanWrite_wraps `{!Allocator} b d :
  wf b -> owner_ b = true -> bufferSize_ b = 2 ^ 31 -> wBase_ b = 2 ^ 31 ->
  alloc_ok 0 = true ->
  (exists b', ensureCanWrite 1 b = Some (0, b') /\ bufferSize_ b' = 0 /\ mem b' = []) /\
  write [d] b = None.
Proof.
  intros (?&?&?&?&E&?&?&?) Ho Es Ew Ha.
  assert (ensureCanWrite 1 b = Some (0, Mk (Some []) 0 (rBase_ b) (rBound_ b) (wBase_ b) 0 true))
    as Hc.
  { unfold ensureCanWrite, available_write. rewrite Ho, E, Ew, !Es.
    change (u32 (2 ^ 31 - 2 ^ 31)) with 0.
    change (grow grow_fuel 1 0 (2 ^ 31) 0 (2 ^ 31)) with (Some 0).
    change (1 <=? 0) with false. cbn [mbind option_bind negb]. unfold realloc. rewrite Ha.
    change (Z.to_nat 0) with 0%nat. by rewrite resize_0. }
  split; [eexists; split; [exact Hc|done]|].
  unfold write, writeSlow. change (zlen [d]) with 1.
  destruct (Z.leb_spec (wBase_ b + 1) (wBound_ b)); [lia|].
  rewrite Hc. cbn [mbind option_bind]. change (0 =? 0) with true. cbn iota beta.
  unfold memcpy. rewrite bool_decide_eq_false_2; [done|]. cbn. rewrite Ew. lia.
Qed.

Lemma ensureCanWrite_wraps_witness :
  let _ := total_allocator in
  write [x41] (Mk (Some (replicate (Z.to_nat (2 ^ 31)) x00)) (2 ^ 31) 0 0 (2 ^ 31) (2 ^ 31) true)
  = None.
Proof.
  intros A. apply ensureCanWrite_wraps; [|reflexivity..].
  unfold wf, mem. cbn [rBase_ rBound_ wBase_ wBound_ bufferSize_ buffer_ from_option id].
  rewrite length_replicate, Z2Nat.id by lia. split_and!; (lia || by intros [=]).
Defined.

End TMemoryBuffer.
