(* ===== verification/Statistics.v ===== *)
(** * Message and event statistics

    [SandeshMessageStatistics] and [SandeshEventStatistics] of
    library/cpp/sandesh_statistics.cc.  The counters are [u64] (see
    common/sandesh_uve.sandesh); a [boost::ptr_map] is a [gmap], listed in the
    order of its keys.  A result [None] is [assert(0)]. *)

From stdpp Require Import sorting.
From S2P Require Import Prelude.
Local Open Scope Z_scope.

(** The enumerations of common/sandesh.sandesh. *)
Module SandeshTxDropReason.
Inductive type :=
  | MinDropReason | NoDrop | RatelimitDrop | ValidationFailed | QueueLevel | NoClient
  | NoSession | NoQueue | ClientSendFailed | HeaderWriteFailed | WriteFailed
  | SessionNotConnected | WrongClientSMState | SendingDisabled | SendingToSyslog
  | MaxDropReason.
#[global] Instance eq_dec : EqDecision type.
Proof. solve_decision. Defined.
End SandeshTxDropReason.

Module SandeshRxDropReason.
Inductive type :=
  | MinDropReason | NoDrop | QueueLevel | NoQueue | ControlMsgFailed | CreateFailed
  | DecodingFailed | MaxDropReason.
#[global] Instance eq_dec : EqDecision type.
Proof. solve_decision. Defined.
End SandeshRxDropReason.

Module Tx := SandeshTxDropReason.
Module Rx := SandeshRxDropReason.

(** The per-reason counters of [SandeshMessageStats]: the suffixes of
    [messages_sent_dropped_*] and [bytes_sent_dropped_*], then of
    [messages_received_dropped_*] and [bytes_received_dropped_*]. *)
Inductive TxField :=
  | tx_no_queue | tx_no_client | tx_no_session | tx_queue_level | tx_client_send_failed
  | tx_session_not_connected | tx_header_write_failed | tx_write_failed
  | tx_wrong_client_sm_state | tx_validation_failed | tx_rate_limited
  | tx_sending_disabled | tx_sending_to_syslog.
Inductive RxField :=
  | rx_no_queue | rx_queue_level | rx_create_failed | rx_control_msg_failed
  | rx_decoding_failed.
#[export] Instance TxField_eq_dec : EqDecision TxField.
Proof. solve_decision. Defined.
#[export] Instance RxField_eq_dec : EqDecision RxField.
Proof. solve_decision. Defined.

Definition tx_fields : list TxField :=
  [tx_no_queue; tx_no_client; tx_no_session; tx_queue_level; tx_client_send_failed;
   tx_session_not_connected; tx_header_write_failed; tx_write_failed;
   tx_wrong_client_sm_state; tx_validation_failed; tx_rate_limited;
   tx_sending_disabled; tx_sending_to_syslog].
Definition rx_fields : list RxField :=
  [rx_no_queue; rx_queue_level; rx_create_failed; rx_control_msg_failed; rx_decoding_failed].

Record SandeshMessageStats := MkStats {
  messages_sent : Z;
  bytes_sent : Z;
  messages_received : Z;
  bytes_received : Z;
  messages_sent_dropped : Z;
  bytes_sent_dropped : Z;
  messages_received_dropped : Z;
  bytes_received_dropped : Z;
  messages_sent_dropped_by : TxField -> Z;
  bytes_sent_dropped_by : TxField -> Z;
  messages_received_dropped_by : RxField -> Z;
  bytes_received_dropped_by : RxField -> Z;
}.

Definition zero_stats : SandeshMessageStats :=
  MkStats 0 0 0 0 0 0 0 0 (fun _ => 0) (fun _ => 0) (fun _ => 0) (fun _ => 0).

Record SandeshMessageBasicStats := MkBasic {
  b_messages_sent : Z;
  b_bytes_sent : Z;
  b_messages_received : Z;
  b_bytes_received : Z;
  b_messages_sent_dropped : Z;
  b_messages_received_dropped : Z;
}.

Record SandeshMessageTypeStats := MkTypeStats {
  message_type : string;
  stats : SandeshMessageStats;
}.

(** *** [SandeshMessageStatistics] *)
Module SandeshMessageStatistics.

Record t := Mk {
  detail_type_stats_map_ : gmap string SandeshMessageTypeStats;
  detail_agg_stats_ : SandeshMessageStats;
}.

Definition init : t := Mk ∅ zero_stats.

(** The [switch] on the send drop reason: the counters it selects. *)
Definition tx_field (r : Tx.type) : option TxField :=
  match r with
  | Tx.ValidationFailed => Some tx_validation_failed
  | Tx.RatelimitDrop => Some tx_rate_limited
  | Tx.QueueLevel => Some tx_queue_level
  | Tx.NoClient => Some tx_no_client
  | Tx.NoSession => Some tx_no_session
  | Tx.NoQueue => Some tx_no_queue
  | Tx.ClientSendFailed => Some tx_client_send_failed
  | Tx.WrongClientSMState => Some tx_wrong_client_sm_state
  | Tx.WriteFailed => Some tx_write_failed
  | Tx.HeaderWriteFailed => Some tx_header_write_failed
  | Tx.SessionNotConnected => Some tx_session_not_connected
  | Tx.SendingDisabled => Some tx_sending_disabled
  | Tx.SendingToSyslog => Some tx_sending_to_syslog
  | Tx.MinDropReason | Tx.NoDrop | Tx.MaxDropReason => None
  end.

(** The [switch] on the receive drop reason. *)
Definition rx_field (r : Rx.type) : option RxField :=
  match r with
  | Rx.QueueLevel => Some rx_queue_level
  | Rx.NoQueue => Some rx_no_queue
  | Rx.DecodingFailed => Some rx_decoding_failed
  | Rx.ControlMsgFailed => Some rx_control_msg_failed
  | Rx.CreateFailed => Some rx_create_failed
  | Rx.MinDropReason | Rx.NoDrop | Rx.MaxDropReason => None
  end.

Definition bump {A} `{EqDecision A} (f : A -> Z) (k : A) (n : Z) : A -> Z :=
  fun x => if decide (x = k) then u64 (f x + n) else f x.

Definition add_tx_drop (f : TxField) (bytes : Z) (s : SandeshMessageStats) :=
  MkStats (messages_sent s) (bytes_sent s) (messages_received s) (bytes_received s)
    (u64 (messages_sent_dropped s + 1)) (u64 (bytes_sent_dropped s + bytes))
    (messages_received_dropped s) (bytes_received_dropped s)
    (bump (messages_sent_dropped_by s) f 1) (bump (bytes_sent_dropped_by s) f bytes)
    (messages_received_dropped_by s) (bytes_received_dropped_by s).

Definition add_rx_drop (f : RxField) (bytes : Z) (s : SandeshMessageStats) :=
  MkStats (messages_sent s) (bytes_sent s) (messages_received s) (bytes_received s)
    (messages_sent_dropped s) (bytes_sent_dropped s)
    (u64 (messages_received_dropped s + 1)) (u64 (bytes_received_dropped s + bytes))
    (messages_sent_dropped_by s) (bytes_sent_dropped_by s)
    (bump (messages_received_dropped_by s) f 1) (bump (bytes_received_dropped_by s) f bytes).

Definition add_sent (bytes : Z) (s : SandeshMessageStats) :=
  MkStats (u64 (messages_sent s + 1)) (u64 (bytes_sent s + bytes))
    (messages_received s) (bytes_received s)
    (messages_sent_dropped s) (bytes_sent_dropped s)
    (messages_received_dropped s) (bytes_received_dropped s)
    (messages_sent_dropped_by s) (bytes_sent_dropped_by s)
    (messages_received_dropped_by s) (bytes_received_dropped_by s).

Definition add_received (bytes : Z) (s : SandeshMessageStats) :=
  MkStats (messages_sent s) (bytes_sent s)
    (u64 (messages_received s + 1)) (u64 (bytes_received s + bytes))
    (messages_sent_dropped s) (bytes_sent_dropped s)
    (messages_received_dropped s) (bytes_received_dropped s)
    (messages_sent_dropped_by s) (bytes_sent_dropped_by s)
    (messages_received_dropped_by s) (bytes_received_dropped_by s).

Definition UpdateDetailStatsDrops (sent : bool) (bytes : Z) (send_dreason : Tx.type)
    (recv_dreason : Rx.type) (s : SandeshMessageStats) : option SandeshMessageStats :=
  if sent then f ← tx_field send_dreason; Some (add_tx_drop f bytes s)
  else f ← rx_field recv_dreason; Some (add_rx_drop f bytes s).

Definition UpdateInternal (msg_name : string) (bytes : Z) (is_tx dropped : bool)
    (send_dreason : Tx.type) (recv_dreason : Rx.type) (m : t) : option t :=
  let detail_mtstats := default (MkTypeStats msg_name zero_stats)
                          (detail_type_stats_map_ m !! msg_name) in
  '(d, agg) ←
    (if dropped then
       d ← UpdateDetailStatsDrops is_tx bytes send_dreason recv_dreason (stats detail_mtstats);
       agg ← UpdateDetailStatsDrops is_tx bytes send_dreason recv_dreason (detail_agg_stats_ m);
       Some (d, agg)
     else if is_tx then
       Some (add_sent bytes (stats detail_mtstats), add_sent bytes (detail_agg_stats_ m))
     else
       Some (add_received bytes (stats detail_mtstats), add_received bytes (detail_agg_stats_ m)));
  Some (Mk (<[msg_name := MkTypeStats (message_type detail_mtstats) d]>
              (detail_type_stats_map_ m)) agg).

Definition UpdateSend (msg_name : string) (bytes : Z) : t -> option t :=
  UpdateInternal msg_name bytes true false Tx.NoDrop Rx.NoDrop.
Definition UpdateSendFailed (msg_name : string) (bytes : Z) (dreason : Tx.type) : t -> option t :=
  UpdateInternal msg_name bytes true true dreason Rx.NoDrop.
Definition UpdateRecv (msg_name : string) (bytes : Z) : t -> option t :=
  UpdateInternal msg_name bytes false false Tx.NoDrop Rx.NoDrop.
Definition UpdateRecvFailed (msg_name : string) (bytes : Z) (dreason : Rx.type) : t -> option t :=
  UpdateInternal msg_name bytes false true Tx.NoDrop dreason.

(** The entries of a map in the order of their keys. *)
Definition sorted_values {A} (m : gmap string A) : list A :=
  (merge_sort (fun p q : string * A => String.le p.1 q.1) (map_to_list m)).*2.

Definition GetDetailMap (m : t) : gmap string SandeshMessageTypeStats * SandeshMessageStats :=
  (detail_type_stats_map_ m, detail_agg_stats_ m).
Definition GetDetailList (m : t) : list SandeshMessageTypeStats * SandeshMessageStats :=
  (sorted_values (detail_type_stats_map_ m), detail_agg_stats_ m).

Definition PopulateBasicStats (s : SandeshMessageStats) : SandeshMessageBasicStats :=
  MkBasic (messages_sent s) (bytes_sent s) (messages_received s) (bytes_received s)
    (messages_sent_dropped s) (messages_received_dropped s).
Definition PopulateBasicTypeStats (d : SandeshMessageTypeStats)
    : string * SandeshMessageBasicStats :=
  (message_type d, PopulateBasicStats (stats d)).
Definition GetBasicList (m : t)
    : list (string * SandeshMessageBasicStats) * SandeshMessageBasicStats :=
  (PopulateBasicTypeStats <$> sorted_values (detail_type_stats_map_ m),
   PopulateBasicStats (detail_agg_stats_ m)).

End SandeshMessageStatistics.

(** *** [SandeshEventStatistics] *)
Module SandeshEventStatistics.

Record EvStats := MkEv {
  event : string;
  enqueues : Z;
  dequeues : Z;
  enqueue_fails : Z;
  dequeue_fails : Z;
}.

Record t := Mk { event_stats_ : gmap string EvStats; agg_stats_ : EvStats }.

Definition zero_ev : EvStats := MkEv EmptyString 0 0 0 0.
Definition init : t := Mk ∅ zero_ev.

Definition count (enqueue fail : bool) (e : EvStats) : EvStats :=
  match enqueue, fail with
  | true, true => MkEv (event e) (enqueues e) (dequeues e) (u64 (enqueue_fails e + 1)) (dequeue_fails e)
  | true, false => MkEv (event e) (u64 (enqueues e + 1)) (dequeues e) (enqueue_fails e) (dequeue_fails e)
  | false, true => MkEv (event e) (enqueues e) (dequeues e) (enqueue_fails e) (u64 (dequeue_fails e + 1))
  | false, false => MkEv (event e) (enqueues e) (u64 (dequeues e + 1)) (enqueue_fails e) (dequeue_fails e)
  end.

Definition set_event (n : string) (e : EvStats) : EvStats :=
  MkEv n (enqueues e) (dequeues e) (enqueue_fails e) (dequeue_fails e).

Definition Update (event_name : string) (enqueue fail : bool) (m : t) : t :=
  let es := set_event event_name (default zero_ev (event_stats_ m !! event_name)) in
  Mk (<[event_name := count enqueue fail es]> (event_stats_ m))
     (count enqueue fail (agg_stats_ m)).

Definition Get (m : t) : list EvStats :=
  SandeshMessageStatistics.sorted_values (event_stats_ m) ++ [agg_stats_ m].

End SandeshEventStatistics.

(** ** The statistics as a function of the log of updates *)
Module StatsLog.
Import SandeshMessageStatistics.

(** One call of the four entry points. *)
Inductive upd :=
  | USend (n : string) (bytes : Z)
  | USendFailed (n : string) (bytes : Z) (r : Tx.type)
  | URecv (n : string) (bytes : Z)
  | URecvFailed (n : string) (bytes : Z) (r : Rx.type).

Definition upd_name (u : upd) : string :=
  match u with USend n _ | USendFailed n _ _ | URecv n _ | URecvFailed n _ _ => n end.

Definition apply_upd (u : upd) (m : t) : option t :=
  match u with
  | USend n b => UpdateSend n b m
  | USendFailed n b r => UpdateSendFailed n b r m
  | URecv n b => UpdateRecv n b m
  | URecvFailed n b r => UpdateRecvFailed n b r m
  end.

(** The updates in order, the first one first. *)
Fixpoint run (log : list upd) (m : t) : option t :=
  match log with
  | [] => Some m
  | u :: log => m ← apply_upd u m; run log m
  end.

(** The counters of a [SandeshMessageStats]. *)
Inductive counter :=
  | CMsgSent | CBytesSent | CMsgRecv | CBytesRecv
  | CMsgSentDropped | CBytesSentDropped | CMsgRecvDropped | CBytesRecvDropped
  | CMsgSentDroppedBy (f : TxField) | CBytesSentDroppedBy (f : TxField)
  | CMsgRecvDroppedBy (f : RxField) | CBytesRecvDroppedBy (f : RxField).

Definition value (c : counter) (s : SandeshMessageStats) : Z :=
  match c with
  | CMsgSent => messages_sent s
  | CBytesSent => bytes_sent s
  | CMsgRecv => messages_received s
  | CBytesRecv => bytes_received s
  | CMsgSentDropped => messages_sent_dropped s
  | CBytesSentDropped => bytes_sent_dropped s
  | CMsgRecvDropped => messages_received_dropped s
  | CBytesRecvDropped => bytes_received_dropped s
  | CMsgSentDroppedBy f => messages_sent_dropped_by s f
  | CBytesSentDroppedBy f => bytes_sent_dropped_by s f
  | CMsgRecvDroppedBy f => messages_received_dropped_by s f
  | CBytesRecvDroppedBy f => bytes_received_dropped_by s f
  end.

(** The reference, stated counter by counter and without the code's [switch]: the
    drop reason each counter is named after, and the reasons that name a drop (the
    others only bound the enumeration or say that nothing was dropped). *)
Definition tx_reason (f : TxField) : Tx.type :=
  match f with
  | tx_no_queue => Tx.NoQueue
  | tx_no_client => Tx.NoClient
  | tx_no_session => Tx.NoSession
  | tx_queue_level => Tx.QueueLevel
  | tx_client_send_failed => Tx.ClientSendFailed
  | tx_session_not_connected => Tx.SessionNotConnected
  | tx_header_write_failed => Tx.HeaderWriteFailed
  | tx_write_failed => Tx.WriteFailed
  | tx_wrong_client_sm_state => Tx.WrongClientSMState
  | tx_validation_failed => Tx.ValidationFailed
  | tx_rate_limited => Tx.RatelimitDrop
  | tx_sending_disabled => Tx.SendingDisabled
  | tx_sending_to_syslog => Tx.SendingToSyslog
  end.
Definition rx_reason (f : RxField) : Rx.type :=
  match f with
  | rx_no_queue => Rx.NoQueue
  | rx_queue_level => Rx.QueueLevel
  | rx_create_failed => Rx.CreateFailed
  | rx_control_msg_failed => Rx.ControlMsgFailed
  | rx_decoding_failed => Rx.DecodingFailed
  end.
Definition tx_bounds : list Tx.type := [Tx.MinDropReason; Tx.NoDrop; Tx.MaxDropReason].
Definition rx_bounds : list Rx.type := [Rx.MinDropReason; Rx.NoDrop; Rx.MaxDropReason].

(** What one update adds to a counter. *)
Definition weight (c : counter) (u : upd) : Z :=
  match u, c with
  | USend _ _, CMsgSent => 1
  | USend _ b, CBytesSent => b
  | URecv _ _, CMsgRecv => 1
  | URecv _ b, CBytesRecv => b
  | USendFailed _ _ _, CMsgSentDropped => 1
  | USendFailed _ b _, CBytesSentDropped => b
  | USendFailed _ _ r, CMsgSentDroppedBy f => if decide (r = tx_reason f) then 1 else 0
  | USendFailed _ b r, CBytesSentDroppedBy f => if decide (r = tx_reason f) then b else 0
  | URecvFailed _ _ _, CMsgRecvDropped => 1
  | URecvFailed _ b _, CBytesRecvDropped => b
  | URecvFailed _ _ r, CMsgRecvDroppedBy f => if decide (r = rx_reason f) then 1 else 0
  | URecvFailed _ b r, CBytesRecvDroppedBy f => if decide (r = rx_reason f) then b else 0
  | _, _ => 0
  end.

(** Sum of the weights of a log, and of the updates of one message type. *)
Definition total (c : counter) (log : list upd) : Z :=
  foldr (fun u n => weight c u + n) 0 log.
Definition named (n : string) (log : list upd) : list upd :=
  filter (fun u => upd_name u = n) log.

(** The reason names a drop. *)
Definition upd_ok (u : upd) : Prop :=
  match u with
  | USendFailed _ _ r => r ∉ tx_bounds
  | URecvFailed _ _ r => r ∉ rx_bounds
  | _ => True
  end.

#[export] Instance upd_ok_dec u : Decision (upd_ok u).
Proof. destruct u; simpl; apply _. Defined.

(** The code's [switch] statements select the reference's counters. *)
Lemma tx_field_reason r f : tx_field r = Some f <-> r = tx_reason f.
Proof. split; [by destruct r; intros [= <-]|intros ->; by destruct f]. Qed.

Lemma rx_field_reason r f : rx_field r = Some f <-> r = rx_reason f.
Proof. split; [by destruct r; intros [= <-]|intros ->; by destruct f]. Qed.

#[local] Instance tx_reason_inj : Inj (=) (=) tx_reason.
Proof. intros f g E. apply (inj Some). rewrite <- (proj2 (tx_field_reason _ f) eq_refl), E. by apply tx_field_reason. Qed.
#[local] Instance rx_reason_inj : Inj (=) (=) rx_reason.
Proof. intros f g E. apply (inj Some). rewrite <- (proj2 (rx_field_reason _ f) eq_refl), E. by apply rx_field_reason. Qed.

Lemma tx_field_bounds r : r ∉ tx_bounds <-> is_Some (tx_field r).
Proof. by rewrite <- (bool_decide_spec (r ∉ tx_bounds)), <- (bool_decide_spec (is_Some _)); destruct r. Qed.

Lemma rx_field_bounds r : r ∉ rx_bounds <-> is_Some (rx_field r).
Proof. by rewrite <- (bool_decide_spec (r ∉ rx_bounds)), <- (bool_decide_spec (is_Some _)); destruct r. Qed.

(** One update on one [SandeshMessageStats]. *)
Definition delta (u : upd) (s : SandeshMessageStats) : SandeshMessageStats :=
  match u with
  | USend _ b => add_sent b s
  | URecv _ b => add_received b s
  | USendFailed _ b r => match tx_field r with Some f => add_tx_drop f b s | None => s end
  | URecvFailed _ b r => match rx_field r with Some f => add_rx_drop f b s | None => s end
  end.

Lemma apply_upd_delta u m :
  upd_ok u ->
  apply_upd u m =
    let d := default (MkTypeStats (upd_name u) zero_stats)
               (detail_type_stats_map_ m !! upd_name u) in
    Some (Mk (<[upd_name u := MkTypeStats (message_type d) (delta u (stats d))]>
               (detail_type_stats_map_ m)) (delta u (detail_agg_stats_ m))).
Proof.
  destruct u as [n b|n b r|n b|n b r]; simpl; intros Hok; try done;
    unfold UpdateSendFailed, UpdateRecvFailed, UpdateInternal, UpdateDetailStatsDrops;
    first [apply tx_field_bounds in Hok as [f ->]|apply rx_field_bounds in Hok as [f ->]]; done.
Qed.

Lemma apply_upd_None u m : ~ upd_ok u -> apply_upd u m = None.
Proof.
  destruct u as [n b|n b r|n b|n b r]; simpl; intros H; try tauto;
    unfold UpdateSendFailed, UpdateRecvFailed, UpdateInternal, UpdateDetailStatsDrops.
  - rewrite tx_field_bounds in H. destruct (tx_field r); [destruct H; eauto|done].
  - rewrite rx_field_bounds in H. destruct (rx_field r); [destruct H; eauto|done].
Qed.

Lemma apply_upd_Some u m m' : apply_upd u m = Some m' -> upd_ok u.
Proof. destruct (decide (upd_ok u)) as [|Hn]; [done|]. by rewrite apply_upd_None. Qed.

(** A log that runs names drops only. *)
Lemma run_ok log m m' : run log m = Some m' -> Forall upd_ok log.
Proof.
  revert m. induction log as [|u log IH]; intros m; [done|]. cbn [run].
  destruct (apply_upd u m) as [m1|] eqn:E; [|done]. intros Hr.
  constructor; [by eapply apply_upd_Some|by eapply IH].
Qed.

Definition in_u64 (s : SandeshMessageStats) : Prop := forall c, 0 <= value c s < 2 ^ 64.

Lemma in_u64_zero : in_u64 zero_stats.
Proof. intros []; simpl; lia. Qed.

Lemma value_delta u s c :
  in_u64 s -> upd_ok u -> value c (delta u s) = u64 (value c s + weight c u).
Proof.
  intros Hs Hok. specialize (Hs c).
  destruct u as [n b|n b r|n b|n b r];
    [|apply tx_field_bounds in Hok as [f Hf]| |apply rx_field_bounds in Hok as [f Hf]];
    simpl; try rewrite Hf; try apply tx_field_reason in Hf as ->; try apply rx_field_reason in Hf as ->;
    destruct c; simpl in Hs |- *; unfold bump;
    rewrite ?Z.add_0_r, ?(wrapU_small 64) by lia; try done;
    repeat case_decide; simplify_eq; rewrite ?Z.add_0_r, ?(wrapU_small 64) by lia; done.
Qed.

Lemma in_u64_delta u s : in_u64 s -> upd_ok u -> in_u64 (delta u s).
Proof. intros Hs Hok c. rewrite value_delta by done. by apply wrapU_range. Qed.

Lemma u64_add_l a b : u64 (u64 a + b) = u64 (a + b).
Proof. unfold wrapU. by rewrite Zplus_mod_idemp_l. Qed.

Lemma u64_add_r a b : u64 (a + u64 b) = u64 (a + b).
Proof. unfold wrapU. by rewrite Zplus_mod_idemp_r. Qed.

(** A state reached from another one by a log. *)
Definition state_after (m m' : t) (log : list upd) : Prop :=
  (forall c, value c (detail_agg_stats_ m') =
     u64 (value c (detail_agg_stats_ m) + total c log)) /\
  (forall n, let old := default zero_stats (stats <$> detail_type_stats_map_ m !! n) in
     match detail_type_stats_map_ m' !! n with
     | Some d => forall c, value c (stats d) = u64 (value c old + total c (named n log))
     | None => named n log = [] /\ detail_type_stats_map_ m !! n = None
     end).

(** Every counter of a state fits, and every entry carries its key. *)
Definition wf (m : t) : Prop :=
  in_u64 (detail_agg_stats_ m) /\
  map_Forall (fun n d => message_type d = n /\ in_u64 (stats d)) (detail_type_stats_map_ m).

Lemma wf_init : wf init.
Proof. split; [apply in_u64_zero|apply map_Forall_empty]. Qed.

Lemma wf_apply u m m' : wf m -> upd_ok u -> apply_upd u m = Some m' -> wf m'.
Proof.
  intros [Ha Hm] Hok. rewrite apply_upd_delta by done. intros [= <-]. split; simpl.
  - by apply in_u64_delta.
  - apply map_Forall_insert_2; [|done]. simpl.
    destruct (detail_type_stats_map_ m !! upd_name u) as [d|] eqn:E; simpl.
    + destruct (Hm _ _ E). split; [done|by apply in_u64_delta].
    + split; [done|]. apply in_u64_delta; [apply in_u64_zero|done].
Qed.

Lemma run_state log m :
  wf m -> Forall upd_ok log -> exists m', run log m = Some m' /\ wf m' /\ state_after m m' log.
Proof.
  intros Hm Hlog. revert m Hm. induction Hlog as [|u log Hu _ IH]; intros m Hm.
  - exists m. split; [done|]. split; [done|]. split; simpl.
    + intros c. rewrite Z.add_0_r, wrapU_small; [done|]. apply Hm.
    + intros n. destruct (detail_type_stats_map_ m !! n) as [d|] eqn:E; [|done].
      intros c. rewrite Z.add_0_r, wrapU_small; [done|]. by apply (proj2 Hm n d E).
  - cbn [run]. destruct (apply_upd u m) as [m1|] eqn:E1;
      [|by rewrite apply_upd_delta in E1]. cbn [mbind option_bind].
    pose proof (wf_apply _ _ _ Hm Hu E1) as Hm1.
    destruct (IH m1 Hm1) as (m'&->&Hm'&Hagg&Htypes). exists m'. split; [done|].
    split; [done|]. rewrite apply_upd_delta in E1 by done. injection E1 as <-.
    simpl in Hagg, Htypes. split.
    + intros c. rewrite Hagg, value_delta, u64_add_l by (done || apply Hm).
      simpl. f_equal. lia.
    + intros n. specialize (Htypes n). unfold named. rewrite filter_cons.
      destruct (detail_type_stats_map_ m' !! n) as [d|].
      * intros c. rewrite Htypes. case_decide as En.
        -- subst n. rewrite lookup_insert_eq. simpl.
           destruct (detail_type_stats_map_ m !! upd_name u) as [d0|] eqn:E0; simpl;
             (rewrite value_delta, u64_add_l; [f_equal; fold (named (upd_name u) log); lia| |done]).
           ++ apply (proj2 Hm _ _ E0).
           ++ apply in_u64_zero.
        -- by rewrite lookup_insert_ne.
      * destruct Htypes as [Hl Hn]. case_decide as En.
        -- subst n. by rewrite lookup_insert_eq in Hn.
        -- by rewrite lookup_insert_ne in Hn.
Qed.

(** *** Sums over a map *)
Definition map_sum {A} (f : A -> Z) (m : gmap string A) : Z :=
  map_fold (fun _ v acc => f v + acc) 0 m.

Lemma map_sum_insert_None {A} (f : A -> Z) m k v :
  m !! k = None -> map_sum f (<[k := v]> m) = f v + map_sum f m.
Proof. intros. unfold map_sum. rewrite map_fold_insert_L; [done| |done]. intros. lia. Qed.

Lemma map_sum_insert {A} (f : A -> Z) m k v :
  map_sum f (<[k := v]> m) + default 0 (f <$> m !! k) = f v + map_sum f m.
Proof.
  destruct (m !! k) as [w|] eqn:E; simpl; [|rewrite map_sum_insert_None by done; lia].
  rewrite <- (insert_delete_id m k w E) at 2. rewrite <- insert_delete_eq.
  rewrite !map_sum_insert_None by apply lookup_delete_eq. lia.
Qed.

(** The aggregate is the sum of the types, at the width of the counters. *)
Definition agg_is_sum (m : t) : Prop :=
  forall c, value c (detail_agg_stats_ m) =
    u64 (map_sum (fun d => value c (stats d)) (detail_type_stats_map_ m)).

Lemma agg_is_sum_apply u m m' :
  wf m -> upd_ok u -> agg_is_sum m -> apply_upd u m = Some m' -> agg_is_sum m'.
Proof.
  intros [Ha Hm] Hok Hsum. rewrite apply_upd_delta by done. intros [= <-] c. simpl.
  rewrite value_delta, Hsum, u64_add_l by done.
  pose proof (map_sum_insert (fun d => value c (stats d)) (detail_type_stats_map_ m) (upd_name u)) as Hi.
  destruct (detail_type_stats_map_ m !! upd_name u) as [d|] eqn:E; simpl in *.
  - specialize (Hi (MkTypeStats (message_type d) (delta u (stats d)))). simpl in Hi.
    rewrite value_delta in Hi by (done || apply (proj2 (Hm _ _ E))).
    replace (map_sum _ (<[_ := _]> _)) with
      (u64 (value c (stats d) + weight c u) +
       (map_sum (fun d => value c (stats d)) (detail_type_stats_map_ m) - value c (stats d))) by lia.
    rewrite u64_add_l. f_equal. lia.
  - specialize (Hi (MkTypeStats (upd_name u) (delta u zero_stats))). simpl in Hi.
    rewrite value_delta in Hi by (done || apply in_u64_zero). rewrite Z.add_0_r in Hi.
    rewrite Hi, u64_add_l. f_equal. destruct c; simpl; lia.
Qed.

(** The drops by reason add up to the drops. *)
Definition drops_by_reason (s : SandeshMessageStats) : Prop :=
  messages_sent_dropped s = u64 (foldr Z.add 0 (messages_sent_dropped_by s <$> tx_fields)) /\
  bytes_sent_dropped s = u64 (foldr Z.add 0 (bytes_sent_dropped_by s <$> tx_fields)) /\
  messages_received_dropped s =
    u64 (foldr Z.add 0 (messages_received_dropped_by s <$> rx_fields)) /\
  bytes_received_dropped s =
    u64 (foldr Z.add 0 (bytes_received_dropped_by s <$> rx_fields)).

Lemma sum_bump {A} `{EqDecision A} (f : A -> Z) (k : A) n l :
  NoDup l -> k ∈ l ->
  u64 (foldr Z.add 0 (bump f k n <$> l)) = u64 (foldr Z.add 0 (f <$> l) + n).
Proof.
  induction 1 as [|x l Hx Hl IH]; intros Hk; [by apply not_elem_of_nil in Hk|].
  cbn [fmap list_fmap foldr]. unfold bump at 1. case_decide as E.
  - subst x. rewrite u64_add_l. f_equal.
    replace (foldr Z.add 0 (bump f k n <$> l)) with (foldr Z.add 0 (f <$> l)); [lia|].
    f_equal. apply list_fmap_ext. intros i y Hy. unfold bump. rewrite decide_False; [done|].
    intros ->. apply Hx. eapply list_elem_of_lookup_2. exact Hy.
  - apply elem_of_cons in Hk as [->|Hk]; [done|].
    rewrite <- u64_add_r, IH, u64_add_r by done. f_equal. lia.
Qed.

Lemma tx_fields_ok f : NoDup tx_fields /\ f ∈ tx_fields.
Proof.
  split; [apply (bool_decide_unpack _); by vm_compute|].
  destruct f; apply (bool_decide_unpack _); by vm_compute.
Qed.

Lemma rx_fields_ok f : NoDup rx_fields /\ f ∈ rx_fields.
Proof.
  split; [apply (bool_decide_unpack _); by vm_compute|].
  destruct f; apply (bool_decide_unpack _); by vm_compute.
Qed.

Lemma drops_by_reason_delta u s : upd_ok u -> drops_by_reason s -> drops_by_reason (delta u s).
Proof.
  intros Hok (H1&H2&H3&H4). unfold drops_by_reason.
  destruct u as [n b|n b r|n b|n b r]; 
    [done|apply tx_field_bounds in Hok as [f Hf]|done|apply rx_field_bounds in Hok as [f Hf]];
    cbn [delta]; rewrite Hf;
    cbn [messages_sent_dropped bytes_sent_dropped messages_received_dropped bytes_received_dropped
         messages_sent_dropped_by bytes_sent_dropped_by messages_received_dropped_by
         bytes_received_dropped_by add_tx_drop add_rx_drop].
  - destruct (tx_fields_ok f). rewrite !sum_bump by done.
    rewrite H1, H2, !u64_add_l. done.
  - destruct (rx_fields_ok f). rewrite !sum_bump by done.
    rewrite H3, H4, !u64_add_l. done.
Qed.

(** The aggregate and every type balance. *)
Definition balanced (m : t) : Prop :=
  agg_is_sum m /\ drops_by_reason (detail_agg_stats_ m) /\
  map_Forall (fun _ d => drops_by_reason (stats d)) (detail_type_stats_map_ m).

Lemma drops_by_reason_zero : drops_by_reason zero_stats.
Proof. by vm_compute. Qed.

Lemma balanced_apply u m m' :
  wf m -> upd_ok u -> balanced m -> apply_upd u m = Some m' -> balanced m'.
Proof.
  intros Hm Hok (Hs&Hd&Ht) E. split; [by eapply agg_is_sum_apply|].
  rewrite apply_upd_delta in E by done. injection E as <-. simpl.
  split; [by apply drops_by_reason_delta|]. apply map_Forall_insert_2; [|done].
  apply drops_by_reason_delta; [done|].
  destruct (detail_type_stats_map_ m !! upd_name u) as [d|] eqn:Ed; simpl;
    [by apply (Ht _ _ Ed)|apply drops_by_reason_zero].
Qed.

Lemma run_balanced log m m' :
  wf m -> balanced m -> run log m = Some m' -> balanced m'.
Proof.
  revert m. induction log as [|u log IH]; intros m Hm Hb; [by intros [= <-]|].
  cbn [run]. destruct (apply_upd u m) as [m1|] eqn:E; [|done].
  pose proof (apply_upd_Some _ _ _ E) as Hok. apply IH; [by eapply wf_apply|by eapply balanced_apply].
Qed.

(** C37: the message statistics are a function of the log of calls.  From an empty
    [SandeshMessageStatistics], every sequence of [UpdateSend], [UpdateSendFailed],
    [UpdateRecv] and [UpdateRecvFailed] whose drop reasons name a drop succeeds;
    then every counter of the aggregate is the 64-bit sum of what the log adds to
    it, an entry exists exactly for the names of the log, and its counters are the
    sums over the updates of that name.  A dropped message counts once, with its
    bytes, in the totals and in the counter named after its reason.  A sequence with
    any other reason (the bounds of the enumeration, and the value that says that
    nothing was dropped) reaches the assertion of the [switch]. *)
Theorem message_stats_log log :
  (Forall upd_ok log ->
   exists m, run log init = Some m /\
     (forall c, value c (detail_agg_stats_ m) = u64 (total c log)) /\
     (forall n, match detail_type_stats_map_ m !! n with
        | Some d => message_type d = n /\
            forall c, value c (stats d) = u64 (total c (named n log))
        | None => named n log = []
        end)) /\
  (~ Forall upd_ok log -> run log init = None).
Proof.
  split; [intros Hlog|intros Hlog; apply eq_None_not_Some; intros [m E]; by eapply Hlog, run_ok].
  destruct (run_state log init wf_init Hlog) as (m&E&Hm&Ha&Ht).
  exists m. split; [done|]. split.
  - intros c. rewrite Ha. f_equal. by destruct c.
  - intros n. specialize (Ht n). destruct (detail_type_stats_map_ m !! n) as [d|] eqn:Ed.
    + split; [by apply (proj2 Hm n d Ed)|]. intros c. rewrite Ht. f_equal. by destruct c.
    + apply Ht.
Qed.

Definition sample_log : list upd :=
  [USend "a" 10; USendFailed "b" 3 Tx.NoClient; USend "a" 5; URecv "b" 7;
   USendFailed "b" 4 Tx.NoSession; URecvFailed "b" 9 Rx.QueueLevel].

Lemma message_stats_log_witness :
  exists m, run sample_log init = Some m /\
    bytes_sent (detail_agg_stats_ m) = 15 /\
    bytes_sent_dropped_by (detail_agg_stats_ m) tx_no_client = 3 /\
    bytes_sent_dropped_by (detail_agg_stats_ m) tx_no_session = 4 /\
    bytes_received_dropped_by (detail_agg_stats_ m) rx_queue_level = 9 /\
    (stats <$> detail_type_stats_map_ m !! "b") <> None.
Proof.
  destruct (proj1 (message_stats_log sample_log)) as (m&E&Ha&Hn).
  { apply (bool_decide_unpack (Forall upd_ok sample_log)). reflexivity. }
  exists m. split; [exact E|]. split; [exact (Ha CBytesSent)|].
  split; [exact (Ha (CBytesSentDroppedBy tx_no_client))|].
  split; [exact (Ha (CBytesSentDroppedBy tx_no_session))|].
  split; [exact (Ha (CBytesRecvDroppedBy rx_queue_level))|].
  specialize (Hn "b"). destruct (detail_type_stats_map_ m !! "b"); [by simpl|].
  vm_compute in Hn. congruence.
Defined.

(** The statistics balance.  Whatever log of calls has succeeded, each counter
    of the aggregate is the 64-bit sum of that counter over the message types, and
    the drop totals of the aggregate and of each type are the sums of the
    per-reason counters. *)
Theorem message_stats_balanced log m :
  run log init = Some m ->
  agg_is_sum m /\ drops_by_reason (detail_agg_stats_ m) /\
  map_Forall (fun _ d => drops_by_reason (stats d)) (detail_type_stats_map_ m).
Proof.
  apply run_balanced; [apply wf_init|]. split; [|split].
  - intros c. by destruct c.
  - apply drops_by_reason_zero.
  - apply map_Forall_empty.
Qed.

Lemma message_stats_balanced_witness :
  exists m, run [URecvFailed "x" 4 Rx.QueueLevel; URecvFailed "y" 6 Rx.DecodingFailed] init = Some m /\
    bytes_received_dropped (detail_agg_stats_ m) = 10 /\ drops_by_reason (detail_agg_stats_ m).
Proof.
  eexists. split; [reflexivity|]. split; [by vm_compute|].
  eapply (message_stats_balanced [URecvFailed "x" 4 Rx.QueueLevel; URecvFailed "y" 6 Rx.DecodingFailed]).
  reflexivity.
Defined.

End StatsLog.
