(* ===== verification/Session.v ===== *)
(** * Sessions: framing, packing and reassembly of messages

    [SandeshWriter], [SandeshReader] and [SandeshSession] of
    library/cpp/sandesh_session.cc and sandesh_session.h.  A message travels as

      <sandesh length="NNNNNNNNNN">BODY</sandesh>

    with the length of the whole frame in ten decimal digits.  The writer packs
    frames into buffers of [kDefaultSendSize] bytes; the reader cuts the byte
    stream of the socket back into bodies.

    Outside of the repository, and parameters here: [TcpSession::Send] (its
    answer may depend on everything sent before), the receive callback, the
    generated writers of the header and of the message, and [stringToInteger] of
    base/string_util.h.  A result [None] is a failed [assert], an exception, or an
    access outside of a buffer. *)

From S2P Require Import Prelude Transport Statistics.
Local Open Scope Z_scope.

(** ** The envelope *)
Definition sandesh_open_attr_length_ : list byte := bs "<sandesh length=" ++ [x22].
Definition sandesh_open_ : list byte :=
  sandesh_open_attr_length_ ++ bs "0000000000" ++ [x22] ++ bs ">".
Definition sandesh_close_ : list byte := bs "</sandesh>".

Definition kEncodeBufferSize : Z := 2048.
Definition kDefaultSendSize : Z := 16384.

(** The counters of [SandeshSessionStats] this code touches. *)
Record SessionStats := MkSessionStats {
  num_recv_fail : Z;
  num_send_msg : Z;
  num_send_msg_fail : Z;
  num_send_buffer_fail : Z;
  num_write_ready_cb_error : Z;
}.

(** What is reported to the process-wide transmit statistics. *)
Inductive TxStat :=
  | UpdateTxMsgStats (name : string) (bytes : Z)
  | UpdateTxMsgFailStats (name : string) (bytes : Z) (r : Tx.type).

(** A message, as the writer sees it: its name and the generated code that writes
    its header and its body through a protocol into a memory buffer. *)
Record Sandesh := MkSandesh {
  sname : string;
  header_write : TMemoryBuffer.t -> option (Z * TMemoryBuffer.t);
  msg_write : TMemoryBuffer.t -> option (Z * TMemoryBuffer.t);
}.

(** ** [SandeshWriter] *)
Module SandeshWriter.

(** [sent] is what was handed to [TcpSession::Send], oldest first; [released] the
    messages released, [runner] the calls of [MayBeStartRunner]. *)
Record t := Mk {
  ready_to_send_ : bool;
  send_buf_ : option (list byte);
  send_buf_offset_ : Z;
  sent : list (list byte);
  sstats : SessionStats;
  tx_stats : list TxStat;
  released : list string;
  runner : nat;
}.

Definition set_ready (v : bool) (w : t) : t :=
  Mk v (send_buf_ w) (send_buf_offset_ w) (sent w) (sstats w) (tx_stats w) (released w) (runner w).
Definition set_buf (m : option (list byte)) (off : Z) (w : t) : t :=
  Mk (ready_to_send_ w) m off (sent w) (sstats w) (tx_stats w) (released w) (runner w).
Definition set_sent (l : list (list byte)) (w : t) : t :=
  Mk (ready_to_send_ w) (send_buf_ w) (send_buf_offset_ w) l (sstats w) (tx_stats w) (released w) (runner w).
Definition set_sstats (s : SessionStats) (w : t) : t :=
  Mk (ready_to_send_ w) (send_buf_ w) (send_buf_offset_ w) (sent w) s (tx_stats w) (released w) (runner w).
Definition add_tx (x : TxStat) (w : t) : t :=
  Mk (ready_to_send_ w) (send_buf_ w) (send_buf_offset_ w) (sent w) (sstats w) (tx_stats w ++ [x])
     (released w) (runner w).
Definition Release (n : string) (w : t) : t :=
  Mk (ready_to_send_ w) (send_buf_ w) (send_buf_offset_ w) (sent w) (sstats w) (tx_stats w)
     (released w ++ [n]) (runner w).
Definition MayBeStartRunner (w : t) : t :=
  Mk (ready_to_send_ w) (send_buf_ w) (send_buf_offset_ w) (sent w) (sstats w) (tx_stats w)
     (released w) (S (runner w)).

Definition increment_send_msg (w : t) : t :=
  let s := sstats w in
  set_sstats (MkSessionStats (num_recv_fail s) (u64 (num_send_msg s + 1)) (num_send_msg_fail s)
    (num_send_buffer_fail s) (num_write_ready_cb_error s)) w.
Definition increment_send_msg_fail (w : t) : t :=
  let s := sstats w in
  set_sstats (MkSessionStats (num_recv_fail s) (num_send_msg s) (u64 (num_send_msg_fail s + 1))
    (num_send_buffer_fail s) (num_write_ready_cb_error s)) w.
Definition increment_send_buffer_fail (w : t) : t :=
  let s := sstats w in
  set_sstats (MkSessionStats (num_recv_fail s) (num_send_msg s) (num_send_msg_fail s)
    (u64 (num_send_buffer_fail s + 1)) (num_write_ready_cb_error s)) w.
Definition increment_write_ready_cb_error (w : t) : t :=
  let s := sstats w in
  set_sstats (MkSessionStats (num_recv_fail s) (num_send_msg s) (num_send_msg_fail s)
    (num_send_buffer_fail s) (u64 (num_write_ready_cb_error s + 1))) w.

(** The constructor: the contents of the fresh [send_buf_] are the allocator's. *)
Definition init `{!Allocator} : t :=
  Mk true (Some (replicate (Z.to_nat kDefaultSendSize) junk)) 0 []
     (MkSessionStats 0 0 0 0 0) [] [] 0.

Definition send_buf (w : t) : list byte := default [] (send_buf_ w).

(** [set_send_buf], [append_send_buf], [reset_send_buf] with their assertions. *)
Definition set_send_buf (buf : list byte) (w : t) : option t :=
  if (0 <? zlen buf) && (zlen buf <? kDefaultSendSize) then
    m ← memcpy (send_buf w) 0 buf;
    Some (set_buf (Some m) (zlen buf) w)
  else None.
Definition append_send_buf (buf : list byte) (w : t) : option t :=
  if (0 <? zlen buf) && (zlen buf + send_buf_offset_ w <? kDefaultSendSize) then
    m ← memcpy (send_buf w) (send_buf_offset_ w) buf;
    Some (set_buf (Some m) (send_buf_offset_ w + zlen buf) w)
  else None.
Definition reset_send_buf (w : t) : t := set_buf (send_buf_ w) 0 w.

Section Operations.
Context `{!Allocator}.
(** [TcpSession::Send]: whether the socket takes more, after what it was given. *)
Variable Send : list (list byte) -> list byte -> bool.

(** The bytes [getBuffer] exposes. *)
Definition buffer_bytes (b : TMemoryBuffer.t) : option (list byte) :=
  let '(p, n) := TMemoryBuffer.getBuffer b in mread (TMemoryBuffer.mem b) p n.

Definition SendInternal (b : TMemoryBuffer.t) (w : t) : option t :=
  data ← buffer_bytes b;
  Some (set_ready (Send (sent w) data) (set_sent (sent w ++ [data]) w)).

(** A fresh buffer of [n] bytes filled by [memcpy]s at its write pointer. *)
Definition packed (n : Z) (pieces : list (list byte)) : option TMemoryBuffer.t :=
  b ← TMemoryBuffer.new_size n;
  '(p, b) ← TMemoryBuffer.getWritePtr n b;
  m ← memcpys (TMemoryBuffer.mem b) p pieces;
  TMemoryBuffer.wroteBytes n (TMemoryBuffer.set_mem m b).

Definition SendMsgMore (send_buffer : TMemoryBuffer.t) (w : t) : option t :=
  buf ← buffer_bytes send_buffer;
  if negb (send_buf_offset_ w =? 0) then
    let bulk_msg_len := send_buf_offset_ w + zlen buf in
    if bulk_msg_len <? kDefaultSendSize then append_send_buf buf w
    else
      unsent ← mread (send_buf w) 0 (send_buf_offset_ w);
      bulk_msg ← packed (send_buf_offset_ w) [unsent];
      w ← SendInternal bulk_msg w;
      SendInternal send_buffer (reset_send_buf w)
  else if kDefaultSendSize <=? zlen buf then SendInternal send_buffer w
  else set_send_buf buf w.

Definition SendMsgAll (send_buffer : TMemoryBuffer.t) (w : t) : option t :=
  buf ← buffer_bytes send_buffer;
  if negb (send_buf_offset_ w =? 0) then
    let bulk_msg_len := send_buf_offset_ w + zlen buf in
    unsent ← mread (send_buf w) 0 (send_buf_offset_ w);
    if bulk_msg_len <=? kDefaultSendSize then
      bulk_msg ← packed bulk_msg_len [unsent; buf];
      w ← SendInternal bulk_msg w;
      Some (reset_send_buf w)
    else
      old_buf ← packed (send_buf_offset_ w) [unsent];
      w ← SendInternal old_buf w;
      SendInternal send_buffer (reset_send_buf w)
  else SendInternal send_buffer w.

(** [ss << offset] with width and fill set, at the place of the zeros. *)
Definition length_digits (offset : Z) : list byte :=
  pad_left (length sandesh_open_ - length sandesh_open_attr_length_ - 2) (digit 0)
    (dec_text offset).

(** Encoding, from the open envelope to the patched length. [inl] is a drop. *)
Definition encode (sandesh : Sandesh) : option (Tx.type + TMemoryBuffer.t * Z) :=
  btrans ← TMemoryBuffer.new_size kEncodeBufferSize;
  btrans ← TMemoryBuffer.append_raw sandesh_open_ btrans;
  '(ret, btrans) ← header_write sandesh btrans;
  if ret <? 0 then Some (inl Tx.HeaderWriteFailed)
  else
    let xfer := ret in
    '(ret, btrans) ← msg_write sandesh btrans;
    if ret <? 0 then Some (inl Tx.WriteFailed)
    else
      let xfer := i32 (xfer + ret) in
      btrans ← TMemoryBuffer.append_raw sandesh_close_ btrans;
      let '(p, offset) := TMemoryBuffer.getBuffer btrans in
      if negb (zlen sandesh_open_ + xfer + zlen sandesh_close_ =? offset) then None
      else
        m ← memcpy (TMemoryBuffer.mem btrans) (p + zlen sandesh_open_attr_length_)
              (length_digits offset);
        Some (inr (TMemoryBuffer.set_mem m btrans, offset)).

Definition SendMsg (sandesh : Sandesh) (more : bool) (w : t) : option t :=
  r ← encode sandesh;
  match r with
  | inl dreason =>
      Some (Release (sname sandesh)
              (add_tx (UpdateTxMsgFailStats (sname sandesh) 0 dreason)
                 (increment_send_msg_fail w)))
  | inr (btrans, offset) =>
      let w := increment_send_msg (add_tx (UpdateTxMsgStats (sname sandesh) offset) w) in
      w ← (match send_buf_ w with
           | Some _ => if more then SendMsgMore btrans w else SendMsgAll btrans w
           | None => SendInternal btrans w
           end);
      Some (Release (sname sandesh) w)
  end.

Definition WriteReady (ec : bool) (w : t) : t :=
  if ec then increment_write_ready_cb_error w
  else MayBeStartRunner (set_ready true w).

(** *** The session's side of the writer *)

(** [SandeshSession::SendMsg]: [established] is [IsEstablished()], [queue_empty]
    is [send_queue_->IsQueueEmpty()] after the dequeue. *)
Definition session_SendMsg (established queue_empty : bool) (sandesh : Sandesh) (w : t)
    : option t :=
  if negb established then
    Some (Release (sname sandesh)
            (add_tx (UpdateTxMsgFailStats (sname sandesh) 0 Tx.SessionNotConnected)
               (increment_send_msg_fail w)))
  else SendMsg sandesh (negb queue_empty) w.

Definition session_SendBuffer (established : bool) (sbuffer : TMemoryBuffer.t) (w : t)
    : option t :=
  if negb established then Some (increment_send_buffer_fail w)
  else SendInternal sbuffer w.

(** The buffer [SandeshSession::EnqueueBuffer] puts on the send queue. *)
Definition session_EnqueueBuffer (buf : list byte) : option TMemoryBuffer.t :=
  packed (zlen buf) [buf].

Definition SessionSendReady (established send_queue_enabled : bool) (w : t) : bool :=
  established && ready_to_send_ w && send_queue_enabled.

End Operations.
End SandeshWriter.

(** ** The writer preserves the stream *)
Module WriterSpec.
Import SandeshWriter.
Abbreviation wf := TMemoryBuffer.wf.
Abbreviation contents := TMemoryBuffer.contents.
Abbreviation room := TMemoryBuffer.room.

(** What the wire carries for one body. *)
Definition frame (body : list byte) : list byte :=
  sandesh_open_attr_length_ ++
  length_digits (zlen sandesh_open_ + zlen body + zlen sandesh_close_) ++
  [x22] ++ bs ">" ++ body ++ sandesh_close_.

(** The bytes kept back, and everything accepted so far. *)
Definition pending (w : t) : list byte := take (Z.to_nat (send_buf_offset_ w)) (send_buf w).
Definition stream (w : t) : list byte := concat (sent w) ++ pending w.

(** [send_buf_] is allocated and its offset stays below its size. *)
Definition inv (w : t) : Prop :=
  is_Some (send_buf_ w) /\ zlen (send_buf w) = kDefaultSendSize /\
  0 <= send_buf_offset_ w < kDefaultSendSize.

Lemma inv_init `{!Allocator} : inv init.
Proof.
  unfold inv, send_buf, init. cbn [send_buf_ send_buf_offset_ from_option id].
  rewrite length_replicate. split; [by eexists|]. unfold kDefaultSendSize. lia.
Qed.

Section Proofs.
Context `{!Allocator}.
Variable Send : list (list byte) -> list byte -> bool.
Hypothesis alloc_total : forall k, 0 <= k < 2 ^ 32 -> alloc_ok k = true.

Lemma pending_length w : inv w -> zlen (pending w) = send_buf_offset_ w.
Proof. intros (_&?&?). unfold pending. rewrite length_take. lia. Qed.

Lemma buffer_bytes_contents b : wf b -> buffer_bytes b = Some (contents b).
Proof.
  intros Hb. destruct (TMemoryBuffer.getBuffer_contents b Hb) as [E _]. exact E.
Qed.

Lemma mread_pending w :
  inv w -> mread (send_buf w) 0 (send_buf_offset_ w) = Some (pending w).
Proof. intros (_&?&?). rewrite mread_Some by lia. done. Qed.

Lemma SendInternal_spec b w :
  wf b -> SendInternal Send b w =
    Some (set_ready (Send (sent w) (contents b)) (set_sent (sent w ++ [contents b]) w)).
Proof. intros. unfold SendInternal. by rewrite buffer_bytes_contents. Qed.

Lemma append_send_buf_spec buf w :
  inv w -> 0 < zlen buf -> send_buf_offset_ w + zlen buf < kDefaultSendSize ->
  exists w', append_send_buf buf w = Some w' /\ inv w' /\ sent w' = sent w /\
    pending w' = pending w ++ buf.
Proof.
  intros (Hs&Hl&Ho) ??. unfold append_send_buf.
  rewrite (proj2 (Z.ltb_lt 0 _)), (proj2 (Z.ltb_lt _ kDefaultSendSize)) by lia. simpl.
  destruct (memcpy (send_buf w) (send_buf_offset_ w) buf) as [m|] eqn:E;
    [|rewrite memcpy_Some in E by lia; done].
  eexists; split; [done|]. pose proof (memcpy_length _ _ _ _ E).
  split; [|split; [done|]].
  - unfold inv, send_buf in *; simpl. repeat split; [by eexists|lia..].
  - unfold pending; simpl. rewrite Z2Nat.inj_add, Nat2Z.id by lia. by apply memcpy_take.
Qed.

Lemma set_send_buf_spec buf w :
  inv w -> send_buf_offset_ w = 0 -> 0 < zlen buf < kDefaultSendSize ->
  exists w', set_send_buf buf w = Some w' /\ inv w' /\ sent w' = sent w /\
    pending w' = pending w ++ buf.
Proof.
  intros Hw Ho Hb. destruct (append_send_buf_spec buf w Hw) as (w'&E&?); [lia..|].
  exists w'. split; [|done]. unfold append_send_buf, set_send_buf in *.
  rewrite Ho, Z.add_0_r, Z.add_0_l in E. exact E.
Qed.

(** A packed buffer holds its pieces. *)
Lemma packed_spec n pieces :
  n = zlen (concat pieces) -> 0 <= n <= 2 ^ 31 ->
  exists b, packed n pieces = Some b /\ wf b /\ contents b = concat pieces.
Proof.
  intros Hn ?. unfold packed.
  destruct (TMemoryBuffer.new_size_total n) as [b0 E0]; [apply alloc_total; lia|].
  rewrite E0. cbn [mbind option_bind].
  destruct (TMemoryBuffer.new_size_ok n b0) as (Hb0&Hc0&Ho0); [lia|done|].
  assert (TMemoryBuffer.available_write b0 = n /\ TMemoryBuffer.wBase_ b0 = 0 /\
          TMemoryBuffer.rBase_ b0 = 0) as (Ha&Hw0&Hr0).
  { unfold TMemoryBuffer.new_size, TMemoryBuffer.initCommon in E0.
    destruct (n =? 0), (TMemoryBuffer.malloc n); simplify_eq/=; split; try done;
      unfold TMemoryBuffer.available_write; simpl; rewrite wrapU_small; lia. }
  unfold TMemoryBuffer.getWritePtr, TMemoryBuffer.ensureCanWrite. rewrite Ha, Z.leb_refl.
  cbn [mbind option_bind].
  assert (TMemoryBuffer.wBase_ b0 + n <= TMemoryBuffer.wBound_ b0) as Hfit.
  { destruct Hb0 as (?&?&?&?&?&?&?&?). unfold TMemoryBuffer.available_write in Ha.
    rewrite wrapU_small in Ha by lia. lia. }
  subst n. destruct (TMemoryBuffer.put_spec b0 (concat pieces) Hb0) as (m&E&Hwf&Hcm);
    [eauto using TMemoryBuffer.wf_null|done|].
  rewrite memcpys_join, E by (destruct Hb0 as (?&?&?&?&?&?&?&?); lia).
  cbn [mbind option_bind]. unfold TMemoryBuffer.wroteBytes.
  change (TMemoryBuffer.available_write (TMemoryBuffer.set_mem m b0))
    with (TMemoryBuffer.available_write b0). rewrite Ha, Z.ltb_irrefl.
  eexists; split; [done|]. split; [done|].
  etrans; [exact Hcm|]. by rewrite Hc0.
Qed.

(** Sending one buffer adds its bytes to what was sent. *)
Lemma stream_SendInternal b w w' :
  wf b -> SendInternal Send b w = Some w' ->
  concat (sent w') = concat (sent w) ++ contents b /\ send_buf_ w' = send_buf_ w /\
  send_buf_offset_ w' = send_buf_offset_ w.
Proof.
  intros Hb. rewrite SendInternal_spec by done. intros [= <-]. simpl.
  by rewrite concat_app; simpl; rewrite app_nil_r.
Qed.

Lemma reset_pending w : pending (reset_send_buf w) = [].
Proof. done. Qed.

Lemma inv_reset w w' : inv w -> send_buf_ w' = send_buf_ w -> inv (reset_send_buf w').
Proof. intros (Hs&Hl&_) E. unfold inv, send_buf in *. simpl. rewrite E. done. Qed.

(** Flushing what is kept back and sending the new message by itself. *)
Lemma flush_spec b w :
  inv w -> wf b ->
  exists w', (bulk_msg ← packed (send_buf_offset_ w) [pending w];
              w ← SendInternal Send bulk_msg w;
              SendInternal Send b (reset_send_buf w)) = Some w' /\
    inv w' /\ pending w' = [] /\ stream w' = stream w ++ contents b.
Proof.
  intros Hw Hb. pose proof (pending_length w Hw) as Hp. pose proof Hw as (_&_&?).
  destruct (packed_spec (send_buf_offset_ w) [pending w]) as (bk&->&Hbk&Ebk);
    [simpl; rewrite app_nil_r; lia|unfold kDefaultSendSize in *; lia|].
  cbn [mbind option_bind]. rewrite SendInternal_spec by done. cbn [mbind option_bind].
  rewrite SendInternal_spec by done. eexists; split; [done|].
  split; [|split; [done|]].
  - by apply (inv_reset w).
  - unfold stream, pending at 1; simpl. rewrite !concat_app, Ebk; simpl.
    by rewrite !app_nil_r, <- !app_assoc.
Qed.

Lemma SendMsgMore_spec b w :
  inv w -> wf b -> 0 < zlen (contents b) ->
  exists w', SendMsgMore Send b w = Some w' /\ inv w' /\ stream w' = stream w ++ contents b.
Proof.
  intros Hw Hb Hne. unfold SendMsgMore. rewrite buffer_bytes_contents by done.
  cbn [mbind option_bind]. destruct (Z.eqb_spec (send_buf_offset_ w) 0) as [E0|E0]; cbn [negb].
  - destruct (Z.leb_spec kDefaultSendSize (zlen (contents b))).
    + rewrite SendInternal_spec by done. eexists; split; [done|]. split; [done|].
      unfold stream. change (pending (set_ready _ _)) with (pending w). simpl.
      assert (pending w = []) as -> by (unfold pending; by rewrite E0).
      by rewrite concat_app; simpl; rewrite !app_nil_r.
    + destruct (set_send_buf_spec (contents b) w Hw E0) as (w'&->&?&Es&Ep); [lia|].
      exists w'. split; [done|]. split; [done|]. unfold stream. by rewrite Es, Ep, app_assoc.
  - rewrite mread_pending by done.
    destruct (Z.ltb_spec (send_buf_offset_ w + zlen (contents b)) kDefaultSendSize).
    + destruct (append_send_buf_spec (contents b) w Hw) as (w'&->&?&Es&Ep); [lia..|].
      exists w'. split; [done|]. split; [done|]. unfold stream. by rewrite Es, Ep, app_assoc.
    + destruct (flush_spec b w Hw Hb) as (w'&E&?&_&?). by exists w'.
Qed.

Lemma SendMsgAll_spec b w :
  inv w -> wf b -> 0 < zlen (contents b) ->
  exists w', SendMsgAll Send b w = Some w' /\ inv w' /\ pending w' = [] /\
    stream w' = stream w ++ contents b.
Proof.
  intros Hw Hb Hne. unfold SendMsgAll. rewrite buffer_bytes_contents by done.
  cbn [mbind option_bind]. destruct (Z.eqb_spec (send_buf_offset_ w) 0) as [E0|E0]; cbn [negb].
  - rewrite SendInternal_spec by done. eexists; split; [done|]. split; [done|].
    assert (pending w = []) as Hp by (unfold pending; by rewrite E0).
    split; [exact Hp|]. unfold stream. change (pending (set_ready _ _)) with (pending w).
    simpl. rewrite Hp, concat_app. simpl. by rewrite !app_nil_r.
  - rewrite mread_pending by done. cbn [mbind option_bind].
    destruct (Z.leb_spec (send_buf_offset_ w + zlen (contents b)) kDefaultSendSize).
    + pose proof (pending_length w Hw). pose proof Hw as (_&_&?).
      destruct (packed_spec (send_buf_offset_ w + zlen (contents b)) [pending w; contents b])
        as (bk&->&Hbk&Ebk).
      { simpl. rewrite app_nil_r, length_app. lia. }
      { unfold kDefaultSendSize in *. lia. }
      cbn [mbind option_bind]. rewrite SendInternal_spec by done. eexists; split; [done|].
      split; [by apply (inv_reset w)|]. split; [done|].
      unfold stream, pending at 1; simpl. rewrite concat_app, Ebk; simpl.
      by rewrite !app_nil_r, <- !app_assoc.
    + destruct (flush_spec b w Hw Hb) as (w'&E&?&?&?). by exists w'.
Qed.

(** Generated code that writes the bytes [d]: it returns their number and appends
    them to a buffer that has room. *)
Definition appends (f : TMemoryBuffer.t -> option (Z * TMemoryBuffer.t)) (d : list byte) : Prop :=
  forall b, wf b -> room b (zlen d) ->
  exists b', f b = Some (zlen d, b') /\ wf b' /\ contents b' = contents b ++ d /\
    forall n, 0 <= n -> room b (zlen d + n) -> room b' n.

Lemma length_digits_length off : 0 <= off < 2 ^ 32 -> length (length_digits off) = 10%nat.
Proof. intros. apply (pad_left_spec 10); [lia|]. change (Z.of_nat 10) with 10. lia. Qed.

Lemma frame_length body :
  zlen body < 2 ^ 31 -> zlen (frame body) = zlen sandesh_open_ + zlen body + zlen sandesh_close_.
Proof.
  intros. unfold frame. rewrite !length_app, length_digits_length;
    change (length sandesh_open_) with 29%nat; change (length sandesh_close_) with 10%nat;
    change (length sandesh_open_attr_length_) with 17%nat; simpl length; lia.
Qed.

(** An encoded message is the frame of its header and body. *)
Lemma encode_spec s h m :
  appends (header_write s) h -> appends (msg_write s) m -> zlen h + zlen m < 2 ^ 31 - 64 ->
  exists b off, encode s = Some (inr (b, off)) /\ wf b /\ contents b = frame (h ++ m) /\
    off = zlen (frame (h ++ m)).
Proof.
  intros Hh Hm Hsz. unfold encode.
  destruct (TMemoryBuffer.new_size_total kEncodeBufferSize) as [b0 E0]; [by apply alloc_total|].
  destruct (TMemoryBuffer.new_size_ok kEncodeBufferSize b0) as (Hb0&Ec0&Ho0); [done|done|].
  assert (forall n, 0 <= n <= 2 ^ 31 -> room b0 n) as Hr0.
  { intros n ?. right. split_and!; [done| |done].
    unfold TMemoryBuffer.new_size, TMemoryBuffer.initCommon, TMemoryBuffer.malloc in E0.
    change (kEncodeBufferSize =? 0) with false in E0. destruct (alloc_ok _); simplify_eq/=. lia. }
  rewrite E0. cbn [mbind option_bind].
  destruct (TMemoryBuffer.append_raw_spec b0 sandesh_open_ Hb0) as (b1&->&Hb1&Ec1&Hr1); [by apply Hr0|].
  change (zlen sandesh_open_) with 29 in *. cbn [mbind option_bind].
  destruct (Hh b1 Hb1) as (b2&->&Hb2&Ec2&Hr2); [apply Hr1, Hr0; lia|]. cbn [mbind option_bind].
  destruct (Z.ltb_spec (zlen h) 0); [lia|].
  destruct (Hm b2 Hb2) as (b3&->&Hb3&Ec3&Hr3); [apply Hr2, Hr1, Hr0; lia|]. cbn [mbind option_bind].
  destruct (Z.ltb_spec (zlen m) 0); [lia|].
  destruct (TMemoryBuffer.append_raw_spec b3 sandesh_close_ Hb3) as (b4&->&Hb4&Ec4&_).
  { change (zlen sandesh_close_) with 10. apply Hr3, Hr2, Hr1, Hr0; lia. }
  cbn [mbind option_bind]. change (zlen sandesh_close_) with 10 in *.
  destruct (TMemoryBuffer.getBuffer_contents b4 Hb4) as [_ Eo].
  unfold TMemoryBuffer.getBuffer in *. cbn [snd] in Eo. rewrite Eo.
  assert (contents b4 = sandesh_open_ ++ h ++ m ++ sandesh_close_) as E4.
  { by rewrite Ec4, Ec3, Ec2, Ec1, Ec0, <- !app_assoc. }
  assert (zlen (contents b4) = 29 + (zlen h + zlen m) + 10) as El.
  { rewrite E4, !length_app. change (length sandesh_open_) with 29%nat.
    change (length sandesh_close_) with 10%nat. lia. }
  rewrite (wrapS_small 32) by lia. rewrite El, Z.eqb_refl. cbn [negb].
  destruct (TMemoryBuffer.contents_patch b4 (zlen sandesh_open_attr_length_)
    (length_digits (29 + (zlen h + zlen m) + 10)) Hb4) as (mm&->&Hwf&Ec).
  { lia. } { rewrite length_digits_length by lia. change (zlen sandesh_open_attr_length_) with 17. lia. }
  cbn [mbind option_bind]. eexists _, _. split; [done|]. split; [done|].
  assert (frame (h ++ m) = sandesh_open_attr_length_ ++ length_digits (29 + (zlen h + zlen m) + 10)
    ++ [x22] ++ bs ">" ++ h ++ m ++ sandesh_close_) as Ef.
  { unfold frame. rewrite length_app, <- !app_assoc.
    change (zlen sandesh_open_) with 29. change (zlen sandesh_close_) with 10.
    do 3 f_equal. lia. }
  split.
  - rewrite Ec, E4, length_digits_length, Ef by lia. done.
  - rewrite frame_length by (rewrite length_app; lia). rewrite length_app.
    change (zlen sandesh_open_) with 29. change (zlen sandesh_close_) with 10. lia.
Qed.

(** A message whose generated code writes a body that fits. *)
Definition carries (s : Sandesh) (body : list byte) : Prop :=
  exists h m, appends (header_write s) h /\ appends (msg_write s) m /\ body = h ++ m /\
    zlen body < 2 ^ 31 - 64.

(** Messages are sent in order, each with the [more] of its dequeue. *)
Fixpoint send_all (msgs : list (Sandesh * bool)) (w : t) : option t :=
  match msgs with
  | [] => Some w
  | (s, more) :: msgs => w ← SendMsg Send s more w; send_all msgs w
  end.

(** The queue is empty when the last message is sent. *)
Fixpoint ends_flushed (msgs : list (Sandesh * bool)) : bool :=
  match msgs with
  | [] => false
  | [(_, more)] => negb more
  | _ :: msgs => ends_flushed msgs
  end.

Lemma frame_nonempty body : 0 < zlen (frame body).
Proof.
  unfold frame. rewrite length_app. change (length sandesh_open_attr_length_) with 17%nat. lia.
Qed.

Lemma released_SendInternal b w w' :
  SendInternal Send b w = Some w' -> released w' = released w.
Proof. unfold SendInternal. intros E. by simplify_option_eq. Qed.

Lemma released_packing b w w' :
  SendMsgMore Send b w = Some w' \/ SendMsgAll Send b w = Some w' -> released w' = released w.
Proof.
  unfold SendMsgMore, SendMsgAll, append_send_buf, set_send_buf. intros E.
  destruct E as [E|E]; repeat (case_match || simplify_option_eq); try done;
    repeat match goal with H : SendInternal _ _ _ = Some _ |- _ =>
      apply released_SendInternal in H; simpl in H end; simpl; congruence.
Qed.

Lemma SendMsg_spec s body more w :
  inv w -> carries s body ->
  exists w', SendMsg Send s more w = Some w' /\ inv w' /\
    stream w' = stream w ++ frame body /\ (more = false -> pending w' = []) /\
    released w' = released w ++ [sname s].
Proof.
  intros Hw (h&m&Hh&Hm&->&Hsz). rewrite length_app in Hsz. unfold SendMsg.
  destruct (encode_spec s h m Hh Hm) as (b&off&->&Hb&Ec&->); [lia|]. cbn [mbind option_bind].
  set (w1 := increment_send_msg _). pose proof Hw as (Hs&_).
  assert (inv w1) as Hw1 by exact Hw. assert (stream w1 = stream w) as E1 by done.
  assert (released w1 = released w) as Er by done.
  change (send_buf_ w1) with (send_buf_ w). destruct (send_buf_ w); [|by destruct Hs].
  pose proof (frame_nonempty (h ++ m)). rewrite <- Ec in *. clearbody w1.
  destruct more.
  - destruct (SendMsgMore_spec b w1 Hw1 Hb) as (w2&E2&?&?); [done|]. rewrite E2.
    eexists; split; [done|]. split; [done|]. split; [by rewrite <- E1|].
    split; [done|]. simpl. by rewrite (released_packing b w1 w2), Er by auto.
  - destruct (SendMsgAll_spec b w1 Hw1 Hb) as (w2&E2&?&?&?); [done|]. rewrite E2.
    eexists; split; [done|]. split; [done|]. split; [by rewrite <- E1|].
    split; [done|]. simpl. by rewrite (released_packing b w1 w2), Er by auto.
Qed.

Lemma send_all_spec msgs bodies w :
  inv w -> Forall2 (fun m body => carries m.1 body) msgs bodies ->
  exists w', send_all msgs w = Some w' /\ inv w' /\
    stream w' = stream w ++ concat (frame <$> bodies) /\
    (ends_flushed msgs = true -> pending w' = []) /\
    released w' = released w ++ (sname ∘ fst <$> msgs).
Proof.
  intros Hw Hall. revert w Hw. induction Hall as [|[s more] body msgs bodies Hs Hms IH]; intros w Hw.
  { exists w. simpl. rewrite !app_nil_r. done. }
  cbn [send_all]. destruct (SendMsg_spec s body more w Hw Hs) as (w1&->&Hw1&E1&Hp1&R1).
  cbn [mbind option_bind]. destruct (IH w1 Hw1) as (w2&Hst&Hw2&E2&Hp2&R2).
  exists w2. split; [done|]. split; [done|]. split; [by rewrite E2, E1, <- app_assoc|].
  split; [|by rewrite R2, R1, <- app_assoc].
  destruct msgs as [|m msgs]; [|exact Hp2].
  destruct more; [done|]. injection Hst as <-. auto.
Qed.

End Proofs.
End WriterSpec.

(** ** [SandeshReader] *)
Module SandeshReader.

(** [delivered] is what the callback was given, oldest first; [closes] counts the
    calls of [EnqueueClose], [recv_fail] is [num_recv_fail], [freed] counts
    [ReleaseBuffer]. *)
Record t := Mk {
  buf_ : list byte;
  offset_ : Z;
  msg_length_ : Z;
  cb_set : bool;
  delivered : list (list byte);
  recv_fail : Z;
  closes : nat;
  freed : nat;
}.

(** [(size_t)-1]. *)
Definition no_length : Z := 2 ^ 64 - 1.

Definition init : t := Mk [] 0 no_length false [] 0 0 0.

Definition set_buf (b : list byte) (off : Z) (r : t) : t :=
  Mk b off (msg_length_ r) (cb_set r) (delivered r) (recv_fail r) (closes r) (freed r).
Definition set_msg_length (n : Z) (r : t) : t :=
  Mk (buf_ r) (offset_ r) n (cb_set r) (delivered r) (recv_fail r) (closes r) (freed r).
Definition reset_msg_length (r : t) : t := set_msg_length no_length r.
Definition SetReceiveMsgCb (set : bool) (r : t) : t :=
  Mk (buf_ r) (offset_ r) (msg_length_ r) set (delivered r) (recv_fail r) (closes r) (freed r).
Definition deliver (m : list byte) (r : t) : t :=
  Mk (buf_ r) (offset_ r) (msg_length_ r) (cb_set r) (delivered r ++ [m]) (recv_fail r) (closes r)
     (freed r).
Definition increment_recv_fail (r : t) : t :=
  Mk (buf_ r) (offset_ r) (msg_length_ r) (cb_set r) (delivered r) (u64 (recv_fail r + 1)) (closes r)
     (freed r).
Definition EnqueueClose (r : t) : t :=
  Mk (buf_ r) (offset_ r) (msg_length_ r) (cb_set r) (delivered r) (recv_fail r) (S (closes r))
     (freed r).
Definition ReleaseBuffer (r : t) : t :=
  Mk (buf_ r) (offset_ r) (msg_length_ r) (cb_set r) (delivered r) (recv_fail r) (closes r)
     (S (freed r)).

Definition MsgLengthKnown (r : t) : bool := negb (msg_length_ r =? no_length).

Definition ReplaceBuf (str : list byte) (r : t) : t := set_buf str 0 r.

Definition SetBuf (str : list byte) (r : t) : t :=
  match buf_ r with
  | [] => ReplaceBuf str r
  | _ => set_buf (buf_ r ++ str) (offset_ r) r
  end.

Definition LeftOver (r : t) : bool :=
  match buf_ r with [] => false | _ => negb (zlen (buf_ r) =? offset_ r) end.

Section Operations.
(** [stringToInteger(const std::string &, size_t &)] of base/string_util.h. *)
Variable stringToInteger : list byte -> Z.
(** The receive callback: its answer may depend on what it was given before. *)
Variable cb : list (list byte) -> list byte -> bool.

(** Returns the success flag, the length and the result code. *)
Definition ExtractMsgLength (r : t) : bool * Z * Z :=
  let rest := drop (Z.to_nat (offset_ r)) (buf_ r) in
  if u64 (zlen (buf_ r) - offset_ r) <? zlen sandesh_open_ then (false, 0, 0)
  else if negb (bool_decide (take (length sandesh_open_attr_length_) rest
                             = sandesh_open_attr_length_)) then (false, 0, -1)
  else if negb (bool_decide (rest !! (length sandesh_open_ - 1)%nat = Some x3e)) then (false, 0, -2)
  else
    let digits := take (length sandesh_open_ - 2 - length sandesh_open_attr_length_)
                    (drop (length sandesh_open_attr_length_) rest) in
    let msg_length := stringToInteger (c_str digits) in
    if msg_length =? 0 then (false, msg_length, -3) else (true, msg_length, 0).

(** [new_buf] is the buffer of [NewBuf]; [result] is passed through. *)
Definition ExtractMsg (new_buf : option (list byte)) (result : Z) (r : t) : bool * Z * t :=
  let r := match new_buf with Some str => SetBuf str r | None => r end in
  let '(known, result, r) :=
    if negb (MsgLengthKnown r) then
      let '(done, msg_length, res) := ExtractMsgLength r in
      if done then (true, result, set_msg_length msg_length r)
      else (false, (if res =? 0 then result else res), r)
    else (true, result, r) in
  if negb known then (false, result, r)
  else if zlen (buf_ r) <? msg_length_ r then (false, result, r)
  else (true, result, r).

(** [std::string xml(st, end)]: the range has to lie inside of [buf_]. *)
Definition substring (b : list byte) (st en : Z) : option (list byte) :=
  if bool_decide (0 <= st /\ st <= en /\ en <= zlen b)
  then Some (take (Z.to_nat (en - st)) (drop (Z.to_nat st) b)) else None.

Fixpoint read_loop (fuel : nat) (done : bool) (result : Z) (r : t) : option t :=
  match fuel with
  | O => None
  | S fuel =>
      if result <? 0 then
        Some (EnqueueClose (increment_recv_fail (set_buf [] 0 r)))
      else if done then
        xml ← substring (buf_ r) (offset_ r + zlen sandesh_open_)
                (offset_ r + msg_length_ r - zlen sandesh_close_);
        let r := reset_msg_length (set_buf (buf_ r) (offset_ r + msg_length_ r) r) in
        let ok := cb (delivered r) xml in
        let r := deliver xml r in
        if negb ok then Some (EnqueueClose (increment_recv_fail r))
        else if LeftOver r then
          rest ← substring (buf_ r) (offset_ r) (zlen (buf_ r));
          let '(done, result, r) := ExtractMsg None result (ReplaceBuf rest r) in
          read_loop fuel done result r
        else Some (set_buf [] 0 r)
      else Some r
  end.

Definition OnRead (buffer : list byte) (r : t) : option t :=
  if negb (cb_set r) then Some (ReleaseBuffer (increment_recv_fail r))
  else
    let '(done, result, r) := ExtractMsg (Some buffer) 0 r in
    r ← read_loop (S (length (buf_ r))) done result r;
    Some (ReleaseBuffer r).

(** The chunks of a connection in order. *)
Fixpoint OnReads (chunks : list (list byte)) (r : t) : option t :=
  match chunks with
  | [] => Some r
  | c :: chunks => r ← OnRead c r; OnReads chunks r
  end.

End Operations.
End SandeshReader.

(** ** The reader inverts the framing *)
Module ReaderSpec.
Import SandeshReader.
Abbreviation frame := WriterSpec.frame.

Definition header (n : Z) : list byte :=
  sandesh_open_attr_length_ ++ SandeshWriter.length_digits n ++ [x22] ++ bs ">".
Definition flen (body : list byte) : Z := zlen sandesh_open_ + zlen body + zlen sandesh_close_.

Lemma frame_header body : frame body = header (flen body) ++ body ++ sandesh_close_.
Proof. unfold frame, header, WriterSpec.frame, flen. by rewrite <- !app_assoc. Qed.

(** Decimal text is what [stringToInteger] is for. *)
Definition decimal_conversion (stringToInteger : list byte -> Z) : Prop :=
  forall l, l <> [] -> Forall (fun b => is_digit b = true) l -> dec_value l < 2 ^ 64 ->
    stringToInteger l = dec_value l.

Lemma digits_no_nul l : Forall (fun b => is_digit b = true) l -> c_str l = l.
Proof.
  induction 1 as [|b l Hb _ IH]; [done|]. cbn [c_str]. rewrite decide_False; [by rewrite IH|].
  intros ->. done.
Qed.

(** A body the writer can frame. *)
Definition ok_body (body : list byte) : Prop := zlen body < 2 ^ 31 - 64.

Section Proofs.
Variable stringToInteger : list byte -> Z.
Hypothesis conversion : decimal_conversion stringToInteger.
Variable cb : list (list byte) -> list byte -> bool.
Hypothesis cb_accepts : forall h m, cb h m = true.

Lemma header_length n : 0 <= n < 2 ^ 32 -> length (header n) = 29%nat.
Proof.
  intros. unfold header. rewrite !length_app, WriterSpec.length_digits_length by done. done.
Qed.

Lemma flen_bounds body : ok_body body -> 39 <= flen body < 2 ^ 31.
Proof.
  unfold ok_body, flen. change (zlen sandesh_open_) with 29. change (zlen sandesh_close_) with 10. lia.
Qed.

Lemma frame_flen body : ok_body body -> zlen (frame body) = flen body.
Proof. unfold ok_body, flen. intros. apply WriterSpec.frame_length. lia. Qed.

(** A buffer that starts with a header yields its length. *)
Lemma ExtractMsgLength_number n tl r :
  0 < n < 2 ^ 31 -> offset_ r = 0 -> buf_ r = header n ++ tl -> zlen (buf_ r) < 2 ^ 63 ->
  ExtractMsgLength stringToInteger r = (true, n, 0).
Proof.
  intros Hn Ho Eb Hsz.
  destruct (pad_left_spec 10 n) as (Hl&Hd&Hv); [lia|change (Z.of_nat 10) with 10; lia|].
  change (pad_left 10 (digit 0) (dec_text n))
    with (SandeshWriter.length_digits n) in Hl, Hd, Hv.
  unfold ExtractMsgLength. rewrite Ho, Z.sub_0_r, (wrapU_small 64) by lia.
  change (Z.to_nat 0) with 0%nat. rewrite drop_0.
  pose proof (header_length n) as Hh.
  assert (zlen sandesh_open_ <= zlen (buf_ r)).
  { rewrite Eb, length_app, Hh by lia. change (zlen sandesh_open_) with 29. lia. }
  destruct (Z.ltb_spec (zlen (buf_ r)) (zlen sandesh_open_)); [lia|].
  change (length sandesh_open_ - 1)%nat with 28%nat.
  change (length sandesh_open_ - 2 - length sandesh_open_attr_length_)%nat with 10%nat.
  change (length sandesh_open_attr_length_) with 17%nat.
  rewrite Eb. unfold header. set (dg := SandeshWriter.length_digits n) in *.
  rewrite <- !app_assoc. rewrite bool_decide_eq_true_2 by done. cbn [negb].
  assert (length sandesh_open_attr_length_ = 17%nat) as Ha by done.
  rewrite lookup_app_r by lia. change (28 - length sandesh_open_attr_length_)%nat with 11%nat.
  rewrite lookup_app_r, Hl by lia. rewrite bool_decide_eq_true_2 by done. cbn [negb].
  rewrite drop_app_length' by done. rewrite take_app_length' by done.
  rewrite digits_no_nul by done. rewrite conversion; [|by destruct dg|done|lia].
  rewrite Hv. destruct (Z.eqb_spec n 0); [lia|done].
Qed.

Lemma ExtractMsgLength_header body tl r :
  ok_body body -> offset_ r = 0 -> buf_ r = header (flen body) ++ tl -> zlen (buf_ r) < 2 ^ 63 ->
  ExtractMsgLength stringToInteger r = (true, flen body, 0).
Proof. intros Hb. pose proof (flen_bounds body Hb). apply ExtractMsgLength_number. lia. Qed.

(** A proper prefix of the frame of [nb]. *)
Definition part_of (part nb : list byte) : Prop :=
  exists rest, rest <> [] /\ part ++ rest = frame nb.

Lemma part_of_length part nb : ok_body nb -> part_of part nb -> zlen part < flen nb.
Proof.
  intros Hnb (rest&Hr&E). rewrite <- frame_flen by done. rewrite <- E, length_app.
  destruct rest; [done|]. simpl. lia.
Qed.

Lemma part_of_header part nb :
  ok_body nb -> part_of part nb -> 29 <= zlen part -> exists tl, part = header (flen nb) ++ tl.
Proof.
  intros Hnb (rest&_&E) Hl. pose proof (flen_bounds nb Hnb).
  rewrite frame_header in E. exists (drop 29 part).
  rewrite <- (take_drop 29 part) at 1. f_equal.
  apply (f_equal (take 29)) in E. rewrite take_app_le in E by lia.
  rewrite take_app_length' in E; [done|]. rewrite header_length; lia.
Qed.

(** Between two reads: nothing skipped, and the length, if known, is right. *)
Definition waiting (r : t) (buf nb : list byte) : Prop :=
  buf_ r = buf /\ offset_ r = 0 /\
  (msg_length_ r = no_length \/ (29 <= zlen buf /\ msg_length_ r = flen nb)).

(** What [ExtractMsg] answers on a partial frame: wait. *)
Lemma ExtractMsg_part r part nb :
  ok_body nb -> part_of part nb -> waiting r part nb ->
  exists r', ExtractMsg stringToInteger None 0 r = (false, 0, r') /\ waiting r' part nb /\
    r' = set_msg_length (msg_length_ r') r.
Proof.
  intros Hnb Hpart (Eb&Eo&Hm). pose proof (part_of_length _ _ Hnb Hpart).
  pose proof (flen_bounds nb Hnb). unfold ExtractMsg, MsgLengthKnown.
  destruct (Z.eqb_spec (msg_length_ r) no_length) as [En|En]; cbn [negb].
  - destruct (Z.leb_spec 29 (zlen part)) as [H29|H29].
    + destruct (part_of_header part nb Hnb Hpart H29) as [tl Et].
      rewrite (ExtractMsgLength_header nb tl) by (done || congruence || (rewrite Eb; lia)).
      cbn [negb]. simpl. rewrite Eb.
      destruct (Z.ltb_spec (zlen part) (flen nb)); [|lia].
      eexists; split; [done|]. split; [|done]. split; [done|]. split; [done|]. by right.
    + unfold ExtractMsgLength. rewrite Eb, Eo, Z.sub_0_r, (wrapU_small 64) by lia.
      change (zlen sandesh_open_) with 29. destruct (Z.ltb_spec (zlen part) 29); [|lia].
      cbn. exists r. split; [done|]. split; [|by destruct r]. split; [done|]. split; [done|]. by left.
  - destruct Hm as [?|[? Hm]]; [done|]. rewrite Eb, Hm.
    destruct (Z.ltb_spec (zlen part) (flen nb)); [|lia].
    exists r. split; [done|]. split; [|by destruct r]. split; [done|]. split; [done|]. by right.
Qed.

(** And on a complete frame: its length. *)
Lemma ExtractMsg_full r body tl :
  ok_body body -> zlen (buf_ r) < 2 ^ 63 -> waiting r (frame body ++ tl) body ->
  ExtractMsg stringToInteger None 0 r = (true, 0, set_msg_length (flen body) r).
Proof.
  intros Hb Hsz (Eb&Eo&Hm). pose proof (flen_bounds body Hb).
  assert (zlen (buf_ r) = flen body + zlen tl) as El.
  { rewrite Eb, length_app, Nat2Z.inj_add, frame_flen by done. done. }
  unfold ExtractMsg, MsgLengthKnown.
  destruct (Z.eqb_spec (msg_length_ r) no_length) as [En|En]; cbn [negb].
  - rewrite (ExtractMsgLength_header body (body ++ sandesh_close_ ++ tl)); [|done|done| |done].
    + simpl. destruct (Z.ltb_spec (zlen (buf_ r)) (flen body)); [lia|done].
    + by rewrite Eb, frame_header, <- !app_assoc.
  - destruct Hm as [?|[? Hm]]; [done|]. rewrite Hm.
    destruct (Z.ltb_spec (zlen (buf_ r)) (flen body)); [lia|]. by rewrite <- Hm; destruct r.
Qed.

Lemma substring_body body tl :
  ok_body body ->
  substring (frame body ++ tl) (0 + zlen sandesh_open_) (0 + flen body - zlen sandesh_close_) = Some body.
Proof.
  intros Hb. pose proof (flen_bounds body Hb). pose proof (frame_flen body Hb).
  unfold substring. rewrite bool_decide_eq_true_2.
  - f_equal. rewrite frame_header, <- !app_assoc. rewrite drop_app_length'.
    + replace (Z.to_nat _) with (length body)
        by (unfold flen; change (zlen sandesh_open_) with 29; change (zlen sandesh_close_) with 10; lia).
      by rewrite take_app_length.
    + rewrite header_length by lia. done.
  - rewrite length_app. unfold flen in *. change (zlen sandesh_open_) with 29 in *.
    change (zlen sandesh_close_) with 10 in *. lia.
Qed.

(** The loop delivers the complete frames and waits on the rest. *)
Lemma read_loop_frames bodies : forall fuel r part nb,
  Forall ok_body bodies -> ok_body nb -> part_of part nb -> (length bodies < fuel)%nat ->
  zlen (buf_ r) < 2 ^ 63 ->
  waiting r (concat (frame <$> bodies) ++ part) (default nb (head bodies)) ->
  exists r', (let '(done, result, r1) := ExtractMsg stringToInteger None 0 r in
              read_loop stringToInteger cb fuel done result r1) = Some r' /\
    waiting r' part nb /\ delivered r' = delivered r ++ bodies /\
    cb_set r' = cb_set r /\ closes r' = closes r /\ recv_fail r' = recv_fail r.
Proof.
  induction bodies as [|body bodies IH]; intros fuel r part nb Hbs Hnb Hpart Hf Hsz Hw.
  - destruct fuel as [|fuel]; [lia|]. simpl in Hw.
    destruct (ExtractMsg_part r part nb Hnb Hpart Hw) as (r'&->&?&E). cbn.
    exists r'. split; [done|]. split; [done|]. rewrite app_nil_r. by rewrite E.
  - destruct fuel as [|fuel]; [simpl in Hf; lia|]. apply Forall_cons_iff in Hbs as [Hb Hbs].
    cbn [fmap list_fmap concat] in Hw. rewrite <- app_assoc in Hw. cbn [head default] in Hw.
    set (tl := concat (frame <$> bodies) ++ part) in *.
    rewrite (ExtractMsg_full r body tl) by done.
    pose proof Hw as (Eb&Eo&_). pose proof (flen_bounds body Hb).
    pose proof (frame_flen body Hb).
    assert (0 <= flen body) by lia.
    cbn [read_loop]. change (0 <? 0) with false. cbn iota.
    cbn [buf_ offset_ msg_length_ set_msg_length]. rewrite Eo, Eb, substring_body by done.
    cbn [mbind option_bind]. rewrite cb_accepts. cbn [negb].
    cbn [buf_ offset_ deliver reset_msg_length set_msg_length set_buf delivered].
    unfold LeftOver.
    cbn [buf_ offset_ deliver reset_msg_length set_msg_length set_buf delivered].
    assert (zlen (frame body ++ tl) = flen body + zlen tl) as El by (rewrite length_app; lia).
    destruct (frame body ++ tl) as [|x0 l0] eqn:Efr; [simpl in El; lia|]. rewrite <- Efr in *.
    rewrite El. clear x0 l0 Efr. destruct (Z.eqb_spec (flen body + zlen tl) (0 + flen body)) as [E0|E0].
    + (* no bytes left *)
      cbn [negb]. assert (tl = []) as Etl by (destruct tl; [done|simpl in E0; lia]).
      assert (bodies = [] /\ part = []) as [-> ->].
      { unfold tl in Etl. apply app_eq_nil in Etl as [Ec ->]. split; [|done].
        destruct bodies as [|b1 ?]; [done|]. cbn [fmap list_fmap concat] in Ec. apply app_eq_nil in Ec as [Ec _].
        apply Forall_cons_iff in Hbs as [Hb1 _]. pose proof (frame_flen b1 Hb1).
        pose proof (flen_bounds b1 Hb1). rewrite Ec in *. simpl in *. lia. }
      eexists; split; [done|]. split; [|done]. split; [done|]. split; [done|]. by left.
    + cbn [negb]. unfold substring. rewrite bool_decide_eq_true_2 by lia. cbn [mbind option_bind].
      assert (take (Z.to_nat (flen body + zlen tl - (0 + flen body)))
                (drop (Z.to_nat (0 + flen body)) (frame body ++ tl)) = tl) as ->.
      { rewrite drop_app_length' by lia. rewrite firstn_all2; [done|lia]. }
      set (r1 := ReplaceBuf tl _).
      destruct (IH fuel r1 part nb Hbs Hnb Hpart) as (r'&E&Hw'&Hd&Hc&Hcl&Hrf).
      { simpl in Hf. lia. }
      { simpl. rewrite Eb in Hsz. lia. }
      { split; [done|]. split; [done|]. by left. }
      exists r'. split; [exact E|]. split; [done|].
      rewrite Hd, Hc, Hcl, Hrf. simpl. by rewrite <- app_assoc.
Qed.

Lemma ExtractMsg_new chunk r :
  ExtractMsg stringToInteger (Some chunk) 0 r = ExtractMsg stringToInteger None 0 (SetBuf chunk r).
Proof. done. Qed.

Lemma ExtractMsg_buf r d res r' :
  ExtractMsg stringToInteger None 0 r = (d, res, r') -> buf_ r' = buf_ r.
Proof.
  unfold ExtractMsg. intros E. repeat (case_match; simplify_eq; try done).
Qed.

Lemma frame_not_nil body : frame body <> [].
Proof. unfold frame, WriterSpec.frame. intros E. apply app_eq_nil in E as [E _]. discriminate E. Qed.

(** Every prefix of a stream of frames is some complete frames and a part of the next. *)
Lemma split_stream (bodies : list (list byte)) : forall p q : list byte,
  Forall ok_body bodies -> p ++ q = concat (frame <$> bodies) ->
  exists (old new : list (list byte)) (part : list byte), bodies = old ++ new /\ p = concat (frame <$> old) ++ part /\
    part_of part (default [] (head new)) /\ part ++ q = concat (frame <$> new).
Proof.
  induction bodies as [|b bodies IH]; intros p q Hok E.
  - apply app_eq_nil in E as [-> ->]. exists [], [], []. split; [done|]. split; [done|].
    split; [|done]. exists (frame []). split; [apply frame_not_nil|done].
  - cbn [fmap list_fmap concat] in E. apply Forall_cons_iff in Hok as [Hb Hok].
    destruct (decide (length (frame b) <= length p)%nat) as [Hl|Hl].
    + assert (p = frame b ++ drop (length (frame b)) p) as Ep.
      { rewrite <- (take_drop (length (frame b)) p) at 1. f_equal.
        apply (f_equal (take (length (frame b)))) in E. rewrite take_app_le in E by done.
        by rewrite take_app_length in E. }
      rewrite Ep, <- app_assoc in E. apply app_inv_head in E.
      destruct (IH _ _ Hok E) as (old&new&part&Eo&Ep'&Hp&Eq).
      exists (b :: old), new, part. split; [by rewrite Eo|]. split; [|done].
      rewrite Ep, Ep'. cbn [fmap list_fmap concat]. by rewrite <- app_assoc.
    + exists [], (b :: bodies), p. split; [done|]. split; [done|]. split; [|done].
      exists (drop (length p) (frame b)). cbn [head default]. split.
      * intros Ed. apply (f_equal length) in Ed. rewrite length_drop in Ed. cbn [length] in Ed. lia.
      * transitivity (take (length p) (frame b) ++ drop (length p) (frame b)); [|apply take_drop]. f_equal.
        apply (f_equal (take (length p))) in E. rewrite take_app_length, (take_app_le (frame b)) in E by lia.
        exact E.
Qed.

Lemma concat_frames_length (bodies : list (list byte)) :
  (length bodies <= length (concat (frame <$> bodies)))%nat.
Proof.
  induction bodies as [|b bodies IH]; [done|]. cbn [fmap list_fmap concat]. rewrite length_app.
  pose proof (frame_not_nil b). destruct (frame b); [done|]. cbn [length].
  change (list_fmap _ _ frame bodies) with (frame <$> bodies). lia.
Qed.

Lemma waiting_set chunk r part nb :
  waiting r part nb -> waiting (SetBuf chunk r) (part ++ chunk) nb.
Proof.
  intros (Eb&Eo&Hm). unfold SetBuf. rewrite Eb.
  destruct part as [|x part]; (split; [done|]); (split; [done|]);
    (destruct Hm as [Hm|[Hl Hm]]; [by left|]).
  - simpl in Hl. lia.
  - right. split; [|done]. rewrite length_app. lia.
Qed.

(** One read of a stream of frames. *)
Lemma OnRead_step chunk q r (part : list byte) (new : list (list byte)) :
  Forall ok_body new -> cb_set r = true -> zlen (concat (frame <$> new)) < 2 ^ 63 ->
  waiting r part (default [] (head new)) -> part ++ chunk ++ q = concat (frame <$> new) ->
  exists r' old new' (part' : list byte), OnRead stringToInteger cb chunk r = Some r' /\ new = old ++ new' /\
    waiting r' part' (default [] (head new')) /\ part_of part' (default [] (head new')) /\
    part' ++ q = concat (frame <$> new') /\ delivered r' = delivered r ++ old /\
    cb_set r' = true /\ closes r' = closes r /\ recv_fail r' = recv_fail r.
Proof.
  intros Hok Hcb Hsz Hw E. rewrite app_assoc in E.
  destruct (split_stream new (part ++ chunk) q Hok E) as (old&new'&part'&En&Ep&Hpart&Eq).
  assert (Forall ok_body old /\ Forall ok_body new') as [Hoko Hokn] by (apply Forall_app; by rewrite <- En).
  assert (ok_body (default [] (head new'))) as Hnb.
  { destruct new'; [done|]. by apply Forall_cons_iff in Hokn as [? _]. }
  pose proof (waiting_set chunk r part _ Hw) as Hw1.
  assert (default [] (head new) = default (default [] (head new')) (head old)) as Eh
    by (rewrite En; by destruct old).
  rewrite Eh, Ep in Hw1. pose proof Hw1 as (Eb&_&_).
  assert (zlen (buf_ (SetBuf chunk r)) < 2 ^ 63) as Hsz1.
  { rewrite Eb, <- Ep. rewrite <- E, length_app in Hsz. lia. }
  unfold OnRead. rewrite Hcb. cbn [negb]. rewrite ExtractMsg_new.
  destruct (ExtractMsg stringToInteger None 0 (SetBuf chunk r)) as [[d res] r1] eqn:Ex.
  pose proof (ExtractMsg_buf _ _ _ _ Ex) as Ebuf.
  destruct (read_loop_frames old (S (length (buf_ r1))) (SetBuf chunk r) part' (default [] (head new')))
    as (r'&El&Hw'&Hd&Hc&Hcl&Hrf); [done|done|done| |done|done|].
  { rewrite Ebuf, Eb, length_app. pose proof (concat_frames_length old). lia. }
  rewrite Ex in El. rewrite El. cbn [mbind option_bind].
  assert (delivered (SetBuf chunk r) = delivered r /\ cb_set (SetBuf chunk r) = cb_set r /\
    closes (SetBuf chunk r) = closes r /\ recv_fail (SetBuf chunk r) = recv_fail r) as (E1&E2&E3&E4)
    by (unfold SetBuf; by destruct (buf_ r)).
  exists (ReleaseBuffer r'), old, new', part'. split; [done|]. split; [done|].
  split; [exact Hw'|]. split; [done|]. split; [done|]. cbn.
  by rewrite Hd, Hc, Hcl, Hrf, E1, E2, E3, E4.
Qed.

Lemma part_of_all (part : list byte) (new : list (list byte)) :
  part_of part (default [] (head new)) -> part = concat (frame <$> new) -> new = [] /\ part = [].
Proof.
  intros (rest&Hr&E) ->. destruct new as [|b new]; [done|]. exfalso. cbn [head default] in E.
  cbn [fmap list_fmap concat] in E. rewrite <- app_assoc in E. 
  assert (frame b ++ (concat (frame <$> new) ++ rest) = frame b ++ []) as E' by by rewrite app_nil_r.
  apply app_inv_head, app_eq_nil in E' as [_ E']. done.
Qed.

Lemma OnReads_stream chunks : forall r (part : list byte) (new : list (list byte)),
  Forall ok_body new -> cb_set r = true -> zlen (concat (frame <$> new)) < 2 ^ 63 ->
  waiting r part (default [] (head new)) -> part_of part (default [] (head new)) ->
  part ++ concat chunks = concat (frame <$> new) ->
  exists r', OnReads stringToInteger cb chunks r = Some r' /\ delivered r' = delivered r ++ new /\
    buf_ r' = [] /\ offset_ r' = 0 /\ msg_length_ r' = no_length /\
    closes r' = closes r /\ recv_fail r' = recv_fail r.
Proof.
  induction chunks as [|c chunks IH]; intros r part new Hok Hcb Hsz Hw Hp E.
  - cbn [concat] in E. rewrite app_nil_r in E. destruct (part_of_all _ _ Hp E) as [-> ->].
    exists r. rewrite app_nil_r. destruct Hw as (?&?&[?|[Hl _]]); [done|]. simpl in Hl. lia.
  - cbn [concat] in E.
    destruct (OnRead_step c (concat chunks) r part new Hok Hcb Hsz Hw E)
      as (r1&old&new1&part1&E1&En&Hw1&Hp1&Eq&Hd&Hc&Hcl&Hrf).
    rewrite En in Hok, Hsz. apply Forall_app in Hok as [_ Hok].
    destruct (IH r1 part1 new1 Hok Hc) as (r2&E2&Hd2&?&?&?&Hcl2&Hrf2); [|done..|].
    { rewrite fmap_app, concat_app, length_app in Hsz. lia. }
    exists r2. cbn [OnReads]. rewrite E1. cbn [mbind option_bind].
    split; [done|]. split; [by rewrite En, Hd2, Hd, app_assoc|].
    by rewrite Hcl2, Hcl, Hrf2, Hrf.
Qed.

End Proofs.

(** *** Arbitrary input *)
Lemma substring_Some b st en :
  0 <= st -> st <= en -> en <= zlen b ->
  substring b st en = Some (take (Z.to_nat (en - st)) (drop (Z.to_nat st) b)).
Proof. intros. unfold substring. by rewrite bool_decide_eq_true_2. Qed.

Section Arbitrary.
Variable stringToInteger : list byte -> Z.
Variable cb : list (list byte) -> list byte -> bool.

(** The callback took every message of [l], each given after the ones before it. *)
Definition accepted (l : list (list byte)) : Prop :=
  forall h m t, l = h ++ m :: t -> cb h m = true.

(** The callback took all messages but the last one, and the session was closed. *)
Definition refused (r : t) : Prop :=
  exists h m, delivered r = h ++ [m] /\ accepted h /\ cb h m = false /\ (0 < closes r)%nat.

Lemma accepted_snoc l m : accepted l -> cb l m = true -> accepted (l ++ [m]).
Proof.
  intros Hl Hm h x t E. destruct t as [|y t _] using rev_ind.
  - by apply app_inj_tail in E as [-> ->].
  - rewrite app_comm_cons, app_assoc in E. apply app_inj_tail in E as [-> ->]. by eapply Hl.
Qed.

(** The length the buffer [l] announces. *)
Definition announced (l : list byte) : option Z :=
  let '(known, n, _) := ExtractMsgLength stringToInteger (set_buf l 0 init) in
  if known then Some n else None.

(** No part of the stream announces a frame shorter than its envelope. *)
Definition no_short_frames (s : list byte) : Prop :=
  forall p l q n, s = p ++ l ++ q -> announced l = Some n ->
    zlen sandesh_open_ + zlen sandesh_close_ <= n.

Lemma announced_ExtractMsgLength r n res :
  offset_ r = 0 -> ExtractMsgLength stringToInteger r = (true, n, res) -> announced (buf_ r) = Some n.
Proof.
  intros Eo E. unfold announced.
  replace (ExtractMsgLength stringToInteger (set_buf (buf_ r) 0 init))
    with (ExtractMsgLength stringToInteger r); [by rewrite E|].
  unfold ExtractMsgLength. simpl. by rewrite Eo.
Qed.

(** Between reads on arbitrary input: the buffer is the end of what was received. *)
Definition tracks (r : t) (received : list byte) : Prop :=
  (exists p, received = p ++ buf_ r) /\ offset_ r = 0 /\
  (msg_length_ r = no_length \/ zlen sandesh_open_ + zlen sandesh_close_ <= msg_length_ r).

Lemma tracks_ExtractMsg r received d res r' :
  no_short_frames received -> tracks r received ->
  ExtractMsg stringToInteger None 0 r = (d, res, r') ->
  tracks r' received /\ buf_ r' = buf_ r /\
  (d = true -> res = 0 /\ zlen sandesh_open_ + zlen sandesh_close_ <= msg_length_ r' /\
               msg_length_ r' <= zlen (buf_ r')).
Proof.
  intros Hns ((p&Ep)&Eo&Hm) E. unfold ExtractMsg, MsgLengthKnown in E.
  destruct (Z.eqb_spec (msg_length_ r) no_length) as [En|En]; cbn [negb] in E.
  - destruct (ExtractMsgLength stringToInteger r) as [[[] n] e] eqn:Ex; cbn [negb] in E.
    + pose proof (announced_ExtractMsgLength r n e Eo Ex) as Ha.
      assert (zlen sandesh_open_ + zlen sandesh_close_ <= n) as Hn.
      { apply (Hns p (buf_ r) [] n); [by rewrite app_nil_r|done]. }
      cbn [buf_ msg_length_ set_msg_length] in E.
      destruct (Z.ltb_spec (zlen (buf_ r)) n); simplify_eq;
        (split; [split; [by exists p|]; split; [done|by right]|]; done).
    + simplify_eq. split; [split; [by exists p|]; split; [done|by left]|]. done.
  - destruct Hm as [?|Hm]; [done|].
    destruct (Z.ltb_spec (zlen (buf_ r)) (msg_length_ r)); simplify_eq;
      (split; [split; [by exists p|]; split; [done|by right]|]; done).
Qed.

Lemma read_loop_total received : no_short_frames received ->
  forall fuel r, tracks r received -> accepted (delivered r) -> (length (buf_ r) < fuel)%nat ->
  exists r', (let '(d, res, r1) := ExtractMsg stringToInteger None 0 r in
              read_loop stringToInteger cb fuel d res r1) = Some r' /\
    cb_set r' = cb_set r /\ (tracks r' received /\ accepted (delivered r') \/ refused r').
Proof.
  intros Hns. induction fuel as [|fuel IH]; intros r Hr Ha Hf; [lia|].
  destruct (ExtractMsg stringToInteger None 0 r) as [[d res] r1] eqn:Ex.
  destruct (tracks_ExtractMsg r received d res r1 Hns Hr Ex) as (Hr1&Eb&Hd).
  assert (cb_set r1 = cb_set r /\ delivered r1 = delivered r) as [Ec Ed].
  { clear - Ex. unfold ExtractMsg in Ex. repeat (case_match; simplify_eq; try done). }
  destruct Hr1 as ((p&Ep)&Eo&Hm).
  cbn [read_loop]. destruct (Z.ltb_spec res 0).
  { eexists. split; [done|]. split; [done|]. left. split; [|by rewrite <- Ed in Ha].
    split; [exists received; simpl; by rewrite app_nil_r|]. split; [done|]. exact Hm. }
  destruct d; [|exists r1; split; [done|]; split; [done|]; left; split; [split; [by exists p|done]|by rewrite Ed]].
  destruct (Hd eq_refl) as (->&Hlo&Hhi).
  change (zlen sandesh_open_) with 29 in *. change (zlen sandesh_close_) with 10 in *.
  rewrite Eo, (substring_Some (buf_ r1)) by lia. cbn [mbind option_bind].
  cbn [delivered reset_msg_length set_msg_length set_buf]. rewrite Ed. set (xml := take _ (drop _ _)).
  destruct (cb (delivered r) xml) eqn:Ecb; cbn [negb];
    [|eexists; split; [done|]; split; [done|]; right; exists (delivered r), xml; simpl;
      rewrite Ed; split; [done|]; split; [done|]; split; [done|lia]].
  pose proof (accepted_snoc _ _ Ha Ecb) as Ha2. rewrite <- Ed in Ha2. clear Ecb.
  set (r2 := deliver _ _).
  assert (buf_ r2 = buf_ r1 /\ offset_ r2 = msg_length_ r1 /\ cb_set r2 = cb_set r1 /\
          msg_length_ r2 = no_length /\ delivered r2 = delivered r1 ++ [xml]) as (Eb2&Eo2&Ec2&Em2&Ed2).
  { split; [done|]. split; [|done]. simpl. lia. }
  assert (LeftOver r2 = negb (zlen (buf_ r1) =? msg_length_ r1)) as ->.
  { unfold LeftOver. rewrite Eb2, Eo2. destruct (buf_ r1); [simpl in Hhi; lia|done]. }
  rewrite Eb2, Eo2. clearbody r2.
  destruct (Z.eqb_spec (zlen (buf_ r1)) (msg_length_ r1)); cbn [negb].
  - eexists. split; [done|]. split; [simpl; congruence|]. left. split; [|simpl; by rewrite Ed2].
    split; [exists received; simpl; by rewrite app_nil_r|]. split; [done|by left].
  - rewrite (substring_Some (buf_ r1)) by lia. cbn [mbind option_bind].
    set (rest := take _ _). assert (rest = drop (Z.to_nat (msg_length_ r1)) (buf_ r1)) as Er.
    { unfold rest. apply firstn_all2. rewrite length_drop. lia. }
    destruct (IH (ReplaceBuf rest r2)) as (r'&El&Ec'&Hr').
    { split; [|split; [done|by left]]. exists (p ++ take (Z.to_nat (msg_length_ r1)) (buf_ r1)).
      simpl. rewrite Er, <- app_assoc, take_drop. done. }
    { simpl. by rewrite Ed2. }
    { simpl. rewrite Er, length_drop, Eb. rewrite Eb in *. lia. }
    exists r'. split; [exact El|]. split; [simpl in Ec'; congruence|done].
Qed.

(** The hypothesis can be decided: a part of the stream that announces a frame
    begins at some position with an opening tag, of which only the digits matter. *)
Lemma announced_prefix l n : announced l = Some n ->
  (length sandesh_open_ <= length l)%nat /\ announced (take (length sandesh_open_) l) = Some n.
Proof.
  unfold announced, ExtractMsgLength. cbn [buf_ offset_ set_buf drop Z.to_nat].
  rewrite !drop_0, !Z.sub_0_r.
  destruct (Z.ltb_spec (u64 (zlen l)) (zlen sandesh_open_)) as [|Hl]; [done|].
  assert (length sandesh_open_ <= length l)%nat as Hle.
  { unfold wrapU in Hl. pose proof (Z.mod_le (zlen l) (2 ^ 64)). change (zlen sandesh_open_) with 29 in *.
    change (length sandesh_open_) with 29%nat. lia. }
  rewrite length_take, Nat.min_l by done.
  rewrite (wrapU_small 64 (zlen sandesh_open_)) by (vm_compute; split; [discriminate|reflexivity]).
  rewrite Z.ltb_irrefl, take_take, lookup_take_lt, skipn_firstn_comm, take_take by (vm_compute; lia).
  done.
Qed.

Definition no_short_frames_check (s : list byte) : bool :=
  forallb (fun i => match announced (take (length sandesh_open_) (drop i s)) with
                    | Some n => zlen sandesh_open_ + zlen sandesh_close_ <=? n
                    | None => true
                    end) (seq 0 (S (length s))).

Lemma no_short_frames_checked s : no_short_frames_check s = true -> no_short_frames s.
Proof.
  unfold no_short_frames_check. rewrite forallb_forall. intros H p l q n -> Ha.
  apply announced_prefix in Ha as [Hl Ha]. specialize (H (length p)).
  rewrite drop_app_length, take_app_le, Ha in H by done. apply Z.leb_le, H, in_seq. rewrite !length_app. lia.
Qed.

Lemma no_short_frames_prefix a b : no_short_frames (a ++ b) -> no_short_frames a.
Proof. intros H p l q n -> . apply (H p l (q ++ b)). by rewrite <- !app_assoc. Qed.

Lemma OnReads_tracks chunks : forall r received,
  no_short_frames (received ++ concat chunks) -> tracks r received -> accepted (delivered r) ->
  cb_set r = true ->
  exists k r', OnReads stringToInteger cb (take k chunks) r = Some r' /\
    (k = length chunks /\ tracks r' (received ++ concat chunks) /\ accepted (delivered r') \/ refused r').
Proof.
  induction chunks as [|c chunks IH]; intros r received Hns Hr Ha Hcb.
  { exists 0%nat, r. cbn [concat]. rewrite app_nil_r. split; [done|]. by left. }
  cbn [concat] in *. rewrite app_assoc in *.
  assert (tracks (SetBuf c r) (received ++ c) /\ cb_set (SetBuf c r) = true /\
          delivered (SetBuf c r) = delivered r) as (Hr1&Hcb1&Ed1).
  { destruct Hr as ((p&Ep)&Eo&Hm). unfold SetBuf. destruct (buf_ r) as [|x l] eqn:El.
    - split; [|done]. split; [|done]. by exists received.
    - split; [|done]. split; [exists p; by rewrite Ep, <- app_assoc|done]. }
  destruct (ExtractMsg stringToInteger None 0 (SetBuf c r)) as [[d res] r1] eqn:Ex.
  pose proof (ExtractMsg_buf _ _ _ _ _ Ex) as Eb.
  destruct (read_loop_total (received ++ c) (no_short_frames_prefix _ _ Hns)
              (S (length (buf_ r1))) (SetBuf c r) Hr1) as (r'&El&Ec'&Hr').
  { by rewrite Ed1. }
  { rewrite Eb. lia. }
  assert (OnRead stringToInteger cb c r = Some (ReleaseBuffer r')) as Eread.
  { unfold OnRead. rewrite Hcb. cbn [negb]. rewrite ExtractMsg_new, Ex. rewrite Ex in El. by rewrite El. }
  destruct Hr' as [[Hr' Ha']|Hre].
  - destruct (IH (ReleaseBuffer r') (received ++ c)) as (k&r2&E2&H2); [done|exact Hr'|exact Ha'|simpl; by rewrite Ec'|].
    exists (S k), r2. cbn [take OnReads]. rewrite Eread. cbn [mbind option_bind]. split; [exact E2|].
    destruct H2 as [[-> H2]|H2]; [by left|by right].
  - exists 1%nat, (ReleaseBuffer r'). cbn [take OnReads]. rewrite Eread. split; [done|]. by right.
Qed.

End Arbitrary.
End ReaderSpec.

(** ** What the session layer promises *)
Module SessionClaims.
Import WriterSpec ReaderSpec.

(** A message whose generated code writes the bytes [h] and [m]. *)
Definition literal `{!Allocator} (h m : list byte) : Sandesh :=
  let put d b := '(_, b) ← TMemoryBuffer.write d b; Some (zlen d, b) in
  MkSandesh "literal" (put h) (put m).

Lemma literal_carries `{!Allocator} h m :
  zlen (h ++ m) < 2 ^ 31 - 64 -> carries (literal h m) (h ++ m).
Proof.
  intros. exists h, m.
  assert (forall d, appends (fun b => '(_, b) ← TMemoryBuffer.write d b; Some (zlen d, b)) d) as Ha.
  { intros d b Hb Hr. destruct (TMemoryBuffer.write_append b d Hb Hr) as (b'&->&?&?&?). by exists b'. }
  split; [apply Ha|]. split; [apply Ha|]. done.
Qed.

Definition two_messages `{!Allocator} : list (Sandesh * bool) :=
  [(literal (bs "<h/>") (bs "<a/>"), true); (literal (bs "<h/>") (bs "<b/>"), false)].
Definition two_bodies : list (list byte) := [bs "<h/>" ++ bs "<a/>"; bs "<h/>" ++ bs "<b/>"].

Lemma two_messages_carry `{!Allocator} :
  Forall2 (fun m body => carries m.1 body) two_messages two_bodies.
Proof. repeat constructor; by apply literal_carries. Qed.

Lemma concat_singletons (l : list byte) : concat ((fun b => [b]) <$> l) = l.
Proof. induction l as [|x l IH]; [done|]. cbn [fmap list_fmap concat]. by rewrite IH. Qed.

(** C2: the writer loses, duplicates and reorders nothing.  However the socket
    answers and however messages are packed into bulk buffers, what was handed to
    [TcpSession::Send] followed by what is kept in [send_buf_] is the sequence of
    the messages' frames, fewer than [kDefaultSendSize] bytes are kept back, all
    messages are released, and nothing is kept back after a message that found the
    queue empty. *)
Theorem writer_stream `{!Allocator} (Send : list (list byte) -> list byte -> bool) msgs bodies :
  (forall k, 0 <= k < 2 ^ 32 -> alloc_ok k = true) ->
  Forall2 (fun m body => carries m.1 body) msgs bodies ->
  exists w, send_all Send msgs SandeshWriter.init = Some w /\
    concat (SandeshWriter.sent w) ++ pending w = concat (frame <$> bodies) /\
    zlen (pending w) < kDefaultSendSize /\
    SandeshWriter.released w = (sname ∘ fst <$> msgs) /\
    (ends_flushed msgs = true -> concat (SandeshWriter.sent w) = concat (frame <$> bodies)).
Proof.
  intros Ha Hall. destruct (send_all_spec Send Ha msgs bodies SandeshWriter.init inv_init Hall)
    as (w&Hs&Hw&E&Hp&Hr).
  exists w. split; [done|]. split; [exact E|].
  split; [rewrite pending_length by done; destruct Hw as (_&_&?); lia|]. split; [done|].
  intros Hf. specialize (Hp Hf). unfold stream in E. by rewrite Hp, app_nil_r in E.
Qed.

Lemma writer_stream_witness :
  let _ := TMemoryBuffer.total_allocator in
  exists w, send_all (fun _ _ => false) two_messages SandeshWriter.init = Some w /\
    concat (SandeshWriter.sent w) = concat (frame <$> two_bodies).
Proof.
  intros A. destruct (writer_stream (fun _ _ => false) two_messages two_bodies) as (w&Hs&_&_&_&Hf).
  - intros; reflexivity.
  - apply two_messages_carry.
  - exists w. split; [exact Hs|]. exact (Hf eq_refl).
Defined.

(** C1: the two ends of a session fit together.  When the queue drained, the bytes
    the writer put on the wire, cut into reads at any places, make the reader's
    callback see exactly the bodies of the messages, in order, and leave it with an
    empty buffer and without closing the session. *)
Theorem session_end_to_end `{!Allocator} (Send : list (list byte) -> list byte -> bool)
    stringToInteger cb msgs bodies w chunks :
  (forall k, 0 <= k < 2 ^ 32 -> alloc_ok k = true) ->
  decimal_conversion stringToInteger -> (forall h m, cb h m = true) ->
  Forall2 (fun m body => carries m.1 body) msgs bodies ->
  zlen (concat (frame <$> bodies)) < 2 ^ 63 ->
  send_all Send msgs SandeshWriter.init = Some w -> ends_flushed msgs = true ->
  concat chunks = concat (SandeshWriter.sent w) ->
  exists r, SandeshReader.OnReads stringToInteger cb chunks
      (SandeshReader.SetReceiveMsgCb true SandeshReader.init) = Some r /\
    SandeshReader.delivered r = bodies /\ SandeshReader.buf_ r = [] /\
    SandeshReader.closes r = 0%nat /\ SandeshReader.recv_fail r = 0.
Proof.
  intros Ha Hc Hcb Hall Hsz Hs Hf Hch.
  destruct (send_all_spec Send Ha msgs bodies SandeshWriter.init inv_init Hall)
    as (w1&Hs1&_&E&Hp&_). rewrite Hs in Hs1. injection Hs1 as <-.
  unfold stream in E. rewrite (Hp Hf), app_nil_r in E.
  assert (Forall ok_body bodies) as Hok.
  { clear -Hall. induction Hall as [|? ? ? ? (?&?&_&_&_&?)]; constructor; done. }
  destruct (OnReads_stream stringToInteger Hc cb Hcb chunks
              (SandeshReader.SetReceiveMsgCb true SandeshReader.init) [] bodies Hok eq_refl Hsz)
    as (r&Er&Ed&Eb&_&_&Ecl&Erf).
  - split; [done|]. split; [done|]. by left.
  - exists (frame (default [] (head bodies))). split; [apply ReaderSpec.frame_not_nil|done].
  - by rewrite Hch, E.
  - by exists r.
Qed.

Lemma session_end_to_end_witness :
  let _ := TMemoryBuffer.total_allocator in
  exists w r, send_all (fun _ _ => true) two_messages SandeshWriter.init = Some w /\
    SandeshReader.OnReads dec_value (fun _ _ => true)
      ((fun b => [b]) <$> concat (SandeshWriter.sent w))
      (SandeshReader.SetReceiveMsgCb true SandeshReader.init) = Some r /\
    SandeshReader.delivered r = two_bodies.
Proof.
  intros A.
  assert (forall k, 0 <= k < 2 ^ 32 -> alloc_ok k = true) as Ha by (intros; reflexivity).
  destruct (send_all_spec (fun _ _ => true) Ha two_messages two_bodies SandeshWriter.init inv_init
              two_messages_carry) as (w&Hs&_).
  assert (decimal_conversion dec_value) as Hc by (intros ? ? ? ?; reflexivity).
  assert (zlen (concat (frame <$> two_bodies)) < 2 ^ 63) as Hsz by (vm_compute; reflexivity).
  destruct (session_end_to_end (fun _ _ => true) dec_value (fun _ _ => true) two_messages two_bodies w
    ((fun b => [b]) <$> concat (SandeshWriter.sent w)) Ha Hc (fun _ _ => eq_refl) two_messages_carry
    Hsz Hs eq_refl (concat_singletons _)) as (r&Hr&Hd&_).
  exists w, r. split; [exact Hs|]. split; [exact Hr|exact Hd].
Defined.

(** C39: whatever arrives and whatever the callback answers, the reader stays inside
    of its buffer and returns up to the first message the callback refuses, provided
    that no part of the byte stream announces a frame shorter than its envelope.
    Either all reads are processed, every message handed over was accepted, the
    buffer kept is the end of what was received and the offset is 0; or the reads are
    processed up to one that hands over a message the callback refuses, all messages
    before it were accepted, nothing behind it is handed over and a close is
    enqueued.  (Reads that still come between the refusal and the close are not
    covered: the offset is then not 0 and [ExtractMsg] does not account for it.) *)
Theorem reader_total stringToInteger cb chunks :
  no_short_frames stringToInteger (concat chunks) ->
  exists k r, SandeshReader.OnReads stringToInteger cb (take k chunks)
      (SandeshReader.SetReceiveMsgCb true SandeshReader.init) = Some r /\
    (k = length chunks /\ (exists p, concat chunks = p ++ SandeshReader.buf_ r) /\
       SandeshReader.offset_ r = 0 /\ accepted cb (SandeshReader.delivered r) \/
     refused cb r).
Proof.
  intros Hns. destruct (OnReads_tracks stringToInteger cb chunks
      (SandeshReader.SetReceiveMsgCb true SandeshReader.init) [] Hns) as (k&r&Hr&H).
  - split; [by exists []|]. split; [done|]. by left.
  - intros h m t E. by destruct h.
  - done.
  - exists k, r. split; [done|]. destruct H as [(->&(Hp&Eo&_)&Ha)|H]; [by left|by right].
Qed.

(** Two frames cut inside of the second header, then a third message's first
    bytes: the callback that takes everything gets both; the one that refuses the
    second message closes the session. *)
Definition cut_stream : list (list byte) :=
  let s := frame (bs "<a/>") ++ frame (bs "<b/>") ++ bs "<sand" in
  [take 50 s; drop 50 s].

Lemma no_short_frames_sample : no_short_frames dec_value (concat cut_stream).
Proof. apply no_short_frames_checked. vm_compute. reflexivity. Qed.

Lemma reader_total_witness :
  (exists r, SandeshReader.OnReads dec_value (fun _ _ => true) cut_stream
      (SandeshReader.SetReceiveMsgCb true SandeshReader.init) = Some r /\
    SandeshReader.delivered r = [bs "<a/>"; bs "<b/>"] /\ SandeshReader.buf_ r = bs "<sand") /\
  (exists k r, SandeshReader.OnReads dec_value (fun h _ => bool_decide (h = [])) (take k cut_stream)
      (SandeshReader.SetReceiveMsgCb true SandeshReader.init) = Some r /\
    refused (fun h _ => bool_decide (h = [])) r).
Proof.
  split.
  - destruct (reader_total dec_value (fun _ _ => true) cut_stream no_short_frames_sample)
      as (k&r&E&[(->&_)|(?&?&_&_&Hc&_)]); [|discriminate Hc].
    exists r. split; [exact E|]. vm_compute in E. injection E as <-. split; reflexivity.
  - destruct (reader_total dec_value (fun h _ => bool_decide (h = [])) cut_stream no_short_frames_sample)
      as (k&r&E&[(->&_&Eo&_)|Hr]); [|exists k, r; split; [exact E|exact Hr]].
    exfalso. vm_compute in E. injection E as <-. discriminate Eo.
Defined.

(** An announced length of 1 to 38 is not refused: when the buffer holds that
    many bytes, [OnRead] builds a string from an iterator range that runs
    backwards. *)
Theorem short_frame_undefined stringToInteger cb n tl :
  decimal_conversion stringToInteger -> 0 < n < zlen sandesh_open_ + zlen sandesh_close_ ->
  n <= zlen (header n ++ tl) < 2 ^ 63 ->
  SandeshReader.OnRead stringToInteger cb (header n ++ tl)
    (SandeshReader.SetReceiveMsgCb true SandeshReader.init) = None.
Proof.
  change (zlen sandesh_open_ + zlen sandesh_close_) with 39. intros Hc Hn Hl.
  unfold SandeshReader.OnRead. cbn [SandeshReader.cb_set SandeshReader.SetReceiveMsgCb negb].
  rewrite ExtractMsg_new. set (r0 := SandeshReader.SetBuf _ _).
  assert (SandeshReader.buf_ r0 = header n ++ tl /\ SandeshReader.offset_ r0 = 0) as [Eb Eo] by done.
  assert (SandeshReader.ExtractMsg stringToInteger None 0 r0
          = (true, 0, SandeshReader.set_msg_length n r0)) as ->.
  { unfold SandeshReader.ExtractMsg, SandeshReader.MsgLengthKnown.
    change (SandeshReader.msg_length_ r0) with SandeshReader.no_length. rewrite Z.eqb_refl. cbn [negb].
    rewrite (ExtractMsgLength_number stringToInteger Hc n tl) by (done || lia || (rewrite Eb; lia)).
    cbn [negb SandeshReader.buf_ SandeshReader.msg_length_ SandeshReader.set_msg_length].
    rewrite Eb. destruct (Z.ltb_spec (zlen (header n ++ tl)) n); [lia|done]. }
  cbn [SandeshReader.read_loop]. change (0 <? 0) with false. cbn iota.
  cbn [SandeshReader.buf_ SandeshReader.offset_ SandeshReader.msg_length_ SandeshReader.set_msg_length].
  unfold SandeshReader.substring. rewrite Eo, bool_decide_eq_false_2; [done|].
  change (zlen sandesh_open_) with 29. change (zlen sandesh_close_) with 10. lia.
Qed.

Lemma short_frame_undefined_witness :
  SandeshReader.OnRead dec_value (fun _ _ => true) (bs "<sandesh length=" ++ [x22] ++
    bs "0000000005" ++ [x22] ++ bs ">") (SandeshReader.SetReceiveMsgCb true SandeshReader.init) = None.
Proof. apply (short_frame_undefined dec_value (fun _ _ => true) 5 []); done. Defined.

End SessionClaims.
