(* ===== verification/Protocol.v ===== *)
(** * Protocols: types, the reading interface and [skip]

    [TType] and the generic [skip] of library/cpp/protocol/TProtocol.h, over the
    operations of a protocol as a type class.  An operation returns the [int32_t]
    of the C++ method, what it leaves in its reference parameters and the next
    state; [None] is a failed [assert], an access that is undefined, or a loop that
    does not end. *)

From S2P Require Import Prelude Transport.
Local Open Scope Z_scope.

(** The enumeration; [T_cast z] is the result of a cast from an integer that names
    no constant. *)
Inductive TType :=
  | T_STOP | T_VOID | T_BOOL | T_BYTE | T_I16 | T_I32 | T_U64 | T_I64 | T_DOUBLE
  | T_STRING | T_STRUCT | T_MAP | T_SET | T_LIST | T_UTF8 | T_UTF16 | T_SANDESH
  | T_U16 | T_U32 | T_XML | T_IPV4 | T_UUID | T_IPADDR
  | T_cast (z : Z).
#[export] Instance TType_eq_dec : EqDecision TType.
Proof. solve_decision. Defined.

Definition ttype_code (t : TType) : Z :=
  match t with
  | T_STOP => 0 | T_VOID => 1 | T_BOOL => 2 | T_BYTE => 3 | T_I16 => 6 | T_I32 => 8
  | T_U64 => 9 | T_I64 => 10 | T_DOUBLE => 4 | T_STRING => 11 | T_STRUCT => 12
  | T_MAP => 13 | T_SET => 14 | T_LIST => 15 | T_UTF8 => 16 | T_UTF16 => 17
  | T_SANDESH => 18 | T_U16 => 19 | T_U32 => 20 | T_XML => 21 | T_IPV4 => 22
  | T_UUID => 23 | T_IPADDR => 24 | T_cast z => z
  end.

(** The cast [(TType)z]. *)
Definition ttype_of (z : Z) : TType :=
  match z with
  | 0 => T_STOP | 1 => T_VOID | 2 => T_BOOL | 3 => T_BYTE | 6 => T_I16 | 8 => T_I32
  | 9 => T_U64 | 10 => T_I64 | 4 => T_DOUBLE | 11 => T_STRING | 12 => T_STRUCT
  | 13 => T_MAP | 14 => T_SET | 15 => T_LIST | 16 => T_UTF8 | 17 => T_UTF16
  | 18 => T_SANDESH | 19 => T_U16 | 20 => T_U32 | 21 => T_XML | 22 => T_IPV4
  | 23 => T_UUID | 24 => T_IPADDR | _ => T_cast z
  end.

(** A constant of the enumeration. *)
Definition declared (t : TType) : bool := match t with T_cast _ => false | _ => true end.

Lemma ttype_of_code t : declared t = true -> ttype_of (ttype_code t) = t.
Proof. by destruct t. Qed.

Inductive TMessageType := T_CALL | T_REPLY | T_EXCEPTION | T_ONEWAY | T_msgcast (z : Z).
Definition tmessage_code (t : TMessageType) : Z :=
  match t with T_CALL => 1 | T_REPLY => 2 | T_EXCEPTION => 3 | T_ONEWAY => 4 | T_msgcast z => z end.
Definition tmessage_of (z : Z) : TMessageType :=
  match z with
  | 1 => T_CALL | 2 => T_REPLY | 3 => T_EXCEPTION | 4 => T_ONEWAY | _ => T_msgcast z
  end.

(** [boost::asio::ip::address]: the bytes of the address. *)
Inductive ip_address := IPv4 (b : list byte) | IPv6 (b : list byte).

(** ** A state monad with undefined behaviour *)
Definition M (S A : Type) : Type := S -> option (A * S).
#[export] Instance M_ret {S} : MRet (M S) := fun A a s => Some (a, s).
#[export] Instance M_bind {S} : MBind (M S) := fun A B f m s => '(a, s) ← m s; f a s.
Definition undefined {S A} : M S A := fun _ => None.

(** [if ((ret = m) < 0) return ret;] for a method without results, and for one with
    reference parameters, which stay unset ([None]) when the call fails. *)
Definition chk {S A} (m : M S Z) (k : Z -> M S (Z * option A)) : M S (Z * option A) :=
  ret ← m; if ret <? 0 then mret (ret, None) else k ret.
Definition chkZ {S} (m : M S Z) (k : Z -> M S Z) : M S Z :=
  ret ← m; if ret <? 0 then mret ret else k ret.
Definition chkR {S A} (m : M S (Z * A)) (k : Z -> A -> M S Z) : M S Z :=
  r ← m; if r.1 <? 0 then mret r.1 else k r.1 r.2.

Lemma bind_run {S A B} (m : M S A) (f : A -> M S B) s a s' :
  m s = Some (a, s') -> (m ≫= f) s = f a s'.
Proof. intros E. unfold mbind, M_bind. by rewrite E. Qed.

Lemma chkZ_run {S} (m : M S Z) k s ret s' :
  m s = Some (ret, s') -> 0 <= ret -> chkZ m k s = k ret s'.
Proof.
  intros E ?. unfold chkZ. rewrite (bind_run _ _ _ _ _ E).
  destruct (Z.ltb_spec ret 0); [lia|done].
Qed.

Lemma chkR_run {S A} (m : M S (Z * A)) k s ret a s' :
  m s = Some ((ret, a), s') -> 0 <= ret -> chkR m k s = k ret a s'.
Proof.
  intros E ?. unfold chkR. rewrite (bind_run _ _ _ _ _ E). cbn [fst snd].
  destruct (Z.ltb_spec ret 0); [lia|done].
Qed.

(** ** What [skip] uses of a protocol

    Reference parameters that a call may leave alone are passed in and out;
    [None] is a variable that was not initialised. *)
Class Protocol (P : Type) := {
  readStructBegin : M P (Z * list byte);
  readStructEnd : M P Z;
  readSandeshBegin : M P (Z * list byte);
  readSandeshEnd : M P Z;
  readFieldBegin : option TType -> M P (Z * option TType);
  readFieldEnd : M P Z;
  readMapBegin : M P (Z * (option TType * option TType * option Z));
  readMapEnd : M P Z;
  readListBegin : M P (Z * (option TType * option Z));
  readListEnd : M P Z;
  readSetBegin : M P (Z * (option TType * option Z));
  readSetEnd : M P Z;
  (** the return code of [readBool], [readByte], ... for a type that is not a
      container; the value is dropped *)
  readBase : TType -> M P Z;
}.

Section Skip.
Context `{Protocol P}.

(** Reading an uninitialised variable. *)
Definition get {S A} (o : option A) : M S A :=
  match o with Some a => mret a | None => undefined end.

(** The loops of [skip]: over the fields of a struct and over the elements of a
    container; [sk] is the recursive call. *)
Fixpoint skip_fields (sk : TType -> M P Z) (fuel : nat) (ftype : option TType) (result : Z)
    (finish : Z -> M P Z) : M P Z :=
  match fuel with
  | O => undefined
  | S fuel =>
      chkR (readFieldBegin ftype) (fun ret ftype =>
      let result := i32 (result + ret) in
      ty ← get ftype;
      if bool_decide (ty = T_STOP) then finish result
      else
        chkZ (sk ty) (fun ret => let result := i32 (result + ret) in
        chkZ readFieldEnd (fun ret =>
        skip_fields sk fuel ftype (i32 (result + ret)) finish)))
  end.

Fixpoint skip_elements (sks : list (M P Z)) (result : Z) (k : Z -> M P Z) : M P Z :=
  match sks with
  | [] => k result
  | sk :: sks => chkZ sk (fun ret => skip_elements sks (i32 (result + ret)) k)
  end.

Fixpoint skip_container (once : list (M P Z)) (fuel : nat) (i size result : Z) (finish : Z -> M P Z)
    : M P Z :=
  if i <? size then
    match fuel with
    | O => undefined
    | S fuel =>
        skip_elements once result (fun result =>
          skip_container once fuel (u32 (i + 1)) size result finish)
    end
  else finish result.

Definition skip_finish (m : M P Z) (result : Z) : M P Z :=
  chkZ m (fun ret => mret (i32 (result + ret))).

Fixpoint skip (fuel : nat) (type : TType) : M P Z :=
  match fuel with
  | O => undefined
  | S fuel =>
      match type with
      | T_BOOL | T_BYTE | T_I16 | T_I32 | T_I64 | T_U16 | T_U32 | T_U64 | T_IPV4 | T_IPADDR
      | T_DOUBLE | T_STRING | T_XML | T_UUID => readBase type
      | T_STRUCT =>
          chkR readStructBegin (fun ret _ =>
            skip_fields (skip fuel) fuel None ret (skip_finish readStructEnd))
      | T_SANDESH =>
          chkR readSandeshBegin (fun ret _ =>
            skip_fields (skip fuel) fuel None ret (skip_finish readSandeshEnd))
      | T_MAP =>
          chkR readMapBegin (fun ret '(keyType, valType, size) =>
            size ← get size;
            skip_container [keyType ← get keyType; skip fuel keyType;
                            valType ← get valType; skip fuel valType] fuel 0 size ret
              (skip_finish readMapEnd))
      | T_SET =>
          chkR readSetBegin (fun ret '(elemType, size) =>
            size ← get size;
            skip_container [elemType ← get elemType; skip fuel elemType] fuel 0 size ret
              (skip_finish readSetEnd))
      | T_LIST =>
          chkR readListBegin (fun ret '(elemType, size) =>
            size ← get size;
            skip_container [elemType ← get elemType; skip fuel elemType] fuel 0 size ret
              (skip_finish readListEnd))
      | _ => mret 0
      end
  end.

End Skip.
