(* ===== verification/Xml.v ===== *)
(** * The XML protocol

    [TXMLProtocol] of library/cpp/protocol/TXMLProtocol.h and TXMLProtocol.cpp: the
    names of the types, the escaping of strings, the look-ahead reader, and every
    write and read operation.  The build does not define
    TXMLPROTOCOL_DEBUG_PRETTY_PRINT, so [endl] and [indent_str_] are empty.

    Conversions that are not in the repository (base/string_util.h, boost::asio,
    boost::uuid, the text of a double) are the parameters of [Texts]; what the
    round trips use of them is [TextsLaws]. *)

From S2P Require Import Prelude Transport Protocol.
Local Open Scope Z_scope.

(** The integer types the protocol converts. *)
Inductive int_type := Byte8 | Int16 | Int32 | Int64 | UInt16 | UInt32 | UInt64.
Definition in_range (ty : int_type) (z : Z) : Prop :=
  match ty with
  | Byte8 => - 2 ^ 7 <= z < 2 ^ 7
  | Int16 => - 2 ^ 15 <= z < 2 ^ 15
  | Int32 => - 2 ^ 31 <= z < 2 ^ 31
  | Int64 => - 2 ^ 63 <= z < 2 ^ 63
  | UInt16 => 0 <= z < 2 ^ 16
  | UInt32 => 0 <= z < 2 ^ 32
  | UInt64 => 0 <= z < 2 ^ 64
  end.

Class Texts := {
  integerToString : int_type -> Z -> list byte;
  (** [None]: the reference parameter keeps its value *)
  stringToInteger : int_type -> list byte -> option Z;
  doubleToString : Z -> list byte;
  address_to_string : ip_address -> list byte;
  address_from_string : list byte -> option ip_address;
  uuid_to_string : list byte -> list byte;
  uuid_from_string : list byte -> option (list byte);
}.

(** [isXMLNumeric]: + - 0 ... 9. *)
Definition isXMLNumeric (ch : byte) : bool :=
  bool_decide (ch = x2b) || bool_decide (ch = x2d) || is_digit ch.

Class TextsLaws `{!Texts} := {
  integer_text ty z : in_range ty z ->
    integerToString ty z <> [] /\ Forall (fun c => isXMLNumeric c = true) (integerToString ty z) /\
    stringToInteger ty (integerToString ty z) = Some z;
}.

(** ** Constants *)
Definition kcXMLTagO : byte := x3c.
Definition kcXMLTagC : byte := x3e.
Definition kcXMLSlash : byte := x2f.
Definition kcXMLSBracketC : byte := x5d.
Definition quote : byte := x22.

Definition kXMLType := bs "type".
Definition kXMLIdentifier := bs "identifier".
Definition kXMLKey := bs "key".
Definition kXMLValue := bs "value".
Definition kXMLSize := bs "size".
Definition kXMLCDATAO := bs "<![CDATA[".
Definition kXMLCDATAC := bs "]]>".
Definition kXMLBoolTrue := bs "true".
Definition kXMLBoolFalse := bs "false".
Definition kAttrTypeSandesh := bs "type=" ++ [quote] ++ bs "sandesh" ++ [quote].

Definition fieldTypeName (type : TType) : list byte :=
  match type with
  | T_BOOL => bs "bool" | T_BYTE => bs "byte" | T_I16 => bs "i16" | T_I32 => bs "i32"
  | T_I64 => bs "i64" | T_U16 => bs "u16" | T_U32 => bs "u32" | T_U64 => bs "u64"
  | T_IPV4 => bs "ipv4" | T_IPADDR => bs "ipaddr" | T_DOUBLE => bs "double"
  | T_STRING => bs "string" | T_STRUCT => bs "struct" | T_MAP => bs "map" | T_SET => bs "set"
  | T_LIST => bs "list" | T_SANDESH => bs "sandesh" | T_XML => bs "xml" | T_UUID => bs "uuid_t"
  | T_STOP | T_VOID | T_UTF8 | T_UTF16 | T_cast _ => bs "unknown"
  end.

(** [name[i]] for [i] up to the length reads the terminating NUL; beyond it the
    access is undefined ([None]). *)
Definition char_at (name : list byte) (i : nat) : option byte :=
  if (i <? length name)%nat then name !! i
  else if (i =? length name)%nat then Some x00 else None.

Definition getTypeIDForTypeName (name : list byte) : option TType :=
  if (1 <? length name)%nat then
    c0 ← char_at name 0;
    c1 ← char_at name 1;
    match c0, c1 with
    | x62 (* b *), x6f (* o *) => Some T_BOOL
    | x62, x79 (* y *) => Some T_BYTE
    | x64 (* d *), _ => Some T_DOUBLE
    | x69 (* i *), x31 (* 1 *) => Some T_I16
    | x69, x33 (* 3 *) => Some T_I32
    | x69, x36 (* 6 *) => Some T_I64
    | x69, x70 (* p *) =>
        c2 ← char_at name 2;
        Some (match c2 with x61 (* a *) => T_IPADDR | x76 (* v *) => T_IPV4 | _ => T_STOP end)
    | x6c (* l *), _ => Some T_LIST
    | x6d (* m *), _ => Some T_MAP
    | x73 (* s *), x61 (* a *) => Some T_SANDESH
    | x73, x65 (* e *) => Some T_SET
    | x73, x74 (* t *) =>
        c3 ← char_at name 3;
        Some (match c3 with x69 (* i *) => T_STRING | x75 (* u *) => T_STRUCT | _ => T_STOP end)
    | x75 (* u *), x31 => Some T_U16
    | x75, x33 => Some T_U32
    | x75, x36 => Some T_U64
    | x75, x75 => Some T_UUID
    | x78 (* x *), _ => Some T_XML
    | _, _ => Some T_STOP
    end
  else Some T_STOP.

(** ** Escaping *)
Definition escape_char (c : byte) : list byte :=
  match c with
  | x26 (* & *) => bs "&amp;"
  | x27 (* ' *) => bs "&apos;"
  | x3c (* < *) => bs "&lt;"
  | x3e (* > *) => bs "&gt;"
  | _ => [c]
  end.

Definition escapeXMLControlCharsInternal (str : list byte) : list byte :=
  concat (escape_char <$> str).

(** [strpbrk(str.c_str(), ...)] looks no further than the first NUL. *)
Definition is_control (c : byte) : bool :=
  match c with x26 | x27 | x3c | x3e => true | _ => false end.
Fixpoint strpbrk_control (str : list byte) : bool :=
  match str with
  | [] => false
  | c :: str => if bool_decide (c = x00) then false else is_control c || strpbrk_control str
  end.

Definition escapeXMLControlChars (str : list byte) : list byte :=
  if strpbrk_control str then escapeXMLControlCharsInternal str else str.

(** [boost::replace_all]: scan from the left, do not look at what was inserted. *)
Fixpoint strip_prefix (p l : list byte) : option (list byte) :=
  match p, l with
  | [], _ => Some l
  | a :: p, b :: l => if bool_decide (a = b) then strip_prefix p l else None
  | _ :: _, [] => None
  end.
Fixpoint replace_all_fuel (fuel : nat) (from to l : list byte) : list byte :=
  match fuel with
  | O => l
  | S fuel =>
      match l with
      | [] => []
      | c :: l' =>
          match strip_prefix from l with
          | Some rest => to ++ replace_all_fuel fuel from to rest
          | None => c :: replace_all_fuel fuel from to l'
          end
      end
  end.
(** Each step consumes input, so its length is fuel enough. *)
Definition replace_all (from to l : list byte) : list byte := replace_all_fuel (length l) from to l.

Definition unescapeXMLControlChars (str : list byte) : list byte :=
  replace_all (bs "&gt;") [x3e]
    (replace_all (bs "&lt;") [x3c]
      (replace_all (bs "&apos;") [x27]
        (replace_all (bs "&amp;") [x26] str))).

(** [boost::tokenizer] with the separators = double quote and space; empty tokens
    are dropped. *)
Definition is_sep (c : byte) : bool :=
  match c with x3d | x22 | x20 => true | _ => false end.
Fixpoint tokens_from (l cur : list byte) : list (list byte) :=
  match l with
  | [] => match cur with [] => [] | _ => [cur] end
  | c :: l =>
      if is_sep c then match cur with [] => tokens_from l [] | _ => cur :: tokens_from l [] end
      else tokens_from l (cur ++ [c])
  end.
Definition tokens (l : list byte) : list (list byte) := tokens_from l [].

(** ** The protocol object *)
Module TXMLProtocol.

Inductive write_state_t := UNINIT | STRUCT | LIST | SET | MAP | SNDESH.
#[export] Instance write_state_eq_dec : EqDecision write_state_t.
Proof. solve_decision. Defined.

(** [LookaheadReader]; [data_] and [data2_] hold whatever was read last. *)
Record LookaheadReader := MkReader {
  hasData_ : bool;
  data_ : byte;
  has2Data_ : bool;
  data2_0 : byte;
  data2_1 : byte;
  firstRead_ : bool;
}.

(** [write_state_] and [xml_state_] with the back first. *)
Record t (T : Type) := Mk {
  trans_ : T;
  write_state_ : list write_state_t;
  xml_state_ : list (list byte);
  reader_ : LookaheadReader;
}.
Arguments Mk {T}.
Arguments trans_ {T}.
Arguments write_state_ {T}.
Arguments xml_state_ {T}.
Arguments reader_ {T}.

(** The constructor; [d] [d0] [d1] are the indeterminate bytes of the reader. *)
Definition new {T} (trans : T) (d d0 d1 : byte) : t T :=
  Mk trans [UNINIT] [] (MkReader false d false d0 d1 false).

Section Operations.
Context `{!Texts} {T : Type} `{!TTransport T}.

Abbreviation S := (t T).

Definition set_trans (tr : T) (s : S) : S := Mk tr (write_state_ s) (xml_state_ s) (reader_ s).
Definition set_reader (r : LookaheadReader) (s : S) : S :=
  Mk (trans_ s) (write_state_ s) (xml_state_ s) r.
Definition push_xml (n : list byte) : M S unit := fun s =>
  Some (tt, Mk (trans_ s) (write_state_ s) (n :: xml_state_ s) (reader_ s)).
(** [back] and [pop_back] of an empty vector are undefined. *)
Definition pop_xml : M S (list byte) := fun s =>
  match xml_state_ s with
  | [] => None
  | n :: st => Some (n, Mk (trans_ s) (write_state_ s) st (reader_ s))
  end.
Definition push_write (w : write_state_t) : M S unit := fun s =>
  Some (tt, Mk (trans_ s) (w :: write_state_ s) (xml_state_ s) (reader_ s)).
Definition back_write : M S write_state_t := fun s =>
  match write_state_ s with [] => None | w :: _ => Some (w, s) end.
Definition pop_write : M S unit := fun s =>
  match write_state_ s with
  | [] => None
  | _ :: st => Some (tt, Mk (trans_ s) st (xml_state_ s) (reader_ s))
  end.

(** *** Writing *)
Definition formXMLAttr (dest name value : list byte) : list byte :=
  dest ++ name ++ bs "=" ++ [quote] ++ value ++ [quote].

Definition writePlain (str : list byte) : M S Z := fun s =>
  '(ret, tr) ← t_write (trans_ s) str;
  Some (if negb (ret =? 0) then -1 else i32 (zlen str), set_trans tr s).

(** [indent_str_] is empty. *)
Definition writeIndented (str : list byte) : M S Z := fun s =>
  '(ret, tr) ← t_write (trans_ s) str;
  Some (if negb (ret =? 0) then -1 else i32 (0 + zlen str), set_trans tr s).

Definition writeMessageBegin (name : list byte) (messageType : TMessageType) (seqid : Z) : M S Z :=
  mret 0.
Definition writeMessageEnd : M S Z := mret 0.

Definition writeStructBegin (sname : list byte) : M S Z :=
  let xml := [kcXMLTagO] ++ sname ++ [kcXMLTagC] in
  chkZ (writeIndented xml) (fun ret =>
  _ ← push_xml sname;
  mret ret).

Definition writeStructEnd : M S Z :=
  etag ← pop_xml;
  let xml := bs "</" ++ etag ++ [kcXMLTagC] in
  chkZ (writeIndented xml) (fun ret => mret ret).

Definition writeSandeshBegin (sname : list byte) : M S Z :=
  let xml := [kcXMLTagO] ++ sname ++ bs " " ++ kAttrTypeSandesh ++ [kcXMLTagC] in
  chkZ (writeIndented xml) (fun ret =>
  _ ← push_xml sname;
  mret ret).

Definition writeSandeshEnd : M S Z :=
  etag ← pop_xml;
  let exml := bs "</" ++ etag ++ [kcXMLTagC] in
  chkZ (writeIndented exml) (fun ret => mret ret).

Definition writeContainerElementBegin : M S Z := writeIndented (bs "<element>").
Definition writeContainerElementEnd : M S Z := writeIndented (bs "</element>").

(** [amap]: the annotations, in the order of the map's iterator; [None] is NULL. *)
Definition writeFieldBegin (sname : list byte) (fieldType : TType) (fieldId : Z)
    (amap : option (list (list byte * list byte))) : M S Z :=
  let xml := [kcXMLTagO] ++ sname ++ bs " " in
  let xml := formXMLAttr xml kXMLType (fieldTypeName fieldType) ++ bs " " in
  let xml := formXMLAttr xml kXMLIdentifier (integerToString Int16 fieldId) in
  let xml := foldl (fun xml kv => formXMLAttr (xml ++ bs " ") kv.1 kv.2) xml (default [] amap) in
  let xml := xml ++ [kcXMLTagC] in
  chkZ (writeIndented xml) (fun ret =>
  _ ← push_xml sname;
  _ ← push_write (match fieldType with
                  | T_STRUCT => STRUCT | T_SANDESH => SNDESH | T_LIST => LIST
                  | T_MAP => MAP | T_SET => SET | _ => UNINIT
                  end);
  mret ret).

Definition writeFieldEnd : M S Z :=
  etag ← pop_xml;
  let exml := bs "</" ++ etag ++ [kcXMLTagC] in
  state ← back_write;
  let out := match state with UNINIT => writePlain exml | _ => writeIndented exml end in
  chkZ out (fun ret =>
  _ ← pop_write;
  mret ret).

Definition writeFieldStop : M S Z := mret 0.

Definition writeMapBegin (keyType valType : TType) (size : Z) : M S Z :=
  let xml := formXMLAttr (bs "<map ") kXMLKey (fieldTypeName keyType) ++ bs " " in
  let xml := formXMLAttr xml kXMLValue (fieldTypeName valType) ++ bs " " in
  let xml := formXMLAttr xml kXMLSize (integerToString UInt32 size) ++ [kcXMLTagC] in
  chkZ (writeIndented xml) (fun ret => mret ret).
Definition writeMapEnd : M S Z := chkZ (writeIndented (bs "</map>")) (fun ret => mret ret).

Definition writeListBegin (elemType : TType) (size : Z) : M S Z :=
  let xml := formXMLAttr (bs "<list ") kXMLType (fieldTypeName elemType) ++ bs " " in
  let xml := formXMLAttr xml kXMLSize (integerToString UInt32 size) ++ [kcXMLTagC] in
  chkZ (writeIndented xml) (fun ret => mret ret).
Definition writeListEnd : M S Z := chkZ (writeIndented (bs "</list>")) (fun ret => mret ret).

Definition writeSetBegin (elemType : TType) (size : Z) : M S Z :=
  let xml := formXMLAttr (bs "<set ") kXMLType (fieldTypeName elemType) ++ bs " " in
  let xml := formXMLAttr xml kXMLSize (integerToString UInt32 size) ++ [kcXMLTagC] in
  chkZ (writeIndented xml) (fun ret => mret ret).
Definition writeSetEnd : M S Z := chkZ (writeIndented (bs "</set>")) (fun ret => mret ret).

Definition writeBool (value : bool) : M S Z :=
  writePlain (if value then kXMLBoolTrue else kXMLBoolFalse).
Definition writeByte (byte : Z) : M S Z := writePlain (integerToString Byte8 byte).
Definition writeI16 (i16 : Z) : M S Z := writePlain (integerToString Int16 i16).
Definition writeI32 (i32 : Z) : M S Z := writePlain (integerToString Int32 i32).
Definition writeI64 (i64 : Z) : M S Z := writePlain (integerToString Int64 i64).
Definition writeU16 (u16 : Z) : M S Z := writePlain (integerToString UInt16 u16).
Definition writeU32 (u32 : Z) : M S Z := writePlain (integerToString UInt32 u32).
Definition writeU64 (u64 : Z) : M S Z := writePlain (integerToString UInt64 u64).
Definition writeIPV4 (ip4 : Z) : M S Z := writePlain (integerToString UInt32 ip4).
Definition writeIPADDR (ip : ip_address) : M S Z := writePlain (address_to_string ip).
(** A double is its 64 bits. *)
Definition writeDouble (dub : Z) : M S Z := writePlain (doubleToString dub).
Definition writeString (str : list byte) : M S Z := writePlain (escapeXMLControlChars str).
Definition writeBinary (str : list byte) : M S Z := writeString str.
Definition writeXML (str : list byte) : M S Z := writePlain (kXMLCDATAO ++ str ++ kXMLCDATAC).
Definition writeUUID (uuid : list byte) : M S Z := writeString (uuid_to_string uuid).

(** *** Reading: the look-ahead reader *)

(** [trans_->readAll(buf, n)]: its result is dropped; after a short read the rest
    of [buf] keeps its old bytes. *)
Definition fill (old : list byte) : M S (list byte) := fun s =>
  '(_, data, tr) ← t_readAll (trans_ s) (zlen old);
  Some (data ++ drop (length data) old, set_trans tr s).

Definition reader_read : M S byte := fun s =>
  let r := reader_ s in
  if hasData_ r then
    Some (data_ r, set_reader (MkReader false (data_ r) (has2Data_ r) (data2_0 r) (data2_1 r)
                                 (firstRead_ r)) s)
  else if has2Data_ r then
    if firstRead_ r then
      Some (data2_1 r, set_reader (MkReader false (data_ r) false (data2_0 r) (data2_1 r) false) s)
    else
      Some (data2_0 r, set_reader (MkReader false (data_ r) true (data2_0 r) (data2_1 r) true) s)
  else
    '(buf, s) ← fill [data_ r] s;
    match buf with
    | [d] => Some (d, set_reader (MkReader false d false (data2_0 r) (data2_1 r) (firstRead_ r)) s)
    | _ => None
    end.

Definition reader_peek : M S byte := fun s =>
  let r := reader_ s in
  if hasData_ r then Some (data_ r, s)
  else
    '(buf, s) ← fill [data_ r] s;
    match buf with
    | [d] => Some (d, set_reader (MkReader true d (has2Data_ r) (data2_0 r) (data2_1 r)
                                    (firstRead_ r)) s)
    | _ => None
    end.

Definition reader_peek2 : M S byte := fun s =>
  let r := reader_ s in
  if has2Data_ r then Some (data2_1 r, s)
  else
    '(buf, s) ← fill [data2_0 r; data2_1 r] s;
    match buf with
    | [d0; d1] => Some (d0, set_reader (MkReader (hasData_ r) (data_ r) true d0 d1 (firstRead_ r)) s)
    | _ => None
    end.

(** *** Reading: characters, strings, tags *)
Definition readXMLSyntaxChar (ch : byte) : M S Z :=
  ch2 ← reader_read;
  mret (if negb (bool_decide (ch2 = ch)) then -1 else 1).

Fixpoint readXMLSyntaxString (str : list byte) (result : Z) : M S Z :=
  match str with
  | [] => mret result
  | c :: str => chkZ (readXMLSyntaxChar c) (fun ret => readXMLSyntaxString str (result + ret))
  end.

(** The loops below end at a delimiter; the fuel bounds the bytes they look at. *)
Fixpoint readXMLCDATA_loop (fuel : nat) (ch ch2 ch3 : byte) (ch_read ch2_read ch3_read : bool)
    (str : list byte) (result : Z) : M S (Z * list byte) :=
  match fuel with
  | O => undefined
  | Datatypes.S fuel =>
      '(ch, result) ← (if ch_read then mret (ch, result)
                       else (ch ← reader_peek; _ ← reader_read; mret (ch, i32 (result + 1))));
      if bool_decide (ch = kcXMLSBracketC) then
        '(ch2, result) ← (if ch2_read then mret (ch2, result)
                          else (ch2 ← reader_peek; _ ← reader_read; mret (ch2, i32 (result + 1))));
        if bool_decide (ch2 = kcXMLSBracketC) then
          '(ch3, result) ← (if ch3_read then mret (ch3, result)
                            else (ch3 ← reader_peek; _ ← reader_read; mret (ch3, i32 (result + 1))));
          if bool_decide (ch3 = kcXMLTagC) then mret (result, str)
          else readXMLCDATA_loop fuel ch2 ch3 ch3 true true false (str ++ [ch]) result
        else readXMLCDATA_loop fuel ch2 ch2 ch3 true false ch3_read (str ++ [ch]) result
      else readXMLCDATA_loop fuel ch ch2 ch3 false ch2_read ch3_read (str ++ [ch]) result
  end.

Definition readXMLCDATA (fuel : nat) : M S (Z * list byte) :=
  ret ← readXMLSyntaxString kXMLCDATAO 0;
  if ret <? 0 then mret (ret, [])
  else readXMLCDATA_loop fuel x00 x00 x00 false false false [] ret.

Fixpoint readXMLString_loop (fuel : nat) (str : list byte) (result : Z) : M S (Z * list byte) :=
  match fuel with
  | O => undefined
  | Datatypes.S fuel =>
      ch ← reader_peek;
      if bool_decide (ch = kcXMLTagO) then mret (result, str)
      else (_ ← reader_read; readXMLString_loop fuel (str ++ [ch]) (i32 (result + 1)))
  end.
Definition readXMLString (fuel : nat) : M S (Z * list byte) := readXMLString_loop fuel [] 0.

Fixpoint readXMLTag_loop (fuel : nat) (str : list byte) (result : Z) : M S (Z * list byte) :=
  match fuel with
  | O => undefined
  | Datatypes.S fuel =>
      ch ← reader_read;
      let result := i32 (result + 1) in
      if bool_decide (ch = kcXMLTagC) then mret (result, str)
      else readXMLTag_loop fuel (str ++ [ch]) result
  end.
Definition readXMLTag (fuel : nat) (endTag : bool) : M S (Z * list byte) :=
  ret ← readXMLSyntaxChar kcXMLTagO;
  if ret <? 0 then mret (ret, [])
  else if endTag then
    ret' ← readXMLSyntaxChar kcXMLSlash;
    if ret' <? 0 then mret (ret', []) else readXMLTag_loop fuel [] (ret + ret')
  else readXMLTag_loop fuel [] ret.

Fixpoint readXMLNumericChars_loop (fuel : nat) (str : list byte) (result : Z)
    : M S (Z * list byte) :=
  match fuel with
  | O => undefined
  | Datatypes.S fuel =>
      ch ← reader_peek;
      if negb (isXMLNumeric ch) then mret (i32 result, str)
      else (_ ← reader_read; readXMLNumericChars_loop fuel (str ++ [ch]) (u32 (result + 1)))
  end.
Definition readXMLNumericChars (fuel : nat) : M S (Z * list byte) := readXMLNumericChars_loop fuel [] 0.

Definition readXMLInteger (ty : int_type) (fuel : nat) : M S (Z * option Z) :=
  '(ret, str) ← readXMLNumericChars fuel;
  if ret <? 0 then mret (ret, None) else mret (ret, stringToInteger ty str).

Definition readXMLDouble : M S (Z * option Z) := undefined.
Definition readMessageBegin : M S (Z * option (list byte * TMessageType * Z)) := undefined.
Definition readMessageEnd : M S Z := undefined.

(** *** Attributes

    The loops over the tokens of a tag: each iteration compares the token under
    the iterator with some keys in turn; a match moves the iterator to the value.
    The iterator is the list of tokens from it on; dereferencing the end is
    undefined. *)
Fixpoint attr_checks {A} (keys : list (list byte * (list byte -> A -> option A)))
    (it : list (list byte)) (a : A) : option (list (list byte) * A) :=
  match keys with
  | [] => Some (it, a)
  | (key, f) :: keys =>
      match it with
      | [] => None
      | tok :: it' =>
          if bool_decide (tok = key) then
            match it' with
            | [] => None
            | v :: _ => a ← f v a; attr_checks keys it' a
            end
          else attr_checks keys it a
      end
  end.
Fixpoint attr_loop {A} (fuel : nat) (keys : list (list byte * (list byte -> A -> option A)))
    (it : list (list byte)) (a : A) : option A :=
  match it with
  | [] => Some a
  | _ :: _ =>
      match fuel with
      | O => None
      | Datatypes.S fuel => '(it, a) ← attr_checks keys it a; attr_loop fuel keys (tail it) a
      end
  end.
Definition lift {A} (o : option A) : M S A := fun s => a ← o; Some (a, s).

(** The loop of [readSandeshBegin]: a type other than sandesh returns at once. *)
Fixpoint sandesh_attrs (it : list (list byte)) : option bool :=
  match it with
  | [] => Some true
  | tok :: it =>
      if bool_decide (tok = kXMLType) then
        match it with
        | [] => None
        | v :: it => if bool_decide (v = bs "sandesh") then sandesh_attrs it else Some false
        end
      else sandesh_attrs it
  end.

Definition readSandeshBegin (fuel : nat) : M S (Z * list byte) :=
  '(result, str) ← readXMLTag fuel false;
  if result <? 0 then mret (result, [])
  else
    let toks := tokens str in
    name ← lift (head toks);
    ok ← lift (sandesh_attrs (tail toks));
    mret (if ok : bool then result else -1, name).

Definition readSandeshEnd (fuel : nat) : M S Z := r ← readXMLTag fuel true; mret r.1.
Definition readStructBegin (fuel : nat) : M S (Z * list byte) := readXMLTag fuel false.
Definition readStructEnd (fuel : nat) : M S Z := r ← readXMLTag fuel true; mret r.1.
Definition readContainerElementBegin (fuel : nat) : M S Z := r ← readXMLTag fuel false; mret r.1.
Definition readContainerElementEnd (fuel : nat) : M S Z := r ← readXMLTag fuel true; mret r.1.

Definition set_type (v : list byte) (o : option TType * option Z) : option (option TType * option Z) :=
  ty ← getTypeIDForTypeName v; Some (Some ty, o.2).
Definition set_int (ty : int_type) (v : list byte) (o : option TType * option Z)
    : option (option TType * option Z) :=
  Some (o.1, match stringToInteger ty v with Some z => Some z | None => o.2 end).

(** [old] is what [fieldType] and [fieldId] held; the name is unset ([None]) at the
    end of the fields and after a failure. *)
Definition readFieldBegin (fuel : nat) (old : option TType * option Z)
    : M S (Z * (option (list byte) * option TType * option Z)) :=
  ch ← reader_peek2;
  ch1 ← reader_peek2;
  if bool_decide (ch = kcXMLTagO) && bool_decide (ch1 = kcXMLSlash)
  then mret (0, (None, Some T_STOP, old.2))
  else
    '(result, str) ← readXMLTag fuel false;
    if result <? 0 then mret (result, (None, old.1, old.2))
    else
      let toks := tokens str in
      name ← lift (head toks);
      '(fieldType, fieldId) ← lift (attr_loop (length toks)
        [(kXMLType, set_type); (kXMLIdentifier, set_int Int16)] (tail toks) old);
      mret (result, (Some name, fieldType, fieldId)).

Definition readFieldEnd (fuel : nat) : M S Z := r ← readXMLTag fuel true; mret r.1.

Definition readMapBegin (fuel : nat) : M S (Z * (option TType * option TType * option Z)) :=
  '(result, str) ← readXMLTag fuel false;
  if result <? 0 then mret (result, (None, None, None))
  else
    let toks := tokens str in
    it ← lift (head toks);
    if negb (bool_decide (it = bs "map")) then mret (-1, (None, None, None))
    else
      r ← lift (attr_loop (length toks)
        [(kXMLKey, fun v '(k, x, n) => ty ← getTypeIDForTypeName v; Some (Some ty, x, n));
         (kXMLValue, fun v '(k, x, n) => ty ← getTypeIDForTypeName v; Some (k, Some ty, n));
         (kXMLSize, fun v '(k, x, n) =>
            Some (k, x, match stringToInteger UInt32 v with Some z => Some z | None => n end))]
        (tail toks) (None, None, None));
      mret (result, r).
Definition readMapEnd (fuel : nat) : M S Z := r ← readXMLTag fuel true; mret r.1.

(** The common text of [readListBegin] and [readSetBegin]. *)
Definition readElemsBegin (what : list byte) (fuel : nat) : M S (Z * (option TType * option Z)) :=
  '(result, str) ← readXMLTag fuel false;
  if result <? 0 then mret (result, (None, None))
  else
    let toks := tokens str in
    it ← lift (head toks);
    if negb (bool_decide (it = what)) then mret (-1, (None, None))
    else
      r ← lift (attr_loop (length toks)
        [(kXMLType, set_type); (kXMLSize, set_int UInt32)] (tail toks) (None, None));
      mret (result, r).
Definition readListBegin : nat -> M S (Z * (option TType * option Z)) := readElemsBegin (bs "list").
Definition readListEnd (fuel : nat) : M S Z := r ← readXMLTag fuel true; mret r.1.
Definition readSetBegin : nat -> M S (Z * (option TType * option Z)) := readElemsBegin (bs "set").
Definition readSetEnd (fuel : nat) : M S Z := r ← readXMLTag fuel true; mret r.1.

(** *** Values; [None] leaves the reference parameter as it is *)
Definition readByte : nat -> M S (Z * option Z) := readXMLInteger Byte8.
Definition readI16 : nat -> M S (Z * option Z) := readXMLInteger Int16.
Definition readI32 : nat -> M S (Z * option Z) := readXMLInteger Int32.
Definition readI64 : nat -> M S (Z * option Z) := readXMLInteger Int64.
Definition readU16 : nat -> M S (Z * option Z) := readXMLInteger UInt16.
Definition readU32 : nat -> M S (Z * option Z) := readXMLInteger UInt32.
Definition readU64 : nat -> M S (Z * option Z) := readXMLInteger UInt64.
Definition readIPV4 : nat -> M S (Z * option Z) := readXMLInteger UInt32.

Definition readIPADDR (fuel : nat) : M S (Z * option ip_address) :=
  '(ret, str) ← readXMLString fuel;
  if ret <? 0 then mret (ret, None)
  else match address_from_string str with
       | None => mret (-1, None)
       | Some a => mret (ret, Some a)
       end.

Definition readDouble : M S (Z * option Z) := readXMLDouble.

Definition readString (fuel : nat) : M S (Z * list byte) :=
  '(_, str) ← readXMLString fuel;
  let str := unescapeXMLControlChars str in
  mret (i32 (zlen str), str).

Definition readBool (fuel : nat) : M S (Z * option bool) :=
  '(ret, str) ← readXMLString fuel;
  if ret <? 0 then mret (ret, None)
  else mret (ret, if bool_decide (str = kXMLBoolTrue) then Some true
                  else if bool_decide (str = kXMLBoolFalse) then Some false else None).

Definition readBinary (fuel : nat) : M S (Z * list byte) := readXMLString fuel.
Definition readXML (fuel : nat) : M S (Z * list byte) := readXMLCDATA fuel.
Definition readUUID (fuel : nat) : M S (Z * option (list byte)) :=
  '(ret, str) ← readXMLString fuel;
  if ret <? 0 then mret (ret, None) else mret (ret, uuid_from_string str).

(** What [skip] calls. *)
#[export] Instance protocol (fuel : nat) : Protocol S := {
  Protocol.readStructBegin := readStructBegin fuel;
  Protocol.readStructEnd := readStructEnd fuel;
  Protocol.readSandeshBegin := readSandeshBegin fuel;
  Protocol.readSandeshEnd := readSandeshEnd fuel;
  Protocol.readFieldBegin old := r ← readFieldBegin fuel (old, None); mret (r.1, r.2.1.2);
  Protocol.readFieldEnd := readFieldEnd fuel;
  Protocol.readMapBegin := readMapBegin fuel;
  Protocol.readMapEnd := readMapEnd fuel;
  Protocol.readListBegin := readListBegin fuel;
  Protocol.readListEnd := readListEnd fuel;
  Protocol.readSetBegin := readSetBegin fuel;
  Protocol.readSetEnd := readSetEnd fuel;
  Protocol.readBase ty :=
    match ty with
    | T_BOOL => r ← readBool fuel; mret r.1
    | T_BYTE => r ← readByte fuel; mret r.1
    | T_I16 => r ← readI16 fuel; mret r.1
    | T_I32 => r ← readI32 fuel; mret r.1
    | T_I64 => r ← readI64 fuel; mret r.1
    | T_U16 => r ← readU16 fuel; mret r.1
    | T_U32 => r ← readU32 fuel; mret r.1
    | T_U64 => r ← readU64 fuel; mret r.1
    | T_IPV4 => r ← readIPV4 fuel; mret r.1
    | T_IPADDR => r ← readIPADDR fuel; mret r.1
    | T_DOUBLE => r ← readDouble; mret r.1
    | T_STRING => r ← readBinary fuel; mret r.1
    | T_XML => r ← readXML fuel; mret r.1
    | T_UUID => r ← readUUID fuel; mret r.1
    | _ => mret 0
    end;
}.

End Operations.
End TXMLProtocol.
