(* ===== verification/XmlSpec.v ===== *)
(** * Properties of the XML protocol

    The reader as a queue of bytes behind its look-ahead, the escaping of strings,
    and the round trips of tags, values and structs. *)

From S2P Require Import Prelude Transport Protocol Xml.
Import TXMLProtocol.
Local Open Scope Z_scope.

(** ** Escaping *)
Module Escape.

Lemma strip_prefix_app p l : strip_prefix p (p ++ l) = Some l.
Proof. induction p as [|a p IH]; [done|]. simpl. by rewrite bool_decide_eq_true_2. Qed.

Lemma strip_prefix_inv p : forall l r, strip_prefix p l = Some r -> l = p ++ r.
Proof.
  induction p as [|a p IH]; intros l r E; [by injection E as ->|].
  destruct l as [|b l]; [done|]. simpl in E. case_bool_decide; [|done]. subst. simpl.
  by rewrite (IH l r).
Qed.

Lemma strip_prefix_length p l r : strip_prefix p l = Some r -> (length r = length l - length p)%nat.
Proof. intros ->%strip_prefix_inv. rewrite length_app. lia. Qed.

(** Fuel does not matter once it covers the input. *)
Lemma replace_all_enough from to : from <> [] -> forall n m l,
  (length l <= n)%nat -> (length l <= m)%nat ->
  replace_all_fuel n from to l = replace_all_fuel m from to l.
Proof.
  intros Hf. induction n as [|n IH]; intros m l Hn Hm.
  - destruct l; [by destruct m|simpl in Hn; lia].
  - destruct l as [|c l]; [by destruct m|]. destruct m as [|m]; [simpl in Hm; lia|].
    cbn [replace_all_fuel]. simpl in Hn, Hm.
    destruct (strip_prefix from (c :: l)) as [r|] eqn:E.
    + f_equal. apply strip_prefix_length in E. destruct from; [done|]. simpl in E.
      apply IH; lia.
    + f_equal. apply IH; lia.
Qed.

Lemma replace_all_match from to l :
  from <> [] -> replace_all from to (from ++ l) = to ++ replace_all from to l.
Proof.
  intros Hf. unfold replace_all. destruct from as [|a from]; [done|].
  cbn [replace_all_fuel length app]. pose proof (strip_prefix_app (a :: from) l) as E.
  cbn [app] in E. rewrite E. f_equal. apply replace_all_enough; [done| |lia].
  rewrite length_app. lia.
Qed.

Lemma replace_all_miss from to c l :
  from <> [] -> strip_prefix from (c :: l) = None ->
  replace_all from to (c :: l) = c :: replace_all from to l.
Proof. intros Hf E. unfold replace_all. cbn [length replace_all_fuel]. by rewrite E. Qed.

Lemma replace_all_nil from to : replace_all from to [] = [].
Proof. done. Qed.

(** Text without the first character of the pattern passes through. *)
Lemma replace_all_pass from to f0 ft w l :
  from = f0 :: ft -> f0 ∉ w -> replace_all from to (w ++ l) = w ++ replace_all from to l.
Proof.
  intros -> Hw. induction w as [|c w IH]; [done|]. apply not_elem_of_cons in Hw as [Hc Hw].
  rewrite <- app_comm_cons, replace_all_miss; [by rewrite IH|done|].
  simpl. by rewrite bool_decide_eq_false_2.
Qed.

(** The entities, and what a string looks like when only [todo] are still
    escaped. *)
Definition entity (c : byte) : list byte := escape_char c.
Definition partial (todo : list byte) (c : byte) : list byte :=
  if bool_decide (c ∈ todo) then escape_char c else [c].
Definition partly (todo l : list byte) : list byte := concat (partial todo <$> l).

(** [l] has no text that is an entity of one of [cs] already. *)
Definition entity_free (cs l : list byte) : Prop :=
  forall c p q, c ∈ cs -> l <> p ++ escape_char c ++ q.

Definition controls : list byte := [x26; x27; x3c; x3e].

Lemma escape_all l : escapeXMLControlCharsInternal l = partly controls l.
Proof.
  unfold escapeXMLControlCharsInternal, partly. f_equal. apply list_fmap_ext. intros i c _.
  unfold partial. case_bool_decide as H; [done|].
  unfold controls in H. destruct c; first [done | exfalso; apply H; set_solver].
Qed.

Lemma partly_none l : partly [] l = l.
Proof.
  unfold partly. induction l as [|c l IH]; [done|]. cbn [fmap list_fmap concat].
  unfold partial at 1. rewrite bool_decide_eq_false_2 by set_solver. simpl. by f_equal.
Qed.

Lemma partly_cons todo c l : partly todo (c :: l) = partial todo c ++ partly todo l.
Proof. done. Qed.

(** A control character escapes to & and a text without control characters. *)
Lemma escape_char_control c : c ∈ controls ->
  exists w, escape_char c = x26 :: w /\ w <> [] /\ Forall (fun a => a ∉ controls) w.
Proof.
  unfold controls. intros H. repeat (apply elem_of_cons in H as [->|H]); [..|by apply elem_of_nil in H];
    (eexists; split; [reflexivity|]; split; [done|]; apply (bool_decide_eq_true_1 _); reflexivity).
Qed.

Lemma plain_no_amp w : Forall (fun a => a ∉ controls) w -> x26 ∉ w.
Proof.
  intros Hw Ha. rewrite list.Forall_forall in Hw. apply (Hw x26 Ha). unfold controls. set_solver.
Qed.

(** A text of plain characters in front of the partly escaped string is in front
    of the string itself. *)
Lemma partly_prefix todo w : Forall (fun a => a ∉ controls) w -> todo ⊆ controls ->
  forall l r, partly todo l = w ++ r -> exists l', l = w ++ l' /\ partly todo l' = r.
Proof.
  intros Hw Htodo. induction Hw as [|a w Ha Hw IH]; intros l r E; [by exists l|].
  destruct l as [|c l]; [done|]. rewrite partly_cons in E. unfold partial in E.
  case_bool_decide as Hc.
  - exfalso. destruct (escape_char_control c (Htodo c Hc)) as (v&Ev&_&_). rewrite Ev in E.
    injection E as <- _. unfold controls in Ha. set_solver.
  - injection E as -> E. destruct (IH l r E) as (l'&->&El). by exists l'.
Qed.

Lemma escape_char_inj c d : c ∈ controls -> d ∈ controls -> forall x y,
  escape_char c ++ x = escape_char d ++ y -> c = d.
Proof.
  unfold controls. intros Hc Hd x y E.
  repeat (apply elem_of_cons in Hc as [->|Hc]); [..|by apply elem_of_nil in Hc];
  (repeat (apply elem_of_cons in Hd as [->|Hd]); [..|by apply elem_of_nil in Hd]; done).
Qed.

(** One pass of [unescapeXMLControlChars] undoes the escape of its character; the
    characters of [later] are still escaped, and a literal & is not confused. *)
Lemma replace_pass c later l :
  c ∈ controls -> c ∉ later -> later ⊆ controls ->
  (c = x26 -> x26 ∉ later) -> (c <> x26 -> x26 ∉ later /\ entity_free [c] l) ->
  replace_all (escape_char c) [c] (partly (c :: later) l) = partly later l.
Proof.
  intros Hc Hnl Hlater Hamp Hother.
  destruct (escape_char_control c Hc) as (w&Ew&Hwne&Hw).
  assert (x26 ∉ w) as Hw26 by by apply plain_no_amp.
  induction l as [|d l IH]; [done|].
  assert (c <> x26 -> x26 ∉ later /\ entity_free [c] l) as Hother'.
  { intros Hne. destruct (Hother Hne) as [? Hf]. split; [done|].
    intros e p q He Eq. apply (Hf e (d :: p) q He). by rewrite Eq. }
  specialize (IH Hother'). rewrite !partly_cons. unfold partial at 1.
  destruct (decide (d = c)) as [->|Hdc].
  - rewrite bool_decide_eq_true_2 by set_solver. rewrite replace_all_match by (by rewrite Ew).
    rewrite IH. unfold partial. by rewrite bool_decide_eq_false_2.
  - unfold partial. destruct (decide (d ∈ later)) as [Hd|Hd].
    + rewrite !bool_decide_eq_true_2 by set_solver.
      destruct (escape_char_control d (Hlater d Hd)) as (v&Ev&_&Hv).
      rewrite Ev. simpl app at 1. rewrite Ew. rewrite replace_all_miss; [|done|].
      * rewrite (replace_all_pass _ _ x26 w v); [|done|].
        { rewrite <- Ew, IH. done. }
        by apply plain_no_amp.
      * destruct (strip_prefix _ _) as [r|] eqn:Es; [|done]. apply strip_prefix_inv in Es.
        exfalso. apply Hdc. symmetry. apply (escape_char_inj c d Hc (Hlater d Hd) r (partly (c :: later) l)).
        rewrite Ew, Ev. by rewrite <- Es.
    + rewrite !bool_decide_eq_false_2 by set_solver. simpl app.
      rewrite replace_all_miss; [by rewrite IH|by rewrite Ew|].
      destruct (strip_prefix _ _) as [r|] eqn:Es; [|done]. exfalso. apply strip_prefix_inv in Es.
      rewrite Ew in Es. injection Es as -> Es.
      destruct (decide (c = x26)) as [->|Hne]; [done|].
      destruct (Hother Hne) as [_ Hf].
      destruct (partly_prefix (c :: later) w Hw) with (l := l) (r := r) as (l'&->&_); [set_solver|done|].
      apply (Hf c [] l'); [set_solver|]. by rewrite Ew.
Qed.

(** The condition under which the escaping is undone. *)
Definition literal_entities : list byte := [x27; x3c; x3e].

Lemma unescape_escape_internal l :
  entity_free literal_entities l ->
  unescapeXMLControlChars (escapeXMLControlCharsInternal l) = l.
Proof.
  intros Hf. rewrite escape_all. unfold unescapeXMLControlChars, controls.
  assert (forall c, c ∈ literal_entities -> entity_free [c] l) as Hf1.
  { intros c Hc d p q Hd. apply list_elem_of_singleton in Hd as ->. by apply Hf. }
  unfold literal_entities in Hf1.
  change (bs "&amp;") with (escape_char x26). change (bs "&apos;") with (escape_char x27).
  change (bs "&lt;") with (escape_char x3c). change (bs "&gt;") with (escape_char x3e).
  rewrite (replace_pass x26); [|unfold controls; set_solver..|done].
  rewrite (replace_pass x27); [|unfold controls; set_solver..|intros _; split; [set_solver|apply Hf1; set_solver]].
  rewrite (replace_pass x3c); [|unfold controls; set_solver..|intros _; split; [set_solver|apply Hf1; set_solver]].
  rewrite (replace_pass x3e); [|unfold controls; set_solver..|intros _; split; [set_solver|apply Hf1; set_solver]].
  apply partly_none.
Qed.

End Escape.

(** ** The reader as a queue of bytes *)
Module Reader.
Section Reader.
Context `{!Texts} `{!Allocator} {T : Type} `{TT : TTransport T} `{TL : !TransportLaws T}.
Abbreviation S := (t T).

(** How many bytes [peek2] looked ahead. *)
Definition ahead2 (s : S) : nat :=
  if has2Data_ (reader_ s) then if firstRead_ (reader_ s) then 1 else 2 else 0.
Definition lookahead (s : S) : list byte :=
  let r := reader_ s in
  (if hasData_ r then [data_ r] else []) ++
  (if has2Data_ r then if firstRead_ r then [data2_1 r] else [data2_0 r; data2_1 r] else []).

(** The reader stands in front of [l]: what it looked ahead, then the transport;
    it never looks ahead both ways at once. *)
Definition front (s : S) (l : list byte) : Prop :=
  t_readable (trans_ s) /\ lookahead s ++ t_contents (trans_ s) = l /\
  (hasData_ (reader_ s) = true -> has2Data_ (reader_ s) = false) /\
  (has2Data_ (reader_ s) = false -> firstRead_ (reader_ s) = false).

(** Nothing is looked ahead. *)
Definition fresh (s : S) : Prop := ahead2 s = 0%nat /\ hasData_ (reader_ s) = false.

(** Reading leaves the writer's stacks alone. *)
Definition same_stacks (s s' : S) : Prop :=
  write_state_ s' = write_state_ s /\ xml_state_ s' = xml_state_ s.

Lemma fill_ok s old c :
  t_readable (trans_ s) -> (length old <= length (t_contents (trans_ s)))%nat -> zlen old < 2 ^ 31 ->
  t_contents (trans_ s) = c ->
  exists tr, fill old s = Some (take (length old) c, set_trans tr s) /\ t_readable tr /\
    t_contents tr = drop (length old) c.
Proof.
  intros Hok Hl Hsz <-. destruct (t_readAll_ok (trans_ s) (zlen old) Hok) as (tr&E&Htr&Ec);
    [lia|lia|]. exists tr. unfold fill. rewrite E. cbn [mbind option_bind]. rewrite Nat2Z.id in *.
  split; [|done]. f_equal. f_equal.
  rewrite length_take, drop_ge by lia. by rewrite app_nil_r.
Qed.

Lemma byte_read_front s c l :
  front s (c :: l) ->
  exists s', reader_read s = Some (c, s') /\ front s' l /\ same_stacks s s' /\
    ahead2 s' = pred (ahead2 s) /\ hasData_ (reader_ s') = false.
Proof.
  intros (Hok&E&Hex&Hfr). unfold reader_read, front, lookahead, ahead2, same_stacks in *.
  destruct (reader_ s) as [hd d h2 d0 d1 fr] eqn:Er. cbn in *.
  destruct hd.
  - rewrite (Hex eq_refl) in *. injection E as -> E. eexists; split; [done|]. cbn.
    rewrite (Hfr eq_refl) in *. by rewrite E.
  - destruct h2; [destruct fr|].
    + injection E as -> E. eexists; split; [done|]. cbn. by rewrite E.
    + injection E as -> E. eexists; split; [done|]. cbn. by rewrite E.
    + rewrite (Hfr eq_refl) in *. simpl in E.
      destruct (fill_ok s [d] (c :: l) Hok) as (tr&Ef&Htr&Ec); [by rewrite E; simpl; lia|done|done|].
      rewrite Ef. cbn. eexists; split; [done|]. cbn. by rewrite Ec.
Qed.

Lemma peek_front s c l :
  front s (c :: l) -> ahead2 s = 0%nat ->
  exists s', reader_peek s = Some (c, s') /\ front s' (c :: l) /\ same_stacks s s' /\
    ahead2 s' = 0%nat.
Proof.
  intros (Hok&E&Hex&Hfr) H2. unfold reader_peek, front, lookahead, ahead2, same_stacks in *.
  destruct (reader_ s) as [hd d h2 d0 d1 fr] eqn:Er. cbn in *.
  assert (h2 = false) as -> by (destruct h2; [by destruct fr|done]).
  rewrite (Hfr eq_refl) in *. destruct hd.
  - injection E as -> E. exists s. rewrite !Er. cbn. rewrite E. done.
  - simpl in E. destruct (fill_ok s [d] (c :: l) Hok) as (tr&Ef&Htr&Ec);
      [by rewrite E; simpl; lia|done|done|].
    rewrite Ef. cbn. eexists; split; [done|]. cbn. by rewrite Ec.
Qed.

(** Two looks two bytes ahead show the first and the second byte. *)
Lemma peek2_front s c d l :
  front s (c :: d :: l) -> fresh s ->
  exists s', reader_peek2 s = Some (c, s') /\ reader_peek2 s' = Some (d, s') /\
    front s' (c :: d :: l) /\ same_stacks s s'.
Proof.
  intros (Hok&E&Hex&Hfr) [H2 Hd].
  unfold reader_peek2, front, lookahead, ahead2, same_stacks in *.
  destruct (reader_ s) as [hd x h2 d0 d1 fr] eqn:Er. cbn in *. subst hd.
  assert (h2 = false) as -> by (destruct h2; [by destruct fr|done]).
  rewrite (Hfr eq_refl) in *. simpl in E.
  destruct (fill_ok s [d0; d1] (c :: d :: l) Hok) as (tr&Ef&Htr&Ec);
    [by rewrite E; simpl; lia|done|done|].
  rewrite Ef. cbn. eexists; split; [done|]. cbn. by rewrite Ec.
Qed.

Lemma same_stacks_trans s1 s2 s3 : same_stacks s1 s2 -> same_stacks s2 s3 -> same_stacks s1 s3.
Proof. unfold same_stacks. intros [-> ->] [-> ->]. done. Qed.
Lemma same_stacks_refl s : same_stacks s s.
Proof. done. Qed.

Lemma ahead2_le s : (ahead2 s <= 2)%nat.
Proof. unfold ahead2. repeat case_match; lia. Qed.

Lemma run_eq {A X} (z z' : Z) (a a' : A) (x : X) :
  z = z' -> a = a' -> Some ((z, a), x) = Some ((z', a'), x).
Proof. by intros -> ->. Qed.

(** *** Tags *)
Lemma readXMLSyntaxChar_front s c l :
  front s (c :: l) ->
  exists s', readXMLSyntaxChar c s = Some (1, s') /\ front s' l /\ same_stacks s s' /\
    ahead2 s' = pred (ahead2 s) /\ hasData_ (reader_ s') = false.
Proof.
  intros Hf. destruct (byte_read_front s c l Hf) as (s'&E&H').
  exists s'. split; [|done]. unfold readXMLSyntaxChar. rewrite (bind_run _ _ _ _ _ E).
  by rewrite bool_decide_eq_true_2.
Qed.

Lemma readXMLTag_loop_front fuel : forall s name rest acc res,
  front s (name ++ kcXMLTagC :: rest) -> kcXMLTagC ∉ name -> (length name < fuel)%nat ->
  0 <= res -> res + zlen name + 1 < 2 ^ 31 ->
  exists s', readXMLTag_loop fuel acc res s = Some ((res + zlen name + 1, acc ++ name), s') /\
    front s' rest /\ same_stacks s s' /\ (ahead2 s' <= pred (ahead2 s))%nat /\
    hasData_ (reader_ s') = false.
Proof.
  induction fuel as [|fuel IH]; intros s name rest acc res Hf Hn Hfuel Hr Hsz; [lia|].
  cbn [readXMLTag_loop]. destruct name as [|c name].
  - destruct (byte_read_front s _ _ Hf) as (s'&E&Hf'&Hs&Ha&Hd). rewrite (bind_run _ _ _ _ _ E).
    rewrite bool_decide_eq_true_2, (wrapS_small 32) by (done || simpl in *; lia).
    exists s'. split; [|by rewrite Ha]. apply run_eq; [simpl; lia|by rewrite app_nil_r].
  - apply not_elem_of_cons in Hn as [Hc Hn]. cbn [app] in Hf.
    destruct (byte_read_front s _ _ Hf) as (s1&E&Hf1&Hs1&Ha1&_). rewrite (bind_run _ _ _ _ _ E).
    cbn [length] in *. rewrite bool_decide_eq_false_2, (wrapS_small 32) by (done || lia).
    destruct (IH s1 name rest (acc ++ [c]) (res + 1) Hf1 Hn) as (s2&E2&Hf2&Hs2&Ha2&Hd2); [lia..|].
    exists s2. rewrite E2. split; [|by split_and!; eauto using same_stacks_trans; lia].
    apply run_eq; [lia|by rewrite <- app_assoc].
Qed.

Definition tag (name : list byte) : list byte := kcXMLTagO :: name ++ [kcXMLTagC].
Definition end_tag (name : list byte) : list byte := kcXMLTagO :: kcXMLSlash :: name ++ [kcXMLTagC].

Lemma readXMLTag_open fuel s name rest :
  front s (tag name ++ rest) -> kcXMLTagC ∉ name -> (length name < fuel)%nat ->
  zlen name + 2 < 2 ^ 31 ->
  exists s', readXMLTag fuel false s = Some ((zlen name + 2, name), s') /\
    front s' rest /\ same_stacks s s' /\ fresh s'.
Proof.
  intros Hf Hn Hfuel Hsz. unfold tag in Hf. rewrite <- app_comm_cons, <- app_assoc in Hf.
  destruct (readXMLSyntaxChar_front s _ _ Hf) as (s1&E1&Hf1&Hs1&Ha1&_).
  unfold readXMLTag. rewrite (bind_run _ _ _ _ _ E1). change (1 <? 0) with false. cbn iota.
  destruct (readXMLTag_loop_front fuel s1 name rest [] 1 Hf1 Hn) as (s2&E2&Hf2&Hs2&Ha2&Hd2); [lia..|].
  exists s2. rewrite E2. split; [apply run_eq; [lia|done]|]. split; [done|].
  split; [by eauto using same_stacks_trans|]. split; [|done].
  pose proof (ahead2_le s). lia.
Qed.

Lemma readXMLTag_close fuel s name rest :
  front s (end_tag name ++ rest) -> kcXMLTagC ∉ name -> (length name < fuel)%nat ->
  zlen name + 3 < 2 ^ 31 ->
  exists s', readXMLTag fuel true s = Some ((zlen name + 3, name), s') /\
    front s' rest /\ same_stacks s s' /\ fresh s'.
Proof.
  intros Hf Hn Hfuel Hsz. unfold end_tag in Hf. rewrite <- !app_comm_cons, <- app_assoc in Hf.
  destruct (readXMLSyntaxChar_front s _ _ Hf) as (s1&E1&Hf1&Hs1&Ha1&_).
  unfold readXMLTag. rewrite (bind_run _ _ _ _ _ E1). change (1 <? 0) with false. cbn iota.
  destruct (readXMLSyntaxChar_front s1 _ _ Hf1) as (s2&E2&Hf2&Hs2&Ha2&_).
  rewrite (bind_run _ _ _ _ _ E2). change (1 <? 0) with false. cbn iota.
  destruct (readXMLTag_loop_front fuel s2 name rest [] (1 + 1) Hf2 Hn) as (s3&E3&Hf3&Hs3&Ha3&Hd3);
    [lia..|].
  exists s3. rewrite E3. split; [apply run_eq; [lia|done]|]. split; [done|].
  split; [by eauto using same_stacks_trans|]. split; [|done].
  pose proof (ahead2_le s). lia.
Qed.

(** *** Text up to a delimiter *)
Lemma readXMLString_loop_front fuel : forall s str rest acc res,
  front s (str ++ kcXMLTagO :: rest) -> ahead2 s = 0%nat -> kcXMLTagO ∉ str ->
  (length str < fuel)%nat -> 0 <= res -> res + zlen str < 2 ^ 31 ->
  exists s', readXMLString_loop fuel acc res s = Some ((res + zlen str, acc ++ str), s') /\
    front s' (kcXMLTagO :: rest) /\ same_stacks s s' /\ ahead2 s' = 0%nat.
Proof.
  induction fuel as [|fuel IH]; intros s str rest acc res Hf H2 Hn Hfuel Hr Hsz; [lia|].
  cbn [readXMLString_loop]. destruct str as [|c str].
  - destruct (peek_front s _ _ Hf H2) as (s'&E&Hf'&Hs&Ha). rewrite (bind_run _ _ _ _ _ E).
    rewrite bool_decide_eq_true_2 by done. exists s'. split; [|done].
    apply run_eq; [simpl; lia|by rewrite app_nil_r].
  - apply not_elem_of_cons in Hn as [Hc Hn]. cbn [app] in Hf.
    destruct (peek_front s _ _ Hf H2) as (s1&E&Hf1&Hs1&Ha1). rewrite (bind_run _ _ _ _ _ E).
    cbn [length] in *. rewrite bool_decide_eq_false_2 by done.
    destruct (byte_read_front s1 _ _ Hf1) as (s2&E2&Hf2&Hs2&Ha2&_). rewrite (bind_run _ _ _ _ _ E2).
    rewrite (wrapS_small 32) by lia.
    destruct (IH s2 str rest (acc ++ [c]) (res + 1) Hf2) as (s3&E3&Hf3&Hs3&Ha3); [|done|lia..|].
    { by rewrite Ha2, Ha1. }
    exists s3. rewrite E3. split; [|by split_and!; eauto using same_stacks_trans].
    apply run_eq; [lia|by rewrite <- app_assoc].
Qed.

Lemma readXMLString_front fuel s str rest :
  front s (str ++ kcXMLTagO :: rest) -> ahead2 s = 0%nat -> kcXMLTagO ∉ str ->
  (length str < fuel)%nat -> zlen str < 2 ^ 31 ->
  exists s', readXMLString fuel s = Some ((zlen str, str), s') /\
    front s' (kcXMLTagO :: rest) /\ same_stacks s s' /\ ahead2 s' = 0%nat.
Proof. intros. by apply (readXMLString_loop_front fuel s str rest [] 0). Qed.

Lemma readXMLNumericChars_loop_front fuel : forall s str d rest acc res,
  front s (str ++ d :: rest) -> ahead2 s = 0%nat -> Forall (fun c => isXMLNumeric c = true) str ->
  isXMLNumeric d = false -> (length str < fuel)%nat -> 0 <= res -> res + zlen str < 2 ^ 31 ->
  exists s', readXMLNumericChars_loop fuel acc res s = Some ((res + zlen str, acc ++ str), s') /\
    front s' (d :: rest) /\ same_stacks s s' /\ ahead2 s' = 0%nat.
Proof.
  induction fuel as [|fuel IH]; intros s str d rest acc res Hf H2 Hn Hd Hfuel Hr Hsz; [lia|].
  cbn [readXMLNumericChars_loop]. destruct str as [|c str].
  - destruct (peek_front s _ _ Hf H2) as (s'&E&Hf'&Hs&Ha). rewrite (bind_run _ _ _ _ _ E).
    rewrite Hd. cbn [negb]. exists s'. split; [|done]. cbn [length] in Hsz.
    rewrite (wrapS_small 32) by lia.
    apply run_eq; [simpl; lia|by rewrite app_nil_r].
  - apply Forall_cons_iff in Hn as [Hc Hn]. cbn [app] in Hf.
    destruct (peek_front s _ _ Hf H2) as (s1&E&Hf1&Hs1&Ha1). rewrite (bind_run _ _ _ _ _ E).
    cbn [length] in *. rewrite Hc. cbn [negb].
    destruct (byte_read_front s1 _ _ Hf1) as (s2&E2&Hf2&Hs2&Ha2&_). rewrite (bind_run _ _ _ _ _ E2).
    rewrite (wrapU_small 32) by lia.
    destruct (IH s2 str d rest (acc ++ [c]) (res + 1) Hf2) as (s3&E3&Hf3&Hs3&Ha3);
      [by rewrite Ha2, Ha1|done|done|lia..|].
    exists s3. rewrite E3. split; [|by split_and!; eauto using same_stacks_trans].
    apply run_eq; [lia|by rewrite <- app_assoc].
Qed.

Lemma readXMLInteger_front `{!TextsLaws} ty fuel s z d rest :
  in_range ty z -> front s (integerToString ty z ++ d :: rest) -> ahead2 s = 0%nat ->
  isXMLNumeric d = false -> (length (integerToString ty z) < fuel)%nat ->
  zlen (integerToString ty z) < 2 ^ 31 ->
  exists s', readXMLInteger ty fuel s = Some ((zlen (integerToString ty z), Some z), s') /\
    front s' (d :: rest) /\ same_stacks s s' /\ ahead2 s' = 0%nat.
Proof.
  intros Hz Hf H2 Hd Hfuel Hsz. destruct (integer_text ty z Hz) as (_&Hnum&Hback).
  destruct (readXMLNumericChars_loop_front fuel s _ d rest [] 0 Hf H2 Hnum Hd Hfuel) as (s'&E&H');
    [lia..|].
  exists s'. split; [|done]. unfold readXMLInteger, readXMLNumericChars.
  rewrite (bind_run _ _ _ _ _ E). cbn [app].
  destruct (Z.ltb_spec (0 + zlen (integerToString ty z)) 0); [lia|]. by rewrite Hback.
Qed.

(** *** Character data *)

(** Only the end of [body] followed by the end mark is an end mark. *)
Definition no_cdata_end (body : list byte) : Prop :=
  forall p q, body ++ kXMLCDATAC = p ++ kXMLCDATAC ++ q -> q = [].

Lemma readXMLSyntaxString_front str : forall s l res,
  front s (str ++ l) ->
  exists s', readXMLSyntaxString str res s = Some (res + zlen str, s') /\ front s' l /\
    same_stacks s s' /\ (ahead2 s' <= ahead2 s - length str)%nat.
Proof.
  induction str as [|c str IH]; intros s l res Hf.
  - exists s. cbn [length readXMLSyntaxString]. rewrite Z.add_0_r. split; [done|].
    split; [done|]. split; [done|]. rewrite Nat.sub_0_r. lia.
  - cbn [app] in Hf. destruct (readXMLSyntaxChar_front s _ _ Hf) as (s1&E1&Hf1&Hs1&Ha1&_).
    cbn [readXMLSyntaxString]. rewrite (chkZ_run _ _ _ _ _ E1) by lia.
    destruct (IH s1 l (res + 1) Hf1) as (s2&E2&Hf2&Hs2&Ha2).
    exists s2. rewrite E2. split; [|split; [done|split; [by eauto using same_stacks_trans|]]].
    + do 2 f_equal. cbn [length]. lia.
    + cbn [length]. lia.
Qed.

(** One character of the look-ahead of [readXMLCDATA]. *)
Definition fetch (flag : bool) (x : byte) (res : Z) : M S (byte * Z) :=
  if flag then mret (x, res)
  else (x ← reader_peek; _ ← reader_read; mret (x, i32 (res + 1))).

Lemma fetch_front (flag : bool) x res s c l :
  (if flag then x = c /\ front s l else front s (c :: l)) -> ahead2 s = 0%nat ->
  0 <= res -> res + 1 < 2 ^ 31 ->
  exists s', fetch flag x res s = Some ((c, res + (if flag then 0 else 1)), s') /\
    front s' l /\ same_stacks s s' /\ ahead2 s' = 0%nat.
Proof.
  intros Hf H2 Hr Hsz. unfold fetch. destruct flag.
  - destruct Hf as [-> Hf]. exists s. rewrite Z.add_0_r. done.
  - destruct (peek_front s _ _ Hf H2) as (s1&E1&Hf1&Hs1&Ha1). rewrite (bind_run _ _ _ _ _ E1).
    destruct (byte_read_front s1 _ _ Hf1) as (s2&E2&Hf2&Hs2&Ha2&_). rewrite (bind_run _ _ _ _ _ E2).
    exists s2. rewrite (wrapS_small 32) by lia. split; [done|]. split; [done|].
    split; [by eauto using same_stacks_trans|]. by rewrite Ha2, Ha1.
Qed.

Lemma readXMLCDATA_loop_front fuel : forall s ch ch2 ch3 (r1 r2 : bool) body rest l acc res,
  (r2 = true -> r1 = true /\ ch = kcXMLSBracketC) ->
  front s l ->
  (if r1 then [ch] else []) ++ (if r2 then [ch2] else []) ++ l = body ++ kXMLCDATAC ++ rest ->
  ahead2 s = 0%nat -> no_cdata_end body -> (length body < fuel)%nat ->
  0 <= res -> res + zlen body + 3 - (if r1 then 1 else 0) - (if r2 then 1 else 0) < 2 ^ 31 ->
  exists s' n, readXMLCDATA_loop fuel ch ch2 ch3 r1 r2 false acc res s = Some ((n, acc ++ body), s') /\
    n = res + zlen body + 3 - (if r1 then 1 else 0) - (if r2 then 1 else 0) /\
    front s' rest /\ same_stacks s s' /\ ahead2 s' = 0%nat.
Proof.
  induction fuel as [|fuel IH]; intros s ch ch2 ch3 r1 r2 body rest l acc res Hr Hf El H2 Hb Hfuel Hres Hsz;
    [lia|].
  assert (res + 1 < 2 ^ 31) by (destruct r1, r2; lia).
  cbn [readXMLCDATA_loop].
  change (if r1 then mret (ch, res) else _) with (fetch r1 ch res).
  (* the text in front of the reader, one character at a time *)
  assert (exists c txt, body ++ kXMLCDATAC ++ rest = c :: txt) as (c&txt&Et).
  { destruct body as [|c body]; [by eexists _, _|by eexists _, _]. }
  assert (exists s1, fetch r1 ch res s = Some ((c, res + (if r1 then 0 else 1)), s1) /\
    front s1 (if r2 then l else txt) /\ same_stacks s s1 /\ ahead2 s1 = 0%nat /\
    (if r2 then [ch2] ++ l else txt) = txt) as (s1&E1&Hf1&Hs1&Ha1&Et1).
  { rewrite Et in El. destruct r2.
    - destruct (Hr eq_refl) as [-> ->]. injection El as <- El.
      destruct (fetch_front true kcXMLSBracketC res s kcXMLSBracketC l) as (s1&?&?&?&?); [done|done|lia|lia|].
      exists s1. split; [done|]. done.
    - destruct r1; simpl in El.
      + injection El as -> El. subst l.
        destruct (fetch_front true c res s c txt) as (s1&?&?&?&?); [done|done|lia|lia|]. by exists s1.
      + subst l. destruct (fetch_front false ch res s c txt) as (s1&?&?&?&?); [done|done|lia|lia|].
        by exists s1. }
  rewrite (bind_run _ _ _ _ _ E1). clear E1. set (res1 := res + _).
  assert (0 <= res1 /\ res1 = res + 1 - (if r1 then 1 else 0)) as [? Eres1] by (unfold res1; destruct r1; lia).
  case_bool_decide as Hc; cycle 1.
  { (* an ordinary character *)
    assert (r2 = false) as ->.
    { destruct r2; [|done]. destruct (Hr eq_refl) as [-> ->]. rewrite Et in El. by injection El as <- _. }
    destruct body as [|c' body]; [by injection Et as <- _|]. injection Et as -> Et. simpl in Hfuel, Hsz.
    destruct (IH s1 c ch2 ch3 false false body rest txt (acc ++ [c]) res1) as (s2&n&E2&En&Hf2&Hs2&Ha2);
      [done|done|done|done| |lia|lia|destruct r1; lia|].
    { intros p q Eq. apply (Hb (c :: p) q). by rewrite <- !app_comm_cons, Eq. }
    exists s2, n. rewrite E2, <- app_assoc. split; [done|].
    split; [rewrite En; unfold res1; simpl length; destruct r1; lia|]. eauto 7 using same_stacks_trans. }
  subst c. change (if r2 then mret (ch2, res1) else _) with (fetch r2 ch2 res1).
  assert (exists c2 txt2, txt = c2 :: txt2) as (c2&txt2&->).
  { apply (f_equal tail) in Et. cbn [tail] in Et. rewrite <- Et.
    destruct body as [|? [|? body]]; by eexists _, _. }
  assert (exists s2, fetch r2 ch2 res1 s1 = Some ((c2, res1 + (if r2 then 0 else 1)), s2) /\
    front s2 txt2 /\ same_stacks s1 s2 /\ ahead2 s2 = 0%nat) as (s2&E2&Hf2&Hs2&Ha2).
  { apply fetch_front; [|done|lia|destruct r1, r2; lia].
    destruct r2; [by injection Et1 as -> ->|done]. }
  rewrite (bind_run _ _ _ _ _ E2). clear E2. set (res2 := res1 + _).
  assert (res2 = res + 2 - (if r1 then 1 else 0) - (if r2 then 1 else 0)) as Eres2
    by (unfold res2, res1; destruct r1, r2; lia).
  assert (0 <= res2) by (destruct r2; lia).
  case_bool_decide as Hc2; cycle 1.
  { (* a bracket and an ordinary character *)
    destruct body as [|c' body]; [by injection Et as <- _|]. injection Et as -> Et. simpl in Hfuel, Hsz.
    destruct (IH s2 c2 c2 ch3 true false body rest txt2 (acc ++ [kcXMLSBracketC]) res2)
      as (s3&n&E3&En&Hf3&Hs3&Ha3); [done|done|by symmetry|done| |lia|lia|destruct r1, r2; lia|].
    { intros p q Eq. apply (Hb (kcXMLSBracketC :: p) q). by rewrite <- !app_comm_cons, Eq. }
    exists s3, n. rewrite E3, <- app_assoc. split; [done|].
    split; [rewrite En, Eres2; simpl length; destruct r1, r2; lia|]. eauto 7 using same_stacks_trans. }
  subst c2. change (ch0 ← reader_peek; _ ← reader_read; mret (ch0, i32 (res2 + 1))) with (fetch false ch3 res2).
  assert (exists c3 txt3, txt2 = c3 :: txt3) as (c3&txt3&->).
  { assert (drop 2 (body ++ kXMLCDATAC ++ rest) = txt2) as <- by (by rewrite Et).
    destruct body as [|? [|? [|? body]]]; by eexists _, _. }
  destruct (fetch_front false ch3 res2 s2 c3 txt3) as (s3&E3&Hf3&Hs3&Ha3); [done|done|lia|destruct r1, r2; lia|].
  rewrite (bind_run _ _ _ _ _ E3). clear E3.
  case_bool_decide as Hc3.
  - (* the end mark *)
    subst c3. assert (body = []) as ->.
    { destruct body as [|c' body]; [done|].
      exfalso. assert (exists q, (c' :: body) ++ kXMLCDATAC = [] ++ kXMLCDATAC ++ q /\ q <> []) as (q&Eq&Hq).
      { exists (drop 3 ((c' :: body) ++ kXMLCDATAC)). split.
        - rewrite <- (take_drop 3 ((c' :: body) ++ kXMLCDATAC)) at 1. rewrite app_nil_l. f_equal.
          apply (f_equal (take 3)) in Et. rewrite app_assoc in Et.
          rewrite (take_app_le ((c' :: body) ++ kXMLCDATAC)) in Et by (rewrite length_app; simpl; lia).
          exact Et.
        - intros Ed. apply (f_equal length) in Ed. rewrite length_drop, length_app in Ed. simpl in Ed. lia. }
      by apply (Hb [] q) in Eq. }
    simpl in Et. injection Et as <-. exists s3. eexists. rewrite app_nil_r. split; [done|].
    split; [rewrite Eres2; simpl length; destruct r1, r2; lia|].
    split; [done|]. split; [by eauto using same_stacks_trans|done].
  - (* two brackets and an ordinary character *)
    destruct body as [|c' body]; [by injection Et as <- _|]. injection Et as -> Et. simpl in Hfuel, Hsz.
    destruct (IH s3 kcXMLSBracketC c3 c3 true true body rest txt3 (acc ++ [kcXMLSBracketC]) (res2 + 1))
      as (s4&n&E4&En&Hf4&Hs4&Ha4); [done|done|by symmetry|done| |lia|lia|destruct r1, r2; lia|].
    { intros p q Eq. apply (Hb (kcXMLSBracketC :: p) q). by rewrite <- !app_comm_cons, Eq. }
    exists s4, n. rewrite E4, <- app_assoc. split; [done|].
    split; [rewrite En, Eres2; simpl length; destruct r1, r2; lia|]. eauto 7 using same_stacks_trans.
Qed.

Lemma readXMLCDATA_front fuel s body rest :
  front s (kXMLCDATAO ++ body ++ kXMLCDATAC ++ rest) -> no_cdata_end body ->
  (length body < fuel)%nat -> zlen body + 12 < 2 ^ 31 ->
  exists s', readXMLCDATA fuel s = Some ((zlen body + 12, body), s') /\ front s' rest /\
    same_stacks s s' /\ ahead2 s' = 0%nat.
Proof.
  intros Hf Hb Hfuel Hsz.
  destruct (readXMLSyntaxString_front kXMLCDATAO s _ 0 Hf) as (s1&E1&Hf1&Hs1&Ha1).
  unfold readXMLCDATA. rewrite (bind_run _ _ _ _ _ E1). change (0 + zlen kXMLCDATAO) with 9.
  change (9 <? 0) with false. cbn iota.
  destruct (readXMLCDATA_loop_front fuel s1 x00 x00 x00 false false body rest
              (body ++ kXMLCDATAC ++ rest) [] 9) as (s2&n&E2&En&?&?&?); [done|done|done| |done|done|lia|lia|].
  { pose proof (ahead2_le s). change (length kXMLCDATAO) with 9%nat in Ha1. lia. }
  exists s2. rewrite E2. split; [apply run_eq; [lia|done]|]. eauto 7 using same_stacks_trans.
Qed.

End Reader.
End Reader.
