(* ===== verification/XmlRoundTrip.v ===== *)
(** * Round trips of the XML protocol

    What the writer emits for tags, values and whole structs, and that the reader
    takes it apart again. *)

From S2P Require Import Prelude Transport Protocol Xml XmlSpec.
Import TXMLProtocol.
Import Reader.
Local Open Scope Z_scope.

(** ** Tokens of a tag *)
Module Tokens.

(** A word: nothing the tokenizer separates on, and no end of a tag. *)
Definition word_char (c : byte) : bool := negb (is_sep c) && negb (bool_decide (c = kcXMLTagC)).
Definition word (w : list byte) : Prop := w <> [] /\ Forall (fun c => word_char c = true) w.

Lemma tokens_from_word w : forall cur c l,
  Forall (fun c => word_char c = true) w -> cur ++ w <> [] -> is_sep c = true ->
  tokens_from (w ++ c :: l) cur = (cur ++ w) :: tokens l.
Proof.
  induction w as [|a w IH]; intros cur c l Hw Hne Hc.
  - rewrite app_nil_r in *. simpl. rewrite Hc. by destruct cur.
  - apply Forall_cons_iff in Hw as [Ha Hw]. unfold word_char in Ha. apply andb_true_iff in Ha as [Ha _].
    cbn [app tokens_from]. apply negb_true_iff in Ha. rewrite Ha.
    rewrite IH; [by rewrite <- app_assoc|done| |done]. by destruct cur.
Qed.

Lemma tokens_word w c l : word w -> is_sep c = true -> tokens (w ++ c :: l) = w :: tokens l.
Proof. intros [Hne Hw] Hc. by apply tokens_from_word. Qed.

Lemma tokens_sep c l : is_sep c = true -> tokens (c :: l) = tokens l.
Proof. intros Hc. unfold tokens. simpl. by rewrite Hc. Qed.

(** The text of attributes behind a name. *)
Definition attr_text (kv : list byte * list byte) : list byte :=
  bs " " ++ kv.1 ++ bs "=" ++ [quote] ++ kv.2 ++ [quote].
Definition attrs_text (kvs : list (list byte * list byte)) : list byte := concat (attr_text <$> kvs).
Definition words_of (kvs : list (list byte * list byte)) : list (list byte) :=
  concat ((fun kv => [kv.1; kv.2]) <$> kvs).

Lemma tokens_attrs kvs :
  Forall (fun kv => word kv.1 /\ word kv.2) kvs -> tokens (attrs_text kvs) = words_of kvs.
Proof.
  induction 1 as [|[k v] kvs [Hk Hv] _ IH]; [done|].
  unfold attrs_text, words_of in *. cbn [fmap list_fmap concat]. unfold attr_text at 1. cbn [fst snd].
  rewrite <- !app_assoc. set (tl := concat (attr_text <$> kvs)) in *.
  change (tokens (x20 :: k ++ x3d :: quote :: v ++ quote :: tl) = k :: v :: words_of kvs).
  rewrite (tokens_sep x20) by done.
  rewrite tokens_word by done. rewrite (tokens_sep quote) by done.
  rewrite tokens_word by done. do 2 f_equal. exact IH.
Qed.

Lemma tokens_tag name kvs :
  word name -> Forall (fun kv => word kv.1 /\ word kv.2) kvs -> kvs <> [] ->
  tokens (name ++ attrs_text kvs) = name :: words_of kvs.
Proof.
  intros Hn Hkvs Hne. pose proof (tokens_attrs kvs Hkvs) as E.
  destruct kvs as [|kv kvs]; [done|].
  change (attrs_text (kv :: kvs)) with (x20 :: (kv.1 ++ bs "=" ++ [quote] ++ kv.2 ++ [quote]) ++ attrs_text kvs) in *.
  rewrite tokens_word by done. rewrite (tokens_sep x20) in E by done. by f_equal.
Qed.

Lemma word_no_tag w : Forall (fun c => word_char c = true) w -> kcXMLTagC ∉ w.
Proof. intros Hw Hin. rewrite list.Forall_forall in Hw. by specialize (Hw _ Hin). Qed.

Lemma attrs_no_tag kvs :
  Forall (fun kv => word kv.1 /\ word kv.2) kvs -> kcXMLTagC ∉ attrs_text kvs.
Proof.
  induction 1 as [|[k v] kvs [[_ Hk] [_ Hv]] _ IH]; [by apply not_elem_of_nil|].
  change (attrs_text ((k, v) :: kvs)) with (attr_text (k, v) ++ attrs_text kvs).
  apply word_no_tag in Hk, Hv. unfold attr_text. cbn [fst snd].
  rewrite !elem_of_app. intros Hin. destruct Hin as [[Hin|[Hin|[Hin|[Hin|[Hin|Hin]]]]]|Hin]; try done.
  all: apply (bool_decide_eq_true_2 _) in Hin; vm_compute in Hin; discriminate Hin.
Qed.

Lemma word_type ty : word (fieldTypeName ty).
Proof. split; [by destruct ty|]. destruct ty; repeat constructor. Qed.

Lemma word_numeric w : w <> [] -> Forall (fun c => isXMLNumeric c = true) w -> word w.
Proof.
  intros Hne Hw. split; [done|]. eapply Forall_impl; [|exact Hw]. cbn beta. intros c Hc.
  destruct c; first [discriminate Hc | reflexivity].
Qed.

Lemma set_type_ok v ty o : getTypeIDForTypeName v = Some ty -> set_type v o = Some (Some ty, o.2).
Proof. intros E. unfold set_type. by rewrite E. Qed.
Lemma set_int_ok `{!Texts} it v z o : stringToInteger it v = Some z -> set_int it v o = Some (o.1, Some z).
Proof. intros E. unfold set_int. by rewrite E. Qed.

(** The loop over the attributes of a field. *)
Lemma attr_loop_field `{!Texts} ty id idtext extra old fuel :
  getTypeIDForTypeName (fieldTypeName ty) = Some ty ->
  stringToInteger Int16 idtext = Some id ->
  fieldTypeName ty <> kXMLIdentifier ->
  Forall (fun kv => kv.1 <> kXMLType /\ kv.1 <> kXMLIdentifier /\
                    kv.2 <> kXMLType /\ kv.2 <> kXMLIdentifier) extra ->
  (4 + 2 * length extra <= fuel)%nat ->
  attr_loop fuel [(kXMLType, set_type); (kXMLIdentifier, set_int Int16)]
    (words_of ([(kXMLType, fieldTypeName ty); (kXMLIdentifier, idtext)] ++ extra)) old
  = Some (Some ty, Some id).
Proof.
  intros Hty Hid Hne Hex Hfuel.
  assert (forall fuel a, (2 * length extra <= fuel)%nat ->
    attr_loop fuel [(kXMLType, set_type); (kXMLIdentifier, set_int Int16)] (words_of extra) a = Some a)
    as Hrest.
  { clear -Hex. induction Hex as [|[k v] extra (?&?&?&?) _ IH]; intros fuel a Hf; [by destruct fuel|].
    change (words_of ((k, v) :: extra)) with (k :: v :: words_of extra). cbn [fst snd length] in *.
    do 2 (destruct fuel as [|fuel]; [lia|]).
    cbn [attr_loop attr_checks]. rewrite !bool_decide_eq_false_2 by done. cbn [mbind option_bind tail].
    cbn [attr_checks]. rewrite !bool_decide_eq_false_2 by done. cbn [mbind option_bind tail].
    apply IH. lia. }
  change (words_of _) with (kXMLType :: fieldTypeName ty :: kXMLIdentifier :: idtext :: words_of extra).
  do 2 (destruct fuel as [|fuel]; [lia|]).
  cbn [attr_loop attr_checks]. rewrite (bool_decide_eq_true_2 (kXMLType = kXMLType)) by done.
  rewrite (set_type_ok _ ty) by done. cbn [mbind option_bind attr_checks].
  rewrite (bool_decide_eq_false_2 (fieldTypeName ty = kXMLIdentifier)) by done. cbn [mbind option_bind tail].
  cbn [attr_checks]. rewrite (bool_decide_eq_false_2 (kXMLIdentifier = kXMLType)) by done.
  rewrite (bool_decide_eq_true_2 (kXMLIdentifier = kXMLIdentifier)) by done.
  rewrite (set_int_ok _ _ id) by done. cbn [mbind option_bind attr_checks tail snd fst].
  apply Hrest. lia.
Qed.

End Tokens.

(** ** Values, fields and structs *)
Module Structs.
Import Tokens.

(** The values a field can hold, apart from containers. *)
Inductive value :=
  | VBool (b : bool)
  | VInt (ty : TType) (z : Z)
  | VString (l : list byte)
  | VXML (l : list byte).

Definition int_of (ty : TType) : option int_type :=
  match ty with
  | T_BYTE => Some Byte8 | T_I16 => Some Int16 | T_I32 => Some Int32 | T_I64 => Some Int64
  | T_U16 => Some UInt16 | T_U32 => Some UInt32 | T_U64 => Some UInt64 | T_IPV4 => Some UInt32
  | _ => None
  end.

Definition type_of (v : value) : TType :=
  match v with VBool _ => T_BOOL | VInt ty _ => ty | VString _ => T_STRING | VXML _ => T_XML end.

(** Integers fit their type; strings hold no NUL and no text that is an entity of
    ', < or > already; character data does not end early. *)
Definition value_ok (v : value) : Prop :=
  match v with
  | VBool _ => True
  | VInt ty z => exists it, int_of ty = Some it /\ in_range it z
  | VString l => x00 ∉ l /\ Escape.entity_free Escape.literal_entities l
  | VXML l => no_cdata_end l
  end.

Record field := MkField { fname : list byte; fid : Z; fval : value }.
Definition field_ok (f : field) : Prop :=
  word (fname f) /\ head (fname f) <> Some kcXMLSlash /\ in_range Int16 (fid f) /\ value_ok (fval f).

Section Structs.
Context `{!Texts} `{!TextsLaws} `{!Allocator} {T : Type} `{TT : TTransport T} `{TL : !TransportLaws T}.
Abbreviation S := (t T).

Definition text_of (v : value) : list byte :=
  match v with
  | VBool b => if b then kXMLBoolTrue else kXMLBoolFalse
  | VInt ty z => match int_of ty with Some it => integerToString it z | None => [] end
  | VString l => escapeXMLControlChars l
  | VXML l => kXMLCDATAO ++ l ++ kXMLCDATAC
  end.

Definition field_attrs (f : field) : list (list byte * list byte) :=
  [(kXMLType, fieldTypeName (type_of (fval f))); (kXMLIdentifier, integerToString Int16 (fid f))].
Definition field_text (f : field) : list byte :=
  tag (fname f ++ attrs_text (field_attrs f)) ++ text_of (fval f) ++ end_tag (fname f).
Definition struct_text (name : list byte) (fs : list field) : list byte :=
  tag name ++ concat (field_text <$> fs) ++ end_tag name.

(** *** Writing *)
Definition write_value (v : value) : M S Z :=
  match v with
  | VBool b => writeBool b
  | VInt T_BYTE z => writeByte z | VInt T_I16 z => writeI16 z | VInt T_I32 z => writeI32 z
  | VInt T_I64 z => writeI64 z | VInt T_U16 z => writeU16 z | VInt T_U32 z => writeU32 z
  | VInt T_U64 z => writeU64 z | VInt T_IPV4 z => writeIPV4 z
  | VInt _ _ => undefined
  | VString l => writeString l
  | VXML l => writeXML l
  end.

Definition write_field (f : field) : M S Z :=
  chkZ (writeFieldBegin (fname f) (type_of (fval f)) (fid f) None) (fun a =>
  chkZ (write_value (fval f)) (fun b =>
  chkZ writeFieldEnd (fun c => mret (i32 (i32 (a + b) + c))))).

Fixpoint write_fields (fs : list field) (n : Z) (k : Z -> M S Z) : M S Z :=
  match fs with
  | [] => k n
  | f :: fs => chkZ (write_field f) (fun a => write_fields fs (i32 (n + a)) k)
  end.

(** The calls of a generated struct writer. *)
Definition write_struct (name : list byte) (fs : list field) : M S Z :=
  chkZ (writeStructBegin name) (fun a =>
  write_fields fs a (fun n =>
  chkZ writeFieldStop (fun b =>
  chkZ writeStructEnd (fun c => mret (i32 (i32 (n + b) + c)))))).

Definition wrote (s s' : S) (d : list byte) : Prop :=
  (t_ok (trans_ s') /\ (t_readable (trans_ s) -> t_readable (trans_ s'))) /\
  t_contents (trans_ s') = t_contents (trans_ s) ++ d /\
  (forall n, 0 <= n -> t_room (trans_ s) (zlen d + n) -> t_room (trans_ s') n) /\
  reader_ s' = reader_ s.
(** A writer's transport that takes [n] more bytes. *)
Definition can (s : S) (n : Z) : Prop := t_ok (trans_ s) /\ t_room (trans_ s) n /\ n < 2 ^ 31.

Lemma can_wrote s s' d n : can s (zlen d + n) -> 0 <= n -> wrote s s' d -> can s' n.
Proof. intros (?&?&?) ? ((?&_)&?&Hr&?). split; [done|]. split; [by apply Hr|lia]. Qed.
Lemma can_le s n m : can s m -> 0 <= n <= m -> can s n.
Proof. intros (?&?&?) ?. split; [done|]. split; [eapply t_room_le; [..|done]; lia|lia]. Qed.

Lemma wrote_app s1 s2 s3 a b : wrote s1 s2 a -> wrote s2 s3 b -> wrote s1 s3 (a ++ b).
Proof.
  intros ((?&?)&E1&R1&?) ((?&?)&E2&R2&?). split; [by auto|]. split; [by rewrite E2, E1, app_assoc|].
  split; [|congruence]. intros n Hn Hr. apply R2; [done|]. apply R1; [lia|].
  rewrite length_app in Hr. by replace (zlen a + (zlen b + n)) with (Z.of_nat (length a + length b) + n) by lia.
Qed.

Lemma write_wrote s d :
  can s (zlen d) ->
  exists s', writePlain d s = Some (zlen d, s') /\ writeIndented d s = Some (zlen d, s') /\
    wrote s s' d /\ same_stacks s s'.
Proof.
  intros (Hok&Hr&Hsz). destruct (t_write_ok (trans_ s) d Hok Hr) as (tr&E&?&?&?&?).
  exists (set_trans tr s). unfold writePlain, writeIndented. rewrite E. cbn [mbind option_bind].
  rewrite Z.eqb_refl. cbn [negb]. rewrite Z.add_0_l, (wrapS_small 32) by lia. done.
Qed.

Lemma write_value_wrote v s :
  value_ok v -> can s (zlen (text_of v)) ->
  exists s', write_value v s = Some (zlen (text_of v), s') /\ wrote s s' (text_of v) /\ same_stacks s s'.
Proof.
  intros Hv Hc. destruct (write_wrote s (text_of v) Hc) as (s'&E&_&H').
  exists s'. split; [|done]. rewrite <- E. destruct v as [b|ty z|l|l]; try done.
  destruct Hv as (it&Hit&_). by destruct ty.
Qed.

(** An open tag that pushes its name, and the end tag that pops it. *)
Lemma writeFieldBegin_wrote f s :
  can s (zlen (tag (fname f ++ attrs_text (field_attrs f)))) ->
  exists s' w, writeFieldBegin (fname f) (type_of (fval f)) (fid f) None s
      = Some (zlen (tag (fname f ++ attrs_text (field_attrs f))), s') /\
    wrote s s' (tag (fname f ++ attrs_text (field_attrs f))) /\
    write_state_ s' = w :: write_state_ s /\ xml_state_ s' = fname f :: xml_state_ s.
Proof.
  intros Hc. destruct (write_wrote s _ Hc) as (s'&_&E&Hw&Hs). unfold writeFieldBegin.
  set (xml := foldl _ _ _ ++ [kcXMLTagC]).
  assert (xml = tag (fname f ++ attrs_text (field_attrs f))) as ->.
  { unfold xml, tag, attrs_text, field_attrs, formXMLAttr. cbn [default foldl fmap list_fmap concat].
    unfold attr_text. cbn [fst snd]. rewrite !app_nil_r. by rewrite <- !app_assoc. }
  rewrite (chkZ_run _ _ _ _ _ E) by lia. destruct Hs as [E1 E2].
  eexists _, _. split; [reflexivity|]. split; [exact Hw|]. cbn. by rewrite E1, E2.
Qed.

Lemma end_tag_text name : bs "</" ++ name ++ [kcXMLTagC] = end_tag name.
Proof. done. Qed.

Lemma writeFieldEnd_wrote s n ns w ws :
  xml_state_ s = n :: ns -> write_state_ s = w :: ws -> can s (zlen (end_tag n)) ->
  exists s', writeFieldEnd s = Some (zlen (end_tag n), s') /\ wrote s s' (end_tag n) /\
    write_state_ s' = ws /\ xml_state_ s' = ns.
Proof.
  intros Ex Ew Hc. set (s1 := Mk (trans_ s) (write_state_ s) ns (reader_ s)).
  destruct (write_wrote s1 (end_tag n) Hc) as (s2&E1&E2&Hw&[Es1 Es2]).
  unfold writeFieldEnd. rewrite (bind_run pop_xml _ s n s1) by (unfold pop_xml; by rewrite Ex).
  rewrite (bind_run back_write _ s1 w s1) by (unfold back_write; cbn; by rewrite Ew).
  rewrite end_tag_text.
  set (out := match w with UNINIT => writePlain (end_tag n) | _ => writeIndented (end_tag n) end).
  assert (out s1 = Some (zlen (end_tag n), s2)) as Eo by (unfold out; by destruct w).
  rewrite (chkZ_run _ _ _ _ _ Eo) by lia.
  set (s3 := Mk (trans_ s2) ws (xml_state_ s2) (reader_ s2)).
  rewrite (bind_run pop_write _ s2 tt s3) by (unfold pop_write; by rewrite Es1; cbn; rewrite Ew).
  exists s3. split; [done|]. split; [exact Hw|]. cbn. by rewrite Es2.
Qed.

Lemma write_field_wrote f s :
  field_ok f -> can s (zlen (field_text f)) ->
  exists s', write_field f s = Some (zlen (field_text f), s') /\ wrote s s' (field_text f) /\
    same_stacks s s'.
Proof.
  intros (_&_&_&Hv) Hc. unfold field_text in *. set (d1 := tag _) in *. set (d2 := text_of _) in *.
  set (d3 := end_tag _) in *. rewrite !length_app in *.
  pose proof (writeFieldBegin_wrote f s) as B. fold d1 in B.
  destruct B as (s1&w&E1&W1&Ew1&Ex1); [by eapply can_le; [exact Hc|lia]|].
  unfold write_field. rewrite (chkZ_run _ _ _ _ _ E1) by lia. 
  assert (can s1 (zlen d2 + zlen d3)) as Hc1.
  { eapply can_wrote; [|lia|exact W1]. eapply can_le; [exact Hc|lia]. }
  pose proof (write_value_wrote (fval f) s1 Hv) as B. fold d2 in B.
  destruct B as (s2&E2&W2&[Ew2 Ex2]); [by eapply can_le; [exact Hc1|lia]|].
  rewrite (chkZ_run _ _ _ _ _ E2) by lia. 
  pose proof (writeFieldEnd_wrote s2 (fname f) (xml_state_ s) w (write_state_ s)) as B. fold d3 in B.
  destruct B as (s3&E3&W3&Ew3&Ex3);
    [by rewrite Ex2|by rewrite Ew2|by eapply can_wrote; [exact Hc1|lia|exact W2]|].
  rewrite (chkZ_run _ _ _ _ _ E3) by lia.  destruct Hc as (_&_&?).
  rewrite (wrapS_small 32 (zlen d1 + zlen d2)), (wrapS_small 32) by lia. exists s3.
  split; [by unfold mret, M_ret; do 2 f_equal; lia|].
  split; [by eapply wrote_app; [exact W1|]; eapply wrote_app|]. done.
Qed.

Lemma write_fields_wrote fs : forall s n k,
  Forall field_ok fs -> can s (zlen (concat (field_text <$> fs))) -> 0 <= n ->
  n + zlen (concat (field_text <$> fs)) < 2 ^ 31 ->
  exists s', write_fields fs n k s = k (n + zlen (concat (field_text <$> fs))) s' /\
    wrote s s' (concat (field_text <$> fs)) /\ same_stacks s s'.
Proof.
  induction fs as [|f fs IH]; intros s n k Hfs Hc Hn Hsz.
  - exists s. cbn in *. rewrite Z.add_0_r. split; [done|]. split; [|done].
    destruct Hc as (?&?&?). split; [done|]. split; [by rewrite app_nil_r|done].
  - apply Forall_cons_iff in Hfs as [Hf Hfs]. cbn [fmap list_fmap concat] in *.
    rewrite length_app in *. change (list_fmap _ _ field_text fs) with (field_text <$> fs) in *.
    destruct (write_field_wrote f s Hf) as (s1&E1&W1&Hs1); [by eapply can_le; [exact Hc|lia]|].
    cbn [write_fields]. rewrite (chkZ_run _ _ _ _ _ E1) by lia. rewrite (wrapS_small 32) by lia.
    destruct (IH s1 (n + zlen (field_text f)) k Hfs) as (s2&E2&W2&Hs2); [|lia|lia|].
    { eapply can_wrote; [|lia|exact W1]. eapply can_le; [exact Hc|lia]. }
    exists s2. rewrite E2. split; [by f_equal; lia|]. split; [by eapply wrote_app|].
    by eauto using same_stacks_trans.
Qed.

Lemma write_struct_wrote name fs s :
  Forall field_ok fs -> can s (zlen (struct_text name fs)) ->
  exists s', write_struct name fs s = Some (zlen (struct_text name fs), s') /\
    wrote s s' (struct_text name fs) /\ same_stacks s s'.
Proof.
  intros Hfs Hc. unfold struct_text in *. set (d1 := tag name) in *. set (d3 := end_tag name) in *.
  rewrite !length_app in *.
  destruct (write_wrote s d1) as (s1&_&E1&W1&[Ew1 Ex1]); [by eapply can_le; [exact Hc|lia]|].
  set (s2 := Mk (trans_ s1) (write_state_ s1) (name :: xml_state_ s1) (reader_ s1)).
  assert (writeStructBegin name s = Some (zlen d1, s2)) as Eb.
  { unfold writeStructBegin. change ([kcXMLTagO] ++ name ++ [kcXMLTagC]) with d1.
    rewrite (chkZ_run _ _ _ _ _ E1) by lia. done. }
  unfold write_struct. rewrite (chkZ_run _ _ _ _ _ Eb) by lia.
  assert (can s2 (zlen (concat (field_text <$> fs)) + zlen d3)) as Hc2.
  { apply (can_wrote s s1 d1); [|lia|exact W1]. eapply can_le; [exact Hc|lia]. }
  destruct Hc as (_&_&Hsz).
  edestruct (write_fields_wrote fs s2 (zlen d1)) as (s3&E3&W3&[Ew3 Ex3]);
    [done|eapply can_le; [exact Hc2|lia]|lia|lia|].
  rewrite E3. unfold writeFieldStop. rewrite (chkZ_run (mret 0) _ s3 0 s3) by done.
  set (s4 := Mk (trans_ s3) (write_state_ s3) (xml_state_ s1) (reader_ s3)).
  destruct (write_wrote s4 d3) as (s5&_&E5&W5&[Ew5 Ex5]).
  { eapply (can_wrote s2 s3); [exact Hc2|lia|exact W3]. }
  assert (writeStructEnd s3 = Some (zlen d3, s5)) as Ee.
  { unfold writeStructEnd. rewrite (bind_run pop_xml _ s3 name s4) by (unfold pop_xml; by rewrite Ex3).
    rewrite end_tag_text. fold d3. by rewrite (chkZ_run _ _ _ _ _ E5) by lia. }
  rewrite (chkZ_run _ _ _ _ _ Ee) by lia. rewrite Z.add_0_r.
  rewrite (wrapS_small 32 (zlen d1 + _)), (wrapS_small 32) by lia.
  exists s5. split; [by unfold mret, M_ret; do 2 f_equal; lia|].
  split; [by eapply wrote_app; [exact W1|]; eapply wrote_app; [exact W3|exact W5]|].
  split; [by rewrite Ew5; cbn; rewrite Ew3|by rewrite Ex5].
Qed.

(** *** Reading *)
Lemma length_tag name : length (tag name) = (length name + 2)%nat.
Proof. unfold tag. cbn [length]. rewrite length_app. simpl. lia. Qed.
Lemma length_end_tag name : length (end_tag name) = (length name + 3)%nat.
Proof. unfold end_tag. cbn [length]. rewrite length_app. simpl. lia. Qed.

Definition read_int (ty : TType) (m : M S (Z * option Z)) : M S (Z * option value) :=
  r ← m; mret (r.1, VInt ty <$> r.2).
Definition read_value (fuel : nat) (ty : TType) : M S (Z * option value) :=
  match ty with
  | T_BOOL => r ← readBool fuel; mret (r.1, VBool <$> r.2)
  | T_BYTE => read_int ty (readByte fuel)
  | T_I16 => read_int ty (readI16 fuel)
  | T_I32 => read_int ty (readI32 fuel)
  | T_I64 => read_int ty (readI64 fuel)
  | T_U16 => read_int ty (readU16 fuel)
  | T_U32 => read_int ty (readU32 fuel)
  | T_U64 => read_int ty (readU64 fuel)
  | T_IPV4 => read_int ty (readIPV4 fuel)
  | T_STRING => r ← readString fuel; mret (r.1, Some (VString r.2))
  | T_XML => r ← readXML fuel; mret (r.1, Some (VXML r.2))
  | _ => mret (-1, None)
  end.

(** The calls of a generated struct reader; the second result is what was read. *)
Fixpoint read_fields (n fuel : nat) (old : option TType * option Z) (acc : list field)
    : M S (Z * option (list field)) :=
  match n with
  | O => undefined
  | Datatypes.S n =>
      r ← readFieldBegin fuel old;
      if r.1 <? 0 then mret (r.1, None)
      else match r.2 with
        | (_, Some T_STOP, _) => mret (0, Some acc)
        | (Some nm, Some ty, Some id) =>
            v ← read_value fuel ty;
            if v.1 <? 0 then mret (v.1, None)
            else
              e ← readFieldEnd fuel;
              if e <? 0 then mret (e, None)
              else match v.2 with
                | Some v => read_fields n fuel (Some ty, Some id) (acc ++ [MkField nm id v])
                | None => undefined
                end
        | _ => undefined
        end
  end.

Definition read_struct (fuel : nat) : M S (Z * option (list byte * list field)) :=
  r ← readStructBegin fuel;
  if r.1 <? 0 then mret (r.1, None)
  else
    fs ← read_fields fuel fuel (None, None) [];
    if fs.1 <? 0 then mret (fs.1, None)
    else
      e ← readStructEnd fuel;
      if e <? 0 then mret (e, None)
      else match fs.2 with Some fs => mret (0, Some (r.2, fs)) | None => undefined end.

Lemma escape_internal l : x00 ∉ l -> escapeXMLControlChars l = escapeXMLControlCharsInternal l.
Proof.
  intros Hn. unfold escapeXMLControlChars. destruct (strpbrk_control l) eqn:E; [done|]. revert E.
  induction l as [|c l IH]; [done|]. apply not_elem_of_cons in Hn as [Hc Hn]. simpl.
  rewrite bool_decide_eq_false_2 by done. intros [E1 E2]%orb_false_iff.
  unfold escapeXMLControlCharsInternal in *. cbn [fmap list_fmap concat].
  change (list_fmap _ _ escape_char l) with (escape_char <$> l). rewrite <- (IH Hn E2).
  by destruct c.
Qed.

Lemma escape_no_tag l : kcXMLTagO ∉ escapeXMLControlCharsInternal l.
Proof.
  unfold escapeXMLControlCharsInternal. induction l as [|c l IH]; [by apply not_elem_of_nil|].
  cbn [fmap list_fmap concat]. rewrite elem_of_app. intros [Hin|Hin]; [|by apply IH].
  revert Hin. destruct c; apply (bool_decide_eq_true_1 (~ _)); reflexivity.
Qed.

Lemma int_types ty it : int_of ty = Some it ->
  forall fuel, read_value fuel ty = read_int ty (readXMLInteger it fuel).
Proof. intros E fuel. by destruct ty; simplify_eq/=. Qed.

Lemma read_value_front v fuel s rest :
  value_ok v -> front s (text_of v ++ kcXMLTagO :: rest) -> fresh s ->
  (length (text_of v) < fuel)%nat -> zlen (text_of v) < 2 ^ 31 ->
  exists s' n, read_value fuel (type_of v) s = Some ((n, Some v), s') /\ 0 <= n /\
    front s' (kcXMLTagO :: rest) /\ same_stacks s s'.
Proof.
  intros Hv Hf [H2 _] Hfuel Hsz. destruct v as [b|ty z|l|l]; cbn [text_of type_of value_ok] in *.
  - destruct (readXMLString_front fuel s _ rest Hf H2) as (s'&E&Hf'&Hs&_); [|done|done|].
    { by destruct b; apply (bool_decide_eq_true_1 (~ _)); reflexivity. }
    exists s', (zlen (if b then kXMLBoolTrue else kXMLBoolFalse)).
    unfold read_value, readBool, mbind, M_bind. rewrite E. cbn [mbind option_bind].
    destruct b; (split; [reflexivity|]); done.
  - destruct Hv as (it&Hit&Hz). rewrite Hit in *. rewrite (int_types ty it Hit). unfold read_int.
    destruct (readXMLInteger_front it fuel s z _ rest Hz Hf H2) as (s'&E&Hf'&Hs&_); [done..|].
    rewrite (bind_run _ _ _ _ _ E). exists s'. eexists. split; [done|]. split; [simpl; lia|done].
  - destruct Hv as [Hn He]. rewrite (escape_internal l Hn) in *.
    destruct (readXMLString_front fuel s _ rest Hf H2 (escape_no_tag l)) as (s'&E&Hf'&Hs&_); [done..|].
    exists s'. unfold read_value, readString, mbind, M_bind. rewrite E. cbn [mbind option_bind].
    rewrite Escape.unescape_escape_internal by done. eexists. split; [reflexivity|]. cbn [fst].
    split; [|done].
    assert (length l <= length (escapeXMLControlCharsInternal l))%nat.
    { clear. unfold escapeXMLControlCharsInternal. induction l as [|c l IH]; [done|].
      cbn [fmap list_fmap concat]. rewrite length_app. change (list_fmap _ _ escape_char l) with (escape_char <$> l).
      assert (1 <= length (escape_char c))%nat by (destruct c; simpl; lia). simpl. lia. }
    rewrite (wrapS_small 32) by lia. lia.
  - rewrite <- !app_assoc in Hf.
    destruct (readXMLCDATA_front fuel s l (kcXMLTagO :: rest) Hf Hv) as (s'&E&Hf'&Hs&_);
      [rewrite !length_app in Hfuel; lia|rewrite !length_app in Hsz;
       change (length kXMLCDATAO) with 9%nat in Hsz; change (length kXMLCDATAC) with 3%nat in Hsz; lia|].
    exists s'. unfold read_value, readXML. rewrite (bind_run _ _ _ _ _ E). eexists.
    split; [reflexivity|]. cbn [fst]. split; [lia|done].
Qed.

Lemma type_name_back v : value_ok v ->
  getTypeIDForTypeName (fieldTypeName (type_of v)) = Some (type_of v) /\
  type_of v <> T_STOP /\ fieldTypeName (type_of v) <> kXMLIdentifier.
Proof. destruct v as [b|ty z|l|l]; try done. intros (it&Hit&_). by destruct ty. Qed.

(** The begin of a field is read back, whatever the variables held. *)
Lemma readFieldBegin_front f fuel s rest old :
  field_ok f -> front s (tag (fname f ++ attrs_text (field_attrs f)) ++ rest) -> fresh s ->
  let n := length (fname f ++ attrs_text (field_attrs f)) in
  (n < fuel)%nat -> Z.of_nat n + 2 < 2 ^ 31 ->
  exists s', readFieldBegin fuel old s
      = Some ((Z.of_nat n + 2, (Some (fname f), Some (type_of (fval f)), Some (fid f))), s') /\
    front s' rest /\ same_stacks s s' /\ fresh s'.
Proof.
  intros (Hw&Hslash&Hid&Hv) Hf Hfr n Hfuel Hsz. pose proof Hw as [Hne Hchars].
  destruct (integer_text Int16 (fid f) Hid) as (Hidne&Hidn&Hidb).
  destruct (type_name_back (fval f) Hv) as (Hty&_&Htn).
  assert (Forall (fun kv => word kv.1 /\ word kv.2) (field_attrs f)) as Hattrs.
  { repeat constructor; cbn [fst snd]; try apply word_type; try by apply word_numeric. all: done. }
  destruct (fname f) as [|c0 nm] eqn:En; [done|].
  unfold tag in Hf. rewrite <- app_comm_cons, <- app_assoc in Hf.
  destruct (peek2_front s kcXMLTagO c0 _ Hf Hfr) as (s1&E1&E1'&Hf1&Hs1).
  unfold readFieldBegin. rewrite (bind_run _ _ _ _ _ E1), (bind_run _ _ _ _ _ E1').
  rewrite (bool_decide_eq_false_2 (c0 = kcXMLSlash)) by (intros ->; by apply Hslash).
  rewrite andb_false_r.
  destruct (readXMLTag_open fuel s1 ((c0 :: nm) ++ attrs_text (field_attrs f)) rest) as (s2&E2&Hf2&Hs2&Hfr2);
    [by unfold tag; rewrite <- app_comm_cons, <- app_assoc| |done|done|].
  { rewrite elem_of_app. intros [Hin|Hin]; [by apply (word_no_tag (c0 :: nm))|by apply (attrs_no_tag _ Hattrs)]. }
  rewrite (bind_run _ _ _ _ _ E2). destruct (Z.ltb_spec (zlen ((c0 :: nm) ++ attrs_text (field_attrs f)) + 2) 0);
    [lia|].
  rewrite tokens_tag by done. cbn [head tail].
  rewrite (bind_run (lift _) _ s2 (c0 :: nm) s2) by done.
  pose proof (attr_loop_field (type_of (fval f)) (fid f) (integerToString Int16 (fid f)) [] old
    (length ((c0 :: nm) :: words_of (field_attrs f))) Hty Hidb Htn (List.Forall_nil _)) as Ea.
  rewrite app_nil_r in Ea. change (words_of [_; _]) with (words_of (field_attrs f)) in Ea.
  unfold mbind, M_bind, lift. rewrite Ea by (simpl; lia). cbn.
  exists s2. split; [done|]. split; [done|]. split; [by eapply same_stacks_trans|done].
Qed.

Lemma read_fields_front fs : forall n fuel s rest name old acc,
  Forall field_ok fs -> front s (concat (field_text <$> fs) ++ end_tag name ++ rest) -> fresh s ->
  (length fs < n)%nat -> (length (concat (field_text <$> fs)) < fuel)%nat ->
  zlen (concat (field_text <$> fs)) < 2 ^ 31 ->
  exists s', read_fields n fuel old acc s = Some ((0, Some (acc ++ fs)), s') /\
    front s' (end_tag name ++ rest) /\ same_stacks s s'.
Proof.
  induction fs as [|f fs IH]; intros n fuel s rest name old acc Hfs Hf Hfr Hn Hfuel Hsz.
  - destruct n as [|n]; [lia|]. cbn in Hf.
    destruct (peek2_front s _ _ _ Hf Hfr) as (s1&E1&E1'&Hf1&Hs1).
    cbn [read_fields]. unfold readFieldBegin, mbind, M_bind. rewrite E1. cbn [mbind option_bind].
    rewrite E1'. cbn. exists s1. by rewrite app_nil_r.
  - destruct n as [|n]; [simpl in Hn; lia|]. apply Forall_cons_iff in Hfs as [Hf0 Hfs].
    cbn [fmap list_fmap concat] in *. change (list_fmap _ _ field_text fs) with (field_text <$> fs) in *.
    unfold field_text at 1 in Hf. rewrite <- !app_assoc in Hf.
    assert (length (field_text f) = length (fname f ++ attrs_text (field_attrs f)) + 2 +
              length (text_of (fval f)) + length (fname f) + 3)%nat as Elen.
    { unfold field_text. rewrite !length_app, length_tag, length_end_tag, length_app. lia. }
    rewrite length_app in Hfuel, Hsz.
    destruct (readFieldBegin_front f fuel s _ old Hf0 Hf Hfr) as (s1&E1&Hf1&Hs1&Hfr1); [lia|lia|].
    destruct Hf0 as (Hw&_&_&Hv). pose proof (type_name_back (fval f) Hv) as (_&Hstop&_).
    cbn [read_fields]. rewrite (bind_run _ _ _ _ _ E1). cbn [fst snd].
    destruct (Z.ltb_spec (Z.of_nat (length (fname f ++ attrs_text (field_attrs f))) + 2) 0); [lia|].
    destruct (read_value_front (fval f) fuel s1
      (kcXMLSlash :: fname f ++ [kcXMLTagC] ++ concat (field_text <$> fs) ++ end_tag name ++ rest) Hv)
      as (s2&m&E2&Hm&Hf2&Hs2); [|done|lia|lia|].
    { by unfold end_tag in Hf1 at 1; rewrite <- !app_comm_cons, <- app_assoc in Hf1. }
    destruct (readXMLTag_close fuel s2 (fname f) (concat (field_text <$> fs) ++ end_tag name ++ rest))
      as (s3&E3&Hf3&Hs3&Hfr3); [|by apply word_no_tag, Hw|rewrite length_app in Elen; lia|
                                rewrite length_app in Elen; lia|].
    { unfold end_tag at 1. by rewrite <- !app_comm_cons, <- app_assoc. }
    destruct (IH n fuel s3 rest name (Some (type_of (fval f)), Some (fid f))
                (acc ++ [MkField (fname f) (fid f) (fval f)]) Hfs Hf3 Hfr3) as (s4&E4&Hf4&Hs4);
      [simpl in Hn; lia|lia|lia|].
    exists s4. split; [|by split; [done|]; eauto 6 using same_stacks_trans].
    transitivity (read_fields n fuel (Some (type_of (fval f)), Some (fid f))
                    (acc ++ [MkField (fname f) (fid f) (fval f)]) s3).
    + destruct (type_of (fval f)) eqn:Et; try done;
      (rewrite (bind_run _ _ _ _ _ E2); cbn [fst snd]; destruct (Z.ltb_spec m 0); [lia|];
       unfold readFieldEnd; unfold mbind, M_bind; rewrite E3; cbn [mbind option_bind mret M_ret fst snd];
       destruct (Z.ltb_spec (zlen (fname f) + 3) 0); [lia|done]).
    + rewrite E4, <- app_assoc. by destruct f.
Qed.

(** A struct that was written is read back. *)
Lemma read_struct_front name fs fuel s rest :
  word name -> Forall field_ok fs -> front s (struct_text name fs ++ rest) -> fresh s ->
  (length (struct_text name fs) < fuel)%nat -> zlen (struct_text name fs) < 2 ^ 31 ->
  exists s', read_struct fuel s = Some ((0, Some (name, fs)), s') /\ front s' rest /\ fresh s' /\
    same_stacks s s'.
Proof.
  intros Hw Hfs Hf Hfr Hfuel Hsz. unfold struct_text in *. rewrite <- !app_assoc in Hf.
  rewrite !length_app, length_tag, length_end_tag in *.
  destruct (readXMLTag_open fuel s name _ Hf) as (s1&E1&Hf1&Hs1&Hfr1);
    [by apply word_no_tag, Hw|lia|lia|].
  assert (length fs <= length (concat (field_text <$> fs)))%nat.
  { clear. induction fs as [|f fs IH]; [done|]. cbn [fmap list_fmap concat]. rewrite length_app.
    unfold field_text at 1, tag. cbn [length app]. change (list_fmap _ _ field_text fs) with (field_text <$> fs). lia. }
  destruct (read_fields_front fs fuel fuel s1 rest name (None, None) [] Hfs Hf1 Hfr1) as (s2&E2&Hf2&Hs2);
    [lia|lia|lia|].
  destruct (readXMLTag_close fuel s2 name rest Hf2) as (s3&E3&Hf3&Hs3&Hfr3);
    [by apply word_no_tag, Hw|lia|lia|].
  exists s3. split; [|by split; [done|]; split; [done|]; eauto 6 using same_stacks_trans].
  unfold read_struct, readStructBegin. rewrite (bind_run _ _ _ _ _ E1). cbn [fst snd].
  destruct (Z.ltb_spec (zlen name + 2) 0); [lia|]. rewrite (bind_run _ _ _ _ _ E2). cbn [fst snd].
  change (0 <? 0) with false. cbn iota. unfold readStructEnd. unfold mbind, M_bind. rewrite E3.
  cbn [mbind option_bind mret M_ret fst snd]. destruct (Z.ltb_spec (zlen name + 3) 0); [lia|done].
Qed.

End Structs.
End Structs.
