(* ===== verification/XmlClaims.v ===== *)
(** * What the XML protocol promises

    Round trips of whole structs, of the begin tags of containers and messages, and
    of escaped strings; and where the reader miscounts or does not return. *)

From S2P Require Import Prelude Transport Protocol Xml XmlSpec XmlRoundTrip.
Import TXMLProtocol Reader Tokens Structs.
Local Open Scope Z_scope.

(** ** A concrete conversion of integers: decimal with a sign *)
Definition signed_text (z : Z) : list byte :=
  if z <? 0 then x2d :: dec_text (- z) else dec_text z.
Definition signed_value (l : list byte) : Z :=
  match l with x2d :: l => - dec_value l | _ => dec_value l end.
Definition decimal_texts : Texts := {|
  integerToString _ z := signed_text z;
  stringToInteger _ l := Some (signed_value l);
  doubleToString _ := bs "0";
  address_to_string _ := bs "0.0.0.0";
  address_from_string _ := None;
  uuid_to_string l := l;
  uuid_from_string l := Some l;
|}.

Lemma dec_text_spec z : 0 <= z < 2 ^ 64 ->
  dec_text z <> [] /\ Forall (fun b => is_digit b = true) (dec_text z) /\ dec_value (dec_text z) = z.
Proof.
  intros Hz. unfold dec_text. split; [|split].
  - intros E. apply (f_equal length) in E. by rewrite length_rev in E.
  - apply Forall_rev, dec_digits_digit. lia.
  - apply dec_digits_value. lia.
Qed.

Lemma digit_numeric l :
  Forall (fun b => is_digit b = true) l -> Forall (fun b => isXMLNumeric b = true) l.
Proof.
  intros Hl. eapply Forall_impl; [|exact Hl]. cbn beta. intros b Hb. unfold isXMLNumeric.
  by rewrite Hb, orb_true_r.
Qed.

#[local] Instance decimal_laws : @TextsLaws decimal_texts.
Proof.
  split. intros ty z Hz. cbn [integerToString stringToInteger decimal_texts].
  assert (- 2 ^ 63 <= z < 2 ^ 64) as Hr by (destruct ty; cbn in Hz; lia).
  unfold signed_text. destruct (Z.ltb_spec z 0).
  - destruct (dec_text_spec (- z)) as (Hne&Hd&Hv); [lia|]. split; [done|].
    split; [constructor; [done|by apply digit_numeric]|]. cbn [signed_value]. rewrite Hv. f_equal. lia.
  - destruct (dec_text_spec z) as (Hne&Hd&Hv); [lia|]. split; [done|]. split; [by apply digit_numeric|].
    unfold signed_value. destruct (dec_text z) as [|b l] eqn:E; [done|].
    apply Forall_cons_iff in Hd as [Hb _]. destruct b; first [discriminate Hb | by rewrite Hv].
Qed.

(** ** Containers and messages *)
Module XmlTags.
Section Tags.
Context `{!Texts} `{!TextsLaws} `{!Allocator} {T : Type} `{TT : TTransport T} `{TL : !TransportLaws T}.
Abbreviation S := (t T).

(** A writer and a reader that are inverse on one text. *)
Definition emits (m : M S Z) (d : list byte) : Prop :=
  forall s, can s (zlen d) -> exists s', m s = Some (zlen d, s') /\ wrote s s' d.
Definition takes {A} (m : nat -> M S (Z * A)) (d : list byte) (a : A) : Prop :=
  forall fuel s rest, front s (d ++ rest) -> (length d < fuel)%nat -> zlen d < 2 ^ 31 ->
    exists s', m fuel s = Some ((zlen d, a), s') /\ front s' rest /\ fresh s'.
Definition inverse {A} (w : M S Z) (r : nat -> M S (Z * A)) (a : A) : Prop :=
  exists d, emits w d /\ takes r d a.

(** Types that have a name of their own. *)
Definition named (ty : TType) : bool :=
  match ty with T_STOP | T_VOID | T_UTF8 | T_UTF16 | T_cast _ => false | _ => true end.

Lemma named_back ty : named ty = true -> getTypeIDForTypeName (fieldTypeName ty) = Some ty.
Proof. by destruct ty. Qed.
Lemma named_not_key ty : named ty = true ->
  fieldTypeName ty <> kXMLSize /\ fieldTypeName ty <> kXMLValue /\ fieldTypeName ty <> kXMLKey.
Proof. by destruct ty. Qed.

Lemma emits_tag name kvs w :
  (forall s, w s = chkZ (writeIndented (tag (name ++ attrs_text kvs))) (fun ret => mret ret) s) ->
  emits w (tag (name ++ attrs_text kvs)).
Proof.
  intros Ew s Hc. destruct (write_wrote s _ Hc) as (s'&_&E&Hw&_). rewrite Ew.
  rewrite (chkZ_run _ _ _ _ _ E) by lia. by exists s'.
Qed.

Lemma takes_tag name kvs fuel s rest :
  word name -> Forall (fun kv => word kv.1 /\ word kv.2) kvs ->
  front s (tag (name ++ attrs_text kvs) ++ rest) ->
  (length (tag (name ++ attrs_text kvs)) < fuel)%nat ->
  zlen (tag (name ++ attrs_text kvs)) < 2 ^ 31 ->
  exists s', readXMLTag fuel false s
      = Some ((zlen (tag (name ++ attrs_text kvs)), name ++ attrs_text kvs), s') /\
    front s' rest /\ fresh s'.
Proof.
  intros [_ Hn] Hkvs Hf Hfuel Hsz. rewrite length_tag in *.
  destruct (readXMLTag_open fuel s _ rest Hf) as (s'&E&Hf'&_&Hfr); [|lia|lia|].
  { rewrite elem_of_app. intros [Hin|Hin]; [by apply (word_no_tag _ Hn)|by apply (attrs_no_tag _ Hkvs)]. }
  exists s'. rewrite E. split; [|done]. apply run_eq; [lia|done].
Qed.

Definition list_attrs (ty : TType) (n : Z) : list (list byte * list byte) :=
  [(kXMLType, fieldTypeName ty); (kXMLSize, integerToString UInt32 n)].

Lemma int_word ty n : in_range ty n -> word (integerToString ty n).
Proof. intros Hn. destruct (integer_text ty n Hn) as (?&?&_). by apply word_numeric. Qed.

Lemma list_attrs_words ty n : in_range UInt32 n ->
  Forall (fun kv => word kv.1 /\ word kv.2) (list_attrs ty n).
Proof.
  intros Hn. repeat constructor; cbn [fst snd]; try apply word_type; try by apply int_word. all: done.
Qed.

Lemma readElemsBegin_takes what ty n :
  word what -> named ty = true -> in_range UInt32 n ->
  takes (readElemsBegin what) (tag (what ++ attrs_text (list_attrs ty n))) (Some ty, Some n).
Proof.
  intros Hw Hty Hn fuel s rest Hf Hfuel Hsz.
  destruct (takes_tag what _ fuel s rest Hw (list_attrs_words ty n Hn) Hf Hfuel Hsz) as (s'&E&Hf'&Hfr).
  exists s'. split; [|done]. unfold readElemsBegin. rewrite (bind_run _ _ _ _ _ E).
  set (sz := zlen _). destruct (Z.ltb_spec sz 0); [lia|].
  rewrite tokens_tag by (done || by apply list_attrs_words). cbn [head tail].
  rewrite (bind_run (lift _) _ s' what s') by done. rewrite bool_decide_eq_true_2 by done. cbn [negb].
  destruct (integer_text UInt32 n Hn) as (_&_&Hb). pose proof (named_not_key ty Hty) as (?&?&?).
  unfold words_of, list_attrs, mbind, M_bind, lift. cbn [fmap list_fmap concat app fst snd length].
  cbn [attr_loop attr_checks]. rewrite (bool_decide_eq_true_2 (kXMLType = kXMLType)) by done.
  rewrite (set_type_ok _ ty) by by apply named_back. cbn [mbind option_bind].
  rewrite (bool_decide_eq_false_2 (fieldTypeName ty = kXMLSize)) by done. cbn [mbind option_bind tail].
  cbn [attr_checks]. rewrite (bool_decide_eq_false_2 (kXMLSize = kXMLType)) by done.
  rewrite (bool_decide_eq_true_2 (kXMLSize = kXMLSize)) by done.
  rewrite (set_int_ok _ _ n) by done. done.
Qed.

Definition map_attrs (kty vty : TType) (n : Z) : list (list byte * list byte) :=
  [(kXMLKey, fieldTypeName kty); (kXMLValue, fieldTypeName vty); (kXMLSize, integerToString UInt32 n)].

Lemma readMapBegin_takes kty vty n :
  named kty = true -> named vty = true -> in_range UInt32 n ->
  takes readMapBegin (tag (bs "map" ++ attrs_text (map_attrs kty vty n))) (Some kty, Some vty, Some n).
Proof.
  intros Hk Hv Hn fuel s rest Hf Hfuel Hsz.
  assert (Forall (fun kv => word kv.1 /\ word kv.2) (map_attrs kty vty n)) as Hattrs.
  { repeat constructor; cbn [fst snd]; try apply word_type; try by apply int_word. all: done. }
  assert (word (bs "map")) as Hw by (split; [done|repeat constructor]).
  destruct (takes_tag _ _ fuel s rest Hw Hattrs Hf Hfuel Hsz) as (s'&E&Hf'&Hfr).
  exists s'. split; [|done]. unfold readMapBegin. rewrite (bind_run _ _ _ _ _ E).
  set (sz := zlen _). destruct (Z.ltb_spec sz 0); [lia|].
  rewrite tokens_tag by done. cbn [head tail].
  rewrite (bind_run (lift _) _ s' (bs "map") s') by done. rewrite bool_decide_eq_true_2 by done. cbn [negb].
  destruct (integer_text UInt32 n Hn) as (_&_&Hb).
  pose proof (named_not_key kty Hk) as (?&?&?). pose proof (named_not_key vty Hv) as (?&?&?).
  unfold words_of, map_attrs, mbind, M_bind, lift. cbn [fmap list_fmap concat app fst snd length].
  cbn [attr_loop attr_checks]. rewrite (bool_decide_eq_true_2 (kXMLKey = kXMLKey)) by done.
  rewrite named_back by done. cbn [mbind option_bind].
  rewrite (bool_decide_eq_false_2 (fieldTypeName kty = kXMLValue)) by done.
  rewrite (bool_decide_eq_false_2 (fieldTypeName kty = kXMLSize)) by done. cbn [mbind option_bind tail].
  cbn [attr_checks]. rewrite (bool_decide_eq_false_2 (kXMLValue = kXMLKey)) by done.
  rewrite (bool_decide_eq_true_2 (kXMLValue = kXMLValue)) by done.
  rewrite named_back by done. cbn [mbind option_bind].
  rewrite (bool_decide_eq_false_2 (fieldTypeName vty = kXMLSize)) by done. cbn [mbind option_bind tail].
  cbn [attr_checks]. rewrite (bool_decide_eq_false_2 (kXMLSize = kXMLKey)) by done.
  rewrite (bool_decide_eq_false_2 (kXMLSize = kXMLValue)) by done.
  rewrite (bool_decide_eq_true_2 (kXMLSize = kXMLSize)) by done. rewrite Hb. done.
Qed.

Lemma readSandeshBegin_takes name :
  word name -> takes readSandeshBegin (tag (name ++ attrs_text [(kXMLType, bs "sandesh")])) name.
Proof.
  intros Hw fuel s rest Hf Hfuel Hsz.
  assert (Forall (fun kv => word kv.1 /\ word kv.2) [(kXMLType, bs "sandesh")]) as Hattrs
    by (repeat constructor; done).
  destruct (takes_tag _ _ fuel s rest Hw Hattrs Hf Hfuel Hsz) as (s'&E&Hf'&Hfr).
  exists s'. split; [|done]. unfold readSandeshBegin. rewrite (bind_run _ _ _ _ _ E).
  set (sz := zlen _). destruct (Z.ltb_spec sz 0); [lia|].
  rewrite tokens_tag by done. done.
Qed.

Lemma writeSandeshBegin_emits name :
  emits (writeSandeshBegin name) (tag (name ++ attrs_text [(kXMLType, bs "sandesh")])).
Proof.
  intros s Hc. destruct (write_wrote s _ Hc) as (s1&_&E&Hw&_).
  unfold writeSandeshBegin.
  assert ([kcXMLTagO] ++ name ++ bs " " ++ kAttrTypeSandesh ++ [kcXMLTagC]
          = tag (name ++ attrs_text [(kXMLType, bs "sandesh")])) as ->.
  { unfold tag, attrs_text, attr_text. cbn [fmap list_fmap concat fst snd]. by rewrite <- !app_assoc. }
  rewrite (chkZ_run _ _ _ _ _ E) by lia. eexists. split; [reflexivity|]. exact Hw.
Qed.

End Tags.

(** The begin tags of containers and messages are read back.  For all types
    that have a name, every 32-bit size and every word as a name, what
    [writeMapBegin], [writeListBegin], [writeSetBegin] and [writeSandeshBegin] emit
    is taken apart by the matching read operation, which returns the same types,
    size or name, and consumes exactly that text. *)
Theorem xml_begin_tags_roundtrip `{!Texts} `{!TextsLaws} `{!Allocator} {T : Type} `{TT : TTransport T} `{TL : !TransportLaws T}
    (kty vty : TType) (n : Z) (name : list byte) :
  named kty = true -> named vty = true -> in_range UInt32 n -> word name ->
  inverse (T := T) (writeMapBegin kty vty n) readMapBegin (Some kty, Some vty, Some n) /\
  inverse (T := T) (writeListBegin kty n) readListBegin (Some kty, Some n) /\
  inverse (T := T) (writeSetBegin kty n) readSetBegin (Some kty, Some n) /\
  inverse (T := T) (writeSandeshBegin name) readSandeshBegin name.
Proof.
  intros Hk Hv Hn Hw. split; [|split; [|split]].
  - exists (tag (bs "map" ++ attrs_text (map_attrs kty vty n))). split; [|by apply readMapBegin_takes].
    apply emits_tag. intros s. unfold writeMapBegin, formXMLAttr, tag, attrs_text, map_attrs, attr_text.
    cbn [fmap list_fmap concat fst snd]. by rewrite ?app_nil_r, <- !app_assoc.
  - exists (tag (bs "list" ++ attrs_text (list_attrs kty n))).
    split; [|by apply readElemsBegin_takes; [split; [done|repeat constructor]|..]].
    apply emits_tag. intros s. unfold writeListBegin, formXMLAttr, tag, attrs_text, list_attrs, attr_text.
    cbn [fmap list_fmap concat fst snd]. by rewrite ?app_nil_r, <- !app_assoc.
  - exists (tag (bs "set" ++ attrs_text (list_attrs kty n))).
    split; [|by apply readElemsBegin_takes; [split; [done|repeat constructor]|..]].
    apply emits_tag. intros s. unfold writeSetBegin, formXMLAttr, tag, attrs_text, list_attrs, attr_text.
    cbn [fmap list_fmap concat fst snd]. by rewrite ?app_nil_r, <- !app_assoc.
  - eexists. split; [apply writeSandeshBegin_emits|by apply readSandeshBegin_takes].
Qed.

Lemma xml_begin_tags_roundtrip_witness :
  let _ := TMemoryBuffer.total_allocator in
  let _ := decimal_texts in
  inverse (T := TMemoryBuffer.t) (writeMapBegin T_STRING T_U64 70000) readMapBegin
    (Some T_STRING, Some T_U64, Some 70000) /\
  inverse (T := TMemoryBuffer.t) (writeSandeshBegin (bs "SandeshModuleClientTrace")) readSandeshBegin
    (bs "SandeshModuleClientTrace").
Proof.
  intros A X.
  destruct (xml_begin_tags_roundtrip (T := TMemoryBuffer.t) T_STRING T_U64 70000
              (bs "SandeshModuleClientTrace")) as (?&_&_&?);
    [reflexivity|reflexivity|split; [discriminate|reflexivity]|split; [discriminate|repeat constructor]|].
  split; assumption.
Defined.

End XmlTags.

(** ** Structs *)
Module XmlStructs.

(** C3: a flat struct written through the XML protocol is read back.  The
    members are of the types boolean, integer, string and xml; doubles (which the
    writer does not take), containers and nested structs are not covered.  For a
    name and field names that are words, identifiers that fit 16 bits, integers
    that fit their type, strings without NUL and without literal entities of ', <
    and >, and character data without an early end mark, the writer appends the
    struct's text to whatever the transport holds and returns the number of bytes
    it emitted, leaving the transport ready for more; and a fresh protocol object
    on any transport that holds this text and anything behind it returns the same
    name and the same fields in order and leaves exactly what was behind it. *)
Theorem xml_struct_roundtrip `{!Texts} `{!TextsLaws} `{!Allocator} {T : Type} `{TT : TTransport T} `{TL : !TransportLaws T}
    (w : T) (name : list byte) (fs : list field) (d d0 d1 : byte) (fuel : nat) :
  t_ok w -> t_room w (zlen (struct_text name fs)) ->
  zlen (struct_text name fs) < 2 ^ 31 -> word name -> Forall field_ok fs ->
  (length (struct_text name fs) < fuel)%nat ->
  (exists s', write_struct name fs (new w d d0 d1) = Some (zlen (struct_text name fs), s') /\
    t_ok (trans_ s') /\ (t_readable w -> t_readable (trans_ s')) /\
    t_contents (trans_ s') = t_contents w ++ struct_text name fs /\
    forall n, 0 <= n -> t_room w (zlen (struct_text name fs) + n) -> t_room (trans_ s') n) /\
  forall (r : T) (rest : list byte), t_readable r -> t_contents r = struct_text name fs ++ rest ->
    exists r', read_struct fuel (new r d d0 d1) = Some ((0, Some (name, fs)), r') /\
      t_readable (trans_ r') /\ t_contents (trans_ r') = rest.
Proof.
  intros Hok Hroom Hsz Hw Hfs Hfuel. split.
  - destruct (write_struct_wrote name fs (new w d d0 d1) Hfs) as (s'&E&((Hok'&Hr')&Ec&Hn&_)&_); [done|].
    by exists s'.
  - intros r rest Hr Er.
    destruct (read_struct_front name fs fuel (new r d d0 d1) rest Hw Hfs) as (r'&E&(Hr'&El&_&_)&[H2 Hd]&_);
      [split; [done|]; split; [exact Er|done]|done..|].
    exists r'. split; [done|]. split; [done|]. rewrite <- El. unfold lookahead, ahead2 in *.
    rewrite Hd. destruct (has2Data_ (reader_ r')); [destruct (firstRead_ (reader_ r')); discriminate|done].
Qed.

Definition sample_fields : list field :=
  [MkField (bs "name") 1 (VString (bs "a<b & 'c'")); MkField (bs "count") (-2) (VInt T_I32 (-70000));
   MkField (bs "up") 3 (VBool true); MkField (bs "raw") 4 (VXML (bs "<x>]]</x>"))].

Lemma sample_fields_ok : Forall field_ok sample_fields.
Proof.
  assert (forall w, bool_decide (w <> [] /\ Forall (fun c => word_char c = true) w) = true -> word w) as Hw
    by (intros w Hb; by apply bool_decide_eq_true_1 in Hb).
  repeat constructor; cbn [fname fid fval]; try (apply Hw; reflexivity); try discriminate; try (cbn; lia).
  - apply (bool_decide_eq_true_1 (~ _)). reflexivity.
  - intros c p q Hc Eq. unfold Escape.literal_entities in Hc.
    repeat (apply elem_of_cons in Hc as [->|Hc]); [..|by apply elem_of_nil in Hc];
      repeat (destruct p as [|? p]; [discriminate Eq|injection Eq as _ Eq]); destruct p; discriminate Eq.
  - exists Int32. cbn. split; [done|lia].
  - intros p q Eq. cbn in Eq.
    repeat (destruct p as [|? p]; [first [discriminate Eq|by injection Eq]|first [discriminate Eq|injection Eq as _ Eq]]).
Qed.

Lemma xml_struct_roundtrip_witness :
  let _ := TMemoryBuffer.total_allocator in
  let _ := decimal_texts in
  exists b s1 s2 r1 r2, TMemoryBuffer.new_size 16 = Some b /\
    write_struct (bs "S") sample_fields (new b x00 x00 x00) = Some (221, s1) /\
    write_struct (bs "Next") sample_fields (new (trans_ s1) x00 x00 x00) = Some (227, s2) /\
    read_struct 300 (new (trans_ s2) x00 x00 x00) = Some ((0, Some (bs "S", sample_fields)), r1) /\
    t_contents (trans_ r1) = struct_text (bs "Next") sample_fields /\
    read_struct 300 (new (trans_ r1) x00 x00 x00) = Some ((0, Some (bs "Next", sample_fields)), r2) /\
    t_contents (trans_ r2) = [].
Proof.
  intros A X. destruct (TMemoryBuffer.new_size 16) as [b|] eqn:Eb; [|discriminate Eb].
  destruct (TMemoryBuffer.new_size_ok 16 b) as (Hb&Ec&Ho); [lia|exact Eb|].
  destruct (xml_struct_roundtrip (T := TMemoryBuffer.t) b (bs "S") sample_fields x00 x00 x00 300)
    as ((s1&E1&Hk1&Hr1&Ec1&Hn1)&Hread1);
    [exact Hb| |vm_compute; reflexivity|split; [discriminate|repeat constructor]|exact sample_fields_ok
    |apply Nat.ltb_lt; vm_compute; reflexivity|].
  { right. split; [exact Ho|]. injection Eb as <-. split; [vm_compute; discriminate|reflexivity]. }
  destruct (xml_struct_roundtrip (T := TMemoryBuffer.t) (trans_ s1) (bs "Next") sample_fields x00 x00 x00 300)
    as ((s2&E2&Hk2&Hr2&Ec2&_)&Hread2);
    [exact Hk1| |vm_compute; reflexivity|split; [discriminate|repeat constructor]|exact sample_fields_ok
    |apply Nat.ltb_lt; vm_compute; reflexivity|].
  { apply Hn1; [vm_compute; discriminate|]. right. split; [exact Ho|]. injection Eb as <-.
    split; [vm_compute; discriminate|reflexivity]. }
  destruct (Hread1 (trans_ s2) (struct_text (bs "Next") sample_fields)) as (r1&F1&Hf1&G1);
    [exact (Hr2 (Hr1 Hb))|rewrite Ec2, Ec1; replace (t_contents b) with (@nil byte) by (symmetry; exact Ec); reflexivity|].
  destruct (Hread2 (trans_ r1) []) as (r2&F2&_&G2); [exact Hf1|rewrite G1, app_nil_r; reflexivity|].
  exists b, s1, s2, r1, r2. split; [reflexivity|].
  split; [rewrite E1; vm_compute; reflexivity|]. split; [rewrite E2; vm_compute; reflexivity|].
  split; [exact F1|]. split; [exact G1|]. split; [exact F2|exact G2].
Defined.

End XmlStructs.

(** ** Strings, and input that ends early *)
Module XmlStrings.

(** Escaping is undone by unescaping, for every string without NUL that does
    not itself spell one of the entities of ', < and >; and escaped text holds no
    character that opens a tag. *)
Theorem xml_escape_roundtrip (l : list byte) :
  x00 ∉ l -> Escape.entity_free Escape.literal_entities l ->
  unescapeXMLControlChars (escapeXMLControlChars l) = l /\
  kcXMLTagO ∉ escapeXMLControlChars l.
Proof.
  intros Hn He. rewrite escape_internal by done.
  split; [by apply Escape.unescape_escape_internal|apply escape_no_tag].
Qed.

Lemma xml_escape_roundtrip_witness :
  unescapeXMLControlChars (escapeXMLControlChars (bs "x<y&&z;amp;'")) = bs "x<y&&z;amp;'".
Proof.
  apply xml_escape_roundtrip.
  - apply (bool_decide_eq_true_1 (~ _)). reflexivity.
  - intros c p q Hc Eq. unfold Escape.literal_entities in Hc.
    repeat (apply elem_of_cons in Hc as [->|Hc]); [..|by apply elem_of_nil in Hc];
      repeat (destruct p as [|? p]; [discriminate Eq|first [discriminate Eq|injection Eq as _ Eq]]).
Defined.

(** A string that spells an entity is changed by the round trip: the entity of
    & is replaced first, and its & is taken for the begin of the next entity. *)
Theorem xml_escape_lossy (p q : list byte) :
  x26 ∉ p -> x26 ∉ q -> forallb (fun c => negb (is_control c)) (p ++ q) = true ->
  unescapeXMLControlChars (escapeXMLControlCharsInternal (p ++ bs "&lt;" ++ q)) = p ++ bs "<" ++ q.
Proof.
  intros Hp Hq Hc. rewrite forallb_app in Hc. apply andb_true_iff in Hc as [Hcp Hcq].
  assert (forall l, forallb (fun c => negb (is_control c)) l = true -> escapeXMLControlCharsInternal l = l)
    as Hid.
  { induction l as [|c l IH]; [done|]. cbn [forallb]. intros [H1 H2]%andb_true_iff.
    unfold escapeXMLControlCharsInternal in *. cbn [fmap list_fmap concat].
    change (list_fmap _ _ escape_char l) with (escape_char <$> l). rewrite IH by done.
    by destruct c. }
  assert (escapeXMLControlCharsInternal (p ++ bs "&lt;" ++ q) = p ++ bs "&amp;lt;" ++ q) as ->.
  { unfold escapeXMLControlCharsInternal in *. rewrite !fmap_app, !concat_app, Hid, (Hid q) by done. done. }
  unfold unescapeXMLControlChars.
  assert (forall from to l, from <> [] -> head from = Some x26 -> x26 ∉ l ->
    replace_all from to l = l) as Hno.
  { intros from to l Hne Hh Hl. destruct from as [|f0 ft]; [done|]. injection Hh as ->.
    rewrite <- (app_nil_r l) at 1. rewrite (Escape.replace_all_pass _ to x26 ft l []) by done.
    by rewrite Escape.replace_all_nil, app_nil_r. }
  rewrite (Escape.replace_all_pass (bs "&amp;") _ x26 (bs "amp;") p) by done.
  change (bs "&amp;lt;" ++ q) with (bs "&amp;" ++ (bs "lt;" ++ q)).
  rewrite Escape.replace_all_match by done.
  rewrite (Escape.replace_all_pass (bs "&amp;") _ x26 (bs "amp;") (bs "lt;")) by
    (done || apply (bool_decide_eq_true_1 (~ _)); reflexivity).
  rewrite (Hno (bs "&amp;")) by done.
  change ([x26] ++ bs "lt;" ++ q) with (bs "&lt;" ++ q).
  rewrite (Escape.replace_all_pass (bs "&apos;") _ x26 (bs "apos;") p) by done.
  assert (replace_all (bs "&apos;") [x27] (bs "&lt;" ++ q) = bs "&lt;" ++ q) as ->.
  { change (bs "&lt;" ++ q) with (x26 :: (bs "lt;" ++ q)). rewrite Escape.replace_all_miss by done.
    rewrite (Escape.replace_all_pass (bs "&apos;") _ x26 (bs "apos;") (bs "lt;")) by
      (done || apply (bool_decide_eq_true_1 (~ _)); reflexivity).
    by rewrite (Hno (bs "&apos;")). }
  rewrite (Escape.replace_all_pass (bs "&lt;") _ x26 (bs "lt;") p) by done.
  rewrite Escape.replace_all_match by done. rewrite (Hno (bs "&lt;")) by done.
  apply Hno; [done|done|].
  rewrite !elem_of_app. intros [?|[Hin|?]]; [done| |done].
  apply (bool_decide_eq_true_2 _) in Hin. discriminate Hin.
Qed.

Lemma xml_escape_lossy_witness :
  unescapeXMLControlChars (escapeXMLControlCharsInternal (bs "a &lt; b")) = bs "a < b".
Proof.
  apply (xml_escape_lossy (bs "a ") (bs " b"));
    [apply (bool_decide_eq_true_1 (~ _)); reflexivity..|reflexivity].
Defined.

Section Reading.
Context `{!Texts} `{!Allocator} {T : Type} `{TT : TTransport T} `{TL : !TransportLaws T}.
Abbreviation S := (t T).

(** A read at the end of the input: the byte read last comes again. *)
Lemma read_at_end s :
  front s [] -> exists s', reader_read s = Some (data_ (reader_ s), s') /\ front s' [] /\
    data_ (reader_ s') = data_ (reader_ s).
Proof.
  intros (Hok&E&Hex&Hfr). apply app_eq_nil in E as [El Ec]. unfold lookahead in El.
  destruct (reader_ s) as [hd d h2 d0 d1 fr] eqn:Er. cbn in *.
  destruct hd; [done|]. destruct h2; [by destruct fr|]. rewrite (Hfr eq_refl) in *.
  destruct (t_readAll_short (trans_ s) 1 Hok) as (tr&Et&Htr&Ec'); [lia|rewrite Ec; simpl; lia|].
  unfold reader_read. rewrite Er. cbn. unfold fill. change (zlen [d]) with 1. rewrite Et, Ec. cbn.
  eexists; split; [done|]. split; [|done]. split; [done|]. unfold lookahead. cbn. by rewrite Ec'.
Qed.

Lemma read_data s c s' :
  reader_read s = Some (c, s') ->
  data_ (reader_ s') = c \/ data_ (reader_ s') = data_ (reader_ s).
Proof.
  unfold reader_read. intros E. destruct (hasData_ (reader_ s)); [simplify_eq/=; auto|].
  destruct (has2Data_ (reader_ s)).
  - destruct (firstRead_ (reader_ s)); simplify_eq/=; auto.
  - destruct (fill _ _) as [[buf s1]|]; [|done]. cbn in E. destruct buf as [|b [|? ?]]; simplify_eq/=; auto.
Qed.

Lemma readXMLTag_loop_diverges fuel : forall s l acc res,
  front s l -> kcXMLTagC ∉ l -> data_ (reader_ s) <> kcXMLTagC ->
  readXMLTag_loop fuel acc res s = None.
Proof.
  induction fuel as [|fuel IH]; intros s l acc res Hf Hl Hd; [done|]. cbn [readXMLTag_loop].
  destruct l as [|c l].
  - destruct (read_at_end s Hf) as (s'&E&Hf'&Ed). rewrite (bind_run _ _ _ _ _ E).
    rewrite bool_decide_eq_false_2 by done. apply (IH s' []); [done|done|]. by rewrite Ed.
  - apply not_elem_of_cons in Hl as [Hc Hl].
    destruct (byte_read_front s c l Hf) as (s'&E&Hf'&_). rewrite (bind_run _ _ _ _ _ E).
    rewrite bool_decide_eq_false_2 by done. apply (IH s' l); [done|done|].
    destruct (read_data s c s' E) as [->| ->]; [by apply not_eq_sym|done].
Qed.

End Reading.

(** A tag that is not closed is never given up.  When the input in front of the
    reader is a < and then no > at all, [readXMLTag] does not return: at the end
    of the input [readAll] fails, its result is dropped, and the loop reads the last
    byte again and again, whatever the number of steps. *)
Theorem xml_unclosed_tag_diverges `{!Texts} `{!Allocator} {T : Type} `{TT : TTransport T} `{TL : !TransportLaws T} (s : t T) (l : list byte)
    (fuel : nat) :
  front s (kcXMLTagO :: l) -> fresh s -> kcXMLTagC ∉ l -> readXMLTag fuel false s = None.
Proof.
  intros Hf [H2 Hd] Hl. destruct (byte_read_front s _ _ Hf) as (s1&E1&Hf1&_&_&_).
  assert (data_ (reader_ s1) = kcXMLTagO) as Ed.
  { destruct Hf as (Hok&El&_&_). unfold reader_read in E1. unfold lookahead, ahead2 in *.
    destruct (reader_ s) as [hd d h2 d0 d1 fr]. cbn in *. subst hd.
    destruct h2; [by destruct fr|]. destruct (fill [d] s) as [[buf s2]|]; [|done]. cbn in E1.
    destruct buf as [|b [|? ?]]; simplify_eq/=. done. }
  unfold readXMLTag, readXMLSyntaxChar, mbind, M_bind. rewrite E1. cbn [mbind option_bind].
  rewrite bool_decide_eq_true_2 by done. cbn.
  apply (readXMLTag_loop_diverges fuel s1 l); [done|done|by rewrite Ed].
Qed.

Lemma xml_unclosed_tag_diverges_witness :
  let _ := TMemoryBuffer.total_allocator in
  let _ := decimal_texts in
  exists b, TMemoryBuffer.new_buffer (Some (bs "<sandesh")) 8 TMemoryBuffer.OBSERVE = Some b /\
    readXMLTag 1000 false (new b x00 x00 x00) = None.
Proof.
  intros A X. eexists. split; [reflexivity|].
  apply (xml_unclosed_tag_diverges _ (bs "sandesh")).
  - split; [|split; [reflexivity|split; [discriminate|reflexivity]]].
    vm_compute. intuition (discriminate || congruence).
  - split; reflexivity.
  - apply (bool_decide_eq_true_1 (~ _)). reflexivity.
Defined.

(** [readString] reports the length of the string it returns, not the bytes it
    took.  On the escaped text of a string the reader ends behind that text, and the
    number returned is smaller as soon as the string holds a control character. *)
Theorem xml_readString_count `{!Texts} `{!Allocator} {T : Type} `{TT : TTransport T} `{TL : !TransportLaws T} (s : t T) (l rest : list byte)
    (fuel : nat) :
  x00 ∉ l -> Escape.entity_free Escape.literal_entities l ->
  front s (escapeXMLControlChars l ++ kcXMLTagO :: rest) -> ahead2 s = 0%nat ->
  (length (escapeXMLControlChars l) < fuel)%nat -> zlen (escapeXMLControlChars l) < 2 ^ 31 ->
  exists s', readString fuel s = Some ((zlen l, l), s') /\ front s' (kcXMLTagO :: rest) /\
    (existsb is_control l = true <-> zlen l < zlen (escapeXMLControlChars l)).
Proof.
  intros Hn He. rewrite (escape_internal l Hn). intros Hf H2 Hfuel Hsz.
  destruct (readXMLString_front fuel s _ rest Hf H2 (escape_no_tag l) Hfuel Hsz) as (s'&E&Hf'&_&_).
  assert (zlen l <= zlen (escapeXMLControlCharsInternal l) /\
    (existsb is_control l = true <-> zlen l < zlen (escapeXMLControlCharsInternal l))) as [Hle Hiff].
  { clear. unfold escapeXMLControlCharsInternal. induction l as [|c l [IH1 IH2]]; [done|].
    cbn [existsb fmap list_fmap concat]. rewrite length_app. cbn [length].
    change (list_fmap _ _ escape_char l) with (escape_char <$> l).
    assert ((is_control c = true /\ (4 <= length (escape_char c))%nat) \/
            (is_control c = false /\ length (escape_char c) = 1%nat)) as [[-> ?]|[-> ->]]
      by (destruct c; simpl; auto with lia).
    - cbn [orb]. split; [lia|]. split; [lia|done].
    - cbn [orb]. split; [lia|]. rewrite IH2. lia. }
  exists s'. split; [|done]. unfold readString, mbind, M_bind. rewrite E. cbn [mbind option_bind].
  rewrite Escape.unescape_escape_internal by done. rewrite (wrapS_small 32) by lia. done.
Qed.

Lemma xml_readString_count_witness :
  let _ := TMemoryBuffer.total_allocator in
  let _ := decimal_texts in
  exists b s', TMemoryBuffer.new_buffer (Some (bs "a&amp;b<")) 8 TMemoryBuffer.OBSERVE = Some b /\
    readString 10 (new b x00 x00 x00) = Some ((3, bs "a&b"), s') /\ front s' (bs "<").
Proof.
  intros A X.
  destruct (TMemoryBuffer.new_buffer (Some (bs "a&amp;b<")) 8 TMemoryBuffer.OBSERVE) as [b|] eqn:Eb;
    [|discriminate Eb].
  destruct (xml_readString_count (new b x00 x00 x00) (bs "a&b") [] 10) as (s'&E&Hf&_).
  - apply (bool_decide_eq_true_1 (~ _)). reflexivity.
  - intros c p q Hc Eq. unfold Escape.literal_entities in Hc.
    repeat (apply elem_of_cons in Hc as [->|Hc]); [..|by apply elem_of_nil in Hc];
      repeat (destruct p as [|? p]; [discriminate Eq|first [discriminate Eq|injection Eq as _ Eq]]).
  - injection Eb as <-. split; [|split; [reflexivity|split; [discriminate|reflexivity]]].
    vm_compute. intuition (discriminate || congruence).
  - reflexivity.
  - apply Nat.ltb_lt. reflexivity.
  - reflexivity.
  - exists b, s'. split; [reflexivity|]. split; [exact E|exact Hf].
Defined.

End XmlStrings.

(** ** [skip] on the XML protocol *)
Module XmlSkip.
Import XmlTags.

Section Skip.
Context `{!Texts} `{!TextsLaws} `{!Allocator} {T : Type} `{TT : TTransport T} `{TL : !TransportLaws T}.
Abbreviation S := (t T).

(** Reading an integer in front of a tag takes nothing. *)
Lemma readI32_nothing fuel s rest :
  front s (kcXMLTagO :: rest) -> ahead2 s = 0%nat -> (0 < fuel)%nat ->
  exists s', (r ← readI32 (T := T) fuel; mret r.1) s = Some (0, s') /\ front s' (kcXMLTagO :: rest) /\
    ahead2 s' = 0%nat.
Proof.
  intros Hf H2 Hfuel.
  destruct (readXMLNumericChars_loop_front fuel s [] kcXMLTagO rest [] 0) as (s'&E&Hf'&_&Ha);
    [done|done|constructor|done|simpl; lia|lia|simpl; lia|].
  exists s'. split; [|done]. unfold readI32, readXMLInteger, readXMLNumericChars, mbind, M_bind.
  rewrite E. done.
Qed.

Lemma skip_container_nothing pf fuel n rest (finish : Z -> M S Z) : forall k i s,
  Z.of_nat k = n - i -> 0 <= i -> n < 2 ^ 32 -> (k <= fuel)%nat ->
  front s (kcXMLTagO :: rest) -> ahead2 s = 0%nat -> (0 < pf)%nat -> forall res,
  0 <= res < 2 ^ 31 ->
  exists s', skip_container [r ← readI32 (T := T) pf; mret r.1] fuel i n res finish s = finish res s' /\
    front s' (kcXMLTagO :: rest) /\ ahead2 s' = 0%nat.
Proof.
  revert fuel. intros fuel k. revert fuel. induction k as [|k IH]; intros fuel i s Ek Hi Hn Hf Hfr H2 Hpf res Hres.
  - exists s. destruct fuel; cbn [skip_container]; (destruct (Z.ltb_spec i n); [lia|done]).
  - destruct fuel as [|fuel]; [lia|]. cbn [skip_container]. destruct (Z.ltb_spec i n); [|lia].
    destruct (readI32_nothing pf s rest Hfr H2 Hpf) as (s1&E1&Hf1&Ha1).
    cbn [skip_elements]. rewrite (chkZ_run _ _ _ _ _ E1) by lia.
    rewrite Z.add_0_r, (wrapS_small 32) by lia. rewrite (wrapU_small 32) by lia.
    apply IH; done || lia.
Qed.

End Skip.

(** [skip] cannot skip a list of integers in XML.  The generated writers wrap
    each element of a base type in an element tag, [skip] reads the elements
    without it: it takes nothing for each of them and then fails on the end tag,
    whatever the number of elements. *)
Theorem xml_skip_list_fails `{!Texts} `{!TextsLaws} `{!Allocator} {T : Type} `{TT : TTransport T} `{TL : !TransportLaws T} (s : t T) (n : Z)
    (rest : list byte) (pf fuel : nat) :
  1 <= n < 2 ^ 31 ->
  let begin_tag := tag (bs "list" ++ attrs_text (list_attrs T_I32 n)) in
  front s (begin_tag ++ bs "<element>" ++ rest) ->
  (length begin_tag < pf)%nat -> zlen begin_tag < 2 ^ 31 -> (Z.to_nat n + 1 < fuel)%nat ->
  exists s', skip (H := protocol pf) fuel T_LIST s = Some (-1, s').
Proof.
  intros Hn begin_tag Hf Hpf Hsz Hfuel. destruct fuel as [|fuel]; [lia|]. cbn [skip].
  destruct (readElemsBegin_takes (bs "list") T_I32 n) with (fuel := pf) (s := s) (rest := bs "<element>" ++ rest)
    as (s1&E1&Hf1&[Ha1 _]); [split; [done|repeat constructor]|done|cbn; lia|done|done|done|].
  fold begin_tag in E1.
  rewrite (chkR_run (Protocol.readListBegin (Protocol := protocol pf)) _ s _ _ s1 E1) by lia.
  cbn [fst snd]. rewrite (bind_run (get (Some n)) _ s1 n s1) by done.
  destruct fuel as [|fuel]; [lia|].
  change (bs "<element>" ++ rest) with (kcXMLTagO :: (bs "element>" ++ rest)) in Hf1.
  change [elemType ← get (Some T_I32); skip (H := protocol pf) (Datatypes.S fuel) elemType]
    with [r ← readI32 (T := T) pf; mret r.1].
  destruct (skip_container_nothing pf (Datatypes.S fuel) n (bs "element>" ++ rest)
    (skip_finish (Protocol.readListEnd (Protocol := protocol pf))) (Z.to_nat n) 0 s1) with (res := zlen begin_tag) as (s2&E2&Hf2&Ha2);
    [lia|lia|lia|lia|done|done|lia|lia|].
  rewrite E2. unfold skip_finish.
  destruct (byte_read_front s2 _ _ Hf2) as (s3&E3&Hf3&_).
  destruct (byte_read_front s3 x65 (bs "lement>" ++ rest) Hf3) as (s4&E4&_).
  exists s4. unfold chkZ, Protocol.readListEnd, protocol, readListEnd, readXMLTag, readXMLSyntaxChar.
  unfold mbind, M_bind. rewrite E3. cbn [mbind option_bind].
  rewrite bool_decide_eq_true_2 by done. cbn. rewrite E4. done.
Qed.

Lemma xml_skip_list_fails_witness :
  let _ := TMemoryBuffer.total_allocator in
  let _ := decimal_texts in
  let text := bs "<list type=" ++ [quote] ++ bs "i32" ++ [quote] ++ bs " size=" ++ [quote] ++ bs "1" ++
    [quote] ++ bs "><element>5</element></list>" in
  exists b s', TMemoryBuffer.new_buffer (Some text) (zlen text) TMemoryBuffer.OBSERVE = Some b /\
    skip (H := protocol 100) 10 T_LIST (new b x00 x00 x00) = Some (-1, s').
Proof.
  intros A X text.
  destruct (TMemoryBuffer.new_buffer (Some text) (zlen text) TMemoryBuffer.OBSERVE) as [b|] eqn:Eb;
    [|discriminate Eb].
  destruct (xml_skip_list_fails (new b x00 x00 x00) 1 (bs "5</element></list>") 100 10) as (s'&E).
  - lia.
  - injection Eb as <-. split; [|split; [reflexivity|split; [discriminate|reflexivity]]].
    vm_compute. intuition (discriminate || congruence).
  - apply Nat.ltb_lt. reflexivity.
  - reflexivity.
  - apply Nat.ltb_lt. reflexivity.
  - exists b, s'. split; [reflexivity|exact E].
Defined.

End XmlSkip.
