(* ===== verification/Message.v ===== *)
(** * Messages as the receiving side sees them

    The header of a message, the decision to drop a message
    ([DoDropSandeshMessage], library/cpp/sandesh.cc), and the two places that look
    into a control message: [SandeshReader::ExtractMsgHeader] and
    [SandeshSession::DecodeCtrlSandesh] (library/cpp/sandesh_session.cc).  The
    generated readers of the header and of a message are parameters. *)

From S2P Require Import Prelude Transport Protocol Xml.
Local Open Scope Z_scope.

(** The enumerations and constants of common/sandesh.sandesh. *)
Inductive SandeshType :=
  | INVALID | SYSTEM | REQUEST | RESPONSE | TRACE | BUFFER | UVE | OBJECT | FLOW | TRACE_OBJECT
  | SYSLOG | ALARM | SESSION.
#[export] Instance SandeshType_eq_dec : EqDecision SandeshType.
Proof. solve_decision. Defined.

(** [SandeshLevel] as a 32-bit integer; [SandeshLevel::INVALID] is the largest. *)
Definition SandeshLevel_INVALID : Z := 0x7fffffff.
Definition SANDESH_CONTROL_HINT : Z := 2.

Record SandeshHeader := MkHeader {
  Namespace : list byte;
  Timestamp : Z;
  hModule : list byte;
  Source : list byte;
  hContext : list byte;
  SequenceNum : Z;
  VersionSig : Z;
  hType : SandeshType;
  Hints : Z;
  hLevel : Z;
  Category : list byte;
  NodeType : list byte;
  InstanceId : list byte;
  IPAddress : option (list byte);
  Pid : option Z;
}.
#[export] Instance SandeshHeader_eq_dec : EqDecision SandeshHeader.
Proof. solve_decision. Defined.

(** [SandeshMessage] of sandesh_message_builder.h. *)
Record SandeshMessage := MkMessage {
  header_ : SandeshHeader;
  message_type_ : list byte;
  size_ : Z;
}.

Definition has_control_hint (h : SandeshHeader) : bool :=
  negb (Z.land (Hints h) SANDESH_CONTROL_HINT =? 0).

Section Drop.
(** [Sandesh::IsFlowCollectionDisabled()]. *)
Variable flow_collection_disabled : bool.

Definition DoDropSandeshMessage (header : SandeshHeader) (drop_level : Z) : bool :=
  let stype := hType header in
  if (bool_decide (stype = SYSTEM) || bool_decide (stype = OBJECT) || bool_decide (stype = FLOW) ||
      bool_decide (stype = SESSION)) && (drop_level <=? hLevel header) then true
  else flow_collection_disabled && (bool_decide (stype = FLOW) || bool_decide (stype = SESSION)).

End Drop.

(** ** Looking into a message *)
Definition EINVAL : Z := 22.

Section Extract.
Context `{!Allocator} `{!Texts}.
Abbreviation X := (TXMLProtocol.t TMemoryBuffer.t).
(** The generated [SandeshHeader::read]: the bytes it reports and the header. *)
Variable header_read : M X (Z * SandeshHeader).
(** [SandeshBaseFactory::CreateInstance] and the generated [Read] of the class. *)
Variable CreateInstance : list byte -> option (M X Z).
(** Steps allowed to the loops of the XML reader. *)
Variable fuel : nat.

(** The protocol over [msg] from [offset] on, as both functions set it up. *)
Definition protocol_over (msg : list byte) (offset : Z) : option X :=
  b ← TMemoryBuffer.new_buffer (Some (drop (Z.to_nat offset) msg)) (u32 (zlen msg - offset))
        TMemoryBuffer.OBSERVE;
  Some (TXMLProtocol.new b junk junk junk).

(** [inl] is the error; [inr] the header, the name of the message and the offset
    behind the header. *)
Definition ExtractMsgHeader (msg : list byte) : option (Z + SandeshHeader * list byte * Z) :=
  prot ← protocol_over msg 0;
  '(ret, header, prot) ← header_read prot;
  if ret <=? 0 then Some (inl EINVAL)
  else
    let xfer := ret in
    let header_offset := u32 xfer in
    '(ret, msg_type, prot) ← TXMLProtocol.readSandeshBegin fuel prot;
    if ret <=? 0 then Some (inl EINVAL) else Some (inr (header, msg_type, header_offset)).

(** [Some false] is NULL. *)
Definition DecodeCtrlSandesh (msg : list byte) (header : SandeshHeader) (sandesh_name : list byte)
    (header_offset : Z) : option bool :=
  if negb (has_control_hint header) then None
  else match CreateInstance sandesh_name with
  | None => Some false
  | Some Read =>
      prot ← protocol_over msg header_offset;
      '(xfer, _) ← Read prot;
      Some (negb (xfer <? 0))
  end.

End Extract.
