(* ===== verification/MessageBuilder.v ===== *)
(** * Building messages of received bytes

    library/cpp/sandesh_message_builder.h and .cc: the XML message with its header and the
    syslog message, over pugixml, which is a parameter ([Pugi]).  The builder is what the
    server's state machine calls [Create] (ServerSM.v).

    [None] is a failed assertion or undefined behaviour; [Some None] is [false] or NULL. *)

From S2P Require Import Prelude Protocol Xml Message.
Local Open Scope Z_scope.

(** ** pugixml

    A document is its nodes on the top level; a null node is none.  [last_attribute] is
    the name and the value as an integer, [child_value] the text in the node; texts are
    those of a document loaded without [parse_escapes]. *)
Class Pugi := {
  xml_node : Type;
  load_buffer : list byte -> option (list xml_node);
  node_name : xml_node -> list byte;
  node_children : xml_node -> list xml_node;
  last_attribute : xml_node -> list byte * Z;
  child_value : xml_node -> list byte;
  node_print : xml_node -> list byte;
}.

(** ** [strtoul] and [strtoull] with base 10, on 64-bit words

    The number and what is behind it.  A number too large is the largest; without digits
    nothing is taken. *)
Definition c_space (b : byte) : bool := (byte_to_Z b =? 32) || ((9 <=? byte_to_Z b) && (byte_to_Z b <=? 13)).
Fixpoint drop_while (p : byte -> bool) (l : list byte) : list byte :=
  match l with [] => [] | b :: l' => if p b then drop_while p l' else l end.
Fixpoint take_while (p : byte -> bool) (l : list byte) : list byte :=
  match l with [] => [] | b :: l' => if p b then b :: take_while p l' else [] end.

Definition strtoul (l : list byte) : Z * list byte :=
  let l1 := drop_while c_space l in
  let '(minus, l2) := match l1 with x2d :: l2 => (true, l2) | x2b :: l2 => (false, l2) | _ => (false, l1) end in
  match take_while is_digit l2 with
  | [] => (0, l)
  | digits =>
      let v := dec_value digits in
      (if 2 ^ 64 <=? v then 2 ^ 64 - 1 else if (minus : bool) then u64 (- v) else v, drop_while is_digit l2)
  end.

(** ** The header *)
Module MessageBuilder.

Definition default_header : SandeshHeader := MkHeader [] 0 [] [] [] 0 0 INVALID 0 0 [] [] [] None None.

Definition set_Namespace v '(MkHeader a b c d e f g h i j k l m n o) := MkHeader v b c d e f g h i j k l m n o.
Definition set_Timestamp v '(MkHeader a b c d e f g h i j k l m n o) := MkHeader a v c d e f g h i j k l m n o.
Definition set_Module v '(MkHeader a b c d e f g h i j k l m n o) := MkHeader a b v d e f g h i j k l m n o.
Definition set_Source v '(MkHeader a b c d e f g h i j k l m n o) := MkHeader a b c v e f g h i j k l m n o.
Definition set_Context v '(MkHeader a b c d e f g h i j k l m n o) := MkHeader a b c d v f g h i j k l m n o.
Definition set_SequenceNum v '(MkHeader a b c d e f g h i j k l m n o) := MkHeader a b c d e v g h i j k l m n o.
Definition set_VersionSig v '(MkHeader a b c d e f g h i j k l m n o) := MkHeader a b c d e f v h i j k l m n o.
Definition set_Type v '(MkHeader a b c d e f g h i j k l m n o) := MkHeader a b c d e f g v i j k l m n o.
Definition set_Hints v '(MkHeader a b c d e f g h i j k l m n o) := MkHeader a b c d e f g h v j k l m n o.
Definition set_Level v '(MkHeader a b c d e f g h i j k l m n o) := MkHeader a b c d e f g h i v k l m n o.
Definition set_Category v '(MkHeader a b c d e f g h i j k l m n o) := MkHeader a b c d e f g h i j v l m n o.
Definition set_NodeType v '(MkHeader a b c d e f g h i j k l m n o) := MkHeader a b c d e f g h i j k v m n o.
Definition set_InstanceId v '(MkHeader a b c d e f g h i j k l m n o) := MkHeader a b c d e f g h i j k l v n o.
Definition set_IPAddress v '(MkHeader a b c d e f g h i j k l m n o) := MkHeader a b c d e f g h i j k l m (Some v) o.
Definition set_Pid v '(MkHeader a b c d e f g h i j k l m n o) := MkHeader a b c d e f g h i j k l m n (Some v).

(** [static_cast<SandeshType::type>]; a number without a name is no value of the type. *)
Definition types : list SandeshType :=
  [INVALID; SYSTEM; REQUEST; RESPONSE; TRACE; BUFFER; UVE; OBJECT; FLOW; TRACE_OBJECT; SYSLOG; ALARM; SESSION].
Definition type_of_int (z : Z) : option SandeshType := if z <? 0 then None else types !! Z.to_nat z.

Section Builder.
Context `{!Pugi}.

(** [strtoul] into an [int], [strtoull] into a [uint64_t]. *)
Definition ParseInteger (node : xml_node) : option Z :=
  let '(v, endp) := strtoul (child_value node) in
  match endp with [] => Some (i32 v) | _ => None end.
Definition ParseUnsignedLong (node : xml_node) : option Z :=
  let '(v, endp) := strtoul (child_value node) in
  match endp with [] => Some v | _ => None end.

(** [if (!Parse...(node, &v)) return false; header.set(v)] *)
Definition assign (v : option Z) (set : Z -> SandeshHeader) : option (option SandeshHeader) :=
  match v with Some v => Some (Some (set v)) | None => Some None end.

Definition parse_node (node : xml_node) (header : SandeshHeader) : option (option SandeshHeader) :=
  let text := child_value node in
  let '(name, identifier) := last_attribute node in
  if negb (bool_decide (name = bs "identifier")) then None
  else match identifier with
  | 1 => Some (Some (set_Namespace text header))
  | 2 => assign (ParseUnsignedLong node) (fun v => set_Timestamp (i64 v) header)
  | 3 => Some (Some (set_Module text header))
  | 4 => Some (Some (set_Source text header))
  | 5 => Some (Some (set_Context text header))
  | 6 => assign (ParseInteger node) (fun v => set_SequenceNum v header)
  | 7 => assign (ParseInteger node) (fun v => set_VersionSig v header)
  | 8 => match ParseInteger node with
         | Some v => ty ← type_of_int v; Some (Some (set_Type ty header))
         | None => Some None
         end
  | 9 => assign (ParseInteger node) (fun v => set_Hints v header)
  | 10 => assign (ParseInteger node) (fun v => set_Level v header)
  | 11 => Some (Some (set_Category text header))
  | 12 => Some (Some (set_NodeType text header))
  | 13 => Some (Some (set_InstanceId text header))
  | 14 => Some (Some (set_IPAddress text header))
  | 15 => assign (ParseInteger node) (fun v => set_Pid v header)
  | _ => Some (Some header)
  end.

Fixpoint ParseHeader (nodes : list xml_node) (header : SandeshHeader) : option (option SandeshHeader) :=
  match nodes with
  | [] => Some (Some header)
  | node :: nodes =>
      r ← parse_node node header;
      match r with Some header => ParseHeader nodes header | None => Some None end
  end.

(** ** Messages *)
Record SandeshXMLMessage := MkXmlMessage { base : SandeshMessage; message_node_ : option xml_node }.

Definition Parse (xml_msg : list byte) : option (option SandeshXMLMessage) :=
  match load_buffer xml_msg with
  | None => Some None
  | Some xdoc =>
      let header_node := head xdoc in
      r ← ParseHeader (from_option node_children [] header_node) default_header;
      match r with
      | None => Some None
      | Some header =>
          let message_node := head (tail xdoc) in
          let message_type := from_option node_name [] message_node in
          if bool_decide (message_type = []) then Some None
          else Some (Some (MkXmlMessage (MkMessage header message_type (zlen xml_msg)) message_node))
      end
  end.

Definition ExtractMessage (m : SandeshXMLMessage) : list byte := from_option node_print [] (message_node_ m).

(** A message whose parsing fails is deleted. *)
Definition SandeshXMLMessageBuilder_Create (xml_msg : list byte) : option (option SandeshXMLMessage) := Parse xml_msg.

(** [SandeshSyslogMessage::Parse]: the result and the message.  When the text is loaded the
    function ends without a [return]: undefined. *)
Definition new_message : SandeshXMLMessage := MkXmlMessage (MkMessage default_header [] 0) None.
Definition Syslog_Parse (xml_msg : list byte) : option (bool * SandeshXMLMessage) :=
  match load_buffer xml_msg with
  | None => Some (false, new_message)
  | Some _ => None
  end.
(** The result is not looked at. *)
Definition SandeshSyslogMessageBuilder_Create (xml_msg : list byte) : option SandeshXMLMessage :=
  snd <$> Syslog_Parse xml_msg.

Inductive Type_ := XML | SYSLOG_TYPE.
Definition Create (type : Type_) (xml_msg : list byte) : option (option SandeshXMLMessage) :=
  match type with
  | XML => SandeshXMLMessageBuilder_Create xml_msg
  | SYSLOG_TYPE => Some <$> SandeshSyslogMessageBuilder_Create xml_msg
  end.
End Builder.
End MessageBuilder.
