(* ===== verification/ServerSM.v ===== *)
(** * The server's state machine

    [SandeshStateMachine] (library/cpp/sandesh_state_machine.h and .cc) with the
    connection it belongs to ([SandeshConnection] and [SandeshServerConnection],
    library/cpp/sandesh_connection.h and .cc).  The states, events and reactions are
    those of the boost::statechart declarations: a custom reaction runs and then
    leaves and enters states; a [sc::transition] leaves the state, runs its action
    and enters the next one; an event without a reaction is dropped.

    Around the machine, and made explicit in its state: the work queue (FIFO, with
    the byte count of the specialised counters), the idle hold timer, the sessions
    that are alive, what was handed to the server, and the clock.  An operation on a
    session that was deleted, a NULL message and a failed [assert] are [None]. *)

From S2P Require Import Prelude Transport Statistics Protocol Xml Message.
Local Open Scope Z_scope.

Module ServerSM.

Inductive SsmState := IDLE | ACTIVE | ESTABLISHED | SERVER_INIT.
#[export] Instance SsmState_eq_dec : EqDecision SsmState.
Proof. solve_decision. Defined.

Definition sid := positive.

Inductive event :=
  | EvStart
  | EvStop
  | EvIdleHoldTimerExpired
  | EvTcpPassiveOpen (session : sid)
  | EvTcpClose (session : option sid)
  | EvTcpDeleteSession (session : sid)
  | EvSandeshMessageRecv (msg : SandeshMessage)
  | EvSandeshCtrlMessageRecv (msg : list byte) (header : SandeshHeader) (msg_type : list byte)
      (header_offset : Z)
  | EvResourceUpdate (rsc : bool).

(** [TYPE_NAME], the name the statistics use. *)
Definition type_name (e : event) : string :=
  match e with
  | EvStart => "ssm::EvStart" | EvStop => "ssm::EvStop"
  | EvIdleHoldTimerExpired => "ssm::EvIdleHoldTimerExpired"
  | EvTcpPassiveOpen _ => "ssm::EvTcpPassiveOpen" | EvTcpClose _ => "ssm::EvTcpClose"
  | EvTcpDeleteSession _ => "ssm::EvTcpDeleteSession"
  | EvSandeshMessageRecv _ => "ssm::EvSandeshMessageRecv"
  | EvSandeshCtrlMessageRecv _ _ _ _ => "ssm::EvSandeshCtrlMessageRecv"
  | EvResourceUpdate _ => "ssm::EvResourceUpdate"
  end.

(** What the machine and the connection do to a session. *)
Record SessionInfo := MkSession {
  s_observer : bool;
  s_receive_cb : bool;
  s_connection : bool;
  s_closed : bool;
  s_shutdown : bool;
  s_defer_reader : bool;
}.

(** A watermark: queue count, drop level and, with [defer_undefer], the value given
    to [SetDeferSessionReader]. *)
Record WaterMark := MkWaterMark { wm_count : Z; wm_level : Z; wm_cb : option bool }.

(** What the server is told. *)
Inductive server_call :=
  | ReceiveSandeshCtrlMsg (session : option sid) (name : list byte)
  | ReceiveSandeshMsg (session : option sid) (msg : SandeshMessage) (resource : bool)
  | ReceiveResourceUpdate (session : option sid) (rsc : bool)
  | DisconnectSession (session : option sid).

(** The machine ([queue_] to [message_drop_level_]), its connection ([conn_session_],
    [admin_down_], [is_deleted_]) and what is around them; [managed_deletes] counts
    the calls of [ManagedDelete]. *)
Record t := Mk {
  queue_ : list event;
  count_ : Z;
  disabled : bool;
  high_watermarks : list WaterMark;
  low_watermarks : list WaterMark;
  session_ : option sid;
  timer_running : bool;
  idle_hold_time_ : Z;
  deleted_ : bool;
  state_ : SsmState;
  resource_ : bool;
  last_state_ : SsmState;
  state_since_ : Z;
  last_event_ : string;
  last_event_at_ : Z;
  generator_key_ : string;
  event_stats_ : SandeshEventStatistics.t;
  message_stats_ : SandeshMessageStatistics.t;
  message_drop_level_ : Z;
  conn_session_ : option sid;
  admin_down_ : bool;
  is_deleted_ : bool;
  sessions : gmap positive SessionInfo;
  deleted_sessions : list sid;
  managed_deletes : nat;
  calls : list server_call;
  clock : Z;
}.

Definition set_queue v (x : t) : t :=
  Mk v (count_ x) (disabled x) (high_watermarks x) (low_watermarks x) (session_ x)
    (timer_running x) (idle_hold_time_ x) (deleted_ x) (state_ x) (resource_ x) (last_state_ x)
    (state_since_ x) (last_event_ x) (last_event_at_ x) (generator_key_ x) (event_stats_ x)
    (message_stats_ x) (message_drop_level_ x) (conn_session_ x) (admin_down_ x) (is_deleted_ x)
    (sessions x) (deleted_sessions x) (managed_deletes x) (calls x) (clock x).
Definition set_count v (x : t) : t :=
  Mk (queue_ x) v (disabled x) (high_watermarks x) (low_watermarks x) (session_ x)
    (timer_running x) (idle_hold_time_ x) (deleted_ x) (state_ x) (resource_ x) (last_state_ x)
    (state_since_ x) (last_event_ x) (last_event_at_ x) (generator_key_ x) (event_stats_ x)
    (message_stats_ x) (message_drop_level_ x) (conn_session_ x) (admin_down_ x) (is_deleted_ x)
    (sessions x) (deleted_sessions x) (managed_deletes x) (calls x) (clock x).
Definition set_disabled v (x : t) : t :=
  Mk (queue_ x) (count_ x) v (high_watermarks x) (low_watermarks x) (session_ x) (timer_running x)
    (idle_hold_time_ x) (deleted_ x) (state_ x) (resource_ x) (last_state_ x) (state_since_ x)
    (last_event_ x) (last_event_at_ x) (generator_key_ x) (event_stats_ x) (message_stats_ x)
    (message_drop_level_ x) (conn_session_ x) (admin_down_ x) (is_deleted_ x) (sessions x)
    (deleted_sessions x) (managed_deletes x) (calls x) (clock x).
Definition set_high_watermarks v (x : t) : t :=
  Mk (queue_ x) (count_ x) (disabled x) v (low_watermarks x) (session_ x) (timer_running x)
    (idle_hold_time_ x) (deleted_ x) (state_ x) (resource_ x) (last_state_ x) (state_since_ x)
    (last_event_ x) (last_event_at_ x) (generator_key_ x) (event_stats_ x) (message_stats_ x)
    (message_drop_level_ x) (conn_session_ x) (admin_down_ x) (is_deleted_ x) (sessions x)
    (deleted_sessions x) (managed_deletes x) (calls x) (clock x).
Definition set_low_watermarks v (x : t) : t :=
  Mk (queue_ x) (count_ x) (disabled x) (high_watermarks x) v (session_ x) (timer_running x)
    (idle_hold_time_ x) (deleted_ x) (state_ x) (resource_ x) (last_state_ x) (state_since_ x)
    (last_event_ x) (last_event_at_ x) (generator_key_ x) (event_stats_ x) (message_stats_ x)
    (message_drop_level_ x) (conn_session_ x) (admin_down_ x) (is_deleted_ x) (sessions x)
    (deleted_sessions x) (managed_deletes x) (calls x) (clock x).
Definition set_session v (x : t) : t :=
  Mk (queue_ x) (count_ x) (disabled x) (high_watermarks x) (low_watermarks x) v (timer_running x)
    (idle_hold_time_ x) (deleted_ x) (state_ x) (resource_ x) (last_state_ x) (state_since_ x)
    (last_event_ x) (last_event_at_ x) (generator_key_ x) (event_stats_ x) (message_stats_ x)
    (message_drop_level_ x) (conn_session_ x) (admin_down_ x) (is_deleted_ x) (sessions x)
    (deleted_sessions x) (managed_deletes x) (calls x) (clock x).
Definition set_timer_running v (x : t) : t :=
  Mk (queue_ x) (count_ x) (disabled x) (high_watermarks x) (low_watermarks x) (session_ x) v
    (idle_hold_time_ x) (deleted_ x) (state_ x) (resource_ x) (last_state_ x) (state_since_ x)
    (last_event_ x) (last_event_at_ x) (generator_key_ x) (event_stats_ x) (message_stats_ x)
    (message_drop_level_ x) (conn_session_ x) (admin_down_ x) (is_deleted_ x) (sessions x)
    (deleted_sessions x) (managed_deletes x) (calls x) (clock x).
Definition set_idle_hold_time v (x : t) : t :=
  Mk (queue_ x) (count_ x) (disabled x) (high_watermarks x) (low_watermarks x) (session_ x)
    (timer_running x) v (deleted_ x) (state_ x) (resource_ x) (last_state_ x) (state_since_ x)
    (last_event_ x) (last_event_at_ x) (generator_key_ x) (event_stats_ x) (message_stats_ x)
    (message_drop_level_ x) (conn_session_ x) (admin_down_ x) (is_deleted_ x) (sessions x)
    (deleted_sessions x) (managed_deletes x) (calls x) (clock x).
Definition set_deleted v (x : t) : t :=
  Mk (queue_ x) (count_ x) (disabled x) (high_watermarks x) (low_watermarks x) (session_ x)
    (timer_running x) (idle_hold_time_ x) v (state_ x) (resource_ x) (last_state_ x)
    (state_since_ x) (last_event_ x) (last_event_at_ x) (generator_key_ x) (event_stats_ x)
    (message_stats_ x) (message_drop_level_ x) (conn_session_ x) (admin_down_ x) (is_deleted_ x)
    (sessions x) (deleted_sessions x) (managed_deletes x) (calls x) (clock x).
Definition set_state v (x : t) : t :=
  Mk (queue_ x) (count_ x) (disabled x) (high_watermarks x) (low_watermarks x) (session_ x)
    (timer_running x) (idle_hold_time_ x) (deleted_ x) v (resource_ x) (last_state_ x)
    (state_since_ x) (last_event_ x) (last_event_at_ x) (generator_key_ x) (event_stats_ x)
    (message_stats_ x) (message_drop_level_ x) (conn_session_ x) (admin_down_ x) (is_deleted_ x)
    (sessions x) (deleted_sessions x) (managed_deletes x) (calls x) (clock x).
Definition set_resource v (x : t) : t :=
  Mk (queue_ x) (count_ x) (disabled x) (high_watermarks x) (low_watermarks x) (session_ x)
    (timer_running x) (idle_hold_time_ x) (deleted_ x) (state_ x) v (last_state_ x)
    (state_since_ x) (last_event_ x) (last_event_at_ x) (generator_key_ x) (event_stats_ x)
    (message_stats_ x) (message_drop_level_ x) (conn_session_ x) (admin_down_ x) (is_deleted_ x)
    (sessions x) (deleted_sessions x) (managed_deletes x) (calls x) (clock x).
Definition set_last_state v (x : t) : t :=
  Mk (queue_ x) (count_ x) (disabled x) (high_watermarks x) (low_watermarks x) (session_ x)
    (timer_running x) (idle_hold_time_ x) (deleted_ x) (state_ x) (resource_ x) v (state_since_ x)
    (last_event_ x) (last_event_at_ x) (generator_key_ x) (event_stats_ x) (message_stats_ x)
    (message_drop_level_ x) (conn_session_ x) (admin_down_ x) (is_deleted_ x) (sessions x)
    (deleted_sessions x) (managed_deletes x) (calls x) (clock x).
Definition set_state_since v (x : t) : t :=
  Mk (queue_ x) (count_ x) (disabled x) (high_watermarks x) (low_watermarks x) (session_ x)
    (timer_running x) (idle_hold_time_ x) (deleted_ x) (state_ x) (resource_ x) (last_state_ x) v
    (last_event_ x) (last_event_at_ x) (generator_key_ x) (event_stats_ x) (message_stats_ x)
    (message_drop_level_ x) (conn_session_ x) (admin_down_ x) (is_deleted_ x) (sessions x)
    (deleted_sessions x) (managed_deletes x) (calls x) (clock x).
Definition set_last_event v (x : t) : t :=
  Mk (queue_ x) (count_ x) (disabled x) (high_watermarks x) (low_watermarks x) (session_ x)
    (timer_running x) (idle_hold_time_ x) (deleted_ x) (state_ x) (resource_ x) (last_state_ x)
    (state_since_ x) v (last_event_at_ x) (generator_key_ x) (event_stats_ x) (message_stats_ x)
    (message_drop_level_ x) (conn_session_ x) (admin_down_ x) (is_deleted_ x) (sessions x)
    (deleted_sessions x) (managed_deletes x) (calls x) (clock x).
Definition set_last_event_at v (x : t) : t :=
  Mk (queue_ x) (count_ x) (disabled x) (high_watermarks x) (low_watermarks x) (session_ x)
    (timer_running x) (idle_hold_time_ x) (deleted_ x) (state_ x) (resource_ x) (last_state_ x)
    (state_since_ x) (last_event_ x) v (generator_key_ x) (event_stats_ x) (message_stats_ x)
    (message_drop_level_ x) (conn_session_ x) (admin_down_ x) (is_deleted_ x) (sessions x)
    (deleted_sessions x) (managed_deletes x) (calls x) (clock x).
Definition set_generator_key v (x : t) : t :=
  Mk (queue_ x) (count_ x) (disabled x) (high_watermarks x) (low_watermarks x) (session_ x)
    (timer_running x) (idle_hold_time_ x) (deleted_ x) (state_ x) (resource_ x) (last_state_ x)
    (state_since_ x) (last_event_ x) (last_event_at_ x) v (event_stats_ x) (message_stats_ x)
    (message_drop_level_ x) (conn_session_ x) (admin_down_ x) (is_deleted_ x) (sessions x)
    (deleted_sessions x) (managed_deletes x) (calls x) (clock x).
Definition set_event_stats v (x : t) : t :=
  Mk (queue_ x) (count_ x) (disabled x) (high_watermarks x) (low_watermarks x) (session_ x)
    (timer_running x) (idle_hold_time_ x) (deleted_ x) (state_ x) (resource_ x) (last_state_ x)
    (state_since_ x) (last_event_ x) (last_event_at_ x) (generator_key_ x) v (message_stats_ x)
    (message_drop_level_ x) (conn_session_ x) (admin_down_ x) (is_deleted_ x) (sessions x)
    (deleted_sessions x) (managed_deletes x) (calls x) (clock x).
Definition set_message_stats v (x : t) : t :=
  Mk (queue_ x) (count_ x) (disabled x) (high_watermarks x) (low_watermarks x) (session_ x)
    (timer_running x) (idle_hold_time_ x) (deleted_ x) (state_ x) (resource_ x) (last_state_ x)
    (state_since_ x) (last_event_ x) (last_event_at_ x) (generator_key_ x) (event_stats_ x) v
    (message_drop_level_ x) (conn_session_ x) (admin_down_ x) (is_deleted_ x) (sessions x)
    (deleted_sessions x) (managed_deletes x) (calls x) (clock x).
Definition set_message_drop_level v (x : t) : t :=
  Mk (queue_ x) (count_ x) (disabled x) (high_watermarks x) (low_watermarks x) (session_ x)
    (timer_running x) (idle_hold_time_ x) (deleted_ x) (state_ x) (resource_ x) (last_state_ x)
    (state_since_ x) (last_event_ x) (last_event_at_ x) (generator_key_ x) (event_stats_ x)
    (message_stats_ x) v (conn_session_ x) (admin_down_ x) (is_deleted_ x) (sessions x)
    (deleted_sessions x) (managed_deletes x) (calls x) (clock x).
Definition set_conn_session v (x : t) : t :=
  Mk (queue_ x) (count_ x) (disabled x) (high_watermarks x) (low_watermarks x) (session_ x)
    (timer_running x) (idle_hold_time_ x) (deleted_ x) (state_ x) (resource_ x) (last_state_ x)
    (state_since_ x) (last_event_ x) (last_event_at_ x) (generator_key_ x) (event_stats_ x)
    (message_stats_ x) (message_drop_level_ x) v (admin_down_ x) (is_deleted_ x) (sessions x)
    (deleted_sessions x) (managed_deletes x) (calls x) (clock x).
Definition set_admin_down v (x : t) : t :=
  Mk (queue_ x) (count_ x) (disabled x) (high_watermarks x) (low_watermarks x) (session_ x)
    (timer_running x) (idle_hold_time_ x) (deleted_ x) (state_ x) (resource_ x) (last_state_ x)
    (state_since_ x) (last_event_ x) (last_event_at_ x) (generator_key_ x) (event_stats_ x)
    (message_stats_ x) (message_drop_level_ x) (conn_session_ x) v (is_deleted_ x) (sessions x)
    (deleted_sessions x) (managed_deletes x) (calls x) (clock x).
Definition set_is_deleted v (x : t) : t :=
  Mk (queue_ x) (count_ x) (disabled x) (high_watermarks x) (low_watermarks x) (session_ x)
    (timer_running x) (idle_hold_time_ x) (deleted_ x) (state_ x) (resource_ x) (last_state_ x)
    (state_since_ x) (last_event_ x) (last_event_at_ x) (generator_key_ x) (event_stats_ x)
    (message_stats_ x) (message_drop_level_ x) (conn_session_ x) (admin_down_ x) v (sessions x)
    (deleted_sessions x) (managed_deletes x) (calls x) (clock x).
Definition set_sessions v (x : t) : t :=
  Mk (queue_ x) (count_ x) (disabled x) (high_watermarks x) (low_watermarks x) (session_ x)
    (timer_running x) (idle_hold_time_ x) (deleted_ x) (state_ x) (resource_ x) (last_state_ x)
    (state_since_ x) (last_event_ x) (last_event_at_ x) (generator_key_ x) (event_stats_ x)
    (message_stats_ x) (message_drop_level_ x) (conn_session_ x) (admin_down_ x) (is_deleted_ x) v
    (deleted_sessions x) (managed_deletes x) (calls x) (clock x).
Definition set_deleted_sessions v (x : t) : t :=
  Mk (queue_ x) (count_ x) (disabled x) (high_watermarks x) (low_watermarks x) (session_ x)
    (timer_running x) (idle_hold_time_ x) (deleted_ x) (state_ x) (resource_ x) (last_state_ x)
    (state_since_ x) (last_event_ x) (last_event_at_ x) (generator_key_ x) (event_stats_ x)
    (message_stats_ x) (message_drop_level_ x) (conn_session_ x) (admin_down_ x) (is_deleted_ x)
    (sessions x) v (managed_deletes x) (calls x) (clock x).
Definition set_managed_deletes v (x : t) : t :=
  Mk (queue_ x) (count_ x) (disabled x) (high_watermarks x) (low_watermarks x) (session_ x)
    (timer_running x) (idle_hold_time_ x) (deleted_ x) (state_ x) (resource_ x) (last_state_ x)
    (state_since_ x) (last_event_ x) (last_event_at_ x) (generator_key_ x) (event_stats_ x)
    (message_stats_ x) (message_drop_level_ x) (conn_session_ x) (admin_down_ x) (is_deleted_ x)
    (sessions x) (deleted_sessions x) v (calls x) (clock x).
Definition set_calls v (x : t) : t :=
  Mk (queue_ x) (count_ x) (disabled x) (high_watermarks x) (low_watermarks x) (session_ x)
    (timer_running x) (idle_hold_time_ x) (deleted_ x) (state_ x) (resource_ x) (last_state_ x)
    (state_since_ x) (last_event_ x) (last_event_at_ x) (generator_key_ x) (event_stats_ x)
    (message_stats_ x) (message_drop_level_ x) (conn_session_ x) (admin_down_ x) (is_deleted_ x)
    (sessions x) (deleted_sessions x) (managed_deletes x) v (clock x).
Definition set_clock v (x : t) : t :=
  Mk (queue_ x) (count_ x) (disabled x) (high_watermarks x) (low_watermarks x) (session_ x)
    (timer_running x) (idle_hold_time_ x) (deleted_ x) (state_ x) (resource_ x) (last_state_ x)
    (state_since_ x) (last_event_ x) (last_event_at_ x) (generator_key_ x) (event_stats_ x)
    (message_stats_ x) (message_drop_level_ x) (conn_session_ x) (admin_down_ x) (is_deleted_ x)
    (sessions x) (deleted_sessions x) (managed_deletes x) (calls x) v.

Definition kIdleHoldTime : Z := 5000.

Definition state_names (s : SsmState) : string :=
  match s with
  | IDLE => "Idle" | ACTIVE => "Active" | ESTABLISHED => "Established" | SERVER_INIT => "ServerInit"
  end.
Definition StateName (x : t) : string := state_names (state_ x).
Definition LastStateName (x : t) : string := state_names (last_state_ x).

(** ** Statistics and the work queue *)
Definition UpdateEventStats (e : event) (enqueue fail : bool) (x : t) : t :=
  set_event_stats (SandeshEventStatistics.Update (type_name e) enqueue fail (event_stats_ x)) x.
Definition UpdateEventEnqueue (e : event) : t -> t := UpdateEventStats e true false.
Definition UpdateEventDequeue (e : event) : t -> t := UpdateEventStats e false false.
Definition UpdateEventEnqueueFail (e : event) : t -> t := UpdateEventStats e true true.
Definition UpdateEventDequeueFail (e : event) : t -> t := UpdateEventStats e false true.

Definition UpdateRxMsgStats (name : list byte) (size : Z) (x : t) : option t :=
  m ← SandeshMessageStatistics.UpdateRecv (Strings.String.string_of_list_byte name) size (message_stats_ x);
  Some (set_message_stats m x).
Definition UpdateRxMsgFailStats (name : list byte) (size : Z) (r : Rx.type) (x : t) : option t :=
  m ← SandeshMessageStatistics.UpdateRecvFailed (Strings.String.string_of_list_byte name) size r
        (message_stats_ x);
  Some (set_message_stats m x).

Definition GetEvSandeshMessageRecvSize (e : event) : option Z :=
  match e with EvSandeshMessageRecv m => Some (size_ m) | _ => None end.
(** [count_] is a [size_t]. *)
Definition AtomicIncrementQueueCount (e : event) (x : t) : t :=
  match GetEvSandeshMessageRecvSize e with
  | Some n => set_count (u64 (count_ x + n)) x
  | None => set_count (u64 (count_ x + 1)) x
  end.
Definition AtomicDecrementQueueCount (e : event) (x : t) : t :=
  match GetEvSandeshMessageRecvSize e with
  | Some n => set_count (u64 (count_ x + u64 (0 - n))) x
  | None => set_count (u64 (count_ x - 1)) x
  end.

Definition Enqueue (e : event) (x : t) : t :=
  if deleted_ x then x
  else UpdateEventEnqueue e (set_queue (queue_ x ++ [e]) (AtomicIncrementQueueCount e x)).

(** Only the [validate] of [EvTcpClose] has the signature [HasValidate] looks for. *)
Definition validate (e : event) (x : t) : bool :=
  match e with
  | EvTcpClose s => bool_decide (conn_session_ x = s) || bool_decide (session_ x = s)
  | _ => true
  end.

(** ** Sessions *)
Definition on_session (s : sid) (f : SessionInfo -> SessionInfo) (x : t) : option t :=
  i ← sessions x !! s;
  Some (set_sessions (<[s := f i]> (sessions x)) x).

Definition set_observer (v : bool) (i : SessionInfo) : SessionInfo :=
  MkSession v (s_receive_cb i) (s_connection i) (s_closed i) (s_shutdown i) (s_defer_reader i).
(** [set_observer(NULL)], [SetReceiveMsgCb(NULL)], [SetConnection(NULL)], [Close()],
    [Shutdown()]. *)
Definition quiesce (i : SessionInfo) : SessionInfo :=
  MkSession false false false true true (s_defer_reader i).

Definition DeleteSession (s : sid) (x : t) : option t :=
  x ← on_session s quiesce x;
  Some (Enqueue (EvTcpDeleteSession s) x).

Definition set_session_ptr (s : option sid) (x : t) : t := set_session s (set_conn_session s x).

(** [SandeshStateMachine::set_session]. *)
Definition sm_set_session (s : option sid) (x : t) : option t :=
  x ← match session_ x with Some s0 => DeleteSession s0 x | None => Some x end;
  Some (set_session_ptr s x).

Definition clear_session (x : t) : option t :=
  match session_ x with
  | None => Some x
  | Some s => x ← on_session s quiesce x; Some (set_session_ptr None x)
  end.

(** ** Timer *)
Definition StartIdleHoldTimer (x : t) : t :=
  if idle_hold_time_ x <=? 0 then x else set_timer_running true x.
Definition CancelIdleHoldTimer (x : t) : t := set_timer_running false x.
Definition IdleHoldTimerRunning (x : t) : bool := timer_running x.
(** The timer's callback: it is not started again. *)
Definition IdleHoldTimerExpired (x : t) : t := Enqueue EvIdleHoldTimerExpired (set_timer_running false x).

(** ** States *)
Definition sm_set_state (s : SsmState) (x : t) : t :=
  set_state_since (clock x) (set_state s (set_last_state s x)).

Definition enter (s : SsmState) (x : t) : t :=
  match s with
  | ESTABLISHED => set_resource true (sm_set_state ESTABLISHED x)
  | _ => sm_set_state s x
  end.
Definition leave (x : t) : t :=
  match state_ x with
  | IDLE => CancelIdleHoldTimer x
  | ESTABLISHED => set_resource false x
  | ACTIVE | SERVER_INIT => x
  end.
Definition transit (s : SsmState) (x : t) : t := enter s (leave x).

Definition OnIdle (x : t) : option t :=
  let x := set_idle_hold_time (if idle_hold_time_ x =? 0 then kIdleHoldTime else idle_hold_time_ x) x in
  sm_set_session None (CancelIdleHoldTimer x).
(** [TransitToIdle]. *)
Definition transit_to_idle (x : t) : option t :=
  x ← OnIdle (leave x);
  Some (enter IDLE x).

(** [server()->DeleteSession] and [ManagedDelete]. *)
Definition DeleteTcpSession (s : sid) (x : t) : option t :=
  match sessions x !! s with
  | None => None
  | Some _ => Some (set_managed_deletes (S (managed_deletes x))
                (set_deleted_sessions (s :: deleted_sessions x) (set_sessions (delete s (sessions x)) x)))
  end.

Section Reactions.
Context `{!Allocator} `{!Texts}.
(** Parameters: see Message.v; [server_is_sandesh] is the [dynamic_cast] of the
    connection's server, [answers] what the (virtual) server returns to a call after
    the calls before it, [Create] is [builder_->Create]. *)
Variable header_read : M (TXMLProtocol.t TMemoryBuffer.t) (Z * SandeshHeader).
Variable CreateInstance : list byte -> option (M (TXMLProtocol.t TMemoryBuffer.t) Z).
Variable fuel : nat.
Variable server_is_sandesh : bool.
Variable answers : list server_call -> bool.
Variable Create : list byte -> option SandeshMessage.
Variable flow_collection_disabled : bool.

(** *** The connection *)
Definition call (c : server_call) (x : t) : bool * t :=
  let x := set_calls (calls x ++ [c]) x in (answers (calls x), x).

Definition ProcessSandeshCtrlMessage (msg : list byte) (header : SandeshHeader)
    (sandesh_name : list byte) (header_offset : Z) (x : t) : option (bool * t) :=
  if negb server_is_sandesh then Some (false, x)
  else
    ctrl_snh ← DecodeCtrlSandesh CreateInstance msg header sandesh_name header_offset;
    (* a NULL message is dereferenced *)
    if negb ctrl_snh then None
    else Some (call (ReceiveSandeshCtrlMsg (conn_session_ x) sandesh_name) x).

Definition ProcessResourceUpdate (rsc : bool) (x : t) : bool * t :=
  if negb server_is_sandesh then (false, x)
  else call (ReceiveResourceUpdate (conn_session_ x) rsc) x.

Definition ProcessSandeshMessage (msg : SandeshMessage) (resource : bool) (x : t) : bool * t :=
  if negb server_is_sandesh then (false, x)
  else (true, snd (call (ReceiveSandeshMsg (conn_session_ x) msg resource) x)).

Definition ProcessDisconnect (s : option sid) (x : t) : t :=
  if negb server_is_sandesh then x else snd (call (DisconnectSession s) x).

(** [set_session(NULL); return transit<Idle>();] *)
Definition drop_to_idle (x : t) : option t :=
  x ← sm_set_session None x;
  Some (transit IDLE x).

(** *** The reactions of the four states *)
Definition Idle_react (e : event) (x : t) : option t :=
  match e with
  | EvStart =>
      if negb (idle_hold_time_ x =? 0) then Some (StartIdleHoldTimer x) else Some (transit ACTIVE x)
  | EvStop => Some (CancelIdleHoldTimer x)
  | EvIdleHoldTimerExpired => Some (transit ACTIVE x)
  | EvTcpPassiveOpen s => DeleteSession s x
  | EvTcpDeleteSession s => DeleteTcpSession s x
  | _ => Some x
  end.

Definition Active_react (e : event) (x : t) : option t :=
  match e with
  | EvStop => transit_to_idle x
  | EvTcpPassiveOpen s =>
      x ← sm_set_session (Some s) x;
      x ← on_session s (set_observer true) x;
      Some (transit SERVER_INIT x)
  | EvTcpClose _ => drop_to_idle x
  | EvTcpDeleteSession s => DeleteTcpSession s x
  | _ => Some x
  end.

Definition ServerInit_react (e : event) (x : t) : option t :=
  match e with
  | EvStop => transit_to_idle x
  | EvTcpClose _ => drop_to_idle x
  | EvSandeshCtrlMessageRecv msg header msg_type header_offset =>
      '(ok, x) ← ProcessSandeshCtrlMessage msg header msg_type header_offset x;
      if negb ok then drop_to_idle x else Some (transit ESTABLISHED x)
  | EvSandeshMessageRecv msg =>
      let '(ok, x) := ProcessSandeshMessage msg true x in
      if negb ok then drop_to_idle x else Some x
  | EvTcpDeleteSession s => DeleteTcpSession s x
  | _ => Some x
  end.

Definition Established_react (e : event) (x : t) : option t :=
  match e with
  | EvStop => transit_to_idle x
  | EvTcpClose _ => drop_to_idle (ProcessDisconnect (session_ x) x)
  | EvSandeshMessageRecv msg =>
      let '(ok, x) := ProcessSandeshMessage msg (resource_ x) x in
      if negb ok then drop_to_idle x else Some x
  | EvTcpDeleteSession s => DeleteTcpSession s x
  | EvResourceUpdate rsc =>
      let '(ok, x) := ProcessResourceUpdate rsc (set_resource rsc x) in
      if negb ok then drop_to_idle x else Some x
  | _ => Some x
  end.

Definition process_event (e : event) (x : t) : option t :=
  match state_ x with
  | IDLE => Idle_react e x
  | ACTIVE => Active_react e x
  | SERVER_INIT => ServerInit_react e x
  | ESTABLISHED => Established_react e x
  end.

Definition sm_set_last_event (n : string) (x : t) : t := set_last_event_at (clock x) (set_last_event n x).

(** [DequeueEvent], called by the work queue with the event it took off. *)
Definition DequeueEvent (e : event) (x : t) : option t :=
  if deleted_ x then Some x
  else
    let x := sm_set_last_event (type_name e) x in
    if validate e x then process_event e (UpdateEventDequeue e x)
    else Some (UpdateEventDequeueFail e x).

(** *** Messages from a session *)
Definition OnSandeshMessage (msg : list byte) (x : t) : option (bool * t) :=
  match Create msg with
  | None => x ← UpdateRxMsgFailStats [] (zlen msg) Rx.DecodingFailed x; Some (false, x)
  | Some xmessage =>
      let header := header_ xmessage in
      let message_type := message_type_ xmessage in
      if DoDropSandeshMessage flow_collection_disabled header (message_drop_level_ x) then
        x ← UpdateRxMsgFailStats message_type (zlen msg) Rx.QueueLevel x; Some (true, x)
      else if has_control_hint header then
        r ← ExtractMsgHeader header_read fuel msg;
        match r with
        | inl _ =>
            x ← UpdateRxMsgFailStats message_type (zlen msg) Rx.ControlMsgFailed x; Some (false, x)
        | inr (ctrl_header, ctrl_message_type, ctrl_xml_offset) =>
            if negb (bool_decide (header = ctrl_header)) ||
               negb (bool_decide (message_type = ctrl_message_type)) then
              x ← UpdateRxMsgFailStats message_type (zlen msg) Rx.ControlMsgFailed x; Some (false, x)
            else
              x ← UpdateRxMsgStats message_type (zlen msg) x;
              Some (true, Enqueue (EvSandeshCtrlMessageRecv msg ctrl_header ctrl_message_type
                                     ctrl_xml_offset) x)
        end
      else
        x ← UpdateRxMsgStats message_type (zlen msg) x;
        Some (true, Enqueue (EvSandeshMessageRecv xmessage) x)
  end.

(** *** Entry points *)
Definition Initialize (x : t) : t := Enqueue EvStart x.
Definition Shutdown (x : t) : t := Enqueue EvStop x.
Definition reset_last_info (x : t) : t := set_last_event EmptyString (set_last_state IDLE x).
Definition SetAdminState (down : bool) (x : t) : t :=
  if down then Enqueue EvStop x
  else Enqueue EvStart (reset_last_info (set_idle_hold_time 0 x)).
Definition ResourceUpdate (rsc : bool) (x : t) : t := Enqueue (EvResourceUpdate rsc) x.

Inductive tcp_event := CLOSE | ACCEPT | other_event.
Definition OnSessionEvent (s : option sid) (ev : tcp_event) (x : t) : t :=
  match ev with CLOSE => Enqueue (EvTcpClose s) x | ACCEPT | other_event => x end.

Definition PassiveOpen (s : sid) (x : t) : option t :=
  x ← on_session s (set_observer true) x;
  Some (Enqueue (EvTcpPassiveOpen s) x).

Definition SetSandeshMessageDropLevel (level : Z) (cb : option bool) (x : t) : option t :=
  let x := if negb (message_drop_level_ x =? level) then set_message_drop_level level x else x in
  match cb with
  | None => Some x
  | Some defer =>
      match session_ x with
      | None => Some x
      | Some s => on_session s (fun i => MkSession (s_observer i) (s_receive_cb i) (s_connection i)
                    (s_closed i) (s_shutdown i) defer) x
      end
  end.

Definition SetQueueWaterMarkInfo (queue_count level : Z) (high defer_undefer : bool) (x : t) : t :=
  if high then
    set_high_watermarks (MkWaterMark queue_count level (if defer_undefer then Some true else None)
                           :: high_watermarks x) x
  else
    set_low_watermarks (MkWaterMark queue_count level (if defer_undefer then Some false else None)
                          :: low_watermarks x) x.
Definition ResetQueueWaterMarkInfo (x : t) : t := set_low_watermarks [] (set_high_watermarks [] x).
Definition SetDeferDequeue (d : bool) (x : t) : t := set_disabled d x.

Definition IsValid (x : t) : bool := negb (deleted_ x) && negb (bool_decide (generator_key_ x = EmptyString)).
Definition GetMessageDropLevel (x : t) : option Z :=
  if deleted_ x || bool_decide (generator_key_ x = EmptyString) then None
  else Some (message_drop_level_ x).

(** *** [SandeshConnection] *)
Definition conn_AcceptSession (s : sid) (x : t) : option t :=
  x ← on_session s (fun i => MkSession (s_observer i) true true (s_closed i) (s_shutdown i)
                      (s_defer_reader i)) x;
  PassiveOpen s x.
Definition conn_SetAdminState (down : bool) (x : t) : t :=
  if Bool.eqb (admin_down_ x) down then x else SetAdminState down (set_admin_down down x).
(** [SendSandesh]: whether the message goes to the session's send queue. *)
Definition conn_SendSandesh (x : t) : bool :=
  match conn_session_ x with
  | None => false
  | Some _ => bool_decide (state_ x = SERVER_INIT) || bool_decide (state_ x = ESTABLISHED)
  end.
(** [SandeshServerConnection::DeleteActor::Shutdown]. *)
Definition DeleteActor_Shutdown (x : t) : option t :=
  let session := session_ x in
  x ← clear_session x;
  x ← match session with
      | None => Some x
      | Some s => match sessions x !! s with
                  | None => None
                  | Some _ => Some (set_deleted_sessions (s :: deleted_sessions x)
                                      (set_sessions (delete s (sessions x)) x))
                  end
      end;
  Some (set_is_deleted true x).

(** [~SandeshStateMachine]: the assertions, [work_queue_.Shutdown()] with what is
    queued, [terminate()], which leaves the state, and the timer. *)
Definition destroy (x : t) : option t :=
  if deleted_ x then None
  else
    let x := set_queue [] (set_deleted true x) in
    match session_ x with
    | Some _ => None
    | None => Some (set_timer_running false (leave x))
    end.

(** The constructor, with [initiate()] entering [Idle]. *)
Definition init (now : Z) : t :=
  enter IDLE
    (Mk [] 0 false [] [] None false 0 false IDLE false IDLE 0 EmptyString 0 EmptyString
        SandeshEventStatistics.init SandeshMessageStatistics.init SandeshLevel_INVALID
        None false false ∅ [] 0 [] now).

(** ** Everything that can happen *)
Inductive input :=
  | InInitialize | InShutdown | InAdmin (down : bool)
  | InAccept (s : sid)
  | InSession (s : sid) (ev : tcp_event)
  | InMessage (s : sid) (msg : list byte)
  | InResource (rsc : bool)
  | InDequeue
  | InTimer
  | InSetWaterMark (queue_count level : Z) (high defer_undefer : bool)
  | InResetWaterMarks
  | InWaterMark (i : nat) (high : bool)
  | InDeferDequeue (d : bool)
  | InDelete
  | InClock (now : Z).

(** A session accepted is a new one; a session speaks while it is alive; the queue
    runs unless it is disabled; the timer fires while it runs; the work queue calls
    back a watermark that is set. *)
Definition step (i : input) (x : t) : option t :=
  match i with
  | InInitialize => Some (Initialize x)
  | InShutdown => Some (Shutdown x)
  | InAdmin down => Some (conn_SetAdminState down x)
  | InAccept s =>
      if bool_decide (s ∈ dom (sessions x)) || bool_decide (s ∈ deleted_sessions x) then Some x
      else conn_AcceptSession s
             (set_sessions (<[s := MkSession false false false false false false]> (sessions x)) x)
  | InSession s ev =>
      if bool_decide (s ∈ dom (sessions x)) then Some (OnSessionEvent (Some s) ev x) else Some x
  | InMessage s msg =>
      if bool_decide (s ∈ dom (sessions x)) then '(_, x) ← OnSandeshMessage msg x; Some x else Some x
  | InResource rsc => Some (ResourceUpdate rsc x)
  | InDequeue =>
      if disabled x then Some x
      else match queue_ x with
           | [] => Some x
           | e :: q => DequeueEvent e (set_queue q (AtomicDecrementQueueCount e x))
           end
  | InTimer => if timer_running x then Some (IdleHoldTimerExpired x) else Some x
  | InSetWaterMark n l h d => Some (SetQueueWaterMarkInfo n l h d x)
  | InResetWaterMarks => Some (ResetQueueWaterMarkInfo x)
  | InWaterMark i high =>
      match (if high then high_watermarks x else low_watermarks x) !! i with
      | None => Some x
      | Some wm => SetSandeshMessageDropLevel (wm_level wm) (wm_cb wm) x
      end
  | InDeferDequeue d => Some (SetDeferDequeue d x)
  | InDelete => DeleteActor_Shutdown x
  | InClock now => Some (set_clock now x)
  end.

Inductive reachable : t -> Prop :=
  | reachable_init now : reachable (init now)
  | reachable_step i x y : reachable x -> step i x = Some y -> reachable y.

Fixpoint run (ins : list input) (x : t) : option t :=
  match ins with
  | [] => Some x
  | i :: ins => x ← step i x; run ins x
  end.

End Reactions.
End ServerSM.
