(* ===== verification/ServerSMSpec.v ===== *)
(** * Properties of the server's state machine

    Ownership of sessions (no session is used after it was deleted, none is deleted
    twice), the fit of state and session, and the balance of the queue's counters,
    for every sequence of inputs. *)

From S2P Require Import Prelude Transport Statistics Protocol Xml Message ServerSM.
Import ServerSM.
Local Open Scope Z_scope.

Module ServerSpec.

(** ** Ownership *)

(** The sessions the machine still has to deal with: waiting to be opened, current,
    or waiting to be deleted. *)
Definition open_of (e : event) : list sid := match e with EvTcpPassiveOpen s => [s] | _ => [] end.
Definition delete_of (e : event) : list sid := match e with EvTcpDeleteSession s => [s] | _ => [] end.
Definition hand (e : event) : list sid := open_of e ++ delete_of e.
Definition owned (x : t) : list sid :=
  concat (hand <$> queue_ x) ++ match session_ x with Some s => [s] | None => [] end.

Definition agg (x : t) : SandeshEventStatistics.EvStats := SandeshEventStatistics.agg_stats_ (event_stats_ x).
Definition weight (e : event) : Z := default 1 (GetEvSandeshMessageRecvSize e).
Definition weights (q : list event) : Z := foldr (fun e n => weight e + n) 0 q.

(** Every event enqueued is in the queue or was dequeued, and [count_] is the weight
    of the queue, modulo the width of the counters. *)
Definition balanced (x : t) : Prop :=
  u64 (SandeshEventStatistics.enqueues (agg x)) =
    u64 (SandeshEventStatistics.dequeues (agg x) + SandeshEventStatistics.dequeue_fails (agg x) +
         zlen (queue_ x)) /\
  u64 (count_ x) = u64 (weights (queue_ x)) /\ deleted_ x = false.

(** Sessions owned, or in the hand [h] of the event being processed, are alive and
    owned once; sessions deleted were deleted once and are not alive. *)
Definition safe (h : list sid) (x : t) : Prop :=
  NoDup (h ++ owned x) /\ (forall s, s ∈ h ++ owned x -> s ∈ dom (sessions x)) /\
  NoDup (deleted_sessions x) /\ (forall s, s ∈ deleted_sessions x -> s ∉ dom (sessions x)) /\
  balanced x.

(** The fields sessions and events do not touch. *)
Definition frame (x : t) := (state_ x, resource_ x, timer_running x, is_deleted_ x, last_state_ x, calls x).

Lemma safe_weaken s h x : safe (s :: h) x -> safe h x.
Proof.
  intros (Hn&Hl&?). apply list.NoDup_cons in Hn as [_ Hn]. split; [done|]. split; [|done].
  intros s' Hs'. apply Hl. rewrite <- app_comm_cons. by right.
Qed.

Lemma u64_add_congr a b c d : u64 a = u64 b -> u64 c = u64 d -> u64 (a + c) = u64 (b + d).
Proof. unfold wrapU. intros E1 E2. rewrite Z.add_mod, E1, E2, <- Z.add_mod by lia. done. Qed.
Lemma u64_idem a : u64 (u64 a) = u64 a.
Proof. unfold wrapU. by rewrite Z.mod_mod. Qed.

(** ** The primitive operations *)
Lemma weights_app q e : weights (q ++ [e]) = weights q + weight e.
Proof. induction q as [|e' q IH]; simpl; [lia|]. rewrite IH. lia. Qed.

Lemma balanced_Enqueue e x : balanced x -> balanced (Enqueue e x) /\ queue_ (Enqueue e x) = queue_ x ++ [e].
Proof.
  intros (He&Hc&Hd). unfold Enqueue. rewrite Hd.
  assert (count_ (AtomicIncrementQueueCount e x) = u64 (count_ x + weight e)) as Ec.
  { unfold AtomicIncrementQueueCount, weight. by destruct (GetEvSandeshMessageRecvSize e). }
  assert (agg (set_queue (queue_ x ++ [e]) (AtomicIncrementQueueCount e x)) = agg x) as Ea.
  { unfold AtomicIncrementQueueCount. by destruct (GetEvSandeshMessageRecvSize e). }
  assert (queue_ (AtomicIncrementQueueCount e x) = queue_ x /\ deleted_ (AtomicIncrementQueueCount e x) = deleted_ x)
    as [Eq Ed].
  { unfold AtomicIncrementQueueCount. by destruct (GetEvSandeshMessageRecvSize e). }
  split; [|done]. split; [|split].
  - unfold UpdateEventEnqueue, UpdateEventStats, agg. cbn.
    change (SandeshEventStatistics.agg_stats_ (event_stats_ (AtomicIncrementQueueCount e x)))
      with (agg (set_queue (queue_ x ++ [e]) (AtomicIncrementQueueCount e x))). rewrite Ea, length_app, u64_idem.
    replace (SandeshEventStatistics.dequeues (agg x) + SandeshEventStatistics.dequeue_fails (agg x) +
      Z.of_nat (length (queue_ x) + length [e]))
      with (SandeshEventStatistics.dequeues (agg x) + SandeshEventStatistics.dequeue_fails (agg x) +
            zlen (queue_ x) + 1) by (simpl; lia).
    by apply u64_add_congr.
  - cbn. rewrite Ec, weights_app, u64_idem. by apply u64_add_congr.
  - cbn. by rewrite Ed.
Qed.

(** What [Enqueue] leaves alone. *)
Lemma Enqueue_frame e x :
  frame (Enqueue e x) = frame x /\ session_ (Enqueue e x) = session_ x /\
  conn_session_ (Enqueue e x) = conn_session_ x /\ sessions (Enqueue e x) = sessions x /\
  deleted_sessions (Enqueue e x) = deleted_sessions x.
Proof.
  unfold Enqueue, AtomicIncrementQueueCount. destruct (deleted_ x); [done|].
  by destruct (GetEvSandeshMessageRecvSize e).
Qed.

Lemma owned_Enqueue e x : balanced x -> owned (Enqueue e x) ≡ₚ hand e ++ owned x.
Proof.
  intros Hb. destruct (balanced_Enqueue e x Hb) as [_ Eq].
  destruct (Enqueue_frame e x) as (_&Es&_). unfold owned. rewrite Eq, Es, fmap_app, concat_app.
  cbn [fmap list_fmap concat]. rewrite app_nil_r, <- app_assoc. solve_Permutation.
Qed.

(** Enqueueing passes the event's session from the hand to the queue. *)
Lemma safe_Enqueue e h x : safe (hand e ++ h) x -> safe h (Enqueue e x).
Proof.
  intros (Hn&Hl&Hd&Hda&Hb). pose proof (owned_Enqueue e x Hb) as Hp.
  destruct (balanced_Enqueue e x Hb) as [Hb' _]. destruct (Enqueue_frame e x) as (_&_&_&Es&Ed).
  assert (h ++ owned (Enqueue e x) ≡ₚ (hand e ++ h) ++ owned x) as Hperm by (rewrite Hp; solve_Permutation).
  split; [by rewrite Hperm|]. split; [|by rewrite Ed, Es].
  intros s. rewrite Hperm, Es. apply Hl.
Qed.

Lemma safe_on_session h x s f :
  safe h x -> s ∈ dom (sessions x) ->
  exists y, on_session s f x = Some y /\ safe h y /\ frame y = frame x /\ session_ y = session_ x /\
    conn_session_ y = conn_session_ x /\ dom (sessions y) = dom (sessions x).
Proof.
  intros Hs Hdom. apply elem_of_dom in Hdom as [i Hi]. unfold on_session. rewrite Hi. cbn [mbind option_bind].
  assert (dom (<[s:=f i]> (sessions x)) = dom (sessions x)) as Ed.
  { apply dom_insert_lookup_L. by eexists. }
  eexists. split; [done|]. split; [|done].
  destruct Hs as (Hn&Hl&Hd&Hda&Hb). split; [done|]. cbn. rewrite Ed. done.
Qed.

Lemma safe_DeleteSession h x s :
  safe (s :: h) x ->
  exists y, DeleteSession s x = Some y /\ safe h y /\ frame y = frame x /\ session_ y = session_ x /\
    conn_session_ y = conn_session_ x.
Proof.
  intros Hs. destruct (safe_on_session (s :: h) x s quiesce Hs) as (y&E&Hy&Hf&Es&Ec&_).
  { destruct Hs as (_&Hl&_). apply Hl. by left. }
  unfold DeleteSession. rewrite E. cbn [mbind option_bind]. eexists. split; [done|].
  destruct (Enqueue_frame (EvTcpDeleteSession s) y) as (Ef&Es'&Ec'&_&_).
  split; [by apply safe_Enqueue|]. by rewrite Ef, Es', Ec'.
Qed.

(** Changing the current session passes it between the hand and the machine. *)
Lemma safe_set_session_ptr h x o s0 :
  session_ x = s0 ->
  safe (match o with Some s => [s] | None => [] end ++ h) x ->
  safe (match s0 with Some s => [s] | None => [] end ++ h) (set_session_ptr o x).
Proof.
  intros <- (Hn&Hl&?). unfold owned in *.
  assert ((match session_ x with Some s => [s] | None => [] end ++ h) ++
    concat (hand <$> queue_ x) ++ match o with Some s => [s] | None => [] end ≡ₚ
    (match o with Some s => [s] | None => [] end ++ h) ++
    concat (hand <$> queue_ x) ++ match session_ x with Some s => [s] | None => [] end) as Hp
    by solve_Permutation.
  split; [cbn; by rewrite Hp|]. split; [|done]. intros s. cbn. rewrite Hp. apply Hl.
Qed.

Lemma DeleteSession_set_session_ptr s o x :
  DeleteSession s (set_session_ptr o x) = (y ← DeleteSession s x; Some (set_session_ptr o y)).
Proof.
  unfold DeleteSession, on_session. cbn. destruct (sessions x !! s) as [i|]; [|done]. cbn. f_equal.
  unfold Enqueue, AtomicIncrementQueueCount. cbn. by destruct (deleted_ x).
Qed.

Lemma safe_sm_set_session h x o :
  safe (match o with Some s => [s] | None => [] end ++ h) x ->
  exists y, sm_set_session o x = Some y /\ safe h y /\ frame y = frame x /\ session_ y = o /\
    conn_session_ y = o.
Proof.
  intros Hs. unfold sm_set_session. destruct (session_ x) as [s0|] eqn:Es.
  - (* the current session moves through the hand to the queue *)
    assert (safe (s0 :: h) (set_session_ptr o x)) as Hs' by (by apply (safe_set_session_ptr h x o (Some s0))).
    destruct (safe_DeleteSession h (set_session_ptr o x) s0 Hs') as (y&E&Hy&Hf&Esy&Ecy).
    rewrite DeleteSession_set_session_ptr in E. exists y. by rewrite E.
  - cbn [mbind option_bind]. eexists. split; [done|]. split; [|done].
    by apply (safe_set_session_ptr h x o None).
Qed.

Lemma safe_DeleteTcpSession h x s :
  safe (s :: h) x ->
  exists y, DeleteTcpSession s x = Some y /\ safe h y /\ frame y = frame x /\ session_ y = session_ x /\
    conn_session_ y = conn_session_ x.
Proof.
  intros (Hn&Hl&Hd&Hda&Hb). unfold DeleteTcpSession.
  assert (s ∈ dom (sessions x)) as Hdom by (apply Hl; by left).
  pose proof Hdom as [i Hi]%elem_of_dom. rewrite Hi. eexists. split; [done|]. split; [|done].
  rewrite <- app_comm_cons in Hn. apply list.NoDup_cons in Hn as [Hns Hn]. split; [done|].
  split; [|split; [|split; [|done]]]; cbn.
  - intros s' Hs'. apply elem_of_dom. rewrite lookup_delete_ne; [apply elem_of_dom, Hl; by right|].
    intros <-. by apply Hns.
  - apply list.NoDup_cons. split; [|done]. intros Hin. by apply (Hda s Hin).
  - intros s' [->|Hin]%elem_of_cons; rewrite dom_delete_L; [set_solver|]. specialize (Hda s' Hin). set_solver.
Qed.

(** Reactions that touch neither sessions nor queue. *)
Lemma safe_same h x y :
  safe h x -> queue_ y = queue_ x -> session_ y = session_ x -> sessions y = sessions x ->
  deleted_sessions y = deleted_sessions x -> event_stats_ y = event_stats_ x -> count_ y = count_ x ->
  deleted_ y = deleted_ x -> safe h y.
Proof.
  intros Hs Eq Es Ess Ed Ee Ec Edd. unfold safe, owned, balanced, agg in *.
  by rewrite Eq, Es, Ess, Ed, Ee, Ec, Edd.
Qed.

(** ** State and session fit *)
Definition shape (x : t) : Prop :=
  conn_session_ x = session_ x /\
  (session_ x <> None -> state_ x = SERVER_INIT \/ state_ x = ESTABLISHED) /\
  (is_deleted_ x = false -> state_ x = SERVER_INIT \/ state_ x = ESTABLISHED -> session_ x <> None) /\
  (resource_ x = true -> state_ x = ESTABLISHED) /\
  (timer_running x = true -> state_ x = IDLE).

Definition inv (h : list sid) (x : t) : Prop := safe h x /\ shape x.

Lemma transit_same s x :
  let y := transit s x in
  queue_ y = queue_ x /\ session_ y = session_ x /\ conn_session_ y = conn_session_ x /\
  sessions y = sessions x /\ deleted_sessions y = deleted_sessions x /\ event_stats_ y = event_stats_ x /\
  count_ y = count_ x /\ deleted_ y = deleted_ x /\ is_deleted_ y = is_deleted_ x /\
  state_ y = s /\ last_state_ y = s.
Proof. unfold transit, leave. destruct (state_ x), s; done. Qed.

Lemma safe_transit h s x : safe h x -> safe h (transit s x).
Proof.
  intros Hs. pose proof (transit_same s x) as (?&?&_&?&?&?&?&?&_). by eapply safe_same.
Qed.

(** Leaving a state gives up what belongs to it. *)
Lemma transit_flags s x :
  shape x ->
  (resource_ (transit s x) = true -> s = ESTABLISHED) /\
  (timer_running (transit s x) = true -> False).
Proof.
  intros (_&_&_&Hr&Ht). unfold transit, leave.
  destruct (state_ x) eqn:E, s; cbn; split; intros H; try done;
    first [apply Hr in H | apply Ht in H]; congruence.
Qed.

Lemma shape_transit s x :
  shape x -> (session_ x <> None <-> s = SERVER_INIT \/ s = ESTABLISHED) -> shape (transit s x).
Proof.
  intros Hs Hiff. destruct (transit_flags s x Hs) as [Hr Ht].
  pose proof (transit_same s x) as (_&E1&E2&_&_&_&_&_&_&E4&_). destruct Hs as (Hc&_).
  unfold shape. rewrite E1, E2, E4. split; [done|]. split; [by apply Hiff|].
  split; [by intros _ ?; apply Hiff|]. split; [done|]. by intros ?%Ht.
Qed.

(** [set_session(NULL); transit<Idle>()] from any state. *)
Lemma inv_drop_to_idle x :
  inv [] x -> exists y, drop_to_idle x = Some y /\ inv [] y /\ state_ y = IDLE /\ session_ y = None.
Proof.
  intros [Hs (Hc&Hse&Hse'&Hr&Ht)]. destruct (safe_sm_set_session [] x None Hs) as (y&E&Hy&Hf&Es&Ec).
  unfold drop_to_idle. rewrite E. cbn [mbind option_bind]. injection Hf as Ef1 Ef2 Ef3 Ef4 Ef5 _.
  pose proof (transit_same IDLE y) as (_&Et&_&_&_&_&_&_&_&Est&_).
  exists (transit IDLE y). split; [done|]. split; [|by rewrite Est, Et, Es].
  split; [by apply safe_transit|].
  destruct (transit_flags IDLE (set_session_ptr (session_ x) y)) as [Hr' Ht'].
  { unfold shape. cbn. rewrite Ef1, Ef2, Ef3, Ef4. done. }
  assert (resource_ (transit IDLE (set_session_ptr (session_ x) y)) = resource_ (transit IDLE y) /\
          timer_running (transit IDLE (set_session_ptr (session_ x) y)) = timer_running (transit IDLE y))
    as [Er Eti] by (unfold transit, leave; cbn; by destruct (state_ y)).
  rewrite Er in Hr'. rewrite Eti in Ht'.
  pose proof (transit_same IDLE y) as (_&E1&E2&_&_&_&_&_&_&E4&_).
  unfold shape. rewrite E1, E2, E4, Es, Ec. split; [done|]. split; [done|]. split; [by intros _ [?|?]|].
  split; [by intros ?%Hr'|done].
Qed.

Lemma leave_same x :
  let y := leave x in
  queue_ y = queue_ x /\ session_ y = session_ x /\ sessions y = sessions x /\
  deleted_sessions y = deleted_sessions x /\ event_stats_ y = event_stats_ x /\
  count_ y = count_ x /\ deleted_ y = deleted_ x.
Proof. unfold leave. by destruct (state_ x). Qed.
Lemma leave_flags x : shape x -> resource_ (leave x) = false.
Proof.
  intros (_&_&_&Hr&_). unfold leave.
  destruct (state_ x) eqn:E, (resource_ x) eqn:Er; cbn; try done; by specialize (Hr eq_refl).
Qed.

(** The transition of [EvStop]: leave, [OnIdle], enter. *)
Lemma inv_transit_to_idle x :
  inv [] x -> exists y, transit_to_idle x = Some y /\ inv [] y /\ state_ y = IDLE /\ session_ y = None.
Proof.
  intros [Hs Hsh]. pose proof (leave_flags x Hsh) as Hr. unfold transit_to_idle, OnIdle.
  destruct (leave_same x) as (?&?&?&?&?&?&?).
  edestruct (safe_sm_set_session []) as (y&E&Hy&Hf&Es&Ec);
    [|rewrite E; cbn [mbind option_bind]]; [by eapply safe_same|].
  eexists. split; [done|]. injection Hf as _ Ef2 Ef3 _ _ _. cbn in Ef3.
  rewrite Hr in Ef2. cbn in *. split; [|done]. split; [by eapply safe_same|].
  unfold shape. cbn. rewrite Es, Ec, Ef2, Ef3. naive_solver.
Qed.

(** ** Reactions *)
Section Reactions.
Context `{!Allocator} `{!Texts}.
Variable header_read : M (TXMLProtocol.t TMemoryBuffer.t) (Z * SandeshHeader).
Variable CreateInstance : list byte -> option (M (TXMLProtocol.t TMemoryBuffer.t) Z).
Variable fuel : nat.
Variable server_is_sandesh : bool.
Variable answers : list server_call -> bool.
Variable Create : list byte -> option SandeshMessage.
Variable flow_collection_disabled : bool.
Abbreviation pe := (process_event CreateInstance server_is_sandesh answers).

(** What the machine needs of a control message: the server can make it. *)
Definition decodes (e : event) : Prop :=
  match e with
  | EvSandeshCtrlMessageRecv msg header msg_type header_offset =>
      server_is_sandesh = true ->
      DecodeCtrlSandesh CreateInstance msg header msg_type header_offset = Some true
  | _ => True
  end.

Lemma inv_same h x y :
  inv h x -> queue_ y = queue_ x -> session_ y = session_ x -> sessions y = sessions x ->
  deleted_sessions y = deleted_sessions x -> event_stats_ y = event_stats_ x -> count_ y = count_ x ->
  deleted_ y = deleted_ x -> conn_session_ y = conn_session_ x -> state_ y = state_ x ->
  resource_ y = resource_ x -> is_deleted_ y = is_deleted_ x -> timer_running y = timer_running x ->
  inv h y.
Proof.
  intros [Hs Hsh] E1 E2 E3 E4 E5 E6 E7 E8 E9 E10 E11 E12. split; [by eapply safe_same|].
  unfold shape in *. by rewrite E2, E8, E9, E10, E11, E12.
Qed.

Lemma inv_call c h x : inv h x -> inv h (snd (call answers c x)).
Proof. intros Hi. by eapply inv_same. Qed.
Lemma call_state c x : state_ (snd (call answers c x)) = state_ x.
Proof. done. Qed.

(** Operations on a session keep the shape. *)
Lemma shape_frame x y :
  shape x -> frame y = frame x -> session_ y = session_ x -> conn_session_ y = conn_session_ x -> shape y.
Proof.
  unfold shape, frame. intros Hs Hf Es Ec. injection Hf as E1 E2 E3 E4 _ _.
  by rewrite E1, E2, E3, E4, Es, Ec.
Qed.
Lemma inv_weaken s h x : inv (s :: h) x -> inv h x.
Proof. intros [Hs Hsh]. split; [by eapply safe_weaken|done]. Qed.
Lemma inv_DeleteTcpSession s x : inv [s] x -> exists y, DeleteTcpSession s x = Some y /\ inv [] y.
Proof.
  intros [Hs Hsh]. destruct (safe_DeleteTcpSession [] x s Hs) as (y&E&Hy&Hf&Es&Ec).
  exists y. split; [done|]. split; [done|]. by eapply shape_frame.
Qed.
Lemma inv_DeleteSession s x : inv [s] x -> exists y, DeleteSession s x = Some y /\ inv [] y.
Proof.
  intros [Hs Hsh]. destruct (safe_DeleteSession [] x s Hs) as (y&E&Hy&Hf&Es&Ec).
  exists y. split; [done|]. split; [done|]. by eapply shape_frame.
Qed.

Lemma inv_StartIdleHoldTimer x : inv [] x -> state_ x = IDLE -> inv [] (StartIdleHoldTimer x).
Proof.
  intros [Hs Hsh] E. unfold StartIdleHoldTimer. destruct (_ <=? _); [by split|].
  split; [by eapply safe_same|]. unfold shape in *. cbn. by destruct Hsh as (?&?&?&?&?).
Qed.
Lemma inv_Idle_to_Active x : inv [] x -> state_ x = IDLE -> inv [] (transit ACTIVE x).
Proof.
  intros [Hs Hsh] E. split; [by apply safe_transit|]. apply shape_transit; [done|].
  destruct Hsh as (_&Hse&_). split; [|by intros [?|?]]. intros Hn%Hse. rewrite E in Hn. by destruct Hn.
Qed.

Lemma inv_Idle_react e x :
  inv (hand e) x -> state_ x = IDLE -> exists y, Idle_react e x = Some y /\ inv [] y.
Proof.
  intros Hi E. destruct e; cbn [Idle_react]; try (eexists; by split).
  - destruct (negb _); eexists; (split; [done|]); [by apply inv_StartIdleHoldTimer | by apply inv_Idle_to_Active].
  - eexists. split; [done|]. destruct Hi as [Hs Hsh]. split; [by eapply safe_same|].
    unfold shape in *. cbn. naive_solver.
  - eexists. split; [done|]. by apply inv_Idle_to_Active.
  - by apply inv_DeleteSession.
  - by apply inv_DeleteTcpSession.
Qed.

(** A session opened in [Active] becomes the current one. *)
Lemma inv_passive_open s x :
  inv [s] x -> state_ x = ACTIVE ->
  exists y, Active_react (EvTcpPassiveOpen s) x = Some y /\ inv [] y /\ session_ y = Some s /\
    state_ y = SERVER_INIT.
Proof.
  intros [Hs Hsh] E. cbn [Active_react].
  destruct (safe_sm_set_session [] x (Some s)) as (y&E1&Hy&Hf&Es&Ec); [done|]. rewrite E1.
  cbn [mbind option_bind].
  destruct (safe_on_session [] y s (set_observer true)) as (z&E2&Hz&Hfz&Esz&Ecz&_); [done| |].
  { destruct Hy as (_&Hl&_). apply Hl. unfold owned. rewrite Es. apply elem_of_app. right.
    apply elem_of_app. right. by apply list_elem_of_singleton. }
  rewrite E2. cbn [mbind option_bind]. rewrite Hf in Hfz.
  exists (transit SERVER_INIT z). pose proof (transit_same SERVER_INIT z) as (_&E3&_&_&_&_&_&_&_&E4&_).
  split; [done|]. rewrite E3, E4, Esz, Es. split; [|done]. split; [by apply safe_transit|].
  injection Hfz as Ef1 Ef2 Ef3 Ef4 _ _. destruct Hsh as (_&_&_&Hr&Ht).
  unfold shape, transit, leave. rewrite Ef1, E. cbn. rewrite Esz, Ecz, Es, Ec, Ef2, Ef3.
  rewrite E in Hr, Ht. naive_solver.
Qed.

Lemma inv_Active_react e x :
  inv (hand e) x -> state_ x = ACTIVE -> exists y, Active_react e x = Some y /\ inv [] y.
Proof.
  intros Hi E. destruct e; cbn [Active_react]; try (eexists; by split).
  - destruct (inv_transit_to_idle x Hi) as (y&?&?&_). by exists y.
  - destruct (inv_passive_open session x Hi E) as (y&?&?&_). by exists y.
  - destruct (inv_drop_to_idle x Hi) as (y&?&?&_). by exists y.
  - by apply inv_DeleteTcpSession.
Qed.

(** A reaction that asks the server and gives the session up when refused. *)
Lemma inv_or_drop (ok : bool) x z :
  inv [] x -> inv [] z ->
  exists y, (if negb ok then drop_to_idle x else Some z) = Some y /\ inv [] y.
Proof.
  intros Hx Hz. destruct ok; cbn [negb]; [by exists z|].
  destruct (inv_drop_to_idle x Hx) as (y&?&?&_). by exists y.
Qed.

Lemma inv_ProcessSandeshMessage msg r h x :
  inv h x -> inv h (snd (ProcessSandeshMessage server_is_sandesh answers msg r x)).
Proof. intros Hi. unfold ProcessSandeshMessage. destruct (negb _); [done|]. by apply inv_call. Qed.
Lemma inv_ProcessDisconnect s h x : inv h x -> inv h (ProcessDisconnect server_is_sandesh answers s x).
Proof. intros Hi. unfold ProcessDisconnect. destruct (negb _); [done|]. by apply inv_call. Qed.

(** Established from ServerInit: the session stays. *)
Lemma inv_to_Established x : inv [] x -> state_ x = SERVER_INIT -> inv [] (transit ESTABLISHED x).
Proof.
  intros [Hs Hsh] E. split; [by apply safe_transit|].
  destruct (transit_flags ESTABLISHED x Hsh) as [Hr Ht].
  pose proof (transit_same ESTABLISHED x) as (_&E1&E2&_&_&_&_&_&E3&E4&_).
  unfold shape in *. rewrite E1, E2, E3, E4. naive_solver.
Qed.

Lemma inv_ServerInit_react e x :
  inv (hand e) x -> state_ x = SERVER_INIT -> decodes e ->
  exists y, ServerInit_react CreateInstance server_is_sandesh answers e x = Some y /\ inv [] y.
Proof.
  intros Hi E Hd. destruct e; cbn [ServerInit_react]; try (eexists; by split).
  - destruct (inv_transit_to_idle x Hi) as (y&?&?&_). by exists y.
  - eexists. split; [done|]. by apply inv_weaken in Hi.
  - destruct (inv_drop_to_idle x Hi) as (y&?&?&_). by exists y.
  - by apply inv_DeleteTcpSession.
  - pose proof (inv_ProcessSandeshMessage msg true [] x Hi) as Hp.
    destruct (ProcessSandeshMessage _ _ _ _ _) as [ok z]. by apply inv_or_drop.
  - unfold ProcessSandeshCtrlMessage. cbn [decodes] in Hd.
    destruct server_is_sandesh; cbn [negb mbind option_bind].
    + rewrite Hd by done. cbn [negb mbind option_bind].
      set (c := ReceiveSandeshCtrlMsg _ _). pose proof (inv_call c [] x Hi) as Hc.
      pose proof (call_state c x) as Ec. destruct (call answers c x) as [ok z] eqn:Ecall. cbn [mbind option_bind].
      apply inv_or_drop; [done|]. cbn in Hc, Ec. rewrite E in Ec. by apply inv_to_Established.
    + destruct (inv_drop_to_idle x Hi) as (y&?&?&_). by exists y.
Qed.

Lemma inv_Established_react e x :
  inv (hand e) x -> state_ x = ESTABLISHED ->
  exists y, Established_react server_is_sandesh answers e x = Some y /\ inv [] y.
Proof.
  intros Hi E. destruct e; cbn [Established_react]; try (eexists; by split).
  - destruct (inv_transit_to_idle x Hi) as (y&?&?&_). by exists y.
  - eexists. split; [done|]. by apply inv_weaken in Hi.
  - destruct (inv_drop_to_idle _ (inv_ProcessDisconnect (session_ x) [] x Hi)) as (y&?&?&_). by exists y.
  - by apply inv_DeleteTcpSession.
  - pose proof (inv_ProcessSandeshMessage msg (resource_ x) [] x Hi) as Hp.
    destruct (ProcessSandeshMessage _ _ _ _ _) as [ok z]. by apply inv_or_drop.
  - assert (inv [] (set_resource rsc x)) as Hr.
    { destruct Hi as [Hs Hsh]. split; [by eapply safe_same|]. unfold shape in *. cbn. naive_solver. }
    unfold ProcessResourceUpdate. destruct (negb server_is_sandesh); [by apply inv_or_drop|].
    set (c := ReceiveResourceUpdate _ _). pose proof (inv_call c [] _ Hr) as Hc.
    destruct (call answers c _) as [ok z]. by apply inv_or_drop.
Qed.

(** Every event a state reacts to keeps the invariant and hands its session on. *)
Lemma inv_process_event e x :
  inv (hand e) x -> (state_ x = SERVER_INIT -> decodes e) -> exists y, pe e x = Some y /\ inv [] y.
Proof.
  intros Hi Hd. unfold process_event. destruct (state_ x) eqn:E.
  - by apply inv_Idle_react.
  - by apply inv_Active_react.
  - by apply inv_Established_react.
  - apply inv_ServerInit_react; auto.
Qed.

(** ** The queue *)
Definition taken (e : event) (q : list event) (fail : bool) (x : t) : t :=
  UpdateEventStats e false fail
    (sm_set_last_event (type_name e) (set_queue q (AtomicDecrementQueueCount e x))).

Lemma taken_same e q (fail : bool) x :
  let y := taken e q fail x in
  queue_ y = q /\ session_ y = session_ x /\ conn_session_ y = conn_session_ x /\ sessions y = sessions x /\
  deleted_sessions y = deleted_sessions x /\ deleted_ y = deleted_ x /\ frame y = frame x /\
  u64 (count_ y) = u64 (count_ x - weight e) /\
  SandeshEventStatistics.enqueues (agg y) = SandeshEventStatistics.enqueues (agg x) /\
  u64 (SandeshEventStatistics.dequeues (agg y) + SandeshEventStatistics.dequeue_fails (agg y)) =
  u64 (SandeshEventStatistics.dequeues (agg x) + SandeshEventStatistics.dequeue_fails (agg x) + 1).
Proof.
  unfold taken, AtomicDecrementQueueCount, weight.
  destruct (GetEvSandeshMessageRecvSize e) as [n|], fail; cbn; rewrite ?u64_idem;
    do 8 (split; [try done|]); try (split; [done|]);
    unfold wrapU, agg; rewrite ?Zplus_mod_idemp_l, ?Zplus_mod_idemp_r; f_equal; lia.
Qed.

Lemma inv_taken e q (fail : bool) x :
  inv [] x -> queue_ x = e :: q -> inv (hand e) (taken e q fail x).
Proof.
  intros [(Hn&Hl&Hd&Hda&He&Hc&Hdel) Hsh] Eq.
  pose proof (taken_same e q fail x) as (E1&E2&E3&E4&E5&E6&E7&E8&E9&E10).
  split; [|by eapply shape_frame].
  assert (hand e ++ owned (taken e q fail x) = owned x) as Eo.
  { unfold owned. rewrite Eq, E1, E2. cbn [fmap list_fmap concat]. by rewrite <- app_assoc. }
  unfold safe. rewrite Eo, E4, E5. split; [done|]. split; [done|]. split; [done|]. split; [done|].
  rewrite Eq in He, Hc. cbn [weights foldr length] in He, Hc. fold (weights q) in Hc. unfold balanced.
  rewrite E1, E9, E8, E6. split; [|split; [|done]].
  - rewrite He. rewrite (u64_add_congr _ _ (zlen q) (zlen q) E10) by done. f_equal. lia.
  - replace (weights q) with (weight e + weights q + - weight e) by lia.
    by apply u64_add_congr.
Qed.

(** Sending an event of no session keeps the invariant. *)
Lemma inv_Enqueue e x : inv (hand e) x -> inv [] (Enqueue e x).
Proof.
  intros [Hs Hsh]. destruct (Enqueue_frame e x) as (Ef&Es&Ec&_).
  split; [apply safe_Enqueue; by rewrite app_nil_r | by eapply shape_frame].
Qed.

Lemma inv_on_session s f h x :
  inv h x -> s ∈ dom (sessions x) -> exists y, on_session s f x = Some y /\ inv h y.
Proof.
  intros [Hs Hsh] Hd. destruct (safe_on_session h x s f Hs Hd) as (y&E&Hy&Hf&Es&Ec&_).
  exists y. split; [done|]. split; [done|]. by eapply shape_frame.
Qed.

(** The current session is alive. *)
Lemma inv_current_alive h x s : inv h x -> session_ x = Some s -> s ∈ dom (sessions x).
Proof.
  intros [(_&Hl&_) _] E. apply Hl, elem_of_app. right. unfold owned. rewrite E.
  apply elem_of_app. right. by apply list_elem_of_singleton.
Qed.

(** ** Messages from a session *)
Abbreviation on_message := (OnSandeshMessage header_read fuel Create flow_collection_disabled).
Abbreviation rx x := (SandeshMessageStatistics.detail_agg_stats_ (message_stats_ x)).

Lemma UpdateRxMsgStats_spec name n x :
  exists m, UpdateRxMsgStats name n x = Some (set_message_stats m x) /\
    SandeshMessageStatistics.detail_agg_stats_ m = SandeshMessageStatistics.add_received n (rx x).
Proof. eexists. split; reflexivity. Qed.
Lemma UpdateRxMsgFailStats_spec name n r f x :
  SandeshMessageStatistics.rx_field r = Some f ->
  exists m, UpdateRxMsgFailStats name n r x = Some (set_message_stats m x) /\
    SandeshMessageStatistics.detail_agg_stats_ m = SandeshMessageStatistics.add_rx_drop f n (rx x).
Proof.
  intros Hr. unfold UpdateRxMsgFailStats, SandeshMessageStatistics.UpdateRecvFailed,
    SandeshMessageStatistics.UpdateInternal, SandeshMessageStatistics.UpdateDetailStatsDrops.
  rewrite Hr. eexists. split; reflexivity.
Qed.

(** The event a message becomes. *)
Definition carries (msg : list byte) (e : event) : Prop :=
  match e with
  | EvSandeshMessageRecv m => Create msg = Some m /\ has_control_hint (header_ m) = false
  | EvSandeshCtrlMessageRecv msg' h n o =>
      msg' = msg /\ has_control_hint h = true /\ ExtractMsgHeader header_read fuel msg = Some (inr (h, n, o)) /\
      exists m, Create msg = Some m /\ header_ m = h /\ message_type_ m = n
  | _ => False
  end.

(** A message is counted once: as dropped, with nothing else changed, or as received,
    with one event put in the queue. *)
Definition handled (msg : list byte) (ok : bool) (x y : t) : Prop :=
  (exists f m, y = set_message_stats m x /\
     SandeshMessageStatistics.detail_agg_stats_ m = SandeshMessageStatistics.add_rx_drop f (zlen msg) (rx x) /\
     (ok = true -> exists xm, Create msg = Some xm /\ f = rx_queue_level /\
        DoDropSandeshMessage flow_collection_disabled (header_ xm) (message_drop_level_ x) = true)) \/
  (exists e m, y = Enqueue e (set_message_stats m x) /\ carries msg e /\ ok = true /\
     SandeshMessageStatistics.detail_agg_stats_ m = SandeshMessageStatistics.add_received (zlen msg) (rx x)).

(** Only the generated reader of a control message's header can be undefined. *)
Definition unreadable (msg : list byte) (x : t) : Prop :=
  exists m, Create msg = Some m /\ has_control_hint (header_ m) = true /\
    DoDropSandeshMessage flow_collection_disabled (header_ m) (message_drop_level_ x) = false /\
    ExtractMsgHeader header_read fuel msg = None.

Ltac dropped name n r f x :=
  let m := fresh "m" in let E := fresh "E" in let Em := fresh "Em" in
  destruct (UpdateRxMsgFailStats_spec name n r f x eq_refl) as (m&E&Em);
  rewrite E; cbn [mbind option_bind]; left; exists f, m.
Ltac received name n x e :=
  let m := fresh "m" in let E := fresh "E" in let Em := fresh "Em" in
  destruct (UpdateRxMsgStats_spec name n x) as (m&E&Em);
  rewrite E; cbn [mbind option_bind]; right; exists e, m.

Lemma OnSandeshMessage_handled msg x :
  match on_message msg x with Some (ok, y) => handled msg ok x y | None => unreadable msg x end.
Proof.
  unfold OnSandeshMessage. destruct (Create msg) as [xm|] eqn:Ec.
  2: { by dropped ([] : list byte) (zlen msg) Rx.DecodingFailed rx_decoding_failed x. }
  destruct (DoDropSandeshMessage _ _ _) eqn:Ed.
  { dropped (message_type_ xm) (zlen msg) Rx.QueueLevel rx_queue_level x. naive_solver. }
  destruct (has_control_hint _) eqn:Eh.
  2: { by received (message_type_ xm) (zlen msg) x (EvSandeshMessageRecv xm). }
  destruct (ExtractMsgHeader _ _ _) as [[err|[[h n] o]]|] eqn:Ee; cbn [mbind option_bind].
  - by dropped (message_type_ xm) (zlen msg) Rx.ControlMsgFailed rx_control_msg_failed x.
  - destruct (negb _ || negb _) eqn:Et.
    { by dropped (message_type_ xm) (zlen msg) Rx.ControlMsgFailed rx_control_msg_failed x. }
    zify_bools. subst.
    received (message_type_ xm) (zlen msg) x (EvSandeshCtrlMessageRecv msg (header_ xm) (message_type_ xm) o).
    naive_solver.
  - by exists xm.
Qed.

Lemma inv_handled msg ok x y : inv [] x -> handled msg ok x y -> inv [] y.
Proof.
  intros Hi [(f&m&->&_)|(e&m&->&Hc&_)].
  - by eapply inv_same.
  - apply inv_Enqueue. assert (hand e = []) as -> by (by destruct e). by eapply inv_same.
Qed.

(** ** Steps *)
Abbreviation step := (ServerSM.step header_read CreateInstance fuel server_is_sandesh answers Create
                        flow_collection_disabled).
Abbreviation reachable := (ServerSM.reachable header_read CreateInstance fuel server_is_sandesh answers
                             Create flow_collection_disabled).

Lemma sm_inv_init now : inv [] (init now).
Proof.
  split.
  - split; [constructor|]. split; [by intros s ?%not_elem_of_nil|]. split; [constructor|].
    split; [by intros s ?%not_elem_of_nil|]. done.
  - unfold shape. cbn. naive_solver.
Qed.

(** A session just made is in the hand of its [Accept]. *)
Lemma inv_fresh s i x :
  inv [] x -> s ∉ dom (sessions x) -> s ∉ deleted_sessions x ->
  inv [s] (set_sessions (<[s := i]> (sessions x)) x).
Proof.
  intros [(Hn&Hl&Hd&Hda&Hb) Hsh] Hnd Hndel. split; [|done]. unfold safe. cbn [app]. cbn in Hn, Hl.
  change (owned (set_sessions _ _)) with (owned x). split.
  { apply list.NoDup_cons. split; [|done]. by intros ?%Hl. }
  cbn. rewrite dom_insert_L. split; [set_solver|]. split; [done|]. split; [set_solver|done].
Qed.

Lemma inv_accept s x :
  inv [s] x -> exists y, conn_AcceptSession s x = Some y /\ inv [] y.
Proof.
  intros Hi. unfold conn_AcceptSession, PassiveOpen.
  assert (forall z, inv [s] z -> s ∈ dom (sessions z)) as Ha.
  { intros z [(_&Hl&_) _]. apply Hl. by left. }
  edestruct (inv_on_session s) as (y&E&Hy); [exact Hi | by apply Ha |]. rewrite E. cbn [mbind option_bind].
  destruct (inv_on_session s (set_observer true) [s] y Hy (Ha y Hy)) as (z&Ez&Hz). rewrite Ez.
  cbn [mbind option_bind]. eexists. split; [done|]. by apply inv_Enqueue.
Qed.

(** [~SandeshServerConnection]'s shutdown takes the current session with it. *)
Lemma inv_shutdown x : inv [] x -> exists y, DeleteActor_Shutdown x = Some y /\ inv [] y.
Proof.
  intros [Hs Hsh]. unfold DeleteActor_Shutdown, clear_session. destruct (session_ x) as [s|] eqn:E.
  2: { cbn [mbind option_bind]. eexists. split; [done|]. split; [by eapply safe_same|].
       unfold shape in *. cbn. naive_solver. }
  pose proof (inv_current_alive [] x s (conj Hs Hsh) E) as Ha.
  destruct (safe_on_session [] x s quiesce Hs Ha) as (y&Ey&Hy&Hf&Esy&Ecy&Hdy). rewrite Ey.
  cbn [mbind option_bind]. rewrite E in Esy.
  pose proof (safe_set_session_ptr [] y None (Some s) Esy Hy) as Hp. cbn [app] in Hp.
  destruct (safe_DeleteTcpSession [] _ s Hp) as (z&Ez&Hz&Hfz&Esz&Ecz).
  unfold DeleteTcpSession in Ez. destruct (sessions (set_session_ptr None y) !! s); [|done].
  cbn [mbind option_bind]. injection Ez as <-. eexists. split; [done|]. split; [by eapply safe_same|].
  injection Hf as E1 E2 E3 E4 _ _. destruct Hsh as (_&_&_&Hr&Ht). unfold shape. cbn.
  rewrite E1, E2, E3. naive_solver.
Qed.

Lemma inv_drop_level level cb x :
  inv [] x -> exists y, SetSandeshMessageDropLevel level cb x = Some y /\ inv [] y.
Proof.
  intros Hi. unfold SetSandeshMessageDropLevel.
  set (z := if negb _ then _ else _).
  assert (inv [] z /\ session_ z = session_ x) as [Hz Es].
  { unfold z. destruct (negb _); [|done]. split; [by eapply inv_same|done]. }
  destruct cb; [|by exists z]. destruct (session_ z) as [s|] eqn:E; [|by exists z].
  apply inv_on_session; [done|]. by eapply inv_current_alive.
Qed.

Lemma inv_Dequeue e q x :
  inv [] x -> queue_ x = e :: q -> (state_ x = SERVER_INIT -> decodes e) ->
  exists y, DequeueEvent CreateInstance server_is_sandesh answers e
              (set_queue q (AtomicDecrementQueueCount e x)) = Some y /\ inv [] y.
Proof.
  intros Hi Eq Hd. unfold DequeueEvent.
  assert (deleted_ (set_queue q (AtomicDecrementQueueCount e x)) = false) as ->.
  { destruct Hi as [(_&_&_&_&_&_&Hdel) _]. unfold AtomicDecrementQueueCount.
    by destruct (GetEvSandeshMessageRecvSize e). }
  destruct (validate e _) eqn:Ev.
  - apply inv_process_event; [by apply (inv_taken e q false)|]. intros Es. apply Hd.
    pose proof (taken_same e q false x) as (_&_&_&_&_&_&Hf&_). injection Hf as Hf _ _ _ _ _.
    by rewrite <- Hf.
  - eexists. split; [done|]. assert (hand e = []) as Eh by (by destruct e).
    rewrite <- Eh at 1. by apply (inv_taken e q true).
Qed.

(** The two ways to undefined behaviour: a control message whose header cannot be
    read, and a control message the server cannot make. *)
Definition stuck (i : input) (x : t) : Prop :=
  match i with
  | InMessage s msg => s ∈ dom (sessions x) /\ unreadable msg x
  | InDequeue => disabled x = false /\ exists e q, queue_ x = e :: q /\ state_ x = SERVER_INIT /\ ~ decodes e
  | _ => False
  end.

#[local] Instance decodes_dec e : Decision (decodes e).
Proof. destruct e; cbn; apply _. Defined.

Lemma inv_SetAdminState down x : inv [] x -> inv [] (conn_SetAdminState down x).
Proof.
  intros Hi. unfold conn_SetAdminState, SetAdminState. destruct (Bool.eqb _ _), down; try done;
    apply inv_Enqueue; by eapply inv_same.
Qed.
Lemma inv_timer x : inv [] x -> inv [] (IdleHoldTimerExpired x).
Proof.
  intros [Hs Hsh]. apply inv_Enqueue. split; [by eapply safe_same|]. unfold shape in *. cbn. naive_solver.
Qed.

Definition outcome (i : input) (x : t) : Prop :=
  (exists y, step i x = Some y /\ inv [] y /\ ~ stuck i x) \/ (step i x = None /\ stuck i x).

Lemma outcome_some i x : ~ stuck i x -> (exists y, step i x = Some y /\ inv [] y) -> outcome i x.
Proof. intros Hs (y&?&?). left. by exists y. Qed.

Lemma outcome_message s msg x : inv [] x -> outcome (InMessage s msg) x.
Proof.
  intros Hi. unfold outcome. cbn [ServerSM.step stuck]. case_bool_decide as Hd.
  2: { left. exists x. naive_solver. }
  pose proof (OnSandeshMessage_handled msg x) as Hh.
  destruct (on_message msg x) as [[ok y]|] eqn:E; cbn [mbind option_bind]; [left|by right].
  exists y. split; [done|]. split; [by eapply inv_handled|]. intros [_ (xm&Ec&Ehint&Edrop&Ex)].
  revert E. unfold OnSandeshMessage. by rewrite Ec, Edrop, Ehint, Ex.
Qed.

(** The NULL message of [DecodeCtrlSandesh] is dereferenced. *)
Lemma undecoded_crashes e q x :
  inv [] x -> queue_ x = e :: q -> state_ x = SERVER_INIT -> ~ decodes e ->
  DequeueEvent CreateInstance server_is_sandesh answers e
    (set_queue q (AtomicDecrementQueueCount e x)) = None.
Proof.
  intros Hi Eq Es Hd. destruct e; try (by destruct Hd). unfold DequeueEvent.
  assert (deleted_ (set_queue q (AtomicDecrementQueueCount (EvSandeshCtrlMessageRecv msg header msg_type header_offset) x))
    = false) as -> by (by destruct Hi as [(_&_&_&_&_&_&Hdel) _]).
  cbn [validate]. unfold process_event.
  change (state_ (UpdateEventDequeue _ _)) with (state_ x). rewrite Es. cbn [ServerInit_react].
  unfold ProcessSandeshCtrlMessage. cbn [decodes] in Hd. destruct server_is_sandesh; [|by destruct Hd].
  cbn [negb]. destruct (DecodeCtrlSandesh _ _ _ _ _) as [[]|]; [|done..]. by destruct Hd.
Qed.

Lemma outcome_dequeue x : inv [] x -> outcome InDequeue x.
Proof.
  intros Hi. unfold outcome. cbn [ServerSM.step stuck].
  destruct (disabled x) eqn:Ed; [left; exists x; naive_solver|].
  destruct (queue_ x) as [|e q] eqn:Eq; [left; exists x; naive_solver|].
  destruct (decide (state_ x = SERVER_INIT /\ ~ decodes e)) as [[Es Hnd]|Hok].
  - right. split; [by apply undecoded_crashes|]. naive_solver.
  - destruct (inv_Dequeue e q x Hi Eq) as (y&E&Hy).
    { intros Es. destruct (decide (decodes e)); [done|]. by destruct Hok. }
    left. exists y. split; [done|]. split; [done|]. naive_solver.
Qed.

(** One step of a machine that satisfies the invariant. *)
Lemma inv_step i x : inv [] x -> outcome i x.
Proof.
  intros Hi. destruct i; [..|by apply outcome_message| |by apply outcome_dequeue| | | | | | |];
    (apply outcome_some; [by intros []|]); cbn [ServerSM.step].
  - eexists. split; [done|]. by apply inv_Enqueue.
  - eexists. split; [done|]. by apply inv_Enqueue.
  - eexists. split; [done|]. by apply inv_SetAdminState.
  - destruct (_ || _) eqn:E; [by exists x|]. zify_bools. by apply inv_accept, inv_fresh.
  - case_bool_decide; [|by exists x]. eexists. split; [done|]. destruct ev; try done. by apply inv_Enqueue.
  - eexists. split; [done|]. by apply inv_Enqueue.
  - destruct (timer_running x) eqn:E; [|by exists x]. eexists. split; [done|]. by apply inv_timer.
  - eexists. split; [done|]. destruct high; by eapply inv_same.
  - eexists. split; [done|]. by eapply inv_same.
  - destruct (_ !! _); [by apply inv_drop_level | by exists x].
  - eexists. split; [done|]. by eapply inv_same.
  - by apply inv_shutdown.
  - eexists. split; [done|]. by eapply inv_same.
Qed.

Lemma inv_reachable x : reachable x -> inv [] x.
Proof.
  induction 1 as [now|i x y Hr IH E]; [apply sm_inv_init|].
  destruct (inv_step i x IH) as [(y'&E'&Hy&_)|[E' _]]; congruence.
Qed.

End Reactions.
End ServerSpec.
