(* ===== verification/ServerSMClaims.v ===== *)
(** * What the server's state machine guarantees

    The claims about the server's state machine: what can go wrong and nothing
    else, who owns a session, how state and session fit, the balance of the queue,
    and what becomes of a message, a close and a first control message. *)

From S2P Require Import Prelude Transport Statistics Protocol Xml XmlClaims Message ServerSM ServerSMSpec.
Import ServerSM ServerSpec.
Local Open Scope Z_scope.

Module ServerClaims.

Section Claims.
Context `{!Allocator} `{!Texts}.
Variable header_read : M (TXMLProtocol.t TMemoryBuffer.t) (Z * SandeshHeader).
Variable CreateInstance : list byte -> option (M (TXMLProtocol.t TMemoryBuffer.t) Z).
Variable fuel : nat.
Variable server_is_sandesh : bool.
Variable answers : list server_call -> bool.
Variable Create : list byte -> option SandeshMessage.
Variable flow_collection_disabled : bool.
Abbreviation step := (ServerSM.step header_read CreateInstance fuel server_is_sandesh answers Create
                        flow_collection_disabled).
Abbreviation run := (ServerSM.run header_read CreateInstance fuel server_is_sandesh answers Create
                        flow_collection_disabled).
Abbreviation reachable := (ServerSM.reachable header_read CreateInstance fuel server_is_sandesh answers
                             Create flow_collection_disabled).
Abbreviation stuck := (ServerSpec.stuck header_read CreateInstance fuel server_is_sandesh Create
                         flow_collection_disabled).
Abbreviation handled := (ServerSpec.handled header_read fuel Create flow_collection_disabled).

Lemma run_reachable ins x y : reachable x -> run ins x = Some y -> reachable y.
Proof.
  revert x. induction ins as [|i ins IH]; intros x Hx; cbn [ServerSM.run]; [by intros [= ->]|].
  destruct (step i x) as [z|] eqn:E; [|done]. cbn [mbind option_bind]. apply IH.
  by eapply reachable_step.
Qed.

(** C17: the state machine's undefined behaviour is exactly this: in a reachable
    state a step is undefined (a deleted session is used, a NULL message is
    dereferenced, an assertion fails) if and only if it takes in a control message
    whose header the generated reader cannot read, or takes off the queue, in
    ServerInit, a control message the server's factory cannot make.  In particular no
    order of opens, closes, timers, admin changes, messages and deletions makes it
    touch a session that was deleted. *)
Theorem server_undefined_exactly x i : reachable x -> step i x = None <-> stuck i x.
Proof.
  intros Hx%inv_reachable.
  destruct (inv_step header_read CreateInstance fuel server_is_sandesh answers Create
              flow_collection_disabled i x Hx) as [(y&E&_&Hs)|[E Hs]]; [|by split].
  split; [by rewrite E | by intros ?%Hs].
Qed.

(** C21: ownership of sessions in every reachable state: a session waiting to be
    opened, current, or waiting to be deleted is alive and in one of these places
    once; a session is deleted at most once, and what was deleted is neither alive
    nor held. *)
Theorem server_session_ownership x :
  reachable x ->
  NoDup (owned x) /\ (forall s, s ∈ owned x -> s ∈ dom (sessions x)) /\
  NoDup (deleted_sessions x) /\
  (forall s, s ∈ deleted_sessions x -> s ∉ dom (sessions x) /\ s ∉ owned x).
Proof.
  intros [(Hn&Hl&Hd&Hda&_) _]%inv_reachable. split; [done|]. split; [done|]. split; [done|].
  intros s Hs. split; [by apply Hda|]. intros Ho%Hl. by apply (Hda s Hs).
Qed.

(** C24: state, session and resources fit in every reachable state: connection and
    machine agree on the session; there is one only in ServerInit and Established,
    and there is one there until the connection is deleted; the resource flag is up
    only in Established, and the hold timer runs only in Idle. *)
Theorem server_state_session_fit x :
  reachable x ->
  conn_session_ x = session_ x /\
  (session_ x <> None -> state_ x = SERVER_INIT \/ state_ x = ESTABLISHED) /\
  (is_deleted_ x = false -> state_ x = SERVER_INIT \/ state_ x = ESTABLISHED -> session_ x <> None) /\
  (resource_ x = true -> state_ x = ESTABLISHED) /\
  (timer_running x = true -> state_ x = IDLE).
Proof. by intros [_ Hs]%inv_reachable. Qed.

(** The queue is balanced in every reachable state: as many events were counted
    in as were counted out or are still there, and the work queue's count is the
    bytes of the messages in it plus one for every other event, modulo 2^64. *)
Theorem server_queue_balanced x :
  reachable x ->
  u64 (SandeshEventStatistics.enqueues (agg x)) =
    u64 (SandeshEventStatistics.dequeues (agg x) + SandeshEventStatistics.dequeue_fails (agg x) +
         zlen (queue_ x)) /\
  u64 (count_ x) = u64 (foldr (fun e n => default 1 (GetEvSandeshMessageRecvSize e) + n) 0 (queue_ x)).
Proof. by intros [(_&_&_&_&?&?&_) _]%inv_reachable. Qed.

Lemma frame_eq x y : frame y = frame x -> state_ y = state_ x /\ calls y = calls x.
Proof. unfold frame. by intros [= ? _ _ _ _ ?]. Qed.
Lemma transit_calls s x : calls (transit s x) = calls x.
Proof. unfold transit, leave. by destruct (state_ x), s. Qed.
Lemma queue_Enqueue e x : deleted_ x = false -> queue_ (Enqueue e x) = queue_ x ++ [e].
Proof. intros Hd. unfold Enqueue. by rewrite Hd. Qed.

(** Giving up the current session: it is quiesced and its deletion is queued. *)
Lemma drop_current s i x :
  session_ x = Some s -> sessions x !! s = Some i -> deleted_ x = false ->
  exists y, drop_to_idle x = Some y /\ state_ y = IDLE /\ session_ y = None /\ conn_session_ y = None /\
    queue_ y = queue_ x ++ [EvTcpDeleteSession s] /\ sessions y = <[s := quiesce i]> (sessions x) /\
    calls y = calls x.
Proof.
  intros Es Ei Ed. unfold drop_to_idle, sm_set_session, DeleteSession, on_session. rewrite Es, Ei.
  cbn [mbind option_bind]. eexists. split; [done|]. set (x' := set_sessions _ x). set (e := EvTcpDeleteSession s).
  pose proof (transit_same IDLE (set_session_ptr None (Enqueue e x'))) as (E1&E2&E3&E4&_&_&_&_&_&E5&_).
  pose proof (transit_calls IDLE (set_session_ptr None (Enqueue e x'))) as E6.
  destruct (Enqueue_frame e x') as (Ef&_&_&F3&_). apply frame_eq in Ef as [_ F6].
  rewrite E1, E2, E3, E4, E5, E6. cbn [set_session_ptr set_session set_conn_session queue_ session_ conn_session_
    sessions calls]. rewrite queue_Enqueue, F3, F6 by done. done.
Qed.

(** An event that is valid goes from the queue to the state. *)
Lemma dequeue_valid x e q :
  inv [] x -> disabled x = false -> queue_ x = e :: q -> validate e x = true ->
  step InDequeue x = process_event CreateInstance server_is_sandesh answers e (taken e q false x).
Proof.
  intros [(_&_&_&_&_&_&Hdel) _] Ed Eq Ev. cbn [ServerSM.step]. rewrite Ed, Eq. unfold DequeueEvent.
  assert (deleted_ (set_queue q (AtomicDecrementQueueCount e x)) = false) as ->.
  { unfold AtomicDecrementQueueCount. by destruct (GetEvSandeshMessageRecvSize e). }
  assert (validate e (sm_set_last_event (type_name e) (set_queue q (AtomicDecrementQueueCount e x))) =
          validate e x) as ->.
  { destruct e; try done. }
  by rewrite Ev.
Qed.

(** A close of the current session, taken off the queue, ends the session: the
    machine is in Idle without a session, the session is closed and detached and its
    deletion is the last event of the queue, and in Established the server is told of
    the disconnect. *)
Theorem server_close_ends_session x s q :
  reachable x -> queue_ x = EvTcpClose (Some s) :: q -> session_ x = Some s -> disabled x = false ->
  exists y i, step InDequeue x = Some y /\ state_ y = IDLE /\ session_ y = None /\ conn_session_ y = None /\
    queue_ y = q ++ [EvTcpDeleteSession s] /\ sessions y !! s = Some i /\
    s_closed i = true /\ s_shutdown i = true /\ s_observer i = false /\ s_connection i = false /\
    calls y = calls x ++ (if server_is_sandesh && bool_decide (state_ x = ESTABLISHED)
                          then [DisconnectSession (Some s)] else []).
Proof.
  intros Hx%inv_reachable Eq Es Ed.
  pose proof (inv_current_alive [] x s Hx Es) as [i Ei]%elem_of_dom.
  rewrite (dequeue_valid x _ q) by (done || (cbn; destruct Hx as [_ (->&_)]; by rewrite Es, bool_decide_true)).
  pose proof (taken_same (EvTcpClose (Some s)) q false x) as (Tq&Ts&_&Tss&_&Td&Tf&_).
  apply frame_eq in Tf as [Tst Tc]. destruct Hx as [(_&_&_&_&_&_&Hdel) (_&Hst&_)].
  rewrite <- Tc, <- Tst in *. rewrite <- Ts in Es. rewrite <- Td in Hdel. rewrite <- Tss in Ei.
  revert Tq Es Ei Hdel Hst. rewrite <- Ts. generalize (taken (EvTcpClose (Some s)) q false x). clear.
  intros z <- Es Ei Hdel Hst. unfold process_event.
  destruct Hst as [->| ->]; [by rewrite Es|..]; cbn [ServerInit_react Established_react].
  - destruct (drop_current s i z Es Ei Hdel) as (y&?&?&?&?&?&Esy&?). exists y, (quiesce i).
    rewrite Esy, lookup_insert_eq, andb_false_r, app_nil_r. done.
  - set (z' := ProcessDisconnect _ _ _ _).
    assert (session_ z' = Some s /\ sessions z' = sessions z /\ deleted_ z' = false /\ queue_ z' = queue_ z /\
      calls z' = calls z ++ (if server_is_sandesh then [DisconnectSession (Some s)] else []))
      as (E1&E2&E3&E4&E5).
    { unfold z', ProcessDisconnect. rewrite Es. destruct server_is_sandesh; cbn; by rewrite ?app_nil_r. }
    rewrite <- E2 in Ei. destruct (drop_current s i z' E1 Ei E3) as (y&?&?&?&?&Eq&Esy&Ecy). exists y, (quiesce i).
    rewrite Esy, Ecy, Eq, E4, E5, lookup_insert_eq, andb_true_r. done.
Qed.

(** A close of a session that is not the current one is counted as a failed
    dequeue and changes nothing else: neither state nor sessions nor what the server
    was told. *)
Theorem server_stale_close_ignored x o q :
  reachable x -> queue_ x = EvTcpClose o :: q -> session_ x <> o -> disabled x = false ->
  exists y, step InDequeue x = Some y /\ queue_ y = q /\ state_ y = state_ x /\ session_ y = session_ x /\
    conn_session_ y = conn_session_ x /\ sessions y = sessions x /\ deleted_sessions y = deleted_sessions x /\
    calls y = calls x.
Proof.
  intros Hx%inv_reachable Eq Es Ed. exists (taken (EvTcpClose o) q true x). split.
  - destruct Hx as [(_&_&_&_&_&_&Hdel) (Hc&_)]. cbn [ServerSM.step]. rewrite Ed, Eq. unfold DequeueEvent.
    assert (deleted_ (set_queue q (AtomicDecrementQueueCount (EvTcpClose o) x)) = false) as -> by done.
    assert (validate (EvTcpClose o) (sm_set_last_event (type_name (EvTcpClose o))
      (set_queue q (AtomicDecrementQueueCount (EvTcpClose o) x))) = false) as ->; [|done].
    cbn. rewrite Hc, !bool_decide_false by done. done.
  - pose proof (taken_same (EvTcpClose o) q true x) as (?&?&?&?&?&_&[? ?]%frame_eq&_). done.
Qed.

(** C33: each message a session delivers is accounted for once.  It is counted as
    dropped, with no other change to the machine, and then the session goes on only
    if the message was dropped for the drop level; or it is counted as received and
    becomes one event: a message event, or a control event whose header and name, read
    a second time, are those of the message.  The byte counters grow by its length. *)
Theorem server_message_accounted msg x :
  match OnSandeshMessage header_read fuel Create flow_collection_disabled msg x with
  | Some (ok, y) => handled msg ok x y
  | None => unreadable header_read fuel Create flow_collection_disabled msg x
  end.
Proof. apply OnSandeshMessage_handled; exact CreateInstance. Qed.

(** *** The last state *)
Definition same_state (x y : t) : Prop := state_ y = state_ x /\ last_state_ y = last_state_ x.
Definition settled (x y : t) : Prop := same_state x y \/ last_state_ y = state_ y.

Lemma same_state_Enqueue e x : same_state x (Enqueue e x).
Proof. unfold same_state. destruct (Enqueue_frame e x) as (Hf&_). unfold frame in Hf. by injection Hf. Qed.
Lemma same_state_trans x y z : same_state x y -> same_state y z -> same_state x z.
Proof. intros [E1 E2] [E3 E4]. split; congruence. Qed.
Lemma same_state_settled x y z : same_state x y -> settled y z -> settled x z.
Proof. intros Hs [Hz|Hz]; [left; by eapply same_state_trans | by right]. Qed.

Lemma on_session_same s f x y : on_session s f x = Some y -> same_state x y.
Proof. unfold on_session. destruct (sessions x !! s); [|done]. by intros [= <-]. Qed.
Lemma DeleteSession_same s x y : DeleteSession s x = Some y -> same_state x y.
Proof.
  unfold DeleteSession. destruct (on_session s quiesce x) as [z|] eqn:E; [|done]. intros [= <-].
  eapply same_state_trans; [by eapply on_session_same|apply same_state_Enqueue].
Qed.
Lemma sm_set_session_same o x y : sm_set_session o x = Some y -> same_state x y.
Proof.
  unfold sm_set_session. destruct (session_ x) as [s|]; [|by intros [= <-]].
  destruct (DeleteSession s x) as [z|] eqn:E; [|done]. intros [= <-]. apply DeleteSession_same in E. done.
Qed.
Lemma drop_settled x y : drop_to_idle x = Some y -> settled x y.
Proof.
  unfold drop_to_idle. destruct (sm_set_session None x); [|done]. intros [= <-]. by right.
Qed.
Lemma transit_to_idle_settled x y : transit_to_idle x = Some y -> settled x y.
Proof. unfold transit_to_idle. destruct (OnIdle _); [|done]. intros [= <-]. by right. Qed.
Lemma DeleteTcpSession_settled s x y : DeleteTcpSession s x = Some y -> settled x y.
Proof. unfold DeleteTcpSession. destruct (sessions x !! s); [|done]. intros [= <-]. by left. Qed.
Lemma or_drop_settled (ok : bool) x z y :
  settled x z -> (if negb ok then drop_to_idle x else Some z) = Some y -> settled x y.
Proof. intros Hz. destruct ok; cbn [negb]; [by intros [= <-] | apply drop_settled]. Qed.

Lemma process_event_settled e x y :
  process_event CreateInstance server_is_sandesh answers e x = Some y -> settled x y.
Proof.
  assert (forall z, Some x = Some z -> settled x z) as Hid by (intros z [= <-]; by left).
  unfold process_event. destruct (state_ x).
  - destruct e; cbn [Idle_react]; eauto using DeleteTcpSession_settled.
    + destruct (negb _); intros [= <-]; [|by right]. unfold StartIdleHoldTimer.
      destruct (_ <=? _); by left.
    + intros [= <-]. by left.
    + intros [= <-]. by right.
    + intros E. left. by eapply DeleteSession_same.
  - destruct e; cbn [Active_react]; eauto using DeleteTcpSession_settled, drop_settled, transit_to_idle_settled.
    destruct (sm_set_session _ x) as [z|]; [cbn [mbind option_bind]|done].
    destruct (on_session _ _ z) as [w|]; [cbn [mbind option_bind]|done]. intros [= <-]. by right.
  - destruct e; cbn [Established_react]; eauto using DeleteTcpSession_settled, drop_settled, transit_to_idle_settled.
    + intros E. eapply same_state_settled; [|by eapply drop_settled]. unfold ProcessDisconnect.
      by destruct (negb _).
    + unfold ProcessSandeshMessage. destruct (negb server_is_sandesh); apply or_drop_settled; by left.
    + unfold ProcessResourceUpdate. destruct (negb server_is_sandesh).
      * apply (or_drop_settled false). by left.
      * destruct (call _ _ _) as [ok z] eqn:Ec. injection Ec as _ <-.
        intros E. eapply same_state_settled; [|eapply or_drop_settled; [|exact E]]; by try left.
  - destruct e; cbn [ServerInit_react]; eauto using DeleteTcpSession_settled, drop_settled, transit_to_idle_settled.
    + unfold ProcessSandeshMessage. destruct (negb server_is_sandesh); apply or_drop_settled; by left.
    + unfold ProcessSandeshCtrlMessage. destruct (negb server_is_sandesh); [by apply drop_settled|].
      destruct (DecodeCtrlSandesh _ _ _ _ _) as [[]|]; [cbn [mbind option_bind negb]|done..].
      set (c := ReceiveSandeshCtrlMsg _ _). destruct (call answers c x) as [ok z] eqn:Ec. cbn [mbind option_bind].
      injection Ec as _ <-. intros E. eapply same_state_settled; [|eapply or_drop_settled; [|exact E]]; [by split|].
      by right.
Qed.

Lemma DequeueEvent_settled e x y :
  DequeueEvent CreateInstance server_is_sandesh answers e x = Some y -> settled x y.
Proof.
  unfold DequeueEvent. destruct (deleted_ x); [intros [= <-]; by left|].
  destruct (validate e _); [|intros [= <-]; by left]. intros E. apply process_event_settled in E.
  eapply same_state_settled; [|exact E]. done.
Qed.
Lemma DeleteActor_settled x y : DeleteActor_Shutdown x = Some y -> settled x y.
Proof.
  unfold DeleteActor_Shutdown, clear_session. destruct (session_ x) as [s|]; [|intros [= <-]; by left].
  destruct (on_session s quiesce x) as [z|] eqn:E; [cbn [mbind option_bind]|done].
  destruct (sessions _ !! s); [|done]. cbn [mbind option_bind]. intros [= <-].
  left. apply on_session_same in E. exact E.
Qed.
Lemma drop_level_settled level cb x y : SetSandeshMessageDropLevel level cb x = Some y -> settled x y.
Proof.
  unfold SetSandeshMessageDropLevel. set (z := if negb _ then _ else _).
  assert (same_state x z) as Hz by (unfold z; by destruct (negb _)).
  destruct cb; [|intros [= <-]; by left]. destruct (session_ z); [|intros [= <-]; by left].
  intros E%on_session_same. left. by eapply same_state_trans.
Qed.
Lemma handled_settled msg ok x y : handled msg ok x y -> settled x y.
Proof.
  intros [(f&m&->&_)|(e&m&->&_)]; left; [done|]. eapply same_state_trans; [|apply same_state_Enqueue]. done.
Qed.
Lemma accept_settled s x y : conn_AcceptSession s x = Some y -> settled x y.
Proof.
  unfold conn_AcceptSession, PassiveOpen.
  destruct (on_session _ _ x) as [z|] eqn:Ez; [cbn [mbind option_bind]|done].
  destruct (on_session _ _ z) as [w|] eqn:Ew; [cbn [mbind option_bind]|done]. intros [= <-].
  apply on_session_same in Ez, Ew. left.
  eapply same_state_trans; [exact Ez|]. eapply same_state_trans; [exact Ew|]. apply same_state_Enqueue.
Qed.

(** The state after a step, and the last state when it differs. *)
Lemma step_last i x y : step i x = Some y -> settled x y \/ state_ y = state_ x.
Proof.
  assert (forall e, settled x (Enqueue e x)) as He by (intros e; left; apply same_state_Enqueue).
  destruct i; cbn [ServerSM.step]; try (intros [= <-]; left; first [by apply He | by left]).
  - intros [= <-]. right. unfold conn_SetAdminState, SetAdminState. destruct (Bool.eqb _ _), down; try done.
    all: match goal with |- state_ (Enqueue ?e ?z) = _ => by destruct (same_state_Enqueue e z) end.
  - destruct (_ || _); [intros [= <-]; left; by left|]. intros E%accept_settled. by left.
  - case_bool_decide; intros [= <-]; left; [|by left]. destruct ev; [by apply He|by left..].
  - case_bool_decide; [|intros [= <-]; left; by left].
    pose proof (OnSandeshMessage_handled header_read CreateInstance fuel Create flow_collection_disabled msg x) as Hh.
    destruct (OnSandeshMessage _ _ _ _ _ _) as [[ok z]|]; [cbn [mbind option_bind]|done].
    intros [= <-]. left. by eapply handled_settled.
  - destruct (disabled x); [intros [= <-]; left; by left|]. destruct (queue_ x) as [|e q]; [intros [= <-]; left; by left|].
    intros E%DequeueEvent_settled. left. eapply same_state_settled; [|exact E].
    unfold AtomicDecrementQueueCount. by destruct (GetEvSandeshMessageRecvSize e).
  - destruct (timer_running x); intros [= <-]; left; [|by left]. left.
    eapply same_state_trans; [|apply same_state_Enqueue]. done.
  - intros [= <-]. left. left. by destruct high.
  - destruct (_ !! _); [|intros [= <-]; left; by left]. intros E%drop_level_settled. by left.
  - intros E%DeleteActor_settled. by left.
Qed.

(** After a step that changes the state, the "last state" the machine reports is
    the state it is in, not the one it left: [set_state] assigns the new state to
    [last_state_] as well. *)
Theorem server_last_state_is_current i x y :
  step i x = Some y -> state_ y <> state_ x -> LastStateName y = StateName y.
Proof.
  intros E Hn. unfold LastStateName, StateName. apply step_last in E as [[[E _]|E]|E]; [done|by rewrite E|done].
Qed.

(** *** Establishing a session *)
Definition core (x : t) := (message_drop_level_ x, disabled x, deleted_ x, calls x).

Lemma core_Enqueue e x : core (Enqueue e x) = core x.
Proof.
  unfold Enqueue, AtomicIncrementQueueCount. destruct (deleted_ x) eqn:E; [done|].
  destruct (GetEvSandeshMessageRecvSize e); unfold core; cbn; by rewrite E.
Qed.
Lemma core_transit s x : core (transit s x) = core x.
Proof. unfold transit, leave. by destruct (state_ x), s. Qed.
Lemma core_taken e q (fail : bool) x : core (taken e q fail x) = core x.
Proof. unfold taken, AtomicDecrementQueueCount. by destruct (GetEvSandeshMessageRecvSize e). Qed.
Lemma run_app l k x : run (l ++ k) x = (y ← run l x; run k y).
Proof.
  revert x. induction l as [|i l IH]; intros x; [done|]. cbn [app ServerSM.run].
  destruct (step i x); [apply IH|done].
Qed.
Lemma inv_run ins x y : inv [] x -> run ins x = Some y -> inv [] y.
Proof.
  revert x. induction ins as [|i ins IH]; intros x Hx; cbn [ServerSM.run]; [by intros [= <-]|].
  destruct (inv_step header_read CreateInstance fuel server_is_sandesh answers Create flow_collection_disabled
              i x Hx) as [(z&->&Hz&_)|[-> _]]; [by apply IH|done].
Qed.

Lemma accept_new s x :
  s ∉ dom (sessions x) -> s ∉ deleted_sessions x ->
  exists m, step (InAccept s) x = Some (Enqueue (EvTcpPassiveOpen s) (set_sessions m x)) /\ is_Some (m !! s).
Proof.
  intros Hd Hdel. cbn [ServerSM.step]. rewrite !bool_decide_false by done. cbn [orb].
  unfold conn_AcceptSession, PassiveOpen, on_session. cbn [sessions set_sessions].
  rewrite lookup_insert_eq. cbn [mbind option_bind sessions set_sessions]. rewrite lookup_insert_eq.
  cbn [mbind option_bind]. eexists. split; [done|]. rewrite lookup_insert_eq. by eexists.
Qed.

Lemma open_active s x :
  state_ x = ACTIVE -> session_ x = None -> is_Some (sessions x !! s) ->
  exists y, Active_react (EvTcpPassiveOpen s) x = Some y /\ state_ y = SERVER_INIT /\ session_ y = Some s /\
    queue_ y = queue_ x /\ core y = core x.
Proof.
  intros Est Es [i Ei]. cbn [Active_react]. unfold sm_set_session, on_session. rewrite Es.
  cbn [mbind option_bind sessions set_session_ptr set_session set_conn_session]. rewrite Ei.
  cbn [mbind option_bind]. eexists. split; [done|]. rewrite core_transit.
  match goal with |- context [transit ?s ?z] => pose proof (transit_same s z) as (->&->&_&_&_&_&_&_&_&->&_) end.
  done.
Qed.

Lemma accept_opens s x :
  inv [] x -> state_ x = ACTIVE -> queue_ x = [] -> disabled x = false ->
  s ∉ dom (sessions x) -> s ∉ deleted_sessions x ->
  exists y, run [InAccept s; InDequeue] x = Some y /\ state_ y = SERVER_INIT /\ session_ y = Some s /\
    queue_ y = [] /\ core y = core x.
Proof.
  intros Hi Est Eq Ed Hd Hdel. destruct (accept_new s x Hd Hdel) as (m&E&Hm). cbn [ServerSM.run].
  rewrite E. cbn [mbind option_bind]. set (z := Enqueue _ _) in *.
  assert (inv [] z) as Hz by (apply (inv_run [InAccept s] x z Hi); cbn [ServerSM.run]; by rewrite E).
  assert (deleted_ x = false) as Hdx by (by destruct Hi as [(_&_&_&_&_&_&?) _]).
  assert (session_ x = None) as Hsx.
  { destruct Hi as [_ (_&Hs&_)]. destruct (session_ x); [|done]. rewrite Est in Hs. by destruct Hs as [?|?]. }
  destruct (Enqueue_frame (EvTcpPassiveOpen s) (set_sessions m x)) as (Hf&F1&_&F2&_). apply frame_eq in Hf as [F3 _].
  assert (core z = core x) as Hcz by exact (core_Enqueue _ (set_sessions m x)).
  assert (queue_ z = [EvTcpPassiveOpen s]) as Hqz by (unfold z; rewrite queue_Enqueue by done; cbn; by rewrite Eq).
  rewrite (dequeue_valid z (EvTcpPassiveOpen s) []) by (done || (injection Hcz; congruence)).
  pose proof (taken_same (EvTcpPassiveOpen s) [] false z) as (Tq&Ts&_&Tss&_&_&[Tst _]%frame_eq&_).
  unfold process_event. rewrite Tst. replace (state_ z) with ACTIVE by (unfold z; by rewrite F3).
  destruct (open_active s (taken (EvTcpPassiveOpen s) [] false z)) as (y&->&?&?&?&?).
  - by rewrite Tst; unfold z; rewrite F3.
  - by rewrite Ts; unfold z; rewrite F1.
  - by rewrite Tss; unfold z; rewrite F2.
  - exists y. split; [done|]. split; [done|]. split; [done|]. split; [congruence|].
    rewrite <- Hcz. by rewrite <- (core_taken (EvTcpPassiveOpen s) [] false z).
Qed.

(** A control message that decodes and that the server takes establishes. *)
Lemma control_establishes s msg m off x :
  inv [] x -> state_ x = SERVER_INIT -> session_ x = Some s -> queue_ x = [] -> disabled x = false ->
  server_is_sandesh = true -> Create msg = Some m ->
  DoDropSandeshMessage flow_collection_disabled (header_ m) (message_drop_level_ x) = false ->
  has_control_hint (header_ m) = true ->
  ExtractMsgHeader header_read fuel msg = Some (inr (header_ m, message_type_ m, off)) ->
  DecodeCtrlSandesh CreateInstance msg (header_ m) (message_type_ m) off = Some true ->
  answers (calls x ++ [ReceiveSandeshCtrlMsg (Some s) (message_type_ m)]) = true ->
  exists y, run [InMessage s msg; InDequeue] x = Some y /\ state_ y = ESTABLISHED /\ session_ y = Some s /\
    conn_session_ y = Some s /\ resource_ y = true /\ queue_ y = [] /\
    calls y = calls x ++ [ReceiveSandeshCtrlMsg (Some s) (message_type_ m)].
Proof.
  intros Hi Est Es Eq Ed Hsrv Hc Hdrop Hh Hx Hdec Hans.
  set (e := EvSandeshCtrlMessageRecv msg (header_ m) (message_type_ m) off).
  assert (exists st, step (InMessage s msg) x = Some (Enqueue e (set_message_stats st x))) as [st E].
  { cbn [ServerSM.step]. rewrite bool_decide_true by (by eapply inv_current_alive). unfold OnSandeshMessage.
    rewrite Hc, Hdrop, Hh, Hx. cbn [mbind option_bind]. rewrite !bool_decide_true by done. cbn [negb orb].
    destruct (UpdateRxMsgStats_spec (message_type_ m) (zlen msg) x) as (st&->&_). by exists st. }
  cbn [ServerSM.run]. rewrite E. cbn [mbind option_bind]. set (z := Enqueue _ _) in *.
  assert (inv [] z) as Hz by (apply (inv_run [InMessage s msg] x z Hi); cbn [ServerSM.run]; by rewrite E).
  assert (deleted_ x = false) as Hdx by (by destruct Hi as [(_&_&_&_&_&_&?) _]).
  destruct (Enqueue_frame e (set_message_stats st x)) as (Hf&F1&F2&_). apply frame_eq in Hf as [F3 F4].
  assert (core z = core x) as Hcz by exact (core_Enqueue _ (set_message_stats st x)).
  assert (queue_ z = [e]) as Hqz by (unfold z; rewrite queue_Enqueue by done; cbn; by rewrite Eq).
  rewrite (dequeue_valid z e []) by (done || (injection Hcz; congruence)).
  pose proof (taken_same e [] false z) as (Tq&Ts&Tc&_&_&_&[Tst Tca]%frame_eq&_).
  assert (conn_session_ z = Some s) as Hcs.
  { destruct Hz as [_ (->&_)]. unfold z. rewrite F1. done. }
  assert (calls z = calls x) as Hca by (unfold z; by rewrite F4).
  assert (state_ z = SERVER_INIT) as Hsz by (unfold z; by rewrite F3).
  assert (session_ z = Some s) as Hssz by (unfold z; by rewrite F1).
  rewrite <- Tst in Hsz. rewrite <- Ts in Hssz. rewrite <- Tc in Hcs. rewrite <- Tca in Hca.
  revert Tq Hsz Hssz Hcs Hca. generalize (taken e [] false z). intros w Tq Hsw Hssw Hcs Hca.
  unfold process_event. rewrite Hsw. cbn [ServerInit_react e]. unfold ProcessSandeshCtrlMessage, call.
  rewrite Hsrv, Hdec. cbn [negb mbind option_bind calls set_calls]. rewrite Hcs, Hca, Hans. cbn [negb].
  eexists. split; [done|]. rewrite transit_calls.
  match goal with |- context [transit ?s ?z] => pose proof (transit_same s z) as (->&->&->&_&_&_&_&_&_&->&_) end.
  cbn [session_ conn_session_ queue_ calls set_calls]. done.
Qed.

(** C27: a collector client gets through.  From any reachable state in Active with an
    empty queue, accepting a new session and taking in one control message that
    passes the drop level, reads back consistently, decodes and is accepted by the
    server leaves the machine in Established on that session, with the resource flag
    up, an empty queue, sending enabled, and exactly one call made to the server. *)
Theorem server_establishes x s msg m off :
  reachable x -> state_ x = ACTIVE -> queue_ x = [] -> disabled x = false ->
  s ∉ dom (sessions x) -> s ∉ deleted_sessions x ->
  server_is_sandesh = true -> Create msg = Some m ->
  DoDropSandeshMessage flow_collection_disabled (header_ m) (message_drop_level_ x) = false ->
  has_control_hint (header_ m) = true ->
  ExtractMsgHeader header_read fuel msg = Some (inr (header_ m, message_type_ m, off)) ->
  DecodeCtrlSandesh CreateInstance msg (header_ m) (message_type_ m) off = Some true ->
  answers (calls x ++ [ReceiveSandeshCtrlMsg (Some s) (message_type_ m)]) = true ->
  exists y, run [InAccept s; InDequeue; InMessage s msg; InDequeue] x = Some y /\
    state_ y = ESTABLISHED /\ session_ y = Some s /\ resource_ y = true /\ queue_ y = [] /\
    conn_SendSandesh y = true /\
    calls y = calls x ++ [ReceiveSandeshCtrlMsg (Some s) (message_type_ m)].
Proof.
  intros Hx%inv_reachable Est Eq Ed Hd Hdel Hsrv Hc Hdrop Hh Hex Hdec Hans.
  destruct (accept_opens s x) as (y&Ey&?&?&?&Hcore); [done..|].
  pose proof (inv_run _ _ _ Hx Ey) as Hy. injection Hcore as C1 C2 C3 C4.
  destruct (control_establishes s msg m off y) as (w&Ew&Hst&?&Hcs&?&?&Hca); try done; try congruence.
  exists w. split; [|unfold conn_SendSandesh; rewrite Hcs, Hst, Hca, C4; done].
  change (run ([InAccept s; InDequeue] ++ [InMessage s msg; InDequeue]) x = Some w).
  rewrite run_app, Ey. exact Ew.
Qed.

End Claims.

(** ** A concrete server *)
Section Demo.
#[local] Existing Instance TMemoryBuffer.total_allocator.
#[local] Existing Instance decimal_texts.
Definition demo_header : SandeshHeader :=
  MkHeader [] 0 [] [] [] 0 0 SYSTEM SANDESH_CONTROL_HINT 4 [] [] [] None None.
Definition demo_msg (name : list byte) : list byte :=
  [kcXMLTagO] ++ name ++ bs " " ++ kAttrTypeSandesh ++ [kcXMLTagC].
Definition demo_read : M (TXMLProtocol.t TMemoryBuffer.t) (Z * SandeshHeader) :=
  fun p => Some ((1, demo_header), p).
Definition demo_factory (name : list byte) : option (M (TXMLProtocol.t TMemoryBuffer.t) Z) :=
  if bool_decide (name = bs "Hello") then Some (fun p => Some (0, p)) else None.
Definition demo_create (msg : list byte) : option SandeshMessage :=
  Some (MkMessage demo_header (if bool_decide (msg = demo_msg (bs "Hello")) then bs "Hello" else bs "Other")
          (zlen msg)).
Abbreviation drun := (run demo_read demo_factory 100 true (fun _ => true) demo_create false).
Abbreviation dstep := (step demo_read demo_factory 100 true (fun _ => true) demo_create false).
Abbreviation dreach := (reachable demo_read demo_factory 100 true (fun _ => true) demo_create false).

Definition to_active : list input := [InInitialize; InDequeue].
Definition to_established : list input :=
  to_active ++ [InAccept 7%positive; InDequeue; InMessage 7%positive (demo_msg (bs "Hello")); InDequeue].
Definition closing : list input := to_established ++ [InSession 7%positive CLOSE].
Definition at_of (ins : list input) : t := default (init 0) (drun ins (init 0)).

Lemma demo_reachable ins : is_Some (drun ins (init 0)) -> dreach (at_of ins).
Proof.
  intros [y E]. unfold at_of. rewrite E. by eapply run_reachable; [apply reachable_init|].
Qed.

Lemma server_undefined_exactly_witness :
  let x := at_of (to_active ++ [InAccept 7%positive; InDequeue; InMessage 7%positive (demo_msg (bs "Other"))]) in
  dreach x /\ (dstep InDequeue x = None <-> stuck demo_read demo_factory 100 true demo_create false InDequeue x) /\
  dstep InDequeue x = None.
Proof.
  intros x. assert (dreach x) as Hx by (apply demo_reachable; vm_compute; by eexists).
  split; [done|]. split; [by apply server_undefined_exactly|]. vm_compute. reflexivity.
Defined.

Lemma server_session_ownership_witness :
  let x := at_of (closing ++ [InDequeue; InDequeue]) in
  deleted_sessions x = [7%positive] /\ NoDup (deleted_sessions x).
Proof.
  intros x. split; [vm_compute; reflexivity|].
  apply (server_session_ownership demo_read demo_factory 100 true (fun _ => true) demo_create false x).
  apply demo_reachable. vm_compute. by eexists.
Defined.

Lemma server_state_session_fit_witness :
  let x := at_of to_established in
  state_ x = ESTABLISHED /\ session_ x <> None.
Proof.
  intros x. assert (dreach x) as Hx by (apply demo_reachable; vm_compute; by eexists).
  destruct (server_state_session_fit _ _ _ _ _ _ _ x Hx) as (_&_&H&_).
  assert (state_ x = ESTABLISHED) as Hs by (vm_compute; reflexivity). split; [done|].
  apply H; [vm_compute; reflexivity | by right].
Defined.

Lemma server_queue_balanced_witness :
  let x := at_of closing in
  queue_ x = [EvTcpClose (Some 7%positive)] /\
  u64 (SandeshEventStatistics.enqueues (agg x)) =
    u64 (SandeshEventStatistics.dequeues (agg x) + SandeshEventStatistics.dequeue_fails (agg x) +
         zlen (queue_ x)).
Proof.
  intros x. split; [vm_compute; reflexivity|].
  apply (server_queue_balanced demo_read demo_factory 100 true (fun _ => true) demo_create false x).
  apply demo_reachable. vm_compute. by eexists.
Defined.

Lemma server_close_ends_session_witness :
  exists y, dstep InDequeue (at_of closing) = Some y /\ state_ y = IDLE /\
    queue_ y = [EvTcpDeleteSession 7%positive].
Proof.
  destruct (server_close_ends_session demo_read demo_factory 100 true (fun _ => true) demo_create false
              (at_of closing) 7%positive []) as (y&i&E&Hs&_&_&Hq&_).
  - apply demo_reachable. vm_compute. by eexists.
  - vm_compute. reflexivity.
  - vm_compute. reflexivity.
  - vm_compute. reflexivity.
  - exists y. split; [exact E|]. split; [exact Hs|exact Hq].
Defined.

Lemma server_stale_close_ignored_witness :
  let x := at_of (to_established ++ [InAccept 8%positive; InDequeue; InSession 8%positive CLOSE]) in
  exists y, dstep InDequeue x = Some y /\ state_ y = ESTABLISHED.
Proof.
  intros x.
  destruct (server_stale_close_ignored demo_read demo_factory 100 true (fun _ => true) demo_create false
              x (Some 8%positive) []) as (y&E&_&Hs&_).
  - apply demo_reachable. vm_compute. by eexists.
  - vm_compute. reflexivity.
  - vm_compute. discriminate.
  - vm_compute. reflexivity.
  - exists y. split; [exact E|]. rewrite Hs. vm_compute. reflexivity.
Defined.

Lemma server_last_state_is_current_witness :
  let x := at_of [InInitialize] in
  exists y, dstep InDequeue x = Some y /\ LastStateName y = StateName y.
Proof.
  intros x. eexists. split; [vm_compute; reflexivity|].
  apply (server_last_state_is_current demo_read demo_factory 100 true (fun _ => true) demo_create false
           InDequeue x); [vm_compute; reflexivity | vm_compute; discriminate].
Defined.

Lemma server_establishes_witness :
  exists y, drun [InAccept 9%positive; InDequeue; InMessage 9%positive (demo_msg (bs "Hello")); InDequeue]
              (at_of to_active) = Some y /\ state_ y = ESTABLISHED.
Proof.
  destruct (server_establishes demo_read demo_factory 100 true (fun _ => true) demo_create false
              (at_of to_active) 9%positive (demo_msg (bs "Hello"))
              (MkMessage demo_header (bs "Hello") (zlen (demo_msg (bs "Hello")))) 1) as (y&E&Hs&_).
  - apply demo_reachable. vm_compute. by eexists.
  - vm_compute. reflexivity.
  - vm_compute. reflexivity.
  - vm_compute. reflexivity.
  - apply (bool_decide_eq_true_1 (~ _)). vm_compute. reflexivity.
  - apply (bool_decide_eq_true_1 (~ _)). vm_compute. reflexivity.
  - reflexivity.
  - vm_compute. reflexivity.
  - vm_compute. reflexivity.
  - vm_compute. reflexivity.
  - vm_compute. reflexivity.
  - vm_compute. reflexivity.
  - reflexivity.
  - exists y. split; [exact E|exact Hs].
Defined.

End Demo.
End ServerClaims.
