(* ===== verification/BuilderClaims.v ===== *)
(** * Headers from the wire through the message builder

    A header written through the XML protocol, loaded by the builder with pugixml and, for
    a control message, read a second time through the protocol; and what becomes of the
    message when the server compares the two. *)

From S2P Require Import Prelude Transport Protocol Xml XmlSpec XmlRoundTrip XmlClaims Message MessageBuilder Statistics ServerSM.
Import TXMLProtocol Reader Tokens Structs MessageBuilder.
Local Open Scope Z_scope.

Module BuilderClaims.

(** ** Numbers *)
Lemma drop_while_all p l : Forall (fun b => p b = true) l -> drop_while p l = [].
Proof. induction 1 as [|b l Hb _ IH]; [done|]. cbn. by rewrite Hb. Qed.
Lemma take_while_all p l : Forall (fun b => p b = true) l -> take_while p l = l.
Proof. induction 1 as [|b l Hb _ IH]; [done|]. cbn. by rewrite Hb, IH. Qed.

(** A digit is neither a space nor a sign. *)
Lemma strtoul_digits b l :
  Forall (fun b => is_digit b = true) (b :: l) -> dec_value (b :: l) < 2 ^ 64 ->
  strtoul (b :: l) = (dec_value (b :: l), []) /\ strtoul (x2d :: b :: l) = (u64 (- dec_value (b :: l)), []).
Proof.
  intros Hl Hv. pose proof (take_while_all is_digit _ Hl) as Et. pose proof (drop_while_all is_digit _ Hl) as Ed.
  apply Forall_cons_iff in Hl as [Hb _].
  assert (drop_while c_space (b :: l) = b :: l) as Es by (destruct b; try discriminate Hb; reflexivity).
  unfold strtoul. rewrite Es. change (drop_while c_space (x2d :: b :: l)) with (x2d :: b :: l). cbn iota beta.
  replace (match b :: l with x2d :: l2 => (true, l2) | x2b :: l2 => (false, l2) | _ => (false, b :: l) end)
    with (false, b :: l) by (destruct b; try discriminate Hb; reflexivity).
  rewrite Et, Ed. destruct (Z.leb_spec (2 ^ 64) (dec_value (b :: l))); [lia|done].
Qed.

Lemma strtoul_signed z : - 2 ^ 63 <= z < 2 ^ 63 -> strtoul (signed_text z) = (u64 z, []).
Proof.
  intros Hz. unfold signed_text.
  assert (forall n, 0 <= n < 2 ^ 64 -> exists b l, dec_text n = b :: l /\ dec_value (b :: l) = n /\
    Forall (fun b => is_digit b = true) (b :: l)) as Ht.
  { intros n Hn. destruct (dec_text_spec n Hn) as (Hne&Hd&Hv). destruct (dec_text n) as [|b l]; [done|]. by exists b, l. }
  destruct (Z.ltb_spec z 0).
  - destruct (Ht (- z)) as (b&l&->&Ev&Hl); [lia|]. rewrite (proj2 (strtoul_digits b l Hl ltac:(lia))), Ev. by rewrite Z.opp_involutive.
  - destruct (Ht z) as (b&l&->&Ev&Hl); [lia|]. rewrite (proj1 (strtoul_digits b l Hl ltac:(lia))), Ev. by rewrite wrapU_small by lia.
Qed.

(** ** The header on the wire *)
Definition type_code (ty : SandeshType) : Z :=
  match ty with
  | INVALID => 0 | SYSTEM => 1 | REQUEST => 2 | RESPONSE => 3 | TRACE => 4 | BUFFER => 5 | UVE => 6 | OBJECT => 7
  | FLOW => 8 | TRACE_OBJECT => 9 | SYSLOG => 10 | ALARM => 11 | SESSION => 12
  end.

(** The fields of [SandeshHeader] in the order of its definition. *)
Definition header_fields (h : SandeshHeader) : list field :=
  [MkField (bs "Namespace") 1 (VString (Namespace h)); MkField (bs "Timestamp") 2 (VInt T_I64 (Timestamp h));
   MkField (bs "Module") 3 (VString (hModule h)); MkField (bs "Source") 4 (VString (Source h));
   MkField (bs "Context") 5 (VString (hContext h)); MkField (bs "SequenceNum") 6 (VInt T_I32 (SequenceNum h));
   MkField (bs "VersionSig") 7 (VInt T_I32 (VersionSig h)); MkField (bs "Type") 8 (VInt T_I32 (type_code (hType h)));
   MkField (bs "Hints") 9 (VInt T_I32 (Hints h)); MkField (bs "Level") 10 (VInt T_I32 (hLevel h));
   MkField (bs "Category") 11 (VString (Category h)); MkField (bs "NodeType") 12 (VString (NodeType h));
   MkField (bs "InstanceId") 13 (VString (InstanceId h))] ++
  match IPAddress h with Some a => [MkField (bs "IPAddress") 14 (VString a)] | None => [] end ++
  match Pid h with Some p => [MkField (bs "Pid") 15 (VInt T_I32 p)] | None => [] end.

Definition int32 (z : Z) : Prop := - 2 ^ 31 <= z < 2 ^ 31.
Definition header_ok (h : SandeshHeader) : Prop :=
  - 2 ^ 63 <= Timestamp h < 2 ^ 63 /\ int32 (SequenceNum h) /\ int32 (VersionSig h) /\ int32 (Hints h) /\
  int32 (hLevel h) /\ from_option int32 True (Pid h).

(** ** Text as pugixml gives it

    What is documented of [parse_default] without [parse_escapes]: text of white space alone
    makes no node, and in other text the ends of lines, CR or CR LF, become LF.  Entities
    stay as they are. *)
Definition xml_space (b : byte) : bool := match b with x20 | x09 | x0a | x0d => true | _ => false end.
Fixpoint eol (l : list byte) : list byte :=
  match l with
  | x0d :: l => x0a :: match l with x0a :: l' => eol l' | _ => eol l end
  | b :: l => b :: eol l
  | [] => []
  end.
Definition pcdata (l : list byte) : list byte := if forallb xml_space l then [] else eol l.

Lemma eol_cons b l : b <> x0d -> eol (b :: l) = b :: eol l.
Proof. by destruct b. Qed.
Lemma eol_id l : x0d ∉ l -> eol l = l.
Proof.
  induction l as [|b l IH]; [done|]. intros [Hb Hl]%not_elem_of_cons. rewrite eol_cons by congruence. by rewrite IH.
Qed.
Lemma eol_no_cr l : x0d ∉ eol l.
Proof.
  enough (x0d ∉ eol l /\ forall b, x0d ∉ eol (b :: l)) as [H _] by exact H. induction l as [|c l [IH1 IH2]].
  - split; [apply not_elem_of_nil|]. intros b. destruct (decide (b = x0d)) as [->|Hb]; [cbn; set_solver|].
    rewrite eol_cons by done. cbn. set_solver.
  - split; [apply IH2|]. intros b. destruct (decide (b = x0d)) as [->|Hb].
    + specialize (IH2 c). destruct c; cbn [eol] in *; set_solver.
    + rewrite eol_cons by done. specialize (IH2 c). set_solver.
Qed.
Lemma pcdata_id l : x0d ∉ l -> forallb xml_space l = false -> pcdata l = l.
Proof. intros Hl Hs. unfold pcdata. by rewrite Hs, eol_id. Qed.

(** Numbers are not changed. *)
Lemma digit_plain b : is_digit b = true -> b <> x0d /\ xml_space b = false.
Proof. by destruct b. Qed.
Lemma pcdata_number z : - 2 ^ 63 <= z < 2 ^ 63 -> pcdata (signed_text z) = signed_text z.
Proof.
  intros Hz. assert (exists b l, signed_text z = b :: l /\ xml_space b = false /\ x0d ∉ b :: l) as (b&l&->&Hb&Hl).
  { unfold signed_text. destruct (Z.ltb_spec z 0).
    - destruct (dec_text_spec (- z)) as (_&Hd&_); [lia|]. eexists _, _. split; [done|]. split; [done|].
      apply not_elem_of_cons. split; [done|]. rewrite list.Forall_forall in Hd. intros Hin. by destruct (digit_plain _ (Hd _ Hin)).
    - destruct (dec_text_spec z) as (Hne&Hd&_); [lia|]. destruct (dec_text z) as [|b l]; [done|]. exists b, l. split; [done|].
      split; [apply Forall_cons_iff in Hd as [Hb _]; by destruct (digit_plain b Hb)|].
      rewrite list.Forall_forall in Hd. intros Hin. by destruct (digit_plain _ (Hd _ Hin)). }
  apply pcdata_id; [done|]. cbn. by rewrite Hb.
Qed.

(** The header as it is loaded: its strings with their entities, as pugixml gives them. *)
Definition on_strings (f : list byte -> list byte) (h : SandeshHeader) : SandeshHeader :=
  MkHeader (f (Namespace h)) (Timestamp h) (f (hModule h)) (f (Source h)) (f (hContext h)) (SequenceNum h) (VersionSig h)
    (hType h) (Hints h) (hLevel h) (f (Category h)) (f (NodeType h)) (f (InstanceId h)) (f <$> IPAddress h) (Pid h).
Definition loaded : SandeshHeader -> SandeshHeader := on_strings (fun l => pcdata (escapeXMLControlChars l)).

Section Builder.
Context `{!Pugi} `{!Texts}.
Hypothesis decimal : forall it z, integerToString it z = signed_text z.

(** The nodes of the fields: the identifier is the last attribute, the text is in it. *)
Definition shows (node : xml_node) (fs : list field) : Prop :=
  Forall2 (fun n f => last_attribute n = (bs "identifier", fid f) /\ child_value n = pcdata (text_of (fval f))) (node_children node) fs.

#[export] Instance shows_dec node fs : Decision (shows node fs).
Proof. unfold shows. apply _. Defined.

(** A negative number comes back out of the 64 bits of [strtoul]. *)
Lemma wrapS_u64 w z : 0 < w <= 64 -> - 2 ^ (w - 1) <= z < 2 ^ (w - 1) -> wrapS w (u64 z) = z.
Proof.
  intros Hw Hz. rewrite <- (wrapS_small w z) at 2 by lia. unfold wrapS, wrapU. f_equal.
  rewrite (Z.mod_eq z (2 ^ 64)) by lia. replace (2 ^ 64) with (2 ^ (64 - w) * 2 ^ w) by (rewrite <- Z.pow_add_r by lia; f_equal; lia).
  set (q := z / _).
  replace (z - 2 ^ (64 - w) * 2 ^ w * q + 2 ^ (w - 1)) with (z + 2 ^ (w - 1) + (- (2 ^ (64 - w) * q)) * 2 ^ w) by ring.
  apply Z.mod_add. apply Z.pow_nonzero; lia.
Qed.

Lemma ParseInteger_text n z : int32 z -> child_value n = signed_text z -> ParseInteger n = Some z.
Proof.
  intros Hz E. unfold ParseInteger, int32 in *. rewrite E, strtoul_signed by lia. cbn iota beta. by rewrite wrapS_u64 by lia.
Qed.

(** One node after the other. *)
Lemma ParseHeader_step node nodes h h' : parse_node node h = Some (Some h') -> ParseHeader (node :: nodes) h = ParseHeader nodes h'.
Proof. intros E. cbn. by rewrite E. Qed.
Lemma assign_text n z set : child_value n = signed_text z -> int32 z -> assign (ParseInteger n) set = Some (Some (set z)).
Proof. intros E Hz. unfold assign. by rewrite (ParseInteger_text n z). Qed.
Lemma assign_timestamp n z h : - 2 ^ 63 <= z < 2 ^ 63 -> child_value n = signed_text z ->
  assign (ParseUnsignedLong n) (fun v => set_Timestamp (i64 v) h) = Some (Some (set_Timestamp z h)).
Proof.
  intros Hz E. unfold assign, ParseUnsignedLong. rewrite E, strtoul_signed by done. cbn iota beta. by rewrite wrapS_u64 by lia.
Qed.
Lemma assign_type n ty h : child_value n = signed_text (type_code ty) ->
  match ParseInteger n with Some v => ty ← type_of_int v; Some (Some (set_Type ty h)) | None => Some None end = Some (Some (set_Type ty h)).
Proof. intros E. rewrite (ParseInteger_text n (type_code ty)); [by destruct ty|by destruct ty|done]. Qed.

(** The first node has the field it shows taken, with the lemma for its kind. *)
Ltac parse_first :=
  match goal with |- ParseHeader (?n :: _) _ = _ =>
    match goal with Ha : last_attribute n = _, Hc : child_value n = _ |- _ =>
      erewrite (ParseHeader_step n);
        [|unfold parse_node; rewrite Ha, bool_decide_eq_true_2 by done; cbn [negb fid];
          first [rewrite Hc; reflexivity | eapply assign_text; eassumption | eapply assign_timestamp; eassumption | eapply assign_type; eassumption]]
    end
  end.

Lemma parse_header_text node h : header_ok h -> shows node (header_fields h) ->
  ParseHeader (node_children node) default_header = Some (Some (loaded h)).
Proof.
  intros (Ht&Hs&Hv&Hh&Hl&Hp) Hn. unfold shows in Hn. destruct h as [ns ts md sr cx sq vs ty hi lv ct nt ii ip pd].
  unfold header_fields in Hn.
  destruct ip as [ip|], pd as [pd|];
    cbn [Namespace Timestamp hModule Source hContext SequenceNum VersionSig hType Hints hLevel Category NodeType InstanceId IPAddress Pid app from_option] in *;
    repeat (apply Forall2_cons_inv_r in Hn as (?&?&[? ?]&Hn&->)); apply Forall2_nil_inv_r in Hn as ->;
    repeat match goal with
    | H : child_value _ = pcdata (text_of (fval _)) |- _ =>
        cbn [fval text_of int_of] in H; rewrite ?decimal in H; rewrite ?pcdata_number in H by (unfold int32 in *; first [lia|by destruct ty])
    end;
    repeat parse_first; reflexivity.
Qed.
End Builder.

(** ** Strings that are changed on the wire *)
Lemma escape_internal_grows l : (length l <= length (escapeXMLControlCharsInternal l))%nat /\
  (strpbrk_control l = true -> (length l < length (escapeXMLControlCharsInternal l))%nat).
Proof.
  induction l as [|c l [IH1 IH2]]; [done|]. unfold escapeXMLControlCharsInternal in *. cbn [fmap list_fmap concat strpbrk_control].
  rewrite length_app. assert (1 <= length (escape_char c))%nat by (destruct c; cbn; lia). split; [cbn [length]; unfold fmap in *; lia|].
  case_bool_decide; [done|]. intros [Hc|Hl]%orb_true_iff.
  - assert (2 <= length (escape_char c))%nat by (destruct c; try discriminate Hc; cbn; lia). cbn [length]. unfold fmap in *. lia.
  - specialize (IH2 Hl). cbn [length]. unfold fmap in *. lia.
Qed.
Lemma escape_plain l : escapeXMLControlChars l = l <-> strpbrk_control l = false.
Proof.
  unfold escapeXMLControlChars. destruct (strpbrk_control l) eqn:E; [|done]. split; [|done].
  intros El%(f_equal length). pose proof (proj2 (escape_internal_grows l) E). lia.
Qed.

Lemma escape_no_cr l : x0d ∉ l -> x0d ∉ escapeXMLControlChars l.
Proof.
  unfold escapeXMLControlChars. destruct (strpbrk_control l); [|done]. unfold escapeXMLControlCharsInternal.
  induction l as [|c l IH]; [done|]. intros [Hc Hl]%not_elem_of_cons. cbn [fmap list_fmap concat].
  rewrite elem_of_app. intros [Hin|Hin]; [|by apply IH]. destruct c; try (cbn in Hin; set_solver).
Qed.

Definition header_strings (h : SandeshHeader) : list (list byte) :=
  [Namespace h; hModule h; Source h; hContext h; Category h; NodeType h; InstanceId h] ++ option_list (IPAddress h).
(** The strings that come back as they were: none of &, ', < and >, no CR, and not of
    white space alone unless empty. *)
Definition survives (l : list byte) : bool :=
  negb (strpbrk_control l) && negb (bool_decide (x0d ∈ l)) && (bool_decide (l = []) || negb (forallb xml_space l)).
Definition header_survives (h : SandeshHeader) : bool := forallb survives (header_strings h).

Lemma survives_spec l : survives l = true <-> pcdata (escapeXMLControlChars l) = l.
Proof.
  unfold survives. rewrite !andb_true_iff, !negb_true_iff, <- escape_plain, bool_decide_eq_false. split.
  - intros [[-> Hcr] Hs]. unfold pcdata. destruct (forallb xml_space l) eqn:E; [|by apply eol_id].
    apply orb_true_iff in Hs as [->%bool_decide_eq_true_1|Hs]; done.
  - intros Hp. unfold pcdata in Hp. destruct (forallb xml_space (escapeXMLControlChars l)) eqn:Es.
    { subst l. split; [split; [done|apply not_elem_of_nil]|done]. }
    assert (x0d ∉ l) as Hcr by (rewrite <- Hp; apply eol_no_cr).
    rewrite eol_id in Hp by by apply escape_no_cr. split; [split; [done|done]|].
    rewrite Hp in Es. rewrite Es. apply orb_true_r.
Qed.
Lemma loaded_survives h : header_survives h = bool_decide (loaded h = h).
Proof.
  apply eq_bool_prop_intro. unfold header_survives. rewrite bool_decide_spec, Is_true_true.
  destruct h as [ns ts md sr cx sq vs ty hi lv ct nt ii ip pd]. unfold loaded, on_strings, header_strings. cbn.
  rewrite !andb_true_iff, !survives_spec. split.
  - intros. destruct_and!. destruct ip as [ip|]; cbn in *; rewrite ?andb_true_iff, ?survives_spec in *; naive_solver congruence.
  - intros E. injection E as. destruct ip as [ip|]; cbn; rewrite ?andb_true_iff, ?survives_spec; naive_solver.
Qed.

(** ** The message on the wire *)
Definition header_name : list byte := bs "SandeshHeader".
(** Strings that the protocol reads back. *)
Definition strings_ok (h : SandeshHeader) : Prop :=
  Forall (fun l => x00 ∉ l /\ Escape.entity_free Escape.literal_entities l) (header_strings h).
Lemma header_fields_ok h : header_ok h -> strings_ok h -> Forall field_ok (header_fields h).
Proof.
  intros (Ht&Hs&Hv&Hh&Hl&Hp) Hst. unfold strings_ok, header_strings in Hst. apply Forall_app in Hst as [Hst Hip].
  repeat (apply Forall_cons_iff in Hst as [? Hst]).
  assert (forall w, bool_decide (w <> [] /\ Forall (fun c => word_char c = true) w) = true -> word w) as Hw
    by (intros w Hb; by apply bool_decide_eq_true_1 in Hb).
  assert (forall n id v, bool_decide (n <> [] /\ Forall (fun c => word_char c = true) n) = true -> bool_decide (head n <> Some kcXMLSlash) = true ->
    in_range Int16 id -> value_ok v -> field_ok (MkField n id v)) as Hf
    by (intros n id v ? Hn%bool_decide_eq_true_1 ? ?; split; [by apply Hw|done]).
  assert (forall z, int32 z -> value_ok (VInt T_I32 z)) as Hi by (intros z Hz; by exists Int32).
  unfold header_fields. apply Forall_app. split; [|apply Forall_app; split].
  - repeat (apply Forall_cons_2); try (apply Hf; [reflexivity|reflexivity|cbn; lia|]; try first [done|by apply Hi|by exists Int64]);
      [|apply Forall_nil_2]. apply Hi. unfold int32. by destruct (hType h).
  - destruct (IPAddress h); cbn [option_list] in Hip; [|apply Forall_nil_2]. apply Forall_cons_iff in Hip as [? _].
    apply Forall_cons_2; [|apply Forall_nil_2]. by apply Hf; [reflexivity|reflexivity|cbn; lia|].
  - destruct (Pid h); [|apply Forall_nil_2]. apply Forall_cons_2; [|apply Forall_nil_2].
    apply Hf; [reflexivity|reflexivity|cbn; lia|by apply Hi].
Qed.

Section Wire.
Context `{!Texts} `{!Allocator}.

(** What the header's writer and [writeSandeshBegin] emit. *)
Definition header_text (h : SandeshHeader) : list byte := struct_text header_name (header_fields h).
Definition begin_text (name : list byte) : list byte := tag (name ++ attrs_text [(kXMLType, bs "sandesh")]).

(** The generated [SandeshHeader::read] takes the header it is in front of, and reports [off]
    bytes. *)
Definition reads_header (header_read : M (TXMLProtocol.t TMemoryBuffer.t) (Z * SandeshHeader)) (h : SandeshHeader) (off : Z) : Prop :=
  forall (b : TMemoryBuffer.t) (d : byte) (rest : list byte),
    t_readable b -> t_contents b = header_text h ++ rest -> zlen (header_text h ++ rest) < 2 ^ 31 ->
    exists p, header_read (new b d d d) = Some ((off, h), p) /\ front p rest /\ fresh p.
End Wire.

(** The builder of a server, where it does not abort. *)
Definition server_create `{!Pugi} (msg : list byte) : option SandeshMessage := base <$> default None (Create XML msg).

Lemma ExtractMsgHeader_wire `{!Allocator} `{!Texts} header_read fuel h name body off :
  reads_header header_read h off -> 0 < off < 2 ^ 31 -> word name ->
  zlen (header_text h ++ begin_text name ++ body) < 2 ^ 31 -> (length (begin_text name) < fuel)%nat ->
  ExtractMsgHeader header_read fuel (header_text h ++ begin_text name ++ body) = Some (inr (h, name, off)).
Proof.
  intros Hr Hoff Hw Hsz Hfuel. set (msg := header_text h ++ _) in *.
  unfold ExtractMsgHeader, protocol_over. change (Z.to_nat 0) with 0%nat. rewrite drop_0, Z.sub_0_r, (wrapU_small 32) by lia.
  destruct (TMemoryBuffer.new_observe msg) as (b&->&Hb&Ec); [lia|]. cbn [mbind option_bind].
  destruct (Hr b junk (begin_text name ++ body) Hb Ec Hsz) as (p&->&Hf&Hfr). cbn [mbind option_bind].
  destruct (Z.leb_spec off 0); [lia|].
  assert (zlen (begin_text name) < 2 ^ 31) as Hlt by (unfold msg in Hsz; rewrite !length_app in Hsz; lia).
  destruct (XmlTags.readSandeshBegin_takes name Hw fuel p body Hf Hfuel Hlt) as (p'&->&_). cbn [mbind option_bind].
  destruct (Z.leb_spec (zlen (begin_text name)) 0) as [Hz|_]; [unfold begin_text, tag in Hz; cbn [length app] in Hz; lia|].
  by rewrite (wrapU_small 32) by lia.
Qed.

(** C34: which control messages the server takes, from the writer to the queue.  The header
    is written through the XML protocol, and [writeSandeshBegin] behind it; the text begins
    the message that arrives.  The builder loads the message with pugixml without decoding
    entities, of which it makes the same numbers and each string as it is on the wire, but
    for white space (see [pcdata]); the second reading, through the protocol, decodes them
    and gives the header that was written.  The server compares the two: it queues the
    message exactly if every string of the header has none of &, ', < and >, no CR, and is
    not of white space alone unless empty; otherwise the message is counted as a failed
    control message and refused.  The strings hold no NUL and no literal entities of ', <
    and >, which the protocol itself does not give back; pugixml gives the texts as it is
    documented to, and the generated reader of the header reads what the writer wrote. *)
Theorem control_header_escapes `{!Allocator} `{!Pugi} `{!Texts} `{!TextsLaws}
    (header_read : M (TXMLProtocol.t TMemoryBuffer.t) (Z * SandeshHeader)) (fuel : nat) (flow_collection_disabled : bool)
    (name body : list byte) (h : SandeshHeader) (off : Z) (hn mn : xml_node) (rest : list xml_node) (x : ServerSM.t) :
  let msg := header_text h ++ begin_text name ++ body in
  (forall it z, integerToString it z = signed_text z) -> header_ok h -> strings_ok h -> word name ->
  zlen msg < 2 ^ 31 -> (length (begin_text name) < fuel)%nat ->
  reads_header header_read h off -> 0 < off < 2 ^ 31 ->
  load_buffer msg = Some (hn :: mn :: rest) -> shows hn (header_fields h) -> node_name mn = name ->
  (forall (w : TMemoryBuffer.t) (d d0 d1 : byte), t_ok w -> t_room w (zlen (header_text h ++ begin_text name)) ->
     exists s1 s2, write_struct header_name (header_fields h) (new w d d0 d1) = Some (zlen (header_text h), s1) /\
       writeSandeshBegin name s1 = Some (zlen (begin_text name), s2) /\
       t_contents (trans_ s2) = t_contents w ++ header_text h ++ begin_text name) /\
  server_create msg = Some (MkMessage (loaded h) name (zlen msg)) /\
  (DoDropSandeshMessage flow_collection_disabled h (ServerSM.message_drop_level_ x) = false -> has_control_hint h = true ->
   ServerSM.OnSandeshMessage header_read fuel server_create flow_collection_disabled msg x =
     if header_survives h then
       x ← ServerSM.UpdateRxMsgStats name (zlen msg) x;
       Some (true, ServerSM.Enqueue (ServerSM.EvSandeshCtrlMessageRecv msg h name off) x)
     else x ← ServerSM.UpdateRxMsgFailStats name (zlen msg) Rx.ControlMsgFailed x; Some (false, x)).
Proof.
  intros msg Hdec Hh Hst Hw Hsz Hfuel Hr Hoff Hload Hshow Hname.
  assert (server_create msg = Some (MkMessage (loaded h) name (zlen msg))) as Ec.
  { unfold server_create, Create, SandeshXMLMessageBuilder_Create, Parse. rewrite Hload. cbn [head tail from_option].
    rewrite (parse_header_text Hdec hn h Hh Hshow). cbn [mbind option_bind]. rewrite Hname. rewrite bool_decide_eq_false_2; [done|apply Hw]. }
  split; [|split; [done|]].
  - intros w d d0 d1 Hok Hroom. unfold msg in Hsz. rewrite !length_app in Hsz. rewrite length_app in Hroom.
    assert (can (new w d d0 d1) (zlen (header_text h) + zlen (begin_text name))) as Hcan
      by (split; [done|]; split; [by rewrite <- Nat2Z.inj_add|lia]).
    destruct (write_struct_wrote header_name (header_fields h) (new w d d0 d1)) as (s1&E1&W1&_);
      [by apply header_fields_ok|eapply can_le; [exact Hcan|unfold header_text; lia]|].
    destruct (XmlTags.writeSandeshBegin_emits name s1) as (s2&E2&W2);
      [eapply (can_wrote (new w d d0 d1)); [exact Hcan|lia|exact W1]|].
    exists s1, s2. split; [exact E1|]. split; [exact E2|]. destruct W1 as (_&C1&_), W2 as (_&C2&_).
    rewrite C2, C1, <- app_assoc. done.
  - intros Hdrop Hctrl. unfold ServerSM.OnSandeshMessage. rewrite Ec. cbn [header_ message_type_].
    change (DoDropSandeshMessage flow_collection_disabled (loaded h) (ServerSM.message_drop_level_ x))
      with (DoDropSandeshMessage flow_collection_disabled h (ServerSM.message_drop_level_ x)).
    change (has_control_hint (loaded h)) with (has_control_hint h). rewrite Hdrop, Hctrl. unfold msg.
    rewrite (ExtractMsgHeader_wire header_read fuel h name body off) by done. cbn [mbind option_bind]. fold msg.
    rewrite loaded_survives, (bool_decide_eq_true_2 (name = name)) by done. by destruct (bool_decide (loaded h = h)).
Qed.

(** *** A parser for texts of elements with attributes, elements and text

    It stands for pugixml on the sample: entities are left alone. *)
Inductive xnode := XNode (name : list byte) (attrs : list (list byte * list byte)) (children : list xnode) (text : list byte).
Definition upto (c : byte) (l : list byte) : list byte := take_while (fun b => negb (bool_decide (b = c))) l.
Definition from (c : byte) (l : list byte) : list byte := drop_while (fun b => negb (bool_decide (b = c))) l.
Definition parse_attr (w : list byte) : list byte * list byte := (upto x3d w, upto x22 (drop 2 (from x3d w))).
Fixpoint parse_attrs (fuel : nat) (l : list byte) : list (list byte * list byte) :=
  match fuel, l with
  | S fuel, x20 :: l => parse_attr (upto x20 l) :: parse_attrs fuel (from x20 l)
  | _, _ => []
  end.
(** The elements and the first text up to a closing tag or the end, and what follows. *)
Fixpoint parse_nodes (fuel : nat) (l : list byte) : option (list xnode * list byte * list byte) :=
  match fuel with
  | O => None
  | S fuel =>
      match l with
      | [] => Some ([], [], [])
      | x3c :: x2f :: _ => Some ([], [], l)
      | x3c :: l =>
          let tag := upto x3e l in
          '(children, text, l) ← parse_nodes fuel (drop 1 (from x3e l));
          if bool_decide (upto x3e (drop 2 l) = upto x20 tag) then
            '(nodes, text', l) ← parse_nodes fuel (drop 1 (from x3e l));
            Some (XNode (upto x20 tag) (parse_attrs fuel (from x20 tag)) children text :: nodes, text', l)
          else None
      | _ =>
          '(nodes, text, l') ← parse_nodes fuel (from x3c l);
          Some (nodes, match pcdata (upto x3c l) with [] => text | t => t end, l')
      end
  end.
Definition mini_pugi : Pugi := {|
  xml_node := xnode;
  load_buffer l := match parse_nodes (S (length l)) l with Some (nodes, _, []) => Some nodes | _ => None end;
  node_name '(XNode n _ _ _) := n;
  node_children '(XNode _ _ c _) := c;
  last_attribute '(XNode _ a _ _) := match head (rev a) with Some (k, v) => (k, dec_value v) | None => ([], 0) end;
  child_value '(XNode _ _ _ t) := t;
  node_print '(XNode n _ _ _) := n;
|}.

(** *** A reader of the header: a struct, and the members by their identifiers *)
Definition set_field (h : SandeshHeader) (f : field) : SandeshHeader :=
  match fid f, fval f with
  | 1, VString l => set_Namespace l h | 2, VInt _ z => set_Timestamp z h | 3, VString l => set_Module l h
  | 4, VString l => set_Source l h | 5, VString l => set_Context l h | 6, VInt _ z => set_SequenceNum z h
  | 7, VInt _ z => set_VersionSig z h | 8, VInt _ z => set_Type (default INVALID (type_of_int z)) h
  | 9, VInt _ z => set_Hints z h | 10, VInt _ z => set_Level z h | 11, VString l => set_Category l h
  | 12, VString l => set_NodeType l h | 13, VString l => set_InstanceId l h | 14, VString l => set_IPAddress l h
  | 15, VInt _ z => set_Pid z h | _, _ => h
  end.
Definition demo_header_read `{!Texts} `{!Allocator} (fuel : nat) : M (TXMLProtocol.t TMemoryBuffer.t) (Z * SandeshHeader) := fun p =>
  '((_, r), p) ← read_struct fuel p;
  match r with
  | Some (name, fs) => Some ((zlen (struct_text name fs), foldl set_field default_header fs), p)
  | None => Some ((-1, default_header), p)
  end.
Lemma demo_header_reads `{!Texts} `{!TextsLaws} `{!Allocator} h fuel :
  header_ok h -> strings_ok h -> foldl set_field default_header (header_fields h) = h -> (length (header_text h) < fuel)%nat ->
  reads_header (demo_header_read fuel) h (zlen (header_text h)).
Proof.
  intros Hh Hst Hset Hfuel b d rest Hb Ec Hsz. rewrite length_app in Hsz. unfold demo_header_read.
  destruct (read_struct_front header_name (header_fields h) fuel (new b d d d) rest) as (p&->&Hf&Hfr&_);
    [split; [discriminate|repeat constructor]|by apply header_fields_ok|split; [done|]; split; [exact Ec|done]|done|done|unfold header_text in *; lia|].
  cbn [mbind option_bind]. rewrite Hset. by exists p.
Qed.

(** *** Control messages of a module with an ampersand in its name, and of one without *)
Definition ctrl_of (hModule : list byte) : SandeshHeader :=
  MkHeader [] (-5) hModule (bs "node 1") [] 0 (-123456) SYSTEM SANDESH_CONTROL_HINT 4 [] [] [] (Some (bs "10.0.0.1")) (Some 42).

Ltac no_entity :=
  intros c p q Hc Eq; unfold Escape.literal_entities in Hc;
  repeat (apply elem_of_cons in Hc as [->|Hc]); [..|by apply elem_of_nil in Hc];
  repeat (destruct p as [|? p]; [discriminate Eq|first [discriminate Eq|injection Eq as _ Eq]]).
Lemma ctrl_strings_ok : strings_ok (ctrl_of (bs "R&D")) /\ strings_ok (ctrl_of (bs "RnD")).
Proof.
  split; unfold strings_ok; repeat (apply Forall_cons_2 || apply Forall_nil_2);
    (split; [apply (bool_decide_eq_true_1 (~ _)); reflexivity|no_entity]).
Qed.

Lemma ctrl_loads :
  let _ := TMemoryBuffer.total_allocator in
  let _ := decimal_texts in
  let _ := mini_pugi in
  let msg h := header_text h ++ begin_text (bs "Ctrl") ++ bs "</Ctrl>" in
  let ok h := exists hn mn, load_buffer (msg h) = Some [hn; mn] /\ shows hn (header_fields h) /\ node_name mn = bs "Ctrl" in
  ok (ctrl_of (bs "R&D")) /\ ok (ctrl_of (bs "RnD")).
Proof.
  intros A X P msg ok.
  assert (forall h, match load_buffer (msg h) with
    | Some [hn; mn] => bool_decide (shows hn (header_fields h)) && bool_decide (node_name mn = bs "Ctrl")
    | _ => false
    end = true -> ok h) as Hok.
  { intros h. destruct (load_buffer (msg h)) as [[|hn [|mn [|]]]|] eqn:E; try discriminate.
    intros [Hs Hn]%andb_true_iff. apply bool_decide_eq_true_1 in Hs, Hn. exists hn, mn. by rewrite E. }
  split; apply Hok; vm_compute; reflexivity.
Qed.

Lemma control_header_escapes_witness :
  let _ := TMemoryBuffer.total_allocator in
  let _ := decimal_texts in
  let _ := mini_pugi in
  let msg h := header_text h ++ begin_text (bs "Ctrl") ++ bs "</Ctrl>" in
  let run h := ServerSM.OnSandeshMessage (demo_header_read 2000) 100 server_create false (msg h) (ServerSM.init 0) in
  server_create (msg (ctrl_of (bs "R&D"))) = Some (MkMessage (ctrl_of (bs "R&amp;D")) (bs "Ctrl") (zlen (msg (ctrl_of (bs "R&D"))))) /\
  fst <$> run (ctrl_of (bs "R&D")) = Some false /\ fst <$> run (ctrl_of (bs "RnD")) = Some true.
Proof.
  intros A X P msg run. pose proof decimal_laws as L. destruct ctrl_strings_ok as [Hs1 Hs2].
  destruct ctrl_loads as [(hn1&mn1&El1&Es1&En1) (hn2&mn2&El2&Es2&En2)].
  assert (forall h, header_ok h -> strings_ok h -> foldl set_field default_header (header_fields h) = h -> (length (header_text h) < 2000)%nat ->
    reads_header (demo_header_read 2000) h (zlen (header_text h))) as Hread by (intros; by apply demo_header_reads).
  assert (header_ok (ctrl_of (bs "R&D")) /\ header_ok (ctrl_of (bs "RnD"))) as [Hh1 Hh2]
    by (repeat split; vm_compute; first [reflexivity | discriminate]).
  destruct (control_header_escapes (demo_header_read 2000) 100 false (bs "Ctrl") (bs "</Ctrl>") (ctrl_of (bs "R&D"))
    (zlen (header_text (ctrl_of (bs "R&D")))) hn1 mn1 [] (ServerSM.init 0)) as (_&Hc&Ho1);
    [reflexivity|exact Hh1|exact Hs1|split; [discriminate|repeat constructor]|vm_compute; reflexivity
    |apply Nat.ltb_lt; vm_compute; reflexivity|apply Hread; [exact Hh1|exact Hs1|vm_compute; reflexivity|apply Nat.ltb_lt; vm_compute; reflexivity]
    |vm_compute; split; reflexivity|exact El1|exact Es1|exact En1|].
  destruct (control_header_escapes (demo_header_read 2000) 100 false (bs "Ctrl") (bs "</Ctrl>") (ctrl_of (bs "RnD"))
    (zlen (header_text (ctrl_of (bs "RnD")))) hn2 mn2 [] (ServerSM.init 0)) as (_&_&Ho2);
    [reflexivity|exact Hh2|exact Hs2|split; [discriminate|repeat constructor]|vm_compute; reflexivity
    |apply Nat.ltb_lt; vm_compute; reflexivity|apply Hread; [exact Hh2|exact Hs2|vm_compute; reflexivity|apply Nat.ltb_lt; vm_compute; reflexivity]
    |vm_compute; split; reflexivity|exact El2|exact Es2|exact En2|].
  split; [exact Hc|]. split.
  - apply (eq_trans (f_equal (fmap fst) (Ho1 eq_refl eq_refl))). vm_compute. reflexivity.
  - apply (eq_trans (f_equal (fmap fst) (Ho2 eq_refl eq_refl))). vm_compute. reflexivity.
Defined.
End BuilderClaims.
