(* ===== verification/ClientSM.v ===== *)
(** * The client's state machine

    [SandeshClientSM] and [SandeshClientSMImpl] (library/cpp/sandesh_client_sm.h,
    sandesh_client_sm_priv.h and sandesh_client_sm.cc): how a generator finds a
    collector, connects, exchanges the first control messages, sends, and comes back
    after a failure.

    The manager of the machine ([SandeshClientSM::Mgr], implemented by
    [SandeshClient]) is the class [Mgr]; what it is asked, and the updates of the
    process's connection state, are kept in [calls].  Timers are those of
    base/timer.h: a running timer is not started again, [cancelled()] holds from
    [Cancel] to the next start.  The work queue, the sessions alive and the clock are
    part of the state.  A NULL session, a session that was deleted and the overflow of
    an [int] are [None]. *)

From S2P Require Import Prelude Transport Statistics Protocol Xml Message.
Local Open Scope Z_scope.

Module ClientSM.

Inductive State := IDLE | DISCONNECT | CONNECT | CLIENT_INIT | ESTABLISHED.
#[export] Instance State_eq_dec : EqDecision State.
Proof. solve_decision. Defined.

Definition sid := positive.

(** [TcpServer::Endpoint]: address and port; the default is the unspecified one. *)
Record Endpoint := MkEndpoint { ep_address : Z; ep_port : Z }.
#[export] Instance Endpoint_eq_dec : EqDecision Endpoint.
Proof. solve_decision. Defined.
Definition no_endpoint : Endpoint := MkEndpoint 0 0.

(** A message handed to the machine: its name and whether it is a [SandeshUVE]. *)
Record Snh := MkSnh { snh_name : string; snh_is_uve : bool }.

Inductive event :=
  | EvStart
  | EvStop (enq : bool)
  | EvCollectorUpdate (collectors : list Endpoint)
  | EvIdleHoldTimerExpired
  | EvConnectTimerExpired
  | EvTcpConnected (session : sid)
  | EvTcpConnectFail (session : sid)
  | EvTcpClose (session : sid)
  | EvTcpDeleteSession (session : sid)
  | EvSandeshSend (snh : Snh)
  | EvSandeshMessageRecv (msg : list byte) (header : SandeshHeader) (msg_type : list byte)
      (header_offset : Z).

Definition Name (e : event) : string :=
  match e with
  | EvStart => "EvStart" | EvStop _ => "EvStop" | EvCollectorUpdate _ => "EvCollectorUpdate"
  | EvIdleHoldTimerExpired => "EvIdleHoldTimerExpired"
  | EvConnectTimerExpired => "EvConnectTimerExpired"
  | EvTcpConnected _ => "EvTcpConnected" | EvTcpConnectFail _ => "EvTcpConnectFail"
  | EvTcpClose _ => "EvTcpClose" | EvTcpDeleteSession _ => "EvTcpDeleteSession"
  | EvSandeshSend _ => "EvSandeshSend" | EvSandeshMessageRecv _ _ _ _ => "EvSandeshMessageRecv"
  end.
(** [TYPE_NAME], the name the statistics use. *)
Definition type_name (e : event) : string := Strings.String.append "scm::" (Name e).

(** A timer of base/timer.h with the milliseconds it was started for. *)
Inductive Timer := TInit | TRunning (msec : Z) | TCancelled.
Definition timer_start (msec : Z) (tm : Timer) : Timer :=
  match tm with TRunning m => TRunning m | _ => TRunning msec end.
Definition timer_cancelled (tm : Timer) : bool := match tm with TCancelled => true | _ => false end.
Definition timer_running (tm : Timer) : bool := match tm with TRunning _ => true | _ => false end.

(** What the machine does to a session; [s_sendq] is its send queue. *)
Record SessionInfo := MkSession {
  s_observer : bool;
  s_receive_cb : bool;
  s_closed : bool;
  s_shutdown : bool;
  s_remote : Endpoint;
  s_sendq : list Snh;
}.

Inductive ConnectionStatus := INIT | UP | DOWN.

(** What the manager is asked and what [ConnectionState] is told. *)
Inductive mgr_call :=
  | SendUVE_call (connects : Z) (state : string) (collector : list byte) (server : Endpoint)
      (collectors : list Endpoint)
  | CreateSMSession (ep : Endpoint)
  | InitializeSMSession (connects : Z)
  | ReceiveMsg (msg : list byte) (header : SandeshHeader) (sandesh_name : list byte) (header_offset : Z)
  | DeleteSMSession (s : sid)
  | ConnectionUpdate (st : ConnectionStatus) (ep : Endpoint) (text : string)
  | ModuleClientState (sm_queue_count : Z) (state last_state last_event : string).

(** [SandeshClientSM::Mgr]: whether [CreateSMSession] yields a session, and the
    result of [ReceiveMsg], given the calls before. *)
Class Mgr := {
  mgr_create : list mgr_call -> Endpoint -> bool;
  mgr_receive : list mgr_call -> list byte -> SandeshHeader -> list byte -> Z -> option bool;
}.

(** The machine, what is around it, and the messages it released unsent
    ([dropped]). *)
Record t := Mk {
  queue_ : list event;
  session_ : option sid;
  server_ : Endpoint;
  state_ : State;
  collectors_ : list Endpoint;
  collector_index_ : Z;
  connect_timer_ : Timer;
  idle_hold_timer_ : Timer;
  idle_hold_time_ : Z;
  attempts_ : Z;
  deleted_ : bool;
  connects_ : Z;
  last_state_ : State;
  state_since_ : Z;
  last_event_ : string;
  last_event_at_ : Z;
  coll_name_ : list byte;
  event_stats_ : SandeshEventStatistics.t;
  sessions : gmap positive SessionInfo;
  next_sid : sid;
  deleted_sessions : list sid;
  calls : list mgr_call;
  dropped : list Snh;
  clock : Z;
}.

Definition set_queue v (x : t) : t :=
  Mk v (session_ x) (server_ x) (state_ x) (collectors_ x) (collector_index_ x) (connect_timer_ x)
    (idle_hold_timer_ x) (idle_hold_time_ x) (attempts_ x) (deleted_ x) (connects_ x)
    (last_state_ x) (state_since_ x) (last_event_ x) (last_event_at_ x) (coll_name_ x)
    (event_stats_ x) (sessions x) (next_sid x) (deleted_sessions x) (calls x) (dropped x) (clock x).
Definition set_session v (x : t) : t :=
  Mk (queue_ x) v (server_ x) (state_ x) (collectors_ x) (collector_index_ x) (connect_timer_ x)
    (idle_hold_timer_ x) (idle_hold_time_ x) (attempts_ x) (deleted_ x) (connects_ x)
    (last_state_ x) (state_since_ x) (last_event_ x) (last_event_at_ x) (coll_name_ x)
    (event_stats_ x) (sessions x) (next_sid x) (deleted_sessions x) (calls x) (dropped x) (clock x).
Definition set_server v (x : t) : t :=
  Mk (queue_ x) (session_ x) v (state_ x) (collectors_ x) (collector_index_ x) (connect_timer_ x)
    (idle_hold_timer_ x) (idle_hold_time_ x) (attempts_ x) (deleted_ x) (connects_ x)
    (last_state_ x) (state_since_ x) (last_event_ x) (last_event_at_ x) (coll_name_ x)
    (event_stats_ x) (sessions x) (next_sid x) (deleted_sessions x) (calls x) (dropped x) (clock x).
Definition set_state v (x : t) : t :=
  Mk (queue_ x) (session_ x) (server_ x) v (collectors_ x) (collector_index_ x) (connect_timer_ x)
    (idle_hold_timer_ x) (idle_hold_time_ x) (attempts_ x) (deleted_ x) (connects_ x)
    (last_state_ x) (state_since_ x) (last_event_ x) (last_event_at_ x) (coll_name_ x)
    (event_stats_ x) (sessions x) (next_sid x) (deleted_sessions x) (calls x) (dropped x) (clock x).
Definition set_collectors v (x : t) : t :=
  Mk (queue_ x) (session_ x) (server_ x) (state_ x) v (collector_index_ x) (connect_timer_ x)
    (idle_hold_timer_ x) (idle_hold_time_ x) (attempts_ x) (deleted_ x) (connects_ x)
    (last_state_ x) (state_since_ x) (last_event_ x) (last_event_at_ x) (coll_name_ x)
    (event_stats_ x) (sessions x) (next_sid x) (deleted_sessions x) (calls x) (dropped x) (clock x).
Definition set_collector_index v (x : t) : t :=
  Mk (queue_ x) (session_ x) (server_ x) (state_ x) (collectors_ x) v (connect_timer_ x)
    (idle_hold_timer_ x) (idle_hold_time_ x) (attempts_ x) (deleted_ x) (connects_ x)
    (last_state_ x) (state_since_ x) (last_event_ x) (last_event_at_ x) (coll_name_ x)
    (event_stats_ x) (sessions x) (next_sid x) (deleted_sessions x) (calls x) (dropped x) (clock x).
Definition set_connect_timer v (x : t) : t :=
  Mk (queue_ x) (session_ x) (server_ x) (state_ x) (collectors_ x) (collector_index_ x) v
    (idle_hold_timer_ x) (idle_hold_time_ x) (attempts_ x) (deleted_ x) (connects_ x)
    (last_state_ x) (state_since_ x) (last_event_ x) (last_event_at_ x) (coll_name_ x)
    (event_stats_ x) (sessions x) (next_sid x) (deleted_sessions x) (calls x) (dropped x) (clock x).
Definition set_idle_hold_timer v (x : t) : t :=
  Mk (queue_ x) (session_ x) (server_ x) (state_ x) (collectors_ x) (collector_index_ x)
    (connect_timer_ x) v (idle_hold_time_ x) (attempts_ x) (deleted_ x) (connects_ x)
    (last_state_ x) (state_since_ x) (last_event_ x) (last_event_at_ x) (coll_name_ x)
    (event_stats_ x) (sessions x) (next_sid x) (deleted_sessions x) (calls x) (dropped x) (clock x).
Definition set_idle_hold_time v (x : t) : t :=
  Mk (queue_ x) (session_ x) (server_ x) (state_ x) (collectors_ x) (collector_index_ x)
    (connect_timer_ x) (idle_hold_timer_ x) v (attempts_ x) (deleted_ x) (connects_ x)
    (last_state_ x) (state_since_ x) (last_event_ x) (last_event_at_ x) (coll_name_ x)
    (event_stats_ x) (sessions x) (next_sid x) (deleted_sessions x) (calls x) (dropped x) (clock x).
Definition set_attempts v (x : t) : t :=
  Mk (queue_ x) (session_ x) (server_ x) (state_ x) (collectors_ x) (collector_index_ x)
    (connect_timer_ x) (idle_hold_timer_ x) (idle_hold_time_ x) v (deleted_ x) (connects_ x)
    (last_state_ x) (state_since_ x) (last_event_ x) (last_event_at_ x) (coll_name_ x)
    (event_stats_ x) (sessions x) (next_sid x) (deleted_sessions x) (calls x) (dropped x) (clock x).
Definition set_deleted v (x : t) : t :=
  Mk (queue_ x) (session_ x) (server_ x) (state_ x) (collectors_ x) (collector_index_ x)
    (connect_timer_ x) (idle_hold_timer_ x) (idle_hold_time_ x) (attempts_ x) v (connects_ x)
    (last_state_ x) (state_since_ x) (last_event_ x) (last_event_at_ x) (coll_name_ x)
    (event_stats_ x) (sessions x) (next_sid x) (deleted_sessions x) (calls x) (dropped x) (clock x).
Definition set_connects v (x : t) : t :=
  Mk (queue_ x) (session_ x) (server_ x) (state_ x) (collectors_ x) (collector_index_ x)
    (connect_timer_ x) (idle_hold_timer_ x) (idle_hold_time_ x) (attempts_ x) (deleted_ x) v
    (last_state_ x) (state_since_ x) (last_event_ x) (last_event_at_ x) (coll_name_ x)
    (event_stats_ x) (sessions x) (next_sid x) (deleted_sessions x) (calls x) (dropped x) (clock x).
Definition set_last_state v (x : t) : t :=
  Mk (queue_ x) (session_ x) (server_ x) (state_ x) (collectors_ x) (collector_index_ x)
    (connect_timer_ x) (idle_hold_timer_ x) (idle_hold_time_ x) (attempts_ x) (deleted_ x)
    (connects_ x) v (state_since_ x) (last_event_ x) (last_event_at_ x) (coll_name_ x)
    (event_stats_ x) (sessions x) (next_sid x) (deleted_sessions x) (calls x) (dropped x) (clock x).
Definition set_state_since v (x : t) : t :=
  Mk (queue_ x) (session_ x) (server_ x) (state_ x) (collectors_ x) (collector_index_ x)
    (connect_timer_ x) (idle_hold_timer_ x) (idle_hold_time_ x) (attempts_ x) (deleted_ x)
    (connects_ x) (last_state_ x) v (last_event_ x) (last_event_at_ x) (coll_name_ x)
    (event_stats_ x) (sessions x) (next_sid x) (deleted_sessions x) (calls x) (dropped x) (clock x).
Definition set_last_event v (x : t) : t :=
  Mk (queue_ x) (session_ x) (server_ x) (state_ x) (collectors_ x) (collector_index_ x)
    (connect_timer_ x) (idle_hold_timer_ x) (idle_hold_time_ x) (attempts_ x) (deleted_ x)
    (connects_ x) (last_state_ x) (state_since_ x) v (last_event_at_ x) (coll_name_ x)
    (event_stats_ x) (sessions x) (next_sid x) (deleted_sessions x) (calls x) (dropped x) (clock x).
Definition set_last_event_at v (x : t) : t :=
  Mk (queue_ x) (session_ x) (server_ x) (state_ x) (collectors_ x) (collector_index_ x)
    (connect_timer_ x) (idle_hold_timer_ x) (idle_hold_time_ x) (attempts_ x) (deleted_ x)
    (connects_ x) (last_state_ x) (state_since_ x) (last_event_ x) v (coll_name_ x)
    (event_stats_ x) (sessions x) (next_sid x) (deleted_sessions x) (calls x) (dropped x) (clock x).
Definition set_coll_name v (x : t) : t :=
  Mk (queue_ x) (session_ x) (server_ x) (state_ x) (collectors_ x) (collector_index_ x)
    (connect_timer_ x) (idle_hold_timer_ x) (idle_hold_time_ x) (attempts_ x) (deleted_ x)
    (connects_ x) (last_state_ x) (state_since_ x) (last_event_ x) (last_event_at_ x) v
    (event_stats_ x) (sessions x) (next_sid x) (deleted_sessions x) (calls x) (dropped x) (clock x).
Definition set_event_stats v (x : t) : t :=
  Mk (queue_ x) (session_ x) (server_ x) (state_ x) (collectors_ x) (collector_index_ x)
    (connect_timer_ x) (idle_hold_timer_ x) (idle_hold_time_ x) (attempts_ x) (deleted_ x)
    (connects_ x) (last_state_ x) (state_since_ x) (last_event_ x) (last_event_at_ x)
    (coll_name_ x) v (sessions x) (next_sid x) (deleted_sessions x) (calls x) (dropped x) (clock x).
Definition set_sessions v (x : t) : t :=
  Mk (queue_ x) (session_ x) (server_ x) (state_ x) (collectors_ x) (collector_index_ x)
    (connect_timer_ x) (idle_hold_timer_ x) (idle_hold_time_ x) (attempts_ x) (deleted_ x)
    (connects_ x) (last_state_ x) (state_since_ x) (last_event_ x) (last_event_at_ x)
    (coll_name_ x) (event_stats_ x) v (next_sid x) (deleted_sessions x) (calls x) (dropped x)
    (clock x).
Definition set_next_sid v (x : t) : t :=
  Mk (queue_ x) (session_ x) (server_ x) (state_ x) (collectors_ x) (collector_index_ x)
    (connect_timer_ x) (idle_hold_timer_ x) (idle_hold_time_ x) (attempts_ x) (deleted_ x)
    (connects_ x) (last_state_ x) (state_since_ x) (last_event_ x) (last_event_at_ x)
    (coll_name_ x) (event_stats_ x) (sessions x) v (deleted_sessions x) (calls x) (dropped x)
    (clock x).
Definition set_deleted_sessions v (x : t) : t :=
  Mk (queue_ x) (session_ x) (server_ x) (state_ x) (collectors_ x) (collector_index_ x)
    (connect_timer_ x) (idle_hold_timer_ x) (idle_hold_time_ x) (attempts_ x) (deleted_ x)
    (connects_ x) (last_state_ x) (state_since_ x) (last_event_ x) (last_event_at_ x)
    (coll_name_ x) (event_stats_ x) (sessions x) (next_sid x) v (calls x) (dropped x) (clock x).
Definition set_calls v (x : t) : t :=
  Mk (queue_ x) (session_ x) (server_ x) (state_ x) (collectors_ x) (collector_index_ x)
    (connect_timer_ x) (idle_hold_timer_ x) (idle_hold_time_ x) (attempts_ x) (deleted_ x)
    (connects_ x) (last_state_ x) (state_since_ x) (last_event_ x) (last_event_at_ x)
    (coll_name_ x) (event_stats_ x) (sessions x) (next_sid x) (deleted_sessions x) v (dropped x)
    (clock x).
Definition set_dropped v (x : t) : t :=
  Mk (queue_ x) (session_ x) (server_ x) (state_ x) (collectors_ x) (collector_index_ x)
    (connect_timer_ x) (idle_hold_timer_ x) (idle_hold_time_ x) (attempts_ x) (deleted_ x)
    (connects_ x) (last_state_ x) (state_since_ x) (last_event_ x) (last_event_at_ x)
    (coll_name_ x) (event_stats_ x) (sessions x) (next_sid x) (deleted_sessions x) (calls x) v
    (clock x).
Definition set_clock v (x : t) : t :=
  Mk (queue_ x) (session_ x) (server_ x) (state_ x) (collectors_ x) (collector_index_ x)
    (connect_timer_ x) (idle_hold_timer_ x) (idle_hold_time_ x) (attempts_ x) (deleted_ x)
    (connects_ x) (last_state_ x) (state_since_ x) (last_event_ x) (last_event_at_ x)
    (coll_name_ x) (event_stats_ x) (sessions x) (next_sid x) (deleted_sessions x) (calls x)
    (dropped x) v.

Definition kConnectInterval : Z := 30.
Definition kIdleHoldTime : Z := 5000.
Definition INT_MAX : Z := 2 ^ 31 - 1.

Definition state_names (s : State) : string :=
  match s with
  | IDLE => "Idle" | DISCONNECT => "Disconnect" | CONNECT => "Connect" | CLIENT_INIT => "ClientInit"
  | ESTABLISHED => "Established"
  end.
Definition StateName (x : t) : string := state_names (state_ x).
Definition LastStateName (x : t) : string := state_names (last_state_ x).

(** ** Statistics and the work queue *)
Definition UpdateEventStats (e : event) (enqueue fail : bool) (x : t) : t :=
  set_event_stats (SandeshEventStatistics.Update (type_name e) enqueue fail (event_stats_ x)) x.
Definition UpdateEventEnqueue (e : event) : t -> t := UpdateEventStats e true false.
Definition UpdateEventDequeue (e : event) : t -> t := UpdateEventStats e false false.
Definition UpdateEventEnqueueFail (e : event) : t -> t := UpdateEventStats e true true.
Definition UpdateEventDequeueFail (e : event) : t -> t := UpdateEventStats e false true.

Definition Enqueue (e : event) (x : t) : t :=
  if deleted_ x then x else UpdateEventEnqueue e (set_queue (queue_ x ++ [e]) x).

(** Only the [validate] of [EvConnectTimerExpired] has the signature [HasValidate]
    looks for. *)
Definition validate (e : event) (x : t) : bool :=
  match e with EvConnectTimerExpired => negb (timer_cancelled (connect_timer_ x)) | _ => true end.

(** ** Timers *)
Definition StartConnectTimer (seconds : Z) (x : t) : t :=
  set_connect_timer (timer_start (seconds * 1000) (connect_timer_ x)) x.
Definition CancelConnectTimer (x : t) : t := set_connect_timer TCancelled x.
Definition ConnectTimerRunning (x : t) : bool := timer_running (connect_timer_ x).
Definition StartIdleHoldTimer (x : t) : t :=
  if idle_hold_time_ x <=? 0 then x
  else set_idle_hold_timer (timer_start (idle_hold_time_ x) (idle_hold_timer_ x)) x.
Definition CancelIdleHoldTimer (x : t) : t := set_idle_hold_timer TCancelled x.
Definition IdleHoldTimerRunning (x : t) : bool := timer_running (idle_hold_timer_ x).
Definition ConnectTimerExpired (x : t) : t :=
  if deleted_ x then set_connect_timer TInit x else Enqueue EvConnectTimerExpired (set_connect_timer TInit x).
Definition IdleHoldTimerExpired (x : t) : t := Enqueue EvIdleHoldTimerExpired (set_idle_hold_timer TInit x).

(** ** Sessions *)
Definition on_session (s : sid) (f : SessionInfo -> SessionInfo) (x : t) : option t :=
  i ← sessions x !! s;
  Some (set_sessions (<[s := f i]> (sessions x)) x).
(** [set_observer(NULL)], [SetReceiveMsgCb(NULL)], [Close()], [Shutdown()]. *)
Definition quiesce (i : SessionInfo) : SessionInfo :=
  MkSession false false true true (s_remote i) (s_sendq i).
Definition push_sendq (m : Snh) (i : SessionInfo) : SessionInfo :=
  MkSession (s_observer i) (s_receive_cb i) (s_closed i) (s_shutdown i) (s_remote i) (s_sendq i ++ [m]).

Definition EnqueDelSession (s : sid) (x : t) : t := Enqueue (EvTcpDeleteSession s) x.

(** [SandeshClientSM::set_session]. *)
Definition sm_set_session (session : option sid) (enq : bool) (x : t) : option t :=
  x ← match session_ x with
      | None => Some x
      | Some s => x ← on_session s quiesce x; Some (if enq then EnqueDelSession s x else x)
      end;
  Some (set_session session x).

(** [snh->Enqueue(session_->send_queue())]. *)
Definition send_session (m : Snh) (x : t) : option t := s ← session_ x; on_session s (push_sendq m) x.

(** [session()->remote_endpoint()] *)
Definition remote_endpoint (s : option sid) (x : t) : option Endpoint :=
  s ← s; i ← sessions x !! s; Some (s_remote i).

(** ** Calls *)
Definition call (c : mgr_call) (x : t) : t := set_calls (calls x ++ [c]) x.
Definition SendUVE (x : t) : t :=
  call (SendUVE_call (connects_ x) (StateName x) (coll_name_ x) (server_ x) (collectors_ x)) x.
Definition text (parts : list string) : string := foldr Strings.String.append EmptyString parts.

(** ** Counters and collectors *)
Definition connects_inc (x : t) : option t :=
  if connects_ x =? INT_MAX then None else Some (set_connects (connects_ x + 1) x).
Definition connect_attempts_inc (x : t) : option t :=
  if attempts_ x =? INT_MAX then None else Some (set_attempts (attempts_ x + 1) x).
Definition connect_attempts_clear (x : t) : t := set_attempts 0 x.

Definition GetConnectTime (x : t) : Z :=
  let backoff := Z.min (attempts_ x) 6 in
  Z.min (if backoff =? 0 then 0 else Z.shiftl 1 (backoff - 1)) kConnectInterval.

(** An index outside of the vector is undefined. *)
Definition GetCollector (x : t) : option Endpoint :=
  match collectors_ x with
  | [] => Some no_endpoint
  | cs => if collector_index_ x <? 0 then None else cs !! Z.to_nat (collector_index_ x)
  end.
Definition GetNextCollector (x : t) : option (Endpoint * t) :=
  match collectors_ x with
  | [] => Some (no_endpoint, x)
  | cs =>
      if collector_index_ x =? INT_MAX then None
      else
        let x := set_collector_index (collector_index_ x + 1) x in
        let x := if collector_index_ x =? zlen cs then set_collector_index 0 x else x in
        if collector_index_ x <? 0 then None
        else c ← cs !! Z.to_nat (collector_index_ x); Some (c, x)
  end.
Definition CollectorUpdate (collectors : list Endpoint) (x : t) : option (bool * t) :=
  let x := set_collector_index 0 (set_collectors collectors x) in
  collector ← GetCollector x;
  if negb (bool_decide (server_ x = collector)) then Some (true, SendUVE (set_server collector x))
  else Some (false, SendUVE x).
Definition CollectorChange (x : t) : option (bool * t) :=
  '(collector, x) ← GetNextCollector x;
  if negb (bool_decide (server_ x = collector)) then Some (true, SendUVE (set_server collector x))
  else Some (false, x).

Definition OnIdle (enq : bool) (x : t) : option t :=
  let x := set_idle_hold_time (if idle_hold_time_ x =? 0 then kIdleHoldTime else idle_hold_time_ x) x in
  sm_set_session None enq (CancelIdleHoldTimer x).

(** [Sandesh::UpdateTxMsgFailStats(..., WrongClientSMState)] and [snh->Release()]. *)
Definition ReleaseSandesh (m : Snh) (x : t) : t := set_dropped (dropped x ++ [m]) x.

(** [GetMgr()->DeleteSMSession]: the session is gone. *)
Definition DeleteTcpSession (s : sid) (x : t) : option t :=
  match sessions x !! s with
  | None => None
  | Some _ => Some (call (DeleteSMSession s)
                (set_deleted_sessions (s :: deleted_sessions x) (set_sessions (delete s (sessions x)) x)))
  end.

Definition sm_set_state (s : State) (x : t) : t :=
  set_state_since (clock x) (set_state s (set_last_state s x)).
Definition set_collector_name (n : list byte) (x : t) : t := set_coll_name n x.

Section Machine.
Context `{!Allocator} `{!Texts} `{!Mgr}.
(** The generated reader of the header and the steps allowed to the XML reader, as
    for [ExtractMsgHeader]. *)
Variable header_read : M (TXMLProtocol.t TMemoryBuffer.t) (Z * SandeshHeader).
Variable fuel : nat.

(** ** Entering and leaving states *)

(** [CreateSMSession]: a session that connects to [ep], or NULL. *)
Definition create_session (ep : Endpoint) (x : t) : option sid * t :=
  let ok := mgr_create (calls x) ep in
  let x := call (CreateSMSession ep) x in
  if ok then
    let s := next_sid x in
    (Some s, set_next_sid (Pos.succ s) (set_sessions (<[s := MkSession true true false false ep []]> (sessions x)) x))
  else (None, x).
Definition StartSession (x : t) : option t :=
  let '(session, x) := create_session (server_ x) x in
  sm_set_session session true x.

Definition enter_Idle (x : t) : t := SendUVE (sm_set_state IDLE x).
Definition enter_Disconnect (x : t) : t := SendUVE (sm_set_state DISCONNECT x).
Definition enter_Connect (x : t) : option t :=
  x ← StartSession (sm_set_state CONNECT x);
  x ← connect_attempts_inc x;
  Some (SendUVE (StartConnectTimer (GetConnectTime x) x)).
Definition enter_ClientInit (x : t) : option t :=
  let x := CancelConnectTimer (sm_set_state CLIENT_INIT x) in
  let x := StartConnectTimer (GetConnectTime x) x in
  x ← connects_inc x;
  Some (SendUVE (call (InitializeSMSession (connects_ x)) x)).
Definition enter_Established (x : t) : option t :=
  let x := connect_attempts_clear (sm_set_state ESTABLISHED x) in
  ep ← remote_endpoint (session_ x) x;
  Some (SendUVE (call (ConnectionUpdate UP ep (StateName x)) x)).
Definition enter (s : State) (x : t) : option t :=
  match s with
  | IDLE => Some (enter_Idle x)
  | DISCONNECT => Some (enter_Disconnect x)
  | CONNECT => enter_Connect x
  | CLIENT_INIT => enter_ClientInit x
  | ESTABLISHED => enter_Established x
  end.

Definition leave (x : t) : t :=
  match state_ x with
  | IDLE => CancelIdleHoldTimer x
  | DISCONNECT => x
  | CONNECT | CLIENT_INIT => CancelConnectTimer x
  | ESTABLISHED => set_collector_name [] x
  end.
Definition transit (s : State) (x : t) : option t := enter s (leave x).
(** [TransitToIdle<EvStop>]. *)
Definition transit_to_idle (enq : bool) (x : t) : option t := x ← OnIdle enq (leave x); enter IDLE x.

(** [ConnectionState::GetInstance()->Update] with an endpoint of the machine or of
    its session. *)
Definition update_server (st : ConnectionStatus) (parts : list string) (x : t) : t :=
  call (ConnectionUpdate st (server_ x) (text (StateName x :: " : "%string :: parts))) x.
Definition update_session (st : ConnectionStatus) (parts : list string) (x : t) : option t :=
  ep ← remote_endpoint (session_ x) x;
  Some (call (ConnectionUpdate st ep (text (StateName x :: " : "%string :: parts))) x).

(** [ToIdle] of [Connect], and of [ClientInit] and [Established]. *)
Definition Connect_ToIdle (e : event) (x : t) : option t :=
  x ← update_session DOWN [Name e] x;
  x ← OnIdle true (set_idle_hold_time (GetConnectTime x * 1000) x);
  transit IDLE (StartIdleHoldTimer x).
Definition ToIdle (e : event) (x : t) : option t :=
  x ← update_session DOWN [Name e] x;
  x ← OnIdle true x;
  transit IDLE (StartIdleHoldTimer x).

(** ** Reactions *)
Definition Idle_react (e : event) (x : t) : option t :=
  match e with
  | EvStart =>
      if negb (idle_hold_time_ x =? 0) then Some (StartIdleHoldTimer (update_server INIT [Name e] x))
      else transit DISCONNECT (update_server DOWN [Name e; " -> Disconnect"%string] x)
  | EvStop _ => Some (CancelIdleHoldTimer x)
  | EvIdleHoldTimerExpired => transit CONNECT (update_server INIT [Name e; " -> Connect"%string] x)
  | EvCollectorUpdate collectors => '(_, x) ← CollectorUpdate collectors x; Some x
  | EvSandeshSend m => Some (ReleaseSandesh m x)
  | EvTcpDeleteSession s => DeleteTcpSession s x
  | _ => Some x
  end.

Definition Disconnect_react (e : event) (x : t) : option t :=
  match e with
  | EvStop enq => transit_to_idle enq x
  | EvCollectorUpdate collectors =>
      '(_, x) ← CollectorUpdate collectors x;
      transit CONNECT (update_server INIT [Name e; " -> Connect"%string] x)
  | EvSandeshSend m => Some (ReleaseSandesh m x)
  | EvTcpDeleteSession s => DeleteTcpSession s x
  | _ => Some x
  end.

Definition Connect_react (e : event) (x : t) : option t :=
  match e with
  | EvStop enq => transit_to_idle enq x
  | EvConnectTimerExpired | EvTcpConnectFail _ | EvTcpClose _ =>
      '(_, x) ← CollectorChange x; Connect_ToIdle e x
  | EvTcpConnected s =>
      let x := CancelConnectTimer x in
      ep ← remote_endpoint (Some s) x;
      transit CLIENT_INIT (call (ConnectionUpdate INIT ep (text [StateName x; " : "%string; Name e])) x)
  | EvCollectorUpdate collectors =>
      '(changed, x) ← CollectorUpdate collectors x;
      if changed : bool then Connect_ToIdle e x else Some x
  | EvSandeshSend m => Some (ReleaseSandesh m x)
  | EvTcpDeleteSession s => DeleteTcpSession s x
  | _ => Some x
  end.

Definition receive (msg : list byte) (header : SandeshHeader) (msg_type : list byte) (header_offset : Z)
    (x : t) : option (bool * t) :=
  ok ← mgr_receive (calls x) msg header msg_type header_offset;
  Some (ok, call (ReceiveMsg msg header msg_type header_offset) x).

Definition ClientInit_react (e : event) (x : t) : option t :=
  match e with
  | EvStop enq => transit_to_idle enq x
  | EvConnectTimerExpired | EvTcpClose _ => '(_, x) ← CollectorChange x; ToIdle e x
  | EvSandeshMessageRecv msg header msg_type header_offset =>
      '(ok, x) ← receive msg header msg_type header_offset x;
      if negb ok then ToIdle e x
      else
        let x := set_collector_name (Source header) x in
        if has_control_hint header then
          ep ← remote_endpoint (session_ x) x;
          transit ESTABLISHED
            (call (ConnectionUpdate UP ep (text [StateName x; " : Control "%string; Name e])) x)
        else Some x
  | EvSandeshSend m => if snh_is_uve m then Some (ReleaseSandesh m x) else send_session m x
  | EvCollectorUpdate collectors =>
      '(changed, x) ← CollectorUpdate collectors x;
      if changed : bool then ToIdle e x else Some x
  | EvTcpDeleteSession s => DeleteTcpSession s x
  | _ => Some x
  end.

(** [OnIdle<EvStop>(EvStop()); return transit<Connect>();] *)
Definition reconnect (e : event) (x : t) : option t :=
  x ← update_session INIT [Name e; " -> Connect"%string] x;
  x ← OnIdle true x;
  transit CONNECT x.

Definition Established_react (e : event) (x : t) : option t :=
  match e with
  | EvStop enq => transit_to_idle enq x
  | EvTcpClose _ =>
      '(changed, x) ← CollectorChange x;
      if changed : bool then reconnect e x else ToIdle e x
  | EvSandeshMessageRecv msg header msg_type header_offset =>
      '(ok, x) ← receive msg header msg_type header_offset x;
      if negb ok then ToIdle e x else Some x
  | EvSandeshSend m => send_session m x
  | EvCollectorUpdate collectors =>
      '(changed, x) ← CollectorUpdate collectors x;
      if changed : bool then reconnect e x else Some x
  | EvTcpDeleteSession s => DeleteTcpSession s x
  | _ => Some x
  end.

Definition process_event (e : event) (x : t) : option t :=
  match state_ x with
  | IDLE => Idle_react e x
  | DISCONNECT => Disconnect_react e x
  | CONNECT => Connect_react e x
  | CLIENT_INIT => ClientInit_react e x
  | ESTABLISHED => Established_react e x
  end.

Definition sm_set_last_event (n : string) (x : t) : t := set_last_event_at (clock x) (set_last_event n x).

Definition DequeueEvent (e : event) (x : t) : option t :=
  if deleted_ x then Some x
  else
    let x := sm_set_last_event (type_name e) x in
    if validate e x then process_event e (UpdateEventDequeue e x)
    else Some (UpdateEventDequeueFail e x).

(** ** Entry points *)
Definition reset_last_info (x : t) : t := set_last_event EmptyString (set_last_state IDLE x).
Definition SetAdminState (down : bool) (x : t) : t :=
  if down then Enqueue (EvStop true) x
  else Enqueue EvStart (reset_last_info (set_idle_hold_time 0 x)).
Definition SetCollectors (collectors : list Endpoint) (x : t) : t := Enqueue (EvCollectorUpdate collectors) x.
Definition SendSandeshUVE (m : Snh) (x : t) : t := Enqueue (EvSandeshSend m) x.
Definition SendSandesh (m : Snh) (x : t) : t := Enqueue (EvSandeshSend m) x.

Inductive tcp_event := CONNECT_COMPLETE | CONNECT_FAILED | CLOSE | ACCEPT | other_event.
Definition OnSessionEvent (s : sid) (ev : tcp_event) (x : t) : t :=
  match ev with
  | CONNECT_COMPLETE => Enqueue (EvTcpConnected s) x
  | CONNECT_FAILED => Enqueue (EvTcpConnectFail s) x
  | CLOSE => Enqueue (EvTcpClose s) x
  | ACCEPT | other_event => x
  end.

Definition OnMessage (msg : list byte) (x : t) : option (bool * t) :=
  r ← ExtractMsgHeader header_read fuel msg;
  match r with
  | inl _ => Some (false, x)
  | inr (header, message_type, xml_offset) =>
      Some (true, Enqueue (EvSandeshMessageRecv msg header message_type xml_offset) x)
  end.

(** The periodic statistics; the UVE maps synchronised afterwards are not part of
    the machine. *)
Definition StatisticsTimerExpired (x : t) : t :=
  if deleted_ x then x
  else SendUVE (call (ModuleClientState (zlen (queue_ x)) (StateName x) (LastStateName x) (last_event_ x)) x).

(** The constructor; [junk] is what the uninitialised [collector_index_] holds. *)
Definition init (now junk : Z) : t :=
  enter_Idle (Mk [] None no_endpoint IDLE [] junk TInit TInit 0 0 false 0 IDLE 0 EmptyString 0 []
                SandeshEventStatistics.init ∅ 1%positive [] [] [] now).

(** ** Everything that can happen *)
Inductive input :=
  | InAdmin (down : bool)
  | InCollectors (collectors : list Endpoint)
  | InSend (m : Snh)
  | InSession (s : sid) (ev : tcp_event)
  | InMessage (s : sid) (msg : list byte)
  | InConnectTimer | InIdleTimer | InStatistics
  | InDequeue
  | InClock (now : Z).

(** A session reports to its observer and delivers to its callback while it has one;
    a timer fires while it runs. *)
Definition step (i : input) (x : t) : option t :=
  match i with
  | InAdmin down => Some (SetAdminState down x)
  | InCollectors cs => Some (SetCollectors cs x)
  | InSend m => Some (SendSandesh m x)
  | InSession s ev =>
      match sessions x !! s with
      | Some i => if s_observer i then Some (OnSessionEvent s ev x) else Some x
      | None => Some x
      end
  | InMessage s msg =>
      match sessions x !! s with
      | Some i => if s_receive_cb i then '(_, x) ← OnMessage msg x; Some x else Some x
      | None => Some x
      end
  | InConnectTimer => Some (if timer_running (connect_timer_ x) then ConnectTimerExpired x else x)
  | InIdleTimer => Some (if timer_running (idle_hold_timer_ x) then IdleHoldTimerExpired x else x)
  | InStatistics => Some (StatisticsTimerExpired x)
  | InDequeue =>
      match queue_ x with
      | [] => Some x
      | e :: q => DequeueEvent e (set_queue q x)
      end
  | InClock now => Some (set_clock now x)
  end.

Inductive reachable : t -> Prop :=
  | reachable_init now junk : reachable (init now junk)
  | reachable_step i x y : reachable x -> step i x = Some y -> reachable y.

Fixpoint run (ins : list input) (x : t) : option t :=
  match ins with
  | [] => Some x
  | i :: ins => x ← step i x; run ins x
  end.

End Machine.
End ClientSM.
