(* ===== verification/ClientSMSpec.v ===== *)
(** * Properties of the client's state machine

    Ownership of sessions (each session alive is current or waits to be deleted,
    exactly once), the fit of state, session, timers and collector, and totality, for
    every sequence of inputs. *)

From S2P Require Import Prelude Transport Statistics Protocol Xml Message ClientSM.
Import ClientSM.
Local Open Scope Z_scope.

Module ClientSpec.

(** ** Ownership *)
Definition delete_of (e : event) : list sid := match e with EvTcpDeleteSession s => [s] | _ => [] end.
Definition own (x : t) : list sid := concat (delete_of <$> queue_ x) ++ option_list (session_ x).

(** A queue in which a session is not referred to behind its deletion, and nothing
    asks to forget a session without deleting it. *)
Fixpoint tidy (q : list event) : Prop :=
  match q with
  | [] => True
  | e :: q => (forall s, e = EvTcpDeleteSession s -> EvTcpConnected s ∉ q) /\ e <> EvStop false /\ tidy q
  end.

(** The current session reports to the machine. *)
Definition listening (x : t) : Prop :=
  forall s i, session_ x = Some s -> sessions x !! s = Some i -> s_observer i = true /\ s_receive_cb i = true.

(** [h] are the sessions whose deletion is being processed. *)
Definition safe (h : list sid) (x : t) : Prop :=
  NoDup (h ++ own x) /\ (forall s, s ∈ h ++ own x <-> s ∈ dom (sessions x)) /\
  NoDup (deleted_sessions x) /\ (forall s, s ∈ deleted_sessions x -> s ∉ dom (sessions x)) /\
  (forall s, s ∈ dom (sessions x) \/ s ∈ deleted_sessions x -> (s < next_sid x)%positive) /\
  (forall s i, s ∈ h ++ concat (delete_of <$> queue_ x) -> sessions x !! s = Some i -> s_observer i = false) /\
  (forall s, EvTcpConnected s ∈ queue_ x -> s ∈ dom (sessions x) /\ s ∉ h) /\
  tidy (queue_ x) /\ deleted_ x = false.

Lemma client_safe_same h x y :
  safe h x -> queue_ y = queue_ x -> session_ y = session_ x -> sessions y = sessions x ->
  deleted_sessions y = deleted_sessions x -> next_sid y = next_sid x -> deleted_ y = deleted_ x -> safe h y.
Proof.
  intros Hs E1 E2 E3 E4 E5 E6. unfold safe, own in *. by rewrite E1, E2, E3, E4, E5, E6.
Qed.

Lemma Enqueue_eq e x : deleted_ x = false -> Enqueue e x = UpdateEventEnqueue e (set_queue (queue_ x ++ [e]) x).
Proof. intros E. unfold Enqueue. by rewrite E. Qed.

Lemma elem_of_delete s q : s ∈ concat (delete_of <$> q) <-> EvTcpDeleteSession s ∈ q.
Proof.
  induction q as [|e q IH]; [cbn; set_solver|]. cbn [fmap list_fmap concat].
  change (list_fmap _ _ delete_of q) with (delete_of <$> q). rewrite elem_of_app, IH, elem_of_cons.
  destruct e; cbn [delete_of]; rewrite ?list_elem_of_singleton; split; intros [H|H]; try (by right);
    try (by apply not_elem_of_nil in H); try (left; congruence).
Qed.

Lemma tidy_snoc q e :
  tidy q -> e <> EvStop false -> (forall s, e = EvTcpConnected s -> EvTcpDeleteSession s ∉ q) -> tidy (q ++ [e]).
Proof.
  intros Ht Hne. induction q as [|e' q IH]; cbn [tidy app] in *; intros Hc.
  { split; [by intros s _ ?%not_elem_of_nil|]. done. }
  destruct Ht as (Hd&Hs&Ht). split; [|split; [done|]].
  - intros s -> Hin. apply elem_of_app in Hin as [Hin|Hin%list_elem_of_singleton]; [by apply (Hd s)|].
    apply (Hc s); [done|]. by left.
  - apply IH; [done|]. intros s Es Hin. apply (Hc s Es). by right.
Qed.

(** ** The primitive operations *)

(** An event that neither deletes nor refers to a session. *)
Definition plain (e : event) : Prop :=
  match e with EvTcpDeleteSession _ | EvTcpConnected _ | EvStop false => False | _ => True end.

Lemma own_snoc x e : own (set_queue (queue_ x ++ [e]) x) ≡ₚ delete_of e ++ own x.
Proof.
  unfold own. cbn [queue_ session_ set_queue]. rewrite fmap_app, concat_app. cbn [fmap list_fmap concat].
  rewrite app_nil_r. solve_Permutation.
Qed.

Lemma safe_Enqueue_gen h x e :
  safe h x -> delete_of e = [] -> e <> EvStop false ->
  (forall s, e = EvTcpConnected s -> exists i, sessions x !! s = Some i /\ s_observer i = true) ->
  safe h (Enqueue e x).
Proof.
  intros (Hn&Hl&Hd&Hda&Hlt&Ho&Hr&Ht&Hdel) He Hne Hc. rewrite Enqueue_eq by done.
  assert (own (set_queue (queue_ x ++ [e]) x) ≡ₚ own x) as Hp by (by rewrite own_snoc, He).
  assert (concat (delete_of <$> queue_ x ++ [e]) = concat (delete_of <$> queue_ x)) as Eq.
  { rewrite fmap_app, concat_app. cbn [fmap list_fmap concat]. by rewrite He, !app_nil_r. }
  assert (forall s, e = EvTcpConnected s -> s ∈ dom (sessions x) /\ s ∉ h /\ EvTcpDeleteSession s ∉ queue_ x) as Hcs.
  { intros s Es. destruct (Hc s Es) as (i&Ei&Hi). split; [by apply elem_of_dom; eexists|].
    split; intros Hin; (assert (s_observer i = false) by (apply (Ho s i); [|done]; apply elem_of_app;
      first [by left | right; by apply elem_of_delete])); congruence. }
  split; [|split; [|split; [done|split; [done|split; [done|split; [|split; [|split; [|done]]]]]]]].
  - change (own (UpdateEventEnqueue e ?z)) with (own z). by rewrite Hp.
  - intros s. change (own (UpdateEventEnqueue e ?z)) with (own z). rewrite Hp. apply Hl.
  - cbn. by rewrite Eq.
  - cbn. intros s [Hin|Hin%list_elem_of_singleton]%elem_of_app; [by apply Hr|].
    destruct (Hcs s) as (?&?&_); done.
  - cbn. apply tidy_snoc; [done|done|]. intros s Es. by destruct (Hcs s Es) as (_&_&?).
Qed.

Lemma client_safe_Enqueue h x e : plain e -> safe h x -> safe h (Enqueue e x).
Proof.
  intros Hp Hs. apply safe_Enqueue_gen; [done|by destruct e|by intros -> |]. intros s ->. done.
Qed.

(** The fields sessions and the queue do not touch. *)
Definition frame (x : t) :=
  (state_ x, server_ x, collectors_ x, collector_index_ x, connect_timer_ x, idle_hold_timer_ x,
   idle_hold_time_ x, attempts_ x, connects_ x, coll_name_ x, dropped x, calls x).

Lemma client_Enqueue_frame e x :
  frame (Enqueue e x) = frame x /\ session_ (Enqueue e x) = session_ x /\ sessions (Enqueue e x) = sessions x /\
  deleted_sessions (Enqueue e x) = deleted_sessions x /\ next_sid (Enqueue e x) = next_sid x /\
  deleted_ (Enqueue e x) = deleted_ x.
Proof. unfold Enqueue. destruct (deleted_ x) eqn:E; [done|]. cbn. by rewrite E. Qed.

(** Changing a session in a way that does not give it an observer. *)
Lemma client_safe_on_session h x s f :
  (forall i, s_observer i = false -> s_observer (f i) = false) ->
  safe h x -> s ∈ dom (sessions x) ->
  exists i y, sessions x !! s = Some i /\ on_session s f x = Some y /\
    y = set_sessions (<[s := f i]> (sessions x)) x /\ safe h y.
Proof.
  intros Hf (Hn&Hl&Hd&Hda&Hlt&Ho&Hr&Ht&Hdel) [i Hi]%elem_of_dom. unfold on_session. rewrite Hi.
  exists i. eexists. split; [done|]. split; [done|]. split; [done|].
  assert (dom (<[s:=f i]> (sessions x)) = dom (sessions x)) as Ed by (apply dom_insert_lookup_L; by eexists).
  unfold safe. cbn. rewrite Ed. change (own (set_sessions _ x)) with (own x).
  do 5 (split; [done|]). split; [|done].
  intros s' i' Hs' Hi'. destruct (decide (s = s')) as [<-|Hne].
  - rewrite lookup_insert_eq in Hi'. injection Hi' as <-. apply Hf. by apply (Ho s i).
  - rewrite lookup_insert_ne in Hi' by done. by apply (Ho s' i').
Qed.

(** Giving the current session up queues its deletion. *)
Lemma safe_set_session_None h x :
  safe h x ->
  exists y, sm_set_session None true x = Some y /\ safe h y /\ frame y = frame x /\ session_ y = None /\
    dom (sessions y) = dom (sessions x) /\
    queue_ y = queue_ x ++ match session_ x with Some s => [EvTcpDeleteSession s] | None => [] end.
Proof.
  intros Hs. unfold sm_set_session. destruct (session_ x) as [s|] eqn:Es.
  2: { eexists. split; [done|]. rewrite app_nil_r. split; [|done]. by eapply client_safe_same. }
  assert (s ∈ dom (sessions x)) as Ha.
  { destruct Hs as (_&Hl&_). apply Hl, elem_of_app. right. unfold own. rewrite Es. apply elem_of_app. right. by left. }
  destruct (client_safe_on_session h x s quiesce) as (i&z&Ei&Ez&->&Hz); [done..|]. rewrite Ez. cbn [mbind option_bind].
  destruct Hz as (Hn&Hl&Hd&Hda&Hlt&Ho&Hr&Ht&Hdel). unfold EnqueDelSession. rewrite Enqueue_eq by done.
  set (m := <[s:=quiesce i]> (sessions x)) in *.
  assert (dom m = dom (sessions x)) as Edom by (apply dom_insert_lookup_L; by eexists).
  eexists. split; [done|]. split; [|cbn; by rewrite Edom].
  set (y := set_session None _).
  assert (own y ≡ₚ own (set_sessions m x)) as Hp.
  { unfold own, y. cbn. rewrite Es, fmap_app, concat_app. cbn. by rewrite app_nil_r. }
  assert (concat (delete_of <$> queue_ y) = concat (delete_of <$> queue_ x) ++ [s]) as Ec.
  { unfold y. cbn. rewrite fmap_app, concat_app. done. }
  split; [by rewrite Hp|]. split; [intros s'; rewrite Hp; apply Hl|]. do 3 (split; [done|]).
  split; [|split; [|split; [|done]]].
  - intros s' i' Hs' Hi'. rewrite Ec, app_assoc, elem_of_app, list_elem_of_singleton in Hs'.
    destruct Hs' as [Hs'| ->]; [by apply (Ho s' i')|]. cbn in Hi'. unfold m in Hi'.
    rewrite lookup_insert_eq in Hi'. by injection Hi' as <-.
  - cbn. intros s' [Hin|Hin%list_elem_of_singleton]%elem_of_app; [by apply Hr|done].
  - cbn. by apply tidy_snoc.
Qed.

Lemma client_safe_DeleteTcpSession x s :
  safe [s] x -> exists y, DeleteTcpSession s x = Some y /\ safe [] y /\ queue_ y = queue_ x /\
    session_ y = session_ x /\ frame y = frame (call (DeleteSMSession s) x) /\ sessions y = delete s (sessions x).
Proof.
  intros (Hn&Hl&Hd&Hda&Hlt&Ho&Hr&Ht&Hdel). unfold DeleteTcpSession. cbn [app] in *.
  assert (s ∈ dom (sessions x)) as Ha by (apply Hl; by left). pose proof Ha as [i Hi]%elem_of_dom. rewrite Hi.
  apply list.NoDup_cons in Hn as [Hns Hn].
  eexists. split; [done|]. split; [|done].
  unfold safe. cbn [app]. change (own (call _ _)) with (own x). cbn. rewrite dom_delete_L.
  split; [done|]. split; [|split; [|split; [|split; [|split; [|split; [|done]]]]]].
  - intros s'. rewrite elem_of_difference, elem_of_singleton, <- Hl, elem_of_cons. split; [|naive_solver].
    intros Hin. split; [by right|]. by intros ->.
  - apply list.NoDup_cons. split; [|done]. intros Hin. by apply (Hda s Hin).
  - intros s' [->|Hin]%elem_of_cons; [set_solver|]. specialize (Hda s' Hin). set_solver.
  - intros s' [Hin|[->|Hin]%elem_of_cons]; apply Hlt; set_solver.
  - intros s' i' Hin Hi'. apply (Ho s' i'); [by right|]. apply lookup_delete_Some in Hi'. naive_solver.
  - intros s' Hin. destruct (Hr s' Hin) as [Hdom Hnh]. split; [|by intros ?%not_elem_of_nil].
    apply elem_of_difference. split; [done|]. rewrite elem_of_singleton. intros ->. apply Hnh. by left.
Qed.

(** An event taken off the queue. *)
Definition taken (e : event) (q : list event) (fail : bool) (x : t) : t :=
  UpdateEventStats e false fail (sm_set_last_event (type_name e) (set_queue q x)).

Lemma safe_taken e q (fail : bool) x : safe [] x -> queue_ x = e :: q -> safe (delete_of e) (taken e q fail x).
Proof.
  intros (Hn&Hl&Hd&Hda&Hlt&Ho&Hr&Ht&Hdel) Eq.
  assert (delete_of e ++ own (taken e q fail x) = own x) as Eo.
  { unfold own. rewrite Eq. cbn [fmap list_fmap concat]. by rewrite <- app_assoc. }
  assert (delete_of e ++ concat (delete_of <$> q) = concat (delete_of <$> queue_ x)) as Ec by (by rewrite Eq).
  unfold safe. rewrite Eo. cbn in *. rewrite Ec, Eq in *. destruct Ht as (Hdt&_&Ht).
  do 6 (split; [done|]). split; [|done]. intros s Hin. split; [apply Hr; by right|].
  intros Hdo. destruct e; try (by apply not_elem_of_nil in Hdo). apply list_elem_of_singleton in Hdo as ->.
  by apply (Hdt session).
Qed.

Section Machine.
Context `{!Allocator} `{!Texts} `{!Mgr}.
Variable header_read : M (TXMLProtocol.t TMemoryBuffer.t) (Z * SandeshHeader).
Variable fuel : nat.

Lemma safe_StartSession h x :
  safe h x -> session_ x = None ->
  exists y, StartSession x = Some y /\ safe h y /\ queue_ y = queue_ x /\
    frame y = frame (call (CreateSMSession (server_ x)) x) /\
    session_ y = (if mgr_create (calls x) (server_ x) then Some (next_sid x) else None) /\
    deleted_sessions y = deleted_sessions x /\ listening y.
Proof.
  intros Hs Es. unfold StartSession, create_session.
  destruct (mgr_create (calls x) (server_ x)).
  2: { unfold sm_set_session. cbn. rewrite Es. eexists. split; [done|]. split; [by eapply client_safe_same|]. do 4 (split; [done|]). by intros s i. }
  unfold sm_set_session. cbn. rewrite Es. cbn [mbind option_bind]. eexists. split; [done|].
  split; [|do 4 (split; [done|]); intros s i [= <-]; cbn; rewrite lookup_insert_eq; by intros [= <-]].
  destruct Hs as (Hn&Hl&Hd&Hda&Hlt&Ho&Hr&Ht&Hdel). set (n := next_sid x) in *.
  assert (n ∉ dom (sessions x)) as Hnd by (intros Hin; specialize (Hlt n (or_introl Hin)); lia).
  assert (n ∉ deleted_sessions x) as Hnx by (intros Hin; specialize (Hlt n (or_intror Hin)); lia).
  unfold safe, own. cbn. fold n.
  assert ((h ++ concat (delete_of <$> queue_ x) ++ [n]) ≡ₚ n :: (h ++ own x)) as Hp.
  { unfold own. rewrite Es. cbn. rewrite app_nil_r. solve_Permutation. }
  rewrite dom_insert_L. split; [rewrite Hp; apply list.NoDup_cons; split; [by rewrite Hl|done]|].
  split; [intros s; rewrite Hp, elem_of_cons, Hl; set_solver|]. split; [done|].
  split; [intros s Hin; specialize (Hda s Hin); set_solver|].
  split; [intros s Hin; assert (s = n \/ (s ∈ dom (sessions x) \/ s ∈ deleted_sessions x)) as [->|Hin'] by set_solver;
          [lia|specialize (Hlt s Hin'); lia]|].
  assert (forall s, s ∈ h ++ concat (delete_of <$> queue_ x) -> s <> n) as Hne.
  { intros s Hin ->. apply Hnd, Hl. rewrite elem_of_app in Hin |- *. unfold own. rewrite elem_of_app. naive_solver. }
  split.
  { intros s i Hin Hi. rewrite lookup_insert_ne in Hi by (intros <-; by apply (Hne n)). by apply (Ho s i). }
  split; [|done]. intros s Hin. destruct (Hr s Hin). split; [set_solver|done].
Qed.

(** ** State, timers, counters and collector fit *)
Definition connecting (s : State) : Prop := s = CONNECT \/ s = CLIENT_INIT.
Definition small (cs : list Endpoint) : Prop := zlen cs < 2 ^ 31.

(** The counters are in range, the server is the collector the index selects, and
    collector lists have the length of an [int]. *)
Definition common (n : Z) (x : t) : Prop :=
  0 <= attempts_ x <= n /\ 0 <= connects_ x <= n /\ 0 <= idle_hold_time_ x /\
  GetCollector x = Some (server_ x) /\ small (collectors_ x) /\
  Forall (fun e => match e with EvCollectorUpdate cs => small cs | _ => True end) (queue_ x).

(** There is a session from Connect on, the connect timer runs only while
    connecting, the hold timer only in Idle. *)
Definition fit (x : t) : Prop :=
  (session_ x <> None <-> connecting (state_ x) \/ state_ x = ESTABLISHED) /\
  (timer_running (connect_timer_ x) = true -> connecting (state_ x)) /\
  (timer_running (idle_hold_timer_ x) = true -> state_ x = IDLE) /\
  (connecting (state_ x) -> 1 <= attempts_ x) /\ listening x.

(** Connecting ends: the timer runs or its expiry waits in the queue. *)
Definition watched (x : t) : Prop :=
  connecting (state_ x) ->
  timer_running (connect_timer_ x) = true \/ (connect_timer_ x = TInit /\ EvConnectTimerExpired ∈ queue_ x).

Definition inv (n : Z) (h : list sid) (x : t) : Prop := safe h x /\ common n x /\ fit x.

Lemma common_mono n m x : n <= m -> common n x -> common m x.
Proof. intros Hm (?&?&?). split; [lia|]. split; [lia|done]. Qed.

Lemma common_same n x y q :
  common n x -> attempts_ y = attempts_ x -> connects_ y = connects_ x -> 0 <= idle_hold_time_ y ->
  server_ y = server_ x -> collectors_ y = collectors_ x -> collector_index_ y = collector_index_ x ->
  queue_ y = queue_ x ++ q -> Forall (fun e => match e with EvCollectorUpdate cs => small cs | _ => True end) q ->
  common n y.
Proof.
  intros (Ha&Hc&Hh&Hg&Hs&Hq) E1 E2 E3 E4 E5 E6 E7 Hq'. unfold common, GetCollector in *.
  rewrite E1, E2, E4, E5, E6, E7. do 5 (split; [done|]). by apply Forall_app.
Qed.

Lemma fit_Idle x :
  state_ x = IDLE -> session_ x = None -> timer_running (connect_timer_ x) = false -> fit x /\ watched x.
Proof. unfold fit, watched, connecting, listening. intros -> -> ->. naive_solver. Qed.
Lemma fit_Connect x :
  connecting (state_ x) -> session_ x <> None -> timer_running (connect_timer_ x) = true ->
  timer_running (idle_hold_timer_ x) = false -> 1 <= attempts_ x -> listening x -> fit x /\ watched x.
Proof. unfold fit, watched. intros ? ? -> ->. naive_solver. Qed.

(** The connection gives its session up: [OnIdle] and the start of the hold timer. *)
Lemma OnIdle_spec n x :
  safe [] x -> common n x ->
  exists y, OnIdle true x = Some y /\ safe [] y /\ session_ y = None /\ common n y /\
    state_ y = state_ x /\ server_ y = server_ x /\ collectors_ y = collectors_ x /\
    collector_index_ y = collector_index_ x /\ connect_timer_ y = connect_timer_ x /\
    idle_hold_timer_ y = TCancelled /\
    idle_hold_time_ y = (if idle_hold_time_ x =? 0 then kIdleHoldTime else idle_hold_time_ x) /\
    attempts_ y = attempts_ x /\ connects_ y = connects_ x /\ dropped y = dropped x /\ calls y = calls x /\
    queue_ y = queue_ x ++ match session_ x with Some s => [EvTcpDeleteSession s] | None => [] end.
Proof.
  intros Hs Hc. unfold OnIdle. set (z := CancelIdleHoldTimer _).
  destruct (safe_set_session_None [] z) as (y&E&Hy&Hf&Es&_&Eq); [by eapply client_safe_same|].
  exists y. split; [done|]. split; [done|]. split; [done|].
  unfold frame in Hf. injection Hf as E1 E2 E3 E4 E5 E6 E7 E8 E9 _ E11 E12.
  split; [|by rewrite E1, E2, E3, E4, E5, E6, E7, E8, E9, E11, E12, Eq].
  eapply (common_same n x); try done.
  - rewrite E7. cbn. destruct Hc as (_&_&?&_). destruct (Z.eqb_spec (idle_hold_time_ x) 0); unfold kIdleHoldTime; lia.
  - cbn. by destruct (session_ x); repeat constructor.
Qed.

(** What giving up and waiting for another attempt leaves behind. *)
Definition retrying (s : sid) (x y : t) : Prop :=
  state_ y = IDLE /\ session_ y = None /\ queue_ y = queue_ x ++ [EvTcpDeleteSession s] /\
  server_ y = server_ x /\ collectors_ y = collectors_ x /\ collector_index_ y = collector_index_ x /\
  attempts_ y = attempts_ x /\ dropped y = dropped x /\
  idle_hold_timer_ y = TRunning (idle_hold_time_ y) /\ 0 < idle_hold_time_ y.

Lemma session_alive h x s : safe h x -> session_ x = Some s -> exists i, sessions x !! s = Some i.
Proof.
  intros (_&Hl&_) E. apply elem_of_dom, Hl, elem_of_app. right. unfold own. rewrite E. apply elem_of_app. right. by left.
Qed.
Lemma remote_Some h x s : safe h x -> session_ x = Some s -> exists ep, remote_endpoint (session_ x) x = Some ep.
Proof.
  intros Hs E. destruct (session_alive h x s Hs E) as [i Hi]. rewrite E. cbn. rewrite Hi. by eexists.
Qed.

(** [OnIdle], the hold timer and [transit<Idle>] from a state with a session; the hold
    time is [ms] or the default. *)
Lemma abandon n s st parts ms x :
  safe [] x -> common n x -> fit x -> session_ x = Some s -> 0 <= ms ->
  exists y, (x ← update_session st parts x;
             x ← OnIdle true (set_idle_hold_time ms x); transit IDLE (StartIdleHoldTimer x)) = Some y /\
    inv n [] y /\ watched y /\ retrying s x y /\
    idle_hold_time_ y = (if ms =? 0 then kIdleHoldTime else ms).
Proof.
  intros Hs Hc Hf Es Hms. destruct (remote_Some [] x s Hs Es) as [ep Ep]. unfold update_session.
  rewrite Ep. cbn [mbind option_bind]. set (x1 := set_idle_hold_time ms _).
  assert (common n x1) as Hc1 by (eapply (common_same n x x1 []); try done; by rewrite app_nil_r).
  destruct (OnIdle_spec n x1) as (z&E&Hz&Ez&Hcz&E1&E2&E3&E4&E5&E6&E7&E8&E9&E10&E11&E12); [by eapply client_safe_same|done|].
  rewrite E. cbn [mbind option_bind]. change (session_ x1) with (session_ x) in E12. rewrite Es in E12.
  change (state_ x1) with (state_ x) in E1. change (connect_timer_ x1) with (connect_timer_ x) in E5.
  change (idle_hold_time_ x1) with ms in E7.
  assert (0 < idle_hold_time_ z) as Hpos by (rewrite E7; destruct (Z.eqb_spec ms 0); unfold kIdleHoldTime; lia).
  unfold StartIdleHoldTimer. rewrite (proj2 (Z.leb_gt _ 0) Hpos), E6. cbn [timer_start].
  destruct Hf as (Hse&Hct&_&_). unfold transit, leave. cbn [state_ set_idle_hold_timer]. rewrite E1.
  assert (connecting (state_ x) \/ state_ x = ESTABLISHED) as Hst by (apply Hse; by rewrite Es).
  assert (forall w, safe [] w -> common n w -> session_ w = None -> timer_running (connect_timer_ w) = false ->
    inv n [] (enter_Idle w) /\ watched (enter_Idle w)) as Hin.
  { intros w W1 W2 W3 W4. destruct (fit_Idle (enter_Idle w)) as [??]; [done..|].
    split; [|done]. split; [by eapply client_safe_same|]. split; [|done].
    eapply (common_same n w _ []); try done; [by destruct W2 as (_&_&?&_)|by rewrite app_nil_r]. }
  assert (forall w, queue_ w = queue_ z -> session_ w = session_ z -> sessions w = sessions z ->
    deleted_sessions w = deleted_sessions z -> next_sid w = next_sid z -> deleted_ w = deleted_ z ->
    attempts_ w = attempts_ z -> connects_ w = connects_ z -> idle_hold_time_ w = idle_hold_time_ z ->
    server_ w = server_ z -> collectors_ w = collectors_ z -> collector_index_ w = collector_index_ z ->
    safe [] w /\ common n w) as Hsc.
  { intros w W1 W2 W3 W4 W5 W6 W7 W8 W9 W10 W11 W12. split; [by eapply client_safe_same|].
    eapply (common_same n z _ []); try done; [lia|by rewrite W1, app_nil_r]. }
  assert (forall w, safe [] w -> common n w -> session_ w = None -> timer_running (connect_timer_ w) = false ->
    queue_ w = queue_ z -> server_ w = server_ z -> collectors_ w = collectors_ z ->
    collector_index_ w = collector_index_ z -> attempts_ w = attempts_ z -> dropped w = dropped z ->
    idle_hold_time_ w = idle_hold_time_ z -> idle_hold_timer_ w = TRunning (idle_hold_time_ z) ->
    exists y, enter IDLE w = Some y /\ inv n [] y /\ watched y /\ retrying s x y /\
      idle_hold_time_ y = (if ms =? 0 then kIdleHoldTime else ms)) as Hfin.
  { intros w W1 W2 W3 W4 W5 W6 W7 W8 W9 W10 W11 W12. exists (enter_Idle w). split; [done|].
    destruct (Hin w W1 W2 W3 W4) as [Hi Hw]. split; [done|]. split; [done|].
    split; [|cbn; by rewrite W11, E7]. unfold retrying. cbn.
    rewrite W5, W6, W7, W8, W9, W10, W11, W12, E12, E2, E3, E4, E8, E10. done. }
  assert (connecting (state_ x) \/ timer_running (connect_timer_ z) = false) as Hti.
  { rewrite E5. destruct (timer_running (connect_timer_ x)); [left; by apply Hct | by right]. }
  destruct Hst as [[Hst|Hst]|Hst]; rewrite Hst in Hti |- *; apply Hfin; try done; try (by apply Hsc).
  destruct Hti as [[?|?]|?]; done.
Qed.

Lemma GetConnectTime_range x : 0 <= attempts_ x -> 0 <= GetConnectTime x <= 30 /\ (1 <= attempts_ x -> 1 <= GetConnectTime x).
Proof.
  intros Ha. unfold GetConnectTime, kConnectInterval. destruct (Z.eqb_spec (Z.min (attempts_ x) 6) 0).
  - split; [lia|]. lia.
  - rewrite Z.shiftl_1_l. pose proof (Z.pow_pos_nonneg 2 (Z.min (attempts_ x) 6 - 1)). lia.
Qed.

Lemma ToIdle_spec n s e x :
  inv n [] x -> session_ x = Some s ->
  exists y, ToIdle e x = Some y /\ inv n [] y /\ watched y /\ retrying s x y /\
    idle_hold_time_ y = (if idle_hold_time_ x =? 0 then kIdleHoldTime else idle_hold_time_ x).
Proof.
  intros (Hs&Hc&Hf) Es. assert (0 <= idle_hold_time_ x) as Hh by (by destruct Hc as (_&_&?&_)).
  destruct (abandon n s DOWN [Name e] (idle_hold_time_ x) x Hs Hc Hf Es Hh) as (y&E&Hy).
  exists y. split; [|done]. rewrite <- E. unfold ToIdle, update_session.
  destruct (remote_endpoint (session_ x) x); [|done]. by destruct x.
Qed.
Lemma Connect_ToIdle_spec n s e x :
  inv n [] x -> session_ x = Some s -> 1 <= attempts_ x ->
  exists y, Connect_ToIdle e x = Some y /\ inv n [] y /\ watched y /\ retrying s x y /\
    idle_hold_time_ y = GetConnectTime x * 1000.
Proof.
  intros (Hs&Hc&Hf) Es Ha. destruct (GetConnectTime_range x) as [Hr Hr1]; [lia|]. specialize (Hr1 Ha).
  destruct (abandon n s DOWN [Name e] (GetConnectTime x * 1000) x Hs Hc Hf Es) as (y&E&Y1&Y2&Y3&Y4); [lia|].
  exists y. rewrite (proj2 (Z.eqb_neq (GetConnectTime x * 1000) 0)) in Y4 by lia. split; [|done].
  rewrite <- E. unfold Connect_ToIdle, update_session. by destruct (remote_endpoint (session_ x) x).
Qed.

(** The choice of another collector touches nothing else. *)
Definition moved (x y : t) : Prop :=
  queue_ y = queue_ x /\ session_ y = session_ x /\ sessions y = sessions x /\
  deleted_sessions y = deleted_sessions x /\ next_sid y = next_sid x /\ deleted_ y = deleted_ x /\
  state_ y = state_ x /\ connect_timer_ y = connect_timer_ x /\ idle_hold_timer_ y = idle_hold_timer_ x /\
  attempts_ y = attempts_ x /\ connects_ y = connects_ x /\ idle_hold_time_ y = idle_hold_time_ x /\
  dropped y = dropped x /\ coll_name_ y = coll_name_ x.

Lemma inv_moved n h x y :
  inv n h x -> moved x y -> GetCollector y = Some (server_ y) -> small (collectors_ y) ->
  inv n h y /\ (watched x -> watched y).
Proof.
  intros (Hs&(Ha&Hc&Hh&_&_&Hq)&Hf) (E1&E2&E3&E4&E5&E6&E7&E8&E9&E10&E11&E12&_) Hg Hsm.
  split; [|unfold watched; by rewrite E1, E7, E8]. split; [by eapply client_safe_same|].
  split; [unfold common; by rewrite E1, E10, E11, E12|]. unfold fit, listening. by rewrite E2, E3, E7, E8, E9, E10.
Qed.

(** [++collector_index_] goes round the collectors. *)
Definition next_index (x : t) : Z := (collector_index_ x + 1) mod zlen (collectors_ x).

Lemma next_collector x :
  GetCollector x = Some (server_ x) -> small (collectors_ x) ->
  exists c y, GetNextCollector x = Some (c, y) /\ moved x y /\ server_ y = server_ x /\
    collectors_ y = collectors_ x /\ (collectors_ x <> [] -> collector_index_ y = next_index x) /\
    GetCollector y = Some c.
Proof.
  unfold GetNextCollector, GetCollector, next_index, small, INT_MAX. intros Hg Hsm.
  destruct (collectors_ x) as [|c cs] eqn:Ecs; [exists no_endpoint, x; by rewrite Ecs|].
  destruct (Z.ltb_spec (collector_index_ x) 0); [done|]. pose proof (lookup_lt_Some _ _ _ Hg) as Hlt.
  set (l := c :: cs) in *. rewrite (proj2 (Z.eqb_neq _ (2 ^ 31 - 1))) by lia.
  set (x1 := set_collector_index (collector_index_ x + 1) x).
  set (x2 := if collector_index_ x1 =? zlen l then _ else _).
  assert (collector_index_ x2 = (collector_index_ x + 1) mod zlen l) as E2.
  { unfold x2, x1. cbn [collector_index_ set_collector_index]. destruct (Z.eqb_spec (collector_index_ x + 1) (zlen l)) as [->|].
    - by rewrite Z.mod_same by (unfold l; cbn; lia).
    - cbn [collector_index_ set_collector_index]. rewrite Z.mod_small; lia. }
  pose proof (Z.mod_pos_bound (collector_index_ x + 1) (zlen l)) as Hb.
  assert (0 < zlen l) as Hl by (unfold l; cbn; lia). specialize (Hb Hl). rewrite <- E2 in Hb.
  destruct (Z.ltb_spec (collector_index_ x2) 0); [lia|].
  destruct (lookup_lt_is_Some_2 l (Z.to_nat (collector_index_ x2))) as [c' Hc']; [lia|].
  rewrite Hc'. exists c', x2. split; [done|].
  assert (moved x x2 /\ server_ x2 = server_ x /\ collectors_ x2 = collectors_ x) as (?&?&E3)
    by (unfold x2, x1; by destruct (_ =? _)).
  split; [done|]. split; [done|]. rewrite E3, Ecs. split; [done|]. split; [done|].
  destruct (Z.ltb_spec (collector_index_ x2) 0); [lia|]. exact Hc'.
Qed.

Lemma CollectorChange_spec n h x :
  inv n h x ->
  exists b y, CollectorChange x = Some (b, y) /\ moved x y /\ inv n h y /\ (watched x -> watched y) /\
    collectors_ y = collectors_ x /\ (collectors_ x <> [] -> collector_index_ y = next_index x) /\
    b = negb (bool_decide (server_ y = server_ x)).
Proof.
  intros Hi. pose proof Hi as (_&(_&_&_&Hg&Hsm&_)&_). unfold CollectorChange.
  destruct (next_collector x Hg Hsm) as (c&x1&E&M1&M2&M3&M4&M5). rewrite E. cbn [mbind option_bind].
  destruct (decide (server_ x = c)) as [Ec|Ec].
  - rewrite (bool_decide_true (server_ x1 = c)) by congruence. cbn [negb]. exists false, x1. split; [done|].
    split; [done|]. destruct (inv_moved n h x x1 Hi M1) as [? ?]; [congruence|by rewrite M3|].
    split; [done|]. split; [done|]. split; [done|]. split; [done|]. by rewrite bool_decide_true.
  - rewrite (bool_decide_false (server_ x1 = c)) by congruence. cbn [negb]. eexists true, _. split; [done|].
    split; [done|]. destruct (inv_moved n h x (SendUVE (set_server c x1)) Hi) as [? ?]; [done|done|by rewrite <- M3 in Hsm|].
    split; [done|]. split; [done|]. split; [done|]. split; [done|]. by rewrite bool_decide_false.
Qed.

Lemma CollectorUpdate_spec n h cs x :
  inv n h x -> small cs ->
  exists b y, CollectorUpdate cs x = Some (b, y) /\ moved x y /\ inv n h y /\ (watched x -> watched y) /\
    collectors_ y = cs /\ b = negb (bool_decide (server_ y = server_ x)).
Proof.
  intros Hi Hsm. unfold CollectorUpdate. set (x1 := set_collector_index 0 _).
  assert (exists c, GetCollector x1 = Some c) as [c Ec] by (unfold GetCollector; cbn; by destruct cs; eexists).
  rewrite Ec. cbn [mbind option_bind]. change (server_ x1) with (server_ x).
  assert (forall z, moved x z -> server_ z = c -> GetCollector z = GetCollector x1 -> collectors_ z = cs ->
    inv n h z /\ (watched x -> watched z)) as Hz.
  { intros z Mz Sz Gz Cz. apply (inv_moved n h x z Hi Mz); [congruence|by rewrite Cz]. }
  destruct (decide (server_ x = c)) as [E|E].
  - rewrite (bool_decide_true (server_ x = c)) by done. cbn [negb]. exists false, (SendUVE x1). split; [done|].
    destruct (Hz (SendUVE x1)) as [??]; [done..|]. cbn. rewrite bool_decide_true by done. done.
  - rewrite (bool_decide_false (server_ x = c)) by done. cbn [negb]. eexists true, _. split; [done|].
    destruct (Hz (SendUVE (set_server c x1))) as [??]; [done..|]. cbn. rewrite bool_decide_false by done. done.
Qed.

Hypothesis create_ok : forall c ep, mgr_create c ep = true.

(** A new attempt: a new session to the server, the counter and the timer. *)
Definition attempting (x y : t) : Prop :=
  state_ y = CONNECT /\ session_ y = Some (next_sid x) /\ queue_ y = queue_ x /\ server_ y = server_ x /\
  collectors_ y = collectors_ x /\ collector_index_ y = collector_index_ x /\ attempts_ y = attempts_ x + 1 /\
  dropped y = dropped x /\ idle_hold_time_ y = idle_hold_time_ x.

Lemma enter_Connect_spec n x :
  n < INT_MAX -> safe [] x -> common n x -> session_ x = None -> timer_running (idle_hold_timer_ x) = false ->
  exists y, enter CONNECT x = Some y /\ inv (n + 1) [] y /\ watched y /\ attempting x y.
Proof.
  intros Hn Hs Hc Es Hi. cbn [enter]. unfold enter_Connect.
  destruct (safe_StartSession [] (sm_set_state CONNECT x)) as (y&E&Hy&Eq&Ef&Esy&_&Hlis); [by eapply client_safe_same|done|].
  rewrite E. cbn [mbind option_bind]. rewrite create_ok in Esy. unfold frame in Ef.
  injection Ef as F1 F2 F3 F4 F5 F6 F7 F8 F9 F10 F11 F12. cbn in F1, F2, F3, F4, F5, F6, F7, F8, F9, F10, F11.
  pose proof Hc as ((?&?)&_&?&_). unfold connect_attempts_inc.
  rewrite (proj2 (Z.eqb_neq (attempts_ y) INT_MAX)) by lia. cbn [mbind option_bind].
  set (z := set_attempts _ y). eexists. split; [done|].
  destruct (fit_Connect (SendUVE (StartConnectTimer (GetConnectTime z) z))) as [Hf Hw].
  - left. done.
  - cbn. by rewrite Esy.
  - cbn. by destruct (connect_timer_ y).
  - cbn. by rewrite F6.
  - cbn. lia.
  - exact Hlis.
  - split; [|split; [done|]].
    + split; [by eapply client_safe_same|]. split; [|done]. destruct Hc as (C1&C2&C3&C4&C5&C6).
      unfold common, GetCollector in *. cbn. rewrite F2, F3, F4, F7, F8, F9, Eq. cbn.
      split; [lia|]. split; [lia|]. done.
    + unfold attempting. cbn. rewrite F2, F3, F4, F7, F8, F11, Eq, Esy. done.
Qed.

Definition good (n : Z) (x : t) : Prop := inv n [] x /\ watched x.

Lemma inv_mono n m h x : n <= m -> inv n h x -> inv m h x.
Proof. intros ? (?&?&?). split; [done|]. split; [by eapply common_mono|done]. Qed.
Lemma good_mono n x : good n x -> good (n + 1) x.
Proof. intros [? ?]. split; [|done]. eapply inv_mono; [|done]. lia. Qed.

(** Steps that touch none of the fields of the invariant. *)
Lemma client_inv_same n h x y :
  inv n h x -> moved x y -> server_ y = server_ x -> collectors_ y = collectors_ x ->
  collector_index_ y = collector_index_ x -> inv n h y /\ (watched x -> watched y).
Proof.
  intros Hi Hm E1 E2 E3. apply (inv_moved n h x y Hi Hm); destruct Hi as (_&(_&_&_&Hg&Hsm&_)&_).
  - unfold GetCollector in *. by rewrite E1, E2, E3.
  - by rewrite E2.
Qed.
Lemma client_inv_call n h c x : inv n h x -> inv n h (call c x) /\ (watched x -> watched (call c x)).
Proof. intros Hi. by apply (client_inv_same n h x (call c x)). Qed.

Lemma client_leave_same x :
  let y := leave x in
  queue_ y = queue_ x /\ session_ y = session_ x /\ sessions y = sessions x /\ deleted_sessions y = deleted_sessions x /\
  next_sid y = next_sid x /\ deleted_ y = deleted_ x /\ server_ y = server_ x /\ collectors_ y = collectors_ x /\
  collector_index_ y = collector_index_ x /\ attempts_ y = attempts_ x /\ connects_ y = connects_ x /\
  idle_hold_time_ y = idle_hold_time_ x /\ dropped y = dropped x /\ state_ y = state_ x.
Proof. unfold leave. destruct (state_ x) eqn:E; cbn; by rewrite ?E. Qed.

(** Leaving a state stops its timer. *)
Lemma leave_timers x :
  fit x -> timer_running (connect_timer_ (leave x)) = false /\ timer_running (idle_hold_timer_ (leave x)) = false.
Proof.
  intros (_&Hc&Hi&_). unfold leave. split.
  - destruct (state_ x) eqn:E; cbn; try done; apply not_true_is_false; intros [?|?]%Hc; done.
  - destruct (state_ x) eqn:E; cbn; try done; apply not_true_is_false; intros ?%Hi; done.
Qed.
Lemma leave_common n x : common n x -> common n (leave x).
Proof.
  intros Hc. destruct (client_leave_same x) as (E1&_&_&_&_&_&?&?&?&?&?&Eh&_).
  eapply (common_same n x _ []); try done; [rewrite Eh; by destruct Hc as (_&_&?&_)|by rewrite E1, app_nil_r].
Qed.
Lemma leave_safe h x : safe h x -> safe h (leave x).
Proof. intros Hs. destruct (client_leave_same x) as (?&?&?&?&?&?&_). by eapply client_safe_same. Qed.

Lemma stop_spec n x : inv n [] x -> exists y, transit_to_idle true x = Some y /\ good n y /\ state_ y = IDLE /\ session_ y = None.
Proof.
  intros (Hs&Hc&Hf). unfold transit_to_idle. destruct (leave_timers x Hf) as [Hct _].
  destruct (OnIdle_spec n (leave x)) as (y&E&Hy&Es&Hcy&_&_&_&_&E5&_); [by apply leave_safe|by apply leave_common|].
  rewrite E. cbn [mbind option_bind enter]. eexists. split; [done|]. split; [|done].
  destruct (fit_Idle (enter_Idle y)) as [Hfi Hw]; [done|done|cbn; by rewrite E5|].
  split; [|done]. split; [by eapply client_safe_same|]. split; [|done].
  eapply (common_same n y _ []); try done; [by destruct Hcy as (_&_&?&_)|by rewrite app_nil_r].
Qed.

Lemma delete_spec n s x : inv n [s] x -> exists y, DeleteTcpSession s x = Some y /\ inv n [] y /\ (watched x -> watched y).
Proof.
  intros (Hs&Hc&Hf). destruct (client_safe_DeleteTcpSession x s Hs) as (y&E&Hy&Eq&Es&Ef&Ess).
  exists y. split; [done|]. unfold frame in Ef. injection Ef as F1 F2 F3 F4 F5 F6 F7 F8 F9 _ _ _.
  split; [|unfold watched; rewrite F1, F5, Eq; done].
  split; [done|]. split.
  2: { destruct Hf as (G1&G2&G3&G4&Hlis). unfold fit, listening. rewrite F1, F5, F6, F8, Es, Ess.
       do 4 (split; [done|]). intros s' i' ? [_ ?]%lookup_delete_Some. by apply (Hlis s' i'). }
  unfold common, GetCollector. by rewrite F2, F3, F4, F7, F8, F9, Eq.
Qed.

Lemma good_Release n m x : inv n [] x -> watched x -> good n (ReleaseSandesh m x).
Proof.
  intros (Hs&Hc&Hf) Hw. split; [|done]. split; [by eapply client_safe_same|]. done.
Qed.

(** The states in which a received message goes to the manager. *)
Definition receiving (st : State) : Prop := st = CLIENT_INIT \/ st = ESTABLISHED.

(** What an event must satisfy to be processed. *)
Definition fine (e : event) (x : t) : Prop :=
  match e with
  | EvStop enq => enq = true
  | EvCollectorUpdate cs => small cs
  | EvTcpConnected s => s ∈ dom (sessions x)
  | EvSandeshMessageRecv msg header name off =>
      receiving (state_ x) -> mgr_receive (calls x) msg header name off <> None
  | _ => True
  end.
Definition reacts (n : Z) (r : option t) : Prop := exists y, r = Some y /\ good (n + 1) y.

Lemma reacts_some n y : good n y -> reacts n (Some y).
Proof. intros Hg. exists y. split; [done|by apply good_mono]. Qed.
Lemma reacts_stop n x : inv n [] x -> reacts n (transit_to_idle true x).
Proof. intros Hi. destruct (stop_spec n x Hi) as (y&E&Hg&_). rewrite E. by apply reacts_some. Qed.
Lemma reacts_delete n s x : inv n [s] x -> watched x -> reacts n (DeleteTcpSession s x).
Proof. intros Hi Hw. destruct (delete_spec n s x Hi) as (y&E&Hy&Hwy). rewrite E. apply reacts_some. split; auto. Qed.
Lemma reacts_update n cs x (k : bool -> t -> option t) :
  inv n [] x -> watched x -> small cs ->
  (forall b y, moved x y -> inv n [] y -> watched y -> reacts n (k b y)) ->
  reacts n ('(b, y) ← CollectorUpdate cs x; k b y).
Proof.
  intros Hi Hw Hsm Hk. destruct (CollectorUpdate_spec n [] cs x Hi Hsm) as (b&y&E&Hm&Hy&Hwy&_). rewrite E.
  cbn [mbind option_bind]. by apply Hk; auto.
Qed.
Lemma reacts_change n x (k : bool -> t -> option t) :
  inv n [] x -> (forall b y, moved x y -> inv n [] y -> reacts n (k b y)) ->
  reacts n ('(b, y) ← CollectorChange x; k b y).
Proof.
  intros Hi Hk. destruct (CollectorChange_spec n [] x Hi) as (b&y&E&Hm&Hy&_). rewrite E.
  cbn [mbind option_bind]. by apply Hk.
Qed.
Lemma reacts_connect n x :
  n < INT_MAX -> inv n [] x -> session_ x = None -> reacts n (transit CONNECT x).
Proof.
  intros Hn (Hs&Hc&Hf) Es. destruct (leave_timers x Hf) as [_ Hi].
  destruct (client_leave_same x) as (_&E2&_).
  destruct (enter_Connect_spec n (leave x)) as (y&E&Hy&Hw&_);
    [done|by apply leave_safe|by apply leave_common|by rewrite E2|done|].
  exists y. split; [exact E|]. by split.
Qed.
Lemma reacts_ToIdle n s e x : inv n [] x -> session_ x = Some s -> reacts n (ToIdle e x).
Proof. intros Hi Es. destruct (ToIdle_spec n s e x Hi Es) as (y&E&?&?&_). rewrite E. apply reacts_some. by split. Qed.
Lemma reacts_Connect_ToIdle n s e x :
  inv n [] x -> session_ x = Some s -> state_ x = CONNECT -> reacts n (Connect_ToIdle e x).
Proof.
  intros Hi Es Est. destruct (Connect_ToIdle_spec n s e x Hi Es) as (y&E&?&?&_).
  - destruct Hi as (_&_&_&_&_&Ha&_). apply Ha. by left.
  - rewrite E. apply reacts_some. by split.
Qed.

Lemma no_session n h x : inv n h x -> state_ x = IDLE \/ state_ x = DISCONNECT -> session_ x = None.
Proof.
  intros (_&_&Hse&_) Hst. destruct (session_ x); [|done]. unfold connecting in Hse.
  destruct Hst as [E|E]; rewrite E in Hse; naive_solver.
Qed.
Lemma has_session n h x :
  inv n h x -> connecting (state_ x) \/ state_ x = ESTABLISHED -> exists s, session_ x = Some s.
Proof. intros (_&_&Hse&_) Hst. apply Hse in Hst. destruct (session_ x) as [s|]; [by exists s|done]. Qed.

Lemma reacts_Idle n e x :
  n < INT_MAX -> inv n (delete_of e) x -> fine e x -> state_ x = IDLE -> reacts n (Idle_react e x).
Proof.
  intros Hn Hi He Est. assert (watched x) as Hw by (unfold watched, connecting; rewrite Est; naive_solver).
  destruct e; cbn [Idle_react delete_of fine] in *; try (apply reacts_some; by split).
  - set (u := update_server _ _ _). set (u' := update_server _ _ _).
    assert (inv n [] u /\ inv n [] u') as [Hu Hu'] by (split; by apply client_inv_call).
    destruct (negb _).
    + apply reacts_some. unfold StartIdleHoldTimer. destruct (_ <=? _); [by split|].
      destruct Hu as (Hs&Hc&Hf). split; [|done]. split; [by eapply client_safe_same|]. split; [done|].
      destruct Hf as (F1&F2&_&F4). split; [done|]. split; [done|]. split; [|done]. by cbn.
    + unfold transit. cbn [enter]. apply reacts_some.
      destruct Hu' as (Hs&Hc&Hf). destruct (leave_timers u' Hf) as [L1 L2].
      destruct (client_leave_same u') as (E1&E2&_). pose proof (no_session n [] x Hi (or_introl Est)) as Es.
      split; [split; [|split]|unfold watched, connecting; naive_solver].
      * eapply client_safe_same; [by apply leave_safe|done..].
      * pose proof (leave_common n u' Hc) as Hcl. eapply (common_same n (leave u') _ []); try done;
          [by destruct Hcl as (_&_&?&_)|by rewrite app_nil_r].
      * unfold fit, connecting, listening. cbn [state_ session_ enter_Disconnect SendUVE call sm_set_state].
        cbn. rewrite E2, L1, L2. change (session_ u') with (session_ x). rewrite Es. naive_solver.
  - apply reacts_some. destruct Hi as (Hs&Hc&Hf). split; [|done]. split; [by eapply client_safe_same|]. split; [done|].
    destruct Hf as (F1&F2&_&F4). split; [done|]. split; [done|]. split; [|done]. by cbn.
  - apply (reacts_update n collectors x (fun _ y => Some y)); [done..|]. intros b y _ ? ?. apply reacts_some. by split.
  - apply reacts_connect; [done|by apply client_inv_call|]. exact (no_session n [] x Hi (or_introl Est)).
  - by apply reacts_delete.
Qed.

Lemma reacts_Disconnect n e x :
  n < INT_MAX -> inv n (delete_of e) x -> fine e x -> state_ x = DISCONNECT -> reacts n (Disconnect_react e x).
Proof.
  intros Hn Hi He Est. assert (watched x) as Hw by (unfold watched, connecting; rewrite Est; naive_solver).
  destruct e; cbn [Disconnect_react delete_of fine] in *; subst; try (apply reacts_some; by split).
  - by apply reacts_stop.
  - apply (reacts_update n collectors x
      (fun _ y => transit CONNECT (update_server INIT [Name (EvCollectorUpdate collectors); " -> Connect"%string] y)));
      [done..|]. intros b y Hm Hy _. apply reacts_connect; [done|by apply client_inv_call|].
    destruct Hm as (_&E&_). cbn. rewrite E. exact (no_session n [] x Hi (or_intror Est)).
  - by apply reacts_delete.
Qed.

(** The connection came up: the control message is due within the same time. *)
Lemma reacts_client_init n x :
  n < INT_MAX -> inv n [] x -> state_ x = CONNECT -> reacts n (transit CLIENT_INIT x).
Proof.
  intros Hn (Hs&Hc&Hf) Est. unfold transit, leave. rewrite Est. cbn [enter]. unfold enter_ClientInit, connects_inc.
  pose proof Hc as (_&(?&?)&_). change (connects_ (StartConnectTimer _ _)) with (connects_ x).
  rewrite (proj2 (Z.eqb_neq (connects_ x) INT_MAX)) by lia. cbn [mbind option_bind]. eexists. split; [done|].
  destruct Hf as (F1&_&F3&F4&Hlis). unfold connecting in *. rewrite Est in F1, F3, F4.
  match goal with |- good _ ?y => destruct (fit_Connect y) as [Hf Hw] end.
  - by right.
  - cbn. naive_solver.
  - done.
  - cbn. destruct (timer_running (idle_hold_timer_ x)); [by specialize (F3 eq_refl)|done].
  - cbn. naive_solver.
  - exact Hlis.
  - split; [|done]. split; [by eapply client_safe_same|]. split; [|done]. destruct Hc as (C1&C2&C3&C4&C5&C6).
    unfold common, GetCollector in *. cbn. split; [lia|]. split; [lia|]. done.
Qed.

Lemma remote_alive s i x : sessions x !! s = Some i -> remote_endpoint (Some s) x = Some (s_remote i).
Proof. unfold remote_endpoint. cbn [mbind option_bind]. by intros ->. Qed.
Lemma inv_CancelConnect n h x : inv n h x -> inv n h (CancelConnectTimer x).
Proof.
  intros (Hs&Hc&Hf). split; [by eapply client_safe_same|]. split; [done|].
  destruct Hf as (F1&_&F3&F4). split; [done|]. split; [by cbn|]. done.
Qed.

Lemma reacts_Connect n e x :
  n < INT_MAX -> inv n (delete_of e) x -> fine e x -> state_ x = CONNECT ->
  (e <> EvConnectTimerExpired -> watched x) -> reacts n (Connect_react e x).
Proof.
  intros Hn Hi He Est Hw. destruct (has_session n _ x Hi) as [s Es]; [left; by left|].
  assert (forall y, moved x y -> inv n [] y -> reacts n (Connect_ToIdle e y)) as Hidle.
  { intros y (_&E1&_&_&_&_&E2&_) Hy. apply (reacts_Connect_ToIdle n s); [done|by rewrite E1|by rewrite E2]. }
  destruct e; cbn [Connect_react delete_of fine] in *; subst; try (specialize (Hw ltac:(done)));
    try (apply reacts_some; by split); try (by apply (reacts_change n x (fun _ y => Connect_ToIdle _ y)); auto).
  - by apply reacts_stop.
  - apply (reacts_update n collectors x
      (fun changed y => if changed then Connect_ToIdle (EvCollectorUpdate collectors) y else Some y)); [done..|].
    intros [] y Hm Hy Hwy; [by apply Hidle|apply reacts_some; by split].
  - apply elem_of_dom in He as [i Ei]. rewrite (remote_alive session i (CancelConnectTimer x) Ei).
    cbn [mbind option_bind]. apply reacts_client_init; [done| |done]. by apply client_inv_call, inv_CancelConnect.
  - by apply reacts_delete.
Qed.

(** A message sent goes to the end of the session's send queue. *)
Lemma send_spec n s m x :
  inv n [] x -> session_ x = Some s ->
  exists i y, sessions x !! s = Some i /\ send_session m x = Some y /\
    y = set_sessions (<[s := push_sendq m i]> (sessions x)) x /\ inv n [] y /\ (watched x -> watched y).
Proof.
  intros (Hs&Hc&Hf) Es. pose proof (session_alive [] x s Hs Es) as Ha. apply elem_of_dom in Ha.
  destruct (client_safe_on_session [] x s (push_sendq m)) as (i&y&Ei&Ey&->&Hy); [done..|].
  exists i. eexists. split; [done|]. unfold send_session. rewrite Es. cbn [mbind option_bind]. split; [exact Ey|].
  split; [done|]. split; [|done]. split; [done|]. split; [done|]. destruct Hf as (F1&F2&F3&F4&Hlis).
  do 4 (split; [done|]). intros s' i' E. cbn in E |- *. rewrite Es in E. injection E as <-.
  rewrite lookup_insert_eq. intros [= <-]. by apply (Hlis s i).
Qed.
Lemma reacts_send n s m x : inv n [] x -> session_ x = Some s -> watched x -> reacts n (send_session m x).
Proof.
  intros Hi Es Hw. destruct (send_spec n s m x Hi Es) as (i&y&_&E&_&Hy&Hwy). rewrite E. apply reacts_some. split; auto.
Qed.

Lemma reacts_receive n x msg header msg_type off (k : bool -> t -> option t) :
  inv n [] x -> watched x -> mgr_receive (calls x) msg header msg_type off <> None ->
  (forall b y, moved x y -> inv n [] y -> watched y -> reacts n (k b y)) ->
  reacts n ('(b, y) ← receive msg header msg_type off x; k b y).
Proof.
  intros Hi Hw Hr Hk. unfold receive.
  destruct (mgr_receive _ _ _ _ _) as [b|]; [|done]. cbn [mbind option_bind]. apply Hk; [done|by apply client_inv_call|exact Hw].
Qed.

(** The control message arrived. *)
Lemma reacts_established n x : inv n [] x -> state_ x = CLIENT_INIT -> reacts n (transit ESTABLISHED x).
Proof.
  intros (Hs&Hc&Hf) Est. destruct (has_session n [] x) as [s Es]; [done|left; by right|].
  destruct (session_alive [] x s Hs Es) as [i Hi]. unfold transit, leave. rewrite Est. cbn [enter].
  unfold enter_Established. set (z := connect_attempts_clear _).
  assert (remote_endpoint (session_ z) z = Some (s_remote i)) as ->.
  { change (session_ z) with (session_ x). rewrite Es. by apply remote_alive. }
  cbn [mbind option_bind]. apply reacts_some. destruct Hf as (_&_&F3&_&Hlis).
  assert (timer_running (idle_hold_timer_ x) = false) as Hit.
  { apply not_true_is_false. intros ?%F3. congruence. }
  split; [|unfold watched, connecting; cbn; naive_solver]. split; [by eapply client_safe_same|]. split.
  - destruct Hc as (C1&C2&C3&C4&C5&C6). unfold common, GetCollector in *. cbn. split; [lia|]. done.
  - unfold fit, connecting. cbn. rewrite Es, Hit. do 4 (split; [naive_solver|]). exact Hlis.
Qed.

Lemma reacts_ClientInit n e x :
  inv n (delete_of e) x -> fine e x -> state_ x = CLIENT_INIT ->
  (e <> EvConnectTimerExpired -> watched x) -> reacts n (ClientInit_react e x).
Proof.
  intros Hi He Est Hw. destruct (has_session n _ x Hi) as [s Es]; [left; by right|].
  assert (forall y, moved x y -> inv n [] y -> reacts n (ToIdle e y)) as Hidle.
  { intros y (_&E1&_) Hy. apply (reacts_ToIdle n s); [done|by rewrite E1]. }
  destruct e; cbn [ClientInit_react delete_of fine] in *; subst; try (specialize (Hw ltac:(done)));
    try (apply reacts_some; by split); try (by apply (reacts_change n x (fun _ y => ToIdle _ y)); auto).
  - by apply reacts_stop.
  - apply (reacts_update n collectors x
      (fun changed y => if changed then ToIdle (EvCollectorUpdate collectors) y else Some y)); [done..|].
    intros [] y Hm Hy Hwy; [by apply Hidle|apply reacts_some; by split].
  - by apply reacts_delete.
  - destruct (snh_is_uve snh); [by apply reacts_some, good_Release|by apply (reacts_send n s)].
  - apply (reacts_receive n x msg header msg_type header_offset); [done|done|apply He; by left|].
    intros [] y Hm Hy Hwy; cbn [negb]; [|by apply Hidle]. set (z := set_collector_name _ y).
    assert (inv n [] z /\ watched z) as [Hz Hwz].
    { split; [|done]. destruct Hy as (?&?&?). split; [by eapply client_safe_same|]. done. }
    destruct (has_control_hint header); [|apply reacts_some; by split].
    destruct Hm as (_&E1&_&_&_&_&E2&_). destruct (remote_Some [] z s) as [ep ->]; [by destruct Hz|cbn; by rewrite E1|].
    cbn [mbind option_bind]. apply reacts_established; [by apply client_inv_call|]. cbn. by rewrite E2.
Qed.

(** Established goes straight to another collector. *)
Lemma reconnect_spec n s e x :
  n < INT_MAX -> inv n [] x -> session_ x = Some s -> state_ x = ESTABLISHED ->
  exists y, reconnect e x = Some y /\ good (n + 1) y /\ state_ y = CONNECT /\ (exists s', session_ y = Some s') /\
    queue_ y = queue_ x ++ [EvTcpDeleteSession s] /\ collector_index_ y = collector_index_ x /\
    server_ y = server_ x /\ dropped y = dropped x.
Proof.
  intros Hn (Hs&Hc&Hf) Es Est. unfold reconnect, update_session.
  destruct (remote_Some [] x s Hs Es) as [ep ->]. cbn [mbind option_bind]. set (x1 := call _ x).
  assert (common n x1) as Hc1 by done.
  destruct (OnIdle_spec n x1) as (y&E&Hy&Esy&Hcy&E1&E2&_&E4&_&E6&_&_&_&E10&_&E12); [by eapply client_safe_same|done|].
  rewrite E. cbn [mbind option_bind]. unfold transit. change (session_ x1) with (session_ x) in E12. rewrite Es in E12.
  destruct (client_leave_same y) as (L1&L2&_&_&_&_&L7&_&L9&_&_&_&L13&_).
  assert (state_ y = ESTABLISHED) as Esty by (by rewrite E1).
  destruct (enter_Connect_spec n (leave y)) as (z&Ez&Hz&Hw&(A1&A2&A3&A4&_&A6&_&A8&_));
    [done|by apply leave_safe|by apply leave_common|by rewrite L2| |].
  - unfold leave. rewrite Esty. cbn. by rewrite E6.
  - exists z. split; [exact Ez|]. split; [by split|]. split; [done|]. split; [by eexists|].
    by rewrite A3, A4, A6, A8, L1, L7, L9, L13, E2, E4, E10, E12.
Qed.
Lemma reacts_reconnect n s e x :
  n < INT_MAX -> inv n [] x -> session_ x = Some s -> state_ x = ESTABLISHED -> reacts n (reconnect e x).
Proof. intros Hn Hi Es Est. destruct (reconnect_spec n s e x Hn Hi Es Est) as (y&E&Hg&_). by exists y. Qed.

Lemma reacts_Established n e x :
  n < INT_MAX -> inv n (delete_of e) x -> fine e x -> state_ x = ESTABLISHED -> reacts n (Established_react e x).
Proof.
  intros Hn Hi He Est. destruct (has_session n _ x Hi) as [s Es]; [by right|].
  assert (watched x) as Hw by (unfold watched, connecting; rewrite Est; naive_solver).
  assert (forall y, moved x y -> inv n [] y -> reacts n (ToIdle e y) /\ reacts n (reconnect e y)) as Hidle.
  { intros y (_&E1&_&_&_&_&E2&_) Hy. split; [apply (reacts_ToIdle n s)|apply (reacts_reconnect n s)];
      rewrite ?E1, ?E2; done. }
  destruct e; cbn [Established_react delete_of fine] in *; subst; try (apply reacts_some; by split).
  - by apply reacts_stop.
  - apply (reacts_update n collectors x
      (fun changed y => if changed then reconnect (EvCollectorUpdate collectors) y else Some y)); [done..|].
    intros [] y Hm Hy Hwy; [by apply Hidle|apply reacts_some; by split].
  - apply (reacts_change n x
      (fun changed y => if changed then reconnect (EvTcpClose session) y else ToIdle (EvTcpClose session) y)); [done|].
    intros [] y Hm Hy; by apply Hidle.
  - by apply reacts_delete.
  - by apply (reacts_send n s).
  - apply (reacts_receive n x msg header msg_type header_offset); [done|done|apply He; by right|].
    intros [] y Hm Hy Hwy; cbn [negb]; [apply reacts_some; by split|by apply Hidle].
Qed.

Lemma reacts_process_event n e x :
  n < INT_MAX -> inv n (delete_of e) x -> fine e x -> (e <> EvConnectTimerExpired -> watched x) ->
  reacts n (process_event e x).
Proof.
  intros Hn Hi He Hw. unfold process_event. destruct (state_ x) eqn:E.
  - by apply reacts_Idle.
  - by apply reacts_Disconnect.
  - by apply reacts_Connect.
  - by apply reacts_ClientInit.
  - by apply reacts_Established.
Qed.

(** ** Steps *)
Lemma client_inv_taken n e q (fail : bool) x :
  inv n [] x -> queue_ x = e :: q -> inv n (delete_of e) (taken e q fail x).
Proof.
  intros (Hs&Hc&Hf) Eq. split; [by apply safe_taken|]. split; [|done].
  destruct Hc as (C1&C2&C3&C4&C5&C6). do 5 (split; [done|]). cbn. rewrite Eq in C6. by apply Forall_cons_iff in C6 as [_ ?].
Qed.
Lemma watched_taken e q (fail : bool) x :
  watched x -> queue_ x = e :: q -> (e <> EvConnectTimerExpired) -> watched (taken e q fail x).
Proof.
  unfold watched. cbn. intros Hw Eq Hne Hc. destruct (Hw Hc) as [?|[? Hin]]; [by left|right]. split; [done|].
  rewrite Eq in Hin. apply elem_of_cons in Hin as [?|?]; [congruence|done].
Qed.
(** In a connecting state an expiry is valid: its timer is not cancelled. *)
Lemma watched_valid e x : watched x -> connecting (state_ x) -> validate e x = true.
Proof.
  intros Hw Hc. destruct e; try done. cbn. destruct (Hw Hc) as [Ht|[-> _]]; [|done]. by destruct (connect_timer_ x).
Qed.

Lemma fine_taken n e q (fail : bool) x :
  good n x -> queue_ x = e :: q ->
  (forall msg header name off, e = EvSandeshMessageRecv msg header name off -> fine e x) ->
  fine e (taken e q fail x).
Proof.
  intros [((_&_&_&_&_&_&Hr&Ht&_)&(_&_&_&_&_&C6)&_) _] Eq Hrecv. rewrite Eq in *. apply Forall_cons_iff in C6 as [Hsm _].
  destruct Ht as (_&Hne&_). destruct e; try done; cbn [fine].
  - destruct enq; [done|]. by destruct Hne.
  - cbn. apply Hr. by left.
  - exact (Hrecv _ _ _ _ eq_refl).
Qed.

Lemma good_Dequeue n e q x :
  n < INT_MAX -> good n x -> queue_ x = e :: q ->
  (forall msg header name off, e = EvSandeshMessageRecv msg header name off -> fine e x) ->
  reacts n (DequeueEvent e (set_queue q x)).
Proof.
  intros Hn Hg Eq Hrecv. pose proof (fine_taken n e q false x Hg Eq Hrecv) as Hfine. destruct Hg as [Hi Hw]. unfold DequeueEvent.
  assert (deleted_ (set_queue q x) = false) as -> by (by destruct Hi as ((_&_&_&_&_&_&_&_&?)&_)).
  destruct (validate e _) eqn:Ev.
  - apply reacts_process_event; [done|by apply (client_inv_taken n e q false)|done|].
    intros Hne. by apply (watched_taken e q false).
  - assert (delete_of e = []) as Ed by (by destruct e).
    pose proof (client_inv_taken n e q true x Hi Eq) as Ht. rewrite Ed in Ht. apply reacts_some. split; [exact Ht|].
    intros Hc. assert (connecting (state_ x)) as Hc' by exact Hc. pose proof (watched_valid e x Hw Hc') as Hv.
    assert (validate e x = false) by (by destruct e). congruence.
Qed.

(** A collector list is one that an [int] indexes. *)
Definition input_ok (i : input) : Prop :=
  match i with InCollectors cs => small cs | _ => True end.

(** The two places where code outside of the machine decides: the reader of the
    header of a message that arrives on a session with a callback, and the manager
    that is handed a dequeued message. *)
Definition stuck (i : input) (x : t) : Prop :=
  match i with
  | InMessage s msg => exists i, sessions x !! s = Some i /\ s_receive_cb i = true /\
      ExtractMsgHeader header_read fuel msg = None
  | InDequeue => exists msg header name off q,
      queue_ x = EvSandeshMessageRecv msg header name off :: q /\ receiving (state_ x) /\
      mgr_receive (calls x) msg header name off = None
  | _ => False
  end.

Lemma client_inv_Enqueue n e x :
  inv n [] x -> match e with EvCollectorUpdate cs => small cs | _ => True end -> safe [] (Enqueue e x) ->
  inv n [] (Enqueue e x) /\ (watched x -> watched (Enqueue e x)) /\
  queue_ (Enqueue e x) = queue_ x ++ [e] /\ connect_timer_ (Enqueue e x) = connect_timer_ x.
Proof.
  intros (Hs&Hc&Hf) He Hse. assert (deleted_ x = false) as Hd by (by destruct Hs as (_&_&_&_&_&_&_&_&?)).
  rewrite Enqueue_eq in Hse |- * by done. split; [|split; [|done]].
  - split; [done|]. split; [|done]. eapply (common_same n x _ [e]); try done; [by destruct Hc as (_&_&?&_)|].
    by repeat constructor.
  - unfold watched. cbn. intros Hw Hcn. destruct (Hw Hcn) as [?|[??]]; [by left|right]. split; [done|].
    apply elem_of_app. by left.
Qed.
Lemma good_Enqueue n e x :
  good n x -> plain e -> match e with EvCollectorUpdate cs => small cs | _ => True end -> good n (Enqueue e x).
Proof.
  intros [Hi Hw] Hp He. destruct (client_inv_Enqueue n e x Hi He) as (?&Hw'&_); [apply client_safe_Enqueue; by destruct Hi|].
  split; auto.
Qed.

Lemma good_session_event n s ev i x :
  good n x -> sessions x !! s = Some i -> s_observer i = true -> good n (OnSessionEvent s ev x).
Proof.
  intros [Hi Hw] Ei Ho. destruct ev; cbn [OnSessionEvent]; try (by split); try (by apply good_Enqueue).
  destruct (client_inv_Enqueue n (EvTcpConnected s) x Hi I) as (?&Hw'&_); [|split; auto].
  apply safe_Enqueue_gen; [by destruct Hi|done|done|]. intros s' [= <-]. by exists i.
Qed.
Lemma good_connect_timer n x : good n x -> timer_running (connect_timer_ x) = true -> good n (ConnectTimerExpired x).
Proof.
  intros [Hi Hw] Ht. unfold ConnectTimerExpired. assert (deleted_ x = false) as -> by (by destruct Hi as ((_&_&_&_&_&_&_&_&?)&_)).
  assert (inv n [] (set_connect_timer TInit x)) as Hi'.
  { destruct Hi as (Hs&Hc&F1&F2&F3&F4). split; [by eapply client_safe_same|]. split; [done|]. split; [done|]. by split. }
  destruct (client_inv_Enqueue n EvConnectTimerExpired _ Hi' I) as (?&_&Eq&Et); [apply client_safe_Enqueue; [done|by destruct Hi']|].
  split; [done|]. intros _. right. rewrite Eq, Et. split; [done|]. apply elem_of_app. right. by left.
Qed.
Lemma good_idle_timer n x : good n x -> timer_running (idle_hold_timer_ x) = true -> good n (IdleHoldTimerExpired x).
Proof.
  intros [Hi Hw] Ht. apply good_Enqueue; [|done|done]. split; [|done]. destruct Hi as (Hs&Hc&F1&F2&F3&F4).
  split; [by eapply client_safe_same|]. split; [done|]. split; [done|]. split; [done|]. by split.
Qed.
Lemma good_SetAdminState n down x : good n x -> good n (SetAdminState down x).
Proof.
  intros [Hi Hw]. destruct down; cbn [SetAdminState]; apply good_Enqueue; try done.
  split; [|done]. destruct Hi as (Hs&Hc&Hf). split; [by eapply client_safe_same|]. split; [|done].
  destruct Hc as (C1&C2&_&C). split; [done|]. split; [done|]. split; [done|]. exact C.
Qed.

Lemma good_init now junk : good 0 (init now junk).
Proof.
  split; [|unfold watched, connecting; cbn; naive_solver]. split; [|split].
  - unfold safe, own. cbn. split; [constructor|]. split; [set_solver|]. split; [constructor|]. set_solver.
  - unfold common. cbn. repeat (split; [done|]). constructor.
  - unfold fit, connecting, listening. cbn. naive_solver.
Qed.

Abbreviation step := (ClientSM.step header_read fuel).
Abbreviation run := (ClientSM.run header_read fuel).

(** A dequeued message the manager has no answer for. *)
Lemma dequeue_stuck n x msg header name off q :
  good n x -> queue_ x = EvSandeshMessageRecv msg header name off :: q -> receiving (state_ x) ->
  mgr_receive (calls x) msg header name off = None -> step InDequeue x = None.
Proof.
  intros [((_&_&_&_&_&_&_&_&Hd)&_) _] Eq Hst Hm. cbn [ClientSM.step]. rewrite Eq. unfold DequeueEvent.
  change (deleted_ (set_queue q x)) with (deleted_ x). rewrite Hd. cbn [validate].
  unfold process_event. set (z := UpdateEventDequeue _ _).
  change (state_ z) with (state_ x). destruct Hst as [-> | ->];
    cbn [ClientInit_react Established_react]; unfold receive;
    change (calls z) with (calls x); by rewrite Hm.
Qed.

Lemma good_step n i x :
  n < INT_MAX -> good n x -> input_ok i ->
  stuck i x /\ step i x = None \/ ~ stuck i x /\ reacts n (step i x).
Proof.
  intros Hn Hg Hok. destruct i; try (right; split; [by intros []|]; cbn [ClientSM.step]).
  - by apply reacts_some, good_SetAdminState.
  - by apply reacts_some, good_Enqueue.
  - by apply reacts_some, good_Enqueue.
  - destruct (sessions x !! s) as [i|] eqn:Ei; [|by apply reacts_some]. destruct (s_observer i) eqn:Eo; apply reacts_some; [|done].
    by eapply good_session_event.
  - cbn [ClientSM.step stuck]. destruct (sessions x !! s) as [i|]; [|right; split; [by intros (?&?&_)|by apply reacts_some]].
    destruct (s_receive_cb i) eqn:Er; [|right; split; [intros (?&[= <-]&?&_); congruence|by apply reacts_some]].
    unfold OnMessage. destruct (ExtractMsgHeader _ _ _) as [[?|[[h m] o]]|]; cbn [mbind option_bind];
      [right; split; [by intros (?&_&_&?)|apply reacts_some]..|left; split; [by exists i|done]]; [done|by apply good_Enqueue].
  - apply reacts_some. destruct (timer_running _) eqn:E; [by apply good_connect_timer|done].
  - apply reacts_some. destruct (timer_running _) eqn:E; [by apply good_idle_timer|done].
  - apply reacts_some. unfold StatisticsTimerExpired. destruct (deleted_ x); [done|]. destruct Hg as [Hi Hw].
    split; [|done]. apply client_inv_call. by apply client_inv_call.
  - destruct (queue_ x) as [|e q] eqn:Eq; cbn [stuck].
    { right. split; [by rewrite Eq; intros (?&?&?&?&?&?&_)|]. cbn [ClientSM.step]. rewrite Eq. by apply reacts_some. }
    assert ((forall msg header name off, e = EvSandeshMessageRecv msg header name off -> fine e x) -> ~ stuck InDequeue x ->
      ~ stuck InDequeue x /\ reacts n (step InDequeue x)) as Hgo.
    { intros Hf Hs. split; [done|]. cbn [ClientSM.step]. rewrite Eq. by apply good_Dequeue. }
    destruct e; try (right; apply Hgo; [discriminate|intros (?&?&?&?&?&E&_); congruence]).
    destruct (mgr_receive (calls x) msg header msg_type header_offset) as [b|] eqn:Em.
    + right. apply Hgo; [intros ? ? ? ? [= -> -> -> ->]; cbn [fine]; congruence|intros (?&?&?&?&?&E&_&?); congruence].
    + destruct (decide (receiving (state_ x))) as [Hst|Hst].
      * left. split; [by eauto 8|]. by eapply dequeue_stuck.
      * right. apply Hgo; [intros ? ? ? ? [= -> -> -> ->]; cbn [fine]; tauto|intros (?&?&?&?&?&_&?&_); tauto].
  - apply reacts_some. destruct Hg as [Hi Hw]. split; [|done]. destruct Hi as (?&?&?). split; [by eapply client_safe_same|]. done.
Qed.

(** A run either reaches a good state or stops at the first stuck input. *)
Lemma good_run ins n x :
  n + zlen ins <= INT_MAX -> good n x -> Forall input_ok ins ->
  (exists y, run ins x = Some y /\ good (n + zlen ins) y) \/
  run ins x = None /\ exists ins1 i ins2 y, ins = ins1 ++ i :: ins2 /\ run ins1 x = Some y /\ stuck i y.
Proof.
  revert n x. induction ins as [|i ins IH]; intros n x Hn Hg Hok.
  { left. exists x. split; [done|]. cbn. by rewrite Z.add_0_r. }
  apply Forall_cons_iff in Hok as [Hi Hok]. cbn [length] in Hn. cbn [ClientSM.run].
  destruct (good_step n i x) as [[Hs ->]|[_ (y&E&Hy)]]; [lia|done|done|right|].
  { split; [done|]. by exists [], i, ins, x. }
  rewrite E. cbn [mbind option_bind].
  destruct (IH (n + 1) y) as [(z&Ez&Hz)|(En&ins1&j&ins2&z&->&Ez&Hs)]; [lia|done|done|left|right].
  - exists z. split; [done|]. replace (n + zlen (i :: ins)) with (n + 1 + zlen ins) by (cbn [length]; lia). done.
  - split; [done|]. exists (i :: ins1), j, ins2, z. split; [done|]. split; [|done]. cbn [ClientSM.run]. by rewrite E.
Qed.

Lemma run_behind ins1 ins2 x y : run ins1 x = Some y -> run (ins1 ++ ins2) x = run ins2 y.
Proof.
  revert x. induction ins1 as [|i ins1 IH]; intros x; [by intros [= ->]|]. cbn [ClientSM.run app].
  destruct (step i x); [|done]. cbn [mbind option_bind]. apply IH.
Qed.

Lemma run_good ins n x y :
  n + zlen ins <= INT_MAX -> good n x -> Forall input_ok ins -> run ins x = Some y -> good (n + zlen ins) y.
Proof. intros Hn Hg Hok E. destruct (good_run ins n x Hn Hg Hok) as [(z&Ez&Hz)|[En _]]; congruence. Qed.

End Machine.
End ClientSpec.
