(* ===== verification/ClientSMClaims.v ===== *)
(** * What the client's state machine guarantees

    The claims about the client's state machine, for every sequence of inputs that
    is shorter than the range of its counters: totality, sessions, the fit of its
    parts, recovery after a failure, what becomes of a message; and two ways in which
    it goes wrong. *)

From S2P Require Import Prelude Transport Statistics Protocol Xml XmlClaims Message ClientSM ClientSMSpec.
Import ClientSM ClientSpec.
Local Open Scope Z_scope.

Module ClientClaims.

Section Claims.
Context `{!Allocator} `{!Texts} `{!Mgr}.
Variable header_read : M (TXMLProtocol.t TMemoryBuffer.t) (Z * SandeshHeader).
Variable fuel : nat.
Abbreviation step := (ClientSM.step header_read fuel).
Abbreviation run := (ClientSM.run header_read fuel).
Abbreviation stuck := (ClientSpec.stuck header_read fuel).

(** The state reached by [ins]: fewer inputs than an [int] counts, collector lists
    that an [int] indexes, and a manager that makes sessions. *)
Definition reached (ins : list input) (now junk : Z) (x : t) : Prop :=
  run ins (init now junk) = Some x /\ Forall input_ok ins /\ zlen ins < INT_MAX /\
  (forall c ep, mgr_create c ep = true).

Lemma reached_good ins now junk x : reached ins now junk x -> good (zlen ins) x.
Proof.
  intros (E&Hok&Hl&Hc). apply (run_good header_read fuel Hc ins 0 (init now junk) x); [lia|by apply good_init|done|done].
Qed.

(** C18: where the client's machine is undefined, exactly.  Let the manager make
    sessions, and let the inputs (admin changes, collector lists that an [int]
    indexes, sends, TCP events, messages, timers and dequeues) be fewer than 2^31 - 1.
    A sequence of inputs is processed to its end unless it comes to one of two
    inputs, and then it is not: a message that arrives on a session with a callback
    and whose header the reader cannot read without undefined behaviour, or a
    dequeued message handed to the manager in ClientInit or Established for which the
    manager has no defined answer.  In particular the machine itself never uses a
    NULL or deleted session, leaves the collector list or overflows a counter. *)
Theorem client_total ins now junk :
  (forall c ep, mgr_create c ep = true) -> Forall input_ok ins -> zlen ins < INT_MAX ->
  (run ins (init now junk) = None <->
   exists ins1 i ins2 x, ins = ins1 ++ i :: ins2 /\ run ins1 (init now junk) = Some x /\ stuck i x) /\
  (forall ins1 i ins2 x, ins = ins1 ++ i :: ins2 -> run ins1 (init now junk) = Some x ->
     (step i x = None <-> stuck i x)).
Proof.
  intros Hc Hok Hl.
  assert (forall ins1 i ins2 x, ins = ins1 ++ i :: ins2 -> run ins1 (init now junk) = Some x ->
     (step i x = None <-> stuck i x)) as Hstep.
  { intros ins1 i ins2 x -> E. rewrite length_app in Hl. cbn [length] in Hl.
    apply Forall_app in Hok as [Hok1 [Hi _]%Forall_cons_iff].
    assert (good (zlen ins1) x) as Hg.
    { apply (run_good header_read fuel Hc ins1 0 (init now junk) x); [lia|by apply good_init|done|done]. }
    destruct (good_step header_read fuel Hc (zlen ins1) i x) as [[? ?]|[? (y&->&_)]]; [lia|done|done|tauto|].
    by split. }
  split; [|exact Hstep]. split.
  - intros En. destruct (good_run header_read fuel Hc ins 0 (init now junk)) as [(y&Ey&_)|[_ Hs]];
      [lia|by apply good_init|done|congruence|done].
  - intros (ins1&i&ins2&x&->&E&Hs). rewrite (run_behind header_read fuel ins1 _ _ x E). cbn [ClientSM.run].
    by rewrite (proj2 (Hstep ins1 i ins2 x eq_refl E) Hs).
Qed.

(** C22: no session leaks and none is deleted twice: the sessions alive are exactly
    the current one and those whose deletion is queued, each once; a deleted session
    is not alive, and the observer of a session to be deleted is gone. *)
Theorem client_sessions_exact ins now junk x :
  reached ins now junk x ->
  NoDup (own x) /\ (forall s, s ∈ dom (sessions x) <-> session_ x = Some s \/ EvTcpDeleteSession s ∈ queue_ x) /\
  NoDup (deleted_sessions x) /\ (forall s, s ∈ deleted_sessions x -> s ∉ dom (sessions x)) /\
  (forall s i, EvTcpDeleteSession s ∈ queue_ x -> sessions x !! s = Some i -> s_observer i = false).
Proof.
  intros [((Hn&Hl&Hd&Hda&_&Ho&_)&_) _]%reached_good. split; [done|]. split; [|split; [done|split; [done|]]].
  - intros s. rewrite <- (Hl s). cbn [app]. unfold own. rewrite elem_of_app, elem_of_delete.
    destruct (session_ x) as [s'|]; cbn; rewrite ?list_elem_of_singleton; set_solver.
  - intros s i Hin. apply Ho. cbn [app]. by apply elem_of_delete.
Qed.

(** C25: the parts of the machine fit: it has a session exactly in Connect, ClientInit
    and Established; the connect timer runs only while connecting, and while
    connecting it runs or its expiry is queued, so that no attempt hangs; the hold timer
    runs only in Idle; the server is the collector selected by the index; the counters
    are in range. *)
Theorem client_parts_fit ins now junk x :
  reached ins now junk x ->
  (session_ x <> None <-> connecting (state_ x) \/ state_ x = ESTABLISHED) /\
  (timer_running (connect_timer_ x) = true -> connecting (state_ x)) /\
  (connecting (state_ x) -> timer_running (connect_timer_ x) = true \/
     (connect_timer_ x = TInit /\ EvConnectTimerExpired ∈ queue_ x)) /\
  (timer_running (idle_hold_timer_ x) = true -> state_ x = IDLE) /\
  GetCollector x = Some (server_ x) /\ 0 <= attempts_ x <= zlen ins /\ 0 <= connects_ x <= zlen ins.
Proof. intros [(_&(?&?&_&?&_)&(?&?&?&_)) ?]%reached_good. done. Qed.

(** An event at the head of the queue that is valid goes to the state. *)
Lemma client_dequeue_valid n x e q :
  good n x -> queue_ x = e :: q -> validate e x = true -> step InDequeue x = process_event e (taken e q false x).
Proof.
  intros [((_&_&_&_&_&_&_&_&Hd)&_) _] Eq Ev. cbn [ClientSM.step]. rewrite Eq. unfold DequeueEvent.
  change (deleted_ (set_queue q x)) with (deleted_ x). rewrite Hd.
  assert (validate e (sm_set_last_event (type_name e) (set_queue q x)) = true) as ->; [|done].
  rewrite <- Ev. by destruct e.
Qed.

(** The failures of a connection. *)
Definition failure (e : event) (st : State) : bool :=
  match e, st with
  | EvTcpClose _, (CONNECT | CLIENT_INIT | ESTABLISHED) | EvTcpConnectFail _, CONNECT
  | EvConnectTimerExpired, (CONNECT | CLIENT_INIT) => true
  | _, _ => false
  end.

(** How the machine goes on after session [s] failed. *)
Definition recovers (s : sid) (x y : t) : Prop :=
  EvTcpDeleteSession s ∈ queue_ y /\ session_ y <> Some s /\
  (collectors_ x <> [] -> collector_index_ y = next_index x) /\
  ((state_ y = IDLE /\ idle_hold_timer_ y = TRunning (idle_hold_time_ y) /\ 0 < idle_hold_time_ y /\
    (state_ x = CONNECT -> idle_hold_time_ y = GetConnectTime x * 1000)) \/
   (state_ x = ESTABLISHED /\ state_ y = CONNECT /\ session_ y <> None)).

Lemma recovers_idle s x x1 y :
  moved x x1 -> (collectors_ x <> [] -> collector_index_ x1 = next_index x) -> retrying s x1 y ->
  (state_ x = CONNECT -> idle_hold_time_ y = GetConnectTime x * 1000) -> recovers s x y.
Proof.
  intros _ Hci (R1&R2&R3&_&_&R6&_&_&R9&R10) Hh. split; [rewrite R3; apply elem_of_app; right; by left|].
  rewrite R2, R6. split; [done|]. split; [done|]. by left.
Qed.

Lemma failure_recovers n e s x :
  n < INT_MAX -> (forall c ep, mgr_create c ep = true) -> inv n [] x -> session_ x = Some s ->
  failure e (state_ x) = true -> exists y, process_event e x = Some y /\ recovers s x y.
Proof.
  intros Hn Hc Hi Es Hf. destruct (CollectorChange_spec n [] x Hi) as (b&x1&E&Hm&Hi1&_&_&Hci&_).
  pose proof Hm as (_&M2&_&_&_&_&M7&_&_&M10&_). rewrite Es in M2.
  assert (state_ x = CONNECT -> exists y, Connect_ToIdle e x1 = Some y /\ recovers s x y) as HC.
  { intros Est. destruct (Connect_ToIdle_spec n s e x1 Hi1 M2) as (y&Ey&_&_&Hr&Ht).
    { rewrite M10. destruct Hi as (_&_&_&_&_&Ha&_). apply Ha. by left. }
    exists y. split; [done|]. apply (recovers_idle s x x1); try done. intros _. rewrite Ht. unfold GetConnectTime.
    by rewrite M10. }
  assert (state_ x <> CONNECT -> exists y, ToIdle e x1 = Some y /\ recovers s x y) as HI.
  { intros Est. destruct (ToIdle_spec n s e x1 Hi1 M2) as (y&Ey&_&_&Hr&_). exists y. split; [done|].
    by apply (recovers_idle s x x1). }
  unfold process_event. destruct (state_ x) eqn:Est; try (by destruct e).
  - destruct e; try done; cbn [Connect_react]; rewrite E; cbn [mbind option_bind]; by apply HC.
  - destruct e; try done; cbn [ClientInit_react]; rewrite E; cbn [mbind option_bind]; by apply HI.
  - destruct e; try done. cbn [Established_react]. rewrite E. cbn [mbind option_bind].
    destruct b; [|by apply HI].
    destruct (reconnect_spec Hc n s (EvTcpClose session) x1) as (y&Ey&Hgy&Sy&[s' Ss]&Qy&Iy&_); [done..|].
    exists y. split; [done|]. split; [rewrite Qy; apply elem_of_app; right; by left|].
    rewrite Ss, Iy. split; [|split; [done|right; done]].
    destruct Hgy as [((Hnd&_)&_) _]. unfold own in Hnd. rewrite Qy, Ss, fmap_app, concat_app in Hnd. intros [= ->].
    cbn in Hnd. rewrite <- app_assoc in Hnd. apply list.NoDup_app in Hnd as (_&_&Hnd). apply list.NoDup_cons in Hnd as [Hnd _].
    apply Hnd. by left.
Qed.

(** C26: the client comes back after every failure.  When a close, a failed connect or a
    connect timeout of the current attempt is taken off the queue, the session's
    deletion is queued, the next collector in turn is selected, and the machine is
    either in Idle with the hold timer running (for the back-off time of the number of
    attempts, when it failed to connect) or, from Established and with another
    collector to go to, already connecting on a new session. *)
Theorem client_recovers ins now junk x s e q :
  reached ins now junk x -> queue_ x = e :: q -> session_ x = Some s -> failure e (state_ x) = true ->
  exists y, step InDequeue x = Some y /\ recovers s x y.
Proof.
  intros Hr Eq Es Hf. pose proof (reached_good _ _ _ _ Hr) as Hg. destruct Hr as (_&_&Hl&Hc).
  assert (validate e x = true) as Hv.
  { destruct e; try done. apply watched_valid; [by destruct Hg|]. unfold connecting.
    destruct (state_ x); try done; [by left|by right]. }
  rewrite (client_dequeue_valid _ x e q Hg Eq Hv).
  assert (delete_of e = []) as Ed by (by destruct e).
  pose proof (client_inv_taken (zlen ins) e q false x (proj1 Hg) Eq) as Ht. rewrite Ed in Ht.
  exact (failure_recovers (zlen ins) e s (taken e q false x) Hl Hc Ht Es Hf).
Qed.

(** *** Repeated failures to connect *)
Section Failures.
Hypothesis create_ok : forall c ep, mgr_create c ep = true.

Lemma fail_connect n s q x :
  good n x -> state_ x = CONNECT -> session_ x = Some s -> queue_ x = EvTcpConnectFail s :: q ->
  exists y, step InDequeue x = Some y /\ good n y /\ state_ y = IDLE /\ queue_ y = q ++ [EvTcpDeleteSession s] /\
    collectors_ y = collectors_ x /\ (collectors_ x <> [] -> collector_index_ y = next_index x) /\
    attempts_ y = attempts_ x /\ timer_running (idle_hold_timer_ y) = true /\
    idle_hold_time_ y = GetConnectTime x * 1000.
Proof.
  intros Hg Est Es Eq. set (e := EvTcpConnectFail s) in *. rewrite (client_dequeue_valid n x e q Hg Eq eq_refl).
  pose proof (client_inv_taken n e q false x (proj1 Hg) Eq) as Ht. set (z := taken e q false x) in *.
  assert (state_ z = CONNECT /\ session_ z = Some s /\ queue_ z = q /\ collectors_ z = collectors_ x /\
    next_index z = next_index x /\ attempts_ z = attempts_ x) as (Z1&Z2&Z3&Z4&Z5&Z6) by done.
  destruct (CollectorChange_spec n [] z Ht) as (b&x1&E&Hm&Hi1&_&Hco&Hci&_).
  pose proof Hm as (M1&M2&_&_&_&_&M7&_&_&M10&_). unfold process_event. rewrite Z1. cbn [Connect_react e]. rewrite E.
  cbn [mbind option_bind]. rewrite Z2 in M2. rewrite Z1 in M7. rewrite Z6 in M10.
  destruct (Connect_ToIdle_spec n s e x1 Hi1 M2) as (y&Ey&Hy&Hw&(R1&_&R3&_&R5&R6&R7&_&R9&_)&Hh).
  { destruct Hi1 as (_&_&_&_&_&Ha&_). apply Ha. rewrite M7. by left. }
  exists y. split; [exact Ey|]. split; [by split|]. split; [done|]. rewrite R3, M1, Z3. split; [done|].
  rewrite R5, Hco, Z4. split; [done|]. rewrite R6. split; [intros Hne; rewrite <- Z5; by apply Hci; rewrite Z4|].
  rewrite R7, M10. split; [done|]. rewrite R9. split; [done|]. rewrite Hh. unfold GetConnectTime. by rewrite M10.
Qed.

Lemma delete_in_idle n s q x :
  good n x -> state_ x = IDLE -> queue_ x = EvTcpDeleteSession s :: q ->
  exists y, step InDequeue x = Some y /\ good n y /\ queue_ y = q /\
    frame y = frame (call (DeleteSMSession s) x).
Proof.
  intros Hg Est Eq. set (e := EvTcpDeleteSession s) in *. rewrite (client_dequeue_valid n x e q Hg Eq eq_refl).
  pose proof (client_inv_taken n e q false x (proj1 Hg) Eq) as Ht.
  pose proof (watched_taken e q false x (proj2 Hg) Eq ltac:(done)) as Hw.
  set (z := taken e q false x) in *. cbn [delete_of e] in Ht.
  assert (frame (call (DeleteSMSession s) z) = frame (call (DeleteSMSession s) x)) as Hfr by done.
  unfold process_event. assert (state_ z = IDLE) as -> by done. cbn [Idle_react e].
  destruct (delete_spec n s z Ht) as (y&E&Hy&Hwy).
  destruct (client_safe_DeleteTcpSession z s (proj1 Ht)) as (y'&E'&_&Eq'&_&Ef&_).
  assert (y' = y) as -> by congruence.
  exists y. split; [done|]. split; [split; auto|]. split; [by rewrite Eq'|]. by rewrite Ef.
Qed.

Lemma expire_in_idle n q x :
  n < INT_MAX -> good n x -> state_ x = IDLE -> queue_ x = EvIdleHoldTimerExpired :: q ->
  exists y, step InDequeue x = Some y /\ good (n + 1) y /\ state_ y = CONNECT /\ queue_ y = q /\
    collectors_ y = collectors_ x /\ collector_index_ y = collector_index_ x /\ server_ y = server_ x /\
    attempts_ y = attempts_ x + 1 /\ idle_hold_time_ y = idle_hold_time_ x.
Proof.
  intros Hn Hg Est Eq. set (e := EvIdleHoldTimerExpired) in *. rewrite (client_dequeue_valid n x e q Hg Eq eq_refl).
  pose proof (client_inv_taken n e q false x (proj1 Hg) Eq) as Ht. cbn [delete_of e] in Ht.
  unfold process_event. assert (state_ (taken e q false x) = IDLE) as -> by done. cbn [Idle_react e].
  set (z := update_server _ _ _). assert (inv n [] z) as Hz by (by apply client_inv_call).
  pose proof (no_session n [] z Hz (or_introl Est)) as Es.
  destruct Hz as (Hs&Hc&Hf). destruct (leave_timers z Hf) as [_ Hit].
  destruct (client_leave_same z) as (L1&L2&_&_&_&_&L7&L8&L9&L10&_&L12&_).
  destruct (enter_Connect_spec create_ok n (leave z)) as (y&E&Hy&Hw&(A1&_&A3&A4&A5&A6&A7&_&A9));
    [done|by apply leave_safe|by apply leave_common|by rewrite L2|done|].
  exists y. split; [exact E|]. split; [by split|]. split; [done|].
  rewrite A3, A4, A5, A6, A7, A9, L1, L7, L8, L9, L10, L12. done.
Qed.

(** One failed attempt and the next: the connect fails, the event and the deletion
    are processed, the hold timer expires, the event is processed. *)
Definition one_failure (x : t) : option t :=
  s ← session_ x; run [InSession s CONNECT_FAILED; InDequeue; InDequeue; InIdleTimer; InDequeue] x.
Fixpoint failures (k : nat) (x : t) : option t :=
  match k with O => Some x | S k => x ← one_failure x; failures k x end.

Lemma one_failure_spec n x :
  n < INT_MAX -> good n x -> state_ x = CONNECT -> queue_ x = [] -> collectors_ x <> [] ->
  exists y, one_failure x = Some y /\ good (n + 1) y /\ state_ y = CONNECT /\ queue_ y = [] /\
    collectors_ y = collectors_ x /\ collector_index_ y = next_index x /\ attempts_ y = attempts_ x + 1 /\
    idle_hold_time_ y = GetConnectTime x * 1000.
Proof.
  intros Hn Hg Est Eq Hne. destruct (has_session n [] x (proj1 Hg)) as [s Es]; [left; by left|].
  destruct Hg as [Hi Hw]. destruct (session_alive [] x s (proj1 Hi) Es) as [i Ei].
  assert (s_observer i = true) as Ho by (destruct Hi as (_&_&_&_&_&_&Hl); by destruct (Hl s i Es Ei)).
  unfold one_failure. rewrite Es. cbn [mbind option_bind].
  assert (deleted_ x = false) as Hd by (by destruct Hi as ((_&_&_&_&_&_&_&_&?)&_)).
  set (x1 := Enqueue (EvTcpConnectFail s) x).
  assert (good n x1) as G1 by (apply good_Enqueue; [by split|done|done]).
  assert (step (InSession s CONNECT_FAILED) x = Some x1) as S1 by (cbn [ClientSM.step]; by rewrite Ei, Ho).
  assert (queue_ x1 = [EvTcpConnectFail s] /\ frame x1 = frame x /\ session_ x1 = Some s) as (Q1&F1&E1).
  { unfold x1. rewrite Enqueue_eq by done. cbn. by rewrite Eq. }
  unfold frame in F1. injection F1 as I1 _ I3 I4 _ _ _ I8 _ _ _ _. rewrite Est in I1.
  destruct (fail_connect n s [] x1 G1 I1 E1 Q1) as (x2&S2&G2&T2&Q2&C2&N2&A2&R2&H2).
  destruct (delete_in_idle n s [] x2 G2 T2 Q2) as (x3&S3&G3&Q3&F3). unfold frame in F3.
  injection F3 as J1 _ J3 J4 _ J6 J7 J8 _ _ _ _. rewrite T2 in J1. cbn in J3, J4, J6, J7, J8.
  assert (deleted_ x3 = false) as Hd3 by (by destruct G3 as [((_&_&_&_&_&_&_&_&?)&_) _]).
  set (x4 := IdleHoldTimerExpired x3). rewrite <- J6 in R2.
  assert (good n x4) as G4 by (by apply good_idle_timer).
  assert (step InIdleTimer x3 = Some x4) as S4 by (cbn [ClientSM.step]; by rewrite R2).
  assert (queue_ x4 = [EvIdleHoldTimerExpired] /\ state_ x4 = IDLE /\ collectors_ x4 = collectors_ x3 /\
    collector_index_ x4 = collector_index_ x3 /\ attempts_ x4 = attempts_ x3 /\ idle_hold_time_ x4 = idle_hold_time_ x3)
    as (Q4&T4&C4&N4&A4&H4).
  { unfold x4, IdleHoldTimerExpired. rewrite Enqueue_eq by done. cbn. by rewrite Q3, J1. }
  destruct (expire_in_idle n [] x4 Hn G4 T4 Q4) as (x5&S5&G5&T5&Q5&C5&N5&_&A5&H5).
  exists x5. cbn [ClientSM.run]. rewrite S1. cbn [mbind option_bind]. rewrite S2. cbn [mbind option_bind].
  rewrite S3. cbn [mbind option_bind]. rewrite S4. cbn [mbind option_bind]. rewrite S5. cbn [mbind option_bind].
  split; [done|]. split; [done|]. split; [done|]. split; [done|].
  split; [congruence|]. rewrite N5, N4, J4, N2 by congruence. unfold next_index, GetConnectTime in *.
  rewrite I3, I4. split; [done|]. split; [congruence|]. rewrite H5, H4, J7, H2, I8. done.
Qed.

Lemma failures_spec k : forall n x,
  n + Z.of_nat k <= INT_MAX -> good n x -> state_ x = CONNECT -> queue_ x = [] -> collectors_ x <> [] ->
  exists y, failures k x = Some y /\ good (n + Z.of_nat k) y /\ state_ y = CONNECT /\ queue_ y = [] /\
    collectors_ y = collectors_ x /\
    collector_index_ y = (collector_index_ x + Z.of_nat k) mod zlen (collectors_ x) /\
    attempts_ y = attempts_ x + Z.of_nat k /\
    (0 < Z.of_nat k -> idle_hold_time_ y = Z.min (2 ^ (Z.min (attempts_ x + Z.of_nat k - 1) 6 - 1)) 30 * 1000).
Proof.
  induction k as [|k IH]; intros n x Hn Hg Est Eq Hne.
  { exists x. cbn [failures]. rewrite !Z.add_0_r. split; [done|]. split; [done|]. split; [done|]. split; [done|].
    split; [done|]. split; [|by split]. destruct Hg as [(_&(_&_&_&Hgc&_)&_) _]. unfold GetCollector in Hgc.
    destruct (collectors_ x) eqn:E; [done|]. destruct (Z.ltb_spec (collector_index_ x) 0); [done|].
    apply lookup_lt_Some in Hgc. rewrite Z.mod_small; lia. }
  destruct (one_failure_spec n x) as (y&E&Gy&Ty&Qy&Cy&Ny&Ay&Hy); [lia|done..|]. cbn [failures]. rewrite E.
  cbn [mbind option_bind].
  destruct (IH (n + 1) y) as (z&Ez&Gz&Tz&Qz&Cz&Nz&Az&Hz); [lia|done|done|done|congruence|].
  exists z. split; [done|]. split; [by replace (n + Z.of_nat (S k)) with (n + 1 + Z.of_nat k) by lia|].
  split; [done|]. split; [done|]. split; [congruence|]. split; [|split; [lia|]].
  - rewrite Nz, Cy, Ny. unfold next_index. rewrite Zplus_mod_idemp_l. f_equal. lia.
  - intros _. destruct k as [|k].
    + cbn [failures] in Ez. injection Ez as <-. rewrite Hy. unfold GetConnectTime, kConnectInterval.
      assert (1 <= attempts_ x) as Ha by (destruct Hg as [(_&_&_&_&_&Ha&_) _]; apply Ha; rewrite Est; by left).
      destruct (Z.eqb_spec (Z.min (attempts_ x) 6) 0); [lia|]. rewrite Z.shiftl_1_l. do 5 f_equal. lia.
    + rewrite Hz by lia. do 5 f_equal. lia.
Qed.

End Failures.

(** Back-off and rotation.  Starting from an attempt with an empty queue, after k
    failed attempts in a row the client is at its next attempt, at the collector k
    places further round the list, and the time it held back before that attempt is
    2^(a-1) seconds for the a-th attempt, at most 30. *)
Theorem client_backoff ins now junk x k :
  reached ins now junk x -> zlen ins + Z.of_nat k <= INT_MAX ->
  state_ x = CONNECT -> queue_ x = [] -> collectors_ x <> [] ->
  exists y, failures k x = Some y /\ state_ y = CONNECT /\ queue_ y = [] /\
    attempts_ y = attempts_ x + Z.of_nat k /\
    collectors_ x !! Z.to_nat ((collector_index_ x + Z.of_nat k) mod zlen (collectors_ x)) = Some (server_ y) /\
    (0 < Z.of_nat k ->
     idle_hold_time_ y = Z.min (2 ^ (Z.min (attempts_ x + Z.of_nat k - 1) 6 - 1)) 30 * 1000).
Proof.
  intros Hr Hk Est Eq Hne. pose proof (reached_good _ _ _ _ Hr) as Hg. destruct Hr as (_&_&_&Hc).
  destruct (failures_spec Hc k (zlen ins) x Hk Hg Est Eq Hne) as (y&E&Gy&Ty&Qy&Cy&Ny&Ay&Hy).
  exists y. split; [done|]. split; [done|]. split; [done|]. split; [done|]. split; [|done].
  destruct Gy as [(_&(_&_&_&Hgc&_)&_) _]. unfold GetCollector in Hgc. rewrite Cy, Ny in Hgc.
  destruct (collectors_ x); [done|]. destruct (_ <? 0); [done|]. exact Hgc.
Qed.

(** A message handed to the machine is sent or dropped, never both and never
    lost: taken off the queue in Established, or in ClientInit when it is not a UVE, it
    is appended to the send queue of the current session; otherwise it is released
    and recorded as dropped.  Nothing else changes. *)
Theorem client_send_accounted ins now junk x m q :
  reached ins now junk x -> queue_ x = EvSandeshSend m :: q ->
  exists y, step InDequeue x = Some y /\ queue_ y = q /\ state_ y = state_ x /\ session_ y = session_ x /\
    if bool_decide (state_ x = ESTABLISHED) || (bool_decide (state_ x = CLIENT_INIT) && negb (snh_is_uve m))
    then dropped y = dropped x /\ exists s i, session_ x = Some s /\ sessions x !! s = Some i /\
      sessions y = <[s := push_sendq m i]> (sessions x)
    else dropped y = dropped x ++ [m] /\ sessions y = sessions x.
Proof.
  intros Hr Eq. pose proof (reached_good _ _ _ _ Hr) as Hg. set (e := EvSandeshSend m) in *.
  rewrite (client_dequeue_valid _ x e q Hg Eq eq_refl).
  pose proof (client_inv_taken (zlen ins) e q false x (proj1 Hg) Eq) as Ht. cbn [delete_of e] in Ht.
  assert (connecting (state_ x) \/ state_ x = ESTABLISHED -> exists y, send_session m (taken e q false x) = Some y /\
    queue_ y = q /\ state_ y = state_ x /\ session_ y = session_ x /\ dropped y = dropped x /\
    exists s i, session_ x = Some s /\ sessions x !! s = Some i /\ sessions y = <[s := push_sendq m i]> (sessions x))
    as Hsend.
  { intros Hst. destruct (has_session _ _ _ Ht Hst) as [s Es].
    destruct (send_spec _ s m _ Ht Es) as (i&y&Ei&E&->&_). eexists. split; [exact E|]. do 4 (split; [done|]).
    by exists s, i. }
  unfold process_event. change (state_ (taken e q false x)) with (state_ x).
  destruct (state_ x) eqn:Est; cbn [Idle_react Disconnect_react Connect_react ClientInit_react Established_react e];
    cbn [bool_decide orb andb]; try (eexists; split; [done|]; cbn; by rewrite Est).
  - destruct (snh_is_uve m); cbn; [eexists; split; [done|]; cbn; by rewrite Est|].
    destruct Hsend as (y&?&?&?&?&?&?); [left; by right|]. by exists y.
  - destruct Hsend as (y&?&?&?&?&?&?); [by right|]. by exists y.
Qed.

(** A close is not checked against the session it comes from: while the machine
    connects on session [s], a close of another session that is still in the queue
    ends the attempt and queues the deletion of [s]. *)
Theorem client_stale_close ins now junk x s s' q :
  reached ins now junk x -> state_ x = CONNECT -> session_ x = Some s -> queue_ x = EvTcpClose s' :: q -> s' <> s ->
  exists y, step InDequeue x = Some y /\ state_ y = IDLE /\ session_ y = None /\ EvTcpDeleteSession s ∈ queue_ y.
Proof.
  intros Hr Est Es Eq Hne. pose proof (reached_good _ _ _ _ Hr) as Hg. destruct Hr as (_&_&Hl&Hc).
  rewrite (client_dequeue_valid _ x _ q Hg Eq eq_refl).
  pose proof (client_inv_taken (zlen ins) _ q false x (proj1 Hg) Eq) as Ht.
  set (z := taken (EvTcpClose s') q false x) in *. cbn [delete_of] in Ht.
  assert (state_ z = CONNECT /\ session_ z = Some s) as [Z1 Z2] by done.
  destruct (CollectorChange_spec _ [] z Ht) as (b&x1&E&Hm&Hi1&_). pose proof Hm as (_&M2&_&_&_&_&M7&_).
  unfold process_event. rewrite Z1. cbn [Connect_react]. rewrite E. cbn [mbind option_bind].
  rewrite Z2 in M2. rewrite Z1 in M7.
  destruct (Connect_ToIdle_spec _ s (EvTcpClose s') x1 Hi1 M2) as (y&Ey&_&_&(R1&R2&R3&_)&_).
  { destruct Hi1 as (_&_&_&_&_&Ha&_). apply Ha. rewrite M7. by left. }
  exists y. split; [exact Ey|]. split; [done|]. split; [done|]. rewrite R3. apply elem_of_app. right. by left.
Qed.

Lemma CollectorChange_session x b y : CollectorChange x = Some (b, y) -> session_ y = session_ x.
Proof.
  unfold CollectorChange, GetNextCollector. destruct (collectors_ x) as [|c cs].
  - cbn [mbind option_bind]. destruct (negb _); intros [= <- <-]; done.
  - destruct (_ =? INT_MAX); [done|]. set (x2 := if _ =? _ then _ else _).
    assert (session_ x2 = session_ x) as E by (unfold x2; by destruct (_ =? _)).
    destruct (_ <? 0); [done|]. destruct (_ !! _); [|done]. cbn [mbind option_bind].
    destruct (negb _); intros [= <- <-]; done.
Qed.

(** A manager that fails to make a session brings the machine down: without a
    session in Connect, the connect timeout (or any other failure of the attempt) is
    undefined, since [ToIdle] asks the NULL session for its remote endpoint. *)
Theorem client_null_session x e q :
  deleted_ x = false -> session_ x = None -> queue_ x = e :: q -> failure e (state_ x) = true ->
  validate e x = true -> step InDequeue x = None.
Proof.
  intros Hd Es Eq Hf Hv. cbn [ClientSM.step]. rewrite Eq. unfold DequeueEvent.
  change (deleted_ (set_queue q x)) with (deleted_ x). rewrite Hd.
  assert (validate e (sm_set_last_event (type_name e) (set_queue q x)) = true) as ->.
  { rewrite <- Hv. by destruct e. }
  set (z := UpdateEventDequeue e _). assert (session_ z = None /\ state_ z = state_ x) as [Ez Est] by done.
  assert (forall b y, CollectorChange z = Some (b, y) ->
    Connect_ToIdle e y = None /\ ToIdle e y = None /\ reconnect e y = None) as Hn.
  { intros b y E%CollectorChange_session. rewrite Ez in E. unfold Connect_ToIdle, ToIdle, reconnect, update_session.
    rewrite E. done. }
  unfold process_event. rewrite Est. destruct (state_ x) eqn:Ex; try (by destruct e);
    (destruct e; try done); cbn [Connect_react ClientInit_react Established_react];
    destruct (CollectorChange z) as [[b y]|] eqn:E; try done; cbn [mbind option_bind];
    destruct (Hn b y eq_refl) as (?&?&?); try done; by destruct b.
Qed.

Lemma connected_step n s q x :
  n < INT_MAX -> good n x -> state_ x = CONNECT -> session_ x = Some s -> queue_ x = EvTcpConnected s :: q ->
  exists y, step InDequeue x = Some y /\ state_ y = CLIENT_INIT /\ session_ y = Some s /\ queue_ y = q /\
    connects_ y = connects_ x + 1.
Proof.
  intros Hn Hg Est Es Eq. rewrite (client_dequeue_valid n x _ q Hg Eq eq_refl).
  destruct Hg as [(Hs&(_&(?&?)&_)&_) _]. destruct (session_alive [] x s Hs Es) as [i Ei].
  set (z := taken _ q false x).
  assert (state_ z = CONNECT /\ session_ z = Some s /\ queue_ z = q /\ connects_ z = connects_ x /\
    sessions z = sessions x) as (Z1&Z2&Z3&Z4&Z5) by done. clearbody z.
  unfold process_event. rewrite Z1. cbn [Connect_react].
  rewrite (remote_alive s i (CancelConnectTimer z)) by (by rewrite <- Z5 in Ei). cbn [mbind option_bind].
  set (w := call _ (CancelConnectTimer z)).
  assert (state_ w = CONNECT /\ session_ w = Some s /\ queue_ w = q /\ connects_ w = connects_ x) as (W1&W2&W3&W4) by done.
  clearbody w. unfold transit, leave. rewrite W1. cbn [enter]. unfold enter_ClientInit, connects_inc.
  change (connects_ (StartConnectTimer _ _)) with (connects_ w). rewrite W4.
  rewrite (proj2 (Z.eqb_neq (connects_ x) INT_MAX)) by lia. cbn [mbind option_bind]. eexists. split; [done|]. done.
Qed.

Lemma control_step n s q msg header name off x :
  good n x -> state_ x = CLIENT_INIT -> session_ x = Some s ->
  queue_ x = EvSandeshMessageRecv msg header name off :: q -> has_control_hint header = true ->
  (forall c, mgr_receive c msg header name off = Some true) ->
  exists y, step InDequeue x = Some y /\ state_ y = ESTABLISHED /\ session_ y = Some s /\ queue_ y = q /\
    coll_name_ y = Source header /\ attempts_ y = 0 /\ connects_ y = connects_ x /\
    timer_running (connect_timer_ y) = false /\ timer_running (idle_hold_timer_ y) = false.
Proof.
  intros Hg Est Es Eq Hh Hr. rewrite (client_dequeue_valid n x _ q Hg Eq eq_refl).
  destruct Hg as [(Hs&_&Hf) _]. destruct (session_alive [] x s Hs Es) as [i Ei].
  assert (timer_running (idle_hold_timer_ x) = false) as Hti.
  { apply not_true_is_false. intros Ht. destruct Hf as (_&_&Hid&_). apply Hid in Ht. congruence. }
  set (z := taken _ q false x).
  assert (state_ z = CLIENT_INIT /\ session_ z = Some s /\ queue_ z = q /\ connects_ z = connects_ x /\
    sessions z = sessions x /\ idle_hold_timer_ z = idle_hold_timer_ x) as (Z1&Z2&Z3&Z4&Z5&Z6) by done. clearbody z.
  unfold process_event. rewrite Z1. cbn [ClientInit_react]. unfold receive. rewrite Hr. cbn [mbind option_bind negb].
  rewrite Hh. set (u := set_collector_name _ _).
  assert (state_ u = CLIENT_INIT /\ session_ u = Some s /\ queue_ u = q /\ connects_ u = connects_ x /\
    sessions u !! s = Some i /\ coll_name_ u = Source header /\ idle_hold_timer_ u = idle_hold_timer_ x)
    as (U1&U2&U3&U4&U5&U6&U7) by (unfold u; cbn; by rewrite Z5).
  clearbody u. rewrite U2, (remote_alive s i u U5). cbn [mbind option_bind]. set (w := call _ u).
  assert (state_ w = CLIENT_INIT /\ session_ w = Some s /\ queue_ w = q /\ connects_ w = connects_ x /\
    sessions w !! s = Some i /\ coll_name_ w = Source header /\ idle_hold_timer_ w = idle_hold_timer_ x)
    as (W1&W2&W3&W4&W5&W6&W7) by done. clearbody w.
  unfold transit, leave. rewrite W1. cbn [enter]. unfold enter_Established. set (v := connect_attempts_clear _).
  assert (session_ v = Some s /\ sessions v !! s = Some i) as [V1 V2] by done.
  rewrite V1, (remote_alive s i v V2). cbn [mbind option_bind]. eexists. split; [done|].
  do 7 (split; [done|]). cbn. by rewrite W7.
Qed.

(** C28: a client that reaches its collector is established: from an attempt with an
    empty queue, a completed connect and one control message that reads and is
    accepted lead through ClientInit to Established, on the same session, with the
    collector's name noted, the attempts cleared and no timer running. *)
Theorem client_establishes ins now junk x s msg header name off :
  reached ins now junk x -> state_ x = CONNECT -> session_ x = Some s -> queue_ x = [] ->
  ExtractMsgHeader header_read fuel msg = Some (inr (header, name, off)) -> has_control_hint header = true ->
  (forall c, mgr_receive c msg header name off = Some true) ->
  exists y, run [InSession s CONNECT_COMPLETE; InDequeue; InMessage s msg; InDequeue] x = Some y /\
    state_ y = ESTABLISHED /\ session_ y = Some s /\ queue_ y = [] /\ coll_name_ y = Source header /\
    attempts_ y = 0 /\ connects_ y = connects_ x + 1 /\
    timer_running (connect_timer_ y) = false /\ timer_running (idle_hold_timer_ y) = false.
Proof.
  intros Hre Est Es Eq Hx Hh Hr. pose proof (reached_good _ _ _ _ Hre) as Hg. destruct Hre as (_&_&Hl&Hc).
  set (n := zlen ins) in *. destruct Hg as [Hi Hw].
  destruct (session_alive [] x s (proj1 Hi) Es) as [i Ei].
  assert (s_observer i = true) as Ho by (destruct Hi as (_&_&_&_&_&_&Hli); by destruct (Hli s i Es Ei)).
  assert (deleted_ x = false) as Hd by (by destruct Hi as ((_&_&_&_&_&_&_&_&?)&_)).
  set (x1 := Enqueue (EvTcpConnected s) x).
  assert (step (InSession s CONNECT_COMPLETE) x = Some x1) as S1 by (cbn [ClientSM.step]; by rewrite Ei, Ho).
  assert (good n x1) as G1 by (by apply (good_session_event n s CONNECT_COMPLETE i x)).
  assert (queue_ x1 = [EvTcpConnected s] /\ frame x1 = frame x /\ session_ x1 = Some s) as (Q1&F1&E1).
  { unfold x1. rewrite Enqueue_eq by done. cbn. by rewrite Eq. }
  unfold frame in F1. injection F1 as I1 _ _ _ _ _ _ _ I9 _ _ _. rewrite Est in I1.
  destruct (connected_step n s [] x1 Hl G1 I1 E1 Q1) as (x2&S2&T2&E2&Q2&C2).
  destruct (good_step header_read fuel Hc n InDequeue x1 Hl G1 I) as [[_ ?]|[_ (x2'&S2'&G2)]]; [congruence|].
  assert (x2' = x2) as -> by congruence.
  destruct (session_alive [] x2 s) as [i2 Ei2]; [by destruct G2 as [(?&_) _]|done|].
  assert (s_receive_cb i2 = true) as Ho2 by (destruct G2 as [(_&_&_&_&_&_&Hli) _]; by destruct (Hli s i2 E2 Ei2)).
  assert (deleted_ x2 = false) as Hd2 by (by destruct G2 as [((_&_&_&_&_&_&_&_&?)&_) _]).
  set (x3 := Enqueue (EvSandeshMessageRecv msg header name off) x2).
  assert (step (InMessage s msg) x2 = Some x3) as S3.
  { cbn [ClientSM.step]. rewrite Ei2, Ho2. unfold OnMessage. by rewrite Hx. }
  assert (good (n + 1) x3) as G3 by (by apply good_Enqueue).
  assert (queue_ x3 = [EvSandeshMessageRecv msg header name off] /\ state_ x3 = state_ x2 /\ session_ x3 = Some s /\
    connects_ x3 = connects_ x2) as (Q3&T3&E3&C3).
  { unfold x3. rewrite Enqueue_eq by done. cbn. by rewrite Q2. }
  rewrite T2 in T3.
  destruct (control_step (n + 1) s [] msg header name off x3 G3 T3 E3 Q3 Hh Hr) as (y&S4&T4&E4&Q4&N4&A4&C4&TC&TI).
  exists y. cbn [ClientSM.run]. rewrite S1. cbn [mbind option_bind]. rewrite S2. cbn [mbind option_bind].
  rewrite S3. cbn [mbind option_bind]. rewrite S4. cbn [mbind option_bind]. do 6 (split; [done|]).
  split; [congruence|]. done.
Qed.

End Claims.

(** ** A concrete client *)
Section Demo.
#[local] Existing Instance TMemoryBuffer.total_allocator.
#[local] Existing Instance decimal_texts.
Definition good_manager : Mgr := {| mgr_create _ _ := true; mgr_receive _ _ _ _ _ := Some true |}.
Definition bad_manager : Mgr := {| mgr_create _ _ := false; mgr_receive _ _ _ _ _ := Some true |}.
#[local] Existing Instance good_manager.
Definition ctrl_header : SandeshHeader :=
  MkHeader [] 0 [] (bs "collector") [] 0 0 SYSTEM SANDESH_CONTROL_HINT 4 [] [] [] None None.
Definition ctrl_msg : list byte := [kcXMLTagO] ++ bs "Ctrl " ++ kAttrTypeSandesh ++ [kcXMLTagC].
Definition ctrl_read : M (TXMLProtocol.t TMemoryBuffer.t) (Z * SandeshHeader) :=
  fun p => Some ((1, ctrl_header), p).
Definition collector_a : Endpoint := MkEndpoint 1 8086.
Definition collector_b : Endpoint := MkEndpoint 2 8086.
Abbreviation crun := (run ctrl_read 100).
Abbreviation cstep := (step ctrl_read 100).

Definition to_connect : list input :=
  [InAdmin false; InCollectors [collector_a; collector_b]; InDequeue; InDequeue].
Definition to_established : list input :=
  to_connect ++ [InSession 1%positive CONNECT_COMPLETE; InDequeue; InMessage 1%positive ctrl_msg; InDequeue].
Definition client_at (ins : list input) : t := default (init 0 0) (crun ins (init 0 0)).

Lemma demo_reached ins :
  is_Some (crun ins (init 0 0)) -> Forall input_ok ins -> zlen ins < INT_MAX ->
  reached ctrl_read 100 ins 0 0 (client_at ins).
Proof.
  intros [y E] Hok Hl. split; [unfold client_at; by rewrite E|]. split; [done|]. by split.
Qed.
Ltac demo :=
  apply demo_reached;
  [vm_compute; by eexists
  |repeat (first [apply Forall_nil_2 | apply Forall_cons_2]); first [exact I | vm_compute; first [reflexivity | discriminate]]
  |vm_compute; reflexivity].

(** The manager that answers gets through a collector's failure; the one without a
    defined answer to the control message stops the machine there. *)
Definition mute_manager : Mgr := {| mgr_create _ _ := true; mgr_receive _ _ _ _ _ := None |}.
Lemma client_total_witness :
  (forall ins1 i ins2 x,
     to_established ++ [InSession 1%positive CLOSE; InDequeue; InDequeue] = ins1 ++ i :: ins2 ->
     crun ins1 (init 0 0) = Some x -> exists y, cstep i x = Some y) /\
  ClientSM.run (H1 := mute_manager) ctrl_read 100 to_established (init 0 0) = None.
Proof.
  split.
  - intros ins1 i ins2 x Hi E.
    destruct (client_total ctrl_read 100 (to_established ++ [InSession 1%positive CLOSE; InDequeue; InDequeue]) 0 0)
      as [[_ Hn] Hs]; [done| |vm_compute; reflexivity|].
    { repeat (first [apply Forall_nil_2 | apply Forall_cons_2]); first [exact I | vm_compute; reflexivity]. }
    destruct (cstep i x) as [y|] eqn:Ei; [exists y; reflexivity|]. apply (Hs _ _ _ _ Hi E) in Ei.
    assert (crun (to_established ++ [InSession 1%positive CLOSE; InDequeue; InDequeue]) (init 0 0) = None) as En
      by (apply Hn; exists ins1, i, ins2, x; split; [exact Hi|split; [exact E|exact Ei]]).
    vm_compute in En. discriminate En.
  - refine (proj2 (proj1 (client_total (H1 := mute_manager) ctrl_read 100 to_established 0 0 _ _ _)) _).
    + done.
    + repeat (first [apply Forall_nil_2 | apply Forall_cons_2]); first [exact I | vm_compute; reflexivity].
    + vm_compute. reflexivity.
    + eexists (to_connect ++ [InSession 1%positive CONNECT_COMPLETE; InDequeue; InMessage 1%positive ctrl_msg]), InDequeue, [], _.
      split; [reflexivity|]. split; [vm_compute; reflexivity|].
      exists ctrl_msg, ctrl_header, (bs "Ctrl"). do 2 eexists. split; [reflexivity|]. split; [by left|reflexivity].
Defined.

Lemma client_sessions_exact_witness :
  let x := client_at (to_established ++ [InSession 1%positive CLOSE; InDequeue]) in
  session_ x = Some 2%positive /\ queue_ x = [EvTcpDeleteSession 1%positive] /\ NoDup (own x).
Proof.
  intros x. split; [vm_compute; reflexivity|]. split; [vm_compute; reflexivity|].
  apply (client_sessions_exact ctrl_read 100 (to_established ++ [InSession 1%positive CLOSE; InDequeue]) 0 0 x). demo.
Defined.

Lemma client_parts_fit_witness :
  let x := client_at to_connect in state_ x = CONNECT /\ session_ x <> None /\ GetCollector x = Some collector_a.
Proof.
  intros x. destruct (client_parts_fit ctrl_read 100 to_connect 0 0 x) as (Hs&_&_&_&Hg&_); [demo|].
  assert (state_ x = CONNECT) as E by (vm_compute; reflexivity). split; [done|].
  split; [apply Hs; left; by left|]. rewrite Hg. vm_compute. reflexivity.
Defined.

Lemma client_recovers_witness :
  exists y, cstep InDequeue (client_at (to_connect ++ [InConnectTimer])) = Some y /\
    recovers 1%positive (client_at (to_connect ++ [InConnectTimer])) y.
Proof.
  apply (client_recovers ctrl_read 100 (to_connect ++ [InConnectTimer]) 0 0 _ 1%positive EvConnectTimerExpired []);
    [demo|vm_compute; reflexivity..].
Defined.

Lemma client_backoff_witness :
  exists y, failures ctrl_read 100 3 (client_at to_connect) = Some y /\ server_ y = collector_b /\
    idle_hold_time_ y = 4000.
Proof.
  destruct (client_backoff ctrl_read 100 to_connect 0 0 (client_at to_connect) 3) as (y&E&_&_&_&Hs&Hh);
    [demo|vm_compute; discriminate|vm_compute; reflexivity|vm_compute; reflexivity|vm_compute; discriminate|].
  exists y. split; [exact E|]. split; [|rewrite Hh by lia; vm_compute; reflexivity].
  assert (Some (server_ y) = Some collector_b) as Hb by (rewrite <- Hs; vm_compute; reflexivity). congruence.
Defined.

Lemma client_send_accounted_witness :
  let m := MkSnh "Hello" false in
  exists y, cstep InDequeue (client_at (to_established ++ [InSend m])) = Some y /\ dropped y = [].
Proof.
  intros m. destruct (client_send_accounted ctrl_read 100 (to_established ++ [InSend m]) 0 0
    (client_at (to_established ++ [InSend m])) m []) as (y&E&_&_&_&Hd); [demo|vm_compute; reflexivity|].
  exists y. split; [exact E|].
  assert (state_ (client_at (to_established ++ [InSend m])) = ESTABLISHED) as Est by (vm_compute; reflexivity).
  rewrite bool_decide_true in Hd by exact Est. destruct Hd as [Hd _]. rewrite Hd. vm_compute. reflexivity.
Defined.

Lemma client_stale_close_witness :
  let ins := to_established ++ [InSession 1%positive CLOSE; InSession 1%positive CLOSE; InDequeue] in
  exists y, cstep InDequeue (client_at ins) = Some y /\ state_ y = IDLE /\ EvTcpDeleteSession 2%positive ∈ queue_ y.
Proof.
  intros ins. destruct (client_stale_close ctrl_read 100 ins 0 0 (client_at ins) 2%positive 1%positive
    [EvTcpDeleteSession 1%positive]) as (y&E&Hs&_&Hd);
    [demo|vm_compute; reflexivity|vm_compute; reflexivity|vm_compute; reflexivity|discriminate|].
  exists y. split; [exact E|]. split; [exact Hs|exact Hd].
Defined.

Lemma client_null_session_witness :
  let _ := bad_manager in
  exists x, crun (to_connect ++ [InConnectTimer]) (init 0 0) = Some x /\ cstep InDequeue x = None.
Proof.
  intros B. eexists. split; [vm_compute; reflexivity|].
  apply (client_null_session ctrl_read 100 _ EvConnectTimerExpired []); reflexivity.
Defined.

Lemma client_establishes_witness :
  exists y, crun [InSession 1%positive CONNECT_COMPLETE; InDequeue; InMessage 1%positive ctrl_msg; InDequeue]
              (client_at to_connect) = Some y /\ state_ y = ESTABLISHED /\ coll_name_ y = bs "collector".
Proof.
  destruct (client_establishes ctrl_read 100 to_connect 0 0 (client_at to_connect) 1%positive ctrl_msg ctrl_header
    (bs "Ctrl") 1) as (y&E&Hs&_&_&Hn&_);
    [demo|vm_compute; reflexivity|vm_compute; reflexivity|vm_compute; reflexivity|vm_compute; reflexivity|reflexivity|done|].
  exists y. split; [exact E|]. split; [exact Hs|exact Hn].
Defined.

End Demo.
End ClientClaims.
