(* ===== verification/Client.v ===== *)
(** * The client around its state machine

    [SandeshClient] (library/cpp/sandesh_client.h and .cc) as the manager of the
    client's state machine: starting, stopping and reconfiguring it, what it does with a
    message received, and how often it lets its session be closed.  Classes of messages
    are generated code: their reader, their kind and the success flag of the server's
    control message are parameters.  A NULL message and a failed [assert] are [None]. *)

From S2P Require Import Prelude Transport Statistics Protocol Xml XmlClaims Message ClientSM.
Local Open Scope Z_scope.

Module SandeshClient.

(** ** Starting, stopping, reconfiguring *)
Definition Initiate (collectors : list ClientSM.Endpoint) (x : ClientSM.t) : ClientSM.t :=
  let x := ClientSM.SetAdminState false x in
  match collectors with [] => x | _ => ClientSM.SetCollectors collectors x end.
Definition Shutdown (x : ClientSM.t) : ClientSM.t := ClientSM.SetAdminState true x.

(** [MakeEndpoint] parses an address; the first one that fails ends the update. *)
Fixpoint make_endpoints (MakeEndpoint : string -> option ClientSM.Endpoint) (l : list string)
    : option (list ClientSM.Endpoint) :=
  match l with
  | [] => Some []
  | c :: l => ep ← MakeEndpoint c; eps ← make_endpoints MakeEndpoint l; Some (ep :: eps)
  end.
Definition ReConfigCollectors (MakeEndpoint : string -> option ClientSM.Endpoint) (collector_list : list string)
    (x : ClientSM.t) : ClientSM.t :=
  match make_endpoints MakeEndpoint collector_list with
  | None => x
  | Some eps => ClientSM.SetCollectors eps x
  end.

(** ** Closing the session *)
Definition kInitialSMSessionCloseIntervalMSec : Z := 10 * 1000.
Definition kMaxSMSessionCloseIntervalMSec : Z := 60 * 1000.

(** All arguments are [uint64_t]. *)
Definition DoCloseSMSession (now_usec last_close_usec last_close_interval_usec : Z) : option (bool * Z) :=
  if (last_close_interval_usec =? 0) || (last_close_usec =? 0)
  then Some (true, kInitialSMSessionCloseIntervalMSec)
  else if now_usec <? last_close_usec then None
  else
    let time_since_close_usec := u64 (now_usec - last_close_usec) in
    if time_since_close_usec <=? last_close_interval_usec then Some (false, 0)
    else if (last_close_interval_usec <? time_since_close_usec) &&
            (time_since_close_usec <=? u64 (2 * last_close_interval_usec)) then
      let nclose_interval_msec := u64 (2 * last_close_interval_usec) / 1000 in
      Some (true, i32 (Z.min nclose_interval_msec kMaxSMSessionCloseIntervalMSec))
    else if (u64 (2 * last_close_interval_usec) <=? time_since_close_usec) &&
            (time_since_close_usec <=? u64 (4 * last_close_interval_usec)) then
      Some (true, i32 (last_close_interval_usec / 1000))
    else Some (true, kInitialSMSessionCloseIntervalMSec).

(** [closes]: the times at which [EnqueueClose] was called, latest first. *)
Record t := Mk {
  session_close_interval_msec_ : Z;
  session_close_time_usec_ : Z;
  closes : list Z;
}.
Definition init : t := Mk 0 0 [].

Definition CloseSMSession (now_usec : Z) (session : bool) (c : t) : option (bool * t) :=
  '(close, close_interval_msec) ← DoCloseSMSession now_usec (session_close_time_usec_ c)
                                    (u64 (i32 (session_close_interval_msec_ c * 1000)));
  if close : bool then
    let c := Mk close_interval_msec now_usec (closes c) in
    if session then Some (true, Mk close_interval_msec now_usec (now_usec :: closes c)) else Some (false, c)
  else Some (false, c).

(** ** Messages *)
Inductive rx_update :=
  | RxMsgStats (name : list byte) (size : Z)
  | RxMsgFailStats (name : list byte) (size : Z) (r : Rx.type).

Section Receive.
Context `{!Allocator} `{!Texts}.
Variable CreateInstance : list byte -> option (M (TXMLProtocol.t TMemoryBuffer.t) Z).
(** [dynamic_cast]s of an instance of a class, and the flag of a control message. *)
Variable is_server_to_client is_request : list byte -> bool.
Variable get_success : list byte -> bool.
(** Whether [Sandesh::recv_queue()] is set. *)
Variable recv_queue : bool.

Definition ReceiveCtrlMsg (msg : list byte) (header : SandeshHeader) (sandesh_name : list byte)
    (header_offset : Z) : option bool :=
  sandesh ← DecodeCtrlSandesh CreateInstance msg header sandesh_name header_offset;
  (* the cast of NULL is NULL and its name is asked for *)
  if negb sandesh then None
  else if negb (is_server_to_client sandesh_name) then Some false
  else Some (get_success msg).

(** The result and what the receive statistics are told. *)
Definition ReceiveMsg (msg : list byte) (header : SandeshHeader) (sandesh_name : list byte)
    (header_offset : Z) : option (bool * list rx_update) :=
  if has_control_hint header then
    success ← ReceiveCtrlMsg msg header sandesh_name header_offset;
    Some (success, [if success : bool then RxMsgStats sandesh_name (zlen msg)
                    else RxMsgFailStats sandesh_name (zlen msg) Rx.ControlMsgFailed])
  else match CreateInstance sandesh_name with
  | None => Some (true, [RxMsgFailStats sandesh_name (zlen msg) Rx.CreateFailed])
  | Some Read =>
      prot ← protocol_over msg header_offset;
      '(xfer, _) ← Read prot;
      if xfer <? 0 then Some (false, [RxMsgFailStats sandesh_name (zlen msg) Rx.DecodingFailed])
      else if negb (is_request sandesh_name) then None
      else Some (true, RxMsgStats sandesh_name (zlen msg) ::
                         if recv_queue then [] else [RxMsgFailStats sandesh_name 0 Rx.NoQueue])
  end.

(** [SandeshClient] as the machine's manager. *)
Definition manager (create : list ClientSM.mgr_call -> ClientSM.Endpoint -> bool) : ClientSM.Mgr := {|
  ClientSM.mgr_create := create;
  ClientSM.mgr_receive _ msg header name off := fst <$> ReceiveMsg msg header name off;
|}.

End Receive.
End SandeshClient.

(** ** What the client guarantees *)
Module ClientProps.
Import SandeshClient.

(** The close interval in milliseconds and the time of the last accepted close. *)
Definition throttled (c : t) (last : Z) : Prop :=
  (session_close_interval_msec_ c = 0 /\ closes c = []) \/
  (kInitialSMSessionCloseIntervalMSec <= session_close_interval_msec_ c <= kMaxSMSessionCloseIntervalMSec /\
   0 < session_close_time_usec_ c <= last /\ Forall (fun t => t <= session_close_time_usec_ c) (closes c)).

(** What a request to close at [now] does, [d] microseconds after the last close. *)
Definition next_interval (i d : Z) : option Z :=
  if d <=? i * 1000 then None
  else if d <=? 2 * i * 1000 then Some (Z.min (2 * i) kMaxSMSessionCloseIntervalMSec)
  else if d <=? 4 * i * 1000 then Some i
  else Some kInitialSMSessionCloseIntervalMSec.

Lemma i32_small z : 0 <= z < 2 ^ 31 -> i32 z = z.
Proof. intros. apply wrapS_small; lia. Qed.

Lemma DoClose_spec now last i :
  kInitialSMSessionCloseIntervalMSec <= i <= kMaxSMSessionCloseIntervalMSec -> 0 < last <= now -> now < 2 ^ 63 ->
  DoCloseSMSession now last (u64 (i32 (i * 1000))) =
  Some match next_interval i (now - last) with Some j => (true, j) | None => (false, 0) end.
Proof.
  unfold DoCloseSMSession, next_interval, kInitialSMSessionCloseIntervalMSec, kMaxSMSessionCloseIntervalMSec.
  intros Hi Hl Hn. rewrite i32_small by lia. rewrite (wrapU_small 64 (i * 1000)) by lia.
  rewrite (proj2 (Z.eqb_neq (i * 1000) 0)), (proj2 (Z.eqb_neq last 0)) by lia. cbn [orb].
  rewrite (proj2 (Z.ltb_ge now last)) by lia. rewrite (wrapU_small 64 (now - last)) by lia.
  rewrite (wrapU_small 64 (2 * (i * 1000))), (wrapU_small 64 (4 * (i * 1000))) by lia. set (d := now - last).
  replace (2 * (i * 1000)) with (2 * i * 1000) by lia. replace (4 * (i * 1000)) with (4 * i * 1000) by lia.
  destruct (Z.leb_spec d (i * 1000)); [done|]. rewrite (proj2 (Z.ltb_lt (i * 1000) d)) by lia. cbn [andb].
  destruct (Z.leb_spec d (2 * i * 1000)).
  - rewrite Z.div_mul by lia. rewrite i32_small by lia. done.
  - rewrite (proj2 (Z.leb_le (2 * i * 1000) d)) by lia. cbn [andb].
    destruct (Z.leb_spec d (4 * i * 1000)); [|done]. rewrite Z.div_mul by lia. by rewrite i32_small by lia.
Qed.

Fixpoint close_run (calls : list (Z * bool)) (c : t) : option t :=
  match calls with
  | [] => Some c
  | (now, session) :: calls => '(_, c) ← CloseSMSession now session c; close_run calls c
  end.

(** Times that are positive, in order and in range. *)
Fixpoint in_order (last : Z) (calls : list (Z * bool)) : Prop :=
  match calls with [] => True | (now, _) :: calls => last <= now < 2 ^ 63 /\ in_order now calls end.

(** Closes further apart than the initial interval. *)
Fixpoint spaced (l : list Z) : Prop :=
  match l with
  | [] => True
  | a :: l => match l with [] => True | b :: _ => kInitialSMSessionCloseIntervalMSec * 1000 < a - b end /\ spaced l
  end.

Lemma next_interval_range i d j :
  kInitialSMSessionCloseIntervalMSec <= i <= kMaxSMSessionCloseIntervalMSec -> next_interval i d = Some j ->
  kInitialSMSessionCloseIntervalMSec <= j <= kMaxSMSessionCloseIntervalMSec /\
  kInitialSMSessionCloseIntervalMSec * 1000 < d.
Proof.
  unfold next_interval, kInitialSMSessionCloseIntervalMSec, kMaxSMSessionCloseIntervalMSec. intros Hi.
  destruct (Z.leb_spec d (i * 1000)); [done|]. split_tests; intros [= <-]; lia.
Qed.

Lemma CloseSMSession_step last now (session : bool) c :
  throttled c last -> spaced (closes c) -> 0 < last <= now -> now < 2 ^ 63 ->
  exists b c', CloseSMSession now session c = Some (b, c') /\ throttled c' now /\ spaced (closes c').
Proof.
  intros Ht Hs Hl Hn. unfold CloseSMSession. destruct Ht as [[Hi Hc]|(Hi&Htm&Hf)].
  - rewrite Hi. change (u64 (i32 (0 * 1000))) with 0. cbn.
    assert (throttled (Mk kInitialSMSessionCloseIntervalMSec now (closes c)) now /\
            throttled (Mk kInitialSMSessionCloseIntervalMSec now (now :: closes c)) now) as [T1 T2].
    { rewrite Hc. split; right; cbn; unfold kInitialSMSessionCloseIntervalMSec, kMaxSMSessionCloseIntervalMSec;
        (split; [lia|]; split; [lia|]); repeat constructor; lia. }
    destruct session; (do 2 eexists; split; [done|]; split; [done|]); rewrite Hc; done.
  - rewrite DoClose_spec by lia. cbn [mbind option_bind].
    destruct (next_interval _ _) as [j|] eqn:Ej.
    2: { do 2 eexists. split; [done|]. split; [|done]. right. split; [done|]. split; [lia|done]. }
    destruct (next_interval_range _ _ _ Hi Ej) as [Hj Hd].
    assert (Forall (fun t => t <= now) (closes c)) as Hf'.
    { eapply Forall_impl; [|exact Hf]. cbn. intros; lia. }
    destruct session; (do 2 eexists; split; [done|]; split; [right; cbn; split; [done|]; split; [lia|]|]); try done.
    + by constructor.
    + cbn. destruct (closes c) as [|b l]; [done|]. split; [|done]. apply Forall_cons_iff in Hf as [Hb _]. lia.
Qed.

(** C36: closing is throttled.  However often the client is asked to close its session,
    at times that do not go back, every request is answered, the interval in force is
    between 10 and 60 seconds, and any two closes are more than 10 seconds apart; a
    request d after the last accepted one, with interval i in force, is refused up to
    i, doubles the interval (to at most 60 seconds) up to 2i, keeps it up to 4i and
    resets it beyond. *)
Theorem client_close_throttled calls start :
  0 < start -> in_order start calls ->
  exists c, close_run calls init = Some c /\ spaced (closes c) /\
    (session_close_interval_msec_ c <> 0 ->
     kInitialSMSessionCloseIntervalMSec <= session_close_interval_msec_ c <= kMaxSMSessionCloseIntervalMSec /\
     forall now, session_close_time_usec_ c <= now < 2 ^ 63 ->
       CloseSMSession now true c = Some
         match next_interval (session_close_interval_msec_ c) (now - session_close_time_usec_ c) with
         | Some j => (true, Mk j now (now :: closes c))
         | None => (false, c)
         end).
Proof.
  intros Hst Ho. assert (throttled init start /\ spaced (closes init)) as [Ht Hs] by (split; [by left|done]).
  revert start Hst Ho Ht Hs. generalize init. induction calls as [|[now session] calls IH]; intros c start Hst Ho Ht Hs.
  - exists c. split; [done|]. split; [done|]. intros Hne. destruct Ht as [[? _]|(Hi&Htm&_)]; [done|].
    split; [done|]. intros now Hn. unfold CloseSMSession. rewrite DoClose_spec by lia. cbn [mbind option_bind].
    by destruct (next_interval _ _).
  - cbn [in_order close_run] in *. destruct Ho as [Hn Ho].
    destruct (CloseSMSession_step start now session c Ht Hs) as (b&c'&->&Ht'&Hs'); [lia|lia|]. cbn [mbind option_bind].
    apply (IH c' now); [lia|done..].
Qed.

Lemma client_close_throttled_witness :
  exists c, close_run [(1, true); (5000001, true); (15000001, true)] init = Some c /\ closes c = [15000001; 1] /\
    spaced (closes c).
Proof.
  destruct (client_close_throttled [(1, true); (5000001, true); (15000001, true)] 1) as (c&E&Hs&_).
  - lia.
  - cbn. lia.
  - exists c. split; [exact E|]. split; [|exact Hs]. vm_compute in E. injection E as <-. reflexivity.
Defined.

(** A control message of a class the client does not know brings it down: in
    ClientInit and in Established, processing it is undefined, since [ReceiveCtrlMsg]
    asks the NULL message for its name. *)
Theorem client_unknown_control `{!Allocator} `{!Texts} header_read fuel CreateInstance s2c req succ rq create
    x msg header name off q :
  let _ := manager CreateInstance s2c req succ rq create in
  ClientSM.deleted_ x = false -> ClientSM.state_ x = ClientSM.CLIENT_INIT \/ ClientSM.state_ x = ClientSM.ESTABLISHED ->
  ClientSM.queue_ x = ClientSM.EvSandeshMessageRecv msg header name off :: q ->
  has_control_hint header = true -> CreateInstance name = None ->
  ClientSM.step header_read fuel ClientSM.InDequeue x = None.
Proof.
  intros Mg Hd Hst Eq Hh Hn. cbn [ClientSM.step]. rewrite Eq. unfold ClientSM.DequeueEvent.
  change (ClientSM.deleted_ (ClientSM.set_queue q x)) with (ClientSM.deleted_ x). rewrite Hd. cbn [ClientSM.validate].
  set (z := ClientSM.UpdateEventDequeue _ _).
  assert (ClientSM.receive msg header name off z = None) as Hr.
  { unfold ClientSM.receive, ClientSM.mgr_receive, Mg, manager, ReceiveMsg, ReceiveCtrlMsg, DecodeCtrlSandesh.
    by rewrite Hh, Hn. }
  unfold ClientSM.process_event. change (ClientSM.state_ z) with (ClientSM.state_ x).
  destruct Hst as [-> | ->]; cbn [ClientSM.ClientInit_react ClientSM.Established_react]; by rewrite Hr.
Qed.

Lemma client_unknown_control_witness :
  let _ := TMemoryBuffer.total_allocator in
  let _ := decimal_texts in
  let _ := manager (fun _ => None) (fun _ => true) (fun _ => true) (fun _ => true) true (fun _ _ => true) in
  let header := MkHeader [] 0 [] [] [] 0 0 SYSTEM SANDESH_CONTROL_HINT 4 [] [] [] None None in
  ClientSM.step (fun p => Some ((1, header), p)) 10 ClientSM.InDequeue
    (ClientSM.set_state ClientSM.ESTABLISHED
       (ClientSM.set_queue [ClientSM.EvSandeshMessageRecv (bs "m") header (bs "Unknown") 0] (ClientSM.init 0 0))) = None.
Proof.
  intros A X Mg header.
  apply (client_unknown_control (fun p => Some ((1, header), p)) 10 (fun _ => None) (fun _ => true) (fun _ => true)
           (fun _ => true) true (fun _ _ => true) _ (bs "m") header (bs "Unknown") 0 []);
    [reflexivity|right; reflexivity|reflexivity|reflexivity|reflexivity].
Defined.

End ClientProps.
