(* ===== verification/Wire.v ===== *)
(** * The binary wire format

    Values of the sandesh types and the bytes that stand for them: the reference
    definition that the C++ protocol (Binary.v, library/cpp/protocol/TBinaryProtocol.tcc)
    and the C protocol (CThrift.v, library/c/protocol/thrift_binary_protocol.c) are
    compared with.  Integers are big-endian; strings and containers carry a 32-bit
    count; a struct is a sequence of typed, numbered fields that ends with [T_STOP]. *)

From S2P Require Import Prelude Transport Protocol.
Local Open Scope Z_scope.

Definition AF_INET : Z := 2.
Definition AF_INET6 : Z := 10.

(** The number of bytes of an integer type, and whether it is signed. *)
Definition int_info (ty : TType) : option (nat * bool) :=
  match ty with
  | T_BYTE => Some (1%nat, true)
  | T_I16 => Some (2%nat, true) | T_I32 => Some (4%nat, true) | T_I64 => Some (8%nat, true)
  | T_U16 => Some (2%nat, false) | T_U32 => Some (4%nat, false) | T_U64 => Some (8%nat, false)
  | T_IPV4 => Some (4%nat, false)
  | _ => None
  end.

Definition int_fits (n : nat) (signed : bool) (z : Z) : bool :=
  if signed then (- 2 ^ (8 * Z.of_nat n - 1) <=? z) && (z <? 2 ^ (8 * Z.of_nat n - 1))
  else (0 <=? z) && (z <? 2 ^ (8 * Z.of_nat n)).

(** The value of [n] bytes in network order. *)
Definition int_value (n : nat) (signed : bool) (l : list byte) : Z :=
  if signed then wrapS (8 * Z.of_nat n) (be_value l) else wrapU (8 * Z.of_nat n) (be_value l).

(** A value with its type; a double is its 64 bits. *)
Inductive value :=
  | VBool (b : bool)
  | VInt (ty : TType) (z : Z)
  | VIp (a : ip_address)
  | VDouble (bits : Z)
  | VBytes (ty : TType) (l : list byte)
  | VUuid (l : list byte)
  | VStruct (fs : list (Z * value))
  | VSandesh (name : list byte) (fs : list (Z * value))
  | VList (ety : TType) (vs : list value)
  | VSet (ety : TType) (vs : list value)
  | VMap (kty vty : TType) (kvs : list (value * value)).

Definition type_of (v : value) : TType :=
  match v with
  | VBool _ => T_BOOL | VInt ty _ => ty | VIp _ => T_IPADDR | VDouble _ => T_DOUBLE
  | VBytes ty _ => ty | VUuid _ => T_UUID | VStruct _ => T_STRUCT | VSandesh _ _ => T_SANDESH
  | VList _ _ => T_LIST | VSet _ _ => T_SET | VMap _ _ _ => T_MAP
  end.

(** Induction with the hypothesis for every part. *)
Lemma value_parts_ind (P : value -> Prop) :
  (forall b, P (VBool b)) -> (forall ty z, P (VInt ty z)) -> (forall a, P (VIp a)) ->
  (forall z, P (VDouble z)) -> (forall ty l, P (VBytes ty l)) -> (forall l, P (VUuid l)) ->
  (forall fs, Forall (fun f => P f.2) fs -> P (VStruct fs)) ->
  (forall n fs, Forall (fun f => P f.2) fs -> P (VSandesh n fs)) ->
  (forall ty vs, Forall P vs -> P (VList ty vs)) ->
  (forall ty vs, Forall P vs -> P (VSet ty vs)) ->
  (forall k v kvs, Forall (fun kv => P kv.1 /\ P kv.2) kvs -> P (VMap k v kvs)) ->
  forall v, P v.
Proof.
  intros P1 P2 P3 P4 P5 P6 P7 P8 P9 P10 P11. fix IH 1. intros [].
  - apply P1.
  - apply P2.
  - apply P3.
  - apply P4.
  - apply P5.
  - apply P6.
  - apply P7. induction fs; constructor; [apply IH|done].
  - apply P8. induction fs; constructor; [apply IH|done].
  - apply P9. induction vs; constructor; [apply IH|done].
  - apply P10. induction vs; constructor; [apply IH|done].
  - apply P11. induction kvs as [|[k v] kvs IHl]; constructor; [split; apply IH|done].
Qed.

(** ** The bytes *)
Definition byte_code (ty : TType) : list byte := be_bytes 1 (ttype_code ty).
Definition count (n : Z) : list byte := be_bytes 4 n.

Fixpoint encode (v : value) : list byte :=
  let field f := byte_code (type_of f.2) ++ be_bytes 2 f.1 ++ encode f.2 in
  match v with
  | VBool b => [if b then x01 else x00]
  | VInt ty z => match int_info ty with Some (n, _) => be_bytes n z | None => [] end
  | VIp (IPv4 b) => be_bytes 1 AF_INET ++ b
  | VIp (IPv6 b) => be_bytes 1 AF_INET6 ++ b
  | VDouble bits => be_bytes 8 bits
  | VBytes _ l => count (zlen l) ++ l
  | VUuid l => l
  | VStruct fs => concat (map field fs) ++ byte_code T_STOP
  | VSandesh name fs => (count (zlen name) ++ name) ++ concat (map field fs) ++ byte_code T_STOP
  | VList ety vs | VSet ety vs => byte_code ety ++ count (zlen vs) ++ concat (map encode vs)
  | VMap kty vty kvs =>
      byte_code kty ++ byte_code vty ++ count (zlen kvs) ++
      concat (map (fun kv => encode kv.1 ++ encode kv.2) kvs)
  end.

Definition encode_field (f : Z * value) : list byte :=
  byte_code (type_of f.2) ++ be_bytes 2 f.1 ++ encode f.2.
Definition encode_fields (fs : list (Z * value)) : list byte :=
  concat (map encode_field fs) ++ byte_code T_STOP.

(** ** Values a program can hold: ranges, lengths that fit, elements of the
    announced type. *)
Fixpoint value_ok (v : value) : bool :=
  let fields_ok := forallb (fun f : Z * value => int_fits 2 true f.1 && value_ok f.2) in
  match v with
  | VBool _ => true
  | VInt ty z => match int_info ty with Some (n, s) => int_fits n s z | None => false end
  | VIp (IPv4 b) => bool_decide (length b = 4%nat)
  | VIp (IPv6 b) => bool_decide (length b = 16%nat)
  | VDouble bits => int_fits 8 false bits
  | VBytes ty l => (bool_decide (ty = T_STRING) || bool_decide (ty = T_XML)) && (zlen l <? 2 ^ 31)
  | VUuid l => bool_decide (length l = 16%nat)
  | VStruct fs => fields_ok fs
  | VSandesh name fs => (zlen name <? 2 ^ 31) && fields_ok fs
  | VList ety vs | VSet ety vs =>
      declared ety && (zlen vs <? 2 ^ 31) &&
      forallb (fun v => bool_decide (type_of v = ety) && value_ok v) vs
  | VMap kty vty kvs =>
      declared kty && declared vty && (zlen kvs <? 2 ^ 31) &&
      forallb (fun kv => bool_decide (type_of kv.1 = kty) && value_ok kv.1 &&
                         (bool_decide (type_of kv.2 = vty) && value_ok kv.2)) kvs
  end.

(** The fuel the recursive readers need: one for each level, and at each level one
    for every element and for the end. *)
Fixpoint fuel_for (v : value) : nat :=
  match v with
  | VStruct fs | VSandesh _ fs =>
      S (Nat.max (S (length fs)) (list_max (map (fun f => fuel_for f.2) fs)))
  | VList _ vs | VSet _ vs => S (Nat.max (S (length vs)) (list_max (map fuel_for vs)))
  | VMap _ _ kvs =>
      S (Nat.max (S (length kvs))
                 (list_max (map (fun kv => Nat.max (fuel_for kv.1) (fuel_for kv.2)) kvs)))
  | _ => 1
  end.

(** ** Lemmas on the bytes *)
Lemma int_value_bytes n s z :
  (0 < n)%nat -> int_fits n s z = true -> int_value n s (be_bytes n z) = z.
Proof.
  intros Hn Hz. unfold int_value, int_fits in *. rewrite be_value_bytes.
  assert (0 < 8 * Z.of_nat n) by lia. destruct s; zify_bools.
  - rewrite wrapS_wrapU by done. apply wrapS_small; lia.
  - rewrite (wrapU_small _ z) by lia. apply wrapU_small. lia.
Qed.

Lemma wrapU_wrapS w z : 0 < w -> wrapU w (wrapS w z) = wrapU w z.
Proof. intros. unfold wrapU, wrapS. rewrite Zminus_mod_idemp_l. f_equal. lia. Qed.

(** The bytes of an integer depend on its low bits only. *)
Lemma be_bytes_low n z z' :
  wrapU (8 * Z.of_nat n) z = wrapU (8 * Z.of_nat n) z' -> be_bytes n z = be_bytes n z'.
Proof.
  intros E. rewrite <- (be_bytes_value (be_bytes n z)), <- (be_bytes_value (be_bytes n z')).
  by rewrite !length_be_bytes, !be_value_bytes, E.
Qed.

Lemma byte_code_1 ty : declared ty = true -> exists b,
  byte_code ty = [b] /\ ttype_of (int_value 1 true [b]) = ty.
Proof. intros H. destruct ty; try done; by eexists; split; vm_compute. Qed.

Lemma value_ok_type v : value_ok v = true -> declared (type_of v) = true /\ type_of v <> T_STOP.
Proof.
  destruct v as [|ty z| | |ty l| | | | | |]; try done; cbn [value_ok type_of].
  - by destruct ty.
  - intros Hv. zify_bools. destruct ty; try done.
Qed.

Lemma list_max_le_in {A} (f : A -> nat) l a : In a l -> (f a <= list_max (map f l))%nat.
Proof.
  intros Hin. pose proof (proj1 (list_max_le (map f l) (list_max (map f l))) ltac:(done)) as Hall.
  rewrite Forall_forall in Hall. apply Hall. by apply in_map.
Qed.
