(* ===== verification/Binary.v ===== *)
(** * The binary protocol

    [TBinaryProtocolT] of library/cpp/protocol/TBinaryProtocol.h and TBinaryProtocol.tcc:
    every write and read operation over a transport.

    The methods drop the results of [trans_->write] and [trans_->readAll].  After a
    short read a local variable keeps indeterminate bytes: the operation that uses
    it is undefined ([None]).  The string buffer of the object is allocated memory,
    its old bytes are values ([junk] where it is new).  Reference parameters are
    results, [None] where a failing call may leave them unset. *)

From S2P Require Import Prelude Transport Protocol Wire.
Local Open Scope Z_scope.

Module TBinaryProtocol.

(** [0xffff0000] and [0x80010000] as [int32_t]. *)
Definition VERSION_MASK : Z := i32 (Z.shiftl 0xffff 16).
Definition VERSION_1 : Z := i32 (Z.shiftl 0x8001 16).

Record t (T : Type) := Mk {
  trans_ : T;
  string_limit_ : Z;
  container_limit_ : Z;
  strict_read_ : bool;
  strict_write_ : bool;
  string_buf_ : option (list byte);
  string_buf_size_ : Z;
}.
Arguments Mk {T}.
Arguments trans_ {T}.
Arguments string_limit_ {T}.
Arguments container_limit_ {T}.
Arguments strict_read_ {T}.
Arguments strict_write_ {T}.
Arguments string_buf_ {T}.
Arguments string_buf_size_ {T}.

Definition new {T} (trans : T) : t T := Mk trans 0 0 false true None 0.
Definition new_limits {T} (trans : T) (string_limit container_limit : Z)
    (strict_read strict_write : bool) : t T :=
  Mk trans string_limit container_limit strict_read strict_write None 0.

Definition setStringSizeLimit {T} (string_limit : Z) (s : t T) : t T :=
  Mk (trans_ s) string_limit (container_limit_ s) (strict_read_ s) (strict_write_ s)
     (string_buf_ s) (string_buf_size_ s).
Definition setContainerSizeLimit {T} (container_limit : Z) (s : t T) : t T :=
  Mk (trans_ s) (string_limit_ s) container_limit (strict_read_ s) (strict_write_ s)
     (string_buf_ s) (string_buf_size_ s).
Definition setStrict {T} (strict_read strict_write : bool) (s : t T) : t T :=
  Mk (trans_ s) (string_limit_ s) (container_limit_ s) strict_read strict_write
     (string_buf_ s) (string_buf_size_ s).
Definition set_trans {T} (tr : T) (s : t T) : t T :=
  Mk tr (string_limit_ s) (container_limit_ s) (strict_read_ s) (strict_write_ s)
     (string_buf_ s) (string_buf_size_ s).
Definition set_string_buf {T} (b : list byte) (n : Z) (s : t T) : t T :=
  Mk (trans_ s) (string_limit_ s) (container_limit_ s) (strict_read_ s) (strict_write_ s)
     (Some b) n.

Section Operations.
Context `{!Allocator} {T : Type} `{!TTransport T}.

Abbreviation S := (t T).

(** *** Writing *)

(** [trans_->write(d, n); return n;] *)
Definition emit (d : list byte) (n : Z) : M S Z := fun s =>
  '(_, tr) ← t_write (trans_ s) d;
  Some (n, set_trans tr s).

(** [wsize += ret] after each call that did not fail. *)
Fixpoint calls (ms : list (M S Z)) (wsize : Z) : M S Z :=
  match ms with
  | [] => mret wsize
  | m :: ms => chkZ m (fun ret => calls ms (i32 (wsize + ret)))
  end.

Definition writeByte (byte : Z) : M S Z := emit (be_bytes 1 byte) 1.
Definition writeBool (value : bool) : M S Z := emit [if value then x01 else x00] 1.
Definition writeI16 (z : Z) : M S Z := emit (be_bytes 2 z) 2.
Definition writeI32 (z : Z) : M S Z := emit (be_bytes 4 z) 4.
Definition writeI64 (z : Z) : M S Z := emit (be_bytes 8 z) 8.
Definition writeU16 (z : Z) : M S Z := emit (be_bytes 2 z) 2.
Definition writeU32 (z : Z) : M S Z := emit (be_bytes 4 z) 4.
Definition writeU64 (z : Z) : M S Z := emit (be_bytes 8 z) 8.
Definition writeIPV4 (z : Z) : M S Z := emit (be_bytes 4 z) 4.

Definition writeIPADDR (ipaddress : ip_address) : M S Z :=
  match ipaddress with
  | IPv4 b => chkZ (writeByte AF_INET) (fun ret => _ ← emit b 0; mret (ret + 4))
  | IPv6 b => chkZ (writeByte AF_INET6) (fun ret => _ ← emit b 0; mret (ret + 16))
  end.

(** [dub] is the bits of the double. *)
Definition writeDouble (dub : Z) : M S Z := emit (be_bytes 8 dub) 8.

Definition writeString (str : list byte) : M S Z :=
  let size := u32 (zlen str) in
  chkZ (writeI32 (i32 size)) (fun result =>
  _ ← (if 0 <? size then emit (take (Z.to_nat size) str) 0 else mret 0);
  mret (i32 (result + size))).
Definition writeBinary (str : list byte) : M S Z := writeString str.
Definition writeXML (str : list byte) : M S Z := writeString str.
Definition writeUUID (uuid : list byte) : M S Z := emit uuid 16.

Definition writeMessageBegin (name : list byte) (messageType : TMessageType) (seqid : Z) : M S Z :=
  fun s =>
  if strict_write_ s then
    let version := i32 (Z.lor VERSION_1 (tmessage_code messageType)) in
    calls [writeI32 version; writeString name; writeI32 seqid] 0 s
  else
    calls [writeString name; writeByte (i8 (tmessage_code messageType)); writeI32 seqid] 0 s.
Definition writeMessageEnd : M S Z := mret 0.
Definition writeStructBegin (name : list byte) : M S Z := mret 0.
Definition writeStructEnd : M S Z := mret 0.
Definition writeSandeshBegin (name : list byte) : M S Z := writeString name.
Definition writeSandeshEnd : M S Z := mret 0.
Definition writeContainerElementBegin : M S Z := mret 0.
Definition writeContainerElementEnd : M S Z := mret 0.

Definition writeFieldBegin (name : list byte) (fieldType : TType) (fieldId : Z)
    (amap : option (list (list byte * list byte))) : M S Z :=
  calls [writeByte (i8 (ttype_code fieldType)); writeI16 fieldId] 0.
Definition writeFieldEnd : M S Z := mret 0.
Definition writeFieldStop : M S Z := writeByte (i8 (ttype_code T_STOP)).

Definition writeMapBegin (keyType valType : TType) (size : Z) : M S Z :=
  calls [writeByte (i8 (ttype_code keyType)); writeByte (i8 (ttype_code valType));
         writeI32 (i32 size)] 0.
Definition writeMapEnd : M S Z := mret 0.
Definition writeListBegin (elemType : TType) (size : Z) : M S Z :=
  calls [writeByte (i8 (ttype_code elemType)); writeI32 (i32 size)] 0.
Definition writeListEnd : M S Z := mret 0.
Definition writeSetBegin (elemType : TType) (size : Z) : M S Z :=
  calls [writeByte (i8 (ttype_code elemType)); writeI32 (i32 size)] 0.
Definition writeSetEnd : M S Z := mret 0.

(** *** Reading *)

(** [trans_->readAll(buf, n)] into an uninitialised [buf] whose value is then used. *)
Definition readAll (n : nat) : M S (list byte) := fun s =>
  '(_, data, tr) ← t_readAll (trans_ s) (Z.of_nat n);
  if (length data =? n)%nat then Some (data, set_trans tr s) else None.

Definition readInt (n : nat) (signed : bool) : M S (Z * option Z) :=
  b ← readAll n; mret (Z.of_nat n, Some (int_value n signed b)).

(** [if ((ret = m) < 0) return ret;] for a call with a reference parameter. *)
Definition chkV {A B} (m : M S (Z * option A)) (k : Z -> A -> M S (Z * option B))
    : M S (Z * option B) :=
  r ← m;
  if r.1 <? 0 then mret (r.1, None) else (a ← get r.2; k r.1 a).

Definition readBool : M S (Z * option bool) :=
  b ← readAll 1; mret (1, Some (negb (be_value b =? 0))).
Definition readByte : M S (Z * option Z) := readInt 1 true.
Definition readI16 : M S (Z * option Z) := readInt 2 true.
Definition readI32 : M S (Z * option Z) := readInt 4 true.
Definition readI64 : M S (Z * option Z) := readInt 8 true.
Definition readU16 : M S (Z * option Z) := readInt 2 false.
Definition readU32 : M S (Z * option Z) := readInt 4 false.
Definition readU64 : M S (Z * option Z) := readInt 8 false.
Definition readIPV4 : M S (Z * option Z) := readInt 4 false.

Definition readIPADDR : M S (Z * option ip_address) :=
  chkV readByte (fun ret version =>
  if version =? AF_INET then (b ← readAll 4; mret (ret + 4, Some (IPv4 b)))
  else if version =? AF_INET6 then (b ← readAll 16; mret (ret + 16, Some (IPv6 b)))
  else mret (-1, None)).

Definition readDouble : M S (Z * option Z) := readInt 8 false.

(** [std::realloc(string_buf_, n)] *)
Definition realloc (old : option (list byte)) (n : Z) : option (list byte) :=
  if alloc_ok n then Some (resize (Z.to_nat n) junk (default [] old)) else None.

(** The way without [borrow]: into the string buffer, and from there. *)
Definition readStringSlow (size : Z) : M S (Z * option (list byte)) := fun s =>
  s ← (if (string_buf_size_ s <? size) || bool_decide (string_buf_ s = None) then
         match realloc (string_buf_ s) (u32 size) with
         | None => Some (inr s)
         | Some b => Some (inl (set_string_buf b size s))
         end
       else Some (inl s));
  match s with
  | inr s => Some ((-1, None), s)
  | inl s =>
      '(_, data, tr) ← t_readAll (trans_ s) size;
      buf ← memcpy (default [] (string_buf_ s)) 0 data;
      str ← mread buf 0 size;
      Some ((size, Some str), set_trans tr (set_string_buf buf (string_buf_size_ s) s))
  end.

Definition readStringBody (size : Z) : M S (Z * option (list byte)) := fun s =>
  if size <? 0 then Some ((-1, None), s)
  else if (0 <? string_limit_ s) && (string_limit_ s <? size) then Some ((-1, None), s)
  else if size =? 0 then Some ((0, Some []), s)
  else
    '(borrow_buf, tr) ← t_borrow (trans_ s) (u32 size);
    match borrow_buf with
    | Some d => tr ← t_consume tr (u32 size); Some ((size, Some d), set_trans tr s)
    | None => readStringSlow size (set_trans tr s)
    end.

Definition readString : M S (Z * option (list byte)) :=
  chkV readI32 (fun ret size =>
  let result := ret in
  chkV (readStringBody size) (fun ret str => mret (i32 (result + ret), Some str))).
Definition readBinary : M S (Z * option (list byte)) := readString.
Definition readXML : M S (Z * option (list byte)) := readString.

(** The first bytes of [uuid.data] that are overwritten. *)
Definition readUUID : M S (Z * option (list byte)) := fun s =>
  '(_, data, tr) ← t_readAll (trans_ s) 16;
  Some ((16, Some data), set_trans tr s).

Definition readMessageBegin : M S (Z * option (list byte * TMessageType * Z)) :=
  chkV readI32 (fun ret sz =>
  let result := ret in
  if sz <? 0 then
    let version := i32 (Z.land sz VERSION_MASK) in
    if negb (version =? VERSION_1) then mret (-1, None)
    else
      let messageType := tmessage_of (Z.land sz 0xff) in
      chkV readString (fun ret name => let result := i32 (result + ret) in
      chkV readI32 (fun ret seqid => mret (i32 (result + ret), Some (name, messageType, seqid))))
  else fun s =>
    if strict_read_ s then Some ((-1, None), s)
    else
      chkV (readStringBody sz) (fun ret name => let result := i32 (result + ret) in
      chkV readByte (fun ret type => let result := i32 (result + ret) in
      chkV readI32 (fun ret seqid =>
        mret (i32 (result + ret), Some (name, tmessage_of type, seqid))))) s).
Definition readMessageEnd : M S Z := mret 0.
Definition readSandeshBegin : M S (Z * option (list byte)) := readString.
Definition readSandeshEnd : M S Z := mret 0.
Definition readContainerElementBegin : M S Z := mret 0.
Definition readContainerElementEnd : M S Z := mret 0.
Definition readStructBegin : M S (Z * list byte) := mret (0, []).
Definition readStructEnd : M S Z := mret 0.

Definition readFieldBegin : M S (Z * option (TType * Z)) :=
  chkV readByte (fun ret type =>
  let result := ret in
  let fieldType := ttype_of type in
  if bool_decide (fieldType = T_STOP) then mret (result, Some (fieldType, 0))
  else chkV readI16 (fun ret fieldId => mret (i32 (result + ret), Some (fieldType, fieldId)))).
Definition readFieldEnd : M S Z := mret 0.

(** [container_limit_ && sizei > container_limit_] *)
Definition over_limit (sizei : Z) (s : S) : bool :=
  negb (container_limit_ s =? 0) && (container_limit_ s <? sizei).

Definition readMapBegin : M S (Z * option (TType * TType * Z)) :=
  chkV readByte (fun ret k => let result := ret in
  chkV readByte (fun ret v => let result := i32 (result + ret) in
  chkV readI32 (fun ret sizei => let result := i32 (result + ret) in
  fun s =>
    if sizei <? 0 then Some ((-1, None), s)
    else if over_limit sizei s then Some ((-1, None), s)
    else Some ((result, Some (ttype_of k, ttype_of v, u32 sizei)), s)))).
Definition readMapEnd : M S Z := mret 0.

Definition readListBegin : M S (Z * option (TType * Z)) :=
  chkV readByte (fun ret e => let result := ret in
  chkV readI32 (fun ret sizei => let result := i32 (result + ret) in
  fun s =>
    if sizei <? 0 then Some ((-1, None), s)
    else if over_limit sizei s then Some ((-1, None), s)
    else Some ((result, Some (ttype_of e, u32 sizei)), s))).
Definition readListEnd : M S Z := mret 0.

(** A negative size is logged and goes on. *)
Definition readSetBegin : M S (Z * option (TType * Z)) :=
  chkV readByte (fun ret e => let result := ret in
  chkV readI32 (fun ret sizei => let result := i32 (result + ret) in
  fun s =>
    if sizei <? 0 then Some ((result, Some (ttype_of e, u32 sizei)), s)
    else if over_limit sizei s then Some ((-1, None), s)
    else Some ((result, Some (ttype_of e, u32 sizei)), s))).
Definition readSetEnd : M S Z := mret 0.

(** What [skip] calls. *)
Definition code {A} (m : M S (Z * A)) : M S Z := r ← m; mret r.1.
#[export] Instance protocol : Protocol S := {
  Protocol.readStructBegin := readStructBegin;
  Protocol.readStructEnd := readStructEnd;
  Protocol.readSandeshBegin := r ← readSandeshBegin; mret (r.1, default [] r.2);
  Protocol.readSandeshEnd := readSandeshEnd;
  Protocol.readFieldBegin old := r ← readFieldBegin; mret (r.1, fst <$> r.2);
  Protocol.readFieldEnd := readFieldEnd;
  Protocol.readMapBegin := r ← readMapBegin;
    mret (r.1, (fst ∘ fst <$> r.2, snd ∘ fst <$> r.2, snd <$> r.2));
  Protocol.readMapEnd := readMapEnd;
  Protocol.readListBegin := r ← readListBegin; mret (r.1, (fst <$> r.2, snd <$> r.2));
  Protocol.readListEnd := readListEnd;
  Protocol.readSetBegin := r ← readSetBegin; mret (r.1, (fst <$> r.2, snd <$> r.2));
  Protocol.readSetEnd := readSetEnd;
  Protocol.readBase ty :=
    match ty with
    | T_BOOL => code readBool
    | T_BYTE => code readByte
    | T_I16 => code readI16
    | T_I32 => code readI32
    | T_I64 => code readI64
    | T_U16 => code readU16
    | T_U32 => code readU32
    | T_U64 => code readU64
    | T_IPV4 => code readIPV4
    | T_IPADDR => code readIPADDR
    | T_DOUBLE => code readDouble
    | T_STRING => code readBinary
    | T_XML => code readXML
    | T_UUID => code readUUID
    | _ => mret 0
    end;
}.

End Operations.
End TBinaryProtocol.
