(* ===== verification/BinarySpec.v ===== *)
(** * The binary protocol writes and reads the wire format

    Against the interface [TransportLaws]: each write operation of
    [TBinaryProtocol] appends its part of the reference encoding [Wire.encode] and
    returns the number of bytes, each read operation takes it from the front and
    returns the value, and the generic [skip] takes exactly the bytes of a value. *)

From S2P Require Import Prelude Transport Protocol Wire Binary.
Import TBinaryProtocol.
Local Open Scope Z_scope.

Section Spec.
Context `{!Allocator} {T : Type} `{TT : TTransport T} `{TL : !TransportLaws T}.

Abbreviation S := (t T).

(** ** Writing *)

(** [s'] is [s] after [d] was appended. *)
Definition wrote (s s' : S) (d : list byte) : Prop :=
  t_ok (trans_ s') /\ t_contents (trans_ s') = t_contents (trans_ s) ++ d /\
  (forall n, 0 <= n -> t_room (trans_ s) (zlen d + n) -> t_room (trans_ s') n) /\
  s' = set_trans (trans_ s') s.
(** The transport takes [n] more bytes. *)
Definition can (s : S) (n : Z) : Prop := t_ok (trans_ s) /\ t_room (trans_ s) n /\ n < 2 ^ 31.

Definition emits (m : M S Z) (d : list byte) : Prop :=
  forall s, can s (zlen d) -> exists s', m s = Some (zlen d, s') /\ wrote s s' d.

Lemma bin_can_wrote s s' d n : can s (zlen d + n) -> 0 <= n -> wrote s s' d -> can s' n.
Proof. intros (?&?&?) ? (?&?&Hr&?). split; [done|]. split; [by apply Hr|lia]. Qed.
Lemma bin_can_le s n m : can s m -> 0 <= n <= m -> can s n.
Proof. intros (?&?&?) ?. split; [done|]. split; [eapply t_room_le; [..|done]; lia|lia]. Qed.

Lemma bin_wrote_app s1 s2 s3 a b : wrote s1 s2 a -> wrote s2 s3 b -> wrote s1 s3 (a ++ b).
Proof.
  intros (?&E1&R1&F1) (?&E2&R2&F2). split; [done|]. split; [by rewrite E2, E1, app_assoc|].
  split; [|by rewrite F2, F1]. intros n Hn Hr. apply R2; [done|]. apply R1; [lia|].
  rewrite length_app in Hr. by replace (zlen a + (zlen b + n)) with (Z.of_nat (length a + length b) + n) by lia.
Qed.
Lemma wrote_nil s n : can s n -> wrote s s [].
Proof. intros (?&_&_). split; [done|]. split; [by rewrite app_nil_r|]. by destruct s. Qed.

Lemma emit_ok s d n :
  can s (zlen d) -> exists s', emit d n s = Some (n, s') /\ wrote s s' d.
Proof.
  intros (Hok&Hr&Hsz). destruct (t_write_ok (trans_ s) d Hok Hr) as (tr&E&?&_&?&?).
  exists (set_trans tr s). unfold emit. rewrite E. done.
Qed.
Lemma emit_emits d n : zlen d = n -> emits (emit d n) d.
Proof. intros <- s. apply emit_ok. Qed.

Lemma ret_emits : emits (mret 0) [].
Proof. intros s Hc. exists s. split; [done|]. by eapply wrote_nil. Qed.

(** A call that must not fail, then the rest. *)
Lemma chkZ_emits m d k : emits m d -> forall s n,
  can s (zlen d + n) -> 0 <= n -> exists s', chkZ m k s = k (zlen d) s' /\ wrote s s' d /\ can s' n.
Proof.
  intros Hm s n Hc Hn. destruct (Hm s) as (s'&E&W); [by eapply bin_can_le; [exact Hc|lia]|].
  exists s'. rewrite (chkZ_run _ _ _ _ _ E) by lia. split; [done|]. split; [done|]. by eapply bin_can_wrote.
Qed.

Lemma calls_ok ms ds : Forall2 emits ms ds -> forall s w,
  0 <= w -> can s (zlen (concat ds)) -> w + zlen (concat ds) < 2 ^ 31 ->
  exists s', calls ms w s = Some (w + zlen (concat ds), s') /\ wrote s s' (concat ds).
Proof.
  induction 1 as [|m d ms ds Hm _ IH]; intros s w Hw Hc Hsz; cbn [calls concat] in *.
  - exists s. rewrite Z.add_0_r. split; [done|]. by eapply wrote_nil.
  - rewrite length_app, Nat2Z.inj_add in *.
    destruct (chkZ_emits m d (fun ret => calls ms (i32 (w + ret))) Hm s _ Hc) as (s1&->&W1&Hc1); [lia|].
    rewrite (wrapS_small 32) by lia.
    destruct (IH s1 (w + zlen d)) as (s2&->&W2); [lia|done|lia|].
    exists s2. split; [by do 2 f_equal; lia|]. by eapply bin_wrote_app.
Qed.
Lemma calls_emits ms ds : Forall2 emits ms ds -> emits (calls ms 0) (concat ds).
Proof.
  intros Hms s Hc. destruct (calls_ok ms ds Hms s 0) as (s'&E&W); [lia|done|destruct Hc as (_&_&?); lia|].
  by exists s'.
Qed.

Lemma emits_eq m d d' : emits m d -> d = d' -> emits m d'.
Proof. by intros ? <-. Qed.

(** *** The operations *)
Ltac emits_int := apply emit_emits; by rewrite length_be_bytes.

Lemma writeByte_emits z : emits (writeByte z) (be_bytes 1 z).
Proof. emits_int. Qed.
Lemma write_code_emits ty : emits (writeByte (i8 (ttype_code ty))) (byte_code ty).
Proof.
  eapply emits_eq; [apply writeByte_emits|]. apply be_bytes_low.
  by apply (wrapU_wrapS (8 * Z.of_nat 1)).
Qed.
Lemma writeI32_emits z : emits (writeI32 z) (be_bytes 4 z).
Proof. emits_int. Qed.
Lemma write_count_emits n : emits (writeI32 (i32 n)) (count n).
Proof.
  eapply emits_eq; [apply writeI32_emits|]. apply be_bytes_low.
  by apply (wrapU_wrapS (8 * Z.of_nat 4)).
Qed.

Lemma writeString_emits l : zlen l < 2 ^ 31 -> emits (writeString l) (count (zlen l) ++ l).
Proof.
  intros Hl s Hc. rewrite length_app, Nat2Z.inj_add in *. unfold writeString.
  rewrite (wrapU_small 32) by lia. rewrite Nat2Z.id, firstn_all.
  destruct (chkZ_emits _ _ (fun result : Z => _ ← (if 0 <? zlen l then emit l 0 else mret 0);
              mret (i32 (result + zlen l))) (write_count_emits (zlen l)) s _ Hc)
    as (s1&->&W1&Hc1); [lia|].
  assert (zlen (count (zlen l)) = 4) as E4 by (unfold count; by rewrite length_be_bytes).
  rewrite E4 in *. rewrite (wrapS_small 32) by (destruct Hc as (_&_&?); lia).
  destruct (Z.ltb_spec 0 (zlen l)).
  - destruct (emit_ok s1 l 0 Hc1) as (s2&E2&W2). rewrite (bind_run _ _ _ _ _ E2).
    exists s2. split; [done|]. by eapply bin_wrote_app.
  - destruct l; [|simpl in *; lia]. exists s1. split; [done|]. by rewrite app_nil_r.
Qed.

Lemma writeIPADDR_emits a : value_ok (VIp a) = true -> emits (writeIPADDR a) (encode (VIp a)).
Proof.
  intros Ha s Hc. destruct a as [b|b]; cbn [value_ok] in Ha; apply bool_decide_eq_true_1 in Ha;
    cbn [encode writeIPADDR] in *; rewrite length_app, Nat2Z.inj_add in *.
  - destruct (chkZ_emits _ _ (fun ret : Z => _ ← emit b 0; mret (ret + 4)) (writeByte_emits AF_INET) s _ Hc)
      as (s1&->&W1&Hc1); [lia|].
    destruct (emit_ok s1 b 0 Hc1) as (s2&E2&W2). rewrite (bind_run _ _ _ _ _ E2).
    exists s2. split; [by rewrite Ha|]. by eapply bin_wrote_app.
  - destruct (chkZ_emits _ _ (fun ret : Z => _ ← emit b 0; mret (ret + 16)) (writeByte_emits AF_INET6) s _ Hc)
      as (s1&->&W1&Hc1); [lia|].
    destruct (emit_ok s1 b 0 Hc1) as (s2&E2&W2). rewrite (bind_run _ _ _ _ _ E2).
    exists s2. split; [by rewrite Ha|]. by eapply bin_wrote_app.
Qed.

(** *** A whole value: the calls of the generated writers *)
Definition write_int (ty : TType) (z : Z) : M S Z :=
  match ty with
  | T_BYTE => writeByte z | T_I16 => writeI16 z | T_I32 => writeI32 z | T_I64 => writeI64 z
  | T_U16 => writeU16 z | T_U32 => writeU32 z | T_U64 => writeU64 z | T_IPV4 => writeIPV4 z
  | _ => mret (-1)
  end.

Fixpoint write_value (v : value) : M S Z :=
  let field f := calls [writeFieldBegin [] (type_of f.2) f.1 None; write_value f.2; writeFieldEnd] 0 in
  match v with
  | VBool b => writeBool b
  | VInt ty z => write_int ty z
  | VIp a => writeIPADDR a
  | VDouble bits => writeDouble bits
  | VBytes T_XML l => writeXML l
  | VBytes _ l => writeString l
  | VUuid l => writeUUID l
  | VStruct fs =>
      calls ([writeStructBegin []] ++ map field fs ++ [writeFieldStop; writeStructEnd]) 0
  | VSandesh name fs =>
      calls ([writeSandeshBegin name] ++ map field fs ++ [writeFieldStop; writeSandeshEnd]) 0
  | VList ety vs => calls ([writeListBegin ety (zlen vs)] ++ map write_value vs ++ [writeListEnd]) 0
  | VSet ety vs => calls ([writeSetBegin ety (zlen vs)] ++ map write_value vs ++ [writeSetEnd]) 0
  | VMap kty vty kvs =>
      calls ([writeMapBegin kty vty (zlen kvs)] ++
             map (fun kv => calls [write_value kv.1; write_value kv.2] 0) kvs ++ [writeMapEnd]) 0
  end.

Lemma write_int_emits ty z : value_ok (VInt ty z) = true -> emits (write_int ty z) (encode (VInt ty z)).
Proof. destruct ty; intros Hv; try done; cbn [encode int_info write_int]; emits_int. Qed.

Lemma Forall2_map {A} (f : A -> M S Z) (g : A -> list byte) l :
  Forall (fun a => emits (f a) (g a)) l -> Forall2 emits (map f l) (map g l).
Proof. induction 1; constructor; done. Qed.

Lemma parts_emits {A} (f : A -> M S Z) (g : A -> list byte) first last dfirst dlast l :
  emits first dfirst -> Forall2 emits last dlast -> Forall (fun a => emits (f a) (g a)) l ->
  emits (calls ([first] ++ map f l ++ last) 0) (dfirst ++ concat (map g l) ++ concat dlast).
Proof.
  intros Hf Hl Hms. eapply emits_eq.
  - apply calls_emits. constructor; [exact Hf|]. apply Forall2_app; [by apply Forall2_map|exact Hl].
  - cbn [app concat]. by rewrite concat_app.
Qed.

Lemma header_emits ms ds : Forall2 emits ms ds -> forall d, concat ds = d -> emits (calls ms 0) d.
Proof. intros ? d <-. by apply calls_emits. Qed.

Lemma fields_emits first dfirst last fs :
  emits first dfirst -> emits last [] ->
  forallb (fun f : Z * value => int_fits 2 true f.1 && value_ok f.2) fs = true ->
  Forall (fun f => value_ok f.2 = true -> emits (write_value f.2) (encode f.2)) fs ->
  emits (calls ([first] ++ map (fun f => calls [writeFieldBegin [] (type_of f.2) f.1 None;
                                   write_value f.2; writeFieldEnd] 0) fs ++ [writeFieldStop; last]) 0)
        (dfirst ++ encode_fields fs).
Proof.
  intros Hf Hlast Hok Hfs. eapply emits_eq.
  - apply (parts_emits _ encode_field first _ dfirst [byte_code T_STOP; []]); [done| |].
    + repeat constructor; [apply write_code_emits|done].
    + apply Forall_forall. intros f Hin. rewrite Forall_forall in Hfs.
      apply (header_emits _ [byte_code (type_of f.2) ++ be_bytes 2 f.1; encode f.2; []]);
        [|unfold encode_field; cbn [concat]; by rewrite app_nil_r, <- !app_assoc].
      repeat constructor; [| |apply ret_emits].
      * apply (header_emits _ [byte_code (type_of f.2); be_bytes 2 f.1]); [repeat constructor; [apply write_code_emits|]|
          cbn [concat]; by rewrite app_nil_r]. emits_int.
      * apply Hfs; [done|]. apply forallb_forall with (x := f) in Hok; [|done].
        by zify_bools.
  - unfold encode_fields. cbn [concat]. by rewrite app_nil_r.
Qed.

Lemma elements_begin_emits ety n :
  emits (calls [writeByte (i8 (ttype_code ety)); writeI32 (i32 n)] 0) (byte_code ety ++ count n).
Proof.
  apply (header_emits _ [byte_code ety; count n]); [|cbn [concat]; by rewrite app_nil_r].
  repeat constructor; [apply write_code_emits|apply write_count_emits].
Qed.

Lemma elements_emits first dfirst last ety vs :
  emits first dfirst -> emits last [] ->
  forallb (fun v => bool_decide (type_of v = ety) && value_ok v) vs = true ->
  Forall (fun v => value_ok v = true -> emits (write_value v) (encode v)) vs ->
  emits (calls ([first] ++ map write_value vs ++ [last]) 0) (dfirst ++ concat (map encode vs)).
Proof.
  intros Hf Hlast Hok Hvs. eapply emits_eq; [apply (parts_emits _ encode first _ dfirst [[]])|].
  - done.
  - by repeat constructor.
  - rewrite Forall_forall in *. intros v Hin. apply Hvs; [done|].
    apply forallb_forall with (x := v) in Hok; [|done]. by zify_bools.
  - cbn [concat]. by rewrite app_nil_r.
Qed.

(** Everything a generated writer emits is the reference encoding, and the number it
    returns is its length. *)
Lemma write_value_emits v : value_ok v = true -> emits (write_value v) (encode v).
Proof.
  induction v as [b|ty z|a|bits|ty l|l|fs IH|name fs IH|ety vs IH|ety vs IH|kty vty kvs IH]
    using value_parts_ind; intros Hv; cbn [write_value].
  - by apply emit_emits.
  - by apply write_int_emits.
  - by apply writeIPADDR_emits.
  - cbn [encode]. emits_int.
  - cbn [value_ok encode] in *. zify_bools. destruct ty; by apply writeString_emits.
  - cbn [value_ok encode] in *. zify_bools. apply emit_emits. lia.
  - apply (fields_emits _ []); [apply ret_emits..|done|done].
  - cbn [value_ok] in Hv. zify_bools.
    apply (fields_emits _ (count (zlen name) ++ name)); [by apply writeString_emits|apply ret_emits|done|done].
  - cbn [value_ok] in Hv. zify_bools. eapply emits_eq;
      [apply (elements_emits _ (byte_code ety ++ count (zlen vs)) _ ety); [apply elements_begin_emits|apply ret_emits|done|done]|].
    cbn [encode]. by rewrite <- app_assoc.
  - cbn [value_ok] in Hv. zify_bools. eapply emits_eq;
      [apply (elements_emits _ (byte_code ety ++ count (zlen vs)) _ ety); [apply elements_begin_emits|apply ret_emits|done|done]|].
    cbn [encode]. by rewrite <- app_assoc.
  - cbn [value_ok] in Hv. zify_bools. cbn [encode].
    eapply emits_eq; [apply (parts_emits _ (fun kv => encode kv.1 ++ encode kv.2) _ _
                        (byte_code kty ++ byte_code vty ++ count (zlen kvs)) [[]])|].
    + apply (header_emits _ [byte_code kty; byte_code vty; count (zlen kvs)]);
        [|cbn [concat]; by rewrite app_nil_r].
      repeat constructor; [apply write_code_emits..|apply write_count_emits].
    + repeat constructor. apply ret_emits.
    + rewrite Forall_forall in *. intros kv Hin. destruct (IH kv Hin) as [IH1 IH2].
      match goal with Hok : forallb _ kvs = true |- _ => apply forallb_forall with (x := kv) in Hok; [|done] end.
      zify_bools. apply (header_emits _ [encode kv.1; encode kv.2]); [|cbn [concat]; by rewrite app_nil_r].
      repeat constructor; auto.
    + cbn [concat]. rewrite app_nil_r. by rewrite <- !app_assoc.
Qed.

(** ** Reading *)

(** The buffer for strings is as large as it is said to be. *)
Definition string_room (s : S) : Prop := string_buf_size_ s <= zlen (default [] (string_buf_ s)).

(** A reader in front of [l], without limits. *)
Definition ready (s : S) (l : list byte) : Prop :=
  t_readable (trans_ s) /\ t_contents (trans_ s) = l /\ string_limit_ s <= 0 /\ container_limit_ s = 0 /\ string_room s.

Definition reads {A} (m : M S (Z * option A)) (d : list byte) (a : A) : Prop :=
  forall s rest, ready s (d ++ rest) -> zlen d < 2 ^ 31 ->
  exists s', m s = Some ((zlen d, Some a), s') /\ ready s' rest.
Definition takes (m : M S Z) (d : list byte) : Prop :=
  forall s rest, ready s (d ++ rest) -> zlen d < 2 ^ 31 ->
  exists s', m s = Some (zlen d, s') /\ ready s' rest.

Lemma ready_trans s tr l :
  string_limit_ s <= 0 -> container_limit_ s = 0 -> string_room s -> t_readable tr -> t_contents tr = l ->
  ready (set_trans tr s) l.
Proof. done. Qed.

Lemma take_front (d rest : list byte) n : n = zlen d -> take (Z.to_nat n) (d ++ rest) = d.
Proof. intros ->. rewrite Nat2Z.id. apply take_app_length. Qed.
Lemma drop_front (d rest : list byte) n : n = zlen d -> drop (Z.to_nat n) (d ++ rest) = rest.
Proof. intros ->. rewrite Nat2Z.id. apply drop_app_length. Qed.

Lemma t_readAll_front s d rest :
  ready s (d ++ rest) -> zlen d < 2 ^ 31 ->
  exists tr, t_readAll (trans_ s) (zlen d) = Some (zlen d, d, tr) /\ ready (set_trans tr s) rest.
Proof.
  intros (Hok&Hc&?&?&?) Hsz.
  destruct (t_readAll_ok (trans_ s) (zlen d)) as (tr&E&Hok'&Hc'); [done|lia|rewrite Hc, length_app; lia|].
  rewrite Hc, (take_front d rest _ eq_refl) in E. rewrite Hc, (drop_front d rest _ eq_refl) in Hc'.
  exists tr. split; [done|]. by apply ready_trans.
Qed.

Lemma readAll_front s d rest :
  ready s (d ++ rest) -> zlen d < 2 ^ 31 ->
  exists s', readAll (length d) s = Some (d, s') /\ ready s' rest.
Proof.
  intros Hr Hsz. destruct (t_readAll_front s d rest Hr Hsz) as (tr&E&Hr').
  unfold readAll. rewrite E. cbn [mbind option_bind]. rewrite Nat.eqb_refl. by eexists.
Qed.

Lemma readInt_reads n sg z :
  (0 < n)%nat -> int_fits n sg z = true -> reads (readInt n sg) (be_bytes n z) z.
Proof.
  intros Hn Hz s rest Hr Hsz. destruct (readAll_front s _ rest Hr Hsz) as (s'&E&Hr').
  exists s'. split; [|done]. unfold readInt. rewrite length_be_bytes in *.
  rewrite (bind_run _ _ _ _ _ E). by rewrite int_value_bytes.
Qed.

Lemma chkV_reads {A B} (m : M S (Z * option A)) d a (k : Z -> A -> M S (Z * option B)) s rest r l :
  reads m d a -> ready s (d ++ rest) -> zlen d < 2 ^ 31 ->
  (forall s1, ready s1 rest -> exists s', k (zlen d) a s1 = Some (r, s') /\ ready s' l) ->
  exists s', chkV m k s = Some (r, s') /\ ready s' l.
Proof.
  intros Hm Hr Hsz Hk. destruct (Hm s rest Hr Hsz) as (s'&E&Hr').
  unfold chkV. rewrite (bind_run _ _ _ _ _ E). cbn [fst snd].
  destruct (Z.ltb_spec (zlen d) 0); [lia|]. cbn [get]. by apply Hk.
Qed.

Lemma reads_takes {A} (m : M S (Z * option A)) d a : reads m d a -> takes (code m) d.
Proof.
  intros Hm s rest Hr Hsz. destruct (Hm s rest Hr Hsz) as (s'&E&Hr'). exists s'. split; [|done].
  unfold code. by rewrite (bind_run _ _ _ _ _ E).
Qed.

Lemma readBool_reads (b : bool) : reads readBool [if b then x01 else x00] b.
Proof.
  intros s rest Hr Hsz. destruct (readAll_front s _ rest Hr Hsz) as (s'&E&Hr').
  exists s'. split; [|done]. unfold readBool. rewrite (bind_run _ _ _ _ _ E). by destruct b.
Qed.

Lemma readByte_code_reads ty : declared ty = true -> reads readByte (byte_code ty) (ttype_code ty).
Proof. intros Hd. apply readInt_reads; [lia|]. by destruct ty. Qed.
Lemma read_count_reads n : 0 <= n < 2 ^ 31 -> reads readI32 (count n) n.
Proof. intros. apply readInt_reads; [lia|]. unfold int_fits. change (8 * Z.of_nat 4 - 1) with 31. lia. Qed.

Lemma readIPADDR_reads a : value_ok (VIp a) = true -> reads readIPADDR (encode (VIp a)) a.
Proof.
  intros Ha s rest Hr Hsz.
  destruct a as [b|b]; cbn [value_ok encode] in *; apply bool_decide_eq_true_1 in Ha;
    rewrite <- app_assoc in Hr; rewrite length_app, Nat2Z.inj_add in *;
    (eapply chkV_reads; [|exact Hr|lia|]; [by apply readInt_reads; [lia|]|]); intros s1 Hr1;
    destruct (readAll_front s1 b rest Hr1) as (s2&E2&Hr2); try lia;
    rewrite Ha in *; exists s2; (split; [|done]); cbn [Z.eqb Pos.eqb AF_INET AF_INET6];
    by rewrite (bind_run _ _ _ _ _ E2).
Qed.

(** Without a loan the bytes come through the buffer for strings. *)
Lemma readStringSlow_reads l :
  plenty -> 0 < zlen l < 2 ^ 31 -> forall s rest, ready s (l ++ rest) ->
  exists s', readStringSlow (zlen l) s = Some ((zlen l, Some l), s') /\ ready s' rest.
Proof.
  intros Hp Hl s rest Hr.
  assert (exists b n, (if (string_buf_size_ s <? zlen l) || bool_decide (string_buf_ s = None) then
      match realloc (string_buf_ s) (u32 (zlen l)) with None => Some (inr s) | Some b => Some (inl (set_string_buf b (zlen l) s)) end
    else Some (inl s)) = Some (inl (A := S) (B := S) (set_string_buf b n s)) /\ n <= zlen b /\ zlen l <= n) as (b&n&E&Hb&Hn).
  { destruct Hr as (_&_&_&_&Hroom). unfold string_room in Hroom. unfold realloc. rewrite (wrapU_small 32), Hp by lia.
    destruct ((string_buf_size_ s <? zlen l) || bool_decide (string_buf_ s = None)) eqn:Eg.
    - eexists _, _. split; [done|]. rewrite length_resize. lia.
    - apply orb_false_iff in Eg as [Eg%Z.ltb_ge Es%bool_decide_eq_false]. destruct s as [? ? ? ? ? [b|] sz]; [|done].
      exists b, sz. split; [done|]. cbn in *. lia. }
  unfold readStringSlow. rewrite E. cbn [mbind option_bind].
  assert (ready (set_string_buf b n s) (l ++ rest)) as Hr1 by (destruct Hr as (?&?&?&?&_); by split_and!).
  destruct (t_readAll_front _ l rest Hr1) as (tr&->&Hr2); [lia|]. cbn [mbind option_bind].
  change (default [] (string_buf_ (set_string_buf b n s))) with b.
  destruct (memcpy b 0 l) as [b'|] eqn:Ec; [|rewrite memcpy_Some in Ec by lia; done]. cbn [mbind option_bind].
  pose proof (memcpy_length _ _ _ _ Ec) as El. pose proof (memcpy_take _ _ _ _ Ec) as Et.
  rewrite mread_Some by (unfold id; cbn; lia). cbn [mbind option_bind]. eexists. split.
  - change (Z.to_nat 0) with 0%nat in *. rewrite Nat.add_0_l, take_0, app_nil_l in Et. by rewrite drop_0, Nat2Z.id, Et.
  - destruct Hr2 as (?&?&?&?&_). split_and!; [done..|]. unfold string_room. cbn. lia.
Qed.

Lemma readStringBody_reads l :
  zlen l < 2 ^ 31 -> forall s rest, ready s (l ++ rest) ->
  exists s', readStringBody (zlen l) s = Some ((zlen l, Some l), s') /\ ready s' rest.
Proof.
  intros Hl s rest (Hok&Hc&Hsl&Hcl&Hroom). unfold readStringBody.
  destruct (Z.ltb_spec (zlen l) 0); [lia|].
  destruct (Z.ltb_spec 0 (string_limit_ s)); [lia|]. cbn [andb].
  destruct (Z.eqb_spec (zlen l) 0).
  - destruct l; [|simpl in *; lia]. exists s. done.
  - rewrite (wrapU_small 32) by lia.
    destruct (t_borrow_ok (trans_ s) (zlen l)) as (r&tr&->&Hok'&Hc'&Hbr); [done|lia|].
    cbn [mbind option_bind]. destruct r as [b|].
    2:{ destruct Hbr as [Hbr|Hp]; [rewrite Hc, length_app in Hbr; lia|]. apply readStringSlow_reads; [done|lia|].
        apply ready_trans; [done..|]. by rewrite Hc'. }
    destruct Hbr as (->&_&tr'&->&Hok''&Hc''). cbn [mbind option_bind].
    rewrite Hc, (take_front l rest _ eq_refl). eexists. split; [done|]. apply ready_trans; [done..|].
    by rewrite Hc'', Hc, (drop_front l rest _ eq_refl).
Qed.

Lemma readString_reads l : zlen l < 2 ^ 31 -> reads readString (count (zlen l) ++ l) l.
Proof.
  intros Hl s rest Hr Hsz. rewrite <- app_assoc in Hr. rewrite length_app, Nat2Z.inj_add in *.
  eapply chkV_reads; [|exact Hr|lia|]; [apply read_count_reads; lia|]. intros s1 Hr1.
  destruct (readStringBody_reads l Hl s1 rest Hr1) as (s2&E2&Hr2).
  exists s2. split; [|done]. cbn zeta. unfold chkV. rewrite (bind_run _ _ _ _ _ E2). cbn [fst snd].
  destruct (Z.ltb_spec (zlen l) 0); [lia|]. cbn [get].
  unfold mbind, M_bind, mret, M_ret. by rewrite (wrapS_small 32) by lia.
Qed.

Lemma readUUID_reads l : length l = 16%nat -> reads readUUID l l.
Proof.
  intros Hl s rest Hr Hsz. destruct (t_readAll_front s l rest Hr Hsz) as (tr&E&Hr').
  exists (set_trans tr s). split; [|done]. unfold readUUID. rewrite Hl in *. change 16 with (Z.of_nat 16). by rewrite E.
Qed.

(** *** Begins of fields and containers *)
Lemma readFieldBegin_reads f :
  declared (type_of f.2) = true -> type_of f.2 <> T_STOP -> int_fits 2 true f.1 = true ->
  reads readFieldBegin (byte_code (type_of f.2) ++ be_bytes 2 f.1) (type_of f.2, f.1).
Proof.
  intros Hd Hns Hid s rest Hr Hsz. rewrite <- app_assoc in Hr. rewrite length_app, Nat2Z.inj_add in *.
  eapply chkV_reads; [|exact Hr|lia|]; [by apply readByte_code_reads|]. intros s1 Hr1.
  cbn zeta. rewrite ttype_of_code by done. rewrite bool_decide_eq_false_2 by done.
  eapply chkV_reads; [|exact Hr1|lia|]; [by apply readInt_reads; [lia|]|]. intros s2 Hr2.
  exists s2. split; [|done]. unfold mret, M_ret. by rewrite (wrapS_small 32) by lia.
Qed.

Lemma readFieldBegin_stop : reads readFieldBegin (byte_code T_STOP) (T_STOP, 0).
Proof.
  intros s rest Hr Hsz. eapply chkV_reads; [|exact Hr|lia|]; [by apply readByte_code_reads|].
  intros s1 Hr1. by exists s1.
Qed.

Lemma not_over_limit s l n : ready s l -> over_limit n s = false.
Proof. intros (_&_&_&E&_). unfold over_limit. by rewrite E. Qed.

Lemma elements_begin_reads ety n :
  declared ety = true -> 0 <= n < 2 ^ 31 ->
  reads readListBegin (byte_code ety ++ count n) (ety, n) /\
  reads readSetBegin (byte_code ety ++ count n) (ety, n).
Proof.
  intros Hd Hn. split; intros s rest Hr Hsz; rewrite <- app_assoc in Hr;
    rewrite length_app, Nat2Z.inj_add in *;
    (eapply chkV_reads; [|exact Hr|lia|]; [by apply readByte_code_reads|]); intros s1 Hr1;
    (eapply chkV_reads; [|exact Hr1|lia|]; [by apply read_count_reads|]); intros s2 Hr2;
    exists s2; (split; [|done]); cbn beta zeta; rewrite (not_over_limit s2 rest n Hr2);
    (destruct (Z.ltb_spec n 0); [lia|]);
    by rewrite ttype_of_code, (wrapS_small 32), (wrapU_small 32) by (done || lia).
Qed.

Lemma readMapBegin_reads kty vty n :
  declared kty = true -> declared vty = true -> 0 <= n < 2 ^ 31 ->
  reads readMapBegin (byte_code kty ++ byte_code vty ++ count n) (kty, vty, n).
Proof.
  intros Hk Hv Hn s rest Hr Hsz. rewrite <- !app_assoc in Hr. rewrite !length_app, !Nat2Z.inj_add in *.
  eapply chkV_reads; [|exact Hr|lia|]; [by apply readByte_code_reads|]. intros s1 Hr1.
  eapply chkV_reads; [|exact Hr1|lia|]; [by apply readByte_code_reads|]. intros s2 Hr2.
  eapply chkV_reads; [|exact Hr2|lia|]; [by apply read_count_reads|]. intros s3 Hr3.
  exists s3. split; [|done]. cbn beta zeta. rewrite (not_over_limit s3 rest n Hr3).
  destruct (Z.ltb_spec n 0); [lia|].
  rewrite !ttype_of_code, (wrapU_small 32), (wrapS_small 32 (_ + _)), (wrapS_small 32)
    by (done || lia || (rewrite (wrapS_small 32); lia)).
  by do 4 f_equal; lia.
Qed.

(** ** [skip] *)
Lemma chkZ_takes m d (k : Z -> M S Z) s rest r l :
  takes m d -> ready s (d ++ rest) -> zlen d < 2 ^ 31 ->
  (forall s1, ready s1 rest -> exists s', k (zlen d) s1 = Some (r, s') /\ ready s' l) ->
  exists s', chkZ m k s = Some (r, s') /\ ready s' l.
Proof.
  intros Hm Hr Hsz Hk. destruct (Hm s rest Hr Hsz) as (s'&E&Hr').
  rewrite (chkZ_run _ _ _ _ _ E) by lia. by apply Hk.
Qed.
Lemma chkR_reads {A B} (m : M S (Z * option A)) d a (f : option A -> B) (k : Z -> B -> M S Z) s rest r l :
  reads m d a -> ready s (d ++ rest) -> zlen d < 2 ^ 31 ->
  (forall s1, ready s1 rest -> exists s', k (zlen d) (f (Some a)) s1 = Some (r, s') /\ ready s' l) ->
  exists s', chkR (r ← m; mret (r.1, f r.2)) k s = Some (r, s') /\ ready s' l.
Proof.
  intros Hm Hr Hsz Hk. destruct (Hm s rest Hr Hsz) as (s'&E&Hr').
  rewrite (chkR_run _ k s (zlen d) (f (Some a)) s'); [by apply Hk| |lia].
  by rewrite (bind_run _ _ _ _ _ E).
Qed.

Lemma skip_finish_ret n s : 0 <= n < 2 ^ 31 -> skip_finish (mret 0) n s = Some (n, s : S).
Proof.
  intros. unfold skip_finish. rewrite (chkZ_run _ _ s 0 s) by done.
  unfold mret, M_ret. by rewrite Z.add_0_r, (wrapS_small 32) by lia.
Qed.

Lemma skip_fields_takes (sk : TType -> M S Z) fs : forall n ft result s rest,
  forallb (fun f : Z * value => int_fits 2 true f.1 && value_ok f.2) fs = true ->
  Forall (fun f => takes (sk (type_of f.2)) (encode f.2)) fs -> (length fs < n)%nat ->
  ready s (encode_fields fs ++ rest) -> 0 <= result -> result + zlen (encode_fields fs) < 2 ^ 31 ->
  exists s', skip_fields sk n ft result (skip_finish (mret 0)) s
      = Some (result + zlen (encode_fields fs), s') /\ ready s' rest.
Proof.
  unfold encode_fields. induction fs as [|f fs IH]; intros n ft result s rest Hok Hsk Hn Hr H0' Hsz;
    (destruct n as [|n]; [simpl in Hn; lia|]); cbn [skip_fields].
  - cbn [map concat app] in *.
    eapply (chkR_reads _ _ _ (fmap fst)); [apply readFieldBegin_stop|exact Hr|done|]. intros s1 Hr1.
    exists s1. split; [|done]. change (zlen (byte_code T_STOP)) with 1 in *.
    cbn [fmap option_fmap option_map fst get].
    rewrite (bind_run _ _ _ _ _ (eq_refl (Some (T_STOP, s1)))).
    rewrite bool_decide_eq_true_2, (wrapS_small 32), skip_finish_ret by (done || lia). done.
  - cbn [map concat forallb] in *. apply andb_true_iff in Hok as [[Hid Hv]%andb_true_iff Hok].
    apply Forall_cons_iff in Hsk as [Hsk1 Hsk]. unfold encode_field at 1 in Hr.
    unfold encode_field at 1 in Hsz. unfold encode_field at 1.
    rewrite !length_app, !Nat2Z.inj_add in *. rewrite <- !app_assoc in Hr. rewrite app_assoc in Hr.
    destruct (value_ok_type f.2 Hv) as [Hd Hns].
    eapply (chkR_reads _ _ _ (fmap fst)); [by apply readFieldBegin_reads|exact Hr|rewrite length_app; lia|].
    intros s1 Hr1. cbn [fmap option_fmap option_map fst get].
    rewrite (bind_run _ _ _ _ _ (eq_refl (Some (type_of f.2, s1)))).
    rewrite bool_decide_eq_false_2 by done. rewrite length_app, Nat2Z.inj_add.
    eapply chkZ_takes; [exact Hsk1|exact Hr1|lia|]. intros s2 Hr2.
    rewrite (chkZ_run _ _ s2 0 s2) by done.
    rewrite (wrapS_small 32 (result + _)), (wrapS_small 32 (result + _ + _)), (wrapS_small 32) by lia.
    rewrite app_assoc in Hr2.
    destruct (IH n (Some (type_of f.2)) (result + (zlen (byte_code (type_of f.2)) + zlen (be_bytes 2 f.1))
                + zlen (encode f.2) + 0) s2 rest Hok Hsk) as (s3&E3&Hr3);
      [simpl in Hn; lia|done|lia|lia|].
    exists s3. rewrite E3. split; [by do 2 f_equal; lia|done].
Qed.

(** One turn of the loop over a container takes [d]. *)
Definition round (once : list (M S Z)) (d : list byte) : Prop :=
  forall result s rest k, ready s (d ++ rest) -> 0 <= result -> result + zlen d < 2 ^ 31 ->
  exists s', skip_elements once result k s = k (result + zlen d) s' /\ ready s' rest.

Lemma round_nil : round [] [].
Proof. intros result s rest k Hr ??. exists s. cbn. by rewrite Z.add_0_r. Qed.
Lemma round_cons m ms d e : takes m d -> round ms e -> round (m :: ms) (d ++ e).
Proof.
  intros Hm Hms result s rest k Hr H0' Hsz. rewrite <- app_assoc in Hr.
  rewrite length_app, Nat2Z.inj_add in *. cbn [skip_elements].
  destruct (Hm s _ Hr) as (s1&E1&Hr1); [lia|]. rewrite (chkZ_run _ _ _ _ _ E1) by lia.
  rewrite (wrapS_small 32) by lia.
  destruct (Hms (result + zlen d) s1 rest k Hr1) as (s2&->&Hr2); [lia|lia|].
  exists s2. split; [by f_equal; lia|done].
Qed.

Lemma skip_container_takes once ds : forall n i size result s rest,
  Forall (round once) ds -> i + zlen ds = size -> 0 <= i -> size < 2 ^ 31 -> (length ds <= n)%nat ->
  ready s (concat ds ++ rest) -> 0 <= result -> result + zlen (concat ds) < 2 ^ 31 ->
  exists s', skip_container once n i size result (skip_finish (mret 0)) s
      = Some (result + zlen (concat ds), s') /\ ready s' rest.
Proof.
  induction ds as [|d ds IH]; intros n i size result s rest Hds Hi Hi0 Hs Hn Hr H0' Hsz.
  - cbn in Hi. destruct (Z.ltb_spec i size) as [|E]; [lia|]. cbn [concat length] in *.
    exists s. split; [|done]. rewrite Z.add_0_r in *.
    destruct n; cbn [skip_container]; (destruct (Z.ltb_spec i size); [lia|]); by rewrite skip_finish_ret.
  - apply Forall_cons_iff in Hds as [Hd Hds]. cbn [concat length] in *.
    rewrite length_app, Nat2Z.inj_add in *. rewrite <- app_assoc in Hr.
    destruct n as [|n]; [lia|]. cbn [skip_container].
    destruct (Z.ltb_spec i size); [|lia]. rewrite (wrapU_small 32) by lia.
    edestruct Hd as (s1&->&Hr1); [exact Hr|lia|lia|].
    destruct (IH n (i + 1) size (result + zlen d) s1 rest Hds) as (s2&->&Hr2); [lia..|done|lia|lia|].
    exists s2. split; [by do 2 f_equal; lia|done].
Qed.

(** What [skip] reads of a value that is no container. *)
Definition base_read (v : value) : M S Z := Protocol.readBase (type_of v).
Lemma base_takes v :
  value_ok v = true ->
  match v with VStruct _ | VSandesh _ _ | VList _ _ | VSet _ _ | VMap _ _ _ => True
  | _ => takes (base_read v) (encode v) end.
Proof.
  intros Hv. destruct v as [b|ty z|a|bits|ty l|l| | | | |]; try done; unfold base_read.
  - eapply reads_takes, readBool_reads.
  - cbn [value_ok type_of encode] in *.
    destruct ty; try done; (eapply reads_takes; apply readInt_reads; [lia|exact Hv]).
  - by eapply reads_takes, readIPADDR_reads.
  - eapply reads_takes. apply readInt_reads; [lia|exact Hv].
  - cbn [value_ok type_of encode] in *. zify_bools.
    destruct ty; try done; by eapply reads_takes, readString_reads.
  - cbn [value_ok type_of encode] in *. zify_bools. by eapply reads_takes, readUUID_reads.
Qed.

Lemma takes_eq m d d' : takes m d -> d = d' -> takes m d'.
Proof. by intros ? <-. Qed.

(** [skip] of a struct, past its begin. *)
Lemma skip_struct_takes fuel fs :
  forallb (fun f : Z * value => int_fits 2 true f.1 && value_ok f.2) fs = true ->
  Forall (fun f => forall fuel, value_ok f.2 = true -> (fuel_for f.2 <= fuel)%nat ->
            takes (skip fuel (type_of f.2)) (encode f.2)) fs ->
  (Nat.max (Datatypes.S (length fs)) (list_max (map (fun f => fuel_for f.2) fs)) <= fuel)%nat ->
  forall result s rest, 0 <= result -> ready s (encode_fields fs ++ rest) ->
  result + zlen (encode_fields fs) < 2 ^ 31 ->
  exists s', skip_fields (skip fuel) fuel None result (skip_finish (mret 0)) s
    = Some (result + zlen (encode_fields fs), s') /\ ready s' rest.
Proof.
  intros Hok IH Hfuel result s rest H0' Hr Hsz. apply skip_fields_takes; [done| |lia|done..].
  rewrite Forall_forall in *. intros f Hin. apply IH; [done| |].
  - apply forallb_forall with (x := f) in Hok; [|done]. by zify_bools.
  - pose proof (list_max_le_in (fun f => fuel_for f.2) fs f Hin). cbn beta in *. lia.
Qed.

Lemma skip_elems_takes fuel ety vs :
  forallb (fun v => bool_decide (type_of v = ety) && value_ok v) vs = true -> zlen vs < 2 ^ 31 ->
  Forall (fun v => forall fuel, value_ok v = true -> (fuel_for v <= fuel)%nat ->
            takes (skip fuel (type_of v)) (encode v)) vs ->
  (Nat.max (Datatypes.S (length vs)) (list_max (map fuel_for vs)) <= fuel)%nat ->
  forall result s rest, 0 <= result -> ready s (concat (map encode vs) ++ rest) ->
  result + zlen (concat (map encode vs)) < 2 ^ 31 ->
  exists s', skip_container [elemType ← get (Some ety); skip fuel elemType] fuel 0 (zlen vs) result
      (skip_finish (mret 0)) s = Some (result + zlen (concat (map encode vs)), s') /\ ready s' rest.
Proof.
  intros Hok Hlen IH Hfuel result s rest H0' Hr Hsz.
  apply skip_container_takes; try done; try (rewrite length_map; lia).
  rewrite Forall_forall in *. intros d (v&<-&Hin)%in_map_iff.
  apply forallb_forall with (x := v) in Hok; [|done]. zify_bools. subst ety.
  rewrite <- (app_nil_r (encode v)). apply round_cons; [|apply round_nil].
  apply IH; [done..|]. pose proof (list_max_le_in fuel_for vs v Hin). lia.
Qed.

Lemma skip_takes v : forall fuel,
  value_ok v = true -> (fuel_for v <= fuel)%nat -> takes (skip fuel (type_of v)) (encode v).
Proof.
  induction v as [b|ty z|a|bits|ty l|l|fs IH|name fs IH|ety vs IH|ety vs IH|kty vty kvs IH]
    using value_parts_ind; intros fuel Hv Hfuel; (destruct fuel as [|fuel]; [simpl in Hfuel; lia|]).
  - exact (base_takes (VBool b) Hv).
  - pose proof (base_takes (VInt ty z) Hv) as Hb. by destruct ty.
  - exact (base_takes (VIp a) Hv).
  - exact (base_takes (VDouble bits) Hv).
  - pose proof (base_takes (VBytes ty l) Hv) as Hb. cbn [value_ok] in Hv. by destruct ty.
  - exact (base_takes (VUuid l) Hv).
  - cbn [value_ok fuel_for type_of skip] in *. intros s rest Hr Hsz.
    rewrite (chkR_run _ _ s 0 [] s) by done.
    apply (skip_struct_takes fuel fs Hv IH); [lia|lia|done|done].
  - cbn [value_ok fuel_for type_of skip] in *. zify_bools. intros s rest Hr Hsz.
    change (encode (VSandesh name fs)) with ((count (zlen name) ++ name) ++ encode_fields fs) in *.
    rewrite <- app_assoc in Hr. rewrite length_app, Nat2Z.inj_add in *.
    eapply (chkR_reads _ _ _ (fun o => default [] o)); [by apply readString_reads|exact Hr|lia|].
    intros s1 Hr1. apply (skip_struct_takes fuel fs); [done|done|lia|lia|done|lia].
  - cbn [value_ok fuel_for type_of skip] in *. zify_bools. intros s rest Hr Hsz.
    change (encode (VList ety vs)) with (byte_code ety ++ count (zlen vs) ++ concat (map encode vs)) in *.
    rewrite app_assoc in *. rewrite <- app_assoc in Hr. rewrite length_app, Nat2Z.inj_add in *.
    eapply (chkR_reads _ _ _ (fun o => (fst <$> o, snd <$> o)));
      [apply (elements_begin_reads ety (zlen vs)); (done || lia)|exact Hr|lia|]. intros s1 Hr1.
    rewrite (bind_run _ _ _ _ _ (eq_refl (Some (zlen vs, s1)))).
    apply (skip_elems_takes fuel ety vs); [done..|lia|lia|done|lia].
  - cbn [value_ok fuel_for type_of skip] in *. zify_bools. intros s rest Hr Hsz.
    change (encode (VSet ety vs)) with (byte_code ety ++ count (zlen vs) ++ concat (map encode vs)) in *.
    rewrite app_assoc in *. rewrite <- app_assoc in Hr. rewrite length_app, Nat2Z.inj_add in *.
    eapply (chkR_reads _ _ _ (fun o => (fst <$> o, snd <$> o)));
      [apply (elements_begin_reads ety (zlen vs)); (done || lia)|exact Hr|lia|]. intros s1 Hr1.
    rewrite (bind_run _ _ _ _ _ (eq_refl (Some (zlen vs, s1)))).
    apply (skip_elems_takes fuel ety vs); [done..|lia|lia|done|lia].
  - cbn [value_ok fuel_for type_of skip] in *. zify_bools. intros s rest Hr Hsz.
    change (encode (VMap kty vty kvs)) with (byte_code kty ++ byte_code vty ++ count (zlen kvs) ++
      concat (map (fun kv => encode kv.1 ++ encode kv.2) kvs)) in *.
    set (d := concat _) in *.
    replace (byte_code kty ++ byte_code vty ++ count (zlen kvs) ++ d)
      with ((byte_code kty ++ byte_code vty ++ count (zlen kvs)) ++ d) in * by (by rewrite <- !app_assoc).
    rewrite <- app_assoc in Hr. rewrite length_app, Nat2Z.inj_add in *.
    eapply (chkR_reads _ _ _ (fun o => (fst ∘ fst <$> o, snd ∘ fst <$> o, snd <$> o)));
      [apply (readMapBegin_reads kty vty (zlen kvs)); (done || lia)|exact Hr|lia|]. intros s1 Hr1.
    rewrite (bind_run _ _ _ _ _ (eq_refl (Some (zlen kvs, s1)))).
    unfold d in *. apply skip_container_takes; try done; try (rewrite length_map; lia); try lia.
    rewrite Forall_forall in *. intros e (kv&<-&Hin)%in_map_iff. destruct (IH kv Hin) as [IH1 IH2].
    match goal with Hok : forallb _ kvs = true |- _ => apply forallb_forall with (x := kv) in Hok; [|done] end.
    pose proof (list_max_le_in (fun kv => Nat.max (fuel_for kv.1) (fuel_for kv.2)) kvs kv Hin).
    zify_bools. apply round_cons.
    + subst kty. apply IH1; [done|cbn beta in *; lia].
    + rewrite <- (app_nil_r (encode kv.2)). apply round_cons; [|apply round_nil].
      subst vty. apply IH2; [done|cbn beta in *; lia].
Qed.

(** ** A whole value: the calls of the generated readers, for a type read off the wire *)
Fixpoint read_fields (rv : TType -> M S (Z * option value)) (n : nat) (result : Z)
    (acc : list (Z * value)) : M S (Z * option (list (Z * value))) :=
  match n with
  | O => undefined
  | Datatypes.S n =>
      chkV readFieldBegin (fun ret '(ty, id) =>
      let result := i32 (result + ret) in
      if bool_decide (ty = T_STOP) then mret (result, Some acc)
      else
        chkV (rv ty) (fun ret v => read_fields rv n (i32 (result + ret)) (acc ++ [(id, v)])))
  end.

Fixpoint read_elems {A} (rv : M S (Z * option A)) (n : nat) (result : Z) (acc : list A)
    : M S (Z * option (list A)) :=
  match n with
  | O => mret (result, Some acc)
  | Datatypes.S n => chkV rv (fun ret v => read_elems rv n (i32 (result + ret)) (acc ++ [v]))
  end.

(** A value built from the parts that were read. *)
Definition built {A B} (f : A -> B) (m : M S (Z * option A)) : M S (Z * option B) :=
  r ← m; mret (r.1, f <$> r.2).

Fixpoint read_value (fuel : nat) (ty : TType) : M S (Z * option value) :=
  match fuel with
  | O => undefined
  | Datatypes.S fuel =>
      match ty with
      | T_BOOL => built VBool readBool
      | T_BYTE => built (VInt ty) readByte
      | T_I16 => built (VInt ty) readI16
      | T_I32 => built (VInt ty) readI32
      | T_I64 => built (VInt ty) readI64
      | T_U16 => built (VInt ty) readU16
      | T_U32 => built (VInt ty) readU32
      | T_U64 => built (VInt ty) readU64
      | T_IPV4 => built (VInt ty) readIPV4
      | T_IPADDR => built VIp readIPADDR
      | T_DOUBLE => built VDouble readDouble
      | T_STRING => built (VBytes ty) readString
      | T_XML => built (VBytes ty) readXML
      | T_UUID => built VUuid readUUID
      | T_STRUCT =>
          r ← readStructBegin; built VStruct (read_fields (read_value fuel) fuel r.1 [])
      | T_SANDESH =>
          chkV readSandeshBegin (fun ret name =>
            built (VSandesh name) (read_fields (read_value fuel) fuel ret []))
      | T_LIST =>
          chkV readListBegin (fun ret '(ety, size) =>
            built (VList ety) (read_elems (read_value fuel ety) (Z.to_nat size) ret []))
      | T_SET =>
          chkV readSetBegin (fun ret '(ety, size) =>
            built (VSet ety) (read_elems (read_value fuel ety) (Z.to_nat size) ret []))
      | T_MAP =>
          chkV readMapBegin (fun ret '(kty, vty, size) =>
            built (VMap kty vty)
              (read_elems (chkV (read_value fuel kty) (fun n k =>
                 chkV (read_value fuel vty) (fun m v => mret (i32 (n + m), Some (k, v)))))
                 (Z.to_nat size) ret []))
      | _ => mret (-1, None)
      end
  end.

(** Reads [d] as [a] behind [result] bytes that were counted before. *)
Definition reads_from {A} (m : M S (Z * option A)) (result : Z) (d : list byte) (a : A) : Prop :=
  forall s rest, ready s (d ++ rest) -> 0 <= result -> result + zlen d < 2 ^ 31 ->
  exists s', m s = Some ((result + zlen d, Some a), s') /\ ready s' rest.

Lemma built_reads {A B} (f : A -> B) m result d a :
  reads_from m result d a -> reads_from (built f m) result d (f a).
Proof.
  intros Hm s rest Hr H0' Hsz. destruct (Hm s rest Hr H0' Hsz) as (s'&E&Hr'). exists s'.
  split; [|done]. unfold built. by rewrite (bind_run _ _ _ _ _ E).
Qed.
Lemma reads_from_0 {A} (m : M S (Z * option A)) d a : reads_from m 0 d a <-> reads m d a.
Proof. split; intros Hm s rest Hr; [intros; by apply Hm|intros _ ?; by apply Hm]. Qed.
Lemma built_reads_0 {A B} (f : A -> B) m d a : reads m d a -> reads (built f m) d (f a).
Proof. intros Hm. apply reads_from_0, built_reads. by apply reads_from_0. Qed.

(** A part read first, then the rest with the count of the first. *)
Lemma chkV_reads_from {A B} (m : M S (Z * option A)) d a (k : Z -> A -> M S (Z * option B)) e b :
  reads m d a -> reads_from (k (zlen d) a) (zlen d) e b -> reads (chkV m k) (d ++ e) b.
Proof.
  intros Hm Hk s rest Hr Hsz. rewrite <- app_assoc in Hr. rewrite length_app, Nat2Z.inj_add in *.
  eapply chkV_reads; [exact Hm|exact Hr|lia|]. intros s1 Hr1. apply Hk; [done|lia|lia].
Qed.

Lemma read_elems_reads {A} (rv : M S (Z * option A)) (enc : A -> list byte) vs :
  Forall (fun v => reads rv (enc v) v) vs -> forall result acc,
  reads_from (read_elems rv (length vs) result acc) result (concat (map enc vs)) (acc ++ vs).
Proof.
  induction 1 as [|v vs Hv _ IH]; intros result acc s rest Hr H0' Hsz; cbn [length read_elems map concat] in *.
  - exists s. rewrite Z.add_0_r, app_nil_r. done.
  - rewrite length_app, Nat2Z.inj_add in *. rewrite <- app_assoc in Hr.
    eapply chkV_reads; [exact Hv|exact Hr|lia|]. intros s1 Hr1. rewrite (wrapS_small 32) by lia.
    destruct (IH (result + zlen (enc v)) (acc ++ [v]) s1 rest Hr1) as (s2&->&Hr2); [lia|lia|].
    exists s2. rewrite <- app_assoc. split; [by do 3 f_equal; lia|done].
Qed.

Lemma read_fields_reads (rv : TType -> M S (Z * option value)) fs :
  forallb (fun f : Z * value => int_fits 2 true f.1 && value_ok f.2) fs = true ->
  Forall (fun f => reads (rv (type_of f.2)) (encode f.2) f.2) fs -> forall n result acc,
  (length fs < n)%nat -> reads_from (read_fields rv n result acc) result (encode_fields fs) (acc ++ fs).
Proof.
  unfold encode_fields. induction fs as [|f fs IH]; intros Hok Hfs n result acc Hn s rest Hr H0' Hsz;
    (destruct n as [|n]; [simpl in Hn; lia|]); cbn [read_fields map concat forallb] in *.
  - eapply chkV_reads; [apply readFieldBegin_stop|exact Hr|done|]. intros s1 Hr1.
    exists s1. split; [|done]. cbn beta iota zeta. rewrite bool_decide_eq_true_2 by done.
    rewrite app_nil_r. unfold mret, M_ret. by rewrite (wrapS_small 32) by (cbn [app] in Hsz; lia).
  - apply andb_true_iff in Hok as [[Hid Hv]%andb_true_iff Hok]. apply Forall_cons_iff in Hfs as [Hf Hfs].
    specialize (IH Hok Hfs). destruct (value_ok_type f.2 Hv) as [Hd Hns].
    set (d := concat (map encode_field fs) ++ byte_code T_STOP) in *.
    assert ((encode_field f ++ concat (map encode_field fs)) ++ byte_code T_STOP =
            (byte_code (type_of f.2) ++ be_bytes 2 f.1) ++ encode f.2 ++ d) as Eenc.
    { unfold d, encode_field at 1. by rewrite <- !app_assoc. }
    rewrite Eenc in *. clearbody d. rewrite <- !app_assoc, (app_assoc (byte_code _)) in Hr.
    rewrite (length_app (_ ++ _)), (length_app (encode _)), !Nat2Z.inj_add in *.
    eapply chkV_reads; [by apply readFieldBegin_reads|exact Hr|lia|]. intros s1 Hr1.
    cbn beta iota zeta. rewrite bool_decide_eq_false_2 by done.
    eapply chkV_reads; [exact Hf|exact Hr1|lia|]. intros s2 Hr2.
    rewrite (wrapS_small 32 (result + _)), (wrapS_small 32) by lia.
    edestruct (IH n) as (s3&->&Hr3); [simpl in Hn; lia|exact Hr2|lia|lia|].
    exists s3. split; [|done]. do 3 f_equal; [lia|]. f_equal. rewrite <- app_assoc. by destruct f.
Qed.

Lemma read_base_reads v fuel :
  value_ok v = true ->
  match v with VStruct _ | VSandesh _ _ | VList _ _ | VSet _ _ | VMap _ _ _ => True
  | _ => reads (read_value (Datatypes.S fuel) (type_of v)) (encode v) v end.
Proof.
  intros Hv. destruct v as [b|ty z|a|bits|ty l|l| | | | |]; try done.
  - apply (built_reads_0 VBool), readBool_reads.
  - cbn [value_ok type_of encode] in *.
    destruct ty; try done; (apply built_reads_0; apply readInt_reads; [lia|exact Hv]).
  - by apply (built_reads_0 VIp), readIPADDR_reads.
  - apply built_reads_0. apply readInt_reads; [lia|exact Hv].
  - cbn [value_ok type_of encode] in *. zify_bools.
    destruct ty; try done; by apply built_reads_0, readString_reads.
  - cbn [value_ok type_of encode] in *. zify_bools. by apply built_reads_0, readUUID_reads.
Qed.

Lemma read_struct_reads fuel fs :
  forallb (fun f : Z * value => int_fits 2 true f.1 && value_ok f.2) fs = true ->
  Forall (fun f => forall fuel, value_ok f.2 = true -> (fuel_for f.2 <= fuel)%nat ->
            reads (read_value fuel (type_of f.2)) (encode f.2) f.2) fs ->
  (Nat.max (Datatypes.S (length fs)) (list_max (map (fun f => fuel_for f.2) fs)) <= fuel)%nat ->
  forall result, reads_from (read_fields (read_value fuel) fuel result []) result (encode_fields fs) fs.
Proof.
  intros Hok IH Hfuel result. apply (read_fields_reads _ fs Hok); [|lia].
  rewrite Forall_forall in *. intros f Hin. apply IH; [done| |].
  - apply forallb_forall with (x := f) in Hok; [|done]. by zify_bools.
  - pose proof (list_max_le_in (fun f => fuel_for f.2) fs f Hin). cbn beta in *. lia.
Qed.

Lemma read_list_reads fuel ety vs :
  forallb (fun v => bool_decide (type_of v = ety) && value_ok v) vs = true ->
  Forall (fun v => forall fuel, value_ok v = true -> (fuel_for v <= fuel)%nat ->
            reads (read_value fuel (type_of v)) (encode v) v) vs ->
  (list_max (map fuel_for vs) <= fuel)%nat ->
  forall result, reads_from (read_elems (read_value fuel ety) (Z.to_nat (zlen vs)) result []) result
    (concat (map encode vs)) vs.
Proof.
  intros Hok IH Hfuel result. rewrite Nat2Z.id. apply (read_elems_reads _ encode vs).
  rewrite Forall_forall in *. intros v Hin.
  apply forallb_forall with (x := v) in Hok; [|done]. zify_bools. subst ety.
  apply IH; [done..|]. pose proof (list_max_le_in fuel_for vs v Hin). lia.
Qed.

Lemma read_value_reads v : forall fuel,
  value_ok v = true -> (fuel_for v <= fuel)%nat -> reads (read_value fuel (type_of v)) (encode v) v.
Proof.
  induction v as [b|ty z|a|bits|ty l|l|fs IH|name fs IH|ety vs IH|ety vs IH|kty vty kvs IH]
    using value_parts_ind; intros fuel Hv Hfuel; (destruct fuel as [|fuel]; [simpl in Hfuel; lia|]).
  - exact (read_base_reads (VBool b) fuel Hv).
  - exact (read_base_reads (VInt ty z) fuel Hv).
  - exact (read_base_reads (VIp a) fuel Hv).
  - exact (read_base_reads (VDouble bits) fuel Hv).
  - exact (read_base_reads (VBytes ty l) fuel Hv).
  - exact (read_base_reads (VUuid l) fuel Hv).
  - cbn [value_ok fuel_for type_of read_value] in *.
    apply (built_reads_0 VStruct). apply reads_from_0, read_struct_reads; [done..|lia].
  - cbn [value_ok fuel_for type_of read_value] in *. zify_bools.
    apply (chkV_reads_from _ _ _ _ (encode_fields fs) (VSandesh name fs) (readString_reads name ltac:(done))).
    apply built_reads, read_struct_reads; [done..|lia].
  - cbn [value_ok fuel_for type_of read_value encode] in *. zify_bools. rewrite app_assoc.
    eapply chkV_reads_from; [apply (elements_begin_reads ety (zlen vs)); (done || lia)|].
    apply (built_reads (VList ety)), read_list_reads; [done..|lia].
  - cbn [value_ok fuel_for type_of read_value encode] in *. zify_bools. rewrite app_assoc.
    eapply chkV_reads_from; [apply (elements_begin_reads ety (zlen vs)); (done || lia)|].
    apply (built_reads (VSet ety)), read_list_reads; [done..|lia].
  - cbn [value_ok fuel_for type_of read_value encode] in *. zify_bools.
    rewrite (app_assoc (byte_code vty)), (app_assoc (byte_code kty)).
    eapply chkV_reads_from; [apply (readMapBegin_reads kty vty (zlen kvs)); (done || lia)|].
    apply (built_reads (VMap kty vty)). rewrite Nat2Z.id.
    apply (read_elems_reads _ (fun kv => encode kv.1 ++ encode kv.2) kvs).
    rewrite Forall_forall in *. intros kv Hin. destruct (IH kv Hin) as [IH1 IH2].
    match goal with Hok : forallb _ kvs = true |- _ => apply forallb_forall with (x := kv) in Hok; [|done] end.
    pose proof (list_max_le_in (fun kv => Nat.max (fuel_for kv.1) (fuel_for kv.2)) kvs kv Hin).
    zify_bools. subst kty vty. cbn beta in *.
    eapply chkV_reads_from; [apply IH1; [done|lia]|]. intros s rest Hr H0' Hsz.
    eapply chkV_reads; [apply IH2; [done|lia]|exact Hr|lia|]. intros s1 Hr1.
    exists s1. split; [|done]. unfold mret, M_ret. rewrite (wrapS_small 32) by lia. by destruct kv.
Qed.

End Spec.
