(* ===== verification/BinaryClaims.v ===== *)
(** * What the binary protocol promises

    Round trip and skip of whole values and of message headers, and what becomes of
    input that ends early and of containers with a negative size. *)

From S2P Require Import Prelude Transport Protocol Wire Binary BinarySpec.
Import TBinaryProtocol.
Local Open Scope Z_scope.

Module BinaryProtocol.

(** A new protocol object in front of the bytes of a transport. *)
Lemma ready_new `{!Allocator} {T} `{TT : TTransport T} `{TL : !TransportLaws T} (tr : T) l :
  t_readable tr -> t_contents tr = l -> ready (new tr) l.
Proof. done. Qed.

(** C6: a value written through the binary protocol is read back.  Every value of
    the sandesh types, nested structs, lists, sets and maps included, whose
    integers fit their types and whose encoding stays below 2^31 bytes is emitted
    as its reference encoding, behind what was there; the count returned is its
    length; and a reader in front of these bytes returns the value and the count and
    leaves what is behind. *)
Theorem binary_roundtrip `{!Allocator} {T : Type} `{TT : TTransport T} `{TL : !TransportLaws T} (w : T) (v : value) (fuel : nat) :
  t_ok w -> t_room w (zlen (encode v)) -> zlen (encode v) < 2 ^ 31 -> value_ok v = true ->
  (fuel_for v <= fuel)%nat ->
  (exists s, write_value v (new w) = Some (zlen (encode v), s) /\ t_ok (trans_ s) /\
    t_contents (trans_ s) = t_contents w ++ encode v) /\
  (forall (r : T) rest, t_readable r -> t_contents r = encode v ++ rest ->
    exists s, read_value fuel (type_of v) (new r) = Some ((zlen (encode v), Some v), s) /\
      t_contents (trans_ s) = rest).
Proof.
  intros Hok Hroom Hsz Hv Hfuel. split.
  - destruct (write_value_emits v Hv (new w)) as (s&E&W); [done|]. exists s.
    by destruct W as (?&?&_&_).
  - intros r rest Hr Hc. destruct (read_value_reads v fuel Hv Hfuel (new r) rest) as (s&E&Hs);
      [by apply ready_new|done|]. exists s. by destruct Hs as (_&?&_).
Qed.

(** [skip] takes exactly the bytes of a value.  In front of the encoding of any
    such value, [skip] with the type of the value returns the length of the encoding
    and leaves what is behind it, so that a reader that does not know a field stays
    in step with the writer. *)
Theorem binary_skip_exact `{!Allocator} {T : Type} `{TT : TTransport T} `{TL : !TransportLaws T} (r : T) (v : value)
    (rest : list byte) (fuel : nat) :
  t_readable r -> t_contents r = encode v ++ rest -> zlen (encode v) < 2 ^ 31 -> value_ok v = true ->
  (fuel_for v <= fuel)%nat ->
  exists s, skip fuel (type_of v) (new r) = Some (zlen (encode v), s) /\ t_contents (trans_ s) = rest.
Proof.
  intros Hok Hc Hsz Hv Hfuel.
  destruct (skip_takes v fuel Hv Hfuel (new r) rest) as (s&E&Hs); [by apply ready_new|done|].
  exists s. by destruct Hs as (_&?&_).
Qed.

Definition sample : value :=
  VStruct [(1, VInt T_I32 (-70000)); (2, VBytes T_STRING (bs "abc"));
           (3, VMap T_STRING T_LIST [(VBytes T_STRING (bs "k"), VList T_U16 [VInt T_U16 65535; VInt T_U16 1])]);
           (-4, VStruct [(1, VIp (IPv4 [x0a; x00; x00; x01])); (2, VDouble 4614253070214989087)]);
           (5, VSet T_UUID []); (6, VBool true)].

Lemma binary_roundtrip_witness :
  let _ := TMemoryBuffer.total_allocator in
  exists b s r, TMemoryBuffer.new_size 16 = Some b /\
    write_value sample (new b) = Some (76, s) /\
    read_value 10 T_STRUCT (new (trans_ s)) = Some ((76, Some sample), r).
Proof.
  intros A. destruct (TMemoryBuffer.new_size 16) as [b|] eqn:Eb; [|discriminate Eb].
  destruct (TMemoryBuffer.new_size_ok 16 b) as (Hb&Ec&Ho); [lia|exact Eb|].
  destruct (binary_roundtrip (T := TMemoryBuffer.t) b sample 10) as [(s&Ew&Hs&Es) Hread].
  - exact Hb.
  - right. split; [exact Ho|]. injection Eb as <-. split; [vm_compute; discriminate|reflexivity].
  - reflexivity.
  - reflexivity.
  - apply Nat.leb_le. reflexivity.
  - change (TMemoryBuffer.contents b = []) in Ec. change (t_contents b) with (TMemoryBuffer.contents b) in Es.
    rewrite Ec in Es. destruct (Hread (trans_ s) []) as (r&Er&_); [exact Hs|by rewrite Es, app_nil_r|].
    exists b, s, r. split; [reflexivity|]. split; [exact Ew|exact Er].
Defined.

Lemma binary_skip_exact_witness :
  let _ := TMemoryBuffer.total_allocator in
  exists b s, TMemoryBuffer.new_buffer (Some (encode sample ++ bs "xy")) 78 TMemoryBuffer.OBSERVE = Some b /\
    skip 10 T_STRUCT (new b) = Some (76, s) /\ TMemoryBuffer.contents (trans_ s) = bs "xy".
Proof.
  intros A. destruct (TMemoryBuffer.new_observe (encode sample ++ bs "xy")) as (b&Eb&Hb&Ec); [reflexivity|].
  destruct (binary_skip_exact (T := TMemoryBuffer.t) b sample (bs "xy") 10) as (s&Es&Er).
  - exact Hb.
  - exact Ec.
  - reflexivity.
  - reflexivity.
  - apply Nat.leb_le. reflexivity.
  - exists b, s. split; [exact Eb|]. split; [exact Es|exact Er].
Defined.

(** *** Message headers *)
Definition message_ok (name : list byte) (ty : TMessageType) (seqid : Z) : Prop :=
  zlen name < 2 ^ 30 /\ match ty with T_msgcast _ => False | _ => True end /\
  int_fits 4 true seqid = true.

(** The header with a version in front, and the old one. *)
Definition header_text (strict : bool) (name : list byte) (ty : TMessageType) (seqid : Z) : list byte :=
  if strict then be_bytes 4 (Z.lor VERSION_1 (tmessage_code ty)) ++ (count (zlen name) ++ name) ++ be_bytes 4 seqid
  else (count (zlen name) ++ name) ++ be_bytes 1 (tmessage_code ty) ++ be_bytes 4 seqid.

Lemma writeMessageBegin_ok `{!Allocator} {T : Type} `{TT : TTransport T} `{TL : !TransportLaws T} (s : t T) name ty seqid :
  message_ok name ty seqid -> can s (zlen (header_text (strict_write_ s) name ty seqid)) ->
  exists s', writeMessageBegin name ty seqid s
    = Some (zlen (header_text (strict_write_ s) name ty seqid), s') /\
    wrote s s' (header_text (strict_write_ s) name ty seqid).
Proof.
  intros (Hn&Hty&Hid) Hc. unfold writeMessageBegin. destruct (strict_write_ s); revert s Hc.
  - apply (header_emits _ [be_bytes 4 (Z.lor VERSION_1 (tmessage_code ty)); count (zlen name) ++ name; be_bytes 4 seqid]);
      [|unfold header_text; cbn [concat]; by rewrite app_nil_r].
    repeat constructor; [|apply writeString_emits; lia|apply writeI32_emits].
    eapply emits_eq; [apply writeI32_emits|]. by destruct ty.
  - apply (header_emits _ [count (zlen name) ++ name; be_bytes 1 (tmessage_code ty); be_bytes 4 seqid]);
      [|unfold header_text; cbn [concat]; by rewrite app_nil_r].
    repeat constructor; [apply writeString_emits; lia| |apply writeI32_emits].
    eapply emits_eq; [apply writeByte_emits|]. by destruct ty.
Qed.

Lemma readMessageBegin_strict `{!Allocator} {T : Type} `{TT : TTransport T} `{TL : !TransportLaws T} name ty seqid :
  message_ok name ty seqid -> reads (T := T) readMessageBegin (header_text true name ty seqid) (name, ty, seqid).
Proof.
  intros (Hn&Hty&Hid) s rest Hr Hsz. cbn [header_text] in *. rewrite <- !app_assoc in Hr.
  rewrite (app_assoc (count (zlen name))) in Hr. rewrite !(length_app (be_bytes 4 _)), (length_app (_ ++ _)), !Nat2Z.inj_add in *.
  assert (exists z, i32 (Z.lor VERSION_1 (tmessage_code ty)) = z /\ int_fits 4 true z = true /\ z < 0 /\
    i32 (Z.land z VERSION_MASK) = VERSION_1 /\ tmessage_of (Z.land z 0xff) = ty) as (z&Ez&Hz&Hneg&Hver&Hmt)
    by (eexists; split; [reflexivity|]; destruct ty; try done).
  rewrite (be_bytes_low 4 _ z) in * by (rewrite <- Ez; by rewrite wrapU_wrapS).
  eapply chkV_reads; [by apply (readInt_reads 4 true z); [lia|]|exact Hr|lia|]. intros s1 Hr1.
  cbn beta zeta. destruct (Z.ltb_spec z 0); [|lia]. rewrite Hver, Z.eqb_refl. cbn [negb]. rewrite Hmt.
  eapply chkV_reads; [apply (readString_reads name); lia|exact Hr1|lia|]. intros s2 Hr2.
  eapply chkV_reads; [by apply (readInt_reads 4 true seqid); [lia|]|exact Hr2|lia|]. intros s3 Hr3.
  exists s3. split; [|done]. unfold mret, M_ret.
  rewrite (wrapS_small 32 (zlen (be_bytes 4 z) + _)), (wrapS_small 32) by lia.
  by rewrite Z.add_assoc.
Qed.

(** Reading the count of a string moves the transport only. *)
Lemma readI32_count `{!Allocator} {T : Type} `{TT : TTransport T} `{TL : !TransportLaws T} (s : t T) (name rest : list byte) :
  zlen name < 2 ^ 31 -> ready s (count (zlen name) ++ rest) ->
  exists tr, readI32 s = Some ((4, Some (zlen name)), set_trans tr s) /\ ready (set_trans tr s) rest.
Proof.
  intros Hn Hr. assert (zlen (count (zlen name)) = 4) as E4 by (unfold count; by rewrite length_be_bytes).
  destruct (t_readAll_front s (count (zlen name)) _ Hr) as (tr&E&Hr1); [lia|]. exists tr. split; [|done].
  rewrite E4 in E. unfold readI32, readInt, readAll, mbind, M_bind. change (Z.of_nat 4) with 4.
  rewrite E. cbn [mbind option_bind]. change (length (count (zlen name)) =? 4)%nat with true. cbn iota.
  cbn [mbind option_bind]. unfold mret, M_ret, count. rewrite int_value_bytes; [done|lia|].
  unfold int_fits. change (8 * Z.of_nat 4 - 1) with 31. lia.
Qed.

Lemma readMessageBegin_old `{!Allocator} {T : Type} `{TT : TTransport T} `{TL : !TransportLaws T} (s : t T) rest name ty seqid :
  message_ok name ty seqid -> strict_read_ s = false ->
  ready s (header_text false name ty seqid ++ rest) ->
  exists s', readMessageBegin s = Some ((zlen (header_text false name ty seqid), Some (name, ty, seqid)), s') /\
    ready s' rest.
Proof.
  intros (Hn&Hty&Hid) Hst Hr. cbn [header_text] in *. rewrite <- !app_assoc in Hr.
  rewrite !length_app, !Nat2Z.inj_add.
  assert (zlen (count (zlen name)) = 4 /\ zlen (be_bytes 1 (tmessage_code ty)) = 1 /\ zlen (be_bytes 4 seqid) = 4)
    as (E4&E1&E4') by (unfold count; by rewrite !length_be_bytes).
  destruct (readI32_count s name _ ltac:(lia) Hr) as (tr&E&Hr1).
  unfold readMessageBegin, chkV at 1. rewrite (bind_run _ _ _ _ _ E). cbn [fst snd get].
  change (4 <? 0) with false. cbn iota. rewrite (bind_run _ _ _ _ _ (eq_refl (Some (zlen name, set_trans tr s)))).
  destruct (Z.ltb_spec (zlen name) 0); [lia|]. cbn [strict_read_ set_trans]. rewrite Hst.
  destruct (readStringBody_reads name ltac:(lia) _ _ Hr1) as (s2&E2&Hr2).
  unfold chkV at 1. rewrite (bind_run _ _ _ _ _ E2). cbn [fst snd get].
  destruct (Z.ltb_spec (zlen name) 0); [lia|]. rewrite (bind_run _ _ _ _ _ (eq_refl (Some (name, s2)))).
  eapply chkV_reads; [apply (readInt_reads 1 true (tmessage_code ty)); [lia|by destruct ty]|exact Hr2|lia|].
  intros s3 Hr3.
  eapply chkV_reads; [by apply (readInt_reads 4 true seqid); [lia|]|exact Hr3|lia|]. intros s4 Hr4.
  exists s4. split; [|done]. unfold mret, M_ret. rewrite E1, E4'.
  rewrite (wrapS_small 32 (4 + _)), (wrapS_small 32 (4 + _ + _)), (wrapS_small 32) by lia.
  assert (tmessage_of (tmessage_code ty) = ty) as -> by (by destruct ty).
  rewrite E4. by replace (4 + zlen name + 1 + 4) with (4 + zlen name + (1 + 4)) by lia.
Qed.

(** The header of a message is read back.  Name, type and sequence number come
    back from what [writeMessageBegin] emitted, with the version in front and from
    a writer of the old format; only a strict reader refuses the old one. *)
Theorem binary_message_roundtrip `{!Allocator} {T : Type} `{TT : TTransport T} `{TL : !TransportLaws T} (w : t T) name ty seqid
    (r : t T) (rest : list byte) :
  let text := header_text (strict_write_ w) name ty seqid in
  message_ok name ty seqid -> can w (zlen text) -> ready r (text ++ rest) ->
  (exists w', writeMessageBegin name ty seqid w = Some (zlen text, w') /\
    t_contents (trans_ w') = t_contents (trans_ w) ++ text) /\
  (strict_read_ r = false \/ strict_write_ w = true ->
    exists r', readMessageBegin r = Some ((zlen text, Some (name, ty, seqid)), r') /\
      t_contents (trans_ r') = rest) /\
  (strict_read_ r = true -> strict_write_ w = false ->
    exists r', readMessageBegin r = Some ((-1, None), r')).
Proof.
  intros text Hm Hc Hr. split; [|split].
  - destruct (writeMessageBegin_ok w name ty seqid Hm Hc) as (w'&E&W). exists w'. by destruct W as (_&?&_).
  - unfold text in *. destruct (strict_write_ w).
    + intros _. destruct Hc as (_&_&?).
      destruct (readMessageBegin_strict name ty seqid Hm r rest Hr) as (r'&E&Hr'); [done|].
      exists r'. by destruct Hr' as (_&?&_).
    + intros [Hs|?]; [|done]. destruct (readMessageBegin_old r rest name ty seqid Hm Hs Hr) as (r'&E&Hr').
      exists r'. by destruct Hr' as (_&?&_).
  - intros Hs Hw. unfold text in *. rewrite Hw in *. destruct Hm as (Hn&_&_). cbn [header_text] in Hr.
    rewrite <- !app_assoc in Hr. destruct (readI32_count r name _ ltac:(lia) Hr) as (tr&E&_).
    exists (set_trans tr r). unfold readMessageBegin, chkV at 1. rewrite (bind_run _ _ _ _ _ E).
    cbn [fst snd get]. change (4 <? 0) with false. cbn iota.
    rewrite (bind_run _ _ _ _ _ (eq_refl (Some (zlen name, set_trans tr r)))).
    destruct (Z.ltb_spec (zlen name) 0); [lia|]. cbn [strict_read_ set_trans]. by rewrite Hs.
Qed.

Lemma binary_message_roundtrip_witness :
  let _ := TMemoryBuffer.total_allocator in
  exists b c w' r', TMemoryBuffer.new_size 16 = Some b /\
    TMemoryBuffer.new_buffer (Some (header_text true (bs "ping") T_CALL (-7))) 16 TMemoryBuffer.OBSERVE = Some c /\
    writeMessageBegin (bs "ping") T_CALL (-7) (new b) = Some (16, w') /\
    readMessageBegin (new c) = Some ((16, Some (bs "ping", T_CALL, -7)), r').
Proof.
  intros A. destruct (TMemoryBuffer.new_size 16) as [b|] eqn:Eb; [|discriminate Eb].
  destruct (TMemoryBuffer.new_size_ok 16 b) as (Hb&Ec&Ho); [lia|exact Eb|].
  destruct (TMemoryBuffer.new_observe (header_text true (bs "ping") T_CALL (-7))) as (c&Ecc&Hc&Hcc); [reflexivity|].
  destruct (binary_message_roundtrip (new b) (bs "ping") T_CALL (-7) (new c) []) as ((w'&Ew&_)&Hread&_).
  - split; [reflexivity|]. split; [exact I|reflexivity].
  - split; [exact Hb|]. split; [|reflexivity]. right. split; [exact Ho|]. injection Eb as <-.
    split; [vm_compute; discriminate|reflexivity].
  - split; [exact Hc|]. rewrite app_nil_r. split; [exact Hcc|]. split; [vm_compute; discriminate|]. split; [reflexivity|vm_compute; discriminate].
  - destruct Hread as (r'&Er&_); [by left|]. exists b, c, w', r'.
    split; [reflexivity|]. split; [exact Ecc|]. split; [exact Ew|exact Er].
Defined.

(** *** Input that ends early, and sizes *)

(** Input that ends early.  The protocol drops the result of [readAll]: an integer
    with fewer bytes than its width is undefined, and a string with fewer bytes than
    it announces is reported as read in full: behind the bytes received it holds
    what the freshly allocated buffer held. *)
Theorem binary_short_input `{!Allocator} {T : Type} `{TT : TTransport T} `{TL : !TransportLaws T} (r : T) (n : Z) (k : nat) (sg : bool) :
  t_readable r -> (zlen (t_contents r) < Z.of_nat k < 2 ^ 31 -> readInt k sg (new r) = None) /\
  (zlen (t_contents r) < n < 2 ^ 31 -> alloc_ok n = true ->
    exists s, readStringBody n (new r)
      = Some ((n, Some (t_contents r ++ replicate (Z.to_nat n - length (t_contents r)) junk)), s)).
Proof.
  intros Hok. split.
  - intros Hk. destruct (t_readAll_short r (Z.of_nat k)) as (r'&E&_&_); [done|lia|lia|].
    unfold readInt, readAll, mbind, M_bind. cbn [trans_ new]. rewrite E. cbn [mbind option_bind].
    destruct (Nat.eqb_spec (length (t_contents r)) k); [lia|done].
  - intros Hn Ha. unfold readStringBody.
    destruct (Z.ltb_spec n 0); [lia|]. cbn [string_limit_ new Z.ltb Z.compare andb].
    destruct (Z.eqb_spec n 0); [lia|]. rewrite (wrapU_small 32) by lia. cbn [trans_ new].
    destruct (t_borrow_ok r n) as (o&r1&->&Hok1&Hc1&Hb); [done|lia|]. cbn [mbind option_bind].
    destruct o as [d|]; [lia|]. unfold readStringSlow. cbn [string_buf_size_ string_buf_ set_trans new].
    destruct (Z.ltb_spec 0 n); [|lia]. cbn [orb]. unfold realloc. rewrite (wrapU_small 32), Ha by lia.
    cbn [mbind option_bind default trans_ set_string_buf string_buf_ set_trans id].
    destruct (t_readAll_short r1 n) as (r2&->&_&_); [done|lia|rewrite Hc1; lia|]. cbn [mbind option_bind].
    rewrite Hc1. rewrite resize_nil, memcpy_Some by (rewrite ?length_replicate; lia).
    change (Z.to_nat 0) with 0%nat. cbn [mbind option_bind take app]. rewrite Nat.add_0_l, drop_replicate.
    rewrite mread_Some by (rewrite ?length_app, ?length_replicate; lia).
    change (Z.to_nat 0) with 0%nat. cbn [mbind option_bind]. rewrite drop_0, take_0, app_nil_l, (firstn_all2 (t_contents r ++ _)) by (rewrite length_app, length_replicate; lia).
    by eexists.
Qed.

Lemma binary_short_input_witness :
  let _ := TMemoryBuffer.total_allocator in
  exists b s, TMemoryBuffer.new_buffer (Some (bs "ab")) 2 TMemoryBuffer.OBSERVE = Some b /\
    readI32 (new b) = None /\ readStringBody 5 (new b) = Some ((5, Some (bs "ab" ++ [x00; x00; x00])), s).
Proof.
  intros A. destruct (TMemoryBuffer.new_observe (bs "ab")) as (b&Eb&Hb&Ec); [reflexivity|].
  change (TMemoryBuffer.contents b) with (t_contents b) in Ec.
  destruct (binary_short_input (T := TMemoryBuffer.t) b 5 4 true) as [Hi Hs]; [exact Hb|]. rewrite Ec in Hi, Hs.
  destruct Hs as (s&Es); [split; reflexivity|reflexivity|]. exists b, s.
  split; [exact Eb|]. split; [apply Hi; split; reflexivity|exact Es].
Defined.

(** A negative size.  Lists and maps refuse it; [readSetBegin] logs it and returns
    the size as an unsigned number, at least 2^31, as if it had been announced. *)
Theorem binary_negative_size `{!Allocator} {T : Type} `{TT : TTransport T} `{TL : !TransportLaws T} (r : T) (ety vty : TType)
    (z : Z) (rest : list byte) :
  declared ety = true -> declared vty = true -> - 2 ^ 31 <= z < 0 ->
  t_readable r ->
  (t_contents r = byte_code ety ++ count z ++ rest ->
    (exists s, readListBegin (new r) = Some ((-1, None), s)) /\
    (exists s, readSetBegin (new r) = Some ((5, Some (ety, z + 2 ^ 32)), s))) /\
  (t_contents r = byte_code ety ++ byte_code vty ++ count z ++ rest ->
    exists s, readMapBegin (new r) = Some ((-1, None), s)).
Proof.
  intros He Hv Hz Hok.
  assert (reads (T := T) readI32 (count z) z) as Hcount.
  { apply readInt_reads; [lia|]. unfold int_fits. change (8 * Z.of_nat 4 - 1) with 31. lia. }
  split; [intros Hc; split|intros Hc]; (apply ready_new in Hc; [|done]);
    match goal with |- exists s, ?m _ = Some (?x, s) =>
      cut (exists s, m (new r) = Some (x, s) /\ ready s rest); [intros (s&E&_); by exists s|] end.
  - eapply chkV_reads; [by apply (readByte_code_reads ety)|exact Hc|done|]. intros s1 Hr1.
    eapply chkV_reads; [exact Hcount|exact Hr1|done|]. intros s2 Hr2. exists s2. split; [|done].
    cbn beta zeta. by destruct (Z.ltb_spec z 0); [|lia].
  - eapply chkV_reads; [by apply (readByte_code_reads ety)|exact Hc|done|]. intros s1 Hr1.
    eapply chkV_reads; [exact Hcount|exact Hr1|done|]. intros s2 Hr2. exists s2. split; [|done].
    cbn beta zeta. destruct (Z.ltb_spec z 0); [|lia]. rewrite ttype_of_code by done.
    by replace (u32 z) with (z + 2 ^ 32)
      by (unfold wrapU; rewrite <- (Z.mod_add z 1 (2 ^ 32)) by done; rewrite Z.mod_small; lia).
  - eapply chkV_reads; [by apply (readByte_code_reads ety)|exact Hc|done|]. intros s1 Hr1.
    eapply chkV_reads; [by apply (readByte_code_reads vty)|exact Hr1|done|]. intros s2 Hr2.
    eapply chkV_reads; [exact Hcount|exact Hr2|done|]. intros s3 Hr3. exists s3. split; [|done].
    cbn beta zeta. by destruct (Z.ltb_spec z 0); [|lia].
Qed.

Lemma binary_negative_size_witness :
  let _ := TMemoryBuffer.total_allocator in
  exists b s, TMemoryBuffer.new_buffer (Some [x08; xff; xff; xff; xff]) 5 TMemoryBuffer.OBSERVE = Some b /\
    readSetBegin (new b) = Some ((5, Some (T_I32, 4294967295)), s).
Proof.
  intros A. destruct (TMemoryBuffer.new_observe [x08; xff; xff; xff; xff]) as (b&Eb&Hb&Ec); [reflexivity|].
  destruct (binary_negative_size (T := TMemoryBuffer.t) b T_I32 T_I32 (-1) []) as [H1 _];
    [reflexivity|reflexivity|lia|exact Hb|]. destruct (H1 Ec) as [_ (s&Es)]. exists b, s.
  split; [exact Eb|exact Es].
Defined.

End BinaryProtocol.
