(* ===== verification/CThrift.v ===== *)
(** * The C library: transports and the binary protocol

    library/c: the memory buffer and the fake transport
    (transport/thrift_memory_buffer.c, thrift_fake_transport.c), the binary protocol
    (protocol/thrift_binary_protocol.c and .h) and the two skips of
    protocol/thrift_protocol.c.

    [*error] is part of the state.  A result [None] is undefined behaviour (a bad
    access, an indeterminate value that is used, a null pointer from an allocator
    that failed) or a loop that does not end.  The host is little-endian, as
    far as a double written in host order can tell. *)

From S2P Require Import Prelude Transport Protocol Wire.
Local Open Scope Z_scope.

Definition THRIFT_TRANSPORT_ERROR_SEND : Z := 4.
Definition THRIFT_TRANSPORT_ERROR_RECEIVE : Z := 5.
Definition THRIFT_PROTOCOL_ERROR_NEGATIVE_SIZE : Z := 2.
Definition C_ENOMEM : Z := 12.
Definition C_EINVAL : Z := 22.

(** The methods of a [ThriftTransport]: the result, the bytes put into the caller's
    buffer, the error if one is set, and the transport afterwards. *)
Class CTransport (T : Type) := {
  c_read : T -> Z -> option (Z * list byte * option Z * T);
  c_write : T -> list byte -> option (Z * option Z * T);
}.

(** ** The memory buffer *)
Module ThriftMemoryBuffer.

Record t := Mk {
  buf : option (list byte);
  buf_roffset : Z;
  buf_woffset : Z;
  buf_size : Z;
  owner : bool;
}.

Definition mem (b : t) : list byte := default [] (buf b).
Definition set_mem (m : list byte) (b : t) : t :=
  Mk ((fun _ => m) <$> buf b) (buf_roffset b) (buf_woffset b) (buf_size b) (owner b).
Definition set_offsets (r w : Z) (b : t) : t := Mk (buf b) r w (buf_size b) (owner b).

Definition available_read (b : t) : Z := u32 (buf_woffset b - buf_roffset b).
Definition available_write (b : t) : Z := u32 (buf_size b - buf_woffset b).

Section Operations.
Context `{!Allocator}.

Definition ensure_can_write (len : Z) (b : t) : option (Z * t) :=
  let avail := available_write b in
  if negb (owner b) then Some (C_ENOMEM, b)
  else
    new_size ← TMemoryBuffer.grow TMemoryBuffer.grow_fuel len avail (buf_size b) (available_write b) (buf_size b);
    match TMemoryBuffer.realloc (mem b) new_size with
    | None => Some (C_ENOMEM, b)
    | Some m => Some (0, Mk (Some m) (buf_roffset b) (buf_woffset b) new_size (owner b))
    end.

Definition thrift_memory_buffer_wrote_bytes (len : Z) (b : t) : Z * t :=
  let avail := available_write b in
  if avail <? len then (C_ENOMEM, b)
  else (0, set_offsets (buf_roffset b) (u32 (buf_woffset b + len)) b).

Definition thrift_memory_buffer_read (b : t) (len : Z) : option (Z * list byte * option Z * t) :=
  if available_read b <? len then Some (-1, [], Some THRIFT_TRANSPORT_ERROR_RECEIVE, b)
  else
    data ← mread (mem b) (buf_roffset b) len;
    let r := u32 (buf_roffset b + len) in
    let b := set_offsets r (buf_woffset b) b in
    let b := if r =? buf_woffset b then set_offsets 0 0 b else b in
    Some (i32 len, data, None, b).

Definition thrift_memory_buffer_write (b : t) (data : list byte) : option (Z * option Z * t) :=
  let len := zlen data in
  '(error, b) ← (if available_write b <? len then ensure_can_write len b else Some (0, b));
  if negb (error =? 0) then Some (0, Some THRIFT_TRANSPORT_ERROR_SEND, b)
  else
    m ← memcpy (mem b) (buf_woffset b) data;
    Some (1, None, set_offsets (buf_roffset b) (u32 (buf_woffset b + len)) (set_mem m b)).

(** A null [buf] asks for a buffer of its own; a failed [os_malloc] is not noticed. *)
Definition thrift_memory_buffer_init (b : option (list byte)) (size : Z) : t :=
  match b with
  | None => Mk (TMemoryBuffer.malloc size) 0 0 size true
  | Some m => Mk (Some m) 0 0 size false
  end.

Definition thrift_memory_buffer_finalize (b : t) : t := Mk None 0 0 0 (owner b).

#[global] Instance transport : CTransport t := {
  c_read := thrift_memory_buffer_read;
  c_write := thrift_memory_buffer_write;
}.

End Operations.
End ThriftMemoryBuffer.

(** ** The fake transport: every write succeeds, every read fails *)
Module ThriftFakeTransport.

Definition t : Type := unit.
Definition thrift_fake_transport_read (f : t) (len : Z) : option (Z * list byte * option Z * t) :=
  Some (-1, [], None, f).
Definition thrift_fake_transport_write (f : t) (data : list byte) : option (Z * option Z * t) :=
  Some (1, None, f).

#[global] Instance transport : CTransport t := {
  c_read := thrift_fake_transport_read;
  c_write := thrift_fake_transport_write;
}.

End ThriftFakeTransport.

(** ** 64-bit values, byte by byte (sandesh.h) *)
Definition os_put_value64 (value : Z) : list byte :=
  map (fun i => byte_of_Z (Z.land (Z.shiftr value ((8 - (Z.of_nat i + 1)) * 8)) 0xff)) (seq 0 8).
Definition os_get_value64 (data : list byte) : Z :=
  foldl (fun value b => u64 (u64 (Z.shiftl value 8) + byte_to_Z b)) 0 data.

(** ** The binary protocol *)
Module ThriftBinaryProtocol.

Record t (T : Type) := Mk { transport : T; error : Z }.
Arguments Mk {T}.
Arguments transport {T}.
Arguments error {T}.

Section Operations.
Context `{!Allocator} {T : Type} `{!CTransport T}.

Abbreviation S := (t T).

Definition set_error (e : option Z) (tr : T) (s : S) : S := Mk tr (default (error s) e).
Definition fail_with {A} (e : Z) (a : A) : M S A := fun s => Some (a, Mk (transport s) e).

Definition thrift_transport_write (d : list byte) : M S Z := fun s =>
  '(ok, e, tr) ← c_write (transport s) d; Some (ok, set_error e tr s).
Definition thrift_transport_read (len : Z) : M S (Z * list byte) := fun s =>
  '(ret, data, e, tr) ← c_read (transport s) len; Some ((ret, data), set_error e tr s).

(** [if (thrift_transport_write(...)) return n; else return -1;] *)
Definition put (d : list byte) (n : Z) : M S Z :=
  ok ← thrift_transport_write d; mret (if negb (ok =? 0) then n else -1).
(** [if ((ret = call) < 0) return -1; xfer += ret;] *)
Definition chk1 (m : M S Z) (k : Z -> M S Z) : M S Z :=
  ret ← m; if ret <? 0 then mret (-1) else k ret.
Fixpoint xfers (ms : list (M S Z)) (xfer : Z) : M S Z :=
  match ms with
  | [] => mret xfer
  | m :: ms => chk1 m (fun ret => xfers ms (i32 (xfer + ret)))
  end.

(** *** Writing *)
Definition write_byte (value : Z) : M S Z := put (be_bytes 1 value) 1.
Definition write_i16 (value : Z) : M S Z := put (be_bytes 2 value) 2.
Definition write_u16 (value : Z) : M S Z := put (be_bytes 2 value) 2.
Definition write_i32 (value : Z) : M S Z := put (be_bytes 4 value) 4.
Definition write_u32 (value : Z) : M S Z := put (be_bytes 4 value) 4.
Definition write_i64 (value : Z) : M S Z := put (os_put_value64 (u64 value)) 8.
Definition write_u64 (value : Z) : M S Z := put (os_put_value64 value) 8.
Definition write_bool (value : Z) : M S Z := write_byte (if negb (value =? 0) then 1 else 0).
Definition write_ipv4 (value : Z) : M S Z := write_u32 value.
Definition write_ipaddr (value : ip_address) : M S Z :=
  match value with
  | IPv4 b => chk1 (write_byte AF_INET) (fun xfer => put b (xfer + 4))
  | IPv6 b => chk1 (write_byte AF_INET6) (fun xfer => put b (xfer + 16))
  end.
Definition write_uuid_t (value : list byte) : M S Z := put value 16.
(** The bits of the double, as they are in memory. *)
Definition write_double (bits : Z) : M S Z := put (le_bytes 8 bits) 8.

Definition write_binary (buf : list byte) (len : Z) : M S Z :=
  chk1 (write_i32 (i32 len)) (fun xfer =>
  if 0 <? len then
    (d ← get (mread buf 0 len);
     ok ← thrift_transport_write d;
     mret (if ok =? 0 then -1 else i32 (xfer + len)))
  else mret xfer).
(** [strlen]: the bytes in front of the first NUL. *)
Fixpoint cstr (s : list byte) : list byte :=
  match s with
  | [] => []
  | c :: s => if bool_decide (c = x00) then [] else c :: cstr s
  end.
Definition write_string (str : option (list byte)) : M S Z :=
  let len := match str with None => 0 | Some s => u32 (zlen (cstr s)) end in
  write_binary (default [] str) len.
Definition write_xml (str : option (list byte)) : M S Z := write_string str.

Definition write_sandesh_begin (name : option (list byte)) : M S Z :=
  chk1 (write_string name) (fun ret => mret (i32 (0 + ret))).
Definition write_sandesh_end : M S Z := mret 0.
Definition write_struct_begin : M S Z := mret 0.
Definition write_struct_end : M S Z := mret 0.
Definition write_field_begin (field_type : TType) (field_id : Z) : M S Z :=
  xfers [write_byte (i8 (ttype_code field_type)); write_i16 field_id] 0.
Definition write_field_end : M S Z := mret 0.
Definition write_field_stop : M S Z := write_byte (i8 (ttype_code T_STOP)).
Definition write_list_begin (element_type : TType) (size : Z) : M S Z :=
  xfers [write_byte (i8 (ttype_code element_type)); write_i32 (i32 size)] 0.
Definition write_list_end : M S Z := mret 0.

(** *** Reading: what a call leaves in its parameters is [None] when it fails *)
Definition fetch {A} (n : Z) (f : list byte -> A) : M S (Z * option A) :=
  r ← thrift_transport_read n;
  if r.1 <? 0 then mret (-1, None) else mret (r.1, Some (f r.2)).
Definition chk2 {A B} (m : M S (Z * option A)) (k : Z -> A -> M S (Z * option B)) : M S (Z * option B) :=
  r ← m; if r.1 <? 0 then mret (-1, None) else (a ← get r.2; k r.1 a).

Definition read_byte : M S (Z * option Z) := fetch 1 (int_value 1 true).
Definition read_bool : M S (Z * option bool) := fetch 1 (fun b => negb (int_value 1 true b =? 0)).
Definition read_i16 : M S (Z * option Z) := fetch 2 (int_value 2 true).
Definition read_u16 : M S (Z * option Z) := fetch 2 (int_value 2 false).
Definition read_i32 : M S (Z * option Z) := fetch 4 (int_value 4 true).
Definition read_u32 : M S (Z * option Z) := fetch 4 (int_value 4 false).
Definition read_i64 : M S (Z * option Z) := fetch 8 (fun b => i64 (os_get_value64 b)).
Definition read_u64 : M S (Z * option Z) := fetch 8 os_get_value64.
Definition read_ipv4 : M S (Z * option Z) := read_u32.
(** [iptype] is unsigned. *)
Definition read_ipaddr : M S (Z * option ip_address) :=
  chk2 (fetch 1 (int_value 1 false)) (fun xfer iptype =>
  if iptype =? AF_INET then
    chk2 (fetch 4 (fun b => b)) (fun ret b => mret (xfer + ret, Some (IPv4 b)))
  else if iptype =? AF_INET6 then
    chk2 (fetch 16 (fun b => b)) (fun ret b => mret (xfer + ret, Some (IPv6 b)))
  else mret (-1, None)).
Definition read_uuid_t : M S (Z * option (list byte)) := fetch 16 (fun b => b).
Definition read_double : M S (Z * option Z) := fetch 8 le_value.

(** A pointer: null, or the bytes it points to. *)
Definition read_string : M S (Z * option (option (list byte))) :=
  chk2 read_i32 (fun xfer read_len =>
  if 0 <? read_len then
    let len := u32 (read_len + 1) in
    if alloc_ok len then
      chk2 (fetch read_len (fun b => b)) (fun ret b => mret (i32 (xfer + ret), Some (Some b)))
    else undefined
  else mret (xfer, Some None)).
(** [read_xml] is the same function. *)
Definition read_xml : M S (Z * option (option (list byte))) := read_string.
(** When the length cannot be read [*buf] stays as it is; later failures set it to
    null.  The second result says whether [*buf] was set. *)
Definition read_binary : M S (Z * option (option (list byte))) :=
  r ← read_i32;
  if r.1 <? 0 then mret (-1, None)
  else
    read_len ← get r.2;
    if 0 <? read_len then
      if alloc_ok read_len then
        (d ← fetch read_len (fun b => b);
         if d.1 <? 0 then mret (-1, Some None) else mret (i32 (r.1 + d.1), Some d.2))
      else undefined
    else mret (r.1, Some None).

Definition read_sandesh_begin : M S (Z * option (option (list byte))) :=
  chk2 read_string (fun ret name => mret (i32 (0 + ret), Some name)).
Definition read_sandesh_end : M S Z := mret 0.
Definition read_struct_begin : M S Z := mret 0.
Definition read_struct_end : M S Z := mret 0.
(** [old] is what [*field_type] and [*field_id] held. *)
Definition read_field_begin (old : option TType) : M S (Z * option TType * option Z) :=
  r ← read_byte;
  if r.1 <? 0 then mret (-1, old, None)
  else
    type ← get r.2;
    let field_type := ttype_of type in
    if bool_decide (field_type = T_STOP) then mret (r.1, Some field_type, Some 0)
    else
      i ← read_i16;
      if i.1 <? 0 then mret (-1, Some field_type, None)
      else mret (i32 (r.1 + i.1), Some field_type, i.2).
Definition read_field_end : M S Z := mret 0.
Definition read_list_begin : M S (Z * option (TType * Z)) :=
  chk2 read_byte (fun xfer e =>
  chk2 read_i32 (fun ret sizei =>
  if sizei <? 0 then fail_with THRIFT_PROTOCOL_ERROR_NEGATIVE_SIZE (-1, None)
  else mret (i32 (xfer + ret), Some (ttype_of e, u32 sizei)))).
Definition read_list_end : M S Z := mret 0.

(** *** [thrift_protocol_skip]: the results of the calls are added, not looked at *)
Definition code {A} (m : M S (Z * A)) : M S Z := r ← m; mret r.1.

Fixpoint skip_struct_loop (sk : TType -> M S Z) (fuel : nat) (ftype : option TType) (result : Z) : M S Z :=
  match fuel with
  | O => undefined
  | Datatypes.S fuel =>
      '(ret, ftype, _) ← read_field_begin ftype;
      let result := u32 (result + ret) in
      ty ← get ftype;
      if bool_decide (ty = T_STOP) then (ret ← read_struct_end; mret (i32 (u32 (result + ret))))
      else
        ret ← sk ty;
        let result := u32 (result + ret) in
        ret ← read_field_end;
        skip_struct_loop sk fuel ftype (u32 (result + ret))
  end.
Fixpoint skip_list_loop (sk : M S Z) (fuel : nat) (i size result : Z) : M S Z :=
  if i <? size then
    match fuel with
    | O => undefined
    | Datatypes.S fuel => ret ← sk; skip_list_loop sk fuel (u32 (i + 1)) size (u32 (result + ret))
    end
  else (ret ← read_list_end; mret (i32 (u32 (result + ret)))).

Fixpoint thrift_protocol_skip (fuel : nat) (type : TType) : M S Z :=
  match fuel with
  | O => undefined
  | Datatypes.S fuel =>
      match type with
      | T_BOOL => code read_bool
      | T_BYTE => code read_byte
      | T_I16 => code read_i16
      | T_I32 => code read_i32
      | T_I64 => code read_i64
      | T_U16 => code read_u16
      | T_U32 => code read_u32
      | T_U64 => code read_u64
      | T_IPV4 => code read_ipv4
      | T_DOUBLE => code read_double
      | T_STRING | T_XML =>
          r ← read_binary;
          _ ← get r.2; (* [os_free(data)] *)
          mret r.1
      | T_UUID => code read_uuid_t
      | T_STRUCT =>
          ret ← read_struct_begin;
          skip_struct_loop (thrift_protocol_skip fuel) fuel None (u32 (0 + ret))
      | T_LIST =>
          r ← read_list_begin;
          '(elem_type, size) ← get r.2;
          skip_list_loop (thrift_protocol_skip fuel elem_type) fuel 0 size (u32 (0 + r.1))
      | _ => mret 0
      end
  end.

End Operations.
End ThriftBinaryProtocol.

(** ** [thrift_binary_protocol_skip_from_buffer]

    [mem] is the block, [off] where the call starts and [buflen] what it is told
    about the bytes from there; the result is the returned [int32_t].  The type of
    the elements of a list is read as four bytes, of which the code sets the first:
    [upper] is the number the other three make. *)
Section SkipFromBuffer.
Context (upper : Z) (mem : list byte).

Definition need (n buflen result : Z) : option Z := Some (if buflen <? n then -1 else result).

Fixpoint skip_buffer_fields (sk : Z -> Z -> TType -> option Z) (fuel : nat) (off buflen result : Z) : option Z :=
  match fuel with
  | O => None
  | S fuel =>
      if u32 (buflen - result) <? 1 then Some (-1)
      else
        b ← mread mem (off + result) 1;
        let result := u32 (result + 1) in
        let ftype := ttype_of (int_value 1 true b) in
        if bool_decide (ftype = T_STOP) then Some (i32 result)
        else if u32 (buflen - result) <? 2 then Some (-1)
        else
          let result := u32 (result + 2) in
          ret ← sk (off + result) (u32 (buflen - result)) ftype;
          skip_buffer_fields sk fuel off buflen (u32 (result + ret))
  end.

Fixpoint skip_buffer_elems (sk : Z -> Z -> option Z) (fuel : nat) (off buflen i size result : Z) : option Z :=
  if i <? size then
    match fuel with
    | O => None
    | S fuel =>
        ret ← sk (off + result) (u32 (buflen - result));
        skip_buffer_elems sk fuel off buflen (i + 1) size (u32 (result + ret))
    end
  else Some (i32 result).

Fixpoint thrift_binary_protocol_skip_from_buffer (fuel : nat) (off buflen : Z) (type : TType) : option Z :=
  match fuel with
  | O => None
  | S fuel =>
      match type with
      | T_BOOL | T_BYTE => need 1 buflen 1
      | T_I16 | T_U16 => need 2 buflen 2
      | T_I32 | T_U32 | T_IPV4 => need 4 buflen 4
      | T_I64 | T_U64 | T_DOUBLE => need 8 buflen 8
      | T_UUID => need 16 buflen 16
      | T_STRING | T_XML =>
          if buflen <? 4 then Some (-1)
          else
            b ← mread mem off 4;
            let read_len := int_value 4 true b in
            if 0 <? read_len then
              if buflen <? u32 (4 + read_len) then Some (-1) else Some (i32 (u32 (4 + read_len)))
            else Some 4
      | T_STRUCT => skip_buffer_fields (thrift_binary_protocol_skip_from_buffer fuel) fuel off buflen 0
      | T_LIST =>
          if buflen <? 1 then Some (-1)
          else
            b ← mread mem off 1;
            let elem_type := ttype_of (i32 (be_value b + 256 * upper)) in
            if buflen <? 1 + 4 then Some (-1)
            else
              c ← mread mem (off + 1) 4;
              let size := int_value 4 true c in
              if size <? 0 then Some (-1)
              else skip_buffer_elems (fun off buflen =>
                     thrift_binary_protocol_skip_from_buffer fuel off buflen elem_type) fuel off buflen 0 size 5
      | _ => Some 0
      end
  end.

End SkipFromBuffer.
