(* ===== verification/CThriftSpec.v ===== *)
(** * The C library: lemmas

    The memory buffer as a queue of bytes, the writer against an interface of
    transports that either take a write in full or refuse it, and the skips. *)

From S2P Require Import Prelude Transport Protocol Wire CThrift.
Local Open Scope Z_scope.

(** ** The memory buffer *)
Module CBuffer.
Import ThriftMemoryBuffer.

Definition wf (b : t) : Prop :=
  0 <= buf_roffset b /\ buf_roffset b <= buf_woffset b /\ buf_woffset b <= buf_size b /\
  buf_size b <= zlen (mem b) /\ buf_size b < 2 ^ 32 /\ (buf b = None -> buf_size b = 0).

Definition contents (b : t) : list byte :=
  drop (Z.to_nat (buf_roffset b)) (take (Z.to_nat (buf_woffset b)) (mem b)).

Section Proofs.
Context `{!Allocator}.

Lemma cbuf_contents_length b : wf b -> zlen (contents b) = buf_woffset b - buf_roffset b.
Proof. intros (?&?&?&?&?&?). unfold contents. rewrite length_drop, length_take. lia. Qed.

(** [n] more bytes can be made to fit. *)
Definition room (b : t) (n : Z) : Prop :=
  buf_woffset b + n <= buf_size b \/
  (owner b = true /\ buf_woffset b + n <= 2 ^ 31 /\ forall k, 0 <= k < 2 ^ 32 -> alloc_ok k = true).

Lemma available_write_eq b : wf b -> available_write b = buf_size b - buf_woffset b.
Proof. intros (?&?&?&?&?&?). apply wrapU_small. lia. Qed.
Lemma available_read_eq b : wf b -> available_read b = zlen (contents b).
Proof.
  intros Hb. rewrite cbuf_contents_length by done. destruct Hb as (?&?&?&?&?&?). apply wrapU_small. lia.
Qed.

Lemma ensure_can_write_spec b len :
  wf b -> owner b = true -> available_write b < len -> buf_woffset b + len <= 2 ^ 31 ->
  (forall k, 0 <= k < 2 ^ 32 -> alloc_ok k = true) ->
  exists b', ensure_can_write len b = Some (0, b') /\ wf b' /\ contents b' = contents b /\
    buf_woffset b' = buf_woffset b /\ buf_roffset b' = buf_roffset b /\ owner b' = true /\
    buf_woffset b + len <= buf_size b' /\ is_Some (buf b').
Proof.
  intros Hb Ho Hlt Hlen Ha. unfold ensure_can_write. rewrite Ho. cbn [negb].
  rewrite available_write_eq in * by done. destruct Hb as (?&?&?&?&?&?).
  destruct (TMemoryBuffer.grow_spec TMemoryBuffer.grow_fuel len (buf_woffset b) (buf_size b) (buf_size b))
    as (ns&E&?&?); try (unfold TMemoryBuffer.grow_fuel; lia).
  { change (2 ^ (Z.of_nat TMemoryBuffer.grow_fuel - 1)) with (2 ^ 65). destruct (Z.eqb_spec (buf_size b) 0); lia. }
  rewrite (wrapU_small 32) in E by lia. rewrite E. cbn [mbind option_bind].
  unfold TMemoryBuffer.realloc. rewrite Ha by lia. eexists. split; [done|].
  assert (length (resize (Z.to_nat ns) junk (mem b)) = Z.to_nat ns) by apply length_resize.
  assert (take (Z.to_nat (buf_woffset b)) (resize (Z.to_nat ns) junk (mem b))
          = take (Z.to_nat (buf_woffset b)) (mem b)) as Etake.
  { rewrite resize_spec, take_app_le by (rewrite length_take; lia). by rewrite take_take_le by lia. }
  set (m := resize _ _ _) in *. clearbody m.
  split; [unfold wf, mem; simpl; repeat split; (lia || done)|].
  split; [unfold contents; simpl; by rewrite <- Etake|].
  simpl. repeat split; (lia || done || by eexists).
Qed.

(** Copying [data] to the write offset. *)
Lemma cbuf_put_spec c data :
  wf c -> (0 < zlen data -> is_Some (buf c)) -> buf_woffset c + zlen data <= buf_size c ->
  exists m, memcpy (mem c) (buf_woffset c) data = Some m /\
    let c' := set_offsets (buf_roffset c) (u32 (buf_woffset c + zlen data)) (set_mem m c) in
    wf c' /\ contents c' = contents c ++ data /\ buf_woffset c' = buf_woffset c + zlen data.
Proof.
  intros (?&?&?&?&?&Hnull) Hsome Hfit. rewrite memcpy_Some by lia. eexists; split; [done|].
  set (m := take _ _ ++ _). assert (length m = length (mem c)) as Hlen.
  { unfold m. rewrite !length_app, length_take, length_drop. lia. }
  assert (take (Z.to_nat (buf_woffset c + zlen data)) m = take (Z.to_nat (buf_woffset c)) (mem c) ++ data) as Htk.
  { unfold m. rewrite app_assoc, take_app_length'; [done|]. rewrite length_app, length_take. lia. }
  clearbody m. assert (mem (set_mem m c) = m) as Hm.
  { unfold mem, set_mem in *; simpl. destruct (buf c) eqn:Ec; [done|]. by destruct m. }
  rewrite (wrapU_small 32) by lia. cbn zeta. unfold wf, contents.
  change (mem (set_offsets _ _ (set_mem m c))) with (mem (set_mem m c)). rewrite Hm. simpl.
  split; [|split; [|done]].
  - repeat split; try lia. intros E. destruct (buf c); simplify_eq/=; auto.
  - rewrite Htk, drop_app_le by (rewrite length_take; lia). done.
Qed.

Lemma cbuf_write_append b data :
  wf b -> room b (zlen data) ->
  exists b', thrift_memory_buffer_write b data = Some (1, None, b') /\ wf b' /\
    contents b' = contents b ++ data /\ buf_woffset b' = buf_woffset b + zlen data /\
    owner b' = owner b /\ (buf_woffset b + zlen data <= buf_size b -> buf_size b' = buf_size b).
Proof.
  intros Hb Hroom. unfold thrift_memory_buffer_write. cbn zeta.
  pose proof (available_write_eq b Hb) as Ew. rewrite Ew.
  destruct (Z.ltb_spec (buf_size b - buf_woffset b) (zlen data)) as [Hlt|Hge].
  - destruct Hroom as [?|(Ho&?&?)]; [lia|].
    destruct (ensure_can_write_spec b (zlen data)) as (c&->&Hc&Ec&Ewc&Erc&Eo&?&?); [done..|lia|lia|done|].
    cbn [mbind option_bind negb Z.eqb].
    destruct (cbuf_put_spec c data Hc) as (m&->&Hw&Ec'&Ew'); [done|lia|]. cbn [mbind option_bind].
    eexists. split; [done|]. split; [done|]. split; [by rewrite Ec', Ec|].
    split; [by rewrite Ew', Ewc|]. split; [by rewrite Ho|lia].
  - cbn [mbind option_bind negb Z.eqb].
    destruct (cbuf_put_spec b data Hb) as (m&->&Hw&Ec'&Ew'); [|lia|].
    { intros. destruct Hb as (?&?&?&?&?&Hnull). destruct (buf b); [by eexists|].
      specialize (Hnull eq_refl). lia. }
    cbn [mbind option_bind]. eexists. split; [done|]. split; [done|]. done.
Qed.

(** Somebody else's block never grows. *)
Lemma write_refused b data :
  wf b -> owner b = false -> buf_size b < buf_woffset b + zlen data ->
  thrift_memory_buffer_write b data = Some (0, Some THRIFT_TRANSPORT_ERROR_SEND, b).
Proof.
  intros Hb Ho Hlt. unfold thrift_memory_buffer_write. cbn zeta. rewrite available_write_eq by done.
  destruct (Z.ltb_spec (buf_size b - buf_woffset b) (zlen data)); [|lia].
  unfold ensure_can_write. by rewrite Ho.
Qed.

Lemma cbuf_read_front b n :
  wf b -> 0 <= n < 2 ^ 31 -> n <= zlen (contents b) ->
  exists b', thrift_memory_buffer_read b n = Some (n, take (Z.to_nat n) (contents b), None, b') /\ wf b' /\
    contents b' = drop (Z.to_nat n) (contents b) /\ owner b' = owner b /\ buf_size b' = buf_size b /\
    buf_woffset b' = (if n =? zlen (contents b) then 0 else buf_woffset b).
Proof.
  intros Hb Hn Hlen. unfold thrift_memory_buffer_read. rewrite available_read_eq by done.
  destruct (Z.ltb_spec (zlen (contents b)) n); [lia|].
  pose proof (cbuf_contents_length b Hb) as Hcl. destruct Hb as (?&?&?&?&?&Hnull).
  rewrite mread_Some by lia. cbn [mbind option_bind]. rewrite (wrapS_small 32), (wrapU_small 32) by lia.
  assert (take (Z.to_nat n) (drop (Z.to_nat (buf_roffset b)) (mem b)) = take (Z.to_nat n) (contents b)) as ->.
  { unfold contents. rewrite skipn_firstn_comm, take_take_le by lia. done. }
  eexists. split; [done|]. cbn [buf_woffset set_offsets].
  destruct (Z.eqb_spec (buf_roffset b + n) (buf_woffset b)), (Z.eqb_spec n (zlen (contents b))); try lia.
  - split; [unfold wf, mem in *; simpl; repeat split; (lia || done)|]. split; [|done].
    unfold contents at 1. cbn [buf_roffset buf_woffset set_offsets]. change (Z.to_nat 0) with 0%nat.
    rewrite take_0, drop_nil, drop_ge; [done|]. lia.
  - split; [unfold wf, mem in *; simpl; repeat split; (lia || done)|]. split; [|done].
    unfold contents. simpl. rewrite drop_drop. f_equal. lia.
Qed.

Lemma read_short b n :
  wf b -> zlen (contents b) < n ->
  thrift_memory_buffer_read b n = Some (-1, [], Some THRIFT_TRANSPORT_ERROR_RECEIVE, b).
Proof.
  intros Hb Hn. unfold thrift_memory_buffer_read. rewrite available_read_eq by done.
  by destruct (Z.ltb_spec (zlen (contents b)) n); [|lia].
Qed.

Lemma init_external m :
  zlen m < 2 ^ 32 ->
  let b := thrift_memory_buffer_init (Some m) (zlen m) in wf b /\ contents b = [] /\ owner b = false.
Proof. intros. split; [|done]. unfold wf, mem; simpl. repeat split; (lia || done). Qed.

End Proofs.
End CBuffer.

(** ** What a writer can rely on: a write is taken in full or refused *)
Definition fits_room (r : option Z) (n : Z) : bool :=
  match r with None => true | Some r => n <=? r end.

Class CWriteLaws (T : Type) `{CTransport T} := {
  c_ok : T -> Prop;
  (** how many bytes fit; [None] is no bound *)
  c_room : T -> option Z;
  (** [c_wrote t t' d]: [t'] is [t] with [d] behind *)
  c_wrote : T -> T -> list byte -> Prop;
  c_room_nonneg t n : c_ok t -> c_room t = Some n -> 0 <= n;
  c_wrote_refl t : c_wrote t t [];
  c_wrote_app t1 t2 t3 a b : c_wrote t1 t2 a -> c_wrote t2 t3 b -> c_wrote t1 t3 (a ++ b);
  c_write_spec t d :
    c_ok t ->
    if fits_room (c_room t) (zlen d)
    then exists t', c_write t d = Some (1, None, t') /\ c_ok t' /\ c_wrote t t' d /\
           c_room t' = (fun n => n - zlen d) <$> c_room t
    else exists t', c_write t d = Some (0, Some THRIFT_TRANSPORT_ERROR_SEND, t') /\ c_ok t';
}.

Definition fits `{CWriteLaws T} (t : T) (n : Z) : bool := fits_room (c_room t) n.

(** A block of the caller's. *)
#[export] Instance external_laws `{!Allocator} : CWriteLaws ThriftMemoryBuffer.t.
Proof.
  refine {|
    c_ok b := CBuffer.wf b /\ ThriftMemoryBuffer.owner b = false;
    c_room b := Some (ThriftMemoryBuffer.buf_size b - ThriftMemoryBuffer.buf_woffset b);
    c_wrote b b' d := CBuffer.contents b' = CBuffer.contents b ++ d |}.
  - intros b n [(?&?&?&?) _] [= <-]. lia.
  - intros b. by rewrite app_nil_r.
  - intros b1 b2 b3 d e E1 E2. by rewrite E2, E1, app_assoc.
  - intros b d [Hb Ho]. unfold fits_room. destruct (Z.leb_spec (zlen d) (ThriftMemoryBuffer.buf_size b - ThriftMemoryBuffer.buf_woffset b)).
    + destruct (CBuffer.cbuf_write_append b d Hb) as (b'&E&Hb'&Ec&Ew&Eo&Es); [left; lia|].
      exists b'. split; [exact E|]. split; [by rewrite Eo|]. split; [done|]. cbn [fmap option_fmap option_map].
      rewrite Ew, Es by lia. f_equal. lia.
    + exists b. split; [apply CBuffer.write_refused; (done || lia)|done].
Defined.

#[export] Instance fake_laws : CWriteLaws ThriftFakeTransport.t.
Proof.
  refine {| c_ok _ := True; c_room _ := None; c_wrote _ _ _ := True |}; try done.
  intros t d _. by exists t.
Defined.

(** ** 64-bit values *)
Lemma byte_of_Z_shift value k :
  byte_of_Z (Z.land (Z.shiftr value (8 * Z.of_nat k)) 0xff) = byte_of_Z (value / 256 ^ Z.of_nat k).
Proof.
  unfold byte_of_Z. change 255 with (Z.ones 8). rewrite Z.land_ones, Z.shiftr_div_pow2 by lia.
  rewrite Z.mod_mod by lia. by rewrite Z.pow_mul_r by lia.
Qed.

Lemma le_bytes_div n z : le_bytes n z = map (fun i => byte_of_Z (z / 256 ^ Z.of_nat i)) (seq 0 n).
Proof.
  revert z. induction n as [|n IH]; intros z; [done|]. cbn [le_bytes seq map].
  rewrite Z.div_1_r. f_equal. rewrite IH, <- seq_shift, map_map. apply map_ext. intros i.
  f_equal. rewrite Nat2Z.inj_succ, Z.pow_succ_r, Z.div_div by lia. done.
Qed.

Lemma os_put_value64_be z : os_put_value64 z = be_bytes 8 z.
Proof.
  unfold be_bytes. rewrite le_bytes_div. unfold os_put_value64. cbn [seq map rev app].
  repeat match goal with |- byte_of_Z _ :: _ = _ => f_equal end;
    match goal with |- byte_of_Z (Z.land (Z.shiftr _ ?o) _) = byte_of_Z (_ / 256 ^ Z.of_nat ?k) =>
      change o with (8 * Z.of_nat k) end; apply byte_of_Z_shift.
Qed.

Lemma be_value_app l b : be_value (l ++ [b]) = 256 * be_value l + byte_to_Z b.
Proof. unfold be_value. rewrite rev_app_distr. cbn [rev app le_value]. lia. Qed.

Lemma be_value_range l : 0 <= be_value l < 256 ^ zlen l.
Proof.
  induction l as [|b l IH] using rev_ind; [by cbn|]. rewrite be_value_app, length_app, Nat2Z.inj_add.
  rewrite Z.pow_add_r by lia. pose proof (byte_to_Z_range b). change (256 ^ zlen [b]) with 256. nia.
Qed.

Lemma os_get_value64_be l : (length l <= 8)%nat -> os_get_value64 l = be_value l.
Proof.
  unfold os_get_value64. induction l as [|b l IH] using rev_ind; [done|]. rewrite length_app. cbn [length].
  intros Hl. rewrite foldl_app. cbn [foldl]. rewrite IH by lia. rewrite be_value_app.
  pose proof (be_value_range l) as Hr. pose proof (byte_to_Z_range b).
  assert (256 ^ zlen l <= 256 ^ 7) by (apply Z.pow_le_mono_r; lia). change (256 ^ 7) with (2 ^ 56) in *.
  rewrite Z.shiftl_mul_pow2 by lia. change (2 ^ 8) with 256.
  rewrite (wrapU_small 64 (_ * 256)), (wrapU_small 64) by lia. lia.
Qed.

(** ** The values of the C library *)

(** No sets and maps; a message only at the top; strings end at a NUL. *)
Fixpoint c_value (v : value) : bool :=
  let fields := forallb (fun f : Z * value => negb (bool_decide (type_of f.2 = T_SANDESH)) && c_value f.2) in
  match v with
  | VBytes _ l => bool_decide (x00 ∉ l)
  | VStruct fs => fields fs
  | VSandesh name fs => bool_decide (x00 ∉ name) && fields fs
  | VList ety vs => negb (bool_decide (ety = T_SANDESH)) && forallb c_value vs
  | VSet _ _ | VMap _ _ _ => false
  | _ => true
  end.

(** Doubles are written as they lie in memory: the other way round. *)
Definition bswap_64 (bits : Z) : Z := be_value (le_bytes 8 bits).
Fixpoint host_doubles (v : value) : value :=
  let fields := map (fun f : Z * value => (f.1, host_doubles f.2)) in
  match v with
  | VDouble bits => VDouble (bswap_64 bits)
  | VStruct fs => VStruct (fields fs)
  | VSandesh name fs => VSandesh name (fields fs)
  | VList ety vs => VList ety (map host_doubles vs)
  | VSet ety vs => VSet ety (map host_doubles vs)
  | VMap kty vty kvs => VMap kty vty (map (fun kv => (host_doubles kv.1, host_doubles kv.2)) kvs)
  | _ => v
  end.

Lemma host_doubles_type v : type_of (host_doubles v) = type_of v.
Proof. by destruct v. Qed.

Lemma forallb_map_impl {A B} (f : A -> B) (p : A -> bool) (q : B -> bool) l :
  Forall (fun a => p a = true -> q (f a) = true) l -> forallb p l = true -> forallb q (map f l) = true.
Proof.
  induction 1 as [|a l Ha _ IH]; [done|]. cbn. rewrite !andb_true_iff. intros [H1 H2]. auto.
Qed.

Lemma host_doubles_ok v : value_ok v = true -> value_ok (host_doubles v) = true.
Proof.
  induction v as [b|ty z|a|bits|ty l|l|fs IH|name fs IH|ety vs IH|ety vs IH|kty vty kvs IH]
    using value_parts_ind; cbn [host_doubles value_ok]; try done; rewrite ?length_map.
  - intros _. unfold bswap_64, int_fits. pose proof (be_value_range (le_bytes 8 bits)) as Hr.
    rewrite length_le_bytes in Hr. change (256 ^ Z.of_nat 8) with (2 ^ 64) in Hr.
    change (2 ^ (8 * Z.of_nat 8)) with (2 ^ 64). set (x := be_value _) in *. clearbody x. lia.
  - apply forallb_map_impl. eapply Forall_impl; [|exact IH]. cbn. intros f Hf. rewrite !andb_true_iff. tauto.
  - rewrite !andb_true_iff. intros [Hn Hf]. split; [done|]. revert Hf. apply forallb_map_impl.
    eapply Forall_impl; [|exact IH]. cbn. intros f Hf. rewrite !andb_true_iff. tauto.
  - rewrite !andb_true_iff. intros [Hn Hf]. split; [done|]. revert Hf. apply forallb_map_impl.
    eapply Forall_impl; [|exact IH]. cbn. intros v Hv. rewrite host_doubles_type, !andb_true_iff. tauto.
  - rewrite !andb_true_iff. intros [Hn Hf]. split; [done|]. revert Hf. apply forallb_map_impl.
    eapply Forall_impl; [|exact IH]. cbn. intros v Hv. rewrite host_doubles_type, !andb_true_iff. tauto.
  - rewrite !andb_true_iff. intros [Hn Hf]. split; [done|]. revert Hf. apply forallb_map_impl.
    eapply Forall_impl; [|exact IH]. cbn. intros kv Hkv. rewrite !host_doubles_type, !andb_true_iff. tauto.
Qed.

(** Without doubles nothing changes. *)
Fixpoint no_double (v : value) : bool :=
  match v with
  | VDouble _ => false
  | VStruct fs | VSandesh _ fs => forallb (fun f => no_double f.2) fs
  | VList _ vs | VSet _ vs => forallb no_double vs
  | VMap _ _ kvs => forallb (fun kv => no_double kv.1 && no_double kv.2) kvs
  | _ => true
  end.

Lemma map_id_forallb {A} (f : A -> A) (p : A -> bool) l :
  Forall (fun a => p a = true -> f a = a) l -> forallb p l = true -> map f l = l.
Proof.
  induction 1 as [|a l Ha _ IH]; [done|]. cbn. rewrite andb_true_iff. intros [H1 H2]. by rewrite Ha, IH.
Qed.

Lemma host_doubles_id v : no_double v = true -> host_doubles v = v.
Proof.
  induction v as [b|ty z|a|bits|ty l|l|fs IH|name fs IH|ety vs IH|ety vs IH|kty vty kvs IH]
    using value_parts_ind; cbn [host_doubles no_double]; try done; intros Hn; f_equal; revert Hn.
  - apply map_id_forallb. eapply Forall_impl; [|exact IH]. cbn. intros [i v] Hv Hp. cbn in *. by rewrite Hv.
  - apply map_id_forallb. eapply Forall_impl; [|exact IH]. cbn. intros [i v] Hv Hp. cbn in *. by rewrite Hv.
  - by apply map_id_forallb.
  - by apply map_id_forallb.
  - apply map_id_forallb. eapply Forall_impl; [|exact IH]. cbn. intros [k v] [Hk Hv] [H1 H2]%andb_true_iff.
    cbn in *. by rewrite Hk, Hv.
Qed.

(** ** Writing *)
Module CWriter.
Import ThriftBinaryProtocol.

Section Writer.
Context `{!Allocator} {T : Type} `{CL : CWriteLaws T}.
Abbreviation S := (t T).

(** [m] emits [d] and returns its length, or returns -1 and sets the error when [d]
    does not fit. *)
Definition writes (m : M S Z) (d : list byte) : Prop :=
  forall s, c_ok (transport s) -> zlen d < 2 ^ 31 ->
  if fits (transport s) (zlen d)
  then exists s', m s = Some (zlen d, s') /\ c_ok (transport s') /\
         c_wrote (transport s) (transport s') d /\ error s' = error s /\
         c_room (transport s') = (fun n => n - zlen d) <$> c_room (transport s)
  else exists s', m s = Some (-1, s') /\ c_ok (transport s') /\ error s' = THRIFT_TRANSPORT_ERROR_SEND.

Lemma fits_0 t n : c_ok t -> n <= 0 -> fits t n = true.
Proof.
  intros Hok Hn. unfold fits, fits_room. destruct (c_room t) as [r|] eqn:E; [|done].
  pose proof (c_room_nonneg t r Hok E). lia.
Qed.

(** [put] with a count of its own. *)
Lemma put_spec_n d n s :
  zlen d < 2 ^ 31 -> c_ok (transport s) ->
  if fits (transport s) (zlen d)
  then exists s', put d n s = Some (n, s') /\ c_ok (transport s') /\
         c_wrote (transport s) (transport s') d /\ error s' = error s /\
         c_room (transport s') = (fun n => n - zlen d) <$> c_room (transport s)
  else exists s', put d n s = Some (-1, s') /\ c_ok (transport s') /\ error s' = THRIFT_TRANSPORT_ERROR_SEND.
Proof.
  intros Hsz Hok. unfold put, thrift_transport_write, mbind, M_bind, fits.
  pose proof (c_write_spec (transport s) d Hok) as Hw. destruct (fits_room (c_room (transport s)) (zlen d)).
  - destruct Hw as (t'&->&?&?&?). cbn. by eexists.
  - destruct Hw as (t'&->&?). cbn. by eexists.
Qed.
Lemma put_writes d n : n = zlen d -> writes (put d n) d.
Proof. intros -> s Hok Hsz. by apply put_spec_n. Qed.

Lemma ret_writes : writes (mret 0) [].
Proof.
  intros s Hok _. rewrite fits_0 by done. exists s. split; [done|]. split; [done|].
  split; [apply c_wrote_refl|]. split; [done|]. destruct (c_room (transport s)); cbn; [|done]. f_equal. lia.
Qed.

Lemma fits_app (s s' : S) (d : list byte) n :
  c_room (transport s') = (fun n => n - zlen d) <$> c_room (transport s) ->
  fits (transport s : T) (zlen d + n) = fits (transport s') n.
Proof.
  unfold fits, fits_room. intros ->. destruct (c_room (transport s)) as [r|]; [|done]. cbn.
  destruct (Z.leb_spec (zlen d + n) r), (Z.leb_spec n (r - zlen d)); (done || lia).
Qed.
Lemma fits_le s n m : fits (s : T) n = false -> n <= m -> fits s m = false.
Proof. unfold fits, fits_room. destruct (c_room s); [|done]. lia. Qed.

(** A call that may be refused, then the rest. *)
Lemma chk1_writes m d (k : Z -> M S Z) e :
  writes m d ->
  (forall s, c_ok (transport s) -> zlen d + zlen e < 2 ^ 31 ->
    if fits (transport s) (zlen e)
    then exists s', k (zlen d) s = Some (zlen d + zlen e, s') /\ c_ok (transport s') /\
           c_wrote (transport s) (transport s') e /\ error s' = error s /\
           c_room (transport s') = (fun n => n - zlen e) <$> c_room (transport s)
    else exists s', k (zlen d) s = Some (-1, s') /\ c_ok (transport s') /\
           error s' = THRIFT_TRANSPORT_ERROR_SEND) ->
  writes (chk1 m k) (d ++ e).
Proof.
  intros Hm Hk s Hok Hsz. rewrite length_app, Nat2Z.inj_add in *. unfold chk1, mbind, M_bind.
  specialize (Hm s Hok ltac:(lia)). destruct (fits (transport s) (zlen d)) eqn:Ef.
  - destruct Hm as (s1&->&Hok1&W1&Ee1&R1). cbn [mbind option_bind].
    destruct (Z.ltb_spec (zlen d) 0); [lia|]. rewrite (fits_app s s1 d (zlen e) R1).
    specialize (Hk s1 Hok1 Hsz). destruct (fits (transport s1) (zlen e)).
    + destruct Hk as (s2&->&?&W2&Ee2&R2). exists s2. split; [done|]. split; [done|].
      split; [by eapply c_wrote_app|]. split; [congruence|]. rewrite R2, R1.
      destruct (c_room (transport s)); [|done]. cbn. f_equal. lia.
    + destruct Hk as (s2&->&?&?). by exists s2.
  - rewrite (fits_le _ _ (zlen d + zlen e) Ef) by lia. destruct Hm as (s1&->&?&?). cbn. by exists s1.
Qed.

Lemma xfers_writes ms ds : Forall2 writes ms ds -> forall s xfer,
  c_ok (transport s) -> 0 <= xfer -> xfer + zlen (concat ds) < 2 ^ 31 ->
  if fits (transport s) (zlen (concat ds))
  then exists s', xfers ms xfer s = Some (xfer + zlen (concat ds), s') /\ c_ok (transport s') /\
         c_wrote (transport s) (transport s') (concat ds) /\ error s' = error s /\
         c_room (transport s') = (fun n => n - zlen (concat ds)) <$> c_room (transport s)
  else exists s', xfers ms xfer s = Some (-1, s') /\ c_ok (transport s') /\
         error s' = THRIFT_TRANSPORT_ERROR_SEND.
Proof.
  induction 1 as [|m d ms ds Hm _ IH]; intros s xfer Hok H0' Hsz; cbn [xfers concat] in *.
  - pose proof (ret_writes s Hok) as Hr. rewrite fits_0 in * by done. specialize (Hr ltac:(done)).
    destruct Hr as (s'&[= <-]&?). exists s. rewrite Z.add_0_r. done.
  - rewrite length_app, Nat2Z.inj_add in *. specialize (Hm s Hok ltac:(lia)).
    unfold chk1, mbind, M_bind. destruct (fits (transport s) (zlen d)) eqn:Ef.
    + destruct Hm as (s1&->&Hok1&W1&Ee1&R1). cbn [mbind option_bind].
      destruct (Z.ltb_spec (zlen d) 0); [lia|]. rewrite (fits_app s s1 d _ R1), (wrapS_small 32) by lia.
      specialize (IH s1 (xfer + zlen d) Hok1 ltac:(lia) ltac:(lia)).
      destruct (fits (transport s1) (zlen (concat ds))).
      * destruct IH as (s2&->&?&W2&Ee2&R2). exists s2. split; [by do 2 f_equal; lia|]. split; [done|].
        split; [by eapply c_wrote_app|]. split; [congruence|]. rewrite R2, R1.
        destruct (c_room (transport s)); [|done]. cbn. f_equal. lia.
      * destruct IH as (s2&->&?&?). by exists s2.
    + rewrite (fits_le _ _ (zlen d + zlen (concat ds)) Ef) by lia. destruct Hm as (s1&->&?&?). cbn. by exists s1.
Qed.

Lemma writes_eq m d d' : writes m d -> d = d' -> writes m d'.
Proof. by intros ? <-. Qed.
Lemma calls_writes ms ds d : Forall2 writes ms ds -> concat ds = d -> writes (xfers ms 0) d.
Proof. intros Hms <- s Hok Hsz. by apply (xfers_writes ms ds Hms s 0). Qed.

(** *** The operations *)
Ltac writes_int := apply put_writes; by rewrite length_be_bytes.
Lemma write_byte_writes z : writes (write_byte z) (be_bytes 1 z).
Proof. writes_int. Qed.
Lemma write_code_writes ty : writes (write_byte (i8 (ttype_code ty))) (byte_code ty).
Proof.
  eapply writes_eq; [apply write_byte_writes|]. apply be_bytes_low. by apply (wrapU_wrapS (8 * Z.of_nat 1)).
Qed.
Lemma write_count_writes n : writes (write_i32 (i32 n)) (count n).
Proof.
  eapply writes_eq; [writes_int|]. apply be_bytes_low. by apply (wrapU_wrapS (8 * Z.of_nat 4)).
Qed.

Lemma cstr_id l : x00 ∉ l -> cstr l = l.
Proof.
  induction l as [|c l IH]; [done|]. intros [Hc Hl]%not_elem_of_cons. cbn [cstr].
  by rewrite bool_decide_eq_false_2, IH by done.
Qed.

Lemma write_string_writes l :
  zlen l < 2 ^ 31 -> x00 ∉ l -> writes (write_string (Some l)) (count (zlen l) ++ l).
Proof.
  intros Hl Hn. unfold write_string. rewrite cstr_id, (wrapU_small 32) by (done || lia). cbn [default].
  apply chk1_writes; [apply write_count_writes|]. intros s Hok Hsz.
  destruct (Z.ltb_spec 0 (zlen l)) as [Hpos|Hz].
  - pose proof (put_spec_n l (zlen (count (zlen l)) + zlen l) s ltac:(lia) Hok) as Hp.
    cbn [default id]. match goal with |- context [?k s = Some (_ + _, _)] => assert (k s =
      put l (zlen (count (zlen l)) + zlen l) s) as -> end; [|done].
    rewrite mread_Some by lia. change (Z.to_nat 0) with 0%nat. rewrite drop_0, Nat2Z.id, firstn_all.
    rewrite (bind_run _ _ _ _ _ (eq_refl (Some (l, s)))). unfold put, mbind, M_bind.
    destruct (thrift_transport_write l s) as [[ok s']|]; [|done]. cbn [mbind option_bind].
    rewrite (wrapS_small 32) by lia. by destruct (ok =? 0).
  - destruct l; [|simpl in *; lia]. change (zlen (@nil byte)) with 0 in *. rewrite Z.add_0_r in *.
    pose proof (ret_writes s Hok ltac:(done)) as Hr. rewrite fits_0 in * by done.
    destruct Hr as (s'&[= <-]&Hr). by exists s.
Qed.

Lemma write_ipaddr_writes a : value_ok (VIp a) = true -> writes (write_ipaddr a) (encode (VIp a)).
Proof.
  intros Ha. destruct a as [b|b]; cbn [value_ok encode write_ipaddr] in *; apply bool_decide_eq_true_1 in Ha;
    (apply chk1_writes; [apply write_byte_writes|]); intros s Hok Hsz; rewrite length_be_bytes in *;
    change (Z.of_nat 1) with 1 in *; (replace (zlen b) with (Z.of_nat (length b)) by done);
    rewrite Ha; pose proof (put_spec_n b (1 + Z.of_nat (length b)) s ltac:(lia) Hok) as Hp; by rewrite Ha in Hp.
Qed.

(** *** A whole value: the calls of the generated C writers *)
Definition write_int (ty : TType) (z : Z) : M S Z :=
  match ty with
  | T_BYTE => write_byte z | T_I16 => write_i16 z | T_I32 => write_i32 z | T_I64 => write_i64 z
  | T_U16 => write_u16 z | T_U32 => write_u32 z | T_U64 => write_u64 z | T_IPV4 => write_ipv4 z
  | _ => mret (-1)
  end.

Fixpoint write_value (v : value) : M S Z :=
  let field f := xfers [write_field_begin (type_of f.2) f.1; write_value f.2; write_field_end] 0 in
  match v with
  | VBool b => write_bool (if b then 1 else 0)
  | VInt ty z => write_int ty z
  | VIp a => write_ipaddr a
  | VDouble bits => write_double bits
  | VBytes T_XML l => write_xml (Some l)
  | VBytes _ l => write_string (Some l)
  | VUuid l => write_uuid_t l
  | VStruct fs => xfers ([write_struct_begin] ++ map field fs ++ [write_field_stop; write_struct_end]) 0
  | VSandesh name fs =>
      xfers ([write_sandesh_begin (Some name)] ++ map field fs ++ [write_field_stop; write_sandesh_end]) 0
  | VList ety vs => xfers ([write_list_begin ety (zlen vs)] ++ map write_value vs ++ [write_list_end]) 0
  | VSet _ _ | VMap _ _ _ => mret (-1)
  end.

Lemma write_int_writes ty z : value_ok (VInt ty z) = true -> writes (write_int ty z) (encode (VInt ty z)).
Proof.
  destruct ty; intros Hv; try done; cbn [encode int_info write_int]; try writes_int.
  - unfold write_u64. rewrite os_put_value64_be. writes_int.
  - unfold write_i64. rewrite os_put_value64_be.
    rewrite (be_bytes_low 8 (u64 z) z) by (unfold wrapU; by rewrite Z.mod_mod). writes_int.
Qed.

Lemma Forall2_map_writes {A} (f : A -> M S Z) (g : A -> list byte) l :
  Forall (fun a => writes (f a) (g a)) l -> Forall2 writes (map f l) (map g l).
Proof. induction 1; constructor; done. Qed.
Lemma parts_writes {A} (f : A -> M S Z) (g : A -> list byte) first last dfirst dlast l d :
  writes first dfirst -> Forall2 writes last dlast -> Forall (fun a => writes (f a) (g a)) l ->
  dfirst ++ concat (map g l) ++ concat dlast = d -> writes (xfers ([first] ++ map f l ++ last) 0) d.
Proof.
  intros Hf Hl Hms <-. eapply calls_writes.
  - constructor; [exact Hf|]. apply Forall2_app; [by apply Forall2_map_writes|exact Hl].
  - cbn [app concat]. by rewrite concat_app.
Qed.

Lemma write_fields_writes first dfirst last fs d :
  writes first dfirst -> writes last [] ->
  forallb (fun f : Z * value => int_fits 2 true f.1 && value_ok f.2) fs = true ->
  forallb (fun f : Z * value => negb (bool_decide (type_of f.2 = T_SANDESH)) && c_value f.2) fs = true ->
  Forall (fun f => value_ok f.2 = true -> c_value f.2 = true ->
            writes (write_value f.2) (encode (host_doubles f.2))) fs ->
  dfirst ++ encode_fields (map (fun f => (f.1, host_doubles f.2)) fs) = d ->
  writes (xfers ([first] ++ map (fun f => xfers [write_field_begin (type_of f.2) f.1;
                                   write_value f.2; write_field_end] 0) fs ++ [write_field_stop; last]) 0) d.
Proof.
  intros Hf Hlast Hok Hc Hfs <-.
  apply (parts_writes _ (fun f => encode_field (f.1, host_doubles f.2)) first _ dfirst [byte_code T_STOP; []]); [done| | |].
  - repeat constructor; [apply write_code_writes|done].
  - rewrite Forall_forall in *. intros f Hin.
    apply forallb_forall with (x := f) in Hok; [|done]. apply forallb_forall with (x := f) in Hc; [|done].
    zify_bools.
    apply (calls_writes _ [byte_code (type_of f.2) ++ be_bytes 2 f.1; encode (host_doubles f.2); []]);
      [|unfold encode_field; cbn [concat fst snd]; by rewrite host_doubles_type, app_nil_r, <- !app_assoc].
    repeat constructor; [|by apply Hfs|apply ret_writes].
    apply (calls_writes _ [byte_code (type_of f.2); be_bytes 2 f.1]);
      [|cbn [concat]; by rewrite app_nil_r]. repeat constructor; [apply write_code_writes|writes_int].
  - unfold encode_fields. rewrite map_map. cbn [concat]. by rewrite app_nil_r.
Qed.

Lemma write_sandesh_begin_writes name :
  zlen name < 2 ^ 31 -> x00 ∉ name -> writes (write_sandesh_begin (Some name)) (count (zlen name) ++ name).
Proof.
  intros Hl Hn s Hok Hsz. unfold write_sandesh_begin, chk1, mbind, M_bind.
  pose proof (write_string_writes name Hl Hn s Hok Hsz) as Hw.
  destruct (fits (transport s) (zlen (count (zlen name) ++ name))); destruct Hw as (s'&->&Hw);
    cbn [mbind option_bind]; exists s'; (split; [|done]); [|done].
  destruct (Z.ltb_spec (zlen (count (zlen name) ++ name)) 0); [lia|].
  unfold mret, M_ret. by rewrite Z.add_0_l, (wrapS_small 32) by lia.
Qed.

(** Every value of the C library is emitted as the encoding of the value with its
    doubles in host order, or refused as a whole. *)
Lemma write_value_writes v :
  value_ok v = true -> c_value v = true -> writes (write_value v) (encode (host_doubles v)).
Proof.
  induction v as [b|ty z|a|bits|ty l|l|fs IH|name fs IH|ety vs IH|ety vs IH|kty vty kvs IH]
    using value_parts_ind; intros Hv Hc; try done; cbn [write_value host_doubles].
  - destruct b; apply write_byte_writes.
  - by apply write_int_writes.
  - by apply write_ipaddr_writes.
  - cbn [encode]. unfold write_double.
    assert (be_bytes 8 (bswap_64 bits) = le_bytes 8 bits) as ->.
    { unfold bswap_64. rewrite <- (length_le_bytes 8 bits) at 1. apply be_bytes_value. }
    apply put_writes. by rewrite length_le_bytes.
  - cbn [value_ok c_value encode] in *. zify_bools. destruct ty; by apply write_string_writes.
  - cbn [value_ok encode] in *. zify_bools. apply put_writes. lia.
  - apply (write_fields_writes _ []); [apply ret_writes..|done|done|done|done].
  - cbn [value_ok c_value] in *. zify_bools.
    apply (write_fields_writes _ (count (zlen name) ++ name)); [by apply write_sandesh_begin_writes|
      apply ret_writes|done|done|done|done].
  - cbn [value_ok c_value] in *. zify_bools.
    apply (parts_writes _ (fun v => encode (host_doubles v)) _ _ (byte_code ety ++ count (zlen vs)) [[]]).
    + apply (calls_writes _ [byte_code ety; count (zlen vs)]); [|cbn [concat]; by rewrite app_nil_r].
      repeat constructor; [apply write_code_writes|apply write_count_writes].
    + repeat constructor. apply ret_writes.
    + rewrite Forall_forall in *. intros v Hin. apply IH; [done| |];
        match goal with Hf : forallb ?p vs = true |- ?p' = true => apply forallb_forall with (x := v) in Hf; [|done] end;
        match goal with Hf : forallb ?p vs = true |- ?p' = true => apply forallb_forall with (x := v) in Hf; [|done] end;
        by zify_bools.
    + cbn [encode concat]. by rewrite length_map, map_map, app_nil_r, <- app_assoc.
Qed.

End Writer.
End CWriter.
