(* ===== verification/CReaderSpec.v ===== *)
(** * The C library: reading

    In front of the encoding of a value the generated C readers return the value; in
    front of a part of it they return -1 and set the error.  And what
    [thrift_binary_protocol_skip_from_buffer] takes. *)

From S2P Require Import Prelude Transport Protocol Wire CThrift CThriftSpec.
Local Open Scope Z_scope.

Module CReader.
Import ThriftBinaryProtocol.

Section Reader.
Context `{!Allocator} (Halloc : forall k, alloc_ok k = true).
Abbreviation S := (t ThriftMemoryBuffer.t).

Definition ready (s : S) (l : list byte) : Prop :=
  CBuffer.wf (transport s) /\ CBuffer.contents (transport s) = l.

(** [l] is [d] cut short. *)
Definition cut (l d : list byte) : Prop := exists k, d = l ++ k /\ k <> [].

(** All of [d] is there: [a]; a part of it: -1 and the error. *)
Definition reads {A} (m : M S (Z * option A)) (d : list byte) (a : A) : Prop :=
  forall s, zlen d < 2 ^ 31 ->
  (forall rest, ready s (d ++ rest) ->
    exists s', m s = Some ((zlen d, Some a), s') /\ ready s' rest /\ error s' = error s) /\
  (forall l, ready s l -> cut l d ->
    exists s' o, m s = Some ((-1, o), s') /\ error s' = THRIFT_TRANSPORT_ERROR_RECEIVE).

Lemma cut_shorter l d : cut l d -> zlen l < zlen d.
Proof. intros (k&->&Hk). rewrite length_app. destruct k; [done|]. cbn. lia. Qed.

(** A part of [d ++ e] is a part of [d], or all of [d] and a part of [e]. *)
Lemma cut_app l d e : cut l (d ++ e) -> cut l d \/ exists l', l = d ++ l' /\ cut l' e.
Proof.
  intros (k&E&Hk). destruct (decide (length l < length d)%nat) as [Hlt|Hge].
  - left. exists (drop (length l) d). assert (take (length l) d = l) as Et.
    { transitivity (take (length l) (d ++ e)); [by rewrite take_app_le by lia|]. by rewrite E, take_app_length. }
    split; [by rewrite <- Et at 1; rewrite take_drop|].
    intros E0. apply (f_equal length) in E0. rewrite length_drop in E0. cbn in E0. lia.
  - right. assert (take (length d) l = d) as Et.
    { transitivity (take (length d) (l ++ k)); [by rewrite take_app_le by lia|]. by rewrite <- E, take_app_length. }
    exists (drop (length d) l). split; [by rewrite <- Et at 1; rewrite take_drop|].
    exists k. split; [|done]. rewrite <- (take_drop (length d) l), Et, <- app_assoc in E. by apply app_inv_head in E.
Qed.

Lemma fetch_reads {A} n (f : list byte -> A) d :
  n = zlen d -> reads (fetch n f) d (f d).
Proof.
  intros -> s Hsz. unfold fetch, thrift_transport_read, mbind, M_bind. cbn [c_read ThriftMemoryBuffer.transport].
  split.
  - intros rest [Hw Hc]. destruct (CBuffer.cbuf_read_front (transport s) (zlen d) Hw) as (b&->&Hb&Hcb&_);
      [lia|rewrite Hc, length_app; lia|]. cbn [mbind option_bind fst snd].
    destruct (Z.ltb_spec (zlen d) 0); [lia|]. rewrite Hc, Nat2Z.id, take_app_length in *.
    eexists. split; [done|]. split; [|done]. split; [done|]. cbn. by rewrite Hcb, drop_app_length.
  - intros l [Hw Hc] Hl. rewrite (CBuffer.read_short (transport s) (zlen d) Hw)
      by (rewrite Hc; by apply cut_shorter). by eexists _, _.
Qed.

Lemma chk2_reads {A B} (m : M S (Z * option A)) d a (k : Z -> A -> M S (Z * option B)) e b :
  reads m d a ->
  (forall s, zlen d + zlen e < 2 ^ 31 ->
    (forall rest, ready s (e ++ rest) -> exists s', k (zlen d) a s = Some ((zlen d + zlen e, Some b), s') /\
       ready s' rest /\ error s' = error s) /\
    (forall l, ready s l -> cut l e -> exists s' o, k (zlen d) a s = Some ((-1, o), s') /\
       error s' = THRIFT_TRANSPORT_ERROR_RECEIVE)) ->
  reads (chk2 m k) (d ++ e) b.
Proof.
  intros Hm Hk s Hsz. rewrite length_app, Nat2Z.inj_add in *. destruct (Hm s) as [Hm1 Hm2]; [lia|].
  unfold chk2, mbind, M_bind.
  assert (forall rest, ready s (d ++ rest) -> exists s1, ready s1 rest /\ error s1 = error s /\
    chk2 m k s = k (zlen d) a s1) as Hall.
  { intros rest Hr. destruct (Hm1 rest Hr) as (s1&E&Hr1&Ee). exists s1. split; [done|]. split; [done|].
    unfold chk2, mbind, M_bind. rewrite E. cbn [mbind option_bind fst snd].
    destruct (Z.ltb_spec (zlen d) 0); [lia|]. done. }
  split.
  - intros rest Hr. rewrite <- app_assoc in Hr. destruct (Hall _ Hr) as (s1&Hr1&Ee&E).
    unfold chk2, mbind, M_bind in E. rewrite E. destruct (Hk s1 Hsz) as [Hk1 _].
    destruct (Hk1 rest Hr1) as (s2&E2&Hr2&Ee2). exists s2. split; [done|]. split; [done|congruence].
  - intros l Hr [Hl|(l'&->&Hl)]%cut_app.
    + destruct (Hm2 l Hr Hl) as (s1&o&->&Ee). cbn. by eexists _, _.
    + destruct (Hall _ Hr) as (s1&Hr1&Ee&E). unfold chk2, mbind, M_bind in E. rewrite E.
      destruct (Hk s1 Hsz) as [_ Hk2]. by apply (Hk2 l').
Qed.

(** The last call, its count added. *)
Lemma chk2_last {A B} (m : M S (Z * option A)) e a n (f : A -> B) (g : Z -> Z) :
  reads m e a -> (forall k, 0 <= k -> n + k < 2 ^ 31 -> g k = n + k) -> forall s, n + zlen e < 2 ^ 31 -> 0 <= n ->
  (forall rest, ready s (e ++ rest) -> exists s', chk2 m (fun ret a => mret (g ret, Some (f a))) s
     = Some ((n + zlen e, Some (f a)), s') /\ ready s' rest /\ error s' = error s) /\
  (forall l, ready s l -> cut l e -> exists s' o, chk2 m (fun ret a => mret (g ret, Some (f a))) s
     = Some ((-1, o), s') /\ error s' = THRIFT_TRANSPORT_ERROR_RECEIVE).
Proof.
  intros Hm Hg s Hsz Hn. destruct (Hm s) as [Hm1 Hm2]; [lia|]. unfold chk2, mbind, M_bind. split.
  - intros rest Hr. destruct (Hm1 rest Hr) as (s1&->&Hr1&Ee). cbn [mbind option_bind fst snd].
    destruct (Z.ltb_spec (zlen e) 0); [lia|]. cbn. rewrite Hg by lia. by exists s1.
  - intros l Hr Hl. destruct (Hm2 l Hr Hl) as (s1&o&->&Ee). cbn. by eexists _, _.
Qed.

Lemma reads_eq {A} (m : M S (Z * option A)) d a a' d' : reads m d a -> d = d' -> a = a' -> reads m d' a'.
Proof. by intros ? <- <-. Qed.

(** *** The operations *)
Lemma fetch_int n sg z : (0 < n)%nat -> int_fits n sg z = true ->
  reads (fetch (Z.of_nat n) (int_value n sg)) (be_bytes n z) z.
Proof.
  intros Hn Hz. eapply reads_eq; [by apply fetch_reads; rewrite length_be_bytes|done|].
  by apply int_value_bytes.
Qed.
Lemma c_read_count_reads n : 0 <= n < 2 ^ 31 -> reads read_i32 (count n) n.
Proof.
  intros. apply (fetch_int 4 true n); [lia|]. unfold int_fits. change (8 * Z.of_nat 4 - 1) with 31. lia.
Qed.
Lemma read_code_reads ty : declared ty = true -> reads read_byte (byte_code ty) (ttype_code ty).
Proof. intros Hd. apply (fetch_int 1 true); [lia|]. by destruct ty. Qed.

Lemma read_string_reads l :
  reads read_string (count (zlen l) ++ l) (match l with [] => None | _ => Some l end).
Proof.
  intros s0 Hsz0. assert (zlen l < 2 ^ 31 - 4) as Hl.
  { unfold count in Hsz0. rewrite length_app, length_be_bytes in Hsz0. lia. }
  revert s0 Hsz0. apply (chk2_reads _ _ _ _ _ _ (c_read_count_reads (zlen l) ltac:(lia))). intros s Hsz.
  destruct (Z.ltb_spec 0 (zlen l)) as [Hpos|Hz].
  - cbn zeta. rewrite Halloc.
    pose proof (chk2_last (fetch (zlen l) (fun b => b)) l l (zlen (count (zlen l))) Some
      (fun ret => i32 (zlen (count (zlen l)) + ret)) (fetch_reads _ _ l eq_refl)
      ltac:(intros; apply (wrapS_small 32); lia) s Hsz ltac:(lia)) as Hlast.
    destruct l; [cbn in Hpos; lia|]. exact Hlast.
  - destruct l; [|cbn in Hz; lia]. split.
    + intros rest Hr. rewrite Z.add_0_r. by exists s.
    + intros l' _ Hc. apply cut_shorter in Hc. cbn in Hc. lia.
Qed.

Lemma read_ipaddr_reads a : value_ok (VIp a) = true -> reads read_ipaddr (encode (VIp a)) a.
Proof.
  intros Ha. destruct a as [b|b]; cbn [value_ok encode] in *; apply bool_decide_eq_true_1 in Ha;
    (eapply chk2_reads; [by apply (fetch_int 1 false); [lia|]|]); intros s Hsz;
    cbn [Z.eqb Pos.eqb AF_INET AF_INET6].
  - apply (chk2_last (fetch 4 (fun b => b)) b b _ IPv4 (fun ret => zlen (be_bytes 1 2) + ret)); [|done|done|lia].
    apply fetch_reads. lia.
  - apply (chk2_last (fetch 16 (fun b => b)) b b _ IPv6 (fun ret => zlen (be_bytes 1 10) + ret)); [|done|done|lia].
    apply fetch_reads. lia.
Qed.

(** *** Fields and lists, as the generated readers call them *)
Definition field_begin : M S (Z * option (TType * Z)) :=
  '(ret, ty, id) ← read_field_begin None;
  mret (ret, match ty, id with Some ty, Some id => Some (ty, id) | _, _ => None end).

Lemma run_reads {A} (m : M S (Z * option A)) d a s rest :
  reads m d a -> zlen d < 2 ^ 31 -> ready s (d ++ rest) ->
  exists s', m s = Some ((zlen d, Some a), s') /\ ready s' rest /\ error s' = error s.
Proof. intros Hm Hsz Hr. destruct (Hm s Hsz) as [Hm1 _]. by apply Hm1. Qed.
Lemma run_cut {A} (m : M S (Z * option A)) d a s l :
  reads m d a -> zlen d < 2 ^ 31 -> ready s l -> cut l d ->
  exists s' o, m s = Some ((-1, o), s') /\ error s' = THRIFT_TRANSPORT_ERROR_RECEIVE.
Proof. intros Hm Hsz Hr Hl. destruct (Hm s Hsz) as [_ Hm2]. by apply (Hm2 l). Qed.

Lemma field_begin_stop : reads field_begin (byte_code T_STOP) (T_STOP, 0).
Proof.
  pose proof (read_code_reads T_STOP eq_refl) as Hb. intros s Hsz.
  unfold field_begin, read_field_begin, mbind, M_bind. split.
  - intros rest Hr. destruct (run_reads _ _ _ s rest Hb Hsz Hr) as (s1&->&Hr1&Ee). by exists s1.
  - intros l Hr Hl. destruct (run_cut _ _ _ s l Hb Hsz Hr Hl) as (s1&o&->&Ee). by eexists _, _.
Qed.

Lemma field_begin_reads (f : Z * value) :
  value_ok f.2 = true -> int_fits 2 true f.1 = true ->
  reads field_begin (byte_code (type_of f.2) ++ be_bytes 2 f.1) (type_of f.2, f.1).
Proof.
  intros Hv Hid s Hsz. rewrite length_app, Nat2Z.inj_add in *.
  assert (declared (type_of f.2) = true /\ type_of f.2 <> T_STOP) as [Hd Hns] by (by apply value_ok_type).
  pose proof (read_code_reads _ Hd) as Hb. assert (reads read_i16 (be_bytes 2 f.1) f.1) as Hi by (by apply (fetch_int 2 true); [lia|]).
  unfold field_begin, read_field_begin, mbind, M_bind. split.
  - intros rest Hr. rewrite <- app_assoc in Hr.
    destruct (run_reads _ _ _ s _ Hb ltac:(lia) Hr) as (s1&->&Hr1&Ee1). cbn [mbind option_bind fst snd].
    destruct (Z.ltb_spec (zlen (byte_code (type_of f.2))) 0); [lia|]. cbn [get]. unfold mret, M_ret.
    cbn [mbind option_bind]. rewrite ttype_of_code, bool_decide_eq_false_2 by done.
    destruct (run_reads _ _ _ s1 _ Hi ltac:(lia) Hr1) as (s2&E2&Hr2&Ee2).
    rewrite E2. cbn [mbind option_bind fst snd].
    destruct (Z.ltb_spec (zlen (be_bytes 2 f.1)) 0); [lia|]. unfold mret, M_ret. cbn [mbind option_bind].
    rewrite (wrapS_small 32) by lia. exists s2. split; [done|]. split; [done|congruence].
  - intros l Hr [Hl|(l'&->&Hl)]%cut_app.
    + destruct (run_cut _ _ _ s l Hb ltac:(lia) Hr Hl) as (s1&o&->&Ee). by eexists _, _.
    + destruct (run_reads _ _ _ s _ Hb ltac:(lia) Hr) as (s1&->&Hr1&Ee1). cbn [mbind option_bind fst snd].
      destruct (Z.ltb_spec (zlen (byte_code (type_of f.2))) 0); [lia|]. cbn [get]. unfold mret, M_ret.
      cbn [mbind option_bind]. rewrite ttype_of_code, bool_decide_eq_false_2 by done.
      destruct (run_cut _ _ _ s1 l' Hi ltac:(lia) Hr1 Hl) as (s2&o&E2&Ee2).
      rewrite E2. by eexists _, _.
Qed.

Lemma read_list_begin_reads ety n :
  declared ety = true -> 0 <= n < 2 ^ 31 -> reads read_list_begin (byte_code ety ++ count n) (ety, n).
Proof.
  intros Hd Hn. apply (chk2_reads _ _ _ _ _ _ (read_code_reads ety Hd)). intros s Hsz.
  pose proof (c_read_count_reads n Hn) as Hc. unfold chk2, mbind, M_bind. split.
  - intros rest Hr. destruct (run_reads _ _ _ s rest Hc ltac:(lia) Hr) as (s1&->&Hr1&Ee). cbn [mbind option_bind fst snd].
    destruct (Z.ltb_spec (zlen (count n)) 0); [lia|]. cbn. destruct (Z.ltb_spec n 0); [lia|].
    unfold mret, M_ret. rewrite ttype_of_code, (wrapS_small 32), (wrapU_small 32) by (done || lia). by exists s1.
  - intros l Hr Hl. destruct (run_cut _ _ _ s l Hc ltac:(lia) Hr Hl) as (s1&o&->&Ee). by eexists _, _.
Qed.

Fixpoint read_fields (rv : TType -> M S (Z * option value)) (n : nat) (xfer : Z)
    (acc : list (Z * value)) : M S (Z * option (list (Z * value))) :=
  match n with
  | O => undefined
  | Datatypes.S n =>
      chk2 field_begin (fun ret '(ty, id) =>
      let xfer := i32 (xfer + ret) in
      if bool_decide (ty = T_STOP) then mret (xfer, Some acc)
      else chk2 (rv ty) (fun ret v => read_fields rv n (i32 (xfer + ret)) (acc ++ [(id, v)])))
  end.
Fixpoint read_elems (rv : M S (Z * option value)) (n : nat) (xfer : Z) (acc : list value)
    : M S (Z * option (list value)) :=
  match n with
  | O => mret (xfer, Some acc)
  | Datatypes.S n => chk2 rv (fun ret v => read_elems rv n (i32 (xfer + ret)) (acc ++ [v]))
  end.
Definition built {A B} (f : A -> B) (m : M S (Z * option A)) : M S (Z * option B) :=
  r ← m; mret (r.1, f <$> r.2).

Fixpoint read_value (fuel : nat) (ty : TType) : M S (Z * option value) :=
  match fuel with
  | O => undefined
  | Datatypes.S fuel =>
      match ty with
      | T_BOOL => built VBool read_bool
      | T_BYTE => built (VInt ty) read_byte
      | T_I16 => built (VInt ty) read_i16
      | T_I32 => built (VInt ty) read_i32
      | T_I64 => built (VInt ty) read_i64
      | T_U16 => built (VInt ty) read_u16
      | T_U32 => built (VInt ty) read_u32
      | T_U64 => built (VInt ty) read_u64
      | T_IPV4 => built (VInt ty) read_ipv4
      | T_IPADDR => built VIp read_ipaddr
      | T_DOUBLE => built VDouble read_double
      | T_STRING => built (fun o => VBytes ty (default [] o)) read_string
      | T_XML => built (fun o => VBytes ty (default [] o)) read_xml
      | T_UUID => built VUuid read_uuid_t
      | T_STRUCT => ret ← read_struct_begin; built VStruct (read_fields (read_value fuel) fuel ret [])
      | T_SANDESH =>
          chk2 read_sandesh_begin (fun ret name =>
            built (VSandesh (default [] name)) (read_fields (read_value fuel) fuel ret []))
      | T_LIST =>
          chk2 read_list_begin (fun ret '(ety, size) =>
            built (VList ety) (read_elems (read_value fuel ety) (Z.to_nat size) ret []))
      | _ => mret (-1, None)
      end
  end.

(** Behind [n] bytes that were counted before. *)
Definition reads_from {A} (m : M S (Z * option A)) (n : Z) (e : list byte) (a : A) : Prop :=
  forall s, n + zlen e < 2 ^ 31 ->
  (forall rest, ready s (e ++ rest) -> exists s', m s = Some ((n + zlen e, Some a), s') /\
     ready s' rest /\ error s' = error s) /\
  (forall l, ready s l -> cut l e -> exists s' o, m s = Some ((-1, o), s') /\
     error s' = THRIFT_TRANSPORT_ERROR_RECEIVE).

Lemma c_built_reads {A B} (f : A -> B) m n e a : reads_from m n e a -> reads_from (built f m) n e (f a).
Proof.
  intros Hm s Hsz. destruct (Hm s Hsz) as [H1 H2]. unfold built, mbind, M_bind. split.
  - intros rest Hr. destruct (H1 rest Hr) as (s'&->&?). by exists s'.
  - intros l Hr Hl. destruct (H2 l Hr Hl) as (s'&o&->&?). by eexists _, _.
Qed.
Lemma c_built_reads_0 {A B} (f : A -> B) m e a : reads m e a -> reads (built f m) e (f a).
Proof. apply (c_built_reads f m 0 e a). Qed.

(** A call and the rest, both behind [n] bytes. *)
Lemma chk2_reads_from {A B} (m : M S (Z * option A)) d a (k : Z -> A -> M S (Z * option B)) n e b :
  reads m d a -> reads_from (k (zlen d) a) (n + zlen d) e b -> 0 <= n ->
  reads_from (chk2 m k) n (d ++ e) b.
Proof.
  intros Hm Hk Hn s Hsz. rewrite length_app, Nat2Z.inj_add in *. unfold chk2, mbind, M_bind. split.
  - intros rest Hr. rewrite <- app_assoc in Hr.
    destruct (run_reads _ _ _ s _ Hm ltac:(lia) Hr) as (s1&->&Hr1&Ee1). cbn [mbind option_bind fst snd].
    destruct (Z.ltb_spec (zlen d) 0); [lia|]. cbn [get]. unfold mret, M_ret. cbn [mbind option_bind].
    destruct (Hk s1 ltac:(lia)) as [Hk1 _]. destruct (Hk1 rest Hr1) as (s2&->&Hr2&Ee2).
    exists s2. split; [by do 3 f_equal; lia|]. split; [done|congruence].
  - intros l Hr [Hl|(l'&->&Hl)]%cut_app.
    + destruct (run_cut _ _ _ s l Hm ltac:(lia) Hr Hl) as (s1&o&->&Ee). by eexists _, _.
    + destruct (run_reads _ _ _ s _ Hm ltac:(lia) Hr) as (s1&->&Hr1&Ee1). cbn [mbind option_bind fst snd].
      destruct (Z.ltb_spec (zlen d) 0); [lia|]. cbn [get]. unfold mret, M_ret. cbn [mbind option_bind].
      destruct (Hk s1 ltac:(lia)) as [_ Hk2]. by apply (Hk2 l').
Qed.

Lemma done_reads_from {A} n (a : A) : reads_from (mret (n, Some a)) n [] a.
Proof.
  intros s Hsz. split.
  - intros rest Hr. rewrite Z.add_0_r. by exists s.
  - intros l _ Hl. apply cut_shorter in Hl. cbn in Hl. lia.
Qed.

Lemma reads_from_i32 {A} (m : Z -> M S (Z * option A)) n e a :
  reads_from (m n) n e a -> 0 <= n -> reads_from (m (i32 n)) n e a.
Proof.
  intros Hm Hn s Hsz. assert (i32 n = n) as -> by (apply (wrapS_small 32); lia). by apply Hm.
Qed.

(** A field as the reader sees it: its encoding, and the value that comes out. *)
Definition reads_field (rv : TType -> M S (Z * option value)) (f : Z * value) (v : value) : Prop :=
  int_fits 2 true f.1 = true /\ value_ok f.2 = true /\ reads (rv (type_of f.2)) (encode f.2) v.

Lemma c_read_fields_reads (rv : TType -> M S (Z * option value)) fs vs :
  Forall2 (reads_field rv) fs vs -> forall n xfer acc, (length fs < n)%nat -> 0 <= xfer ->
  reads_from (read_fields rv n xfer acc) xfer (encode_fields fs) (acc ++ zip (map fst fs) vs).
Proof.
  unfold encode_fields. induction 1 as [|f v fs vs (Hid&Hv&Hf) _ IH]; intros n xfer acc Hn Hx;
    (destruct n as [|n]; [simpl in Hn; lia|]); cbn [read_fields map concat zip zip_with].
  - rewrite app_nil_l, <- (app_nil_r (byte_code T_STOP)). eapply chk2_reads_from; [apply field_begin_stop| |done].
    rewrite app_nil_r. cbn beta iota zeta. rewrite bool_decide_eq_true_2 by done.
    apply (reads_from_i32 (fun n => mret (n, Some acc))); [apply done_reads_from|lia].
  - destruct (value_ok_type f.2 Hv) as [_ Hns].
    set (d := concat (map encode_field fs) ++ byte_code T_STOP) in *.
    assert ((encode_field f ++ concat (map encode_field fs)) ++ byte_code T_STOP =
            (byte_code (type_of f.2) ++ be_bytes 2 f.1) ++ encode f.2 ++ d) as ->.
    { unfold d, encode_field at 1. by rewrite <- !app_assoc. }
    eapply chk2_reads_from; [by apply field_begin_reads| |done]. cbn beta iota zeta.
    rewrite bool_decide_eq_false_2 by done.
    apply (reads_from_i32 (fun x => chk2 (rv (type_of f.2)) (fun ret w =>
      read_fields rv n (i32 (x + ret)) (acc ++ [(f.1, w)])))); [|lia].
    eapply chk2_reads_from; [exact Hf| |lia].
    apply (reads_from_i32 (fun x => read_fields rv n x (acc ++ [(f.1, v)]))); [|lia].
    replace (acc ++ (f.1, v) :: zip_with pair (map fst fs) vs) with ((acc ++ [(f.1, v)]) ++ zip (map fst fs) vs)
      by (by rewrite <- app_assoc).
    apply IH; [simpl in Hn; lia|lia].
Qed.

Lemma c_read_elems_reads (rv : M S (Z * option value)) ds vs :
  Forall2 (reads rv) ds vs -> forall xfer acc, 0 <= xfer ->
  reads_from (read_elems rv (length vs) xfer acc) xfer (concat ds) (acc ++ vs).
Proof.
  induction 1 as [|d v ds vs Hd _ IH]; intros xfer acc Hx; cbn [length read_elems concat].
  - rewrite app_nil_r. apply done_reads_from.
  - eapply chk2_reads_from; [exact Hd| |done].
    apply (reads_from_i32 (fun x => read_elems rv (length vs) x (acc ++ [v]))); [|lia].
    replace (acc ++ v :: vs) with ((acc ++ [v]) ++ vs) by (by rewrite <- app_assoc). apply IH. lia.
Qed.

Lemma read_i64_reads z : int_fits 8 true z = true -> reads read_i64 (be_bytes 8 z) z.
Proof.
  intros Hz. eapply reads_eq; [by apply (fetch_reads 8 _ (be_bytes 8 z)); rewrite length_be_bytes|done|].
  cbn beta. rewrite os_get_value64_be by (rewrite length_be_bytes; lia).
  exact (int_value_bytes 8 true z ltac:(lia) Hz).
Qed.
Lemma read_u64_reads z : int_fits 8 false z = true -> reads read_u64 (be_bytes 8 z) z.
Proof.
  intros Hz. eapply reads_eq; [by apply (fetch_reads 8 _ (be_bytes 8 z)); rewrite length_be_bytes|done|].
  rewrite os_get_value64_be by (rewrite length_be_bytes; lia).
  rewrite be_value_bytes. unfold int_fits in Hz. zify_bools. apply wrapU_small. lia.
Qed.
Lemma read_double_reads bits : int_fits 8 false bits = true -> reads read_double (be_bytes 8 (bswap_64 bits)) bits.
Proof.
  intros Hz. assert (be_bytes 8 (bswap_64 bits) = le_bytes 8 bits) as ->.
  { unfold bswap_64. rewrite <- (length_le_bytes 8 bits) at 1. apply be_bytes_value. }
  eapply reads_eq; [by apply (fetch_reads 8 _ (le_bytes 8 bits)); rewrite length_le_bytes|done|].
  rewrite le_value_bytes. unfold int_fits in Hz. zify_bools. apply wrapU_small. lia.
Qed.

Lemma c_read_base_reads v fuel :
  value_ok v = true ->
  match v with
  | VStruct _ | VSandesh _ _ | VList _ _ | VSet _ _ | VMap _ _ _ => True
  | _ => reads (read_value (Datatypes.S fuel) (type_of v)) (encode (host_doubles v)) v
  end.
Proof.
  intros Hv. destruct v as [b|ty z|a|bits|ty l|l| | | | |]; try done; cbn [host_doubles].
  - apply (c_built_reads_0 VBool). eapply reads_eq; [by apply (fetch_reads 1 _ [if b then x01 else x00])|done|]. by destruct b.
  - cbn [value_ok type_of encode] in *.
    destruct ty; try done; apply c_built_reads_0;
      first [exact (read_i64_reads z Hv)|exact (read_u64_reads z Hv)
            |exact (fetch_int 1 true z ltac:(lia) Hv)|exact (fetch_int 2 true z ltac:(lia) Hv)
            |exact (fetch_int 2 false z ltac:(lia) Hv)|exact (fetch_int 4 true z ltac:(lia) Hv)
            |exact (fetch_int 4 false z ltac:(lia) Hv)].
  - by apply (c_built_reads_0 VIp), read_ipaddr_reads.
  - apply c_built_reads_0. by apply read_double_reads.
  - cbn [value_ok type_of encode] in *. zify_bools.
    assert (reads (built (fun o => VBytes ty (default [] o)) read_string) (count (zlen l) ++ l) (VBytes ty l)) as Hs.
    { eapply reads_eq; [by apply c_built_reads_0, read_string_reads|done|]. by destruct l. }
    destruct ty; try done; exact Hs.
  - cbn [value_ok type_of encode] in *. zify_bools. apply c_built_reads_0. apply fetch_reads. lia.
Qed.

Lemma c_read_struct_reads fuel fs :
  forallb (fun f : Z * value => int_fits 2 true f.1 && value_ok f.2) fs = true ->
  forallb (fun f : Z * value => negb (bool_decide (type_of f.2 = T_SANDESH)) && c_value f.2) fs = true ->
  Forall (fun f => forall fuel, value_ok f.2 = true -> c_value f.2 = true -> (fuel_for f.2 <= fuel)%nat ->
            reads (read_value fuel (type_of f.2)) (encode (host_doubles f.2)) f.2) fs ->
  (Nat.max (Datatypes.S (length fs)) (list_max (map (fun f => fuel_for f.2) fs)) <= fuel)%nat ->
  forall xfer, 0 <= xfer -> reads_from (read_fields (read_value fuel) fuel xfer []) xfer
    (encode_fields (map (fun f => (f.1, host_doubles f.2)) fs)) fs.
Proof.
  intros Hok Hc IH Hfuel xfer Hx.
  assert (fs = [] ++ zip (map fst (map (fun f : Z * value => (f.1, host_doubles f.2)) fs)) (map snd fs)) as Ez.
  { clear. rewrite map_map. cbn. induction fs as [|[i v] fs IH]; [done|]. cbn in *. by f_equal. }
  rewrite Ez at 2. apply c_read_fields_reads; [|rewrite length_map; lia|done].
  apply Forall2_fmap_2, Forall_Forall2_diag. rewrite Forall_forall in *. intros f Hin.
  apply forallb_forall with (x := f) in Hok; [|done]. apply forallb_forall with (x := f) in Hc; [|done]. zify_bools.
  split; [done|]. split; [by apply host_doubles_ok|]. cbn. rewrite host_doubles_type.
  apply IH; [done..|]. pose proof (list_max_le_in (fun f => fuel_for f.2) fs f Hin). cbn beta in *. lia.
Qed.

Lemma read_sandesh_begin_reads name :
  reads read_sandesh_begin (count (zlen name) ++ name) (match name with [] => None | _ => Some name end).
Proof.
  pose proof (read_string_reads name) as Hs. intros s Hsz. destruct (Hs s Hsz) as [H1 H2].
  unfold read_sandesh_begin, chk2, mbind, M_bind. split.
  - intros rest Hr. destruct (H1 rest Hr) as (s'&->&?). cbn [mbind option_bind fst snd]. exists s'.
    destruct (Z.ltb_spec (zlen (count (zlen name) ++ name)) 0); [lia|]. cbn [get]. unfold mret, M_ret.
    cbn [mbind option_bind]. by rewrite Z.add_0_l, (wrapS_small 32) by lia.
  - intros l Hr Hl. destruct (H2 l Hr Hl) as (s'&o&->&?). by eexists _, _.
Qed.

Lemma c_read_value_reads v : forall fuel,
  value_ok v = true -> c_value v = true -> (fuel_for v <= fuel)%nat ->
  reads (read_value fuel (type_of v)) (encode (host_doubles v)) v.
Proof.
  induction v as [b|ty z|a|bits|ty l|l|fs IH|name fs IH|ety vs IH|ety vs IH|kty vty kvs IH]
    using value_parts_ind; intros fuel Hv Hc Hfuel; (destruct fuel as [|fuel]; [simpl in Hfuel; lia|]); try done.
  - exact (c_read_base_reads (VBool b) fuel Hv).
  - exact (c_read_base_reads (VInt ty z) fuel Hv).
  - exact (c_read_base_reads (VIp a) fuel Hv).
  - exact (c_read_base_reads (VDouble bits) fuel Hv).
  - exact (c_read_base_reads (VBytes ty l) fuel Hv).
  - exact (c_read_base_reads (VUuid l) fuel Hv).
  - cbn [value_ok c_value fuel_for type_of read_value] in *.
    apply (c_built_reads_0 VStruct). exact (c_read_struct_reads fuel fs Hv Hc IH ltac:(lia) 0 ltac:(lia)).
  - cbn [value_ok c_value fuel_for type_of read_value] in *. zify_bools.
    pose proof (chk2_reads_from read_sandesh_begin _ _ (fun ret name =>
        built (VSandesh (default [] name)) (read_fields (read_value fuel) fuel ret []))
      0 (encode_fields (map (fun f => (f.1, host_doubles f.2)) fs)) (VSandesh name fs)
      (read_sandesh_begin_reads name)) as Hr.
    apply Hr; [|lia]. rewrite Z.add_0_l.
    assert (default [] (match name with [] => None | _ => Some name end) = name) as -> by (by destruct name).
    apply (c_built_reads (VSandesh name)). apply c_read_struct_reads; [done..|lia|lia].
  - cbn [value_ok c_value fuel_for type_of read_value host_doubles encode] in *. zify_bools.
    rewrite length_map, map_map, app_assoc.
    eapply (chk2_reads_from read_list_begin _ _ _ 0); [by apply (read_list_begin_reads ety (zlen vs)); [|lia]| |lia].
    rewrite Z.add_0_l. apply (c_built_reads (VList ety)). rewrite Nat2Z.id.
    apply (c_read_elems_reads _ (map (fun v => encode (host_doubles v)) vs) vs); [|lia].
    rewrite <- (map_id vs) at 2. apply Forall2_fmap_2, Forall_Forall2_diag. rewrite Forall_forall in *. intros v Hin.
    repeat match goal with Hf : forallb ?p vs = true |- _ => apply forallb_forall with (x := v) in Hf; [|done] end.
    zify_bools. subst ety. apply IH; [done..|]. pose proof (list_max_le_in fuel_for vs v Hin). lia.
Qed.

End Reader.
End CReader.

(** ** [thrift_binary_protocol_skip_from_buffer] *)
Module CSkip.

(** The types it knows: no addresses, sets, maps and messages.  Of a list it takes the
    type of the elements from four bytes of which it sets one, so that it skips the
    elements of a list, [lists], only if the other three happen to be 0. *)
Fixpoint skippable (lists : bool) (v : value) : bool :=
  match v with
  | VStruct fs => forallb (fun f => skippable lists f.2) fs
  | VList _ vs => (lists || bool_decide (length vs = O)) && forallb (skippable lists) vs
  | VIp _ | VSandesh _ _ | VSet _ _ | VMap _ _ _ => false
  | _ => true
  end.

(** The block holds [d] at [off]. *)
Definition holds (mem : list byte) (off : Z) (d : list byte) : Prop :=
  exists pre post, mem = pre ++ d ++ post /\ off = zlen pre.

Lemma holds_app mem off d e : holds mem off (d ++ e) -> holds mem off d /\ holds mem (off + zlen d) e.
Proof.
  intros (pre&post&->&->). split.
  - exists pre, (e ++ post). by rewrite <- app_assoc.
  - exists (pre ++ d), post. rewrite length_app, Nat2Z.inj_add. split; [by rewrite <- !app_assoc|done].
Qed.
Lemma mread_holds mem off d n : holds mem off d -> n = zlen d -> mread mem off n = Some d.
Proof.
  intros (pre&post&->&->) ->. rewrite mread_Some by (rewrite ?length_app; lia).
  by rewrite !Nat2Z.id, drop_app_length, take_app_length.
Qed.

Section Skip.
Context (upper : Z) (mem : list byte).
Abbreviation skip := (thrift_binary_protocol_skip_from_buffer upper mem).

Definition skips (fuel : nat) (v : value) : Prop := forall off buflen,
  holds mem off (encode v) -> zlen (encode v) < 2 ^ 31 -> zlen (encode v) <= buflen < 2 ^ 32 ->
  skip fuel off buflen (type_of v) = Some (zlen (encode v)).

Lemma skip_fields_ok fuel fs : forall n off buflen result,
  Forall (fun f => declared (type_of f.2) = true /\ type_of f.2 <> T_STOP /\ skips fuel f.2) fs ->
  (length fs < n)%nat -> holds mem (off + result) (encode_fields fs) -> 0 <= result ->
  result + zlen (encode_fields fs) < 2 ^ 31 -> result + zlen (encode_fields fs) <= buflen < 2 ^ 32 ->
  skip_buffer_fields mem (skip fuel) n off buflen result = Some (result + zlen (encode_fields fs)).
Proof.
  unfold encode_fields. induction fs as [|f fs IH]; intros n off buflen result Hfs Hn Hh H0' Hsz Hb;
    (destruct n as [|n]; [simpl in Hn; lia|]); cbn [skip_buffer_fields map concat] in *.
  - change ([] ++ byte_code T_STOP) with (byte_code T_STOP) in *. change (zlen (byte_code T_STOP)) with 1 in *.
    rewrite (wrapU_small 32 (buflen - result)) by lia. destruct (Z.ltb_spec (buflen - result) 1); [lia|].
    rewrite (mread_holds _ _ _ 1 Hh) by done. cbn [mbind option_bind].
    rewrite bool_decide_eq_true_2 by done. by rewrite (wrapU_small 32), (wrapS_small 32) by lia.
  - apply Forall_cons_iff in Hfs as [(Hd&Hns&Hsk) Hfs].
    set (d := concat (map encode_field fs) ++ byte_code T_STOP) in *.
    assert ((encode_field f ++ concat (map encode_field fs)) ++ byte_code T_STOP =
            byte_code (type_of f.2) ++ be_bytes 2 f.1 ++ encode f.2 ++ d) as Eenc.
    { unfold d, encode_field at 1. by rewrite <- !app_assoc. }
    rewrite Eenc in *. clear Eenc. destruct (byte_code_1 _ Hd) as (b&Eb&Et).
    assert (zlen (byte_code (type_of f.2)) = 1 /\ zlen (be_bytes 2 f.1) = 2) as [E1 E2]
      by (by rewrite Eb, length_be_bytes).
    rewrite !length_app, !Nat2Z.inj_add, E1, E2 in *.
    apply holds_app in Hh as [Hh1 Hh]. apply holds_app in Hh as [_ Hh]. apply holds_app in Hh as [Hv Hh].
    rewrite E1, E2 in *.
    rewrite (wrapU_small 32 (buflen - result)) by lia. destruct (Z.ltb_spec (buflen - result) 1); [lia|].
    rewrite (mread_holds _ _ _ 1 Hh1) by lia. cbn [mbind option_bind]. rewrite Eb, Et.
    rewrite bool_decide_eq_false_2 by done.
    rewrite (wrapU_small 32 (result + 1)), (wrapU_small 32 (result + 1 + 2)) by lia.
    rewrite (wrapU_small 32 (buflen - (result + 1))) by lia.
    destruct (Z.ltb_spec (buflen - (result + 1)) 2); [lia|].
    rewrite (wrapU_small 32 (buflen - (result + 1 + 2))) by lia.
    rewrite (Hsk (off + (result + 1 + 2))); [|by rewrite !Z.add_assoc in *|lia|lia].
    cbn [mbind option_bind]. rewrite (wrapU_small 32) by lia.
    rewrite IH; [f_equal; lia|done|simpl in Hn; lia| |lia|lia|lia].
    by replace (off + (result + 1 + 2 + zlen (encode f.2))) with (off + result + 1 + 2 + zlen (encode f.2)) by lia.
Qed.

Lemma skip_elems_ok fuel ety vs : forall n off buflen i result,
  Forall (fun v => type_of v = ety /\ skips fuel v) vs -> (length vs <= n)%nat ->
  holds mem (off + result) (concat (map encode vs)) -> 0 <= result -> 0 <= i ->
  result + zlen (concat (map encode vs)) < 2 ^ 31 -> result + zlen (concat (map encode vs)) <= buflen < 2 ^ 32 ->
  skip_buffer_elems (fun off buflen => skip fuel off buflen ety) n off buflen i (i + zlen vs) result
  = Some (result + zlen (concat (map encode vs))).
Proof.
  induction vs as [|v vs IH]; intros n off buflen i result Hvs Hn Hh H0' Hi Hsz Hb; cbn [map concat] in *.
  - cbn [length] in *. rewrite !Z.add_0_r in *.
    destruct n; cbn [skip_buffer_elems]; (destruct (Z.ltb_spec i i); [lia|]); by rewrite (wrapS_small 32) by lia.
  - apply Forall_cons_iff in Hvs as [[Et Hsk] Hvs]. cbn [length] in *. rewrite length_app, Nat2Z.inj_add in *.
    apply holds_app in Hh as [Hv Hh]. destruct n as [|n]; [lia|]. cbn [skip_buffer_elems].
    destruct (Z.ltb_spec i (i + Z.of_nat (S (length vs)))); [|lia].
    rewrite (wrapU_small 32 (buflen - result)) by lia. rewrite <- Et, Hsk by (done || lia).
    cbn [mbind option_bind]. rewrite (wrapU_small 32) by lia. rewrite Et.
    replace (i + Z.of_nat (S (length vs))) with (i + 1 + zlen vs) by lia.
    rewrite IH; [f_equal; lia|done|lia|by rewrite Z.add_assoc|lia|lia|lia|lia].
Qed.

Lemma skip_ok lists v : (lists = true -> upper = 0) -> forall fuel,
  value_ok v = true -> skippable lists v = true -> (fuel_for v <= fuel)%nat -> skips fuel v.
Proof.
  intros Hup.
  induction v as [b|ty z|a|bits|ty l|l|fs IH|name fs IH|ety vs IH|ety vs IH|kty vty kvs IH]
    using value_parts_ind; intros fuel Hv Hs Hfuel off buflen Hh Hsz Hb; try done;
    (destruct fuel as [|fuel]; [simpl in Hfuel; lia|]).
  - unfold need. cbn in Hb. cbn. unfold need. by destruct (Z.ltb_spec buflen 1); [lia|].
  - cbn [value_ok encode type_of] in *. destruct ty; try done; cbn [int_info] in *; rewrite length_be_bytes in *;
      cbn; unfold need; (case (Z.ltb_spec buflen _); [lia|done]).
  - cbn [encode type_of] in *. rewrite length_be_bytes in *. cbn. unfold need.
    case (Z.ltb_spec buflen _); [lia|done].
  - cbn [value_ok encode type_of] in *. zify_bools. 
    assert (zlen (count (zlen l)) = 4) as E4 by (unfold count; by rewrite length_be_bytes).
    rewrite length_app, Nat2Z.inj_add, E4 in *. apply holds_app in Hh as [Hc _].
    assert (skip (S fuel) off buflen T_STRING = Some (4 + zlen l) /\ skip (S fuel) off buflen T_XML = Some (4 + zlen l))
      as [? ?]; [|by destruct ty].
    cbn [thrift_binary_protocol_skip_from_buffer]. destruct (Z.ltb_spec buflen 4); [lia|].
    rewrite (mread_holds _ _ _ 4 Hc) by done. cbn [mbind option_bind].
    assert (int_value 4 true (count (zlen l)) = zlen l) as Ev.
    { unfold count. apply int_value_bytes; [lia|]. unfold int_fits. change (8 * Z.of_nat 4 - 1) with 31. lia. }
    rewrite Ev. destruct (Z.ltb_spec 0 (zlen l)); [|split; do 2 f_equal; lia].
    rewrite (wrapU_small 32) by lia. destruct (Z.ltb_spec buflen (4 + zlen l)); [lia|].
    by rewrite (wrapS_small 32) by lia.
  - cbn [value_ok encode type_of] in *. zify_bools. cbn. unfold need.
    case (Z.ltb_spec buflen _); [lia|]. by rewrite Hv.
  - cbn [value_ok skippable fuel_for type_of] in *. cbn [thrift_binary_protocol_skip_from_buffer].
    change (encode (VStruct fs)) with (encode_fields fs) in *.
    rewrite (skip_fields_ok fuel fs fuel off buflen 0); [done| |lia|by rewrite Z.add_0_r|done|lia|lia].
    rewrite Forall_forall in *. intros f Hin.
    apply forallb_forall with (x := f) in Hv; [|done]. apply forallb_forall with (x := f) in Hs; [|done]. zify_bools.
    destruct (value_ok_type f.2) as [? ?]; [done|]. split; [done|]. split; [done|]. apply IH; [done..|].
    pose proof (list_max_le_in (fun f => fuel_for f.2) fs f Hin). cbn beta in *. lia.
  - cbn [value_ok skippable fuel_for type_of] in *. zify_bools. cbn [thrift_binary_protocol_skip_from_buffer].
    change (encode (VList ety vs)) with (byte_code ety ++ count (zlen vs) ++ concat (map encode vs)) in *.
    destruct (byte_code_1 ety) as (b&Eb&Et); [done|].
    assert (zlen (byte_code ety) = 1 /\ zlen (count (zlen vs)) = 4) as [E1 E4]
      by (unfold count; by rewrite Eb, length_be_bytes).
    rewrite !length_app, !Nat2Z.inj_add, E1, E4 in *.
    apply holds_app in Hh as [Hh1 Hh]. apply holds_app in Hh as [Hh2 Hh]. rewrite E1, E4 in *.
    destruct (Z.ltb_spec buflen 1); [lia|]. rewrite (mread_holds _ _ _ 1 Hh1) by lia. cbn [mbind option_bind].
    set (ety' := ttype_of (i32 (be_value (byte_code ety) + 256 * upper))).
    destruct (Z.ltb_spec buflen (1 + 4)); [lia|]. rewrite (mread_holds _ _ _ 4 Hh2) by lia. cbn [mbind option_bind].
    assert (int_value 4 true (count (zlen vs)) = zlen vs) as ->.
    { unfold count. apply int_value_bytes; [lia|]. unfold int_fits. change (8 * Z.of_nat 4 - 1) with 31. lia. }
    destruct (Z.ltb_spec (zlen vs) 0); [lia|].
    assert (lists = true \/ vs = []) as [Hl|Hl].
    { destruct lists; [by left|right]. destruct vs; [done|]. by match goal with Hd : _ || _ = true |- _ => cbn in Hd end. }
    2: { subst vs. cbn [length Z.of_nat map concat]. destruct fuel; cbn [skip_buffer_elems];
           by rewrite (wrapS_small 32) by lia. }
    assert (ety' = ety) as -> by (unfold ety'; rewrite (Hup Hl); by destruct ety).
    pose proof (skip_elems_ok fuel ety vs fuel off buflen 0 5) as E5. rewrite Z.add_0_l in E5.
    rewrite E5; [f_equal; lia| |lia|by rewrite <- Z.add_assoc in Hh|lia|lia|lia|lia].
    rewrite Forall_forall in *. intros v Hin.
    repeat match goal with Hf : forallb ?p vs = true |- _ => apply forallb_forall with (x := v) in Hf; [|done] end.
    zify_bools. split; [done|]. apply IH; [done..|]. pose proof (list_max_le_in fuel_for vs v Hin). lia.
Qed.

End Skip.
End CSkip.
