(* ===== verification/CSandesh.v ===== *)
(** * The C library: encoding and decoding messages (library/c/sandesh.c)

    A table of [sandesh_info_t] holds, for each message, what the compiler generates
    for it: these functions are fields of the record, the message itself a type [X].
    [process] is a call of the application: the model collects its arguments.

    [None] is undefined behaviour or a loop that does not end. *)

From S2P Require Import Prelude Transport Protocol Wire CThrift CThriftSpec.
Import ThriftBinaryProtocol.
Local Open Scope Z_scope.

(** [read_binary_from_buffer] gets the bytes up to the end of the buffer and returns
    the result, the message and the error if it sets one;
    [write_binary_to_buffer] gets the block and returns it changed. *)
Record sandesh_info (X : Type) := MkInfo {
  info_name : list byte;
  info_size : Z;
  read_binary_from_buffer : list byte -> option (Z * option X * option Z);
  info_write : X -> M (t ThriftFakeTransport.t) Z;
  write_binary_to_buffer : X -> list byte -> option (Z * list byte * option Z);
}.
Arguments MkInfo {X}.
Arguments info_name {X}.
Arguments info_size {X}.
Arguments read_binary_from_buffer {X}.
Arguments info_write {X}.
Arguments write_binary_to_buffer {X}.

Section Sandesh.
Context `{!Allocator} {X : Type}.

Definition find_fn := list byte -> option (sandesh_info X).

(** The table ends with an entry whose name is null. *)
Fixpoint sandesh_find_info (infos : list (sandesh_info X)) (name : list byte) : option (sandesh_info X) :=
  match infos with
  | [] => None
  | i :: infos =>
      if bool_decide (cstr (info_name i) = cstr name) then Some i else sandesh_find_info infos name
  end.

(** [*error] and the messages processed so far. *)
Record dstate := MkD { derror : Z; processed : list X }.
Definition set_derror (e : option Z) (d : dstate) : dstate := MkD (default (derror d) e) (processed d).

Definition INT_MAX : Z := 2 ^ 31 - 1.

Definition sandesh_decode_one (buf : list byte) (find : find_fn) (d : dstate) : option (Z * dstate) :=
  let buf_len := zlen buf in
  if buf_len <? 4 then Some (-1, d)
  else
    b ← mread buf 0 4;
    let sread_len := int_value 4 true b in
    if 0 <? sread_len then
      (* [rxfer + sread_len] is computed as an [int] *)
      if INT_MAX <? 4 + sread_len then None
      else if buf_len <? 4 + sread_len then Some (-1, d)
      else if negb (alloc_ok (sread_len + 1)) then None
      else
        sname ← mread buf 4 sread_len;
        match find (cstr sname) with
        | None => Some (-1, set_derror (Some C_EINVAL) d)
        | Some sinfo =>
            if negb (alloc_ok (info_size sinfo)) then Some (-1, set_derror (Some C_ENOMEM) d)
            else
              '(rxfer, sandesh, e) ← read_binary_from_buffer sinfo buf;
              let d := set_derror e d in
              if rxfer <? 0 then Some (-1, d)
              else
                sandesh ← sandesh;
                Some (rxfer, MkD (derror d) (processed d ++ [sandesh]))
        end
    else Some (-1, d).

Fixpoint sandesh_decode_loop (fuel : nat) (buf : list byte) (find : find_fn) (xfer : Z) (d : dstate)
    : option (Z * dstate) :=
  if xfer <? zlen buf then
    match fuel with
    | O => None
    | S fuel =>
        '(ret, d) ← sandesh_decode_one (drop (Z.to_nat xfer) buf) find d;
        if ret <? 0 then Some (ret, d)
        else sandesh_decode_loop fuel buf find (u32 (xfer + ret)) d
    end
  else Some (i32 xfer, d).
(** A message takes a byte at least. *)
Definition sandesh_decode (buf : list byte) (find : find_fn) (d : dstate) : option (Z * dstate) :=
  sandesh_decode_loop (S (length buf)) buf find 0 d.

(** The result, the block and the error. *)
Definition sandesh_encode (x : X) (sname : list byte) (find : find_fn) (buf : list byte) (error : Z)
    : option (Z * list byte * Z) :=
  match find sname with
  | None => Some (-1, buf, C_EINVAL)
  | Some sinfo =>
      '(wxfer, buf, e) ← write_binary_to_buffer sinfo x buf;
      Some (if wxfer <? 0 then -1 else wxfer, buf, default error e)
  end.

Definition sandesh_get_encoded_length (x : X) (sname : list byte) (find : find_fn) (error : Z)
    : option (Z * Z) :=
  match find sname with
  | None => Some (-1, C_EINVAL)
  | Some sinfo =>
      '(wxfer, s) ← info_write sinfo x (Mk tt error);
      Some (if wxfer <? 0 then -1 else wxfer, ThriftBinaryProtocol.error s)
  end.

End Sandesh.
Arguments dstate : clear implicits.
Arguments find_fn : clear implicits.

(** ** Lemmas *)
Section Decode.
Context `{!Allocator} {X V : Type} (find : find_fn X) (enc : V -> list byte) (obj_of : V -> X).

(** What is relied on of the code generated for a message [x]: it has a name that is
    found, its encoding begins with that name, and reading takes exactly the encoding,
    as the object [obj_of x]. *)
Definition codec (x : V) : Prop :=
  exists name body info,
    enc x = count (zlen name) ++ name ++ body /\ name <> [] /\ x00 ∉ name /\ zlen name < 2 ^ 31 - 4 /\
    find name = Some info /\
    forall rest, zlen (enc x ++ rest) < 2 ^ 31 ->
      read_binary_from_buffer info (enc x ++ rest) = Some (zlen (enc x), Some (obj_of x), None).

Lemma int_value_count n : 0 <= n < 2 ^ 31 -> int_value 4 true (count n) = n.
Proof.
  intros. unfold count. apply int_value_bytes; [lia|]. unfold int_fits.
  change (8 * Z.of_nat 4 - 1) with 31. lia.
Qed.

(** The name in front of a buffer is found by its length. *)
Lemma decode_one_named name rest d :
  name <> [] -> x00 ∉ name -> zlen name < 2 ^ 31 - 4 -> (forall k, alloc_ok k = true) ->
  sandesh_decode_one (count (zlen name) ++ name ++ rest) find d =
  match find name with
  | None => Some (-1, set_derror (Some C_EINVAL) d)
  | Some sinfo =>
      '(rxfer, sandesh, e) ← read_binary_from_buffer sinfo (count (zlen name) ++ name ++ rest);
      let d := set_derror e d in
      if rxfer <? 0 then Some (-1, d)
      else (sandesh ← sandesh; Some (rxfer, MkD (derror d) (processed d ++ [sandesh])))
  end.
Proof.
  intros Hne Hnul Hlen Ha. assert (0 < zlen name) by (destruct name; [done|cbn; lia]).
  assert (length (count (zlen name)) = 4%nat) as E4 by (unfold count; by rewrite length_be_bytes).
  unfold sandesh_decode_one. cbn zeta.
  set (buf := count (zlen name) ++ name ++ rest).
  assert (4 + zlen name <= zlen buf) as Hb by (unfold buf; rewrite !length_app, E4; lia).
  assert (mread buf 0 4 = Some (count (zlen name))) as ->.
  { rewrite mread_Some by lia. unfold buf. change (Z.to_nat 0) with 0%nat.
    rewrite drop_0. change (Z.to_nat 4) with 4%nat. by rewrite <- E4, take_app_length. }
  assert (mread buf 4 (zlen name) = Some name) as Em.
  { rewrite mread_Some by lia. unfold buf. change (Z.to_nat 4) with 4%nat.
    by rewrite <- E4 at 1; rewrite drop_app_length, Nat2Z.id, take_app_length. }
  clearbody buf. cbn [mbind option_bind]. rewrite int_value_count by lia.
  destruct (Z.ltb_spec (zlen buf) 4); [lia|]. destruct (Z.ltb_spec 0 (zlen name)); [|lia].
  unfold INT_MAX. destruct (Z.ltb_spec (2 ^ 31 - 1) (4 + zlen name)); [lia|].
  destruct (Z.ltb_spec (zlen buf) (4 + zlen name)); [lia|]. rewrite !Ha. cbn [negb]. rewrite Em. cbn [mbind option_bind].
  rewrite CWriter.cstr_id by done. destruct (find name) as [i|]; [by rewrite (Ha (info_size i))|done].
Qed.

Lemma decode_one_codec x rest d :
  codec x -> (forall k, alloc_ok k = true) -> zlen (enc x ++ rest) < 2 ^ 31 ->
  sandesh_decode_one (enc x ++ rest) find d = Some (zlen (enc x), MkD (derror d) (processed d ++ [obj_of x])).
Proof.
  intros (name&body&info&E&Hne&Hnul&Hlen&Hf&Hr) Ha Hsz.
  pose proof (Hr rest Hsz) as Hr'. rewrite E in Hr' |- *. rewrite <- !app_assoc in *.
  rewrite decode_one_named by done. rewrite Hf, Hr'. cbn [mbind option_bind].
  by destruct (Z.ltb_spec (zlen (count (zlen name) ++ name ++ body)) 0); [lia|].
Qed.

Lemma codec_pos x : codec x -> 0 < zlen (enc x).
Proof.
  intros (name&body&info&E&_). rewrite E. unfold count. rewrite !length_app, length_be_bytes. lia.
Qed.

(** The loop goes through all messages in front of [tail]. *)
Lemma decode_loop_all tail : (forall k, alloc_ok k = true) -> forall xs pre fuel d,
  Forall codec xs -> (length xs <= fuel)%nat -> zlen (pre ++ concat (map enc xs) ++ tail) < 2 ^ 31 ->
  sandesh_decode_loop fuel (pre ++ concat (map enc xs) ++ tail) find (zlen pre) d =
  sandesh_decode_loop (fuel - length xs) (pre ++ concat (map enc xs) ++ tail) find
    (zlen (pre ++ concat (map enc xs))) (MkD (derror d) (processed d ++ map obj_of xs)).
Proof.
  intros Ha. induction xs as [|x xs IH]; intros pre fuel d Hxs Hfuel Hsz; cbn [map concat length] in *.
  - rewrite !app_nil_r, Nat.sub_0_r. by destruct d.
  - apply Forall_cons_iff in Hxs as [Hx Hxs]. pose proof (codec_pos x Hx) as Hpos.
    destruct fuel as [|fuel]; [lia|]. cbn [sandesh_decode_loop Nat.sub].
    destruct (Z.ltb_spec (zlen pre) (zlen (pre ++ (enc x ++ concat (map enc xs)) ++ tail)));
      [|rewrite !length_app in *; lia].
    rewrite Nat2Z.id, drop_app_length, <- app_assoc.
    rewrite decode_one_codec by (done || (rewrite !length_app in *; lia)). cbn [mbind option_bind].
    destruct (Z.ltb_spec (zlen (enc x)) 0); [lia|].
    rewrite !length_app in Hsz. rewrite (wrapU_small 32) by lia.
    replace (zlen pre + zlen (enc x)) with (zlen (pre ++ enc x)) by (rewrite length_app; lia).
    rewrite !(app_assoc pre (enc x)). rewrite IH; [|done|lia|rewrite !length_app; lia].
    cbn [derror processed]. by rewrite <- !app_assoc.
Qed.

Lemma codecs_length xs : Forall codec xs -> (length xs <= length (concat (map enc xs)))%nat.
Proof.
  induction 1 as [|x xs Hx _ IH]; [done|]. cbn [map concat length]. rewrite length_app. pose proof (codec_pos x Hx). lia.
Qed.
(** What [sandesh_decode] does behind them. *)
Lemma decode_behind xs tail d : (forall k, alloc_ok k = true) -> Forall codec xs -> zlen (concat (map enc xs) ++ tail) < 2 ^ 31 ->
  exists fuel, sandesh_decode (concat (map enc xs) ++ tail) find d =
    sandesh_decode_loop (S fuel) (concat (map enc xs) ++ tail) find (zlen (concat (map enc xs)))
      (MkD (derror d) (processed d ++ map obj_of xs)).
Proof.
  intros Ha Hxs Hsz. pose proof (codecs_length xs Hxs). set (buf := concat (map enc xs) ++ tail) in *.
  exists (length buf - length xs)%nat. unfold sandesh_decode.
  pose proof (decode_loop_all tail Ha xs [] (S (length buf)) d Hxs) as E. cbn [app length] in E. fold buf in E.
  change (Z.of_nat 0) with 0 in E. assert (length xs <= length buf)%nat by (unfold buf; rewrite length_app; lia).
  rewrite E by (done || lia). f_equal. lia.
Qed.
Lemma decode_then xs tail d ret d' :
  (forall k, alloc_ok k = true) -> Forall codec xs -> zlen (concat (map enc xs) ++ tail) < 2 ^ 31 -> tail <> [] -> ret < 0 ->
  sandesh_decode_one tail find (MkD (derror d) (processed d ++ map obj_of xs)) = Some (ret, d') ->
  sandesh_decode (concat (map enc xs) ++ tail) find d = Some (ret, d').
Proof.
  intros Ha Hxs Hsz Ht Hret E. destruct (decode_behind xs tail d Ha Hxs Hsz) as (fuel&->). cbn [sandesh_decode_loop].
  rewrite length_app. destruct (Z.ltb_spec (zlen (concat (map enc xs))) (Z.of_nat (length (concat (map enc xs)) + length tail)));
    [|destruct tail; [done|cbn [length] in *; lia]].
  rewrite Nat2Z.id, drop_app_length, E. cbn [mbind option_bind]. by destruct (Z.ltb_spec ret 0); [|lia].
Qed.
Lemma decode_to_end xs d : (forall k, alloc_ok k = true) -> Forall codec xs -> zlen (concat (map enc xs)) < 2 ^ 31 ->
  sandesh_decode (concat (map enc xs)) find d = Some (zlen (concat (map enc xs)), MkD (derror d) (processed d ++ map obj_of xs)).
Proof.
  intros Ha Hxs Hsz. pose proof (decode_behind xs [] d Ha Hxs) as Hb. rewrite app_nil_r in Hb. destruct (Hb Hsz) as (fuel&->).
  cbn [sandesh_decode_loop]. destruct (Z.ltb_spec (zlen (concat (map enc xs))) (zlen (concat (map enc xs)))); [lia|].
  by rewrite (wrapS_small 32) by lia.
Qed.

End Decode.
