(* ===== verification/CClaims.v ===== *)
(** * What the C library promises

    The memory buffer, the writers compared with those of the C++ library, lengths,
    truncated input, skipping, and the decoding of a buffer of messages. *)

From S2P Require Import Prelude Transport Protocol Wire Binary BinarySpec CThrift CThriftSpec CReaderSpec CSandesh.
Local Open Scope Z_scope.

Module CLibrary.
Import ThriftBinaryProtocol.

(** ** The memory buffer *)
Inductive bop := BWrite (d : list byte) | BRead (n : Z).

(** The abstract machine: the bytes not read yet, and how much of the block is used
    since the buffer was empty last.  A block of the caller's has a capacity. *)
Record queue := MkQ { q_bytes : list byte; q_used : Z }.
Definition bqueue_step (cap : option Z) (q : queue) (o : bop) : Z * list byte * queue :=
  match o with
  | BWrite d =>
      if fits_room cap (q_used q + zlen d) then (1, [], MkQ (q_bytes q ++ d) (q_used q + zlen d))
      else (0, [], q)
  | BRead n =>
      if n <=? zlen (q_bytes q)
      then (n, take (Z.to_nat n) (q_bytes q),
            MkQ (drop (Z.to_nat n) (q_bytes q)) (if n =? zlen (q_bytes q) then 0 else q_used q))
      else (-1, [], q)
  end.
Fixpoint bqueue_run (cap : option Z) (q : queue) (ops : list bop) : list (Z * list byte) :=
  match ops with
  | [] => []
  | o :: ops => let '(r, d, q) := bqueue_step cap q o in (r, d) :: bqueue_run cap q ops
  end.

Definition cbuffer_step `{!Allocator} (b : ThriftMemoryBuffer.t) (o : bop)
    : option (Z * list byte * ThriftMemoryBuffer.t) :=
  match o with
  | BWrite d => '(r, _, b) ← ThriftMemoryBuffer.thrift_memory_buffer_write b d; Some (r, [], b)
  | BRead n => '(r, d, _, b) ← ThriftMemoryBuffer.thrift_memory_buffer_read b n; Some (r, d, b)
  end.
Fixpoint cbuffer_run `{!Allocator} (b : ThriftMemoryBuffer.t) (ops : list bop) : option (list (Z * list byte)) :=
  match ops with
  | [] => Some []
  | o :: ops => '(r, d, b) ← cbuffer_step b o; rest ← cbuffer_run b ops; Some ((r, d) :: rest)
  end.

Definition bwritten (ops : list bop) : Z :=
  foldr (fun o n => match o with BWrite d => zlen d + n | _ => n end) 0 ops.
Definition breads_ok (ops : list bop) : Prop :=
  Forall (fun o => match o with BRead n => 0 <= n < 2 ^ 31 | _ => True end) ops.

(** The buffer and the abstract machine are in step. *)
Definition in_step (cap : option Z) (b : ThriftMemoryBuffer.t) (q : queue) : Prop :=
  CBuffer.wf b /\ CBuffer.contents b = q_bytes q /\ ThriftMemoryBuffer.buf_woffset b = q_used q /\
  match cap with
  | Some c => ThriftMemoryBuffer.owner b = false /\ ThriftMemoryBuffer.buf_size b = c
  | None => ThriftMemoryBuffer.owner b = true
  end.

Lemma bwritten_nonneg ops : 0 <= bwritten ops.
Proof. induction ops as [|[]]; simpl; lia. Qed.

Lemma write_in_step `{!Allocator} cap b q d :
  (cap = None -> (forall k, 0 <= k < 2 ^ 32 -> alloc_ok k = true) /\ q_used q + zlen d <= 2 ^ 31) ->
  in_step cap b q ->
  let '(r, _, q') := bqueue_step cap q (BWrite d) in
  exists e b', ThriftMemoryBuffer.thrift_memory_buffer_write b d = Some (r, e, b') /\ in_step cap b' q' /\
    q_used q' <= q_used q + zlen d.
Proof.
  intros Hcap (Hb&Hc&Hw&Ho). cbn [bqueue_step]. destruct (fits_room cap (q_used q + zlen d)) eqn:Ef.
  - destruct (CBuffer.cbuf_write_append b d Hb) as (b'&E&Hb'&Ec&Ew&Eo&Es).
    { destruct cap as [c|]; cbn in Ef; [left|right; destruct Hcap as [? ?]; [done|]; split_and!; (done || lia)].
      destruct Ho as [_ <-]. lia. }
    exists None, b'. split; [done|]. split; [|cbn; lia]. split; [done|]. cbn. rewrite Ec, Hc, Ew, Hw.
    split; [done|]. split; [done|]. rewrite Eo. destruct cap as [c|]; [|done]. cbn in Ef.
    destruct Ho as [? <-]. split; [done|]. apply Es. lia.
  - destruct cap as [c|]; [|done]. cbn in Ef. destruct Ho as [Ho <-].
    rewrite CBuffer.write_refused by (done || lia). eexists _, _. split; [done|]. split; [done|cbn; lia].
Qed.

Lemma read_in_step `{!Allocator} cap b q n :
  0 <= n < 2 ^ 31 -> in_step cap b q ->
  let '(r, d, q') := bqueue_step cap q (BRead n) in
  exists e b', ThriftMemoryBuffer.thrift_memory_buffer_read b n = Some (r, d, e, b') /\ in_step cap b' q' /\
    q_used q' <= Z.max 0 (q_used q).
Proof.
  intros Hn (Hb&Hc&Hw&Ho). cbn [bqueue_step]. rewrite <- Hc.
  destruct (Z.leb_spec n (zlen (CBuffer.contents b))).
  - destruct (CBuffer.cbuf_read_front b n Hb Hn) as (b'&E&Hb'&Ec&Eo&Es&Ew); [done|].
    exists None, b'. split; [done|]. split; [|cbn; destruct (_ =? _); lia].
    split; [done|]. cbn. split; [done|]. rewrite Ew, Hw, Eo, Es. split; [done|]. by destruct cap.
  - rewrite CBuffer.read_short by done. eexists _, _. split; [done|]. split; [done|lia].
Qed.

Lemma cbuffer_run_queue `{!Allocator} cap ops : forall b q,
  (cap = None -> (forall k, 0 <= k < 2 ^ 32 -> alloc_ok k = true) /\ q_used q + bwritten ops <= 2 ^ 31) ->
  in_step cap b q -> 0 <= q_used q -> breads_ok ops ->
  cbuffer_run b ops = Some (bqueue_run cap q ops).
Proof.
  induction ops as [|o ops IH]; intros b q Hcap Hs Hu Hops; [done|].
  apply Forall_cons_iff in Hops as [Ho Hops]. pose proof (bwritten_nonneg ops).
  cbn [cbuffer_run bqueue_run]. destruct o as [d|n]; cbn [cbuffer_step].
  - pose proof (write_in_step cap b q d) as Hw. cbn [bwritten foldr] in Hcap. fold (bwritten ops) in Hcap.
    destruct (bqueue_step cap q (BWrite d)) as [[r d'] q'] eqn:Eq.
    assert (d' = [] /\ 0 <= q_used q') as [-> Hu'].
    { cbn in Eq. destruct (fits_room cap _); simplify_eq/=; split; (done || lia). }
    destruct Hw as (e&b'&->&Hs'&Hle); [intros E; destruct (Hcap E); split; (done || lia)|done|].
    cbn [mbind option_bind]. rewrite (IH b' q'); [done| |done|done|done].
    intros E. destruct (Hcap E). split; [done|lia].
  - pose proof (read_in_step cap b q n Ho Hs) as Hr.
    destruct (bqueue_step cap q (BRead n)) as [[r d'] q'] eqn:Eq. destruct Hr as (e&b'&->&Hs'&Hle).
    assert (0 <= q_used q') as Hu' by (cbn in Eq; repeat case_match; simplify_eq/=; lia).
    cbn [mbind option_bind]. rewrite (IH b' q'); [done| |done|done|done].
    intros E. destruct (Hcap E). split; [done|]. cbn [bwritten foldr] in *. fold (bwritten ops) in *. lia.
Qed.

(** The C memory buffer is a queue of bytes.  A buffer on a block of the caller's
    answers every sequence of reads and writes as a queue whose writes fit into the
    block behind the bytes used since it was empty last; one with a block of its own
    as an unbounded queue, up to 2^31 bytes.  A refused write and a short read change
    nothing, no access leaves the block, and every call returns. *)
Theorem c_buffer_is_queue `{!Allocator} (block : list byte) (size : Z) (ops : list bop) :
  zlen block < 2 ^ 32 -> 0 <= size < 2 ^ 32 -> (forall k, 0 <= k < 2 ^ 32 -> alloc_ok k = true) -> breads_ok ops ->
  cbuffer_run (ThriftMemoryBuffer.thrift_memory_buffer_init (Some block) (zlen block)) ops
    = Some (bqueue_run (Some (zlen block)) (MkQ [] 0) ops) /\
  (bwritten ops <= 2 ^ 31 ->
   cbuffer_run (ThriftMemoryBuffer.thrift_memory_buffer_init None size) ops
    = Some (bqueue_run None (MkQ [] 0) ops)).
Proof.
  intros Hbl Hsz Ha Hops. split; [|intros Hw].
  - apply cbuffer_run_queue; [done| |done|done]. destruct (CBuffer.init_external block Hbl) as (?&?&?). done.
  - apply cbuffer_run_queue; [done| |done|done]. cbn. unfold TMemoryBuffer.malloc. rewrite Ha by done.
    split; [|done]. unfold CBuffer.wf, ThriftMemoryBuffer.mem. cbn. rewrite length_replicate.
    repeat split; (lia || done).
Qed.

Lemma c_buffer_is_queue_witness :
  let _ := TMemoryBuffer.total_allocator in
  let ops := [BWrite (bs "abc"); BRead 2; BWrite (bs "de"); BRead 1; BWrite (bs "wxyz"); BRead 9] in
  cbuffer_run (ThriftMemoryBuffer.thrift_memory_buffer_init (Some (bs "....")) 4) ops
    = Some [(1, []); (2, bs "ab"); (0, []); (1, bs "c"); (1, []); (-1, [])].
Proof.
  intros A ops. apply (c_buffer_is_queue (bs "....") 8); [reflexivity|lia|reflexivity|].
  repeat constructor; lia.
Defined.

(** ** Writing *)

(** The length of a message and the room it needs.  Writing any value of the C
    library to the fake transport returns the number of bytes its encoding has; with
    a block of the caller's the writer returns the same number and leaves exactly
    the encoding when the block is at least that large, and otherwise returns -1 with
    the send error set.  It never writes outside of the block. *)
Theorem c_length_and_fit `{!Allocator} (v : value) (block : list byte) (e : Z) :
  let text := encode (host_doubles v) in
  value_ok v = true -> c_value v = true -> zlen text < 2 ^ 31 -> zlen block < 2 ^ 32 ->
  (exists s, CWriter.write_value v (Mk (tt : ThriftFakeTransport.t) e) = Some (zlen text, s)) /\
  exists s, CWriter.write_value v (Mk (ThriftMemoryBuffer.thrift_memory_buffer_init (Some block) (zlen block)) e)
      = Some (if zlen text <=? zlen block then zlen text else -1, s) /\
    error s = (if zlen text <=? zlen block then e else THRIFT_TRANSPORT_ERROR_SEND) /\
    (zlen text <= zlen block -> CBuffer.contents (transport s) = text).
Proof.
  intros text Hv Hc Hsz Hb. split.
  - pose proof (CWriter.write_value_writes (T := ThriftFakeTransport.t) v Hv Hc (Mk tt e) I Hsz) as (s&E&_).
    by exists s.
  - destruct (CBuffer.init_external block Hb) as (Hw&Hn&Ho).
    set (b := ThriftMemoryBuffer.thrift_memory_buffer_init (Some block) (zlen block)) in *.
    pose proof (CWriter.write_value_writes (T := ThriftMemoryBuffer.t) v Hv Hc (Mk b e) (conj Hw Ho) Hsz) as Hw'.
    unfold fits in Hw'. cbn [c_room external_laws fits_room transport] in Hw'.
    change (ThriftMemoryBuffer.buf_size b - ThriftMemoryBuffer.buf_woffset b) with (zlen block - 0) in Hw'.
    rewrite Z.sub_0_r in Hw'. fold text in Hw'. destruct (Z.leb_spec (zlen text) (zlen block)).
    + destruct Hw' as (s&E&_&W&Ee&_). exists s. split; [done|]. split; [done|]. intros _.
      change (CBuffer.contents (transport s) = CBuffer.contents b ++ text) in W. by rewrite W, Hn.
    + destruct Hw' as (s&E&_&Ee). exists s. split; [done|]. split; [done|]. lia.
Qed.

Definition c_sample : value :=
  VSandesh (bs "vr_flow") [(1, VInt T_I32 (-5)); (2, VList T_I64 [VInt T_I64 (2 ^ 40); VInt T_I64 (-1)]);
    (3, VBytes T_STRING (bs "eth0")); (4, VStruct [(1, VIp (IPv4 [x0a; x00; x00; x01])); (2, VBool true)])].

Lemma c_length_and_fit_witness :
  let _ := TMemoryBuffer.total_allocator in
  exists s s', CWriter.write_value c_sample (Mk (tt : ThriftFakeTransport.t) 0) = Some (70, s) /\
    CWriter.write_value c_sample (Mk (ThriftMemoryBuffer.thrift_memory_buffer_init (Some (bs "too small")) 9) 0)
      = Some (-1, s') /\ error s' = 4.
Proof.
  intros A. destruct (c_length_and_fit c_sample (bs "too small") 0) as [(s&Es) (s'&Es'&Ee&_)];
    [reflexivity..|]. exists s, s'. split; [exact Es|]. split; [exact Es'|exact Ee].
Defined.

Lemma c_writes_external `{!Allocator} (v : value) (block : list byte) (e : Z) :
  value_ok v = true -> c_value v = true -> zlen (encode (host_doubles v)) < 2 ^ 31 ->
  zlen (encode (host_doubles v)) <= zlen block -> zlen block < 2 ^ 32 ->
  exists s, CWriter.write_value v (Mk (ThriftMemoryBuffer.thrift_memory_buffer_init (Some block) (zlen block)) e)
      = Some (zlen (encode (host_doubles v)), s) /\ CBuffer.contents (transport s) = encode (host_doubles v).
Proof.
  intros Hv Hc Hsz Hfit Hb. destruct (CBuffer.init_external block Hb) as (Hw&Hn&Ho).
  set (b := ThriftMemoryBuffer.thrift_memory_buffer_init (Some block) (zlen block)) in *.
  pose proof (CWriter.write_value_writes (T := ThriftMemoryBuffer.t) v Hv Hc (Mk b e) (conj Hw Ho) Hsz) as Hw'.
  assert (fits (transport (Mk b e)) (zlen (encode (host_doubles v))) = true) as Ef.
  { unfold fits, fits_room. cbn [c_room external_laws transport].
    change (ThriftMemoryBuffer.buf_size b - ThriftMemoryBuffer.buf_woffset b) with (zlen block - 0). lia. }
  rewrite Ef in Hw'. destruct Hw' as (s&E&_&W&_). exists s. split; [done|].
  change (CBuffer.contents (transport s) = CBuffer.contents b ++ encode (host_doubles v)) in W. by rewrite W, Hn.
Qed.

(** C and C++ write the same bytes.  For every value of the C library without
    doubles, the generated C writer on a block that is large enough and the generated
    C++ writer on a memory buffer leave the same bytes and return the same number.
    A C++ reader in front of what C wrote returns the value with every double in
    reverse byte order: C writes doubles as they lie in memory. *)
Theorem c_cpp_same_bytes `{!Allocator} {T : Type} `{TT : TTransport T} `{TL : !TransportLaws T} (w : T) (v : value) (block : list byte)
    (e : Z) (fuel : nat) :
  let text := encode (host_doubles v) in
  value_ok v = true -> c_value v = true -> zlen text < 2 ^ 31 -> zlen text <= zlen block < 2 ^ 32 ->
  t_ok w -> t_room w (zlen text) -> (fuel_for (host_doubles v) <= fuel)%nat ->
  exists s, CWriter.write_value v (Mk (ThriftMemoryBuffer.thrift_memory_buffer_init (Some block) (zlen block)) e)
      = Some (zlen text, s) /\
    (no_double v = true -> exists s', write_value v (TBinaryProtocol.new w) = Some (zlen text, s') /\
       t_contents (TBinaryProtocol.trans_ s') = t_contents w ++ CBuffer.contents (transport s)) /\
    (forall (r : T) rest, t_readable r -> t_contents r = CBuffer.contents (transport s) ++ rest ->
       exists r', read_value fuel (type_of v) (TBinaryProtocol.new r)
           = Some ((zlen text, Some (host_doubles v)), r') /\
         t_contents (TBinaryProtocol.trans_ r') = rest).
Proof.
  intros text Hv Hc Hsz Hb Hok Hroom Hfuel. subst text.
  destruct (c_writes_external v block e Hv Hc Hsz ltac:(lia) ltac:(lia)) as (s&E&Ec). exists s. split; [done|].
  rewrite Ec. split.
  - intros Hnd. rewrite host_doubles_id in * by done.
    destruct (write_value_emits v Hv (TBinaryProtocol.new w)) as (s'&E'&W); [done|].
    exists s'. split; [done|]. by destruct W as (_&?&_).
  - intros r rest Hr Hcr. rewrite <- host_doubles_type.
    destruct (read_value_reads (host_doubles v) fuel (host_doubles_ok v Hv) Hfuel (TBinaryProtocol.new r) rest)
      as (r'&E'&Hr'); [by split_and!|done|]. exists r'. split; [done|]. by destruct Hr' as (_&?&_).
Qed.

Lemma c_cpp_same_bytes_witness :
  let _ := TMemoryBuffer.total_allocator in
  exists b s s', TMemoryBuffer.new_size 16 = Some b /\
    CWriter.write_value c_sample (Mk (ThriftMemoryBuffer.thrift_memory_buffer_init (Some (replicate 80 x00)) 80) 0)
      = Some (70, s) /\
    write_value c_sample (TBinaryProtocol.new b) = Some (70, s') /\
    TMemoryBuffer.contents (TBinaryProtocol.trans_ s') = CBuffer.contents (transport s).
Proof.
  intros A. destruct (TMemoryBuffer.new_size 16) as [b|] eqn:Eb; [|discriminate Eb].
  destruct (TMemoryBuffer.new_size_ok 16 b) as (Hb&Ec&Ho); [lia|exact Eb|].
  destruct (c_cpp_same_bytes (T := TMemoryBuffer.t) b c_sample (replicate 80 x00) 0 10) as (s&Es&Hsame&_).
  - reflexivity.
  - reflexivity.
  - reflexivity.
  - split; [vm_compute; discriminate|reflexivity].
  - exact Hb.
  - right. split; [exact Ho|]. injection Eb as <-. split; [vm_compute; discriminate|reflexivity].
  - apply Nat.leb_le. reflexivity.
  - destruct Hsame as (s'&Es'&Ec'); [reflexivity|]. exists b, s, s'. split; [reflexivity|].
    split; [exact Es|]. split; [exact Es'|]. change (t_contents b) with (TMemoryBuffer.contents b) in Ec'.
    rewrite Ec in Ec'. exact Ec'.
Defined.

(** ** Reading *)

(** C reads back what C wrote, and notices when a part is missing.  In front of
    the encoding of any value of the C library the generated reader returns the
    value, the number of bytes, and leaves what is behind; in front of the same
    encoding cut off anywhere it returns -1 with the receive error set, without
    undefined behaviour. *)
Theorem c_read_total `{!Allocator} (v : value) (b : ThriftMemoryBuffer.t) (e : Z) (fuel : nat) :
  (forall k, alloc_ok k = true) -> CBuffer.wf b -> value_ok v = true -> c_value v = true ->
  zlen (encode (host_doubles v)) < 2 ^ 31 -> (fuel_for v <= fuel)%nat ->
  (forall rest, CBuffer.contents b = encode (host_doubles v) ++ rest ->
     exists s, CReader.read_value fuel (type_of v) (Mk b e) = Some ((zlen (encode (host_doubles v)), Some v), s) /\
       CBuffer.contents (transport s) = rest /\ error s = e) /\
  (forall k, (k < length (encode (host_doubles v)))%nat -> CBuffer.contents b = take k (encode (host_doubles v)) ->
     exists s o, CReader.read_value fuel (type_of v) (Mk b e) = Some ((-1, o), s) /\
       error s = THRIFT_TRANSPORT_ERROR_RECEIVE).
Proof.
  intros Ha Hb Hv Hc Hsz Hfuel.
  destruct (CReader.c_read_value_reads Ha v fuel Hv Hc Hfuel (Mk b e) Hsz) as [H1 H2]. split.
  - intros rest Hrest. destruct (H1 rest) as (s&E&[_ Hr]&Ee); [done|]. by exists s.
  - intros k Hk Hl. apply (H2 (take k (encode (host_doubles v)))); [done|].
    exists (drop k (encode (host_doubles v))). split; [by rewrite take_drop|].
    intros E0. apply (f_equal length) in E0. rewrite length_drop in E0. cbn in E0. lia.
Qed.

Lemma c_read_total_witness :
  let _ := TMemoryBuffer.total_allocator in
  let text := encode c_sample in
  exists s s' o,
    CReader.read_value 10 T_SANDESH (Mk (ThriftMemoryBuffer.Mk (Some text) 0 70 70 false) 0)
      = Some ((70, Some c_sample), s) /\
    CReader.read_value 10 T_SANDESH (Mk (ThriftMemoryBuffer.Mk (Some text) 0 40 70 false) 0)
      = Some ((-1, o), s') /\ error s' = 5.
Proof.
  intros A text.
  assert (forall n, 0 <= n <= 70 -> CBuffer.wf (ThriftMemoryBuffer.Mk (Some text) 0 n 70 false)) as Hwf.
  { intros n Hn. unfold CBuffer.wf. cbn [ThriftMemoryBuffer.buf_roffset ThriftMemoryBuffer.buf_woffset
      ThriftMemoryBuffer.buf_size ThriftMemoryBuffer.buf]. split_and!; try lia; [vm_compute; discriminate|discriminate]. }
  destruct (c_read_total c_sample (ThriftMemoryBuffer.Mk (Some text) 0 70 70 false) 0 10) as [H1 _];
    [reflexivity|apply Hwf; lia|reflexivity|reflexivity|reflexivity|apply Nat.leb_le; reflexivity|].
  destruct (c_read_total c_sample (ThriftMemoryBuffer.Mk (Some text) 0 40 70 false) 0 10) as [_ H2];
    [reflexivity|apply Hwf; lia|reflexivity|reflexivity|reflexivity|apply Nat.leb_le; reflexivity|].
  destruct (H1 []) as (s&Es&_); [reflexivity|]. destruct (H2 40%nat) as (s'&o&Es'&Ee);
    [apply Nat.ltb_lt; reflexivity|reflexivity|]. exists s, s', o. split; [exact Es|]. split; [exact Es'|exact Ee].
Defined.

(** ** Skipping *)

(** Skipping in a buffer.  At the encoding of a value made of the types it knows,
    with at least that many bytes left, [thrift_binary_protocol_skip_from_buffer]
    returns the length of the encoding, if the three bytes it does not set of the
    element type of a list happen to be zero; the block is never left. *)
Theorem c_skip_from_buffer_exact (mem : list byte) (v : value) (off buflen : Z) (fuel : nat) :
  value_ok v = true -> CSkip.skippable true v = true -> (fuel_for v <= fuel)%nat ->
  CSkip.holds mem off (encode v) -> zlen (encode v) < 2 ^ 31 -> zlen (encode v) <= buflen < 2 ^ 32 ->
  thrift_binary_protocol_skip_from_buffer 0 mem fuel off buflen (type_of v) = Some (zlen (encode v)).
Proof. intros Hv Hs Hf Hh Hsz Hb. by apply (CSkip.skip_ok 0 mem true). Qed.

Definition skip_sample : value :=
  VStruct [(1, VList T_STRUCT [VStruct [(1, VBytes T_STRING (bs "a"))]; VStruct []]); (2, VInt T_U64 7)].

Lemma c_skip_from_buffer_exact_witness :
  thrift_binary_protocol_skip_from_buffer 0 (bs "zz" ++ encode skip_sample ++ bs "more") 10 2 32 T_STRUCT = Some 30.
Proof.
  apply (c_skip_from_buffer_exact _ skip_sample 2 32 10); [reflexivity|reflexivity|apply Nat.leb_le; reflexivity| |
    reflexivity|split; [vm_compute; discriminate|reflexivity]].
  exists (bs "zz"), (bs "more"). split; reflexivity.
Defined.

Lemma ttype_of_large z : 25 <= z -> ttype_of z = T_cast z.
Proof.
  intros Hz. assert (ttype_code (ttype_of z) = z) as E.
  { destruct z as [|p|p]; try lia. do 5 (destruct p as [p|p|]; try done). }
  destruct (ttype_of z); cbn in E; (lia || by subst).
Qed.

Lemma skip_elems_zero upper mem fuel z n off buflen size result :
  25 <= z -> 0 <= result < 2 ^ 31 -> (Z.to_nat size <= n)%nat -> (0 < fuel)%nat -> forall i, 0 <= i <= size ->
  skip_buffer_elems (fun off buflen => thrift_binary_protocol_skip_from_buffer upper mem fuel off buflen (ttype_of z))
    n off buflen (size - i) size result = Some result.
Proof.
  intros Hz Hr Hn Hf i Hi. rewrite (ttype_of_large z Hz). destruct fuel as [|fuel]; [lia|].
  remember (Z.to_nat i) as k eqn:Ek. assert (k <= n)%nat as Hk by lia. clear Hn. revert n i Hi Ek Hk.
  induction k as [|k IH]; intros n i Hi Ek Hk.
  - assert (i = 0) as -> by lia. rewrite Z.sub_0_r.
    destruct n; cbn [skip_buffer_elems]; (destruct (Z.ltb_spec size size); [lia|]); by rewrite (wrapS_small 32) by lia.
  - destruct n as [|n]; [lia|]. cbn [skip_buffer_elems]. destruct (Z.ltb_spec (size - i) size); [|lia].
    cbn [thrift_binary_protocol_skip_from_buffer mbind option_bind]. rewrite Z.add_0_r, (wrapU_small 32) by lia.
    replace (size - i + 1) with (size - (i - 1)) by lia. apply IH; lia.
Qed.

(** The element type of a list is read from four bytes of which one was set.  When
    the other three, left over on the stack, are not zero, the skip of any list
    returns 5, whatever its elements are: the caller goes on inside of the list. *)
Theorem c_skip_list_stack (upper : Z) (mem : list byte) (ety : TType) (vs : list value) (off buflen : Z) (fuel : nat) :
  1 <= upper < 2 ^ 23 -> value_ok (VList ety vs) = true -> (length vs < fuel)%nat ->
  CSkip.holds mem off (encode (VList ety vs)) -> 5 <= buflen < 2 ^ 32 ->
  thrift_binary_protocol_skip_from_buffer upper mem (S fuel) off buflen T_LIST = Some 5.
Proof.
  intros Hu Hv Hf Hh Hb. cbn [value_ok] in Hv. zify_bools. cbn [thrift_binary_protocol_skip_from_buffer].
  change (encode (VList ety vs)) with (byte_code ety ++ count (zlen vs) ++ concat (map encode vs)) in *.
  destruct (byte_code_1 ety) as (b&Eb&Et); [done|].
  assert (zlen (byte_code ety) = 1 /\ zlen (count (zlen vs)) = 4) as [E1 E4]
    by (unfold count; by rewrite Eb, length_be_bytes).
  apply CSkip.holds_app in Hh as [Hh1 Hh]. apply CSkip.holds_app in Hh as [Hh2 _]. rewrite E1 in *.
  destruct (Z.ltb_spec buflen 1); [lia|]. rewrite (CSkip.mread_holds _ _ _ 1 Hh1) by lia. cbn [mbind option_bind].
  destruct (Z.ltb_spec buflen (1 + 4)); [lia|]. rewrite (CSkip.mread_holds _ _ _ 4 Hh2) by lia. cbn [mbind option_bind].
  rewrite int_value_count by lia. destruct (Z.ltb_spec (zlen vs) 0); [lia|].
  pose proof (be_value_range (byte_code ety)) as Hr. rewrite E1 in Hr. change (256 ^ 1) with 256 in Hr.
  rewrite (wrapS_small 32) by lia.
  pose proof (skip_elems_zero upper mem fuel (be_value (byte_code ety) + 256 * upper) fuel off buflen (zlen vs) 5
    ltac:(lia) ltac:(lia) ltac:(lia) ltac:(lia) (zlen vs) ltac:(lia)) as E. rewrite Z.sub_diag in E. exact E.
Qed.

Lemma c_skip_list_stack_witness :
  thrift_binary_protocol_skip_from_buffer 1 (encode (VList T_I32 [VInt T_I32 1; VInt T_I32 2])) 4 0 13 T_LIST = Some 5.
Proof.
  apply (c_skip_list_stack 1 _ T_I32 [VInt T_I32 1; VInt T_I32 2] 0 13 3); [lia|reflexivity|simpl; lia| |lia].
  exists [], []. split; [by rewrite app_nil_r|reflexivity].
Defined.

(** *** [thrift_protocol_skip] at the end of the input *)
Section Truncated.
Context `{!Allocator}.
Abbreviation S := (t ThriftMemoryBuffer.t).

Definition fixed (ty : TType) : bool := match int_info ty with Some _ => true | None => false end.

Lemma skip_fixed_empty fuel ty (s : S) :
  fixed ty = true -> CReader.ready s [] ->
  thrift_protocol_skip fuel ty s = None \/
  exists s', thrift_protocol_skip fuel ty s = Some (-1, s') /\ CReader.ready s' [].
Proof.
  intros Hf [Hw Hc]. destruct fuel as [|fuel]; [by left|]. right.
  assert (forall n A (f : list byte -> A), 0 < n -> exists s', code (fetch n f) s = Some (-1, s') /\ CReader.ready s' [])
    as Hfetch.
  { intros n A f Hn. unfold code, fetch, thrift_transport_read, mbind, M_bind. cbn [c_read ThriftMemoryBuffer.transport].
    rewrite CBuffer.read_short by (rewrite ?Hc; cbn; (done || lia)). by eexists. }
  destruct ty; try done; by apply Hfetch.
Qed.

Lemma read_field_begin_empty old (s : S) :
  CReader.ready s [] ->
  exists s', read_field_begin old s = Some ((-1, old, None), s') /\ CReader.ready s' [].
Proof.
  intros [Hw Hc]. unfold read_field_begin, read_byte, fetch, thrift_transport_read, mbind, M_bind.
  cbn [c_read ThriftMemoryBuffer.transport].
  rewrite CBuffer.read_short by (rewrite ?Hc; cbn; (done || lia)). by eexists.
Qed.

Lemma skip_loop_empty fuel0 ty : fixed ty = true -> forall fuel result (s : S),
  CReader.ready s [] -> skip_struct_loop (thrift_protocol_skip fuel0) fuel (Some ty) result s = None.
Proof.
  intros Hf. induction fuel as [|fuel IH]; intros result s Hr; [done|]. cbn [skip_struct_loop].
  destruct (read_field_begin_empty (Some ty) s Hr) as (s1&E1&Hr1). rewrite (bind_run _ _ _ _ _ E1). cbn [get].
  rewrite (bind_run _ _ _ _ _ (eq_refl (Some (ty, s1)))).
  rewrite bool_decide_eq_false_2 by (by destruct ty).
  destruct (skip_fixed_empty fuel0 ty s1 Hf Hr1) as [E2|(s2&E2&Hr2)].
  - unfold mbind, M_bind. by rewrite E2.
  - rewrite (bind_run _ _ _ _ _ E2). rewrite (bind_run _ _ _ _ _ (eq_refl (Some (0, s2)))). by apply IH.
Qed.

Lemma fixed_code fuel ty : fixed ty = true ->
  exists n A (f : list byte -> A), int_info ty = Some (n, snd (default (O, true) (int_info ty))) /\ (0 < n)%nat /\
    thrift_protocol_skip (Datatypes.S fuel) ty = code (fetch (T := ThriftMemoryBuffer.t) (Z.of_nat n) f).
Proof. intros Hf. destruct ty; try done; eexists _, _, _; (split; [reflexivity|]); (split; [lia|reflexivity]). Qed.

Lemma read_field_begin_ok (f : Z * value) old (s : S) rest :
  value_ok f.2 = true -> int_fits 2 true f.1 = true ->
  CReader.ready s ((byte_code (type_of f.2) ++ be_bytes 2 f.1) ++ rest) ->
  exists s', read_field_begin old s = Some ((3, Some (type_of f.2), Some f.1), s') /\ CReader.ready s' rest.
Proof.
  intros Hv Hid Hr. destruct (value_ok_type f.2 Hv) as [Hd Hns]. rewrite <- app_assoc in Hr.
  assert (zlen (byte_code (type_of f.2)) = 1 /\ zlen (be_bytes 2 f.1) = 2) as [E1 E2]
    by (destruct (byte_code_1 _ Hd) as (b&->&_); by rewrite length_be_bytes).
  unfold read_field_begin, mbind, M_bind.
  destruct (CReader.run_reads _ _ _ s _ (CReader.read_code_reads _ Hd) ltac:(lia) Hr) as (s1&->&Hr1&_).
  rewrite E1. cbn [mbind option_bind fst snd Z.ltb Z.compare get mret M_ret].
  rewrite ttype_of_code, bool_decide_eq_false_2 by done.
  assert (CReader.reads read_i16 (be_bytes 2 f.1) f.1) as Hi by (by apply (CReader.fetch_int 2 true); [lia|]).
  destruct (CReader.run_reads _ _ _ s1 _ Hi ltac:(lia) Hr1) as (s2&->&Hr2&_). rewrite E2. cbn. by exists s2.
Qed.

Lemma skip_fixed_ok fuel v (s : S) rest :
  value_ok v = true -> fixed (type_of v) = true -> CReader.ready s (encode v ++ rest) ->
  thrift_protocol_skip fuel (type_of v) s = None \/
  exists s', thrift_protocol_skip fuel (type_of v) s = Some (zlen (encode v), s') /\ CReader.ready s' rest.
Proof.
  intros Hv Hf Hr. destruct fuel as [|fuel]; [by left|]. right.
  destruct (fixed_code fuel (type_of v) Hf) as (n&A&f&Hi&Hn&->).
  assert (zlen (encode v) = Z.of_nat n /\ (n <= 8)%nat) as [El Hn8].
  { destruct v as [|ty z| | |ty l| | | | | |]; try done; cbn [type_of value_ok encode] in *.
    - rewrite Hi, length_be_bytes. split; [done|]. destruct ty; simplify_eq/=; lia.
    - zify_bools. by destruct ty. }
  rewrite <- El.
  destruct (CReader.run_reads _ _ _ s rest (CReader.fetch_reads (zlen (encode v)) f (encode v) eq_refl) ltac:(lia) Hr)
    as (s1&E&Hr1&_). exists s1. split; [|done]. unfold code. by rewrite (bind_run _ _ _ _ _ E).
Qed.

(** A struct without an end makes [thrift_protocol_skip] loop for ever.  In front
    of complete fields of integer types and then the end of the input, the failing
    call that should read the next field is not looked at, the type of the last
    field stays, and each turn fails again without consuming anything: no number of
    steps is enough. *)
Theorem c_skip_unterminated (fs : list (Z * value)) (s : S) (fuel : nat) :
  fs <> [] -> Forall (fun f => int_fits 2 true f.1 = true /\ value_ok f.2 = true /\ fixed (type_of f.2) = true) fs ->
  CBuffer.wf (transport s) -> CBuffer.contents (transport s) = concat (map encode_field fs) ->
  thrift_protocol_skip fuel T_STRUCT s = None.
Proof.
  intros Hne Hfs Hw Hc. destruct fuel as [|fuel]; [done|]. cbn [thrift_protocol_skip].
  unfold mbind, M_bind, read_struct_begin, mret, M_ret. cbn [mbind option_bind].
  assert (forall n old result (s : S), (fs <> [] \/ exists ty, old = Some ty /\ fixed ty = true) ->
    CReader.ready s (concat (map encode_field fs)) ->
    skip_struct_loop (thrift_protocol_skip fuel) n old result s = None) as Hloop; [|apply Hloop; [by left|done]].
  clear Hne Hw Hc s. induction Hfs as [|f fs (Hid&Hv&Hfx) _ IH]; intros n old result s Hold Hr.
  - destruct Hold as [?|(ty&->&Hty)]; [done|]. by apply skip_loop_empty.
  - destruct n as [|n]; [done|]. cbn [skip_struct_loop map concat] in *.
    assert (encode_field f ++ concat (map encode_field fs) =
      (byte_code (type_of f.2) ++ be_bytes 2 f.1) ++ encode f.2 ++ concat (map encode_field fs)) as Ee
      by (unfold encode_field at 1; by rewrite <- !app_assoc).
    rewrite Ee in Hr. destruct (read_field_begin_ok f old s _ Hv Hid Hr) as (s1&E1&Hr1).
    rewrite (bind_run _ _ _ _ _ E1). cbn [get].
    rewrite (bind_run _ _ _ _ _ (eq_refl (Some (type_of f.2, s1)))).
    rewrite bool_decide_eq_false_2 by (by destruct (type_of f.2)).
    destruct (skip_fixed_ok fuel f.2 s1 _ Hv Hfx Hr1) as [E2|(s2&E2&Hr2)].
    + unfold mbind, M_bind. by rewrite E2.
    + rewrite (bind_run _ _ _ _ _ E2). rewrite (bind_run _ _ _ _ _ (eq_refl (Some (0, s2)))).
      apply IH; [|done]. right. by eexists.
Qed.

End Truncated.

Lemma c_skip_unterminated_witness :
  let _ := TMemoryBuffer.total_allocator in
  thrift_protocol_skip 100 T_STRUCT
    (Mk (ThriftMemoryBuffer.Mk (Some (encode_field (1, VInt T_I16 9))) 0 5 5 false) 0) = None.
Proof.
  intros A. apply (c_skip_unterminated [(1, VInt T_I16 9)]); [discriminate| | |reflexivity].
  - repeat constructor.
  - unfold CBuffer.wf. cbn. repeat split; (lia || discriminate).
Defined.

(** ** Decoding a buffer of messages *)

(** A buffer of messages is decoded in order.  Given code generated for each
    message that reads back its own encoding, [sandesh_decode] hands the messages of
    a buffer to the application one after the other and returns the number of bytes.
    When a name that is not in the table follows them, they have been processed, the
    result is -1 and the error EINVAL; when less than a length follows, the result
    is -1 too, but the error keeps its old value. *)
Theorem c_decode_all `{!Allocator} {X V : Type} (find : find_fn X) (enc : V -> list byte) (obj_of : V -> X) (xs : list V)
    (tail : list byte) (d : dstate X) :
  (forall k, alloc_ok k = true) -> Forall (codec find enc obj_of) xs -> zlen (concat (map enc xs) ++ tail) < 2 ^ 31 ->
  (tail = [] -> sandesh_decode (concat (map enc xs) ++ tail) find d
     = Some (zlen (concat (map enc xs)), MkD (derror d) (processed d ++ map obj_of xs))) /\
  (forall name rest, tail = count (zlen name) ++ name ++ rest -> name <> [] -> x00 ∉ name -> find name = None ->
     sandesh_decode (concat (map enc xs) ++ tail) find d = Some (-1, MkD C_EINVAL (processed d ++ map obj_of xs))) /\
  ((0 < length tail < 4)%nat ->
     sandesh_decode (concat (map enc xs) ++ tail) find d = Some (-1, MkD (derror d) (processed d ++ map obj_of xs))).
Proof.
  intros Ha Hxs Hsz. split; [|split].
  - intros ->. rewrite app_nil_r in *. by apply decode_to_end.
  - intros name rest Et Hne Hnul Hf. assert (length (count (zlen name)) = 4%nat) as E4 by (unfold count; by rewrite length_be_bytes).
    eapply decode_then; [done..| |lia|]; rewrite Et; [by destruct (count (zlen name))|].
    rewrite length_app, Et, !length_app in Hsz. rewrite decode_one_named by (done || lia). by rewrite Hf.
  - intros Ht. eapply decode_then; [done..| |lia|]; [by intros ->; cbn in Ht; lia|].
    unfold sandesh_decode_one. by destruct (Z.ltb_spec (zlen tail) 4); [|lia].
Qed.

(** Messages that are read through the protocol. *)
Definition value_info (name : list byte) : sandesh_info value := {|
  info_name := name;
  info_size := 64;
  read_binary_from_buffer buf :=
    let _ := TMemoryBuffer.total_allocator in
    '(ret, v, s) ← CReader.read_value 10 T_SANDESH
       (Mk (ThriftMemoryBuffer.Mk (Some buf) 0 (zlen buf) (zlen buf) false) 0);
    Some (ret, v, if ret <? 0 then Some (error s) else None);
  info_write v := CWriter.write_value v;
  write_binary_to_buffer v buf := None;
|}.

Lemma whole_ready l : zlen l < 2 ^ 31 ->
  CReader.ready (Mk (ThriftMemoryBuffer.Mk (Some l) 0 (zlen l) (zlen l) false) 0) l.
Proof.
  intros Hl. split; [unfold CBuffer.wf; cbn; repeat split; (lia || done)|].
  unfold CBuffer.contents. cbn. by rewrite Nat2Z.id, firstn_all, drop_0.
Qed.

Lemma value_codec find name fs :
  let v := VSandesh name fs in
  find name = Some (value_info name) -> name <> [] -> x00 ∉ name -> zlen name < 2 ^ 31 - 4 ->
  value_ok v = true -> c_value v = true -> (fuel_for v <= 10)%nat ->
  codec find (fun v => encode (host_doubles v)) id v.
Proof.
  intros v Hf Hne Hnul Hlen Hv Hc Hfuel.
  exists name, (encode_fields (map (fun f => (f.1, host_doubles f.2)) fs)), (value_info name).
  split; [by cbn [host_doubles v encode]; rewrite <- app_assoc|]. do 4 (split; [done|]).
  intros rest Hsz. cbn [read_binary_from_buffer value_info]. set (buf := encode (host_doubles v) ++ rest) in *.
  set (A := TMemoryBuffer.total_allocator).
  destruct (CReader.c_read_value_reads (H := A) (fun k => eq_refl) v 10 Hv Hc Hfuel
    (Mk (ThriftMemoryBuffer.Mk (Some buf) 0 (zlen buf) (zlen buf) false) 0)) as [H1 _].
  { unfold buf in Hsz. rewrite length_app in Hsz. lia. }
  destruct (H1 rest) as (s&E&_&_).
  { exact (whole_ready buf Hsz). }
  change (type_of v) with T_SANDESH in E. rewrite E. cbn [mbind option_bind].
  by destruct (Z.ltb_spec (zlen (encode (host_doubles v))) 0); [lia|].
Qed.

Lemma c_decode_all_witness :
  let _ := TMemoryBuffer.total_allocator in
  let find := sandesh_find_info [value_info (bs "other"); value_info (bs "vr_flow")] in
  let m := VSandesh (bs "other") [] in
  sandesh_decode (encode c_sample ++ encode m ++ encode c_sample) find (MkD 0 [])
    = Some (150, MkD 0 [c_sample; m; c_sample]) /\
  sandesh_decode (encode c_sample ++ encode (VSandesh (bs "none") [])) find (MkD 0 [])
    = Some (-1, MkD 22 [c_sample]) /\
  sandesh_decode (encode c_sample ++ [x00]) find (MkD 0 []) = Some (-1, MkD 0 [c_sample]).
Proof.
  intros A find m.
  assert (forall name, In name [bs "other"; bs "vr_flow"] -> find name = Some (value_info name)) as Hfind.
  { intros name [<-|[<-|[]]]; reflexivity. }
  assert (codec find (fun v => encode (host_doubles v)) id c_sample) as Hc.
  { apply value_codec; [reflexivity|discriminate| |reflexivity|reflexivity|reflexivity|apply Nat.leb_le; reflexivity].
    apply (bool_decide_eq_true_1 (~ _)). reflexivity. }
  assert (codec find (fun v => encode (host_doubles v)) id m) as Hm.
  { apply value_codec; [reflexivity|discriminate| |reflexivity|reflexivity|reflexivity|apply Nat.leb_le; reflexivity].
    apply (bool_decide_eq_true_1 (~ _)). reflexivity. }
  split; [|split].
  - apply (c_decode_all find (fun v => encode (host_doubles v)) id [c_sample; m; c_sample] [] (MkD 0 []));
      [reflexivity|by repeat constructor|reflexivity|reflexivity].
  - apply (c_decode_all find (fun v => encode (host_doubles v)) id [c_sample] (encode (VSandesh (bs "none") [])) (MkD 0 []))
      with (name := bs "none") (rest := [x00]);
      [reflexivity|by repeat constructor|reflexivity|reflexivity|discriminate| |reflexivity].
    apply (bool_decide_eq_true_1 (~ _)). reflexivity.
  - apply (c_decode_all find (fun v => encode (host_doubles v)) id [c_sample] [x00] (MkD 0 []));
      [reflexivity|by repeat constructor|reflexivity|cbn; lia].
Defined.

End CLibrary.
