(* ===== verification/DerivedStats.v ===== *)
(** * Derived statistics

    library/cpp/derived_stats_algo.h, the algorithms, and derived_stats.h, the
    interface of generated code to them.  A template parameter [ElemT] or [ResultT]
    is a type with a class of the operations the code uses; an algorithm is an
    instance of [DSAlgo], and [DerivedStatsIf] and its relatives are parametric in it.

    [None] is undefined behaviour, a failed assertion or an exception.  A member of
    scalar type that the constructor leaves alone is [None] until it is set.  A
    [std::map] keyed by names is a [gmap]: the loops over one touch each round the
    entry of its own key only, so that their order does not matter; [history_buf_] is
    kept in the order of its keys. *)

From Stdlib Require Import SpecFloat.
From S2P Require Import Prelude.
Local Open Scope Z_scope.

Inductive DSReturnType := DSR_INVALID | DSR_SKIP | DSR_OK.
#[export] Instance DSReturnType_eq_dec : EqDecision DSReturnType.
Proof. solve_decision. Defined.

(** ** The operations of the template parameters *)

(** [e_uninit] is what a member that no constructor mentions holds: nothing for a
    scalar, a default-constructed object for a class; [e_zero] is an object with
    static storage. *)
Class Elem (E : Type) := {
  e_uninit : option E;
  e_zero : E;
  e_add : E -> E -> E;
  e_sub : E -> E -> E;
  e_eqb : E -> E -> bool;
}.

(** [value_ = raw], [value_ + raw], [value_ - raw], [res / samples_] and a static
    [SumResT]. *)
Class SumOps (E R : Type) := {
  s_of : E -> R;
  s_add : R -> E -> R;
  s_sub : R -> E -> R;
  s_div : R -> Z -> option R;
  s_empty : R;
}.

(** [ResultT res;] *)
Class Result (R : Type) := { r_new : R }.

#[export] Instance u64_elem : Elem Z := {
  e_uninit := None;
  e_zero := 0;
  e_add a b := u64 (a + b);
  e_sub a b := u64 (a - b);
  e_eqb := Z.eqb;
}.
#[export] Instance u64_sum : SumOps Z Z := {
  s_of a := a;
  s_add a b := u64 (a + b);
  s_sub a b := u64 (a - b);
  s_div a n := if n =? 0 then None else Some (a / n);
  s_empty := 0;
}.
#[export] Instance u64_result : Result Z := { r_new := 0 }.

(** What [DSTT<ElemT, ResultT>] has: a constructor from the annotation, [Update]
    and [FillResult], which changes the object it is given. *)
Class DSAlgo (D E R : Type) := {
  ds_new : list byte -> option D;
  ds_update : E -> Z -> D -> option D;
  ds_fill : D -> R -> option (DSReturnType * R);
}.
Arguments ds_new D E R {_} _ : assert.
Arguments ds_update D E R {_} _ _ _ : assert.
Arguments ds_fill D E R {_} _ _ : assert.

(** ** DSChange, DSNon0, DSNone, DSNull *)
Module DSChange.
Record t (E : Type) := Mk { init_ : bool; value_ : option E; prev_ : option E }.
Arguments Mk {E}.
Arguments init_ {E}.
Arguments value_ {E}.
Arguments prev_ {E}.

Section Operations.
Context {E : Type} `{!Elem E}.

Definition new (annotation : list byte) : t E := Mk false e_uninit e_uninit.
Definition FillResult (d : t E) (res : E) : option (DSReturnType * E) :=
  if negb (init_ d) then Some (DSR_INVALID, res)
  else
    v ← value_ d;
    p ← prev_ d;
    Some (if e_eqb p v then DSR_SKIP else DSR_OK, v).
Definition Update (raw : E) (mono_usec : Z) (d : t E) : t E :=
  let prev := if init_ d then value_ d else prev_ d in
  Mk true (Some raw) prev.

#[global] Instance algo : DSAlgo (t E) E E := {
  ds_new a := Some (new a);
  ds_update raw mono d := Some (Update raw mono d);
  ds_fill := FillResult;
}.
End Operations.
End DSChange.

Module DSNon0.
Record t (E : Type) := Mk { value_ : option E }.
Arguments Mk {E}.
Arguments value_ {E}.

Section Operations.
Context {E : Type} `{!Elem E}.

Definition new (annotation : list byte) : t E := Mk e_uninit.
Definition FillResult (d : t E) (res : E) : option (DSReturnType * E) :=
  v ← value_ d;
  Some (if e_eqb v e_zero then DSR_SKIP else DSR_OK, v).
Definition Update (raw : E) (mono_usec : Z) (d : t E) : t E := Mk (Some raw).

#[global] Instance algo : DSAlgo (t E) E E := {
  ds_new a := Some (new a);
  ds_update raw mono d := Some (Update raw mono d);
  ds_fill := FillResult;
}.
End Operations.
End DSNon0.

Module DSNone.
Record t (E : Type) := Mk { value_ : option E }.
Arguments Mk {E}.
Arguments value_ {E}.

Section Operations.
Context {E : Type} `{!Elem E}.

Definition new (annotation : list byte) : t E := Mk e_uninit.
Definition FillResult (d : t E) (res : E) : option (DSReturnType * E) :=
  v ← value_ d; Some (DSR_OK, v).
Definition Update (raw : E) (mono_usec : Z) (d : t E) : t E := Mk (Some raw).

#[global] Instance algo : DSAlgo (t E) E E := {
  ds_new a := Some (new a);
  ds_update raw mono d := Some (Update raw mono d);
  ds_fill := FillResult;
}.
End Operations.
End DSNone.

(** A field of a generated struct is [None] until it is set. *)
Record NullResult (E : Type) := MkNullResult { null_samples : option Z; null_value : option E }.
Arguments MkNullResult {E}.
Arguments null_samples {E}.
Arguments null_value {E}.

Module DSNull.
Record t (E : Type) := Mk { value_ : option E; samples_ : Z }.
Arguments Mk {E}.
Arguments value_ {E}.
Arguments samples_ {E}.

Section Operations.
Context {E : Type} `{!Elem E}.

Definition new (annotation : list byte) : t E := Mk e_uninit 0.
Definition FillResult (d : t E) (res : NullResult E) : option (DSReturnType * NullResult E) :=
  v ← value_ d; Some (DSR_OK, MkNullResult (Some (samples_ d)) (Some v)).
Definition Update (raw : E) (mono_usec : Z) (d : t E) : t E :=
  Mk (Some raw) (u64 (samples_ d + 1)).

#[global] Instance algo : DSAlgo (t E) E (NullResult E) := {
  ds_new a := Some (new a);
  ds_update raw mono d := Some (Update raw mono d);
  ds_fill := FillResult;
}.
End Operations.
End DSNull.

(** ** DSSum and DSAvg *)

(** [strtoul(s, NULL, 10)] *)
Definition is_space (b : byte) : bool := (byte_to_Z b =? 32) || (9 <=? byte_to_Z b) && (byte_to_Z b <=? 13).
Fixpoint drop_while {A} (f : A -> bool) (l : list A) : list A :=
  match l with
  | [] => []
  | a :: l' => if f a then drop_while f l' else l
  end.
Fixpoint take_while {A} (f : A -> bool) (l : list A) : list A :=
  match l with
  | [] => []
  | a :: l => if f a then a :: take_while f l else []
  end.
Definition strtoul (s : list byte) : Z :=
  let s := drop_while is_space s in
  let '(neg, s) := match s with
                   | x2d :: s => (true, s)
                   | x2b :: s => (false, s)
                   | _ => (false, s)
                   end in
  let v := dec_value (take_while is_digit s) in
  if 2 ^ 64 <=? v then 2 ^ 64 - 1 else if (neg : bool) then u64 (- v) else v.

Module DSSum.
Record t (E R : Type) := Mk {
  samples_ : Z;
  value_ : option R;
  history_buf_ : list (Z * (Z * E));
  range_usecs_ : Z;
  shifter_ : Z;
  start_tbin_ : Z;
  last_tbin_ : Z;
}.
Arguments Mk {E R}.
Arguments samples_ {E R}.
Arguments value_ {E R}.
Arguments history_buf_ {E R}.
Arguments range_usecs_ {E R}.
Arguments shifter_ {E R}.
Arguments start_tbin_ {E R}.
Arguments last_tbin_ {E R}.

(** [(uint64_t)(1 << n)]: the shift of an [int], with [1 << 31] its least value, and
    undefined from 32 on. *)
Definition shl1 (n : Z) : option Z := if n <? 32 then Some (u64 (i32 (Z.shiftl 1 n))) else None.

(** 25 rounds, since the shift is undefined in the 25th. *)
Fixpoint find_shifter (fuel : nat) (range shifter : Z) : option Z :=
  match fuel with
  | O => None
  | S fuel =>
      b ← shl1 (shifter + 8);
      if b <? range then find_shifter fuel range (shifter + 1) else Some shifter
  end.

(** [(t >> shifter) << shifter] *)
Definition tbin_of (shifter t : Z) : Z := Z.shiftl (Z.shiftr t shifter) shifter.

Section Operations.
Context {E R : Type} `{!Elem E} `{!SumOps E R}.

Definition new (annotation : list byte) : option (t E R) :=
  if bool_decide (annotation = []) then Some (Mk 0 None [] 0 0 0 0)
  else
    let range := u64 (strtoul annotation * 1000000) in
    shifter ← find_shifter 25 range 0;
    Some (Mk 0 None [] range shifter 0 0).

(** The end of the time range of a sample of the bin [first]. *)
Definition end_range (d : t E R) (first : Z) : Z := tbin_of (shifter_ d) (u64 (first + range_usecs_ d)).

Definition FillResult (d : t E R) (res : R) : option (DSReturnType * R) :=
  if samples_ d =? 0 then Some (DSR_INVALID, s_empty)
  else if negb (range_usecs_ d =? 0) && (last_tbin_ d <? end_range d (start_tbin_ d))
       then Some (DSR_INVALID, s_empty)
  else (v ← value_ d; Some (DSR_OK, v)).

(** The loop of [Purge]: the entries kept, the value and the number of samples. *)
Fixpoint purge_loop (d : t E R) (mono_usec : Z) (h : list (Z * (Z * E))) (value : R) (samples : Z)
    : list (Z * (Z * E)) * R * Z :=
  match h with
  | [] => ([], value, samples)
  | (first, (n, e)) :: h =>
      if end_range d first <=? mono_usec
      then purge_loop d mono_usec h (s_sub value e) (u64 (samples - n))
      else let '(h, value, samples) := purge_loop d mono_usec h value samples in
           ((first, (n, e)) :: h, value, samples)
  end.
Definition Purge (mono_usec : Z) (d : t E R) : option (t E R) :=
  match history_buf_ d with
  | [] => Some d
  | h =>
      value ← value_ d;
      let '(h, value, samples) := purge_loop d mono_usec h value (samples_ d) in
      Some (Mk samples (Some value) h (range_usecs_ d) (shifter_ d) (start_tbin_ d) (last_tbin_ d))
  end.

(** [history_buf_.find(tbin)] and what follows. *)
Fixpoint record (tbin : Z) (raw : E) (h : list (Z * (Z * E))) : list (Z * (Z * E)) :=
  match h with
  | [] => [(tbin, (1, raw))]
  | (first, (n, e)) :: h' =>
      if tbin <? first then (tbin, (1, raw)) :: h
      else if tbin =? first then (first, (u64 (n + 1), e_add e raw)) :: h'
      else (first, (n, e)) :: record tbin raw h'
  end.

Definition Update (raw : E) (mono_usec : Z) (d : t E R) : option (t E R) :=
  value ← (if samples_ d =? 0 then Some (s_of raw) else (v ← value_ d; Some (s_add v raw)));
  let d := Mk (samples_ d) (Some value) (history_buf_ d) (range_usecs_ d) (shifter_ d)
              (start_tbin_ d) (last_tbin_ d) in
  d ← (if range_usecs_ d =? 0 then Some d
       else
         let tbin := tbin_of (shifter_ d) mono_usec in
         let start := if start_tbin_ d =? 0 then tbin else start_tbin_ d in
         d ← Purge tbin (Mk (samples_ d) (value_ d) (history_buf_ d) (range_usecs_ d) (shifter_ d) start tbin);
         Some (Mk (samples_ d) (value_ d) (record tbin raw (history_buf_ d)) (range_usecs_ d) (shifter_ d)
                  (start_tbin_ d) (last_tbin_ d)));
  Some (Mk (u64 (samples_ d + 1)) (value_ d) (history_buf_ d) (range_usecs_ d) (shifter_ d)
           (start_tbin_ d) (last_tbin_ d)).

#[global] Instance algo : DSAlgo (t E R) E R := {
  ds_new := new;
  ds_update := Update;
  ds_fill := FillResult;
}.
End Operations.
End DSSum.

Module DSAvg.
Record t (E R : Type) := Mk { sum : DSSum.t E R }.
Arguments Mk {E R}.
Arguments sum {E R}.

Section Operations.
Context {E R : Type} `{!Elem E} `{!SumOps E R}.

Definition FillResult (d : t E R) (res : R) : option (DSReturnType * R) :=
  '(ret, sres) ← DSSum.FillResult (sum d) s_empty;
  if bool_decide (ret = DSR_OK)
  then (res ← s_div sres (DSSum.samples_ (sum d)); Some (DSR_OK, res))
  else Some (DSR_INVALID, res).

#[global] Instance algo : DSAlgo (t E R) E R := {
  ds_new a := Mk <$> DSSum.new a;
  ds_update raw mono d := Mk <$> DSSum.Update raw mono (sum d);
  ds_fill := FillResult;
}.
End Operations.
End DSAvg.

(** ** Exponentially weighted means *)

(** The operations on [double] the code uses: [d_square] is [pow(x, 2)], [d_to_u64]
    the conversion to [uint64_t], undefined when the number does not fit; [d_strtod]
    and [d_text] are [strtod] and the output of an [ostream]. *)
Class Doubles (F : Type) := {
  d_const : Z -> Z -> F; (* [m * 2 ^ e] *)
  d_add : F -> F -> F;
  d_sub : F -> F -> F;
  d_mul : F -> F -> F;
  d_div : F -> F -> F;
  d_sqrt : F -> F;
  d_square : F -> F;
  d_ltb : F -> F -> bool;
  d_leb : F -> F -> bool;
  d_eqb : F -> F -> bool;
  d_to_u64 : F -> option Z;
  d_strtod : list byte -> F;
  d_text : F -> list byte;
}.
Notation d_0 := (d_const 0 0).
Notation d_1 := (d_const 1 0).

(** [ElemT] to [double] *)
Class ToDouble (E F : Type) := { to_double : E -> F }.

(** IEEE 754 binary64, rounding to the nearest even; texts are a parameter. *)
Definition prec64 : Z := 53.
Definition emax64 : Z := 1024.
Definition sf_to_u64 (x : spec_float) : option Z :=
  match x with
  | S754_zero _ => Some 0
  | S754_infinity _ | S754_nan => None
  | S754_finite s m e =>
      let v := Z.shiftl (Z.pos m) e in
      if s : bool then (if v =? 0 then Some 0 else None)
      else if v <? 2 ^ 64 then Some v else None
  end.
Definition sf_const (m e : Z) : spec_float := binary_normalize prec64 emax64 m e false.
Definition binary64 (strtod : list byte -> spec_float) (text : spec_float -> list byte) : Doubles spec_float := {|
  d_const := sf_const;
  d_add := SFadd prec64 emax64;
  d_sub := SFsub prec64 emax64;
  d_mul := SFmul prec64 emax64;
  d_div := SFdiv prec64 emax64;
  d_sqrt := SFsqrt prec64 emax64;
  d_square x := SFmul prec64 emax64 x x;
  d_ltb := SFltb;
  d_leb := SFleb;
  d_eqb := SFeqb;
  d_to_u64 := sf_to_u64;
  d_strtod := strtod;
  d_text := text;
|}.
#[export] Instance u64_to_double : ToDouble Z spec_float := { to_double z := sf_const z 0 }.

Record EWMResult (F : Type) := MkEWMResult {
  ewm_samples : option Z;
  ewm_error : option (list byte);
  ewm_mean : option F;
  ewm_stddev : option F;
  ewm_sigma : option F;
}.
Arguments MkEWMResult {F}.
Arguments ewm_samples {F}.
Arguments ewm_error {F}.
Arguments ewm_mean {F}.
Arguments ewm_stddev {F}.
Arguments ewm_sigma {F}.

Module DSEWM.
Record t (F : Type) := Mk {
  alpha_ : F;
  mean_ : F;
  variance_ : F;
  sigma_ : F;
  stddev_ : F;
  samples_ : Z;
  error_ : list byte;
}.
Arguments Mk {F}.
Arguments alpha_ {F}.
Arguments mean_ {F}.
Arguments variance_ {F}.
Arguments sigma_ {F}.
Arguments stddev_ {F}.
Arguments samples_ {F}.
Arguments error_ {F}.

Section Operations.
Context {E F : Type} `{!Doubles F} `{!ToDouble E F}.

Definition new (annotation : list byte) : t F :=
  let alpha := d_strtod annotation in
  if d_eqb alpha d_0 then Mk alpha d_0 d_0 d_0 d_0 0 (bs "Disabled")
  else if d_ltb alpha d_0 || d_ltb d_1 alpha
       then Mk d_0 d_0 d_0 d_0 d_0 0 (bs "Invalid alpha " ++ annotation)
  else Mk alpha d_0 d_0 d_0 d_0 0 [].

Definition FillResult (d : t F) (res : EWMResult F) : DSReturnType * EWMResult F :=
  if negb (bool_decide (error_ d = []))
  then (DSR_OK, MkEWMResult (Some (samples_ d)) (Some (error_ d)) (ewm_mean res) (ewm_stddev res) (ewm_sigma res))
  else (DSR_OK, MkEWMResult (Some (samples_ d)) (ewm_error res) (Some (mean_ d)) (Some (stddev_ d)) (Some (sigma_ d))).

Definition Update (raw : E) (mono_usec : Z) (d : t F) : t F :=
  let samples := u64 (samples_ d + 1) in
  if negb (bool_decide (error_ d = []))
  then Mk (alpha_ d) (mean_ d) (variance_ d) (sigma_ d) (stddev_ d) samples (error_ d)
  else
    let raw := to_double raw in
    let alpha := alpha_ d in
    let variance := d_mul (d_sub d_1 alpha)
                      (d_add (variance_ d) (d_mul alpha (d_square (d_sub raw (mean_ d))))) in
    let mean := d_add (d_mul (d_sub d_1 alpha) (mean_ d)) (d_mul alpha raw) in
    let stddev := d_sqrt variance in
    let sigma := if negb (d_eqb stddev d_0) then d_div (d_sub raw mean) stddev else d_0 in
    Mk alpha mean variance sigma stddev samples (error_ d).

#[global] Instance algo : DSAlgo (t F) E (EWMResult F) := {
  ds_new a := Some (new a);
  ds_update raw mono d := Some (Update raw mono d);
  ds_fill d res := Some (FillResult d res);
}.
End Operations.
End DSEWM.

(** ** Anomaly detection *)
Record AnomalyResult (E F : Type) := MkAnomalyResult {
  an_samples : option Z;
  an_algo : option (list byte);
  an_config : option (list byte);
  an_error : option (list byte);
  an_state : option (gmap string (list byte));
  an_sigma : option F;
  an_metric : option E;
}.
Arguments MkAnomalyResult {E F}.
Arguments an_samples {E F}.
Arguments an_algo {E F}.
Arguments an_config {E F}.
Arguments an_error {E F}.
Arguments an_state {E F}.
Arguments an_sigma {E F}.
Arguments an_metric {E F}.

Module DSAnomalyEWM.
Record t (F : Type) := Mk {
  samples_ : Z;
  alpha_ : F;
  mean_ : F;
  variance_ : F;
  sigma_ : F;
  stddev_ : F;
  psigma_ : F;
}.
Arguments Mk {F}.
Arguments samples_ {F}.
Arguments alpha_ {F}.
Arguments mean_ {F}.
Arguments variance_ {F}.
Arguments sigma_ {F}.
Arguments stddev_ {F}.
Arguments psigma_ {F}.

Section Operations.
Context {E F : Type} `{!Doubles F} `{!ToDouble E F}.

(** With the error string, which is empty before. *)
Definition new (annotation : list byte) : t F * list byte :=
  let alpha := d_strtod annotation in
  if d_leb alpha d_0 || d_ltb d_1 alpha
  then (Mk 0 d_0 d_0 d_0 d_0 d_0 d_0, bs "Invalid alpha " ++ annotation)
  else (Mk 0 alpha d_0 d_0 d_0 d_0 d_0, []).

Definition within_half (x : F) : bool := d_ltb x (d_const 1 (-1)) && d_ltb (d_const (-1) (-1)) x.

Definition FillResult (d : t F) (res : AnomalyResult E F) : option (DSReturnType * AnomalyResult E F) :=
  if d_eqb (alpha_ d) d_0 then None
  else
    let res := MkAnomalyResult (Some (samples_ d)) (an_algo res) (an_config res) (an_error res)
      (Some (<["mean":=d_text (mean_ d)]> {["stddev":=d_text (stddev_ d)]})) (Some (sigma_ d)) (an_metric res) in
    n ← d_to_u64 (d_div d_1 (alpha_ d));
    Some (if samples_ d <? n then DSR_INVALID
          else if samples_ d =? n then DSR_OK
          else if within_half (psigma_ d) && within_half (sigma_ d) then DSR_SKIP
          else DSR_OK, res).

Definition Update (raw : E) (d : t F) : option (t F) :=
  if d_eqb (alpha_ d) d_0 then None
  else
    let raw := to_double raw in
    let alpha := alpha_ d in
    let variance := d_mul (d_sub d_1 alpha)
                      (d_add (variance_ d) (d_mul alpha (d_square (d_sub raw (mean_ d))))) in
    let mean := d_add (d_mul (d_sub d_1 alpha) (mean_ d)) (d_mul alpha raw) in
    let stddev := d_sqrt variance in
    let sigma := if negb (d_eqb stddev d_0) then d_div (d_sub raw mean) stddev else d_0 in
    Some (Mk (u64 (samples_ d + 1)) alpha mean variance sigma stddev (sigma_ d)).
End Operations.
End DSAnomalyEWM.

(** [annotation.find(c)] *)
Fixpoint find_char (c : byte) (l : list byte) : option nat :=
  match l with
  | [] => None
  | b :: l => if bool_decide (b = c) then Some O else S <$> find_char c l
  end.

Module DSAnomaly.
(** [impl_] is null or a [DSAnomalyEWM], the only implementation. *)
Record t (E F : Type) := Mk {
  algo_ : list byte;
  config_ : list byte;
  error_ : list byte;
  previous_ : option E;
  started_ : bool;
  impl_ : option (DSAnomalyEWM.t F);
}.
Arguments Mk {E F}.
Arguments algo_ {E F}.
Arguments config_ {E F}.
Arguments error_ {E F}.
Arguments previous_ {E F}.
Arguments started_ {E F}.
Arguments impl_ {E F}.

Section Operations.
Context {E F : Type} `{!Elem E} `{!Doubles F} `{!ToDouble E F}.

Definition new (annotation : list byte) : t E F :=
  (* without a colon [rpos + 1] is 0 *)
  let '(algo, config) := match find_char x3a annotation with
                         | Some rpos => (take rpos annotation, drop (S rpos) annotation)
                         | None => (annotation, annotation)
                         end in
  if bool_decide (algo = bs "EWM") then
    let '(impl, error) := DSAnomalyEWM.new config in
    Mk algo config error e_uninit false (if bool_decide (error = []) then Some impl else None)
  else Mk algo config [] e_uninit false None.

Definition FillResult (d : t E F) (res : AnomalyResult E F) : option (DSReturnType * AnomalyResult E F) :=
  '(ret, res) ← match impl_ d with
                | Some impl =>
                    r ← DSAnomalyEWM.FillResult impl res;
                    if bool_decide (error_ d = []) then Some r else None
                | None => Some (DSR_OK, res)
                end;
  metric ← (if started_ d then Some <$> previous_ d else Some (an_metric res));
  Some (ret, MkAnomalyResult (an_samples res) (Some (algo_ d)) (Some (config_ d))
    (if bool_decide (error_ d = []) then an_error res else Some (error_ d)) (an_state res) (an_sigma res) metric).

Definition Update (raw : E) (mono_usec : Z) (d : t E F) : option (t E F) :=
  match impl_ d with
  | Some impl =>
      impl ← DSAnomalyEWM.Update raw impl;
      Some (Mk (algo_ d) (config_ d) (error_ d) (Some raw) true (Some impl))
  | None => Some d
  end.

#[global] Instance algo : DSAlgo (t E F) E (AnomalyResult E F) := {
  ds_new a := Some (new a);
  ds_update := Update;
  ds_fill := FillResult;
}.
End Operations.
End DSAnomaly.
