(* ===== verification/DerivedSumSpec.v ===== *)
(** * Sums over a time range: the history of [DSSum]

    The samples that count after a sequence of updates are the [survivors]: those
    whose range no later sample has left behind.  The lemmas relate the bins of
    [history_buf_] to groups of these samples. *)

From Stdlib Require Import Sorted.
From S2P Require Import Prelude DerivedStats.
Local Open Scope Z_scope.

(** A number read off the elements and the sums, modulo [modulus]: the value itself
    for an unsigned type, a field for a struct. *)
Class SumLaws (E R : Type) `{!Elem E} `{!SumOps E R} := {
  ev : E -> Z;
  rv : R -> Z;
  modulus : Z;
  s_of_value e : rv (s_of e) `mod` modulus = ev e `mod` modulus;
  s_add_value r e : rv (s_add r e) `mod` modulus = (rv r + ev e) `mod` modulus;
  s_sub_value r e : rv (s_sub r e) `mod` modulus = (rv r - ev e) `mod` modulus;
  e_add_value a b : ev (e_add a b) `mod` modulus = (ev a + ev b) `mod` modulus;
}.
#[export] Instance u64_sum_laws : SumLaws Z Z.
Proof.
  refine {| ev z := z; rv z := z; modulus := 2 ^ 64 |}; intros; cbn; unfold wrapU;
    by rewrite ?Zmod_mod.
Defined.

(** Rewriting modulo. *)
Lemma mod_add_eq m a a' b b' : a `mod` m = a' `mod` m -> b `mod` m = b' `mod` m ->
  (a + b) `mod` m = (a' + b') `mod` m.
Proof. intros Ha Hb. by rewrite Zplus_mod, Ha, Hb, <- Zplus_mod. Qed.
Lemma mod_sub_eq m a a' b b' : a `mod` m = a' `mod` m -> b `mod` m = b' `mod` m ->
  (a - b) `mod` m = (a' - b') `mod` m.
Proof. intros Ha Hb. by rewrite Zminus_mod, Ha, Hb, <- Zminus_mod. Qed.

Definition zsum (l : list Z) : Z := foldr Z.add 0 l.

Lemma zsum_app l k : zsum (l ++ k) = zsum l + zsum k.
Proof. induction l as [|a l IH]; [done|]. unfold zsum in *. cbn. lia. Qed.
Lemma zsum_perm l k : l ≡ₚ k -> zsum l = zsum k.
Proof. induction 1; unfold zsum in *; cbn in *; lia. Qed.

Module DSSumSpec.
Import DSSum.
Section Proofs.
Context {E R : Type} `{!Elem E} `{!SumOps E R} `{!SumLaws E R}.

(** A sample is an element and its bin. *)
Abbreviation sample := (E * Z)%type.
Definition total (l : list sample) : Z := zsum (map (fun x => ev x.1) l).
Definition alive (d : t E R) (now : Z) (x : sample) : bool := now <? end_range d x.2.

Lemma total_app l k : total (l ++ k) = total l + total k.
Proof. unfold total. by rewrite map_app, zsum_app. Qed.
Lemma total_perm l k : l ≡ₚ k -> total l = total k.
Proof. intros. unfold total. by apply zsum_perm, fmap_Permutation. Qed.

(** Filters by a test. *)
Fixpoint keep {A} (f : A -> bool) (l : list A) : list A :=
  match l with [] => [] | a :: l => if f a then a :: keep f l else keep f l end.

Lemma keep_app {A} (f : A -> bool) l k : keep f (l ++ k) = keep f l ++ keep f k.
Proof. induction l as [|a l IH]; [done|]. cbn. destruct (f a); cbn; by rewrite IH. Qed.
Lemma keep_perm {A} (f : A -> bool) l k : l ≡ₚ k -> keep f l ≡ₚ keep f k.
Proof.
  induction 1; cbn; [done|destruct (f x); auto|destruct (f x), (f y); auto; apply Permutation_swap|].
  by etransitivity.
Qed.
Lemma keep_all {A} (f : A -> bool) l : Forall (fun a => f a = true) l -> keep f l = l.
Proof. induction 1 as [|a l Ha _ IH]; [done|]. cbn. by rewrite Ha, IH. Qed.
Lemma keep_none {A} (f : A -> bool) l : Forall (fun a => f a = false) l -> keep f l = [].
Proof. induction 1 as [|a l Ha _ IH]; [done|]. cbn. by rewrite Ha, IH. Qed.
Lemma keep_Forall {A} (P : A -> Prop) (f : A -> bool) l : Forall P l -> Forall P (keep f l).
Proof. induction 1; cbn; [done|]. destruct (f x); auto. Qed.
Lemma keep_In {A} (f : A -> bool) l x : In x (keep f l) <-> In x l /\ f x = true.
Proof.
  induction l as [|a l IH]; cbn; [tauto|]. destruct (f a) eqn:Ef; cbn; rewrite IH; intuition congruence.
Qed.

(** [h] holds the samples [l]: an entry for each bin, with their number and sum. *)
Inductive grouped : list (Z * (Z * E)) -> list sample -> Prop :=
  | grouped_nil : grouped [] []
  | grouped_cons b n e g h rest l :
      Forall (fun x => x.2 = b) g -> (0 < length g)%nat -> n = zlen g ->
      ev e `mod` modulus = total g `mod` modulus ->
      grouped h rest -> Forall (fun x => b < x.2) rest -> l ≡ₚ g ++ rest ->
      grouped ((b, (n, e)) :: h) l.

Lemma grouped_perm h l k : grouped h l -> l ≡ₚ k -> grouped h k.
Proof.
  intros Hg Hp. destruct Hg as [|b n e g h rest l Hb Hn Hl He Hg Hr Hlp].
  - apply Permutation_nil in Hp as ->. constructor.
  - econstructor; eauto. by rewrite <- Hp.
Qed.

(** [Purge] removes the groups that are out of range. *)
Lemma purge_loop_grouped d now h l v s :
  grouped h l -> 0 <= s < 2 ^ 64 ->
  exists h' v',
    purge_loop d now h v s
      = (h', v', u64 (s - zlen (keep (fun x => negb (alive d now x)) l))) /\
    grouped h' (keep (alive d now) l) /\
    rv v' `mod` modulus = (rv v - total (keep (fun x => negb (alive d now x)) l)) `mod` modulus.
Proof.
  intros Hg. revert v s. induction Hg as [|b n e g h rest l Hb Hn Hl He Hg IH Hr Hp]; intros v s Hs; cbn [purge_loop].
  - exists [], v. cbn. rewrite !Z.sub_0_r, wrapU_small by done. repeat split. constructor.
  - assert (forall f : Z -> bool, keep (fun x : sample => f x.2) g = if f b then g else []) as Hgk.
    { intros f. destruct (f b) eqn:Ef; [apply keep_all|apply keep_none]; (eapply Forall_impl; [|exact Hb]);
        intros x ->; done. }
    pose proof (Hgk (fun z => now <? end_range d z)) as Hk1.
    pose proof (Hgk (fun z => negb (now <? end_range d z))) as Hk2. cbn beta in Hk1, Hk2.
    assert (keep (fun x => negb (alive d now x)) l
      ≡ₚ (if negb (now <? end_range d b) then g else []) ++ keep (fun x => negb (alive d now x)) rest) as P2
      by (rewrite (keep_perm _ _ _ Hp), keep_app; unfold alive at 1; by rewrite Hk2).
    assert (keep (alive d now) l ≡ₚ (if now <? end_range d b then g else []) ++ keep (alive d now) rest) as P1
      by (rewrite (keep_perm _ _ _ Hp), keep_app; unfold alive at 1; by rewrite Hk1).
    rewrite (total_perm _ _ P2), total_app, (Permutation_length P2), length_app.
    destruct (Z.leb_spec (end_range d b) now) as [Hle|Hgt].
    + destruct (Z.ltb_spec now (end_range d b)); [lia|]. cbn [negb] in *.
      destruct (IH (s_sub v e) (u64 (s - n))) as (h'&v'&E1&Hg'&Ev); [by apply wrapU_range|].
      exists h', v'. rewrite E1. split; [|split].
      * f_equal. unfold wrapU. rewrite Zminus_mod_idemp_l. f_equal. lia.
      * by apply (grouped_perm _ _ _ Hg').
      * rewrite Ev. rewrite (mod_sub_eq _ _ _ _ _ (s_sub_value v e) eq_refl).
        rewrite (mod_sub_eq _ _ _ _ _ (mod_sub_eq _ _ (rv v) _ _ eq_refl He) eq_refl). f_equal. lia.
    + destruct (Z.ltb_spec now (end_range d b)); [|lia]. cbn [negb] in *.
      destruct (IH v s Hs) as (h'&v'&E1&Hg'&Ev). rewrite E1. exists ((b, (n, e)) :: h'), v'.
      split; [done|split; [|done]]. econstructor; [exact Hb|done|done|exact He|exact Hg'|by apply keep_Forall|done].
Qed.

Lemma record_grouped tbin raw h l :
  grouped h l -> zlen l < 2 ^ 64 - 1 -> grouped (record tbin raw h) (l ++ [(raw, tbin)]).
Proof.
  intros Hg. induction Hg as [|b n e g h rest l Hb Hn Hl He Hg IH Hr Hp]; intros Hlen; cbn [record].
  - apply (grouped_cons tbin 1 raw [(raw, tbin)] [] []); [by repeat constructor|cbn; lia|done| |constructor|constructor|done].
    unfold total. cbn. by rewrite Z.add_0_r.
  - rewrite (Permutation_length Hp), length_app in Hlen.
    destruct (Z.ltb_spec tbin b) as [Hlt|Hge]; [|destruct (Z.eqb_spec tbin b) as [->|Hne]].
    + apply (grouped_cons tbin 1 raw [(raw, tbin)] _ l); [by repeat constructor|cbn; lia|done| | | |].
      * unfold total. cbn. by rewrite Z.add_0_r.
      * by econstructor.
      * rewrite Hp. apply Forall_app. split; [eapply Forall_impl; [|exact Hb]|eapply Forall_impl; [|exact Hr]]; cbn; intros; lia.
      * by rewrite Permutation_app_comm.
    + apply (grouped_cons b _ _ (g ++ [(raw, b)]) h rest).
      * apply Forall_app. split; [done|by repeat constructor].
      * rewrite length_app. cbn. lia.
      * rewrite length_app. cbn. rewrite wrapU_small by lia. lia.
      * rewrite e_add_value, total_app. apply mod_add_eq; [done|]. unfold total. cbn. by rewrite Z.add_0_r.
      * done.
      * done.
      * rewrite Hp, <- !app_assoc. apply Permutation_app_head, Permutation_app_comm.
    + apply (grouped_cons b n e g _ (rest ++ [(raw, tbin)])); [done..| | |].
      * apply IH. lia.
      * apply Forall_app. split; [done|]. repeat constructor. cbn. lia.
      * by rewrite Hp, app_assoc.
Qed.

(** ** The samples that count *)

(** Every later bin is before the end of the sample's range. *)
Fixpoint survivors (d : t E R) (l : list sample) : list sample :=
  match l with
  | [] => []
  | x :: l => if forallb (fun y => alive d y.2 x) l then x :: survivors d l else survivors d l
  end.

Lemma survivors_snoc d l x :
  survivors d (l ++ [x]) = keep (alive d x.2) (survivors d l) ++ [x].
Proof.
  induction l as [|y l IH]; [done|]. cbn [app survivors]. rewrite forallb_app, IH. cbn [forallb].
  rewrite andb_true_r. destruct (forallb _ l); cbn [andb keep app]; [|done]. by destruct (alive d x.2 y).
Qed.

Lemma survivors_length d l : (length (survivors d l) <= length l)%nat.
Proof. induction l as [|x l IH]; [done|]. cbn. destruct (forallb _ _); cbn; lia. Qed.

Lemma keep_partition {A} (f : A -> bool) l : l ≡ₚ keep f l ++ keep (fun x => negb (f x)) l.
Proof.
  induction l as [|a l IH]; [done|]. cbn. destruct (f a); cbn.
  - by rewrite <- IH.
  - rewrite <- Permutation_middle. by rewrite <- IH.
Qed.

(** The first bin that is not 0. *)
Fixpoint first_bin (l : list Z) : Z :=
  match l with [] => 0 | b :: l => if b =? 0 then first_bin l else b end.
Lemma first_bin_snoc l b : first_bin (l ++ [b]) = if first_bin l =? 0 then b else first_bin l.
Proof.
  induction l as [|a l IH]; cbn; [by destruct (Z.eqb_spec b 0)|].
  destruct (Z.eqb_spec a 0); [done|]. by destruct (Z.eqb_spec a 0).
Qed.

(** What the object holds after the samples [l]. *)
Definition holds (d : t E R) (l : list sample) : Prop :=
  last_tbin_ d = List.last (map snd l) 0 /\ start_tbin_ d = first_bin (map snd l) /\
  samples_ d = zlen (survivors d l) /\ grouped (history_buf_ d) (survivors d l) /\
  (l <> [] -> exists v, value_ d = Some v /\ rv v `mod` modulus = total (survivors d l) `mod` modulus).

Lemma survivors_config d d' l :
  range_usecs_ d' = range_usecs_ d -> shifter_ d' = shifter_ d -> survivors d' l = survivors d l.
Proof.
  intros E1 E2. assert (forall now x, alive d' now x = alive d now x) as Ha
    by (intros; unfold alive, end_range; by rewrite E1, E2).
  induction l as [|x l IH]; [done|]. cbn. rewrite IH.
  assert (forallb (fun y => alive d' y.2 x) l = forallb (fun y => alive d y.2 x) l) as ->; [|done].
  clear IH. induction l as [|y l IH]; [done|]. cbn. by rewrite Ha, IH.
Qed.

Lemma survivors_nil d l : survivors d l = [] -> l = [].
Proof.
  destruct l as [|x l] using rev_ind; [done|]. rewrite survivors_snoc. intros H. by apply app_nil in H as [_ H].
Qed.

Lemma Purge_spec d now l v :
  grouped (history_buf_ d) l -> samples_ d = zlen l -> zlen l < 2 ^ 64 -> value_ d = Some v ->
  exists v' h', Purge now d = Some (Mk (zlen (keep (alive d now) l)) (Some v') h'
      (range_usecs_ d) (shifter_ d) (start_tbin_ d) (last_tbin_ d)) /\
    grouped h' (keep (alive d now) l) /\
    rv v' `mod` modulus = (rv v - total (keep (fun x => negb (alive d now x)) l)) `mod` modulus.
Proof.
  intros Hg Hs Hl Hv. unfold Purge. destruct (history_buf_ d) as [|x h] eqn:Eh.
  - inversion Hg; subst. destruct d; cbn in *; subst. eexists _, _. split; [done|]. split; [done|].
    by rewrite Z.sub_0_r.
  - rewrite Hv. cbn [mbind option_bind]. rewrite <- Eh in *.
    destruct (purge_loop_grouped d now (history_buf_ d) l v (samples_ d) Hg ltac:(lia)) as (h'&v'&->&Hg'&Ev).
    exists v', h'. split; [|done]. f_equal. f_equal. rewrite Hs.
    pose proof (Permutation_length (keep_partition (alive d now) l)) as Hp. rewrite length_app in Hp.
    rewrite wrapU_small; lia.
Qed.

Lemma update_holds d l raw mono :
  range_usecs_ d <> 0 -> holds d l -> zlen l < 2 ^ 64 - 1 ->
  exists d', Update raw mono d = Some d' /\
    range_usecs_ d' = range_usecs_ d /\ shifter_ d' = shifter_ d /\
    holds d' (l ++ [(raw, tbin_of (shifter_ d) mono)]).
Proof.
  intros Hr (Hlast&Hstart&Hs&Hg&Hv) Hlen. pose proof (survivors_length d l) as Hsl.
  set (tbin := tbin_of (shifter_ d) mono). set (x := (raw, tbin)).
  assert (exists v, (if samples_ d =? 0 then Some (s_of raw) else (v ← value_ d; Some (s_add v raw))) = Some v /\
    rv v `mod` modulus = (total (survivors d l) + ev raw) `mod` modulus) as (v&Ev&Hvv).
  { destruct (Z.eqb_spec (samples_ d) 0) as [E0|E0].
    - rewrite E0 in Hs. destruct (survivors d l) as [|] eqn:El; [|cbn in Hs; lia].
      eexists. split; [done|]. apply s_of_value.
    - destruct Hv as (v&->&Hv); [intros ->; by cbn in Hs|]. eexists. split; [done|].
      rewrite s_add_value. by apply mod_add_eq. }
  unfold Update. rewrite Ev. cbn [mbind option_bind range_usecs_ shifter_ start_tbin_ samples_ value_ history_buf_].
  destruct (Z.eqb_spec (range_usecs_ d) 0) as [|_]; [done|]. fold tbin.
  set (start := if start_tbin_ d =? 0 then tbin else start_tbin_ d).
  set (d1 := Mk (samples_ d) (Some v) (history_buf_ d) (range_usecs_ d) (shifter_ d) start tbin).
  destruct (Purge_spec d1 tbin (survivors d l) v Hg Hs ltac:(lia) eq_refl) as (v'&h'&->&Hg'&Hv').
  cbn [mbind option_bind range_usecs_ shifter_ start_tbin_ samples_ value_ history_buf_ last_tbin_ d1].
  change (alive d1) with (alive d) in *.
  assert (survivors d (l ++ [x]) = keep (alive d tbin) (survivors d l) ++ [x]) as Esv by apply survivors_snoc.
  pose proof (keep_partition (alive d tbin) (survivors d l)) as Hp.
  pose proof (Permutation_length Hp) as Hpl. rewrite length_app in Hpl.
  eexists. split; [done|]. do 2 (split; [done|]).
  match goal with |- holds ?d' _ =>
    pose proof (survivors_config d d' (l ++ [x]) eq_refl eq_refl) as Ec end.
  unfold holds. rewrite Ec, Esv, map_app. cbn.
  split; [by rewrite last_last|]. split; [rewrite first_bin_snoc; unfold start; by rewrite Hstart|].
  split; [rewrite length_app; cbn; rewrite wrapU_small; lia|].
  split; [apply record_grouped; [done|lia]|]. intros _. exists v'. split; [done|].
  rewrite Hv', (mod_sub_eq _ _ _ _ _ Hvv eq_refl), (total_perm _ _ Hp), !total_app.
  f_equal. change (total [x]) with (ev raw + 0). lia.
Qed.
End Proofs.
End DSSumSpec.
