(* ===== verification/DerivedStatsIf.v ===== *)
(** * The interface of derived statistics to generated code

    library/cpp/derived_stats.h: merging of new values into the objects of a map,
    differences against an aggregate, and the classes [DerivedStatsIf],
    [DerivedStatsPeriodicIf] and [DerivedStatsPeriodicAnomalyIf], for any algorithm
    with a [DSAlgo].  A [shared_ptr] that may be null is an option; its object has no
    other owner. *)

From S2P Require Import Prelude DerivedStats.
Local Open Scope Z_scope.

(** [(force && rt) || (!force && rt == DSR_OK)] *)
Definition reportable (force : bool) (rt : DSReturnType) : bool :=
  if force then bool_decide (rt <> DSR_INVALID) else bool_decide (rt = DSR_OK).

(** ** DerivedStatsAgg: the differences and the aggregate; [del.at] throws *)
Section Agg.
Context {E : Type} `{!Elem E}.

Definition agg_round (del : gmap string bool) (kr : string * E) (s : gmap string E * gmap string E)
    : option (gmap string E * gmap string E) :=
  let '(k, r) := kr in
  let '(diff, agg) := s in
  match agg !! k with
  | Some a =>
      let d := e_sub r a in
      dl ← del !! k;
      Some (<[k:=d]> diff, if (dl : bool) then delete k agg else <[k:=e_add a d]> agg)
  | None =>
      dl ← del !! k;
      Some (<[k:=r]> diff, if (dl : bool) then agg else <[k:=r]> agg)
  end.
Definition DerivedStatsAgg (raw agg : gmap string E) (del : gmap string bool)
    : option (gmap string E * gmap string E) :=
  foldM (agg_round del) (map_to_list raw) (∅, agg).
End Agg.

(** ** DerivedStatsMerge *)
Section Merge.
Context {D E R : Type} `{!DSAlgo D E R}.

(** A round of the loop over the existing objects; [srcmap] says which of the new
    values has been seen. *)
Definition merge_existing (raw : gmap string E) (del : gmap string bool) (mono_usec : Z)
    (kd : string * D) (s : gmap string D * gmap string bool) : option (gmap string D * gmap string bool) :=
  let '(k, d) := kd in
  let '(dsm, srcmap) := s in
  match raw !! k with
  | None => Some (dsm, srcmap)
  | Some r =>
      dl ← del !! k; (* [assert(dlt != del.end())] *)
      if (dl : bool) then Some (delete k dsm, <[k:=true]> srcmap)
      else (d ← ds_update D E R r mono_usec d; Some (<[k:=d]> dsm, <[k:=true]> srcmap))
  end.

(** A round of the loop over [srcmap]. *)
Definition merge_new (raw : gmap string E) (annotation : list byte) (del : gmap string bool) (mono_usec : Z)
    (ks : string * bool) (dsm : gmap string D) : option (gmap string D) :=
  let '(k, seen) := ks in
  if seen : bool then Some dsm
  else
    dl ← del !! k;
    if (dl : bool) then Some dsm
    else if bool_decide (dsm !! k = None) then
      d ← ds_new D E R annotation;
      r ← raw !! k;
      d ← ds_update D E R r mono_usec d;
      Some (<[k:=d]> dsm)
    else None.

Definition DerivedStatsMerge (raw : gmap string E) (dsm : gmap string D) (annotation : list byte)
    (del : gmap string bool) (mono_usec : Z) : option (gmap string D) :=
  if bool_decide (raw = ∅) then Some ∅
  else
    let srcmap := (fun _ => false) <$> raw in
    '(dsm, srcmap) ← foldM (merge_existing raw del mono_usec) (map_to_list dsm) (dsm, srcmap);
    foldM (merge_new raw annotation del mono_usec) (map_to_list srcmap) dsm.
End Merge.

(** ** DerivedStatsIf *)
Module DerivedStatsIf.
Record t (D E : Type) := Mk {
  dsm_ : option (gmap string D);
  ds_ : option D;
  annotation_ : list byte;
  is_agg_ : bool;
  agg_ : option E;
  aggm_ : gmap string E;
  diff_ : option E;
  diffm_ : gmap string E;
}.
Arguments Mk {D E}.
Arguments dsm_ {D E}.
Arguments ds_ {D E}.
Arguments annotation_ {D E}.
Arguments is_agg_ {D E}.
Arguments agg_ {D E}.
Arguments aggm_ {D E}.
Arguments diff_ {D E}.
Arguments diffm_ {D E}.

Section Operations.
Context {D E R : Type} `{!Elem E} `{!DSAlgo D E R} `{!Result R}.

Definition new (annotation : list byte) (is_agg : bool) : t D E :=
  Mk None None annotation is_agg e_uninit ∅ e_uninit ∅.

Definition IsResult (s : t D E) : bool :=
  match ds_ s, dsm_ s with None, None => false | _, _ => true end.

(** The result and [isset]. *)
Definition FillResult (s : t D E) (res : R) (force : bool) : option (R * bool) :=
  match ds_ s with
  | Some ds =>
      '(rt, res) ← ds_fill D E R ds res;
      Some (res, reportable force rt)
  | None => Some (res, false)
  end.

(** A round of the loop over the objects. *)
Definition fill_round (force : bool) (kd : string * D) (mres : gmap string R) : option (gmap string R) :=
  '(rt, res) ← ds_fill D E R kd.2 r_new;
  Some (if reportable force rt then <[kd.1:=res]> mres else mres).
Definition FillResult_map (s : t D E) (force : bool) : option (gmap string R * bool) :=
  mres ← match dsm_ s with
         | Some dsm => foldM (fill_round force) (map_to_list dsm) ∅
         | None => Some ∅
         end;
  Some (mres, negb (bool_decide (mres = ∅))).

Definition Update (raw : E) (mono_usec : Z) (s : t D E) : option (t D E) :=
  '(ds, diff, agg) ←
    match ds_ s with
    | None =>
        ds ← ds_new D E R (annotation_ s);
        Some (ds, if is_agg_ s then Some raw else diff_ s, if is_agg_ s then Some raw else agg_ s)
    | Some ds =>
        if is_agg_ s then
          a ← agg_ s;
          let d := e_sub raw a in
          Some (ds, Some d, Some (e_add a d))
        else Some (ds, diff_ s, agg_ s)
    end;
  v ← (if is_agg_ s then diff else Some raw);
  ds ← ds_update D E R v mono_usec ds;
  Some (Mk (dsm_ s) (Some ds) (annotation_ s) (is_agg_ s) agg (aggm_ s) diff (diffm_ s)).

Definition Update_map (raw : gmap string E) (del : gmap string bool) (mono_usec : Z) (s : t D E)
    : option (t D E) :=
  let dsm := default ∅ (dsm_ s) in
  '(new, aggm, diffm) ← (if is_agg_ s then
                           '(diffm, aggm) ← DerivedStatsAgg raw (aggm_ s) del;
                           Some (diffm, aggm, diffm)
                         else Some (raw, aggm_ s, diffm_ s));
  dsm ← DerivedStatsMerge (D := D) (E := E) (R := R) new dsm (annotation_ s) del mono_usec;
  Some (Mk (Some dsm) (ds_ s) (annotation_ s) (is_agg_ s) (agg_ s) aggm (diff_ s) diffm).
End Operations.
End DerivedStatsIf.

(** ** DerivedStatsPeriodicIf *)

(** [value], [staging] and their flags of [__isset]. *)
Record DSPeriodic (R : Type) := MkPeriodic {
  value : R;
  staging : R;
  isset_value : bool;
  isset_staging : bool;
}.
Arguments MkPeriodic {R}.
Arguments value {R}.
Arguments staging {R}.
Arguments isset_value {R}.
Arguments isset_staging {R}.
#[export] Instance periodic_result {R} `{!Result R} : Result (DSPeriodic R) :=
  { r_new := MkPeriodic r_new r_new false false }.

Module DerivedStatsPeriodicIf.
Record t (D E R : Type) := Mk {
  dsm_ : option (gmap string D);
  dsm_cache_ : option (gmap string (DSPeriodic R));
  ds_ : option D;
  ds_cache_ : option (DSPeriodic R);
  annotation_ : list byte;
  is_agg_ : bool;
  init_ : bool;
  agg_ : option E;
  aggm_ : gmap string E;
  diff_ : option E;
  diffm_ : gmap string E;
}.
Arguments Mk {D E R}.
Arguments dsm_ {D E R}.
Arguments dsm_cache_ {D E R}.
Arguments ds_ {D E R}.
Arguments ds_cache_ {D E R}.
Arguments annotation_ {D E R}.
Arguments is_agg_ {D E R}.
Arguments init_ {D E R}.
Arguments agg_ {D E R}.
Arguments aggm_ {D E R}.
Arguments diff_ {D E R}.
Arguments diffm_ {D E R}.

Section Operations.
Context {D E R : Type} `{!Elem E} `{!DSAlgo D E R} `{!Result R}.

Definition new (annotation : list byte) (is_agg : bool) : t D E R :=
  Mk None None None None annotation is_agg false e_uninit ∅ e_uninit ∅.

Definition IsResult (s : t D E R) : bool :=
  match ds_ s, ds_cache_ s, dsm_ s, dsm_cache_ s with None, None, None, None => false | _, _, _, _ => true end.

Definition Update (raw : E) (mono_usec : Z) (s : t D E R) : option (t D E R) :=
  ds ← match ds_ s with None => ds_new D E R (annotation_ s) | Some ds => Some ds end;
  '(v, diff, agg) ← (if is_agg_ s then
                       if negb (init_ s) then Some (raw, Some raw, Some raw)
                       else (a ← agg_ s; let d := e_sub raw a in Some (d, Some d, Some (e_add a d)))
                     else Some (raw, diff_ s, agg_ s));
  ds ← ds_update D E R v mono_usec ds;
  Some (Mk (dsm_ s) (dsm_cache_ s) (Some ds) (ds_cache_ s) (annotation_ s) (is_agg_ s) true
           agg (aggm_ s) diff (diffm_ s)).

Definition Update_map (raw : gmap string E) (del : gmap string bool) (mono_usec : Z) (s : t D E R)
    : option (t D E R) :=
  let dsm := default ∅ (dsm_ s) in
  '(new, aggm, diffm) ← (if is_agg_ s then
                           '(diffm, aggm) ← DerivedStatsAgg raw (aggm_ s) del;
                           Some (diffm, aggm, diffm)
                         else Some (raw, aggm_ s, diffm_ s));
  dsm ← DerivedStatsMerge (D := D) (E := E) (R := R) new dsm (annotation_ s) del mono_usec;
  Some (Mk (Some dsm) (dsm_cache_ s) (ds_ s) (ds_cache_ s) (annotation_ s) (is_agg_ s) true
           (agg_ s) aggm (diff_ s) diffm).

Definition Flush (s : t D E R) : option (bool * t D E R) :=
  match ds_ s with
  | None =>
      Some (false, Mk (dsm_ s) (dsm_cache_ s) None None (annotation_ s) (is_agg_ s) (init_ s)
                      (agg_ s) (aggm_ s) (diff_ s) (diffm_ s))
  | Some ds =>
      let c := r_new in
      '(rt, v) ← ds_fill D E R ds (value c);
      let cache := if bool_decide (rt <> DSR_INVALID)
                   then Some (MkPeriodic v (staging c) true (isset_staging c)) else None in
      Some (bool_decide (is_Some cache),
            Mk (dsm_ s) (dsm_cache_ s) None cache (annotation_ s) (is_agg_ s) (init_ s)
               (agg_ s) (aggm_ s) (diff_ s) (diffm_ s))
  end.

Definition FillResult (s : t D E R) (res : DSPeriodic R) (force : bool) : option (DSPeriodic R * bool) :=
  let '(res, isset) := match ds_cache_ s with
                       | Some c => (MkPeriodic (value c) (staging res) true (isset_staging res), true)
                       | None => (res, false)
                       end in
  match ds_ s with
  | Some ds =>
      '(rt, v) ← ds_fill D E R ds (staging res);
      Some (if reportable force rt then (MkPeriodic (value res) v (isset_value res) true, true)
            else (MkPeriodic (value res) v (isset_value res) (isset_staging res), isset))
  | None => Some (res, isset)
  end.

Definition flush_round (kd : string * D) (cache : gmap string (DSPeriodic R)) : option (gmap string (DSPeriodic R)) :=
  let res := r_new in
  '(rt, v) ← ds_fill D E R kd.2 (value res);
  Some (if bool_decide (rt <> DSR_INVALID)
        then <[kd.1:=MkPeriodic v (staging res) true (isset_staging res)]> cache else cache).
Definition Flush_map (s : t D E R) : option (bool * t D E R) :=
  match dsm_ s with
  | None =>
      Some (false, Mk None None (ds_ s) (ds_cache_ s) (annotation_ s) (is_agg_ s) (init_ s)
                      (agg_ s) (aggm_ s) (diff_ s) (diffm_ s))
  | Some dsm =>
      cache ← foldM flush_round (map_to_list dsm) ∅;
      let cache := if bool_decide (cache = ∅) then None else Some cache in
      Some (bool_decide (is_Some cache),
            Mk None cache (ds_ s) (ds_cache_ s) (annotation_ s) (is_agg_ s) (init_ s)
               (agg_ s) (aggm_ s) (diff_ s) (diffm_ s))
  end.

(** The values of the last period ... *)
Definition cached (c : DSPeriodic R) : DSPeriodic R :=
  MkPeriodic (value c) (staging r_new) true (isset_staging r_new).
(** ... and a round of the loop over the objects of this one. *)
Definition staging_round (force : bool) (kd : string * D) (mres : gmap string (DSPeriodic R))
    : option (gmap string (DSPeriodic R)) :=
  match mres !! kd.1 with
  | Some w =>
      '(rt, v) ← ds_fill D E R kd.2 (staging w);
      Some (<[kd.1:=MkPeriodic (value w) v (isset_value w) (isset_staging w || reportable force rt)]> mres)
  | None =>
      let res := r_new in
      '(rt, v) ← ds_fill D E R kd.2 (staging res);
      Some (if reportable force rt then <[kd.1:=MkPeriodic (value res) v (isset_value res) true]> mres else mres)
  end.
Definition FillResult_map (s : t D E R) (force : bool) : option (gmap string (DSPeriodic R) * bool) :=
  let mres := cached <$> default ∅ (dsm_cache_ s) in
  mres ← match dsm_ s with
         | Some dsm => foldM (staging_round force) (map_to_list dsm) mres
         | None => Some mres
         end;
  Some (mres, negb (bool_decide (mres = ∅))).
End Operations.
End DerivedStatsPeriodicIf.

(** ** DerivedStatsPeriodicAnomalyIf

    [P] is [PreT<ElemT, ElemT>], the statistics of a period; [D] is [DSTT<ElemT, ResultT>]. *)
Module DerivedStatsPeriodicAnomalyIf.
Record t (P D E : Type) := Mk {
  periodic_ : DerivedStatsPeriodicIf.t P E E;
  anomaly_ : DerivedStatsIf.t D E;
  init_ : bool;
}.
Arguments Mk {P D E}.
Arguments periodic_ {P D E}.
Arguments anomaly_ {P D E}.
Arguments init_ {P D E}.

Section Operations.
Context {P D E R : Type} `{!Elem E} `{!Result E} `{!DSAlgo P E E} `{!DSAlgo D E R} `{!Result R}.

Definition new (annotation : list byte) (is_agg : bool) : t P D E :=
  Mk (DerivedStatsPeriodicIf.new [] is_agg) (DerivedStatsIf.new annotation false) false.

Definition IsResult (s : t P D E) : bool := DerivedStatsPeriodicIf.IsResult (periodic_ s).

Definition Update (raw : E) (mono_usec : Z) (s : t P D E) : option (t P D E) :=
  p ← DerivedStatsPeriodicIf.Update raw mono_usec (periodic_ s);
  Some (Mk p (anomaly_ s) true).
Definition Update_map (raw : gmap string E) (del : gmap string bool) (mono_usec : Z) (s : t P D E)
    : option (t P D E) :=
  p ← DerivedStatsPeriodicIf.Update_map raw del mono_usec (periodic_ s);
  Some (Mk p (anomaly_ s) true).

(** The time is [zelem] converted, which is 0. *)
Definition Flush (s : t P D E) : option (bool * t P D E) :=
  if negb (init_ s) then Some (false, s)
  else
    let sres := r_new in
    '(ok, p) ← DerivedStatsPeriodicIf.Flush (periodic_ s);
    sres ← (if (ok : bool) then fst <$> DerivedStatsPeriodicIf.FillResult p sres false else Some sres);
    a ← DerivedStatsIf.Update (R := R) (value sres) 0 (anomaly_ s);
    Some (true, Mk p a (init_ s)).

(** [insert] leaves an element that is there alone. *)
Definition absent_zero (kd : string * D) (s : gmap string E * gmap string bool) : gmap string E * gmap string bool :=
  match s.1 !! kd.1 with
  | Some _ => s
  | None => (<[kd.1:=e_zero]> s.1, match s.2 !! kd.1 with Some _ => s.2 | None => <[kd.1:=false]> s.2 end)
  end.
Definition Flush_map (s : t P D E) : option (bool * t P D E) :=
  if negb (init_ s) then Some (false, s)
  else
    '(ok, p) ← DerivedStatsPeriodicIf.Flush_map (periodic_ s);
    smres ← (if (ok : bool) then fst <$> DerivedStatsPeriodicIf.FillResult_map p false else Some ∅);
    let val := value <$> smres in
    let dmap := (fun _ => false) <$> smres in
    let '(val, dmap) := match DerivedStatsIf.dsm_ (anomaly_ s) with
                        | Some dsm => foldr absent_zero (val, dmap) (map_to_list dsm)
                        | None => (val, dmap)
                        end in
    a ← DerivedStatsIf.Update_map (R := R) val dmap 0 (anomaly_ s);
    Some (true, Mk p a (init_ s)).

Definition FillResult (s : t P D E) (res : R) (force : bool) : option (R * bool) :=
  DerivedStatsIf.FillResult (anomaly_ s) res force.
Definition FillResult_map (s : t P D E) (force : bool) : option (gmap string R * bool) :=
  DerivedStatsIf.FillResult_map (anomaly_ s) force.
End Operations.
End DerivedStatsPeriodicAnomalyIf.
