(* ===== verification/DerivedMapSpec.v ===== *)
(** * Derived statistics of a map, key by key

    Each loop of derived_stats.h over a map is described by what it does at one key;
    [key_step] is an update of the map interface seen from a key. *)

From S2P Require Import Prelude DerivedStats DerivedStatsIf.
Local Open Scope Z_scope.

(** A loop over a map, with an invariant on the entries visited. *)
Lemma foldM_map {A S} (P : gmap string A -> S -> Prop) (f : string * A -> S -> option S) (m : gmap string A) s :
  P ∅ s ->
  (forall k a m' s', m !! k = Some a -> m' !! k = None -> P m' s' ->
     exists s'', f (k, a) s' = Some s'' /\ P (<[k:=a]> m') s'') ->
  exists s', foldM f (map_to_list m) s = Some s' /\ P m s'.
Proof.
  intros H0 Hstep.
  enough (forall l, NoDup l.*1 -> (forall k a, (k, a) ∈ l -> m !! k = Some a) ->
    exists s', foldM f l s = Some s' /\ P (list_to_map l) s') as Hl.
  { destruct (Hl (map_to_list m)) as (s'&E&Hp); [apply NoDup_fst_map_to_list|by intros k a ?%elem_of_map_to_list|].
    exists s'. by rewrite list_to_map_to_list in Hp. }
  intros l. induction l as [|[k a] l IH] using rev_ind; intros Hn Hin; [by exists s|].
  rewrite fmap_app in Hn. apply list.NoDup_app in Hn as (Hn&Hk&_).
  destruct IH as (s1&E1&H1); [done|intros k' a' Hk'; apply Hin; by apply elem_of_app; left|].
  assert ((list_to_map l : gmap string A) !! k = None) as Hnone.
  { apply not_elem_of_list_to_map_1. intros Hkl. apply (Hk k Hkl). by left. }
  destruct (Hstep k a (list_to_map l) s1) as (s2&E2&H2);
    [apply Hin, elem_of_app; right; by left|done|done|].
  exists s2. rewrite foldM_app, E1. cbn. rewrite E2. split; [done|].
  enough (list_to_map (l ++ [(k, a)]) = <[k:=a]> (list_to_map l : gmap string A)) as -> by done.
  apply map_eq. intros k'. rewrite list_to_map_app, lookup_union. cbn. rewrite insert_empty.
  destruct (decide (k = k')) as [<-|Hne].
  - by rewrite lookup_insert_eq, Hnone, lookup_singleton_eq.
  - rewrite lookup_insert_ne, lookup_singleton_ne by done. by destruct (_ !! k').
Qed.

(** What an algorithm promises: an object that was constructed can be updated, as
    often as one likes. *)
Class DSAlgoLaws (D E R : Type) `{!DSAlgo D E R} := {
  ds_ok : D -> Prop;
  ds_new_ok a d : ds_new D E R a = Some d -> ds_ok d;
  ds_update_ok r mono d : ds_ok d -> exists d', ds_update D E R r mono d = Some d' /\ ds_ok d';
}.

#[export] Instance change_laws {E} `{!Elem E} : DSAlgoLaws (DSChange.t E) E E.
Proof. by refine {| ds_ok _ := True |}; [|intros; eexists]. Defined.
#[export] Instance non0_laws {E} `{!Elem E} : DSAlgoLaws (DSNon0.t E) E E.
Proof. by refine {| ds_ok _ := True |}; [|intros; eexists]. Defined.
#[export] Instance none_laws {E} `{!Elem E} : DSAlgoLaws (DSNone.t E) E E.
Proof. by refine {| ds_ok _ := True |}; [|intros; eexists]. Defined.
#[export] Instance null_laws {E} `{!Elem E} : DSAlgoLaws (DSNull.t E) E (NullResult E).
Proof. by refine {| ds_ok _ := True |}; [|intros; eexists]. Defined.
#[export] Instance ewm_laws {E F} `{!Doubles F} `{!ToDouble E F} : DSAlgoLaws (DSEWM.t F) E (EWMResult F).
Proof. by refine {| ds_ok _ := True |}; [|intros; eexists]. Defined.

(** A sum has a value once it has a sample. *)
Definition sum_ok {E R} (d : DSSum.t E R) : Prop :=
  DSSum.value_ d = None -> DSSum.samples_ d = 0 /\ DSSum.history_buf_ d = [].

Lemma sum_update_ok {E R} `{!Elem E} `{!SumOps E R} (raw : E) mono (d : DSSum.t E R) :
  sum_ok d -> exists d', DSSum.Update raw mono d = Some d' /\ sum_ok d'.
Proof.
  intros Hok. unfold DSSum.Update.
  assert (exists v, (if DSSum.samples_ d =? 0 then Some (s_of raw)
                     else (v ← DSSum.value_ d; Some (s_add v raw))) = Some v) as [v ->].
  { destruct (Z.eqb_spec (DSSum.samples_ d) 0); [by eexists|].
    unfold sum_ok in Hok. destruct (DSSum.value_ d); [by eexists|]. by destruct Hok. }
  cbn [mbind option_bind DSSum.range_usecs_]. destruct (_ =? 0); [eexists; split; [reflexivity|by intros [=]]|].
  unfold DSSum.Purge. cbn [DSSum.history_buf_ DSSum.value_ mbind option_bind]. destruct (DSSum.history_buf_ d) as [|x h]; [eexists; split; [reflexivity|by intros [=]]|].
  destruct (DSSum.purge_loop _ _ _ _ _) as [[h' v'] n']. eexists; split; [reflexivity|by intros [=]].
Qed.

Lemma sum_new_ok {E R} `{!Elem E} `{!SumOps E R} a (d : DSSum.t E R) : DSSum.new a = Some d -> sum_ok d.
Proof.
  unfold DSSum.new. case_bool_decide; [by intros [= <-]|]. destruct (DSSum.find_shifter _ _ _); [|done].
  by intros [= <-].
Qed.

#[export] Instance sum_laws {E R} `{!Elem E} `{!SumOps E R} : DSAlgoLaws (DSSum.t E R) E R :=
  { ds_ok := sum_ok; ds_new_ok := sum_new_ok; ds_update_ok := sum_update_ok }.
#[export] Instance avg_laws {E R} `{!Elem E} `{!SumOps E R} : DSAlgoLaws (DSAvg.t E R) E R.
Proof.
  refine {| ds_ok d := sum_ok (DSAvg.sum d) |}.
  - intros a d. cbn. destruct (DSSum.new a) eqn:E1; [|done]. intros [= <-]. by apply (sum_new_ok a).
  - intros r mono d Hd. destruct (sum_update_ok r mono _ Hd) as (d'&E1&Hd'). exists (DSAvg.Mk d'). cbn. by rewrite E1.
Defined.

Section Keys.
Context {D E R : Type} `{!Elem E} `{!DSAlgo D E R} `{!DSAlgoLaws D E R}.

(** *** The differences *)
Definition agg_diff (a : option E) (r : E) : E := match a with Some a => e_sub r a | None => r end.
Definition agg_next (a : option E) (r : E) : E := match a with Some a => e_add a (e_sub r a) | None => r end.

Lemma DerivedStatsAgg_key (raw agg : gmap string E) (del : gmap string bool) :
  (forall k, is_Some (raw !! k) -> is_Some (del !! k)) ->
  exists diff agg', DerivedStatsAgg raw agg del = Some (diff, agg') /\
    forall k, diff !! k = agg_diff (agg !! k) <$> raw !! k /\
      agg' !! k = match raw !! k with
                  | None => agg !! k
                  | Some r => if default false (del !! k) then None else Some (agg_next (agg !! k) r)
                  end.
Proof.
  intros Hdel.
  destruct (foldM_map (fun m s => forall k, s.1 !! k = agg_diff (agg !! k) <$> m !! k /\
      s.2 !! k = match m !! k with
                 | None => agg !! k
                 | Some r => if default false (del !! k) then None else Some (agg_next (agg !! k) r)
                 end) (agg_round del) raw (∅, agg)) as ([diff agg']&E1&H1).
  - intros k. by rewrite !lookup_empty.
  - intros k r m' [diff agg'] Hr Hm' Hp. cbn [fst snd] in *.
    destruct (Hdel k) as [dl Hdl]; [by eexists|]. unfold agg_round.
    destruct (Hp k) as [_ Hk]. rewrite Hm' in Hk. rewrite Hk, Hdl.
    assert (forall k', k <> k' -> (<[k:=r]> m') !! k' = m' !! k') as Hne by (intros; by rewrite lookup_insert_ne).
    destruct (agg !! k) as [a|] eqn:Ea; cbn [mbind option_bind]; (eexists; split; [done|]); cbn [fst snd]; intros k';
      (destruct (decide (k = k')) as [<-|Hk'];
        [rewrite !lookup_insert_eq, Ea, Hdl; cbn; destruct dl;
          by rewrite ?lookup_delete_eq, ?lookup_insert_eq, ?Hk
        |rewrite Hne, lookup_insert_ne by done; destruct (Hp k') as [-> <-]; split; [done|];
          destruct dl; by rewrite ?lookup_delete_ne, ?lookup_insert_ne by done]).
  - exists diff, agg'. by split.
Qed.

(** *** The objects *)
Definition merged (annotation : list byte) (mono_usec : Z) (o : option D) (r : E) : option D :=
  d ← match o with Some d => Some d | None => ds_new D E R annotation end;
  ds_update D E R r mono_usec d.

Section Merge.
Context (raw : gmap string E) (dsm : gmap string D) (annotation : list byte) (del : gmap string bool) (mono_usec : Z).
Hypothesis del_ok : forall k, is_Some (raw !! k) -> is_Some (del !! k).
Hypothesis dsm_ok : forall k d, dsm !! k = Some d -> ds_ok d.

(** After the loop over the existing objects. *)
Definition existing_done (m : gmap string D) (s : gmap string D * gmap string bool) : Prop :=
  forall k,
    s.1 !! k = match raw !! k, m !! k with
               | Some r, Some d => if default false (del !! k) then None else ds_update D E R r mono_usec d
               | _, _ => dsm !! k
               end /\
    s.2 !! k = match raw !! k with Some r => Some (bool_decide (is_Some (m !! k))) | None => None end.

Lemma merge_existing_key :
  exists s, foldM (merge_existing raw del mono_usec) (map_to_list dsm) (dsm, (fun _ => false) <$> raw) = Some s /\
    existing_done dsm s.
Proof using del_ok dsm_ok.
  apply (foldM_map existing_done).
  - intros k. cbn. rewrite lookup_fmap, !lookup_empty. by destruct (raw !! k).
  - intros k d m' [dsm1 src] Hd Hm' Hp. unfold existing_done in *. cbn [fst snd] in *. unfold merge_existing.
    assert (forall k', k <> k' -> (<[k:=d]> m') !! k' = m' !! k') as Hne by (intros; by rewrite lookup_insert_ne).
    destruct (raw !! k) as [r|] eqn:Er.
    + destruct (del_ok k) as [dl Hdl]; [by eexists|]. destruct (ds_update_ok r mono_usec d (dsm_ok k d Hd)) as (d'&Hd'&_). rewrite Hdl.
      cbn [mbind option_bind]. rewrite Hd'. destruct dl; (eexists; split; [done|]); cbn [fst snd]; intros k';
        (destruct (decide (k = k')) as [<-|Hk'];
          [rewrite Er, !lookup_insert_eq, ?lookup_delete_eq, Hdl; cbn; by rewrite ?Hd'
          |rewrite Hne, ?lookup_insert_ne, ?lookup_delete_ne by done; apply Hp]).
    + eexists. split; [done|]. cbn [fst snd]. intros k'. destruct (decide (k = k')) as [<-|Hk'].
      * destruct (Hp k) as [-> ->]. by rewrite Er.
      * rewrite Hne by done. apply Hp.
Qed.

(** During the loop over the new values. *)
Definition new_done (dsm1 : gmap string D) (m : gmap string bool) (s : gmap string D) : Prop :=
  forall k, s !! k = match raw !! k, m !! k with
                     | Some r, Some false =>
                         if default false (del !! k) then None else merged annotation mono_usec (dsm !! k) r
                     | _, _ => dsm1 !! k
                     end.

Lemma merge_new_key dsm1 src :
  is_Some (ds_new D E R annotation) -> existing_done dsm (dsm1, src) ->
  exists s, foldM (merge_new raw annotation del mono_usec) (map_to_list src) dsm1 = Some s /\ new_done dsm1 src s.
Proof using del_ok dsm_ok.
  intros [d0 Hnew] H1. apply (foldM_map (new_done dsm1)).
  - intros k. rewrite lookup_empty. by destruct (raw !! k).
  - intros k seen m' s Hs Hm' Hp. unfold merge_new. destruct (H1 k) as [Hk1 Hk2]. cbn [fst snd] in *. rewrite Hs in Hk2.
    destruct (raw !! k) as [r|] eqn:Er; [|done]. injection Hk2 as ->.
    assert (forall s' : gmap string D, (forall k', k <> k' -> s' !! k' = s !! k') ->
      s' !! k = (if bool_decide (is_Some (dsm !! k)) then dsm1 !! k
                 else if default false (del !! k) then None else merged annotation mono_usec (dsm !! k) r) ->
      new_done dsm1 (<[k:=bool_decide (is_Some (dsm !! k))]> m') s') as Hput.
    { intros s' Hne Heq k'. destruct (decide (k = k')) as [<-|Hk'].
      - rewrite Er, lookup_insert_eq, Heq. by case_bool_decide.
      - rewrite lookup_insert_ne, Hne by done. apply Hp. }
    specialize (Hp k). rewrite Hm', Er in Hp. destruct (dsm !! k) as [d|] eqn:Ed.
    + exists s. split; [done|]. by apply Hput.
    + change (bool_decide (is_Some (@None D))) with false in *. cbn iota in Hput |- *.
      destruct (del_ok k) as [dl Hdl]; [by eexists|]. rewrite Hdl in Hput |- *. cbn [mbind option_bind default] in *.
      destruct (ds_update_ok r mono_usec d0 (ds_new_ok annotation d0 Hnew)) as (d'&Hd'&_).
      assert (merged annotation mono_usec None r = Some d') as Hm by (unfold merged; by rewrite Hnew).
      rewrite Hm in Hput. rewrite Hnew. cbn [mbind option_bind]. rewrite Hd'. destruct dl; cbn [id] in Hput.
      * exists s. split; [done|]. apply Hput; [done|]. by rewrite Hp, Hk1.
      * rewrite bool_decide_eq_true_2 by (by rewrite Hp, Hk1). cbn [mbind option_bind].
        eexists. split; [done|]. apply Hput; [intros; by rewrite lookup_insert_ne|by rewrite lookup_insert_eq].
Qed.

Lemma DerivedStatsMerge_key :
  is_Some (ds_new D E R annotation) ->
  exists dsm', DerivedStatsMerge (R := R) raw dsm annotation del mono_usec = Some dsm' /\
    forall k, dsm' !! k =
      if bool_decide (raw = ∅) then None
      else match raw !! k with
           | None => dsm !! k
           | Some r => if default false (del !! k) then None else merged annotation mono_usec (dsm !! k) r
           end.
Proof using del_ok dsm_ok.
  intros Hnew. unfold DerivedStatsMerge. case_bool_decide; [by eexists|].
  destruct merge_existing_key as ([dsm1 src]&E1&H1). rewrite E1. cbn [mbind option_bind].
  destruct (merge_new_key dsm1 src Hnew H1) as (dsm2&E2&H2). exists dsm2. split; [done|].
  intros k. rewrite H2. destruct (H1 k) as [Hk1 Hk2]. cbn [fst snd] in *. rewrite Hk1, Hk2.
  destruct (raw !! k) as [r|]; [|done]. unfold merged. by destruct (dsm !! k) as [d|].
Qed.
End Merge.

Lemma merged_ok annotation mono_usec o r d :
  (forall d, o = Some d -> ds_ok d) -> merged annotation mono_usec o r = Some d -> ds_ok d.
Proof.
  intros Ho Hm. unfold merged in Hm.
  destruct (match o with Some d => Some d | None => ds_new D E R annotation end) as [d0|] eqn:E0; [|done].
  assert (ds_ok d0) as H0 by (destruct o; [by apply Ho|by apply (ds_new_ok annotation)]).
  destruct (ds_update_ok r mono_usec d0 H0) as (d'&E1&H1). cbn in Hm. congruence.
Qed.

(** ** An update seen from one key: the object and the aggregate *)
Definition key_step (annotation : list byte) (agg : bool) (k : string)
    (s : option D * option E) (u : gmap string E * gmap string bool * Z) : option D * option E :=
  let '(raw, del, mono_usec) := u in
  let '(o, a) := s in
  match raw !! k with
  | None => (if bool_decide (raw = ∅) then None else o, a)
  | Some r =>
      if default false (del !! k) then (None, if agg then None else a)
      else (merged annotation mono_usec o (if agg then agg_diff a r else r), if agg then Some (agg_next a r) else a)
  end.

Context `{!Result R}.
Definition at_key (s : DerivedStatsIf.t D E) (k : string) : option D * option E :=
  (default ∅ (DerivedStatsIf.dsm_ s) !! k, DerivedStatsIf.aggm_ s !! k).

Lemma Update_map_key s raw del mono_usec :
  (forall k, is_Some (raw !! k) -> is_Some (del !! k)) ->
  is_Some (ds_new D E R (DerivedStatsIf.annotation_ s)) ->
  (forall k d, default ∅ (DerivedStatsIf.dsm_ s) !! k = Some d -> ds_ok d) ->
  exists s', DerivedStatsIf.Update_map (R := R) raw del mono_usec s = Some s' /\
    DerivedStatsIf.annotation_ s' = DerivedStatsIf.annotation_ s /\
    DerivedStatsIf.is_agg_ s' = DerivedStatsIf.is_agg_ s /\
    forall k, at_key s' k
      = key_step (DerivedStatsIf.annotation_ s) (DerivedStatsIf.is_agg_ s) k (at_key s k) (raw, del, mono_usec).
Proof.
  intros Hdel Hnew Hupd. unfold DerivedStatsIf.Update_map. set (dsm := default ∅ (DerivedStatsIf.dsm_ s)).
  destruct (DerivedStatsIf.is_agg_ s) eqn:Eagg.
  - destruct (DerivedStatsAgg_key raw (DerivedStatsIf.aggm_ s) del Hdel) as (diff&agg&->&Hk). cbn [mbind option_bind].
    assert (diff = ∅ <-> raw = ∅) as He.
    { rewrite !map_empty. split; intros H k; destruct (Hk k) as [Hd _]; rewrite H in Hd;
        [by destruct (raw !! k)|done]. }
    destruct (DerivedStatsMerge_key diff dsm (DerivedStatsIf.annotation_ s) del mono_usec) as (dsm'&->&Hd); [|done..|].
    { intros k Hs. apply Hdel. destruct (Hk k) as [E1 _]. rewrite E1 in Hs. by destruct (raw !! k); [|destruct Hs]. }
    cbn [mbind option_bind]. eexists. split; [done|]. do 2 (split; [done|]).
    intros k. unfold at_key, key_step. cbn. rewrite Hd, (bool_decide_ext _ _ He). destruct (Hk k) as [-> ->].
    destruct (raw !! k) as [r|] eqn:Er; cbn; [|by case_bool_decide].
    rewrite bool_decide_eq_false_2 by (intros ->; done). by destruct (default false _).
  - cbn [mbind option_bind].
    destruct (DerivedStatsMerge_key raw dsm (DerivedStatsIf.annotation_ s) del mono_usec) as (dsm'&->&Hd); [done..|].
    cbn [mbind option_bind]. eexists. split; [done|]. do 2 (split; [done|]).
    intros k. unfold at_key, key_step. cbn. rewrite Hd. destruct (raw !! k) as [r|] eqn:Er; [|by case_bool_decide].
    rewrite bool_decide_eq_false_2 by (intros ->; done). by destruct (default false _).
Qed.
End Keys.
