(* ===== verification/DerivedClaims.v ===== *)
(** * Derived statistics: claims *)

From Stdlib Require Import Sorted.
From stdpp Require Import sorting.
From S2P Require Import Prelude DerivedStats DerivedSumSpec DerivedStatsIf DerivedMapSpec.
Local Open Scope Z_scope.

(** ** Sums over a time range *)
Module DerivedSums.
Import DSSum DSSumSpec.

Section Window.
Context {E R : Type} `{!Elem E} `{!SumOps E R} `{!SumLaws E R}.

(** [Update] for each element and its time. *)
Definition feed (l : list (E * Z)) (d : t E R) : option (t E R) :=
  foldM (fun x d => Update x.1 x.2 d) l d.

Definition binned (d : t E R) (l : list (E * Z)) : list (E * Z) :=
  map (fun x => (x.1, tbin_of (shifter_ d) x.2)) l.

(** The samples that count: all without a range. *)
Definition counted (d : t E R) (l : list (E * Z)) : list (E * Z) :=
  if range_usecs_ d =? 0 then binned d l else survivors d (binned d l).

Lemma new_fresh annotation (d : t E R) :
  new annotation = Some d -> d = Mk 0 None [] (range_usecs_ d) (shifter_ d) 0 0.
Proof.
  unfold new. case_bool_decide; [by intros [= <-]|]. destruct (find_shifter _ _ _); [|done].
  by intros [= <-].
Qed.

(** With a range, the object holds the survivors. *)
Lemma feed_ranged annotation (d : t E R) l :
  new annotation = Some d -> range_usecs_ d <> 0 -> zlen l < 2 ^ 64 ->
  exists d', feed l d = Some d' /\ range_usecs_ d' = range_usecs_ d /\ shifter_ d' = shifter_ d /\
    holds d' (binned d l).
Proof.
  intros Hn Hr. induction l as [|x l IH] using rev_ind; intros Hlen.
  - exists d. rewrite (new_fresh _ _ Hn). do 3 (split; [done|]).
    split; [done|]. split; [done|]. split; [done|]. split; [constructor|done].
  - rewrite length_app in Hlen. cbn in Hlen. destruct IH as (d1&E1&R1&S1&H1); [lia|].
    destruct (update_holds d1 (binned d l) x.1 x.2) as (d2&E2&R2&S2&H2);
      [congruence|done|unfold binned; rewrite length_map; lia|].
    exists d2. unfold feed in *. rewrite foldM_app, E1. cbn. rewrite E2. cbn.
    split; [done|]. split; [congruence|]. split; [congruence|].
    unfold binned in *. rewrite map_app. cbn. by rewrite S1 in H2.
Qed.

(** Without one, all samples. *)
Lemma feed_unranged annotation (d : t E R) l :
  new annotation = Some d -> range_usecs_ d = 0 -> zlen l < 2 ^ 64 ->
  exists d', feed l d = Some d' /\ range_usecs_ d' = 0 /\ samples_ d' = zlen l /\
    (l <> [] -> exists v, value_ d' = Some v /\ rv v `mod` modulus = total l `mod` modulus).
Proof.
  intros Hn Hr. induction l as [|x l IH] using rev_ind; intros Hlen.
  - exists d. rewrite (new_fresh _ _ Hn). by rewrite Hr.
  - rewrite length_app in Hlen. cbn in Hlen. destruct IH as (d1&E1&R1&S1&H1); [lia|].
    unfold feed in *. rewrite foldM_app, E1. cbn. unfold Update.
    assert (exists v, (if samples_ d1 =? 0 then Some (s_of x.1) else (v ← value_ d1; Some (s_add v x.1))) = Some v /\
      rv v `mod` modulus = (total l + ev x.1) `mod` modulus) as (v&->&Hv).
    { rewrite S1. destruct (Z.eqb_spec (zlen l) 0).
      - destruct l; [|cbn in *; lia]. eexists. split; [done|]. apply s_of_value.
      - destruct H1 as (v&->&Hv); [by intros ->|]. eexists. split; [done|]. rewrite s_add_value. by apply mod_add_eq. }
    cbn. rewrite R1. cbn. eexists. split; [done|]. split; [done|].
    split; [cbn; rewrite S1, length_app; cbn; rewrite wrapU_small; lia|].
    intros _. exists v. split; [done|]. rewrite Hv, total_app. f_equal. unfold total at 3. cbn. lia.
Qed.

Lemma total_binned d l : total (binned d l) = total l.
Proof. unfold total, binned. by rewrite map_map. Qed.

(** C35: a sum covers exactly the samples of its time range.  After any sequence of
    updates, at any times, the number of samples is the number of those that no
    later bin has left behind, and the sum is theirs, in the arithmetic of the
    type; without a range it is the sum of all.  It is reported as soon as the first
    bin is a range old, an average being the sum over that number. *)
Theorem derived_sum_window (annotation : list byte) (d : t E R) (l : list (E * Z)) (res : R) :
  new annotation = Some d -> zlen l < 2 ^ 64 ->
  let bins := map snd (binned d l) in
  exists d', feed l d = Some d' /\ samples_ d' = zlen (counted d l) /\
    if bool_decide (l = []) ||
       negb (range_usecs_ d =? 0) && (List.last bins 0 <? end_range d (first_bin bins))
    then FillResult d' res = Some (DSR_INVALID, s_empty)
    else exists v, FillResult d' res = Some (DSR_OK, v) /\
      rv v `mod` modulus = total (counted d l) `mod` modulus /\
      DSAvg.FillResult (DSAvg.Mk d') res = (r ← s_div v (zlen (counted d l)); Some (DSR_OK, r)).
Proof.
  intros Hn Hlen. cbn zeta. unfold counted.
  destruct (Z.eqb_spec (range_usecs_ d) 0) as [Hr|Hr]; cbn [negb andb orb].
  - destruct (feed_unranged annotation d l Hn Hr Hlen) as (d'&E1&R1&S1&H1). exists d'. split; [done|].
    unfold binned at 1. rewrite length_map. split; [done|]. rewrite orb_false_r, total_binned.
    unfold DSAvg.FillResult, FillResult. cbn [DSAvg.sum]. rewrite R1, S1. cbn [Z.eqb negb andb].
    case_bool_decide as El; [by subst l|]. destruct (Z.eqb_spec (zlen l) 0); [destruct l; cbn in *; [done|lia]|].
    destruct (H1 El) as (v&->&Hv). exists v. split; [done|]. split; [done|].
    cbn. unfold binned. by rewrite length_map.
  - destruct (feed_ranged annotation d l Hn Hr Hlen) as (d'&E1&R1&S1&(Hlast&Hst&Hs&_&Hv)). exists d'. split; [done|].
    rewrite (survivors_config d d' _ R1 S1) in *. split; [done|].
    assert (forall b, end_range d' b = end_range d b) as He by (intros; unfold end_range; by rewrite R1, S1).
    unfold DSAvg.FillResult, FillResult. cbn [DSAvg.sum]. rewrite R1, Hs, He, Hlast, Hst.
    case_bool_decide as El; [by subst l|]. cbn [orb].
    assert (binned d l <> []) as Hb by (by destruct l).
    assert (zlen (survivors d (binned d l)) <> 0) as Hne.
    { intros H0. apply Hb, (survivors_nil d). destruct (survivors _ _); [done|cbn in H0; lia]. }
    destruct (Z.eqb_spec (range_usecs_ d) 0); [done|]. destruct (Z.eqb_spec (zlen (survivors d (binned d l))) 0); [done|].
    cbn [negb andb]. destruct (_ <? _); [done|]. destruct (Hv Hb) as (v&->&Hvv). exists v.
    split; [done|]. by split.
Qed.
End Window.

Lemma derived_sum_window_witness :
  exists d' : t Z Z, feed [(5, 2000000); (7, 2500000); (1, 4100000); (2, 5200000)]
      (Mk 0 None [] 2000000 13 0 0) = Some d' /\
    samples_ d' = 2 /\ FillResult d' 0 = Some (DSR_OK, 3) /\ DSAvg.FillResult (DSAvg.Mk d') 0 = Some (DSR_OK, 1).
Proof.
  destruct (derived_sum_window (bs "2") (Mk 0 None [] 2000000 13 0 0 : t Z Z)
    [(5, 2000000); (7, 2500000); (1, 4100000); (2, 5200000)] 0) as (d'&E1&E2&H); [reflexivity|reflexivity|].
  exists d'. split; [exact E1|]. split; [exact E2|].
  vm_compute in E1. injection E1 as <-. split; vm_compute; reflexivity.
Defined.

(** ** The bins *)

Lemma tbin_of_div s t : 0 <= s -> tbin_of s t = 2 ^ s * (t / 2 ^ s).
Proof. intros. unfold tbin_of. rewrite Z.shiftl_mul_pow2, Z.shiftr_div_pow2 by done. lia. Qed.

Lemma tbin_of_bounds s t : 0 <= s -> tbin_of s t <= t < tbin_of s t + 2 ^ s.
Proof.
  intros. rewrite tbin_of_div by done. assert (0 < 2 ^ s) by (apply Z.pow_pos_nonneg; lia).
  pose proof (Z.mod_pos_bound t (2 ^ s)). pose proof (Z.div_mod t (2 ^ s)). lia.
Qed.

Lemma tbin_of_mono s t u : 0 <= s -> t <= u -> tbin_of s t <= tbin_of s u.
Proof.
  intros. rewrite !tbin_of_div by done. assert (0 < 2 ^ s) by (apply Z.pow_pos_nonneg; lia).
  apply Z.mul_le_mono_nonneg_l; [lia|]. apply Z.div_le_mono; lia.
Qed.

Lemma shl1_small n : 0 <= n <= 30 -> shl1 n = Some (2 ^ n).
Proof.
  intros. unfold shl1. destruct (Z.ltb_spec n 32); [|lia]. rewrite Z.shiftl_1_l.
  assert (0 < 2 ^ n <= 2 ^ 30) by (split; [apply Z.pow_pos_nonneg|apply Z.pow_le_mono_r]; lia).
  rewrite (wrapS_small 32), (wrapU_small 64) by lia. done.
Qed.

(** A bin is between 1/256 and 1/128 of the range. *)
Lemma find_shifter_spec range : 2 ^ 7 < range <= 2 ^ 30 -> forall fuel s,
  0 <= s <= 22 -> (Z.to_nat (23 - s) <= fuel)%nat -> 2 ^ (s + 7) < range ->
  exists s', find_shifter fuel range s = Some s' /\ 0 <= s' <= 22 /\ 2 ^ (s' + 7) < range <= 2 ^ (s' + 8).
Proof.
  intros Hr. induction fuel as [|fuel IH]; intros s Hs Hf Hlt; [lia|]. cbn [find_shifter].
  rewrite shl1_small by lia. cbn [mbind option_bind]. destruct (Z.ltb_spec (2 ^ (s + 8)) range) as [Hl|Hl].
  - destruct (Z.eq_dec s 22) as [->|]; [change (2 ^ (22 + 8)) with (2 ^ 30) in Hl; lia|].
    apply IH; [lia|lia|]. by replace (s + 1 + 7) with (s + 8) by lia.
  - exists s. done.
Qed.

Lemma length_interval (l : list Z) a k : 0 <= k -> NoDup l -> Forall (fun x => a < x <= a + k) l -> zlen l <= k.
Proof.
  intros Hk Hn Hl. assert (length l <= length (seqZ (a + 1) k))%nat as H; [|rewrite length_seqZ in H; lia].
  apply NoDup_incl_length; [by apply NoDup_ListNoDup|]. intros x Hx. apply list_elem_of_In, elem_of_seqZ.
  rewrite Forall_forall in Hl. specialize (Hl x Hx). lia.
Qed.

Section Accuracy.
Context {E R : Type} `{!Elem E} `{!SumOps E R} `{!SumLaws E R}.

(** The keys of the history are the bins of its samples. *)
Lemma grouped_keys (h : list (Z * (Z * E))) l :
  grouped h l -> NoDup (map fst h) /\ Forall (fun b => exists x, In x l /\ x.2 = b) (map fst h).
Proof.
  induction 1 as [|b n e g h rest l Hb Hn Hl He Hg [IH1 IH2] Hr Hp]; [by split; constructor|].
  cbn [map fst]. split.
  - constructor; [|done]. intros Hin. apply list_elem_of_In in Hin. rewrite Forall_forall in IH2.
    destruct (IH2 b Hin) as (x&Hx&<-). rewrite Forall_forall in Hr. specialize (Hr x Hx). lia.
  - constructor.
    + destruct g as [|x g]; [cbn in Hn; lia|]. exists x. apply Forall_cons_iff in Hb as [Hb _]. split; [|done].
      apply (Permutation_in x (Permutation_sym Hp)). by left.
    + eapply Forall_impl; [|exact IH2]. intros c (x&Hx&Ex). exists x. split; [|done].
      apply (Permutation_in x (Permutation_sym Hp)), in_or_app. by right.
Qed.

Lemma survivors_In (d : t E R) l x : In x (survivors d l) ->
  In x l /\ (alive d (List.last (map snd l) 0) x = true \/ List.last (map snd l) 0 = x.2).
Proof.
  destruct l as [|y l _] using rev_ind; [done|]. rewrite survivors_snoc, map_app. cbn [map]. rewrite last_last.
  intros [Hin|[->|[]]]%in_app_or.
  - apply keep_In in Hin as [Hin Ha]. split; [|by left]. apply in_or_app. left.
    clear Ha. induction l as [|z l IH]; [done|]. cbn in *. destruct (forallb _ _); [|by right; apply IH].
    destruct Hin as [->|Hin]; [by left|right; by apply IH].
  - split; [apply in_or_app; right; by left|by right].
Qed.

Lemma In_survivors (d : t E R) l x : In x l ->
  (forall y, In y l -> alive d y.2 x = true) -> In x (survivors d l).
Proof.
  induction l as [|y l IH]; [done|]. intros Hx Ha. cbn. destruct Hx as [->|Hx].
  - assert (forallb (fun y => alive d y.2 x) l = true) as ->; [|by left].
    apply forallb_forall. intros y Hy. apply Ha. by right.
  - assert (In x (survivors d l)) by (apply IH; [done|]; intros z Hz; apply Ha; by right).
    by destruct (forallb _ _); [right|].
Qed.

Lemma end_range_bounds (d : t E R) b :
  0 <= shifter_ d -> 0 <= b -> 0 <= range_usecs_ d -> b + range_usecs_ d < 2 ^ 64 ->
  end_range d b <= b + range_usecs_ d < end_range d b + 2 ^ shifter_ d.
Proof. intros. unfold end_range. rewrite wrapU_small by lia. by apply tbin_of_bounds. Qed.

(** The object for a range that an [int] can hold. *)
Lemma new_ranged annotation : 1 <= strtoul annotation <= 1073 ->
  exists d : t E R, new annotation = Some d /\ range_usecs_ d = strtoul annotation * 1000000 /\
    0 <= shifter_ d <= 22 /\
    2 ^ (shifter_ d + 7) < strtoul annotation * 1000000 <= 2 ^ (shifter_ d + 8).
Proof.
  intros Hs. unfold new. rewrite bool_decide_eq_false_2 by (intros ->; change (strtoul []) with 0 in Hs; lia).
  rewrite (wrapU_small 64) by lia.
  destruct (find_shifter_spec (strtoul annotation * 1000000) ltac:(lia) 25 0) as (s&->&Hr&Hw); [lia|lia|lia|].
  by eexists.
Qed.

Section Monotone.
Context (d : t E R) (l : list (E * Z)).
Hypothesis shifter_ok : 0 <= shifter_ d <= 22.
Hypothesis range_ok : 0 < range_usecs_ d <= 2 ^ 30.
Hypothesis times_ok : Forall (fun x => 0 <= x.2 < 2 ^ 63) l.
Hypothesis times_sorted : StronglySorted Z.le (map snd l).
Abbreviation w := (2 ^ shifter_ d).
Abbreviation now := (List.last (map snd l) 0).

Lemma last_binned : List.last (map snd (binned d l)) 0 = tbin_of (shifter_ d) now.
Proof.
  unfold binned. rewrite map_map. cbn. destruct l as [|x k] using rev_ind.
  - cbn. unfold tbin_of. by rewrite Z.shiftr_0_l, Z.shiftl_0_l.
  - rewrite !map_app. cbn. by rewrite !last_last.
Qed.

Lemma time_le_now x : In x l -> x.2 <= now.
Proof.
  revert times_sorted. destruct l as [|y k _] using rev_ind; [done|].
  rewrite map_app. cbn [map]. rewrite last_last. intros Hs [Hin|[->|[]]]%in_app_or; [|lia].
  apply (StronglySorted_app_1_elem_of _ _ _ _ _ Hs); apply list_elem_of_In; [by apply in_map|by left].
Qed.

Lemma time_range x : In x l -> 0 <= x.2 < 2 ^ 63.
Proof. intros Hx. rewrite Forall_forall in times_ok. by apply times_ok. Qed.

(** The bins of [l] are multiples of [w] up to that of [now]. *)
Lemma bin_range x : In x (binned d l) -> 0 <= x.2 <= tbin_of (shifter_ d) now /\ x.2 < 2 ^ 63 /\ x.2 = w * (x.2 / w).
Proof.
  intros (y&<-&Hy)%in_map_iff. cbn [snd]. pose proof (time_le_now y Hy). pose proof (time_range y Hy).
  assert (0 < w) by (apply Z.pow_pos_nonneg; lia).
  pose proof (tbin_of_mono (shifter_ d) _ _ ltac:(lia) (proj1 H0)) as H2.
  pose proof (tbin_of_mono (shifter_ d) _ _ ltac:(lia) H).
  pose proof (tbin_of_bounds (shifter_ d) y.2 ltac:(lia)).
  rewrite (tbin_of_div _ 0), Z.div_0_l, Z.mul_0_r in H2 by lia. split; [lia|]. split; [lia|].
  rewrite tbin_of_div, (Z.mul_comm w (y.2 / w)), Z.div_mul by lia. lia.
Qed.

Lemma survivor_young x : In x l ->
  In (x.1, tbin_of (shifter_ d) x.2) (survivors d (binned d l)) -> now - x.2 < range_usecs_ d + w.
Proof.
  intros Hx Hs. assert (0 < w) by (apply Z.pow_pos_nonneg; lia). apply survivors_In in Hs as [Hin Ha].
  rewrite last_binned in Ha. apply bin_range in Hin as (?&?&_). cbn [snd] in *.
  pose proof (tbin_of_bounds (shifter_ d) x.2 ltac:(lia)). pose proof (tbin_of_bounds (shifter_ d) now ltac:(lia)).
  destruct Ha as [Ha|Ha]; [|lia]. unfold alive in Ha. apply Z.ltb_lt in Ha. cbn [snd] in Ha.
  pose proof (end_range_bounds d (tbin_of (shifter_ d) x.2)). lia.
Qed.

Lemma young_survives x : In x l -> now - x.2 <= range_usecs_ d - 2 * w ->
  In (x.1, tbin_of (shifter_ d) x.2) (survivors d (binned d l)).
Proof.
  intros Hx Hy. assert (0 < w) by (apply Z.pow_pos_nonneg; lia).
  assert (In (x.1, tbin_of (shifter_ d) x.2) (binned d l)) as Hin by (unfold binned; apply in_map_iff; by exists x).
  apply In_survivors; [done|]. intros y Hyl. unfold alive. apply Z.ltb_lt. cbn [snd].
  pose proof (bin_range _ Hin) as (?&?&_). pose proof (bin_range _ Hyl) as (?&_&_). cbn [snd] in *.
  pose proof (end_range_bounds d (tbin_of (shifter_ d) x.2)).
  pose proof (tbin_of_bounds (shifter_ d) x.2 ltac:(lia)). pose proof (tbin_of_bounds (shifter_ d) now ltac:(lia)). lia.
Qed.

Lemma history_small h : grouped h (survivors d (binned d l)) -> range_usecs_ d <= 256 * w -> zlen h <= 256.
Proof.
  intros Hg Hr. assert (0 < w) by (apply Z.pow_pos_nonneg; lia).
  destruct (grouped_keys _ _ Hg) as [Hn Hk]. set (top := tbin_of (shifter_ d) now / w).
  set (keys := map (fun b => b / w) (map fst h)).
  assert (zlen h = zlen keys) as -> by (unfold keys; by rewrite !length_map).
  assert (forall b, In b (map fst h) -> b = w * (b / w) /\ top - 256 < b / w <= top) as Hb.
  { intros b Hin. rewrite Forall_forall in Hk. destruct (Hk b Hin) as (x&Hx&<-).
    apply survivors_In in Hx as [Hin' Ha]. rewrite last_binned in Ha. apply bin_range in Hin' as (Hx1&Hx2&Hx3).
    split; [done|]. assert (x.2 / w <= top) by (apply Z.div_le_mono; lia). split; [|done].
    destruct Ha as [Ha|Ha]; [|unfold top; rewrite Ha; lia]. unfold alive in Ha. apply Z.ltb_lt in Ha.
    pose proof (end_range_bounds d x.2 ltac:(lia) ltac:(lia) ltac:(lia) ltac:(lia)).
    enough (top < x.2 / w + 256) by lia. apply Z.div_lt_upper_bound; lia. }
  apply (length_interval keys (top - 256) 256); [lia| |].
  - apply (NoDup_fmap_2_strong (fun b => b / w)); [|done].
    intros a b Ha1%list_elem_of_In Hb1%list_elem_of_In Heq. destruct (Hb a Ha1) as [-> _]. destruct (Hb b Hb1) as [-> _]. by rewrite Heq.
  - unfold keys. apply Forall_map, Forall_forall. intros b Hin. destruct (Hb b Hin). lia.
Qed.
End Monotone.

(** A range is kept with the precision the code announces.  For a range of 1 to
    1073 seconds a bin is between 1/256 and 1/128 of the range.  While the clock does
    not run backwards there are never more than 256 bins, no sample older than the
    range and a bin counts, and every sample younger than the range less two bins
    does. *)
Theorem derived_sum_accuracy (annotation : list byte) (l : list (E * Z)) :
  1 <= strtoul annotation <= 1073 -> zlen l < 2 ^ 64 ->
  Forall (fun x => 0 <= x.2 < 2 ^ 63) l -> StronglySorted Z.le (map snd l) ->
  exists d d' : t E R, new annotation = Some d /\ feed l d = Some d' /\
    let range := strtoul annotation * 1000000 in
    let w := 2 ^ shifter_ d in
    let now := List.last (map snd l) 0 in
    range_usecs_ d = range /\ 128 * w < range <= 256 * w /\
    zlen (history_buf_ d') <= 256 /\
    forall x, In x l ->
      (In (x.1, tbin_of (shifter_ d) x.2) (counted d l) -> now - x.2 < range + w) /\
      (now - x.2 <= range - 2 * w -> In (x.1, tbin_of (shifter_ d) x.2) (counted d l)).
Proof.
  intros Hs Hlen Ht Hsort. set (range := strtoul annotation * 1000000).
  destruct (new_ranged annotation Hs) as (d&Hn&Er&Hsh&Hw). fold range in Er, Hw.
  destruct (feed_ranged annotation d l Hn) as (d'&Ef&R1&S1&(_&_&_&Hg&_)); [lia|done|].
  exists d, d'. split; [done|]. split; [done|]. cbn zeta. split; [done|].
  rewrite (survivors_config d d' _ R1 S1) in Hg.
  set (w := 2 ^ shifter_ d) in *. assert (0 < w) by (apply Z.pow_pos_nonneg; lia).
  rewrite !Z.pow_add_r in Hw by lia. fold w in Hw. change (2 ^ 7) with 128 in Hw. change (2 ^ 8) with 256 in Hw.
  split; [lia|]. split; [apply (history_small d l); (done || lia)|].
  intros x Hx. unfold counted. destruct (Z.eqb_spec (range_usecs_ d) 0); [lia|].
  rewrite <- Er. split; [apply survivor_young; (done || lia)|]. intros Hy. apply young_survives; (done || lia).
Qed.
End Accuracy.

Lemma derived_sum_accuracy_witness :
  exists d d' : t Z Z, new (bs "60") = Some d /\ feed [(1, 2000000); (1, 64000000)] d = Some d' /\
    zlen (history_buf_ d') <= 256.
Proof.
  destruct (derived_sum_accuracy (E := Z) (R := Z) (bs "60") [(1, 2000000); (1, 64000000)])
    as (d&d'&E1&E2&_&_&H&_).
  - vm_compute. split; discriminate.
  - reflexivity.
  - repeat constructor; cbn; lia.
  - repeat constructor. cbn. lia.
  - exists d, d'. split; [exact E1|]. split; [exact E2|exact H].
Defined.

End DerivedSums.

(** ** The map interface *)
Module DerivedMaps.

Section ByKey.
Context {D E R : Type} `{!Elem E} `{!DSAlgo D E R} `{!DSAlgoLaws D E R} `{!Result R}.

Definition updates (l : list (gmap string E * gmap string bool * Z)) (s : DerivedStatsIf.t D E)
    : option (DerivedStatsIf.t D E) :=
  foldM (fun u s => DerivedStatsIf.Update_map (R := R) u.1.1 u.1.2 u.2 s) l s.

(** What [FillResult] has to say about one object. *)
Definition reported (force : bool) (d : D) : option R :=
  '(rt, res) ← ds_fill D E R d r_new; if reportable force rt then Some res else None.

Lemma key_step_ok annotation agg k s u :
  (forall d, s.1 = Some d -> ds_ok d) ->
  forall d, (key_step (R := R) annotation agg k s u).1 = Some d -> ds_ok d.
Proof.
  intros Hs d. destruct u as [[raw del] mono], s as [o a]. cbn in *.
  destruct (raw !! k); [|case_bool_decide; [done|apply Hs]].
  destruct (default false _); [done|]. intros Hm. by apply (merged_ok _ _ _ _ _ Hs Hm).
Qed.

Lemma FillResult_map_key (s : DerivedStatsIf.t D E) (force : bool) :
  (forall k d, (at_key s k).1 = Some d -> is_Some (ds_fill D E R d r_new)) ->
  exists mres, DerivedStatsIf.FillResult_map (R := R) s force = Some (mres, negb (bool_decide (mres = ∅))) /\
    forall k, mres !! k = (at_key s k).1 ≫= reported force.
Proof.
  intros Hf. unfold DerivedStatsIf.FillResult_map, at_key in *. cbn [fst] in *.
  destruct (DerivedStatsIf.dsm_ s) as [dsm|]; cbn [default id] in *; [|eexists; split; [reflexivity|]; intros; by rewrite !lookup_empty].
  destruct (foldM_map (fun m mres => forall k, mres !! k = m !! k ≫= reported force)
    (DerivedStatsIf.fill_round (E := E) (R := R) force) dsm ∅) as (mres&->&Hm).
  - intros k. by rewrite !lookup_empty.
  - intros k d m' mres Hd Hm' Hp. unfold DerivedStatsIf.fill_round. cbn [fst snd].
    destruct (Hf k d Hd) as [[rt res] Hr]. rewrite Hr. cbn [mbind option_bind]. eexists. split; [reflexivity|].
    intros k'. destruct (decide (k = k')) as [<-|Hne].
    + rewrite lookup_insert_eq. cbn. unfold reported. rewrite Hr. cbn. destruct (reportable force rt).
      * by rewrite lookup_insert_eq.
      * by rewrite Hp, Hm'.
    + rewrite lookup_insert_ne by done. destruct (reportable force rt); [rewrite lookup_insert_ne by done|]; apply Hp.
  - by eexists.
Qed.

(** C38: the map interface is the scalar one, key by key.  After any sequence of
    updates whose deletions are given for every value, the object of a key is what
    its own values, or their differences against its aggregate, make of it: created
    with its first value, kept when it is not mentioned, dropped when it is deleted
    or when an update mentions nothing at all; and the results reported are those
    of the objects. *)
Theorem derived_map_by_key (annotation : list byte) (agg : bool)
    (l : list (gmap string E * gmap string bool * Z)) (force : bool) :
  is_Some (ds_new D E R annotation) ->
  Forall (fun u => forall k, is_Some (u.1.1 !! k) -> is_Some (u.1.2 !! k)) l ->
  exists s, updates l (DerivedStatsIf.new annotation agg) = Some s /\
    (forall k, at_key s k = foldl (key_step (R := R) annotation agg k) (None, None) l) /\
    ((forall k d, (at_key s k).1 = Some d -> is_Some (ds_fill D E R d r_new)) ->
     exists mres, DerivedStatsIf.FillResult_map (R := R) s force = Some (mres, negb (bool_decide (mres = ∅))) /\
       forall k, mres !! k = (at_key s k).1 ≫= reported force).
Proof.
  intros Hnew Hl.
  enough (exists s, updates l (DerivedStatsIf.new annotation agg) = Some s /\
    DerivedStatsIf.annotation_ s = annotation /\ DerivedStatsIf.is_agg_ s = agg /\
    (forall k, at_key s k = foldl (key_step (R := R) annotation agg k) (None, None) l) /\
    (forall k d, (at_key s k).1 = Some d -> ds_ok d)) as (s&E1&_&_&Hk&_).
  { exists s. split; [done|]. split; [done|]. apply FillResult_map_key. }
  induction l as [|u l IH] using rev_ind; [by eexists|].
  apply Forall_app in Hl as [Hl [Hu _]%Forall_cons_iff].
  destruct (IH Hl) as (s&E1&Ea&Eg&Hk&Hok). destruct u as [[raw del] mono].
  destruct (Update_map_key s raw del mono Hu) as (s'&E2&Ea'&Eg'&Hk'); [by rewrite Ea|exact Hok|].
  exists s'. unfold updates in *. rewrite foldM_app, E1. cbn [mbind option_bind foldM fst snd]. rewrite E2.
  split; [done|]. split; [congruence|]. split; [congruence|]. split.
  - intros k. rewrite foldl_app. cbn [foldl]. rewrite <- Hk, Hk'. by rewrite Ea, Eg.
  - intros k d Hd. rewrite Hk' in Hd. revert Hd. apply key_step_ok. intros d'. apply Hok.
Qed.
End ByKey.

(** Two updates of two keys, then one of them is deleted. *)
Lemma derived_map_by_key_witness :
  let l := [({["a":=5; "b":=7]}, {["a":=false; "b":=false]}, 0);
            ({["a":=6]}, {["a":=false]}, 0); ({["b":=9]}, {["b":=true]}, 0)] in
  exists s : DerivedStatsIf.t (DSSum.t Z Z) Z,
    updates (R := Z) l (DerivedStatsIf.new [] true) = Some s /\
    (DSSum.value_ <$> (at_key s "a").1, (at_key s "a").2) = (Some (Some 6), Some 6) /\
    at_key s "b" = (None, None).
Proof.
  intros l. destruct (derived_map_by_key (D := DSSum.t Z Z) (R := Z) [] true l false) as (s&E1&Hk&_).
  - eexists. reflexivity.
  - unfold l. repeat constructor; intros k [v Hv]; cbn [fst snd] in *;
      repeat (apply lookup_insert_Some in Hv as [[<- _]|[_ Hv]]; [eexists; vm_compute; reflexivity|]);
      try (apply lookup_singleton_Some in Hv as [<- _]; eexists; vm_compute; reflexivity).
  - exists s. split; [exact E1|]. rewrite !Hk. split; vm_compute; reflexivity.
Defined.

End DerivedMaps.

(** ** Aggregates and periods *)
Module DerivedPeriods.

Section Plain.
Context {E R : Type} `{!Elem E} `{!SumOps E R}.

(** A sum without a range. *)
Definition plain (n : Z) (v : option R) : DSSum.t E R := DSSum.Mk n v [] 0 0 0 0.

Lemma plain_update raw mono n (v : option R) :
  0 <= n < 2 ^ 64 - 1 -> (n = 0 \/ is_Some v) ->
  DSSum.Update raw mono (plain n v)
    = Some (plain (n + 1) (Some (if n =? 0 then s_of raw else match v with Some v => s_add v raw | None => s_of raw end))).
Proof.
  intros Hn Hv. unfold DSSum.Update, plain. cbn. destruct (Z.eqb_spec n 0) as [->|Hne]; [done|].
  destruct Hv as [|[w ->]]; [done|]. cbn. by rewrite wrapU_small by lia.
Qed.
End Plain.

(** An interface on totals that was given [last] at last, after [n] updates. *)
Definition agg_state (n last : Z) (s : DerivedStatsIf.t (DSSum.t Z Z) Z) : Prop :=
  exists diff, s = DerivedStatsIf.Mk None (Some (plain n (Some last))) [] true (Some last) ∅ diff ∅.

Lemma agg_update n last raw mono s :
  agg_state n last s -> 0 < n < 2 ^ 64 - 1 -> 0 <= raw < 2 ^ 64 ->
  exists s', DerivedStatsIf.Update (R := Z) raw mono s = Some s' /\ agg_state (n + 1) raw s'.
Proof.
  intros [diff ->] Hn Hr. unfold DerivedStatsIf.Update. cbn [DerivedStatsIf.ds_ DerivedStatsIf.is_agg_ DerivedStatsIf.agg_
    mbind option_bind].
  assert (u64 (last + u64 (raw - last)) = raw) as Er.
  { unfold wrapU. rewrite Zplus_mod_idemp_r. replace (last + (raw - last)) with raw by lia. by apply Z.mod_small. }
  change (ds_update (DSSum.t Z Z) Z Z) with (DSSum.Update (E := Z) (R := Z)).
  rewrite plain_update by (lia || (right; by eexists)). cbn [mbind option_bind].
  destruct (Z.eqb_spec n 0); [lia|]. cbn [e_sub e_add s_add u64_elem u64_sum]. rewrite Er.
  eexists. split; [done|]. by eexists.
Qed.

Lemma agg_run l n last s :
  agg_state n last s -> 0 < n -> n + zlen l < 2 ^ 64 -> Forall (fun x => 0 <= x.1 < 2 ^ 64) l ->
  exists s', foldM (fun x s => DerivedStatsIf.Update (R := Z) x.1 x.2 s) l s = Some s' /\
    agg_state (n + zlen l) (List.last (map fst l) last) s'.
Proof.
  revert n last s. induction l as [|[r m] l IH]; intros n last s Hs Hn Hlen Hl.
  - exists s. cbn. by rewrite Z.add_0_r.
  - apply Forall_cons_iff in Hl as [Hr Hl]. cbn [length] in Hlen.
    destruct (agg_update n last r m s Hs ltac:(lia) Hr) as (s1&E1&H1).
    destruct (IH (n + 1) r s1 H1 ltac:(lia) ltac:(lia) Hl) as (s2&E2&H2).
    exists s2. cbn [foldM fst snd]. rewrite E1. split; [done|].
    replace (n + zlen ((r, m) :: l)) with (n + 1 + zlen l) by (cbn [length]; lia).
    replace (List.last (map fst ((r, m) :: l)) last) with (List.last (map fst l) r); [done|].
    cbn. destruct (map fst l) as [|z k] eqn:Ek; [done|]. clear. revert z. induction k; intros z; [done|]. apply IHk.
Qed.

(** The sum of an aggregate is its latest value.  When the raw values are totals,
    which the interface turns into differences, a sum without a range reports the
    last total it was given, through every wrap of the 64-bit counters. *)
Theorem derived_agg_latest (first : Z * Z) (l : list (Z * Z)) (res : Z) (force : bool) :
  Forall (fun x => 0 <= x.1 < 2 ^ 64) (first :: l) -> zlen l < 2 ^ 64 - 1 ->
  exists s : DerivedStatsIf.t (DSSum.t Z Z) Z,
    foldM (fun x s => DerivedStatsIf.Update (R := Z) x.1 x.2 s) (first :: l) (DerivedStatsIf.new [] true) = Some s /\
    DerivedStatsIf.FillResult (R := Z) s res force = Some (List.last (map fst l) first.1, true).
Proof.
  intros [Hf Hl]%Forall_cons_iff Hlen. destruct first as [r m].
  destruct (agg_run l 1 r (DerivedStatsIf.Mk None (Some (plain 1 (Some r))) [] true (Some r) ∅ (Some r) ∅))
    as (s&E1&diff&->); [by eexists|lia|lia|done|].
  eexists. split; [exact E1|].
  unfold DerivedStatsIf.FillResult, plain. cbn [DerivedStatsIf.ds_ ds_fill DSSum.algo]. unfold DSSum.FillResult.
  cbn [DSSum.samples_ DSSum.range_usecs_ DSSum.value_]. destruct (Z.eqb_spec (1 + zlen l) 0); [lia|].
  cbn. by destruct force.
Qed.

Lemma derived_agg_latest_witness :
  exists s : DerivedStatsIf.t (DSSum.t Z Z) Z,
    foldM (fun x s => DerivedStatsIf.Update (R := Z) x.1 x.2 s) [(10, 0); (2 ^ 64 - 1, 1); (4, 2)]
      (DerivedStatsIf.new [] true) = Some s /\
    DerivedStatsIf.FillResult (R := Z) s 0 false = Some (4, true).
Proof. apply (derived_agg_latest (10, 0) [(2 ^ 64 - 1, 1); (4, 2)] 0 false); [repeat constructor; cbn; lia|reflexivity]. Defined.

(** ** A sample for each period *)
Section Anomaly.
Import DerivedStatsPeriodicAnomalyIf.
Context {D E R : Type} `{!Elem E} `{!Result E} `{!SumOps E E} `{!DSAlgo D E R} `{!DSAlgoLaws D E R} `{!Result R}.

Abbreviation P := (DSSum.t E E).
Definition period (p : list (E * Z)) (s : t P D E) : option (t P D E) :=
  s ← foldM (fun x s => Update x.1 x.2 s) p s;
  '(_, s) ← Flush (R := R) s;
  Some s.

(** The sum of a period, and the value of a fresh [DSPeriodic] when there is none. *)
Definition period_value (p : list (E * Z)) : E :=
  match p with [] => r_new | x :: p => foldl (fun v x => s_add v x.1) (s_of x.1) p end.

(** Between two updates: the sum of the period so far, the samples of the detector. *)
Definition between (annotation : list byte) (init : bool) (sum : option P) (o : option D) (s : t P D E) : Prop :=
  exists cache, s = Mk (DerivedStatsPeriodicIf.Mk None None sum cache [] false init e_uninit ∅ e_uninit ∅)
    (DerivedStatsIf.Mk None o annotation false e_uninit ∅ e_uninit ∅) init.

Lemma period_updates annotation l : forall init n v o s,
  between annotation init (Some (plain n (Some v))) o s -> 0 < n -> n + zlen l < 2 ^ 64 ->
  exists s', foldM (fun x s => Update x.1 x.2 s) l s = Some s' /\
    between annotation (init || negb (bool_decide (l = [])))
      (Some (plain (n + zlen l) (Some (foldl (fun v x => s_add v x.1) v l)))) o s'.
Proof.
  induction l as [|x l IH]; intros init n v o s [cache ->] Hn Hlen.
  - eexists. split; [done|]. cbn. rewrite Z.add_0_r, orb_false_r. by eexists.
  - cbn [length] in Hlen. cbn [foldM]. unfold Update at 2, DerivedStatsPeriodicIf.Update. cbn [periodic_ mbind option_bind
      DerivedStatsPeriodicIf.ds_ DerivedStatsPeriodicIf.is_agg_].
    change (ds_update (DSSum.t E E) E E) with (DSSum.Update (E := E) (R := E)).
    rewrite plain_update by (lia || (right; by eexists)). cbn [mbind option_bind].
    destruct (Z.eqb_spec n 0); [lia|].
    match goal with |- exists _, foldM _ _ ?s1 = _ /\ _ =>
      destruct (IH true (n + 1) (s_add v x.1) o s1) as (s2&E2&H2) end; [by eexists|lia|lia|].
    exists s2. split; [done|]. replace (n + zlen (x :: l)) with (n + 1 + zlen l) by (cbn [length]; lia).
    by rewrite orb_true_r.
Qed.

Lemma period_flush annotation sum o s v d :
  between annotation true sum o s ->
  (match sum with
   | None => v = r_new
   | Some p => exists n, 0 < n /\ p = plain n (Some v)
   end) ->
  merged annotation 0 o v = Some d ->
  exists s', Flush (R := R) s = Some (true, s') /\ between annotation true None (Some d) s'.
Proof.
  intros [cache ->] Hsum Hm. unfold Flush. cbn [init_ negb periodic_ anomaly_]. unfold DerivedStatsPeriodicIf.Flush.
  cbn [DerivedStatsPeriodicIf.ds_]. unfold merged in Hm.
  assert (DerivedStatsIf.Update (R := R) v 0 (DerivedStatsIf.Mk None o annotation false e_uninit ∅ e_uninit ∅)
    = Some (DerivedStatsIf.Mk None (Some d) annotation false e_uninit ∅ e_uninit ∅)) as Ha.
  { unfold DerivedStatsIf.Update. cbn [DerivedStatsIf.ds_ DerivedStatsIf.is_agg_ DerivedStatsIf.annotation_].
    destruct o as [d0|]; cbn [mbind option_bind] in *; [by rewrite Hm|].
    destruct (ds_new D E R annotation); [|done]. cbn [mbind option_bind] in *. by rewrite Hm. }
  destruct sum as [p|].
  - destruct Hsum as (n&Hn&->). unfold plain. cbn [ds_fill DSSum.algo]. unfold DSSum.FillResult.
    cbn [DSSum.samples_ DSSum.range_usecs_ DSSum.value_]. destruct (Z.eqb_spec n 0); [lia|].
    cbn [negb andb Z.eqb mbind option_bind]. rewrite !bool_decide_eq_true_2 by (done || by eexists).
    unfold DerivedStatsPeriodicIf.FillResult. cbn [DerivedStatsPeriodicIf.ds_cache_ DerivedStatsPeriodicIf.ds_
      fmap option_fmap option_map fst mbind option_bind value]. rewrite Ha.
    eexists. split; [done|]. by eexists.
  - subst v. cbn [mbind option_bind value r_new periodic_result] in *. rewrite Ha.
    eexists. split; [done|]. by eexists.
Qed.

Lemma period_step annotation init p o s :
  between annotation init None o s -> init = true \/ p <> [] -> zlen p < 2 ^ 64 ->
  is_Some (ds_new D E R annotation) -> (forall d, o = Some d -> ds_ok d) ->
  exists d s', merged (R := R) annotation 0 o (period_value p) = Some d /\ ds_ok d /\
    period p s = Some s' /\ between annotation true None (Some d) s'.
Proof.
  intros Hs Hi Hlen [d0 Hnew] Hok.
  assert (exists d, merged (R := R) annotation 0 o (period_value p) = Some d) as [d Hd].
  { unfold merged. destruct o as [d1|]; [|rewrite Hnew]; cbn.
    - destruct (ds_update_ok (period_value p) 0 d1 (Hok d1 eq_refl)) as (d&->&_). by eexists.
    - destruct (ds_update_ok (period_value p) 0 d0 (ds_new_ok _ _ Hnew)) as (d&->&_). by eexists. }
  exists d. unfold period. destruct p as [|x p].
  - destruct Hi as [->|]; [|done]. destruct (period_flush annotation None o s r_new d Hs eq_refl Hd) as (s'&E1&H1).
    exists s'. cbn [foldM mbind option_bind]. rewrite E1. split; [done|]. split; [by apply (merged_ok _ _ _ _ _ Hok Hd)|done].
  - destruct Hs as [cache ->]. cbn [length] in Hlen. cbn [foldM]. unfold Update at 2, DerivedStatsPeriodicIf.Update.
    cbn [periodic_ mbind option_bind DerivedStatsPeriodicIf.ds_ DerivedStatsPeriodicIf.is_agg_
      DerivedStatsPeriodicIf.annotation_ ds_new DSSum.algo].
    change (DSSum.new []) with (Some (plain (E := E) (R := E) 0 None)). cbn [mbind option_bind].
    change (ds_update (DSSum.t E E) E E) with (DSSum.Update (E := E) (R := E)).
    rewrite plain_update by (lia || by left). cbn [mbind option_bind Z.eqb].
    match goal with |- context [foldM _ _ ?s1] =>
      destruct (period_updates annotation p true 1 (s_of x.1) o s1) as (s2&E2&H2) end; [by eexists|lia|lia|].
    destruct (period_flush annotation _ o s2 (period_value (x :: p)) d H2) as (s'&E3&H3);
      [eexists; split; [|done]; lia|done|].
    exists s'. rewrite E2. cbn [mbind option_bind]. rewrite E3. split; [done|].
    split; [by apply (merged_ok _ _ _ _ _ Hok Hd)|done].
Qed.

(** The anomaly detector sees one value for each period.  From the first period
    with an update on, every flush hands the detector exactly one value, the sum of
    the updates of that period or zero when there were none, whatever the updates
    of other periods were. *)
Theorem derived_period_samples (annotation : list byte) (p0 : list (E * Z)) (ps : list (list (E * Z))) :
  is_Some (ds_new D E R annotation) -> p0 <> [] -> Forall (fun p => zlen p < 2 ^ 64) (p0 :: ps) ->
  exists s d, foldM period (p0 :: ps) (new annotation false) = Some s /\
    (ds_new D E R annotation ≫= foldM (fun p d => ds_update D E R (period_value p) 0 d) (p0 :: ps)) = Some d /\
    DerivedStatsIf.ds_ (anomaly_ s) = Some d.
Proof.
  intros Hnew Hne [H0 Hps]%Forall_cons_iff. pose proof Hnew as [d0 Hd0]. rewrite Hd0. cbn [mbind option_bind foldM].
  destruct (period_step annotation false p0 None (new annotation false)) as (d1&s1&Hm&Hok&E1&Hs);
    [by eexists|by right|done|done|done|].
  unfold merged in Hm. rewrite Hd0 in Hm. cbn [mbind option_bind] in Hm. rewrite E1, Hm. cbn [mbind option_bind].
  clear E1 Hm. revert d1 s1 Hok Hs. induction Hps as [|p ps Hp _ IH]; intros d1 s1 Hok Hs.
  - destruct Hs as [cache ->]. by eexists _, _.
  - destruct (period_step annotation true p (Some d1) s1 Hs) as (d2&s2&Hm&Hok2&E2&Hs2);
      [by left|done|done|by intros ? [= <-]|].
    cbn [foldM]. unfold merged in Hm. cbn [mbind option_bind] in Hm. rewrite E2, Hm. cbn [mbind option_bind].
    by apply IH.
Qed.
End Anomaly.

(** Three periods, the second without an update. *)
Lemma derived_period_samples_witness :
  exists s d, foldM (period (D := DSNull.t Z) (R := NullResult Z)) [[(3, 10); (4, 20)]; []; [(9, 30)]]
      (DerivedStatsPeriodicAnomalyIf.new [] false) = Some s /\
    Some (DSNull.Mk (Some 9) 3) = Some d /\
    DerivedStatsIf.ds_ (DerivedStatsPeriodicAnomalyIf.anomaly_ s) = Some d.
Proof.
  destruct (derived_period_samples (D := DSNull.t Z) (R := NullResult Z) [] [(3, 10); (4, 20)] [[]; [(9, 30)]])
    as (s&d&E1&E2&E3); [eexists; reflexivity|discriminate|repeat constructor|].
  exists s, d. split; [exact E1|]. vm_compute in E2. split; [exact E2|exact E3].
Defined.

End DerivedPeriods.
