(* ===== verification/DerivedEwm.v ===== *)
(** * Exponentially weighted means: claims

    What the recurrences of [DSEWM] and [DSAnomalyEWM] compute, in exact arithmetic:
    the class [Doubles] is instantiated with the real numbers, so that rounding is
    left out.  When the detector reports is shown for IEEE 754 arithmetic. *)

From Stdlib Require Import Reals Lra SpecFloat.
From S2P Require Import Prelude DerivedStats DerivedStatsIf DerivedMapSpec.

Section Exact.
Local Open Scope R_scope.

(** Exact arithmetic; texts are a parameter. *)
Definition exact (strtod : list byte -> R) (text : R -> list byte) : Doubles R := {|
  d_const m e := IZR m * powerRZ 2 e;
  d_add := Rplus;
  d_sub := Rminus;
  d_mul := Rmult;
  d_div := Rdiv;
  d_sqrt := sqrt;
  d_square x := x * x;
  d_ltb x y := if Rlt_dec x y then true else false;
  d_leb x y := if Rle_dec x y then true else false;
  d_eqb x y := if Req_dec_T x y then true else false;
  d_to_u64 x := if Rle_dec 0 x then if Rlt_dec x (IZR (2 ^ 64)) then Some (Int_part x) else None else None;
  d_strtod := strtod;
  d_text := text;
|}.
#[export] Instance exact_elem : ToDouble Z R := { to_double := IZR }.

(** The sum of [alpha * (1 - alpha) ^ i * x_i], [i] counting from the newest element,
    which is first. *)
Fixpoint weighted (alpha : R) (i : nat) (l : list R) : R :=
  match l with [] => 0 | x :: l => alpha * (1 - alpha) ^ i * x + weighted alpha (S i) l end.

Lemma weighted_shift alpha l : forall i, weighted alpha (S i) l = (1 - alpha) * weighted alpha i l.
Proof. induction l as [|x l IH]; intros i; [cbn; lra|]. cbn [weighted]. rewrite IH. cbn [pow]. lra. Qed.

Lemma weighted_cons alpha x l : weighted alpha 0 (x :: l) = alpha * x + (1 - alpha) * weighted alpha 0 l.
Proof. cbn [weighted]. rewrite weighted_shift. cbn [pow]. lra. Qed.
End Exact.

Module Ewm.
Section Proofs.
Context (strtod : list byte -> R) (text : R -> list byte).
Local Open Scope R_scope.
Local Instance arith : Doubles R := exact strtod text.

Lemma const_0 : d_const (F := R) 0 0 = 0.
Proof. cbn. lra. Qed.
Lemma const_1 : d_const (F := R) 1 0 = 1.
Proof. cbn. lra. Qed.

(** What holds of the numbers after the samples [l], the newest first. *)
Definition fits (alpha : R) (l : list Z) (mean variance stddev sigma : R) : Prop :=
  mean = weighted alpha 0 (map IZR l) /\
  variance = weighted alpha 0 (map (fun z => IZR z * IZR z) l) - mean * mean /\
  0 <= variance /\ stddev * stddev = variance /\
  alpha * (sigma * sigma) <= 1 - alpha.

(** The recurrence keeps it. *)
Lemma fits_step alpha l x mean variance stddev sigma :
  0 < alpha <= 1 -> fits alpha l mean variance stddev sigma ->
  let x' := IZR x in
  let variance' := (1 - alpha) * (variance + alpha * ((x' - mean) * (x' - mean))) in
  let mean' := (1 - alpha) * mean + alpha * x' in
  let stddev' := sqrt variance' in
  let sigma' := if negb (if Req_dec_T stddev' 0 then true else false) then (x' - mean') / stddev' else 0 in
  fits alpha (x :: l) mean' variance' stddev' sigma'.
Proof.
  intros Ha (Hm&Hv&Hv0&_&_). cbn zeta. set (x' := IZR x).
  assert (0 <= (x' - mean) * (x' - mean)) as Hsq by apply Rle_0_sqr.
  assert (0 <= (1 - alpha) * (variance + alpha * ((x' - mean) * (x' - mean)))) as Hpos.
  { apply Rmult_le_pos; [lra|]. apply Rplus_le_le_0_compat; [done|]. apply Rmult_le_pos; lra. }
  set (v := (1 - alpha) * (variance + alpha * ((x' - mean) * (x' - mean)))) in *.
  repeat split.
  - cbn [map]. rewrite weighted_cons, <- Hm. fold x'. lra.
  - cbn [map]. rewrite weighted_cons. fold x'. unfold v. rewrite Hv. ring.
  - done.
  - by apply sqrt_sqrt.
  - destruct (Req_dec_T (sqrt v) 0) as [E|E]; cbn [negb]; [lra|].
    assert (0 < sqrt v) as Hs by (pose proof (sqrt_pos v); lra).
    assert (sqrt v * sqrt v = v) as Hss by (by apply sqrt_sqrt).
    set (s := sqrt v) in *. set (y := x' - ((1 - alpha) * mean + alpha * x')).
    assert (alpha * (y * y) <= (1 - alpha) * (s * s)) as Hb.
    { rewrite Hss. unfold v, y. replace (x' - ((1 - alpha) * mean + alpha * x')) with ((1 - alpha) * (x' - mean)) by ring.
      assert (0 <= (1 - alpha) * (1 - alpha) * variance) by (apply Rmult_le_pos; [apply Rle_0_sqr|done]). lra. }
    replace (alpha * (y / s * (y / s))) with (alpha * (y * y) / (s * s)) by (field; lra).
    apply (Rmult_le_reg_r (s * s)); [by apply Rmult_lt_0_compat|].
    unfold Rdiv. rewrite Rmult_assoc, Rinv_l, Rmult_1_r; [done|]. apply Rgt_not_eq, Rmult_lt_0_compat; done.
Qed.

Lemma fits_start alpha : 0 < alpha <= 1 -> fits alpha [] 0 0 0 0.
Proof. intros. unfold fits. cbn. lra. Qed.

Definition ewm_fits (l : list Z) (alpha : R) (d : DSEWM.t R) : Prop :=
  DSEWM.alpha_ d = alpha /\ DSEWM.error_ d = [] /\ DSEWM.samples_ d = zlen l /\
  fits alpha l (DSEWM.mean_ d) (DSEWM.variance_ d) (DSEWM.stddev_ d) (DSEWM.sigma_ d).

Lemma ewm_update alpha l x mono d :
  0 < alpha <= 1 -> (zlen l < 2 ^ 64 - 1)%Z -> ewm_fits l alpha d ->
  ewm_fits (x :: l) alpha (DSEWM.Update x mono d).
Proof.
  intros Ha Hl (E1&E2&E3&Hf). unfold DSEWM.Update. rewrite E2. cbn [negb bool_decide].
  rewrite bool_decide_eq_true_2 by done. cbn [negb]. rewrite E1. unfold ewm_fits.
  cbn [DSEWM.alpha_ DSEWM.error_ DSEWM.samples_ DSEWM.mean_ DSEWM.variance_ DSEWM.stddev_ DSEWM.sigma_].
  rewrite const_0, const_1. split; [done|]. split; [done|].
  split; [rewrite E3, wrapU_small by lia; cbn [length]; lia|].
  exact (fits_step alpha l x _ _ _ _ Ha Hf).
Qed.

(** The detector computes the same numbers. *)
Definition same (d : DSEWM.t R) (a : DSAnomalyEWM.t R) : Prop :=
  DSAnomalyEWM.alpha_ a = DSEWM.alpha_ d /\ DSAnomalyEWM.mean_ a = DSEWM.mean_ d /\
  DSAnomalyEWM.variance_ a = DSEWM.variance_ d /\ DSAnomalyEWM.sigma_ a = DSEWM.sigma_ d /\
  DSAnomalyEWM.stddev_ a = DSEWM.stddev_ d /\ DSAnomalyEWM.samples_ a = DSEWM.samples_ d.

Lemma same_update x mono d a :
  DSEWM.error_ d = [] -> d_eqb (DSEWM.alpha_ d) d_0 = false -> same d a ->
  exists a', DSAnomalyEWM.Update x a = Some a' /\ same (DSEWM.Update x mono d) a' /\
    DSAnomalyEWM.psigma_ a' = DSEWM.sigma_ d.
Proof.
  intros He Hz (E1&E2&E3&E4&E5&E6). unfold DSAnomalyEWM.Update. rewrite E1, Hz, E2, E3, E4, E6.
  eexists. split; [done|]. split; [|done]. unfold same, DSEWM.Update. rewrite He.
  rewrite bool_decide_eq_true_2 by done. done.
Qed.

(** The mean and the variance are the exponentially weighted ones.  In exact
    arithmetic, for a weight between 0 and 1, after any samples the mean is the sum
    of [alpha (1 - alpha)^i x_i], the newest having [i = 0], the variance is the same
    sum of squares less the square of the mean and is not negative, the standard
    deviation is its root, and the deviation reported of the newest sample is at most
    the root of [(1 - alpha) / alpha], so that a threshold above it never triggers.
    The anomaly detector has the same numbers. *)
Theorem ewm_exact (annotation : list byte) (xs : list Z) :
  0 < strtod annotation <= 1 -> (zlen xs < 2 ^ 64)%Z ->
  let d := foldl (fun d x => DSEWM.Update x 0 d) (DSEWM.new annotation) xs in
  ewm_fits (rev xs) (strtod annotation) d /\
  exists a, foldM DSAnomalyEWM.Update xs (DSAnomalyEWM.new annotation).1 = Some a /\ same d a.
Proof.
  intros Ha. cbn zeta.
  induction xs as [|x xs IH] using rev_ind; intros Hl.
  - cbn [foldl rev foldM]. unfold DSEWM.new, DSAnomalyEWM.new. rewrite const_0, const_1.
    change (d_strtod (F := R) annotation) with (strtod annotation). cbn [d_eqb d_ltb d_leb arith exact].
    destruct (Req_dec_T (strtod annotation) 0); [lra|]. destruct (Rlt_dec (strtod annotation) 0); [lra|].
    destruct (Rlt_dec 1 (strtod annotation)); [lra|]. destruct (Rle_dec (strtod annotation) 0); [lra|].
    cbn [orb fst]. split; [|by eexists]. repeat (split; [done|]). by apply fits_start.
  - rewrite length_app in Hl. cbn [length] in Hl. destruct IH as (Hf&a&E1&Hs); [lia|].
    rewrite foldl_app, rev_app_distr, foldM_app, E1. cbn [foldl rev app mbind option_bind foldM].
    split; [apply ewm_update; [done|rewrite length_rev; lia|done]|].
    destruct Hf as (E2&E3&_). destruct (same_update x 0 _ a E3) with (2 := Hs) as (a'&E4&Hs'&_).
    { rewrite E2, const_0. cbn. destruct (Req_dec_T (strtod annotation) 0); [lra|done]. }
    exists a'. by rewrite E4.
Qed.
End Proofs.

Lemma ewm_exact_witness :
  let strtod := fun _ : list byte => (1 / 2)%R in
  let _ := exact strtod (fun _ => []) in
  let d := foldl (fun d x => DSEWM.Update x 0 d) (DSEWM.new (bs "0.5")) [4%Z; 8%Z] in
  DSEWM.mean_ d = 5%R /\ DSEWM.variance_ d = 11%R.
Proof.
  intros strtod A d. destruct (ewm_exact strtod (fun _ => []) (bs "0.5") [4%Z; 8%Z]) as [(_&_&_&(Hm&Hv&_)) _].
  - unfold strtod. lra.
  - reflexivity.
  - rewrite Hm in Hv. split; [etransitivity; [exact Hm|]|etransitivity; [exact Hv|]];
      unfold strtod; cbn [rev app map weighted pow]; lra.
Defined.
End Ewm.

(** ** When the detector reports *)
Module Anomaly.
Section Proofs.
Context (strtod : list byte -> spec_float) (text : spec_float -> list byte).
Local Open Scope Z_scope.
Local Instance arith64 : Doubles spec_float := binary64 strtod text.

Abbreviation zero := (sf_const 0 0).
Abbreviation one := (sf_const 1 0).

(** The weights the constructor accepts. *)
Definition accepted (alpha : spec_float) : bool := negb (SFleb alpha zero || SFltb one alpha).

Lemma accepted_nonzero alpha : accepted alpha = true -> SFeqb alpha zero = false.
Proof.
  unfold accepted, SFleb, SFltb, SFeqb. destruct (SFcompare alpha zero) as [[]|]; done.
Qed.

(** The kind of result after [n] samples when [1 / alpha] is [m]. *)
Definition report (n m : Z) (psigma sigma : spec_float) : DSReturnType :=
  if n <? m then DSR_INVALID
  else if n =? m then DSR_OK
  else if DSAnomalyEWM.within_half psigma && DSAnomalyEWM.within_half sigma then DSR_SKIP
  else DSR_OK.

Definition running (config : list byte) (n : Z) (last : option Z) (d : DSAnomaly.t Z spec_float) : Prop :=
  exists impl, DSAnomaly.impl_ d = Some impl /\ DSAnomaly.error_ d = [] /\
    DSAnomaly.previous_ d = last /\ DSAnomaly.started_ d = bool_decide (is_Some last) /\
    DSAnomalyEWM.alpha_ impl = strtod config /\ DSAnomalyEWM.samples_ impl = n.

Lemma new_ewm config :
  DSAnomaly.new (bs "EWM:" ++ config) =
  let '(impl, error) := DSAnomalyEWM.new config in
  DSAnomaly.Mk (E := Z) (bs "EWM") config error None false (if bool_decide (error = []) then Some impl else None).
Proof. done. Qed.

Lemma running_feed config xs :
  accepted (strtod config) = true -> zlen xs < 2 ^ 64 ->
  exists d, foldM (fun x d => DSAnomaly.Update x 0 d) xs (DSAnomaly.new (bs "EWM:" ++ config)) = Some d /\
    running config (zlen xs) (list_basics.list.last xs) d.
Proof.
  intros Ha. induction xs as [|x xs IH] using rev_ind; intros Hl.
  - eexists. split; [done|]. rewrite new_ewm. unfold DSAnomalyEWM.new.
    change (d_strtod config) with (strtod config). unfold accepted in Ha. apply negb_true_iff in Ha.
    change (d_leb (strtod config) d_0 || d_ltb d_1 (strtod config)) with
      (SFleb (strtod config) zero || SFltb one (strtod config)). rewrite Ha.
    rewrite bool_decide_eq_true_2 by done. eexists. by repeat split.
  - rewrite length_app in *. cbn [length] in Hl. destruct IH as (d&E1&impl&E2&E3&E4&E5&E6&E7); [lia|].
    rewrite foldM_app, E1, last_snoc. cbn [mbind option_bind foldM]. unfold DSAnomaly.Update. rewrite E2.
    unfold DSAnomalyEWM.Update. rewrite E6.
    change (d_eqb (strtod config) d_0) with (SFeqb (strtod config) zero). rewrite (accepted_nonzero _ Ha).
    cbn [mbind option_bind]. eexists. split; [done|]. eexists. repeat (split; [done|]).
    cbn [DSAnomalyEWM.samples_ length]. rewrite E7, wrapU_small by lia. lia.
Qed.

(** When an anomaly is reported.  A weight that is 0, negative or above 1 is
    reported as an error and samples are ignored.  With any other weight, after [n]
    samples the result is invalid while [n] is below [1 / alpha] rounded down, is
    reported when it is equal, and from then on it is skipped exactly when this
    deviation and the one before are within 0.5; it carries the last sample.  When
    [1 / alpha] does not fit 64 bits, as for a weight that is not a number or below
    2^-64, which the constructor accepts, asking for the result is undefined. *)
Theorem anomaly_report (config : list byte) (xs : list Z) (res : AnomalyResult Z spec_float) :
  zlen xs < 2 ^ 64 ->
  exists d, foldM (fun x d => DSAnomaly.Update x 0 d) xs (DSAnomaly.new (bs "EWM:" ++ config)) = Some d /\
    if accepted (strtod config) then
      match sf_to_u64 (SFdiv prec64 emax64 one (strtod config)) with
      | None => DSAnomaly.FillResult d res = None
      | Some m => exists impl res', DSAnomaly.impl_ d = Some impl /\
          DSAnomaly.FillResult d res
            = Some (report (zlen xs) m (DSAnomalyEWM.psigma_ impl) (DSAnomalyEWM.sigma_ impl), res') /\
          (xs <> [] -> an_metric res' = list_basics.list.last xs) /\ an_error res' = an_error res
      end
    else exists res', DSAnomaly.FillResult d res = Some (DSR_OK, res') /\
      an_error res' = Some (bs "Invalid alpha " ++ config) /\ an_metric res' = an_metric res.
Proof.
  intros Hl. destruct (accepted (strtod config)) eqn:Ha.
  - destruct (running_feed config xs Ha Hl) as (d&E1&impl&E2&E3&E4&E5&E6&E7). exists d. split; [done|].
    unfold DSAnomaly.FillResult. rewrite E2. unfold DSAnomalyEWM.FillResult. rewrite E6.
    change (d_eqb (strtod config) d_0) with (SFeqb (strtod config) zero). rewrite (accepted_nonzero _ Ha).
    change (d_to_u64 (d_div d_1 (strtod config))) with (sf_to_u64 (SFdiv prec64 emax64 one (strtod config))).
    destruct (sf_to_u64 _) as [m|]; [|done]. cbn [mbind option_bind]. rewrite E3, bool_decide_eq_true_2 by done.
    cbn [mbind option_bind]. rewrite E5, E4, E7. exists impl. destruct (list_basics.list.last xs) as [v|] eqn:Ev.
    + cbn. eexists. split; [done|]. split; [done|]. by split.
    + rewrite bool_decide_eq_false_2 by (by intros []). eexists. split; [done|]. split; [done|]. split; [|done].
      intros Hne. by apply last_None in Ev.
  - assert (DSAnomaly.new (bs "EWM:" ++ config)
      = DSAnomaly.Mk (E := Z) (bs "EWM") config (bs "Invalid alpha " ++ config) None false None) as En.
    { rewrite new_ewm. unfold DSAnomalyEWM.new. change (d_strtod config) with (strtod config).
      unfold accepted in Ha. apply negb_false_iff in Ha.
      change (d_leb (strtod config) d_0 || d_ltb d_1 (strtod config)) with
        (SFleb (strtod config) zero || SFltb one (strtod config)). by rewrite Ha. }
    exists (DSAnomaly.new (bs "EWM:" ++ config)). split.
    + rewrite En. clear. induction xs as [|x xs IH]; [done|exact IH].
    + rewrite En. eexists. split; [reflexivity|]. done.
Qed.
End Proofs.

(** A weight of one half reports from the second sample on; one of 2^-70 is undefined. *)
Lemma anomaly_report_witness :
  let half := binary64 (fun _ => sf_const 1 (-1)) (fun _ => []) in
  let tiny := binary64 (fun _ => sf_const 1 (-70)) (fun _ => []) in
  let res := MkAnomalyResult None None None None None None None in
  (exists d, foldM (fun x d => DSAnomaly.Update (Doubles0 := half) x 0 d) [3%Z; 90%Z] (DSAnomaly.new (Doubles0 := half) (bs "EWM:0.5")) = Some d /\
    exists res', DSAnomaly.FillResult (Doubles0 := half) d res = Some (DSR_OK, res') /\ an_metric res' = Some 90%Z) /\
  (exists d, foldM (fun x d => DSAnomaly.Update (Doubles0 := tiny) x 0 d) [3%Z] (DSAnomaly.new (Doubles0 := tiny) (bs "EWM:1e-21")) = Some d /\
    DSAnomaly.FillResult (Doubles0 := tiny) d res = None).
Proof.
  intros half tiny res. split.
  - destruct (anomaly_report (fun _ => sf_const 1 (-1)) (fun _ => []) (bs "0.5") [3%Z; 90%Z] res eq_refl)
      as (d&E1&impl&res'&_&E2&E3&_).
    exists d. split; [exact E1|]. exists res'. split; [exact E2|]. apply E3. discriminate.
  - exact (anomaly_report (fun _ => sf_const 1 (-70)) (fun _ => []) (bs "1e-21") [3%Z] res eq_refl).
Defined.
End Anomaly.
