(* ===== verification/Pipeline.v ===== *)
(** * The request pipeline

    library/cpp/request_pipeline.h and .cc.  A pipeline is a list of stages, a stage a
    list of instances that run in parallel; one pipeline is active at a time, the
    others wait in a queue.  Live [PipeImpl] objects are the entries of [pipes], the
    tasks given to the scheduler those of [tasks], which it runs in any order; the
    callback of a client is an input, which chooses what it returns and the data it
    leaves.  A worker's [Run] is two steps, the callback and [DoneInstance], so that
    the steps of parallel workers interleave.

    [None] is the use of an object that is gone, an access outside of a vector, or a
    lock taken twice by one thread ([tbb::mutex] is not recursive). *)

From S2P Require Import Prelude.
Local Open Scope Z_scope.

Module RequestPipeline.
Section Pipeline.
(** [InstData] *)
Context {X : Type}.

Definition pid := positive.

(** [allocFn_] may be empty; the callback is not kept here. *)
Record StageSpec := MkStage { taskId_ : Z; instances_ : list Z; allocFn_ : option (Z -> X) }.
Record StageImpl := MkImpl { data_ : list X; remainingInst_ : Z }.
Record PipeImpl := MkPipe { spec_ : list StageSpec; stageImpls_ : list StageImpl; currentStage_ : Z }.
(** [returned] when the callback has returned true. *)
Record StageWorker := MkWorker { pImpl_ : pid; task_ : Z * Z; instNum_ : Z; returned : bool }.

(** [created] and [completed] record the pipelines constructed and the instances that
    are done, oldest first, as pipeline, stage and number. *)
Record t := Mk {
  pipes : gmap pid PipeImpl;
  next_pipe : pid;
  activePipes_ : Z;
  pendPipes_ : list pid;
  tasks : list StageWorker;
  created : list (pid * list StageSpec);
  completed : list (pid * Z * Z);
}.

Definition set_pipe (p : pid) (pi : PipeImpl) (s : t) : t :=
  Mk (<[p:=pi]> (pipes s)) (next_pipe s) (activePipes_ s) (pendPipes_ s) (tasks s) (created s) (completed s).
Definition delete_pipe (p : pid) (s : t) : t :=
  Mk (delete p (pipes s)) (next_pipe s) (activePipes_ s) (pendPipes_ s) (tasks s) (created s) (completed s).
Definition set_active (n : Z) (s : t) : t :=
  Mk (pipes s) (next_pipe s) n (pendPipes_ s) (tasks s) (created s) (completed s).
Definition set_pending (l : list pid) (s : t) : t :=
  Mk (pipes s) (next_pipe s) (activePipes_ s) l (tasks s) (created s) (completed s).
Definition set_tasks (l : list StageWorker) (s : t) : t :=
  Mk (pipes s) (next_pipe s) (activePipes_ s) (pendPipes_ s) l (created s) (completed s).
Definition set_completed (l : list (pid * Z * Z)) (s : t) : t :=
  Mk (pipes s) (next_pipe s) (activePipes_ s) (pendPipes_ s) (tasks s) (created s) l.

(** An element of a vector; [None] is an index outside of it. *)
Definition at_index {A} (l : list A) (i : Z) : option A := if i <? 0 then None else l !! Z.to_nat i.

Definition new_StageImpl (spec : StageSpec) (stage : Z) : StageImpl :=
  MkImpl (match allocFn_ spec with
          | Some f => replicate (length (instances_ spec)) (f stage)
          | None => []
          end) (zlen (instances_ spec)).

(** The workers of a stage. *)
Definition workers (p : pid) (spec : StageSpec) : list StageWorker :=
  imap (fun i inst => MkWorker p (taskId_ spec, inst) (Z.of_nat i) false) (instances_ spec).

(** The branch of [NextStage] that starts the stage. *)
Definition start_stage (p : pid) (pi : PipeImpl) (stage : Z) (s : t) : option t :=
  spec ← at_index (spec_ pi) stage;
  let s := set_pipe p (MkPipe (spec_ pi) (stageImpls_ pi ++ [new_StageImpl spec stage]) stage) s in
  Some (set_tasks (tasks s ++ workers p spec) s).

(** [NextStage] called with the lock held: at the end it would take the lock again. *)
Definition NextStage_locked (p : pid) (s : t) : option t :=
  pi ← pipes s !! p;
  let stage := currentStage_ pi + 1 in
  if stage =? zlen (spec_ pi) then None else start_stage p pi stage s.

Definition NextStage (p : pid) (s : t) : option t :=
  pi ← pipes s !! p;
  let stage := currentStage_ pi + 1 in
  if stage =? zlen (spec_ pi) then
    let s := delete_pipe p s in
    match pendPipes_ s with
    | q :: rest => NextStage_locked q (set_pending rest s)
    | [] => Some (set_active (activePipes_ s - 1) s)
    end
  else start_stage p pi stage s.

(** The constructor of [PipeImpl], with the lock held. *)
Definition new_PipeImpl (spec : list StageSpec) (s : t) : option t :=
  let p := next_pipe s in
  let s := Mk (<[p:=MkPipe spec [] (-1)]> (pipes s)) (p + 1)%positive (activePipes_ s) (pendPipes_ s) (tasks s)
              (created s ++ [(p, spec)]) (completed s) in
  if activePipes_ s <? 1 then NextStage_locked p (set_active (activePipes_ s + 1) s)
  else Some (set_pending (pendPipes_ s ++ [p]) s).

(** [fetch_and_decrement] of the current stage, and whether it was the last. *)
Definition DoneInstance (p : pid) (s : t) : option t :=
  pi ← pipes s !! p;
  impl ← at_index (stageImpls_ pi) (currentStage_ pi);
  let prev := remainingInst_ impl in
  let impls := <[Z.to_nat (currentStage_ pi):=MkImpl (data_ impl) (prev - 1)]> (stageImpls_ pi) in
  let s := set_pipe p (MkPipe (spec_ pi) impls (currentStage_ pi)) s in
  if prev =? 1 then NextStage p s else Some s.

(** The callback may change the data of its instance to [x]. *)
Definition RunInstance (p : pid) (instNum : Z) (x : X) (s : t) : option t :=
  pi ← pipes s !! p;
  ss ← at_index (spec_ pi) (currentStage_ pi);
  match allocFn_ ss with
  | None => Some s
  | Some _ =>
      impl ← at_index (stageImpls_ pi) (currentStage_ pi);
      _ ← at_index (data_ impl) instNum;
      let impl := MkImpl (<[Z.to_nat instNum:=x]> (data_ impl)) (remainingInst_ impl) in
      Some (set_pipe p (MkPipe (spec_ pi) (<[Z.to_nat (currentStage_ pi):=impl]> (stageImpls_ pi)) (currentStage_ pi)) s)
  end.

(** [Some None] is a null pointer. *)
Definition GetStageData (p : pid) (stage : Z) (s : t) : option (option (list X)) :=
  pi ← pipes s !! p;
  if currentStage_ pi <=? stage then Some None
  else (impl ← at_index (stageImpls_ pi) stage; Some (Some (data_ impl))).

(** What can happen: a client constructs a pipeline; the scheduler runs a task, whose
    callback returns [ok] and leaves [x]; a worker whose callback has returned true
    goes on. *)
Inductive input :=
  | Create (spec : list StageSpec)
  | Run (i : nat) (ok : bool) (x : X)
  | Finish (i : nat).

Definition step (i : input) (s : t) : option t :=
  match i with
  | Create spec => new_PipeImpl spec s
  | Run i ok x =>
      match tasks s !! i with
      | Some w =>
          if returned w then Some s
          else
            s ← RunInstance (pImpl_ w) (instNum_ w) x s;
            Some (set_tasks (<[i:=MkWorker (pImpl_ w) (task_ w) (instNum_ w) ok]> (tasks s)) s)
      | None => Some s
      end
  | Finish i =>
      match tasks s !! i with
      | Some w =>
          if returned w then
            pi ← pipes s !! pImpl_ w;
            let s := set_tasks (delete i (tasks s)) s in
            let s := set_completed (completed s ++ [(pImpl_ w, currentStage_ pi, instNum_ w)]) s in
            DoneInstance (pImpl_ w) s
          else Some s
      | None => Some s
      end
  end.

Definition init : t := Mk ∅ 1%positive 0 [] [] [] [].

Fixpoint run (l : list input) (s : t) : option t :=
  match l with [] => Some s | i :: l => s ← step i s; run l s end.

(** The pipelines a client may construct: they have a stage. *)
Definition has_stage (i : input) : Prop := match i with Create [] => False | _ => True end.
Inductive reachable : t -> Prop :=
  | reach_init : reachable init
  | reach_step s i s' : reachable s -> has_stage i -> step i s = Some s' -> reachable s'.

End Pipeline.
Arguments StageSpec : clear implicits.
Arguments StageImpl : clear implicits.
Arguments PipeImpl : clear implicits.
Arguments t : clear implicits.
Arguments input : clear implicits.
End RequestPipeline.
