(* ===== verification/PipelineClaims.v ===== *)
(** * The request pipeline: invariant and claims

    The work is a list of batches, one for each stage of each pipeline in the order of
    construction; the invariant says that the code works through it batch by
    batch. *)

From S2P Require Import Prelude Pipeline.
Import RequestPipeline.
Local Open Scope Z_scope.

Module PipelineClaims.
Section Proofs.
Context {X : Type}.
Implicit Types s : t X.

(** ** Batches *)
Definition stage_batch (p : pid) (stage : Z) (spec : StageSpec X) : list (pid * Z * Z) :=
  map (fun i => (p, stage, Z.of_nat i)) (seq 0 (length (instances_ spec))).
Definition pipe_batches (p : pid) (spec : list (StageSpec X)) : list (list (pid * Z * Z)) :=
  imap (fun c sp => stage_batch p (Z.of_nat c) sp) spec.
Definition batches (l : list (pid * list (StageSpec X))) : list (list (pid * Z * Z)) :=
  concat (map (fun x => pipe_batches x.1 x.2) l).

(** [l] is these batches one after the other, each in some order. *)
Definition blocks (l : list (pid * Z * Z)) (bs : list (list (pid * Z * Z))) : Prop :=
  exists ls, l = concat ls /\ Forall2 Permutation ls bs.

Definition key (stage : Z) (w : StageWorker) : pid * Z * Z := (pImpl_ w, stage, instNum_ w).

Lemma batches_snoc l p spec : batches (l ++ [(p, spec)]) = batches l ++ pipe_batches p spec.
Proof. unfold batches. rewrite map_app, concat_app. cbn. by rewrite app_nil_r. Qed.

Lemma blocks_snoc l bs k b : blocks l bs -> k ≡ₚ b -> blocks (l ++ k) (bs ++ [b]).
Proof.
  intros (ls&->&Hf) Hp. exists (ls ++ [k]). rewrite concat_app. cbn. rewrite app_nil_r. split; [done|].
  apply Forall2_app; [done|]. by repeat constructor.
Qed.

Lemma take_S_batches p spec c sp :
  spec !! c = Some sp -> take (S c) (pipe_batches p spec) = take c (pipe_batches p spec) ++ [stage_batch p (Z.of_nat c) sp].
Proof. intros H. apply take_S_r. unfold pipe_batches. by rewrite list_lookup_imap, H. Qed.

Lemma take_all_batches p spec c : length spec = c -> take c (pipe_batches p spec) = pipe_batches p spec.
Proof. intros <-. apply take_ge. unfold pipe_batches. by rewrite length_imap. Qed.

Lemma workers_keys p (spec : StageSpec X) stage : map (key stage) (workers p spec) = stage_batch p stage spec.
Proof.
  unfold workers, stage_batch. apply list_eq. intros i.
  change (map (key stage)) with (fmap (M := list) (key stage)).
  change (map (fun i : nat => (p, stage, Z.of_nat i))) with (fmap (M := list) (fun i : nat => (p, stage, Z.of_nat i))).
  rewrite !list_lookup_fmap, list_lookup_imap.
  destruct (instances_ spec !! i) as [n|] eqn:E; cbn.
  - rewrite lookup_seq_lt by (by eapply lookup_lt_Some). done.
  - rewrite lookup_seq_ge by (by apply lookup_ge_None). done.
Qed.

Lemma workers_length p (spec : StageSpec X) : length (workers p spec) = length (instances_ spec).
Proof. unfold workers. apply length_imap. Qed.

Lemma workers_pipe p (spec : StageSpec X) : Forall (fun w => pImpl_ w = p) (workers p spec).
Proof.
  apply Forall_lookup. intros i w. unfold workers. rewrite list_lookup_imap.
  destruct (instances_ spec !! i); cbn; [|done]. by intros [= <-].
Qed.

Lemma at_index_nat {A} (l : list A) i : at_index l (Z.of_nat i) = l !! i.
Proof. unfold at_index. destruct (Z.ltb_spec (Z.of_nat i) 0); [lia|]. by rewrite Nat2Z.id. Qed.

(** ** The invariant *)

(** Pipeline [p] is active, [old] are finished and [pend] waiting. *)
Record active s (old : list (pid * list (StageSpec X))) (p : pid) (spec : list (StageSpec X))
    (impls : list (StageImpl X)) (cur : Z) (pend : list (pid * list (StageSpec X))) : Prop := {
  ac_one : activePipes_ s = 1;
  ac_created : created s = old ++ (p, spec) :: pend;
  ac_pending : pendPipes_ s = map fst pend;
  ac_pipe : pipes s !! p = Some (MkPipe spec impls cur);
  ac_waiting : Forall (fun x => pipes s !! x.1 = Some (MkPipe x.2 [] (-1)) /\ x.2 <> []) pend;
  ac_nodup : NoDup (p :: map fst pend);
  ac_only : forall q, is_Some (pipes s !! q) -> In q (p :: map fst pend);
  ac_fresh : forall q, is_Some (pipes s !! q) -> (q < next_pipe s)%positive;
}.

(** Stage [c] of the active pipeline is running. *)
Record busy s old p spec impls c pend (sp : StageSpec X) (impl : StageImpl X) : Prop := {
  bu_active : active s old p spec impls (Z.of_nat c) pend;
  bu_spec : spec !! c = Some sp;
  bu_impls : length impls = S c;
  bu_impl : impls !! c = Some impl;
  bu_remaining : remainingInst_ impl = zlen (tasks s);
  bu_data : allocFn_ sp <> None -> length (data_ impl) = length (instances_ sp);
  bu_tasks : Forall (fun w => pImpl_ w = p) (tasks s);
  bu_some : instances_ sp <> [] -> tasks s <> [];
  bu_done : exists dn cur, completed s = dn ++ cur /\
    blocks dn (batches old ++ take c (pipe_batches p spec)) /\
    cur ++ map (key (Z.of_nat c)) (tasks s) ≡ₚ stage_batch p (Z.of_nat c) sp;
}.

Record idle s : Prop := {
  id_none : activePipes_ s = 0;
  id_pending : pendPipes_ s = [];
  id_pipes : pipes s = ∅;
  id_tasks : tasks s = [];
  id_done : blocks (completed s) (batches (created s));
}.

Definition inv s : Prop :=
  idle s \/ exists old p spec impls c pend sp impl, busy s old p spec impls c pend sp impl.

(** A change of the active pipeline, and of what is not about pipelines. *)
Lemma active_set s old p spec impls cur pend impls' cur' ts done :
  active s old p spec impls cur pend ->
  active (Mk (<[p:=MkPipe spec impls' cur']> (pipes s)) (next_pipe s) (activePipes_ s) (pendPipes_ s) ts (created s) done)
    old p spec impls' cur' pend.
Proof.
  intros [H1 H2 H3 H4 H5 H6 H7 H8].
  assert (forall q, is_Some (<[p:=MkPipe spec impls' cur']> (pipes s) !! q) -> is_Some (pipes s !! q)) as Hdom.
  { intros q [v Hq]. apply lookup_insert_Some in Hq as [[<- _]|[_ Hq]]; by eexists. }
  split; cbn [activePipes_ created pendPipes_ pipes next_pipe]; [done|done|done|by rewrite lookup_insert_eq| |done|by auto|by auto].
  apply list.NoDup_cons in H6 as [Hp _]. rewrite Forall_forall in *. intros x Hx.
  rewrite lookup_insert_ne; [by apply H5|]. intros ->. apply Hp, list_elem_of_In, in_map_iff. by exists x.
Qed.

(** Starting stage [c] with no task left. *)
Lemma start_busy s old p spec impls cur c pend sp :
  active s old p spec impls cur pend -> spec !! c = Some sp -> length impls = c -> tasks s = [] ->
  blocks (completed s) (batches old ++ take c (pipe_batches p spec)) ->
  exists s', start_stage p (MkPipe spec impls cur) (Z.of_nat c) s = Some s' /\
    busy s' old p spec (impls ++ [new_StageImpl sp (Z.of_nat c)]) c pend sp (new_StageImpl sp (Z.of_nat c)).
Proof.
  intros Ha Hsp Hl Ht Hd. unfold start_stage. cbn [spec_]. rewrite at_index_nat, Hsp. cbn [mbind option_bind].
  eexists. split; [done|]. split; cbn.
  - by apply (active_set s old p spec impls cur).
  - done.
  - rewrite length_app. cbn. lia.
  - by rewrite lookup_app_r, Hl, Nat.sub_diag by lia.
  - by rewrite Ht, app_nil_l, workers_length.
  - destruct (allocFn_ sp) as [f|]; [|done]. cbn. by rewrite length_replicate.
  - rewrite Ht. apply workers_pipe.
  - rewrite Ht, app_nil_l. intros Hne Hw. apply Hne. apply length_zero_iff_nil.
    by rewrite <- (workers_length p sp), Hw.
  - exists (completed s), []. rewrite app_nil_r. split; [done|]. split; [done|].
    by rewrite Ht, app_nil_l, app_nil_l, workers_keys.
Qed.

(** A waiting pipeline gets its turn. *)
Lemma start_waiting s old q spec pend :
  active s old q spec [] (-1) pend -> spec <> [] -> tasks s = [] -> blocks (completed s) (batches old) ->
  exists s', NextStage_locked q s = Some s' /\ inv s'.
Proof.
  intros Ha Hne Ht Hd. unfold NextStage_locked. rewrite (ac_pipe _ _ _ _ _ _ _ Ha). cbn [mbind option_bind spec_ currentStage_].
  destruct spec as [|sp spec]; [done|]. change (-1 + 1) with (Z.of_nat 0).
  destruct (Z.eqb_spec (Z.of_nat 0) (zlen (sp :: spec))); [cbn in *; lia|].
  destruct (start_busy s old q (sp :: spec) [] (-1) 0 pend sp Ha eq_refl eq_refl Ht) as (s'&E&Hb).
  { cbn [take]. by rewrite app_nil_r. }
  exists s'. split; [done|]. right. do 8 eexists. exact Hb.
Qed.

(** *** Constructing a pipeline *)
Lemma create_inv s spec : inv s -> spec <> [] -> exists s', new_PipeImpl spec s = Some s' /\ inv s'.
Proof.
  intros [Hi|(old&p&sp0&impls&c&pend&sp&impl&Hb)] Hne; unfold new_PipeImpl; cbn [activePipes_].
  - destruct Hi as [H1 H2 H3 H4 H5]. rewrite H1. cbn [Z.ltb Z.compare].
    apply (start_waiting _ (created s) (next_pipe s) spec []); [|done|done|done].
    split; cbn; [lia|done|done|by rewrite lookup_insert_eq|constructor|by repeat constructor; apply not_elem_of_nil| |];
      rewrite H3, insert_empty; intros q [v Hv]; apply lookup_singleton_Some in Hv as [<- _]; [by left|lia].
  - pose proof (bu_active _ _ _ _ _ _ _ _ _ Hb) as [H1 H2 H3 H4 H5 H6 H7 H8]. rewrite H1. cbn [Z.ltb Z.compare Pos.compare Pos.compare_cont].
    eexists. split; [done|]. right. exists old, p, sp0, impls, c, (pend ++ [(next_pipe s, spec)]), sp, impl.
    assert (forall q, is_Some (pipes s !! q) -> q <> next_pipe s) as Hne' by (intros q Hq ->; specialize (H8 _ Hq); lia).
    assert (forall q, is_Some (pipes s !! q) -> <[next_pipe s:=MkPipe spec [] (-1)]> (pipes s) !! q = pipes s !! q) as Hold
      by (intros q Hq; rewrite lookup_insert_ne; [done|]; symmetry; by apply Hne').
    destruct Hb as [_ B2 B3 B4 B5 B6 B7 B8 B9]. split; [|done..]. split; cbn.
    + done.
    + by rewrite H2, <- app_assoc.
    + by rewrite H3, map_app.
    + rewrite Hold; [done|by eexists].
    + apply Forall_app. split.
      * rewrite Forall_forall in *. intros x Hx. destruct (H5 x Hx) as [E1 E2]. split; [|done]. rewrite Hold; [done|by eexists].
      * constructor; [|done]. split; [apply lookup_insert_eq|done].
    + rewrite map_app. cbn [map]. rewrite app_comm_cons. apply list.NoDup_app. split; [done|]. split; [|apply NoDup_singleton].
      intros q Hq Hq'. apply list_elem_of_singleton in Hq'. cbn in Hq'.
      apply list_elem_of_In in Hq as [<-|Hq]; [by apply (Hne' p); [eexists|]|].
      apply in_map_iff in Hq as (x&Ex&Hx). rewrite Forall_forall in H5. destruct (H5 x Hx) as [E1 _].
      apply (Hne' x.1); [by eexists|congruence].
    + intros q [v Hv]. rewrite map_app, in_app_iff. cbn [map In fst].
      apply lookup_insert_Some in Hv as [[<- _]|[_ Hv]]; [tauto|].
      assert (In q (p :: map fst pend)) as [|] by (apply H7; by eexists); tauto.
    + intros q [v Hv]. apply lookup_insert_Some in Hv as [[<- _]|[_ Hv]]; [lia|].
      assert (q < next_pipe s)%positive by (apply H8; by eexists). lia.
Qed.

(** *** Running and finishing an instance *)

(** The running stage with other tasks and another [StageImpl]. *)
Lemma busy_change s old p spec impls c pend sp impl impl' ts done :
  busy s old p spec impls c pend sp impl ->
  remainingInst_ impl' = zlen ts -> length (data_ impl') = length (data_ impl) ->
  Forall (fun w => pImpl_ w = p) ts -> (instances_ sp <> [] -> ts <> []) ->
  (exists dn cur, done = dn ++ cur /\ blocks dn (batches old ++ take c (pipe_batches p spec)) /\
    cur ++ map (key (Z.of_nat c)) ts ≡ₚ stage_batch p (Z.of_nat c) sp) ->
  inv (Mk (<[p:=MkPipe spec (<[c:=impl']> impls) (Z.of_nat c)]> (pipes s)) (next_pipe s) (activePipes_ s)
          (pendPipes_ s) ts (created s) done).
Proof.
  intros [B1 B2 B3 B4 B5 B6 B7 B8 B9] Hr Hd Hp Hs Hdone. right.
  exists old, p, spec, (<[c:=impl']> impls), c, pend, sp, impl'. split; cbn; try done.
  - by apply (active_set s old p spec impls (Z.of_nat c)).
  - by rewrite length_insert.
  - apply list_lookup_insert_eq. lia.
  - intros Ha. rewrite Hd. by apply B6.
Qed.

(** A task is an instance of the running stage that is not done. *)
Lemma task_in_batch s old p spec impls c pend sp impl i w :
  busy s old p spec impls c pend sp impl -> tasks s !! i = Some w ->
  pImpl_ w = p /\ exists n, instNum_ w = Z.of_nat n /\ (n < length (instances_ sp))%nat.
Proof.
  intros Hb Hw. assert (In w (tasks s)) as Hin by (by eapply list_elem_of_In, list_elem_of_lookup_2).
  pose proof (bu_tasks _ _ _ _ _ _ _ _ _ Hb) as Hp. rewrite Forall_forall in Hp. split; [by apply Hp|].
  destruct (bu_done _ _ _ _ _ _ _ _ _ Hb) as (dn&cur&_&_&Hperm).
  assert (In (key (Z.of_nat c) w) (stage_batch p (Z.of_nat c) sp)) as Hk.
  { apply (Permutation_in _ Hperm), in_or_app. right. by apply in_map. }
  apply in_map_iff in Hk as (n&E&Hn). apply in_seq in Hn. exists n. unfold key in E. split; [congruence|lia].
Qed.

Lemma run_inv s i ok x : inv s -> exists s', step (Run i ok x) s = Some s' /\ inv s'.
Proof.
  intros Hinv. cbn [step]. destruct (tasks s !! i) as [w|] eqn:Hw; [|by exists s].
  destruct (returned w) eqn:Er; [by exists s|].
  destruct Hinv as [Hi|(old&p&spec&impls&c&pend&sp&impl&Hb)]; [rewrite (id_tasks _ Hi) in Hw; done|].
  destruct (task_in_batch _ _ _ _ _ _ _ _ _ _ _ Hb Hw) as (Ep&n&En&Hn). rewrite Ep, En.
  pose proof Hb as [Ha B2 B3 B4 B5 B6 B7 B8 B9]. unfold RunInstance. rewrite (ac_pipe _ _ _ _ _ _ _ Ha).
  cbn [mbind option_bind spec_ stageImpls_ currentStage_]. rewrite (at_index_nat spec c), B2. cbn [mbind option_bind].
  set (w' := MkWorker p (task_ w) (Z.of_nat n) ok).
  assert (forall k, map (key k) (<[i:=w']> (tasks s)) = map (key k) (tasks s)) as Hkey.
  { intros k. change (map (key k)) with (fmap (M := list) (key k)). rewrite list_fmap_insert.
    apply list_insert_id. rewrite list_lookup_fmap, Hw. cbn. unfold key. cbn. by rewrite Ep, En. }
  assert (Forall (fun w => pImpl_ w = p) (<[i:=w']> (tasks s))) as Hp' by (apply Forall_insert; done).
  assert (instances_ sp <> [] -> <[i:=w']> (tasks s) <> []) as Hs'.
  { intros Hne E. apply (B8 Hne), length_zero_iff_nil. by rewrite <- (length_insert (tasks s) i w'), E. }
  destruct (allocFn_ sp) as [f|] eqn:Ef.
  - rewrite (at_index_nat impls c), B4. cbn [mbind option_bind]. rewrite (at_index_nat (data_ impl) n).
    destruct (lookup_lt_is_Some_2 (data_ impl) n) as [x0 Hx0]; [by rewrite B6|].
    rewrite Hx0. cbn [mbind option_bind]. eexists. split; [done|]. rewrite !Nat2Z.id.
    apply (busy_change s old p spec impls c pend sp impl); [done|cbn; by rewrite length_insert|cbn; by rewrite length_insert|done|done|].
    cbn [set_pipe completed tasks]. by rewrite Hkey.
  - cbn [mbind option_bind]. eexists. split; [done|].
    unfold set_tasks. replace (pipes s) with (<[p:=MkPipe spec (<[c:=impl]> impls) (Z.of_nat c)]> (pipes s)).
    + apply (busy_change s old p spec impls c pend sp impl); [done|by rewrite length_insert|done|done|done|]. by rewrite Hkey.
    + rewrite list_insert_id by done. apply insert_id, Ha.
Qed.

(** The last instance of a stage is done. *)
Lemma next_stage s old p spec impls c pend sp :
  active s old p spec impls (Z.of_nat c) pend -> spec !! c = Some sp -> length impls = S c -> tasks s = [] ->
  blocks (completed s) (batches old ++ take (S c) (pipe_batches p spec)) ->
  exists s', NextStage p s = Some s' /\ inv s'.
Proof.
  intros Ha Hsp Hl Ht Hd. unfold NextStage. rewrite (ac_pipe _ _ _ _ _ _ _ Ha).
  cbn [mbind option_bind spec_ currentStage_]. replace (Z.of_nat c + 1) with (Z.of_nat (S c)) by lia.
  destruct (Z.eqb_spec (Z.of_nat (S c)) (zlen spec)) as [E|E].
  - rewrite take_all_batches, <- batches_snoc in Hd by lia. destruct Ha as [H1 H2 H3 H4 H5 H6 H7 H8].
    cbn [pendPipes_ delete_pipe]. rewrite H3. destruct pend as [|[q sq] rest]; cbn [map fst].
    + eexists. split; [done|]. left. split; cbn; [lia|done| |done|by rewrite H2].
      apply map_empty. intros q. destruct (decide (p = q)) as [<-|Hne]; [by apply lookup_delete_eq|].
      rewrite lookup_delete_ne by done. destruct (pipes s !! q) eqn:Eq; [|done].
      destruct (H7 q) as [|[]]; [by eexists|done].
    + cbn [map fst] in *. apply list.NoDup_cons in H6 as [Hp Hn]. apply Forall_cons_iff in H5 as [[Hq Hsq] H5].
      apply (start_waiting _ (old ++ [(p, spec)]) q sq rest); [|done|done|done].
      assert (forall r, In r (q :: map fst rest) -> delete p (pipes s) !! r = pipes s !! r) as Hold.
      { intros r Hr. apply lookup_delete_ne. intros ->. by apply Hp, list_elem_of_In. }
      split; cbn; [done|by rewrite H2, <- app_assoc|done|rewrite Hold by (by left); done| |done| |].
      * rewrite Forall_forall in *. intros x Hx. rewrite Hold by (right; by apply in_map). by apply H5.
      * intros r [v Hr]. apply lookup_delete_Some in Hr as [Hne Hr].
        destruct (H7 r) as [|Hin]; [by eexists|done|exact Hin].
      * intros r [v Hr]. apply lookup_delete_Some in Hr as [Hne Hr]. apply H8. by eexists.
  - destruct (lookup_lt_is_Some_2 spec (S c)) as [sp' Hsp']; [apply lookup_lt_Some in Hsp; lia|].
    destruct (start_busy s old p spec impls (Z.of_nat c) (S c) pend sp' Ha Hsp' Hl Ht Hd) as (s'&E'&Hb).
    exists s'. split; [done|]. right. do 8 eexists. exact Hb.
Qed.

Lemma map_delete_perm {A B} (f : A -> B) (l : list A) i a :
  l !! i = Some a -> f a :: map f (delete i l) ≡ₚ map f l.
Proof.
  revert i. induction l as [|b l IH]; intros [|i] H; [done|done|by injection H as ->|].
  change (delete (S i) (b :: l)) with (b :: delete i l). cbn [map].
  rewrite Permutation_swap. by rewrite (IH i H).
Qed.

Lemma finish_inv s i : inv s -> exists s', step (Finish i) s = Some s' /\ inv s'.
Proof.
  intros Hinv. cbn [step]. destruct (tasks s !! i) as [w|] eqn:Hw; [|by exists s].
  destruct (returned w) eqn:Er; [|by exists s].
  destruct Hinv as [Hi|(old&p&spec&impls&c&pend&sp&impl&Hb)]; [rewrite (id_tasks _ Hi) in Hw; done|].
  destruct (task_in_batch _ _ _ _ _ _ _ _ _ _ _ Hb Hw) as (Ep&_). rewrite Ep.
  pose proof Hb as [Ha B2 B3 B4 B5 B6 B7 B8 (dn&cur&Ed&Hbl&Hperm)]. rewrite (ac_pipe _ _ _ _ _ _ _ Ha).
  cbn [mbind option_bind currentStage_]. unfold DoneInstance. cbn [set_completed set_tasks pipes].
  rewrite (ac_pipe _ _ _ _ _ _ _ Ha). cbn [mbind option_bind stageImpls_ currentStage_ spec_].
  rewrite (at_index_nat impls c), B4. cbn [mbind option_bind]. rewrite B5, Nat2Z.id.
  pose proof (length_delete (tasks s) i ltac:(by eexists)) as Hlen.
  pose proof (lookup_lt_Some _ _ _ Hw) as Hlt.
  assert ((cur ++ [(p, Z.of_nat c, instNum_ w)]) ++ map (key (Z.of_nat c)) (delete i (tasks s))
    ≡ₚ stage_batch p (Z.of_nat c) sp) as Hperm'.
  { rewrite <- Hperm, <- app_assoc. apply Permutation_app_head. cbn [app].
    rewrite <- (map_delete_perm (key (Z.of_nat c)) (tasks s) i w Hw). unfold key at 2. by rewrite Ep. }
  destruct (Z.eqb_spec (zlen (tasks s)) 1) as [E1|E1].
  - assert (delete i (tasks s) = []) as Enil by (apply length_zero_iff_nil; lia).
    rewrite Enil in *. cbn [map] in Hperm'. rewrite app_nil_r in Hperm'.
    apply (next_stage _ old p spec (<[c:=MkImpl (data_ impl) (zlen (tasks s) - 1)]> impls) c pend sp);
      [by apply (active_set s old p spec impls (Z.of_nat c))|done|by rewrite length_insert|done|].
    cbn. rewrite Ed, (take_S_batches _ _ _ _ B2), <- app_assoc, !app_assoc, <- (app_assoc dn). by apply blocks_snoc.
  - eexists. split; [done|]. apply (busy_change s old p spec impls c pend sp impl); [done|cbn; lia|done| | |].
    + by apply Forall_delete.
    + intros _ E0. cbn in E0. rewrite E0 in Hlen. cbn in Hlen. lia.
    + exists dn, (cur ++ [(p, Z.of_nat c, instNum_ w)]). cbn. rewrite Ed, app_assoc. done.
Qed.

Lemma step_inv s i : inv s -> has_stage i -> exists s', step i s = Some s' /\ inv s'.
Proof.
  destruct i as [spec|i ok x|i]; intros Hi Hs; [|by apply run_inv|by apply finish_inv].
  apply create_inv; [done|]. by destruct spec.
Qed.

Lemma reachable_inv s : reachable s -> inv s.
Proof.
  induction 1 as [|s i s' _ IH Hs E].
  - left. by split; [..|exists []].
  - destruct (step_inv s i IH Hs) as (s2&E2&H2). congruence.
Qed.

(** ** Claims *)

(** The pipeline, the stage and the number a worker stands for. *)
Definition task_key s (w : StageWorker) : pid * Z * Z :=
  (pImpl_ w, match pipes s !! pImpl_ w with Some pi => currentStage_ pi | None => -1 end, instNum_ w).

Lemma busy_task_key s old p spec impls c pend sp impl :
  busy s old p spec impls c pend sp impl -> map (task_key s) (tasks s) = map (key (Z.of_nat c)) (tasks s).
Proof.
  intros Hb. apply map_ext_in. intros w Hw. pose proof (bu_tasks _ _ _ _ _ _ _ _ _ Hb) as Hp.
  rewrite Forall_forall in Hp. unfold task_key. rewrite (Hp w Hw).
  rewrite (ac_pipe _ _ _ _ _ _ _ (bu_active _ _ _ _ _ _ _ _ _ Hb)). unfold key. by rewrite (Hp w Hw).
Qed.

Lemma busy_split s old p spec impls c pend sp impl :
  busy s old p spec impls c pend sp impl ->
  batches (created s) = (batches old ++ take c (pipe_batches p spec)) ++
    stage_batch p (Z.of_nat c) sp :: (drop (S c) (pipe_batches p spec) ++ batches pend).
Proof.
  intros Hb. rewrite (ac_created _ _ _ _ _ _ _ (bu_active _ _ _ _ _ _ _ _ _ Hb)).
  replace (old ++ (p, spec) :: pend) with ((old ++ [(p, spec)]) ++ pend) by (by rewrite <- app_assoc).
  unfold batches at 1. rewrite map_app, concat_app. fold (batches (old ++ [(p, spec)])). fold (batches pend).
  rewrite batches_snoc, <- !app_assoc. f_equal.
  rewrite <- (take_drop_middle (pipe_batches p spec) c (stage_batch p (Z.of_nat c) sp)) at 1.
  - by rewrite <- app_assoc.
  - unfold pipe_batches. by rewrite list_lookup_imap, (bu_spec _ _ _ _ _ _ _ _ _ Hb).
Qed.

(** C29: pipelines run one after the other, stage by stage.  As long as every pipeline
    has a stage, no step is undefined and no thread waits for a lock it holds,
    however the scheduler interleaves the workers and whatever the callbacks return.
    The instances that are done are the first batches of the work in the order of
    construction, each in some order, and a part of the next one; the tasks are exactly
    the rest of that batch.  So each instance is done once, a callback runs only
    when all stages before its own are done, and it can look at their data. *)
Theorem pipeline_order s :
  reachable s ->
  (forall i, has_stage i -> is_Some (step i s)) /\
  (exists past rest dn cur, batches (created s) = past ++ rest /\
    completed s = dn ++ cur /\ blocks dn past /\
    cur ++ map (task_key s) (tasks s) ≡ₚ hd [] rest) /\
  (forall w stage, In w (tasks s) -> 0 <= stage ->
     exists data, GetStageData (pImpl_ w) stage s = Some data /\
       (data = None <-> (task_key s w).1.2 <= stage)).
Proof.
  intros Hr%reachable_inv. split; [|split].
  - intros i Hi. destruct (step_inv s i Hr Hi) as (s'&->&_). by eexists.
  - destruct Hr as [[_ _ _ H4 H5]|(old&p&spec&impls&c&pend&sp&impl&Hb)].
    + exists (batches (created s)), [], (completed s), []. rewrite !app_nil_r, H4. done.
    + rewrite (busy_split _ _ _ _ _ _ _ _ _ Hb), (busy_task_key _ _ _ _ _ _ _ _ _ Hb).
      destruct (bu_done _ _ _ _ _ _ _ _ _ Hb) as (dn&cur&E&Hbl&Hp).
      eexists _, _, dn, cur. split; [reflexivity|]. done.
  - intros w stage Hw Hst. destruct Hr as [[_ _ _ H4 _]|(old&p&spec&impls&c&pend&sp&impl&Hb)]; [by rewrite H4 in Hw|].
    pose proof (bu_tasks _ _ _ _ _ _ _ _ _ Hb) as Hp. rewrite Forall_forall in Hp. unfold task_key, GetStageData.
    rewrite (Hp w Hw), (ac_pipe _ _ _ _ _ _ _ (bu_active _ _ _ _ _ _ _ _ _ Hb)).
    cbn [mbind option_bind currentStage_ stageImpls_ fst snd].
    destruct (Z.leb_spec (Z.of_nat c) stage); [by eexists|].
    destruct (lookup_lt_is_Some_2 impls (Z.to_nat stage)) as [im Him];
      [rewrite (bu_impls _ _ _ _ _ _ _ _ _ Hb); lia|].
    unfold at_index. destruct (Z.ltb_spec stage 0); [lia|]. rewrite Him. eexists. split; [reflexivity|]. split; [done|lia].
Qed.

(** *** Progress *)
Definition returned_count (l : list StageWorker) : Z := zlen (List.filter returned l).
(** Two steps for each instance that is not done, one when its callback has returned. *)
Definition work s : Z :=
  2 * (zlen (concat (batches (created s))) - zlen (completed s)) - returned_count (tasks s).

Lemma returned_count_bounds l : 0 <= returned_count l <= zlen l.
Proof. unfold returned_count. pose proof (filter_length_le returned l). lia. Qed.
Lemma returned_count_app l k : returned_count (l ++ k) = returned_count l + returned_count k.
Proof. unfold returned_count. rewrite List.filter_app, length_app. lia. Qed.
Lemma returned_count_workers p (sp : StageSpec X) : returned_count (workers p sp) = 0.
Proof.
  unfold returned_count. assert (Forall (fun w => returned w = false) (workers p sp)) as H.
  { apply Forall_lookup. intros i w. unfold workers. rewrite list_lookup_imap.
    destruct (instances_ sp !! i); cbn; [|done]. by intros [= <-]. }
  induction H as [|w l Hw _ IH]; [done|]. cbn. by rewrite Hw.
Qed.
Lemma returned_count_change l i w v : l !! i = Some w ->
  returned_count (<[i:=v]> l) = returned_count l - (if returned w then 1 else 0) + (if returned v then 1 else 0) /\
  returned_count (delete i l) = returned_count l - (if returned w then 1 else 0).
Proof.
  unfold returned_count. revert i. induction l as [|a l IH]; intros [|i] H; [done|done| |].
  - injection H as ->. cbn. destruct (returned w), (returned v); cbn [length]; lia.
  - destruct (IH i H) as [E1 E2]. change (<[S i:=v]> (a :: l)) with (a :: <[i:=v]> l).
    change (delete (S i) (a :: l)) with (a :: delete i l). cbn. destruct (returned a); cbn [length]; lia.
Qed.

Lemma start_stage_frame p pi stage s s' : start_stage p pi stage s = Some s' ->
  created s' = created s /\ completed s' = completed s /\ returned_count (tasks s') = returned_count (tasks s).
Proof.
  unfold start_stage. destruct (at_index _ _); [|done]. intros [= <-]. cbn.
  rewrite returned_count_app, returned_count_workers. do 2 (split; [done|]). lia.
Qed.

Lemma DoneInstance_frame p s s' : DoneInstance p s = Some s' ->
  created s' = created s /\ completed s' = completed s /\ returned_count (tasks s') = returned_count (tasks s).
Proof.
  unfold DoneInstance. destruct (pipes s !! p) as [pi|]; [|done]. cbn [mbind option_bind].
  destruct (at_index _ _) as [impl|]; [|done]. cbn [mbind option_bind]. destruct (_ =? 1); [|by intros [= <-]].
  unfold NextStage. destruct (_ !! p) as [pi'|]; [|done]. cbn [mbind option_bind].
  destruct (_ =? _); [|by intros E%start_stage_frame]. cbn [pendPipes_ delete_pipe set_pipe].
  destruct (pendPipes_ s) as [|q rest]; [by intros [= <-]|]. unfold NextStage_locked.
  destruct (_ !! q) as [qi|]; [|done]. cbn [mbind option_bind]. destruct (_ =? _); [done|]. by intros E%start_stage_frame.
Qed.

Lemma RunInstance_frame p n x s s' : RunInstance p n x s = Some s' ->
  created s' = created s /\ completed s' = completed s /\ tasks s' = tasks s.
Proof.
  unfold RunInstance. destruct (pipes s !! p) as [pi|]; [|done]. cbn [mbind option_bind].
  destruct (at_index (spec_ pi) (currentStage_ pi)) as [ss|]; [|done]. cbn [mbind option_bind].
  destruct (allocFn_ ss); [|by intros [= <-]].
  destruct (at_index (stageImpls_ pi) (currentStage_ pi)) as [im|]; [|done]. cbn [mbind option_bind].
  destruct (at_index (data_ im) n); [|done]. by intros [= <-].
Qed.

Lemma blocks_length l bs : blocks l bs -> zlen l = zlen (concat bs).
Proof.
  intros (ls&->&Hf). induction Hf as [|a b ls bs Hp _ IH]; [done|]. cbn. rewrite !length_app, (Permutation_length Hp). lia.
Qed.

(** Every stage has an instance. *)
Definition full s : Prop := Forall (fun x => Forall (fun sp => instances_ sp <> []) x.2) (created s).

(** C30: every pipeline comes to its end.  When every stage has an instance, the work
    left is a number that is 0 exactly when no pipeline is active; while it is
    positive there is a task that can go on; and every callback that returns true
    and every worker that finishes takes exactly one off it, while one that asks to
    be scheduled again leaves it.  So whatever the order in which the scheduler
    runs the tasks, all pipelines end once every callback has returned true. *)
Theorem pipeline_progress s :
  reachable s -> full s ->
  0 <= work s /\ (work s = 0 <-> activePipes_ s = 0) /\ (0 < work s <-> tasks s <> []) /\
  (forall i w x, tasks s !! i = Some w ->
     if returned w then exists s', step (Finish i) s = Some s' /\ work s' = work s - 1
     else (exists s', step (Run i true x) s = Some s' /\ work s' = work s - 1) /\
          (exists s', step (Run i false x) s = Some s' /\ work s' = work s)).
Proof.
  intros Hr%reachable_inv Hf. pose proof (returned_count_bounds (tasks s)) as Hrc.
  assert (0 <= work s /\ (work s = 0 <-> activePipes_ s = 0) /\ (0 < work s <-> tasks s <> [])) as (W1&W2&W3).
  { unfold work. destruct Hr as [[H1 _ _ H4 H5]|(old&p&spec&impls&c&pend&sp&impl&Hb)].
    - rewrite (blocks_length _ _ H5), H1, H4. unfold returned_count. cbn. intuition lia.
    - rewrite (busy_split _ _ _ _ _ _ _ _ _ Hb), (ac_one _ _ _ _ _ _ _ (bu_active _ _ _ _ _ _ _ _ _ Hb)).
      destruct (bu_done _ _ _ _ _ _ _ _ _ Hb) as (dn&cur&E&Hbl&Hp).
      apply Permutation_length in Hp. rewrite length_app, length_map in Hp.
      rewrite E, concat_app. cbn [concat]. rewrite !length_app. pose proof (blocks_length _ _ Hbl) as Hl.
      assert (tasks s <> []) as Hne.
      { apply (bu_some _ _ _ _ _ _ _ _ _ Hb). unfold full in Hf. rewrite Forall_forall in Hf.
        specialize (Hf (p, spec)). rewrite Forall_forall in Hf. apply Hf.
        - rewrite (ac_created _ _ _ _ _ _ _ (bu_active _ _ _ _ _ _ _ _ _ Hb)). apply in_or_app. right. by left.
        - eapply list_elem_of_In, list_elem_of_lookup_2, (bu_spec _ _ _ _ _ _ _ _ _ Hb). }
      assert (0 < length (tasks s))%nat by (destruct (tasks s); [done|cbn; lia]). intuition lia. }
  do 3 (split; [done|]). intros i w x Hw. destruct (returned w) eqn:Er.
  - destruct (finish_inv s i Hr) as (s'&E&_). exists s'. split; [done|]. cbn [step] in E. rewrite Hw, Er in E.
    destruct (pipes s !! pImpl_ w); [|done]. cbn [mbind option_bind] in E.
    apply DoneInstance_frame in E as (E1&E2&E3). unfold work. rewrite E1, E2, E3.
    cbn [created completed tasks set_completed set_tasks].
    destruct (returned_count_change _ _ _ w Hw) as [_ ->]. rewrite Er, length_app. cbn [length]. lia.
  - split; [destruct (run_inv s i true x Hr) as (s'&E&_)|destruct (run_inv s i false x Hr) as (s'&E&_)];
      (exists s'; split; [done|]; cbn [step] in E; rewrite Hw, Er in E;
       destruct (RunInstance _ _ _ _) as [s1|] eqn:E1; [|done]; apply RunInstance_frame in E1 as (E2&E3&E4);
       injection E as <-; unfold work; cbn [created completed tasks set_tasks]; rewrite E2, E3, E4;
       match goal with |- context [<[i:=?v]> (tasks s)] => destruct (returned_count_change _ _ _ v Hw) as [-> _] end;
       rewrite Er; cbn [returned]; lia).
Qed.

(** A stage without an instance starts no worker, so that nothing ever ends it: the
    pipeline stays active and every later one waits for ever. *)
Theorem pipeline_empty_stage l s :
  activePipes_ s = 1 -> tasks s = [] ->
  exists s', run l s = Some s' /\ activePipes_ s' = 1 /\ tasks s' = [] /\ completed s' = completed s.
Proof.
  revert s. induction l as [|i l IH]; intros s H1 H2; [by exists s|].
  assert (exists s1, step i s = Some s1 /\ activePipes_ s1 = 1 /\ tasks s1 = [] /\ completed s1 = completed s) as (s1&E&H3&H4&H5).
  { destruct i as [spec|i ok x|i]; cbn [step]; [|by exists s; rewrite H2..].
    unfold new_PipeImpl. cbn [activePipes_]. rewrite H1. by eexists. }
  destruct (IH s1 H3 H4) as (s2&E2&H6&H7&H8). exists s2. cbn [run]. rewrite E. cbn. split; [done|].
  do 2 (split; [done|]). congruence.
Qed.
End Proofs.

(** Two stages, a worker that is rescheduled once, and a second pipeline waiting. *)
Definition two_stages : list (StageSpec Z) := [MkStage 7 [0; 1] (Some (fun _ => 0)); MkStage 8 [0] None].
Definition some_run : list (input Z) :=
  [Create two_stages; Create two_stages; Run 1 true 5; Run 0 false 6; Finish 1; Run 0 true 9; Finish 0].
Definition some_state : t Z := default init (run some_run init).

Lemma some_reachable : reachable some_state.
Proof.
  assert (forall l (s s' : t Z), reachable s -> Forall has_stage l -> run l s = Some s' -> reachable s') as H.
  { induction l as [|i l IH]; intros s s' Hs Hl E; [by injection E as <-|]. apply Forall_cons_iff in Hl as [Hi Hl].
    cbn [run] in E. destruct (step i s) as [s1|] eqn:E1; [|done]. apply (IH s1 s'); [|done|done].
    by apply (reach_step s i). }
  apply (H some_run init); [constructor|by repeat constructor|]. vm_compute. reflexivity.
Qed.

Lemma pipeline_order_witness :
  completed some_state = [(1%positive, 0, 1); (1%positive, 0, 0)] /\
  map (task_key some_state) (tasks some_state) = [(1%positive, 1, 0)] /\
  (forall i, has_stage i -> is_Some (step i some_state)).
Proof.
  split; [vm_compute; reflexivity|]. split; [vm_compute; reflexivity|]. apply (pipeline_order some_state some_reachable).
Defined.

Lemma pipeline_progress_witness :
  work some_state = 8 /\ exists s', step (Run 0 true 0) some_state = Some s' /\ work s' = 7.
Proof.
  split; [vm_compute; reflexivity|].
  destruct (pipeline_progress some_state some_reachable) as (_&_&_&H); [vm_compute; repeat constructor; discriminate|].
  destruct (H 0%nat (MkWorker 1%positive (8, 0) 0 false) 0) as [(s'&E1&E2) _]; [vm_compute; reflexivity|].
  exists s'. split; [exact E1|]. rewrite E2. vm_compute. reflexivity.
Defined.

End PipelineClaims.
