(* ===== verification/Server.v ===== *)
(** * The server

    library/cpp/sandesh_server.h and .cc: the indices of connections, accepting,
    finding and removing connections, with [SandeshServerConnection::Destroy] of
    sandesh_connection.cc, which destroys the connection with its state machine.
    What the server needs of a connection is the class
    [Connection], of which the state machine of ServerSM.v is an instance.

    [None] is a failed assertion or undefined behaviour. *)

From stdpp Require Import sorting.
From S2P Require Import Prelude Transport Protocol Xml Message ServerSM.
Local Open Scope Z_scope.

(** ** The bitmap of indices: a set bit is free *)
Module ConnectionIndex.

(** [boost::dynamic_bitset]; an index is an [int], of a bitmap of fewer than 2^31 bits. *)
Abbreviation bitset := (list bool).
Fixpoint find_first (b : bitset) : option nat :=
  match b with
  | [] => None
  | true :: _ => Some O
  | false :: b => S <$> find_first b
  end.
Definition resize_bits (n : nat) (v : bool) (b : bitset) : bitset := resize n v b.

Definition AllocConnectionIndex (b : bitset) : Z * bitset :=
  let '(bit, b) := match find_first b with
                   | Some bit => (bit, b)
                   | None => (length b, resize_bits (length b + 1) true b)
                   end in
  (Z.of_nat bit, <[bit:=false]> b).

(** The loop downwards from the size; [b[i-1]]. *)
Fixpoint trim (i : nat) (b : bitset) : bitset :=
  match i with
  | O => []
  | S j => match b !! j with
           | Some true => trim j b
           | _ => if bool_decide (i <> length b) then resize_bits i false b else b
           end
  end.
Definition FreeConnectionIndex (id : Z) (b : bitset) : option bitset :=
  if (id <? 0) || (zlen b <=? id) then None
  else
    let b := <[Z.to_nat id:=true]> b in
    Some (trim (length b) b).

End ConnectionIndex.

(** ** Connections *)

(** [endpoint]: address and port. *)
Definition endpoint : Type := Z * Z.


(** A connection made at a time, its session, [AcceptSession], what else can
    happen to it, and its destructor. *)
Class Connection (C I : Type) := {
  conn_new : Z -> C;
  conn_session : C -> option ServerSM.sid;
  conn_accept : ServerSM.sid -> C -> option C;
  conn_step : I -> C -> option C;
  conn_destroy : C -> option C;
}.

Module SandeshServer.
Section Server.
Context {C I : Type} `{!Connection C I}.

(** [connection_] holds the connections with their task instances; [next_session]
    names the sessions. *)
Record t := Mk {
  connection_ : gmap endpoint (Z * C);
  conn_bmap_ : ConnectionIndex.bitset;
  next_session : ServerSM.sid;
}.

Definition init : t := Mk ∅ [] 1%positive.

(** [AllocSession]: a new session and its index. *)
Definition AllocSession (s : t) : ServerSM.sid * Z * t :=
  let '(index, b) := ConnectionIndex.AllocConnectionIndex (conn_bmap_ s) in
  (next_session s, index, Mk (connection_ s) b (next_session s + 1)%positive).

Definition AcceptSession (remote : endpoint) (session : ServerSM.sid) (index now : Z) (s : t) : option (bool * t) :=
  match connection_ s !! remote with
  | None =>
      c ← conn_accept session (conn_new now);
      Some (true, Mk (<[remote:=(index, c)]> (connection_ s)) (conn_bmap_ s) (next_session s))
  | Some (instance, c) =>
      match conn_session c with
      | Some _ => Some (false, s)
      | None =>
          c ← conn_accept session c;
          Some (true, Mk (<[remote:=(instance, c)]> (connection_ s)) (conn_bmap_ s) (next_session s))
      end
  end.

(** [Destroy] of a connection: [FreeConnectionIndex] and [RemoveConnection], whose
    [erase] deletes the connection. *)
Definition Destroy (e : endpoint) (s : t) : option t :=
  '(instance, c) ← connection_ s !! e;
  b ← (if negb (instance =? -1) then ConnectionIndex.FreeConnectionIndex instance (conn_bmap_ s)
       else Some (conn_bmap_ s));
  _ ← conn_destroy c;
  Some (Mk (delete e (connection_ s)) b (next_session s)).

(** The entries of [connection_] in the order of the endpoints. *)
Definition entry_le (a b : endpoint * (Z * C)) : Prop :=
  a.1.1 < b.1.1 \/ a.1.1 = b.1.1 /\ a.1.2 <= b.1.2.
#[export] Instance entry_le_dec a b : Decision (entry_le a b).
Proof. unfold entry_le. apply _. Defined.
Definition Compare (peer_addr : endpoint) (p : endpoint * (Z * C)) : bool :=
  if bool_decide (peer_addr = p.1) then false else true.
Definition FindConnection (peer_addr : endpoint) (s : t) : option C :=
  snd ∘ snd <$> List.find (Compare peer_addr) (merge_sort entry_le (map_to_list (connection_ s))).

Definition ConnectionsCount (s : t) : Z := Z.of_nat (size (connection_ s)).

(** What can happen: a peer connects, so that TcpServer makes a session and offers
    it, something happens to a connection, a connection is destroyed. *)
Inductive input :=
  | Connect (remote : endpoint) (now : Z)
  | OnConnection (e : endpoint) (i : I)
  | Delete (e : endpoint).

Definition step (i : input) (s : t) : option t :=
  match i with
  | Connect remote now =>
      let '(session, index, s) := AllocSession s in
      snd <$> AcceptSession remote session index now s
  | OnConnection e i =>
      match connection_ s !! e with
      | None => Some s
      | Some (instance, c) =>
          c ← conn_step i c; Some (Mk (<[e:=(instance, c)]> (connection_ s)) (conn_bmap_ s) (next_session s))
      end
  | Delete e => match connection_ s !! e with None => Some s | Some _ => Destroy e s end
  end.

Fixpoint run (ins : list input) (s : t) : option t :=
  match ins with
  | [] => Some s
  | i :: ins => s ← step i s; run ins s
  end.

Inductive reachable : t -> Prop :=
  | reach_init : reachable init
  | reach_step s i s' : reachable s -> step i s = Some s' -> reachable s'.

End Server.
Arguments t : clear implicits.
Arguments input : clear implicits.

(** [Initialize]: [attempt k] is the result of the [k]th call of
    [TcpServer::Initialize], from 1.  The function has no [return]. *)
Inductive init_result := process_exits | no_value_returned.
Definition kMaxInitRetries : Z := 5.
Fixpoint init_loop (fuel : nat) (attempt : Z -> bool) (count : Z) : Z :=
  match fuel with
  | O => count
  | S fuel =>
      if count <? kMaxInitRetries then
        if attempt (count + 1) then count + 1 else init_loop fuel attempt (count + 1)
      else count + 1
  end.
Definition Initialize (attempt : Z -> bool) : init_result :=
  let count := init_loop 6 attempt 0 in
  if negb (count <? kMaxInitRetries) then process_exits else no_value_returned.

End SandeshServer.

(** ** The state machine of ServerSM.v as a connection *)
Module MachineConnection.
Section Machine.
Context `{!Allocator} `{!Texts}.
Variable header_read : M (TXMLProtocol.t TMemoryBuffer.t) (Z * SandeshHeader).
Variable CreateInstance : list byte -> option (M (TXMLProtocol.t TMemoryBuffer.t) Z).
Variable fuel : nat.
Variable server_is_sandesh : bool.
Variable answers : list ServerSM.server_call -> bool.
Variable Create : list byte -> option SandeshMessage.
Variable flow_collection_disabled : bool.
Abbreviation sm_step := (ServerSM.step header_read CreateInstance fuel server_is_sandesh answers Create
                           flow_collection_disabled).

(** The constructor followed by [Initialize]; the session accepted; sessions come
    only from the server, and [Initialize] is called once. *)
Definition machine_new (now : Z) : ServerSM.t := ServerSM.Initialize (ServerSM.init now).
Definition machine_accept (s : ServerSM.sid) (c : ServerSM.t) : option ServerSM.t := sm_step (ServerSM.InAccept s) c.
Definition machine_step (i : ServerSM.input) (c : ServerSM.t) : option ServerSM.t :=
  match i with
  | ServerSM.InAccept _ | ServerSM.InInitialize => Some c
  | i => sm_step i c
  end.
Definition machine : Connection ServerSM.t ServerSM.input :=
  {| conn_new := machine_new; conn_session := ServerSM.conn_session_;
     conn_accept := machine_accept; conn_step := machine_step; conn_destroy := ServerSM.destroy |}.

End Machine.
End MachineConnection.
