(* ===== verification/SandeshServerClaims.v ===== *)
(** * What the server guarantees

    The bitmap of connection indices as a finite set of used indices; the task
    instances of the connections over every history of the server; what the server
    leaks and finds; and the composition of the server with the state machines of
    its connections. *)

From stdpp Require Import sorting.
From S2P Require Import Prelude Transport Protocol Xml XmlClaims Message ServerSM ServerSMSpec ServerSMClaims Server.
Local Open Scope Z_scope.

(** ** The bitmap of indices *)
Module IndexSpec.
Import ConnectionIndex.

(** An index in use, and the bitmaps without free bits at the end. *)
Definition in_use (b : bitset) (id : Z) : Prop := 0 <= id /\ b !! Z.to_nat id = Some false.
Definition canonical (b : bitset) : Prop := b !! pred (length b) <> Some true.

Lemma in_use_nat b i : in_use b (Z.of_nat i) <-> b !! i = Some false.
Proof. unfold in_use. rewrite Nat2Z.id. naive_solver lia. Qed.
Lemma in_use_bounds b id : in_use b id -> 0 <= id < zlen b.
Proof. intros [H ?%lookup_lt_Some]. lia. Qed.

Lemma find_first_Some b i :
  find_first b = Some i -> b !! i = Some true /\ forall j, (j < i)%nat -> b !! j = Some false.
Proof.
  revert i. induction b as [|[] b IH]; intros i; cbn [find_first]; [done| |].
  - intros [= <-]. split; [done|]. lia.
  - intros (k&[H Hlt]%IH&->)%fmap_Some. split; [done|]. intros [|j] ?; [done|]. cbn. apply Hlt. lia.
Qed.
Lemma find_first_None b : find_first b = None -> forall j, (j < length b)%nat -> b !! j = Some false.
Proof.
  induction b as [|[] b IH]; cbn [find_first]; [cbn; lia|done|].
  intros H%fmap_None [|j] ?; cbn in *; [done|]. apply (IH H). lia.
Qed.

(** A bitmap without free bits at the end is determined by the indices in use. *)
Lemma canonical_length b b' :
  canonical b -> (forall i, b !! i = Some false -> b' !! i = Some false) -> (length b <= length b')%nat.
Proof.
  unfold canonical. intros Hc Hu. destruct (decide (b = [])) as [->|Hne]; [cbn; lia|].
  destruct (lookup_lt_is_Some_2 b (pred (length b))) as [[] E]; [destruct b; cbn; [done|lia]|done|].
  apply Hu, lookup_lt_Some in E. lia.
Qed.
Lemma canonical_unique b b' :
  canonical b -> canonical b' -> (forall i, b !! i = Some false <-> b' !! i = Some false) -> b = b'.
Proof.
  intros Hc Hc' Hu. assert (Hl : length b = length b').
  { apply Nat.le_antisymm; apply canonical_length; naive_solver. }
  apply list_eq_same_length with (length b'); [done|done|]. intros i x y Hi Hx Hy.
  destruct (Hu i) as [H1 H2]. destruct x, y; [done|rewrite H2 in Hx by done|rewrite H1 in Hy by done|]; congruence.
Qed.

Lemma Alloc_spec b :
  canonical b ->
  let '(id, b') := AllocConnectionIndex b in
  canonical b' /\ ~ in_use b id /\ 0 <= id /\ (forall j, 0 <= j < id -> in_use b j) /\
  (forall j, in_use b' j <-> j = id \/ in_use b j).
Proof.
  intros Hc. unfold AllocConnectionIndex.
  assert (Hn : forall (bit : nat) (bm : bitset),
    (bit < length bm)%nat -> (forall j, (j < bit)%nat -> b !! j = Some false) -> b !! bit <> Some false ->
    (forall j, j <> bit -> bm !! j = b !! j) -> canonical (<[bit:=false]> bm) ->
    let '(id, b') := (Z.of_nat bit, <[bit:=false]> bm) in
    canonical b' /\ ~ in_use b id /\ 0 <= id /\ (forall j, 0 <= j < id -> in_use b j) /\
    (forall j, in_use b' j <-> j = id \/ in_use b j)).
  { intros bit bm Hlen Hlt Hb Hbm Hcan. split; [done|]. rewrite in_use_nat. split; [done|].
    split; [lia|]. split; [intros j ?; split; [lia|]; apply Hlt; lia|]. intros j. unfold in_use.
    destruct (decide (j = Z.of_nat bit)) as [->|Hne].
    - rewrite Nat2Z.id, list_lookup_insert_eq by done. split; [by left|]. split; [lia|done].
    - destruct (decide (0 <= j)); [|naive_solver lia].
      rewrite list_lookup_insert_ne by lia. rewrite Hbm by lia. naive_solver. }
  destruct (find_first b) as [bit|] eqn:E.
  - apply find_first_Some in E as [Hb Hlt]. apply Hn; [by eapply lookup_lt_Some|done|congruence|done|].
    unfold canonical in *. rewrite length_insert. destruct (decide (bit = pred (length b))) as [<-|Hne].
    + rewrite list_lookup_insert_eq by (by eapply lookup_lt_Some). done.
    + by rewrite list_lookup_insert_ne.
  - pose proof (find_first_None b E) as Hall. unfold resize_bits.
    assert (Hr : resize (length b + 1) true b = b ++ [true]).
    { rewrite resize_ge by lia. by replace (length b + 1 - length b)%nat with 1%nat by lia. }
    rewrite Hr. apply Hn.
    + rewrite length_app. cbn. lia.
    + done.
    + rewrite lookup_ge_None_2 by lia. done.
    + intros j Hj. destruct (decide (j < length b)%nat); [by apply lookup_app_l|].
      rewrite !lookup_ge_None_2; [done|lia|]. rewrite length_app. cbn. lia.
    + unfold canonical. rewrite insert_app_r_alt, Nat.sub_diag by lia. cbn [insert list_insert].
      rewrite length_app. cbn [length]. rewrite lookup_app_r by lia.
      by replace (pred (length b + 1) - length b)%nat with O by lia.
Qed.

(** The loop drops the free bits at the end. *)
Lemma trim_spec i b :
  (i <= length b)%nat -> (forall j, (i <= j)%nat -> b !! j <> Some false) ->
  canonical (trim i b) /\ forall j, trim i b !! j = Some false <-> b !! j = Some false.
Proof.
  induction i as [|i IH]; intros Hi Hfree; cbn [trim].
  - split; [done|]. intros j. split; [done|]. intros H. by destruct (Hfree j); [lia|].
  - destruct (lookup_lt_is_Some_2 b i) as [[] E]; [lia| |]; rewrite E.
    { apply IH; [lia|]. intros j Hj. destruct (decide (j = i)) as [->|]; [congruence|]. apply Hfree. lia. }
    case_bool_decide as Hne.
    + unfold resize_bits. rewrite resize_le by lia. split.
      * unfold canonical. rewrite length_take, Nat.min_l by lia. cbn [pred].
        rewrite lookup_take_lt by lia. congruence.
      * intros j. destruct (decide (j < S i)%nat); [by rewrite lookup_take_lt|].
        rewrite lookup_take_ge by lia. split; [done|]. intros H. by destruct (Hfree j); [lia|].
    + split; [|done]. unfold canonical. rewrite <- Hne. cbn. congruence.
Qed.

Lemma Free_spec b id :
  in_use b id ->
  exists b', FreeConnectionIndex id b = Some b' /\ canonical b' /\
    forall j, in_use b' j <-> in_use b j /\ j <> id.
Proof.
  intros Hu. pose proof (in_use_bounds b id Hu) as Hb. unfold FreeConnectionIndex.
  replace (id <? 0) with false by lia. replace (zlen b <=? id) with false by lia. cbn [orb].
  destruct (trim_spec (length (<[Z.to_nat id:=true]> b)) (<[Z.to_nat id:=true]> b)) as [Hc Ht]; [lia| |].
  { intros j Hj. by rewrite lookup_ge_None_2. }
  eexists. split; [done|]. split; [done|]. intros j. unfold in_use. rewrite Ht.
  destruct (decide (0 <= j)) as [Hj|]; [|naive_solver].
  destruct (decide (j = id)) as [->|Hne].
  - rewrite list_lookup_insert_eq by lia. naive_solver.
  - rewrite list_lookup_insert_ne by lia. naive_solver.
Qed.

(** C13: the bitmap implements a finite set of indices in use.  From a bitmap without
    free bits at its end, AllocConnectionIndex adds the least index not in use and
    FreeConnectionIndex removes the one it is given, both leaving such a bitmap; and
    the set determines the bitmap, so that its size is that of the largest index in
    use and not of the history. *)
Theorem index_set b :
  canonical b ->
  (let '(id, b') := AllocConnectionIndex b in
   canonical b' /\ ~ in_use b id /\ 0 <= id /\ (forall j, 0 <= j < id -> in_use b j) /\
   (forall j, in_use b' j <-> j = id \/ in_use b j)) /\
  (forall id, in_use b id ->
   exists b', FreeConnectionIndex id b = Some b' /\ canonical b' /\
     forall j, in_use b' j <-> in_use b j /\ j <> id) /\
  (forall b', canonical b' -> (forall j, in_use b j <-> in_use b' j) -> b = b').
Proof.
  intros Hc. split; [by apply Alloc_spec|]. split; [apply Free_spec|].
  intros b' Hc' Hu. apply canonical_unique; [done..|]. intros i. rewrite <- !in_use_nat. apply Hu.
Qed.
Lemma index_set_witness :
  exists b', FreeConnectionIndex 2 [false; true; false] = Some b' /\ canonical b' /\
    forall j, in_use b' j <-> in_use [false; true; false] j /\ j <> 2.
Proof. apply (index_set [false; true; false]); by vm_compute. Defined.

(** The indices given after three connections when the first two have gone. *)
Example index_reuse :
  let '(i0, b) := AllocConnectionIndex [] in
  let '(i1, b) := AllocConnectionIndex b in
  let '(i2, b) := AllocConnectionIndex b in
  (i0, i1, i2) = (0, 1, 2) /\
  (b ← FreeConnectionIndex 0 b; b ← FreeConnectionIndex 1 b; Some (b, AllocConnectionIndex b)) =
    Some ([true; true; false], (0, [false; true; false])) /\
  (b ← FreeConnectionIndex 1 b; FreeConnectionIndex 2 b) = Some [false].
Proof. by vm_compute. Qed.

End IndexSpec.

(** ** The server over any connection *)
Module ServerProps.
Import IndexSpec SandeshServer.

Section Server.
Context {C I : Type} `{!Connection C I}.
Implicit Types (s : t C) (e : endpoint) (c : C).

(** The task instances of connections are in use and distinct. *)
Definition inv s : Prop :=
  canonical (conn_bmap_ s) /\
  (forall e id c, connection_ s !! e = Some (id, c) -> in_use (conn_bmap_ s) id) /\
  (forall e e' id c c', connection_ s !! e = Some (id, c) -> connection_ s !! e' = Some (id, c') -> e = e').
(** An index in use that no connection has. *)
Definition orphan (id : Z) s : Prop :=
  in_use (conn_bmap_ s) id /\ forall e c, connection_ s !! e <> Some (id, c).

Lemma AllocSession_spec s session id s' :
  inv s -> AllocSession s = (session, id, s') ->
  inv s' /\ connection_ s' = connection_ s /\ orphan id s' /\ (forall j, orphan j s -> orphan j s').
Proof.
  intros (Hc&Hu&Hd). unfold AllocSession.
  pose proof (Alloc_spec (conn_bmap_ s) Hc) as Ha.
  destruct (ConnectionIndex.AllocConnectionIndex _) as [id' b]. intros [= <- <- <-].
  destruct Ha as (Hcb&Hn&_&_&Hub). unfold inv, orphan. cbn [connection_ conn_bmap_].
  split_and!; try done.
  - intros e i c Hl. apply Hub. right. by eapply Hu.
  - apply Hub. by left.
  - intros e c Hl. by apply Hn, (Hu e _ c).
  - intros j [Hj Ho]. split; [|done]. apply Hub. by right.
Qed.

(** A connection put in place, with the instance it had or one nobody had. *)
Lemma inv_insert s e id c n :
  inv s -> (exists c0, connection_ s !! e = Some (id, c0)) \/ orphan id s ->
  inv (Mk (<[e:=(id, c)]> (connection_ s)) (conn_bmap_ s) n).
Proof.
  intros (Hc&Hu&Hd) He. unfold inv. cbn [connection_ conn_bmap_]. split; [done|]. split.
  - intros e' i c'. rewrite lookup_insert_Some. intros [[<- [= <- <-]]|[_ Hl]]; [|by eapply Hu].
    destruct He as [[c0 Hl]|[Ho _]]; [by eapply Hu|done].
  - assert (Hne : forall e' c', connection_ s !! e' = Some (id, c') -> e' <> e -> False).
    { intros e' c' Hl Hne. destruct He as [[c0 Hl0]|[_ Ho]]; [|by eapply Ho]. by eapply Hne, Hd. }
    intros e1 e2 i c1 c2. rewrite !lookup_insert_Some.
    intros [[<- H1]|[Hn1 Hl1]] [[<- H2]|[Hn2 Hl2]]; simplify_eq; naive_solver.
Qed.
Lemma orphan_insert s e id j c n :
  (exists c0, connection_ s !! e = Some (id, c0)) \/ j <> id -> orphan j s ->
  orphan j (Mk (<[e:=(id, c)]> (connection_ s)) (conn_bmap_ s) n).
Proof.
  intros He [Hu Ho]. split; [done|]. cbn [connection_]. intros e' c'. rewrite lookup_insert_Some.
  intros [[<- [= <- <-]]|[_ Hl]]; [|by eapply Ho]. destruct He as [[c0 Hl]|]; [by eapply Ho|done].
Qed.

(** Destroying a connection depends on its destructor only. *)
Lemma Destroy_spec s e id c :
  inv s -> connection_ s !! e = Some (id, c) ->
  match conn_destroy c with
  | Some _ => exists s', Destroy e s = Some s' /\ inv s' /\ connection_ s' = delete e (connection_ s) /\
      (forall j, in_use (conn_bmap_ s') j <-> in_use (conn_bmap_ s) j /\ j <> id)
  | None => Destroy e s = None
  end.
Proof.
  intros (Hc&Hu&Hd) Hl. unfold Destroy. rewrite Hl. cbn [mbind option_bind].
  pose proof (Hu e id c Hl) as Hid. pose proof (in_use_bounds _ _ Hid).
  replace (id =? -1) with false by lia. cbn [negb].
  destruct (Free_spec _ _ Hid) as (b&->&Hcb&Hb). cbn [mbind option_bind].
  destruct (conn_destroy c); cbn [mbind option_bind]; [|done].
  eexists. split; [done|]. unfold inv. cbn [connection_ conn_bmap_]. split_and!; try done.
  - intros e' i c' [Hne Hl']%lookup_delete_Some. apply Hb. split; [by eapply Hu|].
    intros ->. by apply Hne, (Hd e e' id c c').
  - intros e1 e2 i c1 c2 [_ H1]%lookup_delete_Some [_ H2]%lookup_delete_Some. by eapply Hd.
Qed.

(** [AcceptSession] with the index of the session offered, which is an orphan. *)
Lemma AcceptSession_spec s e session id now r s' :
  inv s -> orphan id s -> AcceptSession e session id now s = Some (r, s') ->
  inv s' /\ (forall j, orphan j s -> j <> id \/ is_Some (connection_ s !! e) -> orphan j s').
Proof.
  intros Hi Ho. unfold AcceptSession. destruct (connection_ s !! e) as [[inst c]|] eqn:El.
  - destruct (conn_session c); [by intros [= <- <-]|].
    destruct (conn_accept session c) as [c'|]; [|done]. cbn [mbind option_bind]. intros [= <- <-].
    split; [apply inv_insert; [done|]; left; by exists c|].
    intros j Hj _. apply orphan_insert; [|done]. left. by exists c.
  - destruct (conn_accept session (conn_new now)) as [c'|]; [|done]. cbn [mbind option_bind].
    intros [= <- <-]. split; [apply inv_insert; [done|by right]|].
    intros j Hj [Hne|[? [=]]]. apply orphan_insert; [by right|done].
Qed.

Lemma step_spec i s s' :
  inv s -> step i s = Some s' -> inv s' /\ forall j, orphan j s -> orphan j s'.
Proof.
  intros Hi. destruct i as [remote now|e i|e]; cbn [step].
  - destruct (AllocSession s) as [[session id] s1] eqn:Ea.
    destruct (AllocSession_spec _ _ _ _ Hi Ea) as (Hi1&Hc1&Ho&Hold).
    intros ([r s2]&E&->)%fmap_Some. destruct (AcceptSession_spec _ _ _ _ _ _ _ Hi1 Ho E) as [Hi2 Hk].
    split; [done|]. intros j Hj. apply Hk; [by apply Hold|]. left. intros ->.
    pose proof (Alloc_spec (conn_bmap_ s) (proj1 Hi)) as Ha. revert Ea. unfold AllocSession.
    destruct (ConnectionIndex.AllocConnectionIndex _) as [id' b]. intros [= <- <- <-].
    by apply (proj1 (proj2 Ha)), Hj.
  - destruct (connection_ s !! e) as [[inst c]|] eqn:El; [|by intros [= <-]].
    destruct (conn_step i c) as [c'|]; [|done]. cbn [mbind option_bind]. intros [= <-].
    split; [apply inv_insert|intros j; apply orphan_insert]; eauto.
  - destruct (connection_ s !! e) as [[inst c]|] eqn:El; [|by intros [= <-]].
    pose proof (Destroy_spec _ _ _ _ Hi El) as Hds. destruct (conn_destroy c); [|by rewrite Hds].
    destruct Hds as (s1&->&Hi1&Hc1&Hb). intros [= <-]. split; [done|].
    intros j [Hj Ho]. split.
    + apply Hb. split; [done|]. intros ->. by eapply Ho.
    + intros e' c'. rewrite Hc1, lookup_delete_Some. intros [_ ?]. by eapply Ho.
Qed.

Lemma inv_reached s : reachable s -> inv s.
Proof.
  induction 1 as [|s i s' _ IH E]; [|by eapply step_spec].
  split; [done|]. split; intros ?; by rewrite ?lookup_empty.
Qed.
Lemma run_orphan ins s s' j : inv s -> run ins s = Some s' -> orphan j s -> orphan j s'.
Proof.
  revert s. induction ins as [|i ins IH]; cbn [run]; intros s Hi; [by intros [= <-]|].
  destruct (step i s) as [s1|] eqn:E; [|done]. cbn [mbind option_bind].
  destruct (step_spec _ _ _ Hi E) as [Hi1 Ho]. intros E' Hj. eapply IH; [done..|]. by apply Ho.
Qed.

Lemma run_reached ins s s' : reachable s -> run ins s = Some s' -> reachable s'.
Proof.
  revert s. induction ins as [|i ins IH]; cbn [run]; intros s Hr; [by intros [= <-]|].
  destruct (step i s) as [s1|] eqn:E; [|done]. cbn [mbind option_bind]. apply IH. by eapply reach_step.
Qed.

(** C23: connections and task instances over every history of the server: no free
    index is at the end of the bitmap, every connection's task instance is an index
    in use, no two connections share one; and destroying a connection is defined
    exactly if its destructor is, and then removes it and frees its index and no
    other. *)
Theorem server_instances s :
  reachable s ->
  canonical (conn_bmap_ s) /\
  (forall e id c, connection_ s !! e = Some (id, c) -> in_use (conn_bmap_ s) id) /\
  (forall e e' id c c',
     connection_ s !! e = Some (id, c) -> connection_ s !! e' = Some (id, c') -> e = e') /\
  (forall e id c, connection_ s !! e = Some (id, c) ->
     match conn_destroy c with
     | Some _ => exists s', Destroy e s = Some s' /\ connection_ s' = delete e (connection_ s) /\
         forall j, in_use (conn_bmap_ s') j <-> in_use (conn_bmap_ s) j /\ j <> id
     | None => Destroy e s = None
     end).
Proof.
  intros Hi%inv_reached. pose proof Hi as (Hc&Hu&Hd). split_and!; [done..|].
  intros e id c Hl. pose proof (Destroy_spec _ _ _ _ Hi Hl) as Hds. destruct (conn_destroy c); [|done].
  destruct Hds as (s'&?&_&?&?). by exists s'.
Qed.

(** An index leaks whenever a peer connects from an endpoint that has a
    connection, be the new session rejected or taken over by that connection: the
    index made for it stays in use in every later state, and no connection ever has
    it, so nothing frees it. *)
Theorem server_index_leak s e now session id s0 s1 ins s2 :
  reachable s -> is_Some (connection_ s !! e) -> AllocSession s = (session, id, s0) ->
  step (Connect e now) s = Some s1 -> run ins s1 = Some s2 ->
  in_use (conn_bmap_ s2) id /\ forall e' c, connection_ s2 !! e' <> Some (id, c).
Proof.
  intros Hi%inv_reached He Ea E Er. pose proof (step_spec _ _ _ Hi E) as [Hi1 _].
  apply (run_orphan ins s1); [done..|]. revert E. cbn [step]. rewrite Ea.
  destruct (AllocSession_spec _ _ _ _ Hi Ea) as (Hi0&Hc0&Ho&_).
  intros ([r s']&E&->)%fmap_Some. eapply AcceptSession_spec; [done..|]. right. by rewrite Hc0.
Qed.

#[local] Instance entry_le_total : Total (@entry_le C).
Proof. intros [[a p] x] [[b q] y]. unfold entry_le. cbn. lia. Qed.
#[local] Instance entry_le_trans : Transitive (@entry_le C).
Proof. intros [[a p] x] [[b q] y] [[d r] z]. unfold entry_le. cbn. lia. Qed.

Lemma find_sorted (f : endpoint * (Z * C) -> bool) l p :
  StronglySorted entry_le l -> List.find f l = Some p ->
  p ∈ l /\ f p = true /\ forall q, q ∈ l -> f q = true -> q = p \/ entry_le p q.
Proof.
  induction 1 as [|x l Hs IH Hall]; [done|]. cbn [List.find]. destruct (f x) eqn:Ef.
  - intros [= <-]. split; [by left|]. split; [done|]. intros q [->|Hq]%elem_of_cons _; [by left|].
    right. rewrite list.Forall_forall in Hall. by apply Hall.
  - intros (Hin&Hf&Hle)%IH. split; [by right|]. split; [done|].
    intros q [->|Hq]%elem_of_cons Hq'; [congruence|by apply Hle].
Qed.

(** FindConnection does not find the connection of a peer: [Compare] being
    inverted, it returns the connection of the least endpoint other than the peer's,
    and NULL exactly if there is no connection but the peer's own. *)
Theorem find_connection_other s e :
  match FindConnection e s with
  | None => forall e' v, connection_ s !! e' = Some v -> e' = e
  | Some c =>
      exists e' id, e' <> e /\ connection_ s !! e' = Some (id, c) /\
        forall e2 v, connection_ s !! e2 = Some v -> e2 <> e ->
          e' = e2 \/ e'.1 < e2.1 \/ e'.1 = e2.1 /\ e'.2 <= e2.2
  end.
Proof.
  unfold FindConnection. set (l := merge_sort _ _).
  assert (Hl : forall p, p ∈ l <-> connection_ s !! p.1 = Some p.2).
  { intros [e' v]. unfold l. rewrite merge_sort_Permutation, elem_of_map_to_list. done. }
  destruct (List.find (Compare e) l) as [[e' [id c]]|] eqn:E; cbn [fmap option_fmap option_map].
  - apply find_sorted in E as (Hin&Hf&Hle); [|apply StronglySorted_merge_sort; apply _].
    exists e', id. unfold Compare in Hf. case_bool_decide as Hne; [done|]. cbn in Hne.
    split; [congruence|]. split; [by apply (Hl (e', (id, c)))|]. intros e2 v H2 Hne2.
    destruct (Hle (e2, v)) as [[= <- _]|Hle2]; [by apply Hl| |by left|right; apply Hle2].
    unfold Compare. by case_bool_decide.
  - intros e' v Hv. assert (Hin : (e', v) ∈ l) by by apply Hl.
    rewrite list_elem_of_In in Hin. apply (find_none _ _ E) in Hin. unfold Compare in Hin.
    by case_bool_decide.
Qed.

End Server.

(** [Initialize] ends the process unless one of the first four attempts succeeds:
    the fifth counts for nothing. *)
Theorem initialize_attempts attempt :
  Initialize attempt = process_exits <-> forall k, 1 <= k <= 4 -> attempt k = false.
Proof.
  assert (Hl : Initialize attempt = if attempt 1 || attempt 2 || attempt 3 || attempt 4
                                    then no_value_returned else process_exits).
  { unfold Initialize. vm_compute init_loop.
    destruct (attempt 1), (attempt 2), (attempt 3), (attempt 4), (attempt 5); done. }
  rewrite Hl. split.
  - destruct (attempt 1) eqn:E1, (attempt 2) eqn:E2, (attempt 3) eqn:E3, (attempt 4) eqn:E4; try done.
    intros _ k Hk. by assert (k = 1 \/ k = 2 \/ k = 3 \/ k = 4) as [-> | [-> | [-> | ->]]] by lia.
  - intros H. by rewrite !H by lia.
Qed.

End ServerProps.

(** ** The server with its state machines *)
Module ServerComposition.
Import IndexSpec SandeshServer MachineConnection.

Section Machines.
Context `{!Allocator} `{!Texts}.
Variable header_read : M (TXMLProtocol.t TMemoryBuffer.t) (Z * SandeshHeader).
Variable CreateInstance : list byte -> option (M (TXMLProtocol.t TMemoryBuffer.t) Z).
Variable fuel : nat.
Variable server_is_sandesh : bool.
Variable answers : list ServerSM.server_call -> bool.
Variable Create : list byte -> option SandeshMessage.
Variable flow_collection_disabled : bool.
#[local] Instance this_machine : Connection ServerSM.t ServerSM.input :=
  machine header_read CreateInstance fuel server_is_sandesh answers Create flow_collection_disabled.
Abbreviation sm_reachable := (ServerSM.reachable header_read CreateInstance fuel server_is_sandesh answers
                                Create flow_collection_disabled).
Abbreviation stuck := (ServerSpec.stuck header_read CreateInstance fuel server_is_sandesh Create
                         flow_collection_disabled).
Abbreviation sm_step := (ServerSM.step header_read CreateInstance fuel server_is_sandesh answers Create
                           flow_collection_disabled).
Abbreviation srv := (SandeshServer.t ServerSM.t).

(** Every connection of the server is in a state its machine reaches. *)
Definition all_reachable (s : srv) : Prop :=
  map_Forall (fun _ p => sm_reachable p.2) (connection_ s).

Lemma machine_new_reachable now : sm_reachable (machine_new now).
Proof. by apply (ServerSM.reachable_step _ _ _ _ _ _ _ ServerSM.InInitialize (ServerSM.init now)); [constructor|]. Qed.
Lemma machine_accept_ok session c :
  sm_reachable c -> exists c', conn_accept session c = Some c' /\ sm_reachable c'.
Proof.
  intros Hc. destruct (ServerSpec.inv_step header_read CreateInstance fuel server_is_sandesh answers Create
    flow_collection_disabled (ServerSM.InAccept session) c) as [(c'&E&_)|[_ []]].
  { by eapply ServerSpec.inv_reachable. }
  exists c'. split; [done|]. by eapply ServerSM.reachable_step.
Qed.
Lemma machine_step_ok i c :
  sm_reachable c ->
  (exists c', conn_step i c = Some c' /\ sm_reachable c' /\ ~ stuck i c) \/ (conn_step i c = None /\ stuck i c).
Proof.
  intros Hc.
  assert (Hs : (exists c', sm_step i c = Some c' /\ sm_reachable c' /\ ~ stuck i c) \/
    (sm_step i c = None /\ stuck i c)).
  { destruct (ServerSpec.inv_step header_read CreateInstance fuel server_is_sandesh answers Create
      flow_collection_disabled i c) as [(c'&E&_&Hn)|Hs]; [by eapply ServerSpec.inv_reachable| |by right].
    left. exists c'. split; [done|]. split; [by eapply ServerSM.reachable_step|done]. }
  destruct i; try exact Hs; left; exists c; (split; [done|]); (split; [done|]); intros [].
Qed.

(** A reachable machine is destroyed unless it holds a session. *)
Lemma machine_destroy_ok c : sm_reachable c -> conn_destroy c = None <-> ServerSM.session_ c <> None.
Proof.
  intros [(_&_&_&_&_&_&Hd) _]%ServerSpec.inv_reachable. cbn [conn_destroy this_machine machine].
  unfold ServerSM.destroy. rewrite Hd. cbn [ServerSM.session_ ServerSM.set_queue ServerSM.set_deleted].
  by destruct (ServerSM.session_ c).
Qed.
Lemma shutdown_no_session c c' : ServerSM.DeleteActor_Shutdown c = Some c' -> ServerSM.session_ c' = None.
Proof.
  unfold ServerSM.DeleteActor_Shutdown, ServerSM.clear_session, ServerSM.on_session.
  destruct (ServerSM.session_ c) eqn:E; [|by intros [= <-]].
  destruct (ServerSM.sessions c !! _); [|done]. cbn [mbind option_bind]. case_match; [|done]. by intros [= <-].
Qed.

(** The undefined inputs: a connection's own, and the destruction of a connection
    whose machine holds a session. *)
Definition bad (i : input ServerSM.input) (s : srv) : Prop :=
  match i with
  | Connect _ _ => False
  | OnConnection e j => exists id c, connection_ s !! e = Some (id, c) /\ stuck j c
  | Delete e => exists id c, connection_ s !! e = Some (id, c) /\ ServerSM.session_ c <> None
  end.

(** A step of the server, from connections that are reachable. *)
Lemma machines_step i s :
  ServerProps.inv s -> all_reachable s ->
  (exists s', step i s = Some s' /\ all_reachable s' /\ ~ bad i s) \/ (step i s = None /\ bad i s).
Proof.
  intros Hi Ha. destruct i as [e now|e j|e]; cbn [step bad].
  - left. destruct (AllocSession s) as [[session id] s1] eqn:Ea.
    destruct (ServerProps.AllocSession_spec _ _ _ _ Hi Ea) as (_&Hc&_&_).
    unfold AcceptSession. rewrite Hc. destruct (connection_ s !! e) as [[inst c]|] eqn:El.
    + destruct (conn_session c); [exists s1; split; [done|]; split; [|tauto]; by unfold all_reachable; rewrite Hc|].
      destruct (machine_accept_ok session c) as (c'&->&Hc'); [by apply (Ha e (inst, c))|].
      eexists. split; [done|]. split; [|tauto]. by apply map_Forall_insert_2.
    + destruct (machine_accept_ok session (machine_new now)) as (c'&E&Hc'); [apply machine_new_reachable|].
      change (conn_new now) with (machine_new now). rewrite E.
      eexists. split; [done|]. split; [|tauto]. by apply map_Forall_insert_2.
  - destruct (connection_ s !! e) as [[inst c]|] eqn:El;
      [|left; exists s; split; [done|]; split; [done|]; by intros (?&?&?&_)].
    destruct (machine_step_ok j c) as [(c'&->&Hc'&Hn)|[-> Hs]]; [by apply (Ha e (inst, c))| |].
    + left. eexists. split; [done|]. split; [by apply map_Forall_insert_2|]. by intros (?&?&[= <- <-]&?).
    + right. split; [done|]. by exists inst, c.
  - destruct (connection_ s !! e) as [[inst c]|] eqn:El;
      [|left; exists s; split; [done|]; split; [done|]; by intros (?&?&?&_)].
    pose proof (ServerProps.Destroy_spec _ _ _ _ Hi El) as Hds.
    pose proof (machine_destroy_ok c (Ha e (inst, c) El)) as Hdc. destruct (conn_destroy c) as [c'|].
    + left. destruct Hds as (s1&->&_&Hc&_). exists s1. split; [done|]. split.
      * unfold all_reachable. rewrite Hc. by apply map_Forall_delete.
      * intros (?&?&[= <- <-]&Hs%Hdc). done.
    + right. split; [done|]. exists inst, c. split; [done|]. by apply Hdc.
Qed.

Lemma machines_reachable s : reachable s -> all_reachable s.
Proof.
  induction 1 as [|s i s' Hr IH E]; [apply map_Forall_empty|].
  destruct (machines_step i s) as [(s1&E1&H1&_)|[E1 _]]; [by apply ServerProps.inv_reached|done| |]; rewrite E in E1; by simplify_eq.
Qed.

(** C19: the server and its connections together: whatever peers connect, messages,
    closes, timers, deletions and destructions come, in any order and on any number
    of connections, a step is undefined if and only if it is one connection's own
    undefined step (an unreadable or unknown control message) or the destruction of
    a connection whose state machine holds a session, where the destructor's
    assertion fails; accepting a session, for a new endpoint or one that has a
    connection, never is.  A connection destroyed right after
    [DeleteActor::Shutdown], the order of the lifetime manager, holds no session and
    is destroyed. *)
Theorem server_composition s :
  reachable s ->
  (forall i, step i s = None <->
     (exists e j id c, i = OnConnection e j /\ connection_ s !! e = Some (id, c) /\ stuck j c) \/
     (exists e id c, i = Delete e /\ connection_ s !! e = Some (id, c) /\ ServerSM.session_ c <> None)) /\
  (forall e id c, connection_ s !! e = Some (id, c) ->
     exists s1 s2, step (OnConnection e ServerSM.InDelete) s = Some s1 /\ step (Delete e) s1 = Some s2 /\
       connection_ s2 = delete e (connection_ s)).
Proof.
  intros Hr. pose proof (ServerProps.inv_reached _ Hr) as Hi. pose proof (machines_reachable _ Hr) as Ha. split.
  - intros i. assert ((exists e j id c, i = OnConnection e j /\ connection_ s !! e = Some (id, c) /\ stuck j c) \/
      (exists e id c, i = Delete e /\ connection_ s !! e = Some (id, c) /\ ServerSM.session_ c <> None) <-> bad i s) as ->
      by (destruct i; cbn [bad]; naive_solver).
    by destruct (machines_step i s Hi Ha) as [(s'&->&_&Hn)|[-> Hs]].
  - intros e id c El. destruct (machines_step (OnConnection e ServerSM.InDelete) s Hi Ha) as [(s1&E1&Ha1&_)|[_ Hb]];
      [|by destruct Hb as (?&?&_&[])].
    exists s1. pose proof E1 as E1'. cbn [step] in E1'. rewrite El in E1'.
    destruct (conn_step ServerSM.InDelete c) as [c'|] eqn:Ec; [|done]. cbn [mbind option_bind] in E1'.
    injection E1' as Es1. pose proof (shutdown_no_session c c' Ec) as Hn.
    assert (connection_ s1 !! e = Some (id, c')) as El1 by (subst s1; apply lookup_insert_eq).
    assert (reachable s1) as Hr1 by by eapply reach_step.
    pose proof (ServerProps.Destroy_spec _ _ _ _ (ServerProps.inv_reached _ Hr1) El1) as Hds.
    pose proof (machine_destroy_ok c' (Ha1 e (id, c') El1)) as Hdc.
    destruct (conn_destroy c'); [|by apply Hdc in Hn].
    destruct Hds as (s2&E2&_&Hc2&_). exists s2. split; [done|]. split; [cbn [step]; by rewrite El1|].
    rewrite Hc2. subst s1. cbn [connection_]. apply delete_insert_eq.
Qed.

End Machines.

(** *** A concrete server *)
Section Demo.
#[local] Existing Instance TMemoryBuffer.total_allocator.
#[local] Existing Instance decimal_texts.
#[local] Instance demo_machine : Connection ServerSM.t ServerSM.input :=
  machine ServerClaims.demo_read ServerClaims.demo_factory 100 true (fun _ => true) ServerClaims.demo_create false.
Definition server_at (ins : list (input ServerSM.input)) : SandeshServer.t ServerSM.t :=
  default SandeshServer.init (run ins SandeshServer.init).
Definition ep1 : endpoint := (1, 8086).
Definition ep2 : endpoint := (2, 8086).
Definition on1 : ServerSM.input -> input ServerSM.input := OnConnection ep1.
(** Two peers, the first in ServerInit with its session. *)
Definition two_peers : list (input ServerSM.input) :=
  [Connect ep1 0; on1 ServerSM.InDequeue; on1 ServerSM.InDequeue; Connect ep2 0].

Lemma server_at_reachable ins : is_Some (run ins SandeshServer.init) -> reachable (server_at ins).
Proof.
  intros [s E]. unfold server_at. rewrite E. eapply ServerProps.run_reached; [constructor|done].
Qed.

(** The first connection destroyed after its deletion's [Shutdown]; the second still
    with a session in its queue, none held. *)
Lemma server_instances_witness :
  let s := server_at (two_peers ++ [on1 ServerSM.InDelete]) in
  exists s', Destroy ep1 s = Some s' /\ connection_ s' = delete ep1 (connection_ s) /\
    conn_bmap_ s' = [true; false].
Proof.
  intros s. assert (reachable s) as Hr by (apply server_at_reachable; vm_compute; by eexists).
  destruct (ServerProps.server_instances s Hr) as (_&_&_&Hd).
  assert (exists c, connection_ s !! ep1 = Some (0, c)) as [c Hl] by (vm_compute; by eexists).
  assert (is_Some (p ← connection_ s !! ep1; conn_destroy p.2)) as [c' Hc'] by (vm_compute; by eexists).
  rewrite Hl in Hc'. cbn [mbind option_bind snd] in Hc'.
  specialize (Hd ep1 0 c Hl). rewrite Hc' in Hd. destruct Hd as (s'&E&Hc&_). exists s'. split; [done|]. split; [done|].
  assert (conn_bmap_ <$> Destroy ep1 s = Some [true; false]) as Hb by by vm_compute.
  rewrite E in Hb. by injection Hb.
Defined.

Lemma server_index_leak_witness :
  let s := server_at two_peers in
  exists s2, run [Connect ep1 0; on1 ServerSM.InDelete; Delete ep1; Delete ep2] s = Some s2 /\
    connection_ s2 = ∅ /\ in_use (conn_bmap_ s2) 2.
Proof.
  intros s. assert (reachable s) as Hr by (apply server_at_reachable; vm_compute; by eexists).
  assert (exists s1, step (Connect ep1 0) s = Some s1 /\
    exists s2, run [on1 ServerSM.InDelete; Delete ep1; Delete ep2] s1 = Some s2 /\
    connection_ s2 = ∅) as (s1&E1&s2&E2&He)
    by (eexists; split; [vm_compute; reflexivity|]; eexists; by split; vm_compute).
  exists s2. split; [cbn [run]; by rewrite E1|]. split; [done|].
  eapply (ServerProps.server_index_leak s ep1 0 (next_session s) 2 _ s1 _ s2 Hr); [|by vm_compute|exact E1|exact E2].
  vm_compute. by eexists.
Defined.

(** A session taken between [DeleteActor::Shutdown] and [Destroy]: neither
    [AcceptSession] nor the machine looks at [is_deleted_], the machine takes the
    session that was offered, and the connection's destruction fails the assertion of
    the destructor. *)
Definition late_session : list (input ServerSM.input) :=
  [Connect ep1 0; on1 ServerSM.InDequeue; on1 ServerSM.InDelete; on1 ServerSM.InDequeue].

Lemma server_composition_witness :
  let s := server_at late_session in
  let x := server_at (two_peers ++ [on1 (ServerSM.InMessage 1%positive (ServerClaims.demo_msg (bs "Other")))]) in
  reachable s /\
  ServerSM.is_deleted_ ∘ snd <$> connection_ s !! ep1 = Some true /\
  step (Delete ep1) s = None /\ step (on1 ServerSM.InDequeue) x = None /\
  exists s1 s2, step (on1 ServerSM.InDelete) x = Some s1 /\ step (Delete ep1) s1 = Some s2.
Proof.
  intros s x. assert (reachable s) as Hr by (apply server_at_reachable; vm_compute; by eexists).
  assert (reachable x) as Hx by (apply server_at_reachable; vm_compute; by eexists).
  destruct (server_composition ServerClaims.demo_read ServerClaims.demo_factory 100 true (fun _ => true)
           ServerClaims.demo_create false s Hr) as [Hs _].
  destruct (server_composition ServerClaims.demo_read ServerClaims.demo_factory 100 true (fun _ => true)
           ServerClaims.demo_create false x Hx) as [_ Hd].
  split; [exact Hr|]. split; [vm_compute; reflexivity|]. split.
  - apply (Hs (Delete ep1)). right. exists ep1.
    assert (exists c, connection_ s !! ep1 = Some (0, c)) as [c Hl] by (vm_compute; by eexists).
    assert (ServerSM.session_ ∘ snd <$> connection_ s !! ep1 = Some (Some 1%positive)) as Ec by (vm_compute; reflexivity).
    rewrite Hl in Ec. apply (inj Some) in Ec. cbn [compose snd] in Ec.
    exists 0, c. split; [reflexivity|]. split; [exact Hl|]. rewrite Ec. discriminate.
  - split; [vm_compute; reflexivity|].
    assert (exists c, connection_ x !! ep1 = Some (0, c)) as [c Hl] by (vm_compute; by eexists).
    destruct (Hd ep1 0 c Hl) as (s1&s2&E1&E2&_). exists s1, s2. split; [exact E1|exact E2].
Defined.

End Demo.
End ServerComposition.
