(* ===== verification/Uve.v ===== *)
(** * The caches of UVEs

    library/cpp/sandesh_uve.h and .cc: the cache of one type ([UveMap], the class
    SandeshUVEPerTypeMapImpl), the caches of a type for the generator itself and for
    its proxy groups ([UveGroup], SandeshUVEPerTypeMapGroup), and all types
    ([UveTypes], SandeshUVETypeMaps).

    What is generated for a type, its struct [U] and its sandesh [T], is the class
    [UveType].  The nested maps are [gmap]s; a [ptr_map] iterates in the order of its
    keys, and the order in which the hash map of the keys iterates is an argument of
    each operation that iterates.  An operation is one step; a loop that need not end
    takes fuel.  [None] is a failed assertion, an exception, or fuel that ran out. *)

From stdpp Require Import sorting.
From S2P Require Import Prelude.
Local Open Scope Z_scope.

Inductive SendType := ST_SYNC | ST_INTROSPECT | ST_PERIODIC.
#[export] Instance SendType_eq_dec : EqDecision SendType.
Proof. solve_decision. Defined.

Abbreviation ds_conf_elem := (gmap string string).

(** [new_uve]: the constructor with a table.  [T_UpdateUVE data cached]: whether to
    send, [data] and the cached object afterwards.  [LoadUVE]: the message, if one is to
    be sent, and the cached object afterwards, since both share the objects of the
    derived statistics.  [_InitDerivedStats] asserts that it knows each statistic. *)
Class UveType (U : Type) := {
  get_name : U -> string;
  table_ : U -> string;
  set_table : string -> U -> U;
  get_proxy : U -> string;
  get_deleted : U -> bool;
  set_deleted : bool -> U -> U;
  new_uve : string -> U;
  T_DSConf : ds_conf_elem;
  T_InitDerivedStats : U -> ds_conf_elem -> option U;
  T_UpdateUVE : U -> U -> Z -> Z -> bool * U * U;
  LoadUVE : SendType -> Z -> U -> option U * U;
}.

(** What a map holds, in the order of its keys. *)
Definition sorted_entries {A} (m : gmap string A) : list (string * A) :=
  merge_sort (fun p q : string * A => String.le p.1 q.1) (map_to_list m).

(** What goes out. *)
Record sent (U : Type) := MkSent {
  msg_data : U; msg_level : Z; msg_type : SendType; msg_seqno : Z; msg_cycle : Z; msg_context : string;
}.
Arguments MkSent {U}.
Arguments msg_data {U}.
Arguments msg_level {U}.
Arguments msg_type {U}.
Arguments msg_seqno {U}.
Arguments msg_cycle {U}.
Arguments msg_context {U}.

(** ** The cache of one type *)
Module UveMap.
Section Map.
Context {U : Type} `{!UveType U}.
(** The template parameter [TM], the timeout in periods. *)
Variable TM : Z.

Record UVEMapEntry := MkEntry { data : U; seqno : Z; level : Z }.
Abbreviation uve_table_map := (gmap string UVEMapEntry).
Record t := Mk { cmap_ : gmap string uve_table_map; dsconf_ : ds_conf_elem }.

Definition new_map : t := Mk ∅ T_DSConf.

(** A table map put back, and its key erased if it is empty. *)
Definition put (name : string) (tmap : uve_table_map) (m : gmap string uve_table_map) :=
  if bool_decide (tmap = ∅) then delete name m else <[name:=tmap]> m.

(** [now] is [ClockMonotonicUsec()]. *)
Definition UpdateUVE (u : U) (seqnum mono_usec now lvl : Z) (m : t) : option (bool * U * t) :=
  let table := table_ u in
  if bool_decide (table = EmptyString) then None
  else
    let s := get_name u in
    let mono_usec := if mono_usec =? 0 then now else mono_usec in
    let tmap := default ∅ (cmap_ m !! s) in
    '(send, u, e) ← match tmap !! table with
      | None =>
          c ← T_InitDerivedStats (new_uve (table_ u)) (dsconf_ m);
          let '(send, u, c) := T_UpdateUVE u c mono_usec lvl in
          Some (send, u, MkEntry c seqnum lvl)
      | Some e =>
          let c := if negb (TM =? 0) then set_deleted false (data e) else data e in
          let '(send, u, c) := T_UpdateUVE u c mono_usec lvl in
          Some (send, u, MkEntry c seqnum (level e))
      end;
    let tmap := <[table:=e]> tmap in
    if get_deleted u then Some (send, u, Mk (put s (delete table tmap) (cmap_ m)) (dsconf_ m))
    else Some (send, u, Mk (<[s:=tmap]> (cmap_ m)) (dsconf_ m)).

(** [T::Send] of a cached object. *)
Definition T_Send (c : U) (lvl : Z) (st : SendType) (seq cycle : Z) (ctx : string) : list (sent U) * U :=
  let '(msg, c) := LoadUVE st cycle c in
  (match msg with Some u => [MkSent u lvl st seq cycle ctx] | None => [] end, c).

(** The loop over a table map. *)
Fixpoint clear_tables (l : list (string * UVEMapEntry)) (count : Z) (out : list (sent U)) : Z * list (sent U) :=
  match l with
  | [] => (count, out)
  | (_, e) :: l =>
      let '(msgs, _) := T_Send (set_deleted true (data e)) (level e) ST_SYNC (seqno e) 0 EmptyString in
      clear_tables l (u32 (count + 1)) (out ++ msgs)
  end.
Definition ClearUVEs (order : list string) (m : t) : option (Z * list (sent U) * t) :=
  '(count, out) ← foldM (fun name '(count, out) =>
      tmap ← cmap_ m !! name; Some (clear_tables (sorted_entries tmap) count out)) order (0, []);
  Some (count, out, Mk ∅ (dsconf_ m)).

(** The round of the loop over the new configuration. *)
Definition conf_round (kv : string * string) (s : ds_conf_elem * bool) : ds_conf_elem * bool :=
  let '(dsnew, failure) := s in
  match dsnew !! kv.1 with
  | Some _ => (<[kv.1:=kv.2]> dsnew, failure)
  | None => (dsnew, true)
  end.
Definition reset_entry (dsconf : ds_conf_elem) (kv : string * UVEMapEntry) (tmap : uve_table_map)
    : option uve_table_map :=
  c ← T_InitDerivedStats (data kv.2) dsconf;
  Some (<[kv.1:=MkEntry c (seqno kv.2) (level kv.2)]> tmap).
Definition InitDerivedStats (order : list string) (dsconf : ds_conf_elem) (m : t) : option (bool * t) :=
  let '(dsnew, failure) := foldl (fun s kv => conf_round kv s) (dsconf_ m, false) (sorted_entries dsconf) in
  if failure then Some (false, m)
  else
    cm ← foldM (fun name cm =>
        tmap ← cm !! name;
        tmap ← foldM (reset_entry dsnew) (sorted_entries tmap) tmap;
        Some (<[name:=tmap]> cm)) order (cmap_ m);
    Some (true, Mk cm dsnew).

(** Periodic processing of a type with a timeout, in a cycle that is a multiple of it. *)
Definition due (st : SendType) (cycle : Z) : bool :=
  negb (TM =? 0) && bool_decide (st = ST_PERIODIC) && (cycle mod TM =? 0).

(** The loop over a table map: [continue] does not advance the iterator. *)
Fixpoint sync_tables (fuel : nat) (table : string) (st : SendType) (seq cycle : Z) (ctx : string)
    (l : list (string * UVEMapEntry)) (tmap : uve_table_map) (count : Z) (out : list (sent U))
    : option (uve_table_map * Z * list (sent U)) :=
  match fuel with
  | O => None
  | S fuel =>
      match l with
      | [] => Some (tmap, count, out)
      | (k, e) :: rest =>
          if negb (bool_decide (table = EmptyString)) && negb (bool_decide (k = table)) then
            sync_tables fuel table st seq cycle ctx ((k, e) :: rest) tmap count out
          else if (seq <? seqno e) || (seq =? 0) then
            let '(msgs, c) := T_Send (data e) (level e) st (seqno e) cycle ctx in
            let tmap :=
              if due st cycle then
                if get_deleted c then delete k tmap
                else <[k:=MkEntry (set_deleted true c) (seqno e) (level e)]> tmap
              else <[k:=MkEntry c (seqno e) (level e)]> tmap in
            sync_tables fuel table st seq cycle ctx rest tmap (u32 (count + 1)) (out ++ msgs)
          else sync_tables fuel table st seq cycle ctx rest tmap count out
      end
  end.
Definition sync_round (fuel : nat) (table : string) (st : SendType) (seq cycle : Z) (ctx : string)
    (name : string) (s : Z * list (sent U) * gmap string uve_table_map)
    : option (Z * list (sent U) * gmap string uve_table_map) :=
  let '(count, out, cm) := s in
  tmap ← cm !! name;
  '(tmap, count, out) ← sync_tables fuel table st seq cycle ctx (sorted_entries tmap) tmap count out;
  Some (count, out, put name tmap cm).
Definition SyncUVE (fuel : nat) (order : list string) (table : string) (st : SendType) (seq cycle : Z)
    (ctx : string) (m : t) : option (Z * list (sent U) * t) :=
  '(count, out, cm) ← foldM (sync_round fuel table st seq cycle ctx) order (0, [], cmap_ m);
  Some (count, out, Mk cm (dsconf_ m)).

(** The cached objects share their derived statistics with the messages. *)
Definition send_entry (table ctx : string) (kv : string * UVEMapEntry)
    (s : bool * list (sent U) * uve_table_map) : bool * list (sent U) * uve_table_map :=
  let '(k, e) := kv in
  let '(was, out, tmap) := s in
  if negb (bool_decide (table = EmptyString)) && negb (bool_decide (k = table)) then s
  else
    let '(msgs, c) := T_Send (data e) (level e)
      (if bool_decide (ctx = EmptyString) then ST_INTROSPECT else ST_SYNC) (seqno e) 0 ctx in
    (true, out ++ msgs, <[k:=MkEntry c (seqno e) (level e)]> tmap).
Definition SendUVE (table name ctx : string) (m : t) : bool * list (sent U) * t :=
  match cmap_ m !! name with
  | None => (false, [], m)
  | Some tmap =>
      let '(was, out, tmap) :=
        foldl (fun s kv => send_entry table ctx kv s) (false, [], tmap) (sorted_entries tmap) in
      (was, out, Mk (<[name:=tmap]> (cmap_ m)) (dsconf_ m))
  end.

Definition GetDSConf (m : t) : ds_conf_elem := dsconf_ m.

End Map.
Arguments t : clear implicits.
Arguments UVEMapEntry : clear implicits.
End UveMap.

(** ** The caches of a type: native and per proxy group and partition *)
Definition kProxyPartitions : Z := 30.

(** Where a cache is: [None] is the native one. *)
Definition place : Type := option (string * Z).

(** An element of a [ptr_map], whose [at] throws if there is none. *)
Definition partitions : list Z := seqZ 0 kProxyPartitions.

Module UveGroup.
Section Group.
Context {U : Type} `{!UveType U}.
Variable TM : Z.
Abbreviation uve_pmap := (gmap Z (UveMap.t U)).

(** [lseqnum_] is a static member of [T]. *)
Record t := Mk { group_map_ : gmap string uve_pmap; native_map_ : UveMap.t U; lseqnum_ : Z }.
Definition new_group : t := Mk ∅ UveMap.new_map 0.

Definition new_pmap : uve_pmap := list_to_map ((fun idx => (idx, UveMap.new_map)) <$> partitions).
Definition GetGMap (proxy : string) (g : t) : t :=
  match group_map_ g !! proxy with
  | Some _ => g
  | None => Mk (<[proxy:=new_pmap]> (group_map_ g)) (native_map_ g) (lseqnum_ g)
  end.
Definition GetGMaps (g : t) : list string := (sorted_entries (group_map_ g)).*1.
(** [lseqnum] returns an [int32_t]. *)
Definition TypeSeq (g : t) : Z := u32 (i32 (lseqnum_ g)).
Definition GetTimeout (g : t) : Z := TM.

(** The cache at a place, and one put there. *)
Definition at_place (p : place) (g : t) : option (UveMap.t U) :=
  match p with
  | None => Some (native_map_ g)
  | Some (proxy, idx) => pm ← group_map_ g !! proxy; pm !! idx
  end.
Definition set_place (p : place) (m : UveMap.t U) (g : t) : t :=
  match p with
  | None => Mk (group_map_ g) m (lseqnum_ g)
  | Some (proxy, idx) => Mk (alter (<[idx:=m]>) proxy (group_map_ g)) (native_map_ g) (lseqnum_ g)
  end.
(** The native cache, and then all partitions of each proxy group. *)
Definition places (g : t) : list place :=
  None :: (proxy ← GetGMaps g; (fun idx => Some (proxy, idx)) <$> partitions).

(** [ord] is the order of iteration in each cache. *)
Definition SyncUVE (fuel : nat) (ord : place -> list string) (table : string) (st : SendType) (seq cycle : Z)
    (ctx : string) (g : t) : option (Z * list (sent U) * t) :=
  foldM (fun p '(count, out, g) =>
      m ← at_place p g;
      '(n, msgs, m) ← UveMap.SyncUVE TM fuel (ord p) table st seq cycle ctx m;
      Some (u32 (count + n), out ++ msgs, set_place p m g)) (places g) (0, [], g).

Definition InitDerivedStats (ord : place -> list string) (dsconf : ds_conf_elem) (g : t) : option (bool * t) :=
  '(ok, m) ← UveMap.InitDerivedStats (ord None) dsconf (native_map_ g);
  Some (ok, set_place None m g).

Definition SendUVE (table name ctx : string) (g : t) : option (bool * list (sent U) * t) :=
  foldM (fun p '(was, out, g) =>
      m ← at_place p g;
      let '(ok, msgs, m) := UveMap.SendUVE table name ctx m in
      Some (was || ok, out ++ msgs, set_place p m g)) (places g) (false, [], g).

Definition GetDSConf (g : t) : ds_conf_elem := UveMap.GetDSConf (native_map_ g).

Definition UpdateUVE (u : U) (seqnum mono_usec now : Z) (partition : Z) (lvl : Z) (g : t)
    : option (bool * U * t) :=
  if partition =? -1 then
    '(send, u, m) ← UveMap.UpdateUVE TM u seqnum mono_usec now lvl (native_map_ g);
    Some (send, u, set_place None m g)
  else
    let proxy := get_proxy u in
    if negb (partition <? kProxyPartitions) then None
    else
      let g := GetGMap proxy g in
      m ← at_place (Some (proxy, partition)) g;
      '(send, u, m) ← UveMap.UpdateUVE TM u seqnum mono_usec now lvl m;
      Some (send, u, set_place (Some (proxy, partition)) m g).

Definition ClearUVEs (ord : place -> list string) (proxy : string) (partition : Z) (g : t)
    : option (Z * list (sent U) * t) :=
  match group_map_ g !! proxy with
  | None => Some (0, [], g)
  | Some _ =>
      if negb (partition <? kProxyPartitions) then None
      else
        m ← at_place (Some (proxy, partition)) g;
        '(n, msgs, m) ← UveMap.ClearUVEs (ord (Some (proxy, partition))) m;
        Some (n, msgs, set_place (Some (proxy, partition)) m g)
  end.

(** The generated [Send] of an update: the next number, the cache, and the message
    with the data as the cache leaves it, its level and its number. *)
Definition Send (u : U) (lvl : Z) (table : string) (mono_usec now partition : Z) (g : t)
    : option (option (U * Z * Z) * t) :=
  let msg_seqno := u32 (lseqnum_ g + 1) in
  let g := Mk (group_map_ g) (native_map_ g) msg_seqno in
  let u := if bool_decide (table = EmptyString) then u else set_table table u in
  '(send, u, g) ← UpdateUVE u msg_seqno mono_usec now partition lvl g;
  Some (if send : bool then Some (u, lvl, msg_seqno) else None, g).

End Group.
Arguments t : clear implicits.
End UveGroup.

(** ** All types *)

(** The virtual interface SandeshUVEPerTypeMap; [M] is a message. *)
Class PerTypeMap (G M : Type) := {
  pt_TypeSeq : G -> Z;
  pt_SyncUVE : string -> SendType -> Z -> Z -> string -> G -> option (Z * list M * G);
  pt_InitDerivedStats : ds_conf_elem -> G -> option (bool * G);
  pt_SendUVE : string -> string -> string -> G -> option (bool * list M * G);
  pt_GetDSConf : G -> ds_conf_elem;
  pt_GetTimeout : G -> Z;
  pt_ClearUVEs : string -> Z -> G -> option (Z * list M * G);
}.

(** A group, with the fuel and the orders its iterations take. *)
Definition group_map {U} `{!UveType U} (TM : Z) (fuel : nat) (ord : UveGroup.t U -> place -> list string)
  : PerTypeMap (UveGroup.t U) (sent U) := {|
  pt_TypeSeq := UveGroup.TypeSeq;
  pt_SyncUVE table st seq cycle ctx g := UveGroup.SyncUVE TM fuel (ord g) table st seq cycle ctx g;
  pt_InitDerivedStats conf g := UveGroup.InitDerivedStats (ord g) conf g;
  pt_SendUVE := UveGroup.SendUVE;
  pt_GetDSConf := UveGroup.GetDSConf;
  pt_GetTimeout := UveGroup.GetTimeout TM;
  pt_ClearUVEs proxy partition g := UveGroup.ClearUVEs (ord g) proxy partition g;
|}.

Module UveTypes.
Section Types.
Context {G M : Type} `{!PerTypeMap G M}.

(** [periodic_count] is static in [SyncAllMaps]. *)
Record t := Mk { map_ : gmap string (Z * G); periodic_count : Z }.

Definition RegisterType (s : string) (tmap : G) (period : Z) (x : t) : option t :=
  match map_ x !! s with
  | Some _ => None
  | None => Some (Mk (<[s:=(period, tmap)]> (map_ x)) (periodic_count x))
  end.
Definition TypeMap (s : string) (x : t) : option (Z * G) := map_ x !! s.

Definition kTickInterval : Z := 30000.
(** [(it->second.first * 1000) / kTickInterval] in [int], as a [uint64_t]; [None] is
    signed overflow. *)
Definition target_count (period : Z) : option Z :=
  if bool_decide (- 2 ^ 31 <= period * 1000 < 2 ^ 31) then Some (u64 (Z.quot (period * 1000) kTickInterval))
  else None.

(** What [SyncAllMaps] asks of a type: nothing, or a cycle. *)
Definition sync_cycle (periodic : bool) (pcount period : Z) (inp_size : Z) : option (option Z) :=
  if periodic then
    target ← target_count period;
    if target =? 0 then Some None
    else if negb (pcount mod target =? 0) then Some None
    else if inp_size =? 0 then Some (Some (u32 (pcount / target))) else None
  else Some (Some 0).

Definition sync_type (inpMap : gmap string Z) (periodic : bool) (pcount : Z) (kv : string * (Z * G))
    (s : list (string * list M) * gmap string (Z * G)) : option (list (string * list M) * gmap string (Z * G)) :=
  let '(name, (period, g)) := kv in
  let '(out, maps) := s in
  c ← sync_cycle periodic pcount period (Z.of_nat (size inpMap));
  match c with
  | None => Some (out, maps)
  | Some cycle =>
      let stype := if periodic then ST_PERIODIC else ST_SYNC in
      '(_, msgs, g) ← pt_SyncUVE EmptyString stype (default 0 (inpMap !! name)) cycle EmptyString g;
      Some (out ++ [(name, msgs)], <[name:=(period, g)]> maps)
  end.
Definition SyncAllMaps (inpMap : gmap string Z) (periodic : bool) (x : t)
    : option (list (string * list M) * t) :=
  let pcount := if periodic then u64 (periodic_count x + 1) else periodic_count x in
  '(out, maps) ← foldM (sync_type inpMap periodic pcount) (sorted_entries (map_ x)) ([], map_ x);
  Some (out, Mk maps pcount).

(** [count] is an [int] that takes on the [uint32_t] of each type, returned as a
    [uint32_t]. *)
Definition Clear (proxy : string) (partition : Z) (x : t) : option (Z * list (string * list M) * t) :=
  '(count, out, maps) ← foldM (fun kv '(count, out, maps) =>
      '(n, msgs, g) ← pt_ClearUVEs proxy partition (snd (snd kv));
      Some (u32 (count + n), out ++ [(fst kv, msgs)], <[fst kv:=(fst (snd kv), g)]> maps))
    (sorted_entries (map_ x)) (0, [], map_ x);
  Some (count, out, Mk maps (periodic_count x)).

Definition InitDerivedStats (dsmap : gmap string ds_conf_elem) (x : t) : option (bool * t) :=
  '(success, maps) ← foldM (fun kv '(success, maps) =>
      match maps !! fst kv with
      | None => Some (false, maps)
      | Some (period, g) =>
          '(ok, g) ← pt_InitDerivedStats (snd kv) g;
          Some (success && ok, <[fst kv:=(period, g)]> maps)
      end) (sorted_entries dsmap) (true, map_ x);
  Some (success, Mk maps (periodic_count x)).

(** The map of an unknown type is a null pointer. *)
Definition SyncIntrospect (tname table key : string) (x : t) : option (list M * t) :=
  '(period, g) ← map_ x !! tname;
  '(_, msgs, g) ← pt_SendUVE table key EmptyString g;
  Some (msgs, Mk (<[tname:=(period, g)]> (map_ x)) (periodic_count x)).

(** *** The requests of introspection *)
Record SandeshUVETypeInfo := MkTypeInfo {
  type_name : string; seq_num : Z; info_period : Z; info_dsconf : ds_conf_elem; timeout : Z;
}.
Definition SandeshUVETypesReq_HandleRequest (x : t) : list SandeshUVETypeInfo :=
  (fun '(name, (period, g)) =>
     MkTypeInfo name (pt_TypeSeq g) period (pt_GetDSConf g) (pt_GetTimeout g)) <$> sorted_entries (map_ x).

(** Success, and the configuration then. *)
Definition SandeshUVEDSConfReq_HandleRequest (tname dsattr dsconf : string) (x : t)
    : option (bool * option ds_conf_elem * t) :=
  match map_ x !! tname with
  | None => Some (false, None, x)
  | Some (period, g) =>
      '(success, g) ← pt_InitDerivedStats {[dsattr := dsconf]} g;
      Some (success, if success : bool then Some (pt_GetDSConf g) else None,
            Mk (<[tname:=(period, g)]> (map_ x)) (periodic_count x))
  end.

(** [key] when it is set; what is returned and the period, if the type is known. *)
Definition SandeshUVECacheReq_HandleRequest (tname : string) (key : option string) (context : string) (x : t)
    : option (Z * option Z * list M * t) :=
  match map_ x !! tname with
  | None => Some (0, None, [], x)
  | Some (period, g) =>
      '(returned, msgs, g) ← (match key with
        | Some k => '(b, msgs, g) ← pt_SendUVE EmptyString k context g; Some (Z.b2z b, msgs, g)
        | None => pt_SyncUVE EmptyString ST_INTROSPECT 0 0 context g
        end : option (Z * list M * G));
      Some (returned, Some period, msgs, Mk (<[tname:=(period, g)]> (map_ x)) (periodic_count x))
  end.

End Types.
Arguments t : clear implicits.
End UveTypes.
