(* ===== verification/UveSpec.v ===== *)
(** * The cache of one type of UVEs: invariant and operations

    [UveLaws] states what the cache relies on in generated code: names, tables and the
    deletion flag are fields like others, and [_InitDerivedStats] knows the statistics
    of the default configuration.  The cache is seen as one map from names and tables
    ([flat]). *)

From stdpp Require Import sorting.
From S2P Require Import Prelude Uve.
Local Open Scope Z_scope.

(** The fields no derived statistic touches. *)
Definition same_id {U} `{!UveType U} (u v : U) : Prop :=
  get_name u = get_name v /\ table_ u = table_ v /\ get_deleted u = get_deleted v.

Class UveLaws (U : Type) `{!UveType U} := {
  set_deleted_fields b (u : U) :
    get_name (set_deleted b u) = get_name u /\ table_ (set_deleted b u) = table_ u /\
    get_deleted (set_deleted b u) = b;
  set_table_fields t (u : U) :
    get_name (set_table t u) = get_name u /\ table_ (set_table t u) = t /\
    get_deleted (set_table t u) = get_deleted u;
  new_fields t : table_ (new_uve t : U) = t /\ get_deleted (new_uve t : U) = false;
  init_defined (u : U) conf :
    dom (T_DSConf (U := U)) ⊆ dom conf -> exists u', T_InitDerivedStats u conf = Some u' /\ same_id u' u;
  update_fields (u c : U) mono lvl :
    let '(_, u', c') := T_UpdateUVE u c mono lvl in
    same_id u' u /\ get_name c' = get_name u /\ table_ c' = table_ c /\
    (get_deleted u = false -> get_deleted c = false -> get_deleted c' = false);
  load_cached st cycle (u : U) : same_id (snd (LoadUVE st cycle u)) u;
  load_message st cycle (u m : U) : fst (LoadUVE st cycle u) = Some m -> same_id m u;
  load_sends st cycle (u : U) :
    st <> ST_PERIODIC \/ get_deleted u = true -> is_Some (fst (LoadUVE st cycle u));
}.

(** ** Sorted entries *)
#[local] Instance entry_order_total {A} : Total (fun p q : string * A => String.le p.1 q.1).
Proof. intros p q. apply String.le_total. Qed.

Lemma sorted_entries_perm {A} (m : gmap string A) : sorted_entries m ≡ₚ map_to_list m.
Proof. apply merge_sort_Permutation. Qed.
Lemma elem_of_sorted {A} (m : gmap string A) k a : (k, a) ∈ sorted_entries m <-> m !! k = Some a.
Proof. by rewrite sorted_entries_perm, elem_of_map_to_list. Qed.
Lemma NoDup_sorted {A} (m : gmap string A) : NoDup (sorted_entries m).*1.
Proof. rewrite sorted_entries_perm. apply NoDup_fst_map_to_list. Qed.

Module UveMapSpec.
Import UveMap.
Section Spec.
Context {U : Type} `{!UveType U} `{!UveLaws U}.
Variable TM : Z.
Implicit Types (m : UveMap.t U) (e : UVEMapEntry U) (cm : gmap string (gmap string (UVEMapEntry U))).

Definition flat_of cm : gmap (string * string) (UVEMapEntry U) :=
  map_uncurry (M1 := gmap string) (M2 := gmap string) cm.
Definition flat m := flat_of (cmap_ m).

Lemma flat_lookup cm n t : flat_of cm !! (n, t) = cm !! n ≫= (.!! t).
Proof. apply lookup_map_uncurry. Qed.
Lemma flat_insert cm n tm i t :
  flat_of (<[n:=tm]> cm) !! (i, t) = if decide (i = n) then tm !! t else flat_of cm !! (i, t).
Proof. rewrite !flat_lookup. destruct (decide _) as [->|]; [by rewrite lookup_insert_eq|by rewrite lookup_insert_ne]. Qed.
Lemma flat_put cm n tm i t :
  flat_of (put n tm cm) !! (i, t) = if decide (i = n) then tm !! t else flat_of cm !! (i, t).
Proof.
  unfold put. case_bool_decide as He; [|apply flat_insert]. subst tm. rewrite !flat_lookup.
  destruct (decide _) as [->|]; [by rewrite lookup_delete_eq, lookup_empty|by rewrite lookup_delete_ne].
Qed.
Lemma flat_default cm n t : default ∅ (cm !! n) !! t = flat_of cm !! (n, t).
Proof. rewrite flat_lookup. by destruct (cm !! n). Qed.

(** ** The invariant *)
Definition entry_ok (n t : string) e : Prop :=
  get_name (data e) = n /\ table_ (data e) = t /\ t <> EmptyString /\
  (TM = 0 -> get_deleted (data e) = false).
(** No name without a table, every object under its own name and table, the
    statistics of the type configured; without a timeout no object is marked. *)
Definition wf m : Prop :=
  (forall n tm, cmap_ m !! n = Some tm -> tm <> ∅) /\
  (forall n t e, flat m !! (n, t) = Some e -> entry_ok n t e) /\
  dom (dsconf_ m) = dom (T_DSConf (U := U)).

Lemma wf_new : wf new_map.
Proof.
  split; [|split; [|done]].
  - intros n tm. cbn [cmap_ new_map]. by rewrite lookup_empty.
  - intros n t e. unfold flat. rewrite flat_lookup. cbn [cmap_ new_map]. by rewrite lookup_empty.
Qed.

Lemma put_nonempty cm n tm :
  (forall k tk, cm !! k = Some tk -> tk <> ∅) -> forall k tk, put n tm cm !! k = Some tk -> tk <> ∅.
Proof.
  intros Hne k tk. unfold put. case_bool_decide as He.
  - rewrite lookup_delete_Some. intros [_ ?]. by eapply Hne.
  - rewrite lookup_insert_Some. intros [[_ <-]|[_ ?]]; [done|by eapply Hne].
Qed.

(** ** [UpdateUVE] *)

(** The object and its entry after an update, if the entry was [old]. *)
Definition updated (conf : ds_conf_elem) (old : option (UVEMapEntry U)) (u : U) (seq mono lvl : Z)
    : option (bool * U * UVEMapEntry U) :=
  match old with
  | None =>
      c ← T_InitDerivedStats (new_uve (table_ u)) conf;
      let '(send, u, c) := T_UpdateUVE u c mono lvl in Some (send, u, MkEntry c seq lvl)
  | Some e =>
      let c := if negb (TM =? 0) then set_deleted false (data e) else data e in
      let '(send, u, c) := T_UpdateUVE u c mono lvl in Some (send, u, MkEntry c seq (level e))
  end.

(** An update is defined, keeps the identity of the object, and gives an entry that
    fits unless it is a deletion. *)
Lemma updated_spec m old u seq mono lvl :
  wf m -> table_ u <> EmptyString -> flat m !! (get_name u, table_ u) = old ->
  exists send u' e, updated (dsconf_ m) old u seq mono lvl = Some (send, u', e) /\
    same_id u' u /\ seqno e = seq /\ level e = default lvl (level <$> old) /\
    get_name (data e) = get_name u /\ table_ (data e) = table_ u /\
    (get_deleted u = false -> TM <> 0 -> get_deleted (data e) = false) /\
    (get_deleted u = false -> entry_ok (get_name u) (table_ u) e).
Proof.
  intros (_&Hf&Hd) Ht Hold.
  assert (exists c lv, updated (dsconf_ m) old u seq mono lvl =
      (let '(send, u, c) := T_UpdateUVE u c mono lvl in Some (send, u, MkEntry c seq lv)) /\
      table_ c = table_ u /\ get_deleted c = false /\ lv = default lvl (level <$> old)) as (c&lv&->&Hct&Hcd&Hlv).
  { unfold updated. destruct old as [e|].
    - destruct (Hf _ _ _ Hold) as (Hn&He&_&H0). eexists _, _. split; [done|].
      destruct (Z.eqb_spec TM 0) as [E|E]; cbn [negb]; [naive_solver|].
      destruct (set_deleted_fields false (data e)) as (?&?&?). split_and!; congruence || done.
    - destruct (init_defined (new_uve (table_ u) : U) (dsconf_ m)) as (c&->&_&Hc1&Hc2); [by rewrite Hd|].
      destruct (new_fields (U := U) (table_ u)) as [H1 H2]. exists c, lvl. split_and!; congruence || done. }
  pose proof (update_fields u c mono lvl) as Hu. destruct (T_UpdateUVE u c mono lvl) as [[send u'] c'].
  destruct Hu as (Hs&Hn&Hc&Hdel). exists send, u', (MkEntry c' seq lv). cbn [data seqno level].
  split_and!; try done; [congruence|by intros; apply Hdel|].
  intros. unfold entry_ok. cbn [data]. split_and!; try done; [congruence|]. intros _. by apply Hdel.
Qed.

Lemma UpdateUVE_spec m u seq mono now lvl :
  wf m -> table_ u <> EmptyString ->
  exists send u' e m', UpdateUVE TM u seq mono now lvl m = Some (send, u', m') /\ wf m' /\
    updated (dsconf_ m) (flat m !! (get_name u, table_ u)) u seq (if mono =? 0 then now else mono) lvl =
      Some (send, u', e) /\
    dsconf_ m' = dsconf_ m /\
    forall n t, flat m' !! (n, t) =
      if decide ((n, t) = (get_name u, table_ u)) then (if get_deleted u then None else Some e)
      else flat m !! (n, t).
Proof.
  intros Hw Ht. pose proof Hw as (Hne&Hf&Hd).
  destruct (updated_spec m _ u seq (if mono =? 0 then now else mono) lvl Hw Ht eq_refl)
    as (send&u'&e&Hu&(_&_&Hdel)&_&_&_&_&_&Hok).
  unfold UpdateUVE. rewrite bool_decide_false by done. rewrite flat_default.
  change (flat_of (cmap_ m)) with (flat m). unfold updated in Hu. rewrite Hu. cbn [mbind option_bind].
  exists send, u', e. rewrite Hdel.
  set (spec := fun cm => forall n t, flat_of cm !! (n, t) =
      if decide ((n, t) = (get_name u, table_ u)) then (if get_deleted u then None else Some e)
      else flat m !! (n, t)).
  assert (Hfin : forall cm, (forall n tm, cm !! n = Some tm -> tm <> ∅) -> spec cm -> wf (Mk cm (dsconf_ m))).
  { intros cm Hcm Hs. split; [done|]. split; [|done]. intros n t e'. unfold flat. cbn [cmap_]. rewrite Hs.
    destruct (decide _) as [[= -> ->]|]; [|apply Hf].
    destruct (get_deleted u); [done|]. intros [= <-]. by apply Hok. }
  assert (Hspec : spec (if get_deleted u
      then put (get_name u) (delete (table_ u) (<[table_ u:=e]> (default ∅ (cmap_ m !! get_name u)))) (cmap_ m)
      else <[get_name u:=<[table_ u:=e]> (default ∅ (cmap_ m !! get_name u))]> (cmap_ m))).
  { intros n t. destruct (get_deleted u); rewrite ?flat_put, ?flat_insert;
      (destruct (decide (n = get_name u)) as [->|Hn]; [|rewrite decide_False by congruence; done]);
      (destruct (decide (t = table_ u)) as [->|Hnt];
        [rewrite decide_True by done|rewrite decide_False by congruence]).
    - by rewrite lookup_delete_eq.
    - by rewrite lookup_delete_ne, lookup_insert_ne, flat_default.
    - by rewrite lookup_insert_eq.
    - by rewrite lookup_insert_ne, flat_default. }
  unfold spec in Hspec, Hfin. destruct (get_deleted u) eqn:Eu; (eexists; split; [done|]);
    (split; [apply Hfin; [|done]|done]).
  - by apply put_nonempty.
  - intros n tm [[_ <-]|[_ ?]]%lookup_insert_Some; [apply insert_non_empty|by eapply Hne].
Qed.

(** ** [SyncUVE] *)

(** The entries a table selects. *)
Definition wanted (table t : string) : bool := bool_decide (table = EmptyString) || bool_decide (t = table).
Definition selected (seq : Z) e : bool := (seq <? seqno e) || (seq =? 0).
(** The entry after a round, and what is sent for it. *)
Definition after (st : SendType) (seq cycle : Z) e : option (UVEMapEntry U) :=
  if selected seq e then
    let c := snd (LoadUVE st cycle (data e)) in
    if due TM st cycle then
      if get_deleted c then None else Some (MkEntry (set_deleted true c) (seqno e) (level e))
    else Some (MkEntry c (seqno e) (level e))
  else Some e.
Definition messages (st : SendType) (seq cycle : Z) (ctx : string) e : list (sent U) :=
  if selected seq e then fst (T_Send (data e) (level e) st (seqno e) cycle ctx) else [].
Definition selected_count (seq : Z) (l : list (UVEMapEntry U)) : Z := zlen (List.filter (selected seq) l).

Lemma T_Send_cached (c : U) lvl st seq cycle ctx :
  snd (T_Send c lvl st seq cycle ctx) = snd (LoadUVE st cycle c).
Proof. unfold T_Send. by destruct (LoadUVE st cycle c). Qed.

Lemma u32_count_step c n : u32 (u32 (c + 1) + n) = u32 (c + (1 + n)).
Proof. unfold wrapU. rewrite Zplus_mod_idemp_l. f_equal. lia. Qed.

Lemma not_wanted table k :
  negb (bool_decide (table = EmptyString)) && negb (bool_decide (k = table)) = negb (wanted table k).
Proof. unfold wanted. by rewrite negb_orb. Qed.

Lemma sync_tables_spec table st seq cycle ctx l fuel tm count out :
  (forall k, k ∈ l.*1 -> wanted table k = true) ->
  (length l < fuel)%nat -> NoDup l.*1 -> (forall k e, (k, e) ∈ l -> tm !! k = Some e) -> count = u32 count ->
  exists tm', sync_tables TM fuel table st seq cycle ctx l tm count out =
      Some (tm', u32 (count + selected_count seq l.*2), out ++ (l.*2 ≫= messages st seq cycle ctx)) /\
    forall t, tm' !! t = if decide (t ∈ l.*1) then tm !! t ≫= after st seq cycle else tm !! t.
Proof.
  revert fuel tm count out. induction l as [|[k e] l IH]; intros fuel tm count out Hw Hf Hn Hl Hc.
  { destruct fuel as [|fuel]; [lia|]. exists tm. cbn [sync_tables fmap list_fmap mbind list_bind].
    unfold selected_count. cbn [List.filter length]. rewrite Z.add_0_r, <- Hc, app_nil_r. split; [done|].
    intros t. rewrite decide_False; [done|]. apply not_elem_of_nil. }
  destruct fuel as [|fuel]; [cbn in Hf; lia|]. cbn [length] in Hf.
  cbn [fmap list_fmap fst snd] in Hn, Hw |- *. apply list.NoDup_cons in Hn as [Hk Hn].
  assert (Hw' : forall k, k ∈ l.*1 -> wanted table k = true) by (intros; apply Hw; by right).
  pose proof (Hl k e ltac:(by left)) as Hke.
  assert (Hl' : forall tm' : gmap string (UVEMapEntry U), (forall t, t <> k -> tm' !! t = tm !! t) ->
      forall k' e', (k', e') ∈ l -> tm' !! k' = Some e').
  { intros tm' Htm k' e' Hin. rewrite Htm; [by apply Hl; right|]. intros ->. apply Hk.
    apply list_elem_of_fmap. by exists (k, e'). }
  assert (Hgoal : forall tm1 : gmap string (UVEMapEntry U), (forall t, t <> k -> tm1 !! t = tm !! t) -> tm1 !! k = after st seq cycle e ->
    forall t, (if decide (t ∈ l.*1) then tm1 !! t ≫= after st seq cycle else tm1 !! t) =
              (if decide (t ∈ k :: l.*1) then tm !! t ≫= after st seq cycle else tm !! t)).
  { intros tm1 Ht1 Hk1 t. destruct (decide (t = k)) as [->|Hne].
    - rewrite decide_False by done. rewrite decide_True by (by left). rewrite Hke. done.
    - rewrite Ht1 by done. destruct (decide (t ∈ l.*1)).
      + by rewrite decide_True by by right.
      + rewrite decide_False; [done|]. by intros [?|?]%elem_of_cons. }
  cbn [sync_tables]. rewrite not_wanted, (Hw k) by by left. cbn [negb].
  cbn [mbind list_bind]. unfold selected_count. cbn [List.filter]. unfold messages at 1.
  change ((seq <? seqno e) || (seq =? 0)) with (selected seq e). destruct (selected seq e) eqn:Es; [destruct (T_Send _ _ _ _ _ _) as [msgs c] eqn:ET|].
  - pose proof (T_Send_cached (data e) (level e) st (seqno e) cycle ctx) as Hc0. rewrite ET in Hc0. cbn in Hc0.
    cbn [fst length]. set (tm1 := if due TM st cycle then _ else _).
    assert (Hother : forall t, t <> k -> tm1 !! t = tm !! t).
    { intros t Hne. unfold tm1. destruct (due TM st cycle), (get_deleted c);
        by rewrite ?lookup_delete_ne, ?lookup_insert_ne. }
    assert (Hthis : tm1 !! k = after st seq cycle e).
    { unfold tm1, after. rewrite Es, <- Hc0. destruct (due TM st cycle), (get_deleted c);
        by rewrite ?lookup_delete_eq, ?lookup_insert_eq. }
    destruct (IH fuel tm1 (u32 (count + 1)) (out ++ msgs)) as (tm'&->&Htm');
      [done|lia|done|by apply Hl'|unfold wrapU; by rewrite Z.mod_mod|].
    exists tm'. rewrite u32_count_step, Nat2Z.inj_succ, <- Z.add_1_l, <- app_assoc. split; [done|].
    intros t. rewrite Htm'. by apply Hgoal.
  - cbn [app]. destruct (IH fuel tm count out) as (tm'&->&Htm'); [done|lia|done|by apply Hl'|done|].
    exists tm'. split; [done|]. intros t. rewrite Htm'. apply Hgoal; [done|].
    rewrite Hke. unfold after. by rewrite Es.
Qed.

(** The entries in the order of the iteration: those of the map, each once. *)
Definition visited (order : list string) cm : list (UVEMapEntry U) :=
  order ≫= fun n => (sorted_entries (default ∅ (cm !! n))).*2.

Lemma visited_perm order cm :
  order ≡ₚ elements (dom cm) -> visited order cm ≡ₚ (map_to_list (flat_of cm)).*2.
Proof.
  intros Ho. unfold visited.
  set (kv := order ≫= fun n => (fun p : string * UVEMapEntry U => ((n, p.1), p.2)) <$> sorted_entries (default ∅ (cm !! n))).
  assert (Hkv : kv.*2 = order ≫= fun n => (sorted_entries (default ∅ (cm !! n))).*2).
  { unfold kv. clear. induction order as [|n order IH]; [done|]. cbn [mbind list_bind].
    rewrite fmap_app, IH, <- list_fmap_compose. done. }
  rewrite <- Hkv. apply Permutation_map. apply NoDup_Permutation.
  - assert (Hno : NoDup order) by (rewrite Ho; apply NoDup_elements). unfold kv. clear Hkv kv Ho.
    induction Hno as [|n order Hn Hno IH]; [constructor|]. cbn [mbind list_bind]. apply list.NoDup_app. split_and!.
    + apply NoDup_fmap_2; [intros [??] [??] ?; cbn in *; congruence|].
      eapply NoDup_fmap_1, NoDup_sorted.
    + intros [[n' t] e] H1 H2. apply list_elem_of_fmap in H1 as ([t1 e1]&[= -> -> ->]&_).
      apply list_elem_of_bind in H2 as (n2&H2&Hn2). apply list_elem_of_fmap in H2 as ([t2 e2]&[= -> -> ->]&_). done.
    + done.
  - apply NoDup_map_to_list.
  - intros [[n t] e]. rewrite elem_of_map_to_list, flat_lookup. unfold kv. rewrite list_elem_of_bind. split.
    + intros (n'&H1&Hn'). apply list_elem_of_fmap in H1 as ([t1 e1]&[= <- -> ->]&Hs). apply elem_of_sorted in Hs.
      destruct (cm !! n) as [tm|]; [done|]. cbn in Hs. by rewrite lookup_empty in Hs.
    + intros Hs. destruct (cm !! n) as [tm|] eqn:En; [|done]. cbn in Hs. exists n. split.
      * apply list_elem_of_fmap. exists (t, e). split; [done|]. by apply elem_of_sorted; rewrite En.
      * rewrite Ho. apply elem_of_elements, elem_of_dom. by exists tm.
Qed.

Lemma selected_count_app seq l k : selected_count seq (l ++ k) = selected_count seq l + selected_count seq k.
Proof. unfold selected_count. rewrite List.filter_app, length_app. lia. Qed.

Lemma selected_count_perm seq l k : l ≡ₚ k -> selected_count seq l = selected_count seq k.
Proof.
  unfold selected_count. intros H. f_equal. induction H as [|x l k _ IH|x y l|l1 l2 l3 _ IH1 _ IH2];
    cbn [List.filter]; [done| | |congruence].
  - destruct (selected seq x); cbn [length]; congruence.
  - by destruct (selected seq x), (selected seq y).
Qed.

Lemma sync_round_eq fuel table st seq cycle ctx n count out cm tm :
  cm !! n = Some tm ->
  sync_round TM fuel table st seq cycle ctx n (count, out, cm) =
    ('(tm, count, out) ← sync_tables TM fuel table st seq cycle ctx (sorted_entries tm) tm count out;
     Some (count, out, put n tm cm)).
Proof. intros E. unfold sync_round. by rewrite E. Qed.

Lemma sync_order_spec table st seq cycle ctx fuel order cm count out :
  (forall n t, is_Some (flat_of cm !! (n, t)) -> wanted table t = true) -> NoDup order -> (forall n, n ∈ order -> exists tm, cm !! n = Some tm /\ (size tm < fuel)%nat) ->
  (forall n tm, cm !! n = Some tm -> tm <> ∅) -> count = u32 count ->
  exists cm', foldM (sync_round TM fuel table st seq cycle ctx) order (count, out, cm) =
      Some (u32 (count + selected_count seq (visited order cm)),
            out ++ (visited order cm ≫= messages st seq cycle ctx), cm') /\
    (forall n tm, cm' !! n = Some tm -> tm <> ∅) /\
    forall n t, flat_of cm' !! (n, t) =
      if decide (n ∈ order) then flat_of cm !! (n, t) ≫= after st seq cycle else flat_of cm !! (n, t).
Proof.
  revert cm count out. induction order as [|n order IH]; intros cm count out Hw Hn Hin Hne Hc.
  { exists cm. cbn [foldM visited mbind list_bind]. unfold selected_count. cbn [List.filter length].
    rewrite Z.add_0_r, <- Hc, app_nil_r. split; [done|]. split; [done|].
    intros. rewrite decide_False; [done|]. apply not_elem_of_nil. }
  apply list.NoDup_cons in Hn as [Hnot Hn]. destruct (Hin n ltac:(by left)) as (tm&Htm&Hsz).
  cbn [foldM]. rewrite (sync_round_eq _ _ _ _ _ _ _ _ _ _ _ Htm).
  destruct (sync_tables_spec table st seq cycle ctx (sorted_entries tm) fuel tm count out) as (tm'&E1&Htm').
  { intros k Hk. apply list_elem_of_fmap in Hk as ([k' e]&->&Hk%elem_of_sorted). apply (Hw n). exists e.
    by rewrite flat_lookup, Htm. }
  { by rewrite sorted_entries_perm, length_map_to_list. }
  { apply NoDup_sorted. }
  { intros k e. apply elem_of_sorted. }
  { done. }
  rewrite E1. cbn [mbind option_bind].
  assert (Hvis : forall n', n' ∈ order -> put n tm' cm !! n' = cm !! n').
  { intros n' Hn'. assert (n' <> n) by by intros ->.
    unfold put. case_bool_decide; by rewrite ?lookup_delete_ne, ?lookup_insert_ne. }
  destruct (IH (put n tm' cm) (u32 (count + selected_count seq (sorted_entries tm).*2))
    (out ++ ((sorted_entries tm).*2 ≫= messages st seq cycle ctx))) as (cm'&E&Hne'&Hfl);
    [|done| |by apply put_nonempty|unfold wrapU; by rewrite Z.mod_mod|].
  { intros n' t. rewrite flat_put. case_decide as Hnn; [|apply Hw]. subst n'. rewrite Htm'.
    case_decide; intros Hs; apply (Hw n t); rewrite flat_lookup, Htm; cbn [mbind option_bind]; [|done].
    by destruct (tm !! t); [eexists|destruct Hs]. }
  { intros n' Hn'. rewrite Hvis by done. apply Hin. by right. }
  assert (Hv : visited order (put n tm' cm) = visited order cm).
  { unfold visited. clear -Hvis. induction order as [|n' order IH]; [done|]. cbn [mbind list_bind].
    rewrite Hvis by by left. f_equal. apply IH. intros. apply Hvis. by right. }
  exists cm'. split; [|split; [done|]].
  - etrans; [exact E|]. rewrite Hv.
    change (visited (n :: order) cm) with ((sorted_entries (default ∅ (cm !! n))).*2 ++ visited order cm).
    rewrite Htm. cbn [default from_option id]. rewrite selected_count_app, bind_app, app_assoc.
    unfold wrapU. by rewrite Zplus_mod_idemp_l, Z.add_assoc.
  - intros n' t. rewrite Hfl, flat_put. destruct (decide (n' = n)) as [->|Hnn].
    + rewrite decide_False by done. rewrite decide_True by by left.
      rewrite flat_lookup, Htm, Htm'. cbn [mbind option_bind]. case_decide as Ht; [done|].
      destruct (tm !! t) as [e|] eqn:Ee; [|done]. exfalso. apply Ht, list_elem_of_fmap.
      exists (t, e). split; [done|]. by apply elem_of_sorted.
    + destruct (decide (n' ∈ order)); [by rewrite decide_True by by right|].
      rewrite decide_False; [done|]. by intros [?|?]%elem_of_cons.
Qed.

Lemma due_zero st cycle : TM = 0 -> due TM st cycle = false.
Proof. intros ->. done. Qed.
Lemma after_ok st seq cycle n t e e' : entry_ok n t e -> after st seq cycle e = Some e' -> entry_ok n t e'.
Proof.
  intros (Hn&Ht&Hne&H0). unfold after. destruct (selected seq e); [|intros [= <-]; by split_and!].
  destruct (load_cached st cycle (data e)) as (Hln&Hlt&Hld). set (c := snd _) in *.
  destruct (due TM st cycle) eqn:Ed.
  - destruct (get_deleted c); [done|]. intros [= <-]. destruct (set_deleted_fields true c) as (?&?&_).
    unfold entry_ok. cbn [data]. split_and!; [congruence..|done|]. intros Hz. by rewrite due_zero in Ed.
  - intros [= <-]. unfold entry_ok. cbn [data]. split_and!; [congruence..|done|]. intros Hz. rewrite Hld. by apply H0.
Qed.

(** The orders in which a cache can be iterated, and fuel that is enough. *)
Definition iterates (order : list string) m : Prop := order ≡ₚ elements (dom (cmap_ m)).
Definition enough (fuel : nat) m : Prop := forall n tm, cmap_ m !! n = Some tm -> (size tm < fuel)%nat.

Lemma SyncUVE_spec table st seq cycle ctx fuel order m :
  wf m -> iterates order m -> enough fuel m ->
  (forall n t, is_Some (flat m !! (n, t)) -> wanted table t = true) ->
  exists out m', SyncUVE TM fuel order table st seq cycle ctx m =
      Some (u32 (selected_count seq (map_to_list (flat m)).*2), out, m') /\
    wf m' /\ dsconf_ m' = dsconf_ m /\
    out ≡ₚ ((map_to_list (flat m)).*2 ≫= messages st seq cycle ctx) /\
    flat m' = omap (after st seq cycle) (flat m).
Proof.
  intros (Hne&Hf&Hd) Ho Hsz Hw. unfold SyncUVE.
  destruct (sync_order_spec table st seq cycle ctx fuel order (cmap_ m) 0 []) as (cm&->&Hne'&Hfl).
  { done. }
  { rewrite Ho. apply NoDup_elements. }
  { intros n. rewrite Ho, elem_of_elements, elem_of_dom. intros [tm E]. exists tm. split; [done|]. by apply (Hsz n). }
  { done. }
  { done. }
  pose proof (visited_perm order (cmap_ m) Ho) as Hp. cbn [mbind option_bind].
  assert (Hfl' : flat (Mk cm (dsconf_ m)) = omap (after st seq cycle) (flat m)).
  { apply map_eq. intros [n t]. unfold flat. cbn [cmap_]. rewrite Hfl, lookup_omap. case_decide as Hin; [done|].
    rewrite flat_lookup. destruct (cmap_ m !! n) as [tm|] eqn:En; [|done]. exfalso. apply Hin.
    rewrite Ho. apply elem_of_elements, elem_of_dom. by exists tm. }
  eexists _, _. split; [|split_and!]; [|split_and!| | |exact Hfl'].
  - rewrite Z.add_0_l. by rewrite (selected_count_perm seq _ _ Hp).
  - exact Hne'.
  - intros n t e. rewrite Hfl', lookup_omap. intros (e0&He0&Ha)%bind_Some. eapply after_ok; [by apply Hf|done].
  - done.
  - done.
  - cbn [app]. unfold flat. by rewrite Hp.
Qed.

(** ** [ClearUVEs] *)
Definition clear_messages e : list (sent U) :=
  fst (T_Send (set_deleted true (data e)) (level e) ST_SYNC (seqno e) 0 EmptyString).

Lemma clear_tables_spec (l : list (string * UVEMapEntry U)) count out :
  count = u32 count -> clear_tables l count out = (u32 (count + zlen l), out ++ (l.*2 ≫= clear_messages)).
Proof.
  revert count out. induction l as [|[k e] l IH]; intros count out Hc; cbn [clear_tables fmap list_fmap mbind list_bind length].
  { by rewrite Z.add_0_r, <- Hc, app_nil_r. }
  unfold clear_messages at 1. destruct (T_Send _ _ _ _ _ _) as [msgs c]. cbn [fst snd].
  rewrite IH by (unfold wrapU; by rewrite Z.mod_mod).
  rewrite u32_count_step, <- app_assoc, Nat2Z.inj_succ, <- Z.add_1_l. done.
Qed.

Lemma ClearUVEs_spec order m :
  iterates order m ->
  exists out, ClearUVEs order m = Some (u32 (Z.of_nat (size (flat m))), out, Mk ∅ (dsconf_ m)) /\
    out ≡ₚ ((map_to_list (flat m)).*2 ≫= clear_messages).
Proof.
  intros Ho. pose proof (visited_perm order (cmap_ m) Ho) as Hp. change (flat_of (cmap_ m)) with (flat m) in Hp.
  assert (Hl : zlen (visited order (cmap_ m)) = Z.of_nat (size (flat m))).
  { by rewrite Hp, length_fmap, length_map_to_list. }
  exists (visited order (cmap_ m) ≫= clear_messages). split; [|by rewrite Hp]. rewrite <- Hl. unfold ClearUVEs.
  assert (Hin : forall n, n ∈ order -> is_Some (cmap_ m !! n)).
  { intros n. by rewrite Ho, elem_of_elements, elem_of_dom. }
  enough (forall count out, count = u32 count ->
    foldM (fun name '(count, out) =>
      tmap ← cmap_ m !! name; Some (clear_tables (sorted_entries tmap) count out)) order (count, out) =
    Some (u32 (count + zlen (visited order (cmap_ m))), out ++ (visited order (cmap_ m) ≫= clear_messages))) as H.
  { by rewrite (H 0 []). }
  clear Ho Hp Hl. induction order as [|n order IH]; intros count out Hc.
  { cbn. by rewrite Z.add_0_r, <- Hc, app_nil_r. }
  destruct (Hin n ltac:(by left)) as [tm Htm]. cbn [foldM]. rewrite Htm. cbn [mbind option_bind].
  rewrite clear_tables_spec by done. etrans; [apply IH|].
  { intros. apply Hin. by right. }
  { unfold wrapU. by rewrite Z.mod_mod. }
  change (visited (n :: order) (cmap_ m)) with
    ((sorted_entries (default ∅ (cmap_ m !! n))).*2 ++ visited order (cmap_ m)).
  rewrite Htm. cbn [default from_option id]. rewrite bind_app, app_assoc, length_app, length_fmap.
  unfold wrapU. rewrite Zplus_mod_idemp_l. by rewrite Nat2Z.inj_add, Z.add_assoc.
Qed.

(** ** [InitDerivedStats] *)
Lemma conf_rounds_spec (l : list (string * string)) (conf : ds_conf_elem) failure :
  NoDup l.*1 ->
  exists dsnew, foldl (fun s kv => conf_round kv s) (conf, failure) l =
      (dsnew, failure || bool_decide (Exists (fun k => k ∉ dom conf) l.*1)) /\
    dom dsnew = dom conf /\
    (Forall (fun k => k ∈ dom conf) l.*1 -> dsnew = list_to_map l ∪ conf).
Proof.
  revert conf failure. induction l as [|[k v] l IH]; intros conf failure; cbn [foldl fmap list_fmap fst].
  { exists conf. rewrite bool_decide_false by (by intros ?%Exists_nil). rewrite orb_false_r. split; [done|].
    split; [done|]. intros _. cbn. by rewrite (left_id_L ∅ (∪)). }
  intros [Hk Hn]%list.NoDup_cons. unfold conf_round at 2. cbn [fst snd].
  destruct (conf !! k) as [v0|] eqn:Ek.
  - assert (Hkd : k ∈ dom conf) by (by apply elem_of_dom; exists v0).
    destruct (IH (<[k:=v]> conf) failure Hn) as (dsnew&->&Hd&Hu).
    assert (Hdom : dom (<[k:=v]> conf) = dom conf) by (rewrite dom_insert_L; set_solver).
    rewrite Hdom in *. exists dsnew. split_and!; [|done|].
    + do 2 f_equal. apply bool_decide_ext. rewrite Exists_cons. naive_solver.
    + intros [_ Hf]%list.Forall_cons. rewrite (Hu Hf). cbn [list_to_map foldr fst snd uncurry].
      rewrite <- insert_union_l. rewrite <- insert_union_r; [done|]. by apply not_elem_of_list_to_map_1.
  - assert (Hkd : k ∉ dom conf) by (by apply not_elem_of_dom).
    destruct (IH conf true Hn) as (dsnew&->&Hd&_). exists dsnew. split_and!; [|done|by intros [? _]%list.Forall_cons].
    rewrite (bool_decide_true (Exists _ (k :: _))) by (by left). by rewrite orb_true_r.
Qed.

Definition reset_of (conf : ds_conf_elem) e : option (UVEMapEntry U) :=
  c ← T_InitDerivedStats (data e) conf; Some (MkEntry c (seqno e) (level e)).

Lemma reset_entries_spec conf (l : list (string * UVEMapEntry U)) tm :
  dom (T_DSConf (U := U)) ⊆ dom conf -> NoDup l.*1 -> (forall k e, (k, e) ∈ l -> tm !! k = Some e) ->
  exists tm', foldM (reset_entry conf) l tm = Some tm' /\
    forall t, tm' !! t = if decide (t ∈ l.*1) then tm !! t ≫= reset_of conf else tm !! t.
Proof.
  intros Hd. revert tm. induction l as [|[k e] l IH]; intros tm Hn Hl.
  { exists tm. split; [done|]. intros t. rewrite decide_False; [done|]. apply not_elem_of_nil. }
  cbn [fmap list_fmap fst] in Hn |- *. apply list.NoDup_cons in Hn as [Hk Hn].
  destruct (init_defined (data e) conf Hd) as (c&Ec&_). cbn [foldM].
  assert (reset_entry conf (k, e) tm = Some (<[k:=MkEntry c (seqno e) (level e)]> tm)) as ->.
  { unfold reset_entry. cbn [fst snd]. by rewrite Ec. }
  cbn [mbind option_bind].
  destruct (IH (<[k:=MkEntry c (seqno e) (level e)]> tm) Hn) as (tm'&E&Htm').
  { intros k' e' Hin. assert (k' <> k).
    { intros ->. apply Hk, list_elem_of_fmap. by exists (k, e'). }
    rewrite lookup_insert_ne by done. apply Hl. by right. }
  exists tm'. split; [done|]. intros t. rewrite Htm'. destruct (decide (t = k)) as [->|Hne].
  - rewrite decide_False by done. rewrite decide_True by by left. rewrite lookup_insert_eq.
    rewrite (Hl k e) by by left. unfold reset_of. cbn [mbind option_bind]. by rewrite Ec.
  - rewrite lookup_insert_ne by done. destruct (decide (t ∈ l.*1)).
    + by rewrite decide_True by by right.
    + rewrite decide_False; [done|]. by intros [?|?]%elem_of_cons.
Qed.

Lemma reset_of_ok conf n t e :
  dom (T_DSConf (U := U)) ⊆ dom conf -> entry_ok n t e ->
  exists e', reset_of conf e = Some e' /\ entry_ok n t e' /\ seqno e' = seqno e.
Proof.
  intros Hd (Hn&Ht&Hne&H0). unfold reset_of. destruct (init_defined (data e) conf Hd) as (c&->&H1&H2&H3).
  eexists. split; [done|]. split; [|done]. unfold entry_ok. cbn [data]. rewrite H1, H2, H3. done.
Qed.

Lemma reset_order_spec conf order cm :
  dom (T_DSConf (U := U)) ⊆ dom conf -> NoDup order -> (forall n, n ∈ order -> is_Some (cm !! n)) ->
  exists cm', foldM (fun name cm =>
      tmap ← cm !! name; tmap ← foldM (reset_entry conf) (sorted_entries tmap) tmap; Some (<[name:=tmap]> cm))
      order cm = Some cm' /\ dom cm' = dom cm /\
    forall n t, flat_of cm' !! (n, t) =
      if decide (n ∈ order) then flat_of cm !! (n, t) ≫= reset_of conf else flat_of cm !! (n, t).
Proof.
  intros Hd. revert cm. induction order as [|n order IH]; intros cm Hn Hin.
  { exists cm. split; [done|]. split; [done|]. intros. rewrite decide_False; [done|]. apply not_elem_of_nil. }
  apply list.NoDup_cons in Hn as [Hnot Hn]. destruct (Hin n ltac:(by left)) as [tm Htm].
  destruct (reset_entries_spec conf (sorted_entries tm) tm Hd) as (tm'&Etm&Htm').
  { apply NoDup_sorted. }
  { intros k e. apply elem_of_sorted. }
  cbn [foldM]. rewrite Htm. cbn [mbind option_bind]. rewrite Etm. cbn [mbind option_bind].
  destruct (IH (<[n:=tm']> cm) Hn) as (cm'&E&Hdom&Hfl).
  { intros n' Hn'. rewrite lookup_insert_is_Some. destruct (decide (n = n')); [by left|right].
    split; [done|]. apply Hin. by right. }
  exists cm'. split; [done|]. split.
  { rewrite Hdom, dom_insert_L. assert (n ∈ dom cm) by (apply elem_of_dom; by exists tm). set_solver. }
  intros n' t. rewrite Hfl, flat_insert. destruct (decide (n' = n)) as [->|Hnn].
  - rewrite decide_False by done. rewrite decide_True by by left.
    rewrite flat_lookup, Htm, Htm'. cbn [mbind option_bind]. case_decide as Ht; [done|].
    destruct (tm !! t) as [e|] eqn:Ee; [|done]. exfalso. apply Ht, list_elem_of_fmap.
    exists (t, e). split; [done|]. by apply elem_of_sorted.
  - destruct (decide (n' ∈ order)); [by rewrite decide_True by by right|].
    rewrite decide_False; [done|]. by intros [?|?]%elem_of_cons.
Qed.

(** Whether a table map is empty shows in [flat]. *)
Lemma nonempty_flat cm : (forall n tm, cm !! n = Some tm -> tm <> ∅) <->
  forall n, n ∈ dom cm -> exists t e, flat_of cm !! (n, t) = Some e.
Proof.
  split.
  - intros H n [tm E]%elem_of_dom. destruct (map_choose tm) as (t&e&Et); [by eapply H|].
    exists t, e. by rewrite flat_lookup, E.
  - intros H n tm E ->. destruct (H n) as (t&e&Et); [apply elem_of_dom; by exists ∅|].
    by rewrite flat_lookup, E in Et.
Qed.

Lemma InitDerivedStats_spec order conf m :
  wf m -> iterates order m ->
  exists ok m', InitDerivedStats order conf m = Some (ok, m') /\ wf m' /\
    ok = bool_decide (dom conf ⊆ dom (T_DSConf (U := U))) /\
    (if ok then dsconf_ m' = conf ∪ dsconf_ m /\ flat m' = omap (reset_of (conf ∪ dsconf_ m)) (flat m)
     else m' = m).
Proof.
  intros Hw Ho. pose proof Hw as (Hne&Hf&Hd). unfold InitDerivedStats.
  destruct (conf_rounds_spec (sorted_entries conf) (dsconf_ m) false) as (dsnew&->&Hdn&Hu); [apply NoDup_sorted|].
  cbn [orb]. assert (Hkeys : Exists (fun k => k ∉ dom (dsconf_ m)) (sorted_entries conf).*1 <->
    ~ dom conf ⊆ dom (T_DSConf (U := U))).
  { rewrite <- Hd, list.Exists_exists. split.
    - intros (k&Hk&Hkn) Hs. apply Hkn, Hs. apply list_elem_of_fmap in Hk as ([k' v]&->&Hk).
      apply elem_of_sorted in Hk. apply elem_of_dom. by exists v.
    - intros Hs. destruct (decide (Exists (fun k => k ∉ dom (dsconf_ m)) (sorted_entries conf).*1)) as [He|He].
      { by apply list.Exists_exists in He. }
      exfalso. apply Hs. intros k [v Hk]%elem_of_dom. destruct (decide (k ∈ dom (dsconf_ m))) as [|Hkn]; [done|].
      exfalso. apply He, list.Exists_exists. exists k. split; [|done]. apply list_elem_of_fmap. exists (k, v).
      split; [done|]. by apply elem_of_sorted. }
  case_bool_decide as Hex.
  - exists false, m. split; [done|]. split; [done|]. split; [|done].
    by rewrite bool_decide_false by by apply Hkeys.
  - assert (Hsub : dom conf ⊆ dom (T_DSConf (U := U))).
    { destruct (decide (dom conf ⊆ dom (T_DSConf (U := U)))); [done|]. exfalso. by apply Hex, Hkeys. }
    assert (dsnew = conf ∪ dsconf_ m) as ->.
    { rewrite Hu. 2:{ apply list.Forall_forall. intros k Hk. apply list_elem_of_fmap in Hk as ([k' v]&->&Hk).
        rewrite Hd. apply Hsub, elem_of_dom. exists v. by apply elem_of_sorted. }
      f_equal. rewrite <- (list_to_map_to_list conf) at 2. apply list_to_map_proper; [apply NoDup_sorted|].
      apply sorted_entries_perm. }
    destruct (reset_order_spec (conf ∪ dsconf_ m) order (cmap_ m)) as (cm&->&Hdom&Hfl).
    { by rewrite Hdn, Hd. }
    { rewrite Ho. apply NoDup_elements. }
    { intros n. by rewrite Ho, elem_of_elements, elem_of_dom. }
    assert (Hfl' : flat (Mk cm (conf ∪ dsconf_ m)) = omap (reset_of (conf ∪ dsconf_ m)) (flat m)).
    { apply map_eq. intros [n t]. unfold flat. cbn [cmap_]. rewrite Hfl, lookup_omap. case_decide as Hin; [done|].
      rewrite flat_lookup. destruct (cmap_ m !! n) as [tm|] eqn:En; [|done]. exfalso. apply Hin.
      rewrite Ho. apply elem_of_elements, elem_of_dom. by exists tm. }
    assert (Hall : forall n t e, flat m !! (n, t) = Some e ->
      exists e', reset_of (conf ∪ dsconf_ m) e = Some e' /\ entry_ok n t e').
    { intros n t e He. destruct (reset_of_ok (conf ∪ dsconf_ m) n t e) as (e'&?&?&_);
        [by rewrite Hdn, Hd|by apply Hf|by exists e']. }
    eexists true, _. split; [done|]. split; [split_and!|].
    + apply nonempty_flat. cbn [cmap_]. rewrite Hdom. intros n Hn.
      destruct (proj1 (nonempty_flat (cmap_ m)) Hne n Hn) as (t&e&He). destruct (Hall n t e He) as (e'&He'&_).
      exists t, e'. change (flat (Mk cm (conf ∪ dsconf_ m)) !! (n, t) = Some e'). rewrite Hfl', lookup_omap.
      change (flat m !! (n, t) ≫= reset_of (conf ∪ dsconf_ m) = Some e'). unfold flat. by rewrite He.
    + intros n t e. rewrite Hfl', lookup_omap. intros (e0&He0&Hr)%bind_Some.
      destruct (Hall n t e0 He0) as (e'&?&?). congruence.
    + cbn [dsconf_]. by rewrite Hdn.
    + by rewrite bool_decide_true.
Qed.

(** ** [SendUVE] *)
Definition send_type (ctx : string) : SendType := if bool_decide (ctx = EmptyString) then ST_INTROSPECT else ST_SYNC.
Definition sent_after (ctx : string) e : UVEMapEntry U :=
  MkEntry (snd (LoadUVE (send_type ctx) 0 (data e))) (seqno e) (level e).
Definition sent_messages (table ctx : string) (p : string * UVEMapEntry U) : list (sent U) :=
  if wanted table p.1 then fst (T_Send (data p.2) (level p.2) (send_type ctx) (seqno p.2) 0 ctx) else [].

Lemma send_entries_spec table ctx (l : list (string * UVEMapEntry U)) was out tm :
  NoDup l.*1 -> (forall k e, (k, e) ∈ l -> tm !! k = Some e) ->
  exists tm', foldl (fun s kv => send_entry table ctx kv s) (was, out, tm) l =
      (was || existsb (fun p => wanted table p.1) l, out ++ (l ≫= sent_messages table ctx), tm') /\
    forall t, tm' !! t = if decide (t ∈ l.*1 /\ wanted table t = true) then sent_after ctx <$> tm !! t else tm !! t.
Proof.
  revert was out tm. induction l as [|[k e] l IH]; intros was out tm Hn Hl.
  { exists tm. cbn [foldl existsb mbind list_bind]. rewrite orb_false_r, app_nil_r. split; [done|].
    intros t. rewrite decide_False; [done|]. intros [?%not_elem_of_nil _]. done. }
  cbn [fmap list_fmap fst] in Hn |- *. apply list.NoDup_cons in Hn as [Hk Hn].
  cbn [foldl existsb mbind list_bind]. unfold send_entry at 2, sent_messages at 1. cbn [fst snd].
  rewrite not_wanted. assert (Hke : tm !! k = Some e) by (apply Hl; by left).
  assert (Hcase : forall tm1 : gmap string (UVEMapEntry U), (forall t, t <> k -> tm1 !! t = tm !! t) ->
    tm1 !! k = Some (if wanted table k then sent_after ctx e else e) ->
    forall t, (if decide (t ∈ l.*1 /\ wanted table t = true) then sent_after ctx <$> tm1 !! t else tm1 !! t) =
      if decide (t ∈ k :: l.*1 /\ wanted table t = true) then sent_after ctx <$> tm !! t else tm !! t).
  { intros tm1 H1 H2 t. destruct (decide (t = k)) as [->|Hne].
    - rewrite decide_False by naive_solver. rewrite H2, Hke.
      destruct (wanted table k); [rewrite decide_True by (split; [by left|done])|rewrite decide_False by naive_solver]; done.
    - rewrite H1 by done. assert (t ∈ k :: l.*1 <-> t ∈ l.*1) as Ht by (rewrite elem_of_cons; naive_solver).
      by rewrite (decide_ext _ (t ∈ k :: l.*1 /\ wanted table t = true)) by by rewrite Ht. }
  destruct (wanted table k) eqn:Ewk; cbn [negb].
  - change (if bool_decide (ctx = EmptyString) then ST_INTROSPECT else ST_SYNC) with (send_type ctx).
    pose proof (T_Send_cached (data e) (level e) (send_type ctx) (seqno e) 0 ctx) as Hc.
    destruct (T_Send _ _ _ _ _ _) as [msgs c]. cbn [snd fst] in *.
    destruct (IH true (out ++ msgs) (<[k:=MkEntry c (seqno e) (level e)]> tm) Hn) as (tm'&->&Htm').
    { intros k' e' Hin. assert (k' <> k).
      { intros ->. apply Hk, list_elem_of_fmap. by exists (k, e'). }
      rewrite lookup_insert_ne by done. apply Hl. by right. }
    exists tm'. rewrite <- app_assoc. cbn [orb]. rewrite orb_true_r. split; [done|]. intros t. rewrite Htm'.
    apply Hcase; [intros; by rewrite lookup_insert_ne|]. rewrite lookup_insert_eq. unfold sent_after. by rewrite <- Hc.
  - destruct (IH was out tm Hn) as (tm'&->&Htm'); [intros; apply Hl; by right|].
    exists tm'. cbn [orb app]. split; [done|]. intros t. rewrite Htm'. by apply Hcase.
Qed.

Lemma sent_after_ok ctx n t e : entry_ok n t e -> entry_ok n t (sent_after ctx e).
Proof.
  intros (Hn&Ht&Hne&H0). destruct (load_cached (send_type ctx) 0 (data e)) as (H1&H2&H3).
  unfold entry_ok, sent_after. cbn [data]. rewrite H1, H2, H3. done.
Qed.

Lemma SendUVE_spec table name ctx m :
  wf m -> exists was out m', SendUVE table name ctx m = (was, out, m') /\ wf m' /\ dsconf_ m' = dsconf_ m /\
    (was = true <-> exists t e, flat m !! (name, t) = Some e /\ wanted table t = true) /\
    out = (sorted_entries (default ∅ (cmap_ m !! name)) ≫= sent_messages table ctx) /\
    forall n t, flat m' !! (n, t) =
      if decide (n = name /\ wanted table t = true) then sent_after ctx <$> flat m !! (n, t) else flat m !! (n, t).
Proof.
  intros Hw. pose proof Hw as (Hne&Hf&Hd). unfold SendUVE. destruct (cmap_ m !! name) as [tm|] eqn:En.
  - destruct (send_entries_spec table ctx (sorted_entries tm) false [] tm) as (tm'&->&Htm');
      [apply NoDup_sorted|intros k e; apply elem_of_sorted|].
    assert (Hin : forall t, t ∈ (sorted_entries tm).*1 <-> is_Some (tm !! t)).
    { intros t. rewrite list_elem_of_fmap. split.
      - intros ([t' e]&->&Ht%elem_of_sorted). by exists e.
      - intros [e He]. exists (t, e). split; [done|]. by apply elem_of_sorted. }
    set (m' := Mk _ _).
    assert (Hfl : forall n t, flat m' !! (n, t) =
      if decide (n = name /\ wanted table t = true) then sent_after ctx <$> flat m !! (n, t) else flat m !! (n, t)).
    { intros n t. unfold flat, m'. cbn [cmap_]. rewrite flat_insert. destruct (decide (n = name)) as [->|Hnn].
      - rewrite Htm', flat_lookup, En. cbn [mbind option_bind].
        destruct (tm !! t) eqn:Et; do 2 case_decide; try done; exfalso; naive_solver.
      - rewrite decide_False by naive_solver. done. }
    eexists _, _, m'. split; [done|]. split_and!; [split_and!|done| |done|done].
    + unfold m'. cbn [cmap_]. intros n tm0 [[_ <-]|[_ ?]]%lookup_insert_Some; [|by eapply Hne]. intros ->.
      destruct (map_choose tm) as (t&e&Et); [by eapply Hne|]. specialize (Htm' t). rewrite Et, lookup_empty in Htm'.
      case_decide; done.
    + intros n t e. rewrite Hfl. case_decide; [|by apply Hf].
      intros (e0&He0&->)%fmap_Some. by apply sent_after_ok, Hf.
    + done.
    + cbn [orb]. rewrite existsb_exists. unfold flat. setoid_rewrite flat_lookup. rewrite En. cbn [mbind option_bind].
      split; [intros ([t e]&Ht%list_elem_of_In%elem_of_sorted&Hwt); by exists t, e|].
      intros (t&e&Ht&Hwt). exists (t, e). split; [|done]. by apply list_elem_of_In, elem_of_sorted.
  - exists false, [], m. assert (Hno : forall t, flat m !! (name, t) = None).
    { intros t. unfold flat. by rewrite flat_lookup, En. }
    split_and!; try done.
    + split; [done|]. intros (t&e&Ht&_). by rewrite Hno in Ht.
    + intros n t. case_decide as H; [|done]. destruct H as [-> _]. by rewrite Hno.
Qed.

(** ** A table that is not everybody's: the loop does not advance *)
Lemma sync_tables_stuck table st seq cycle ctx fuel l tm count out :
  Exists (fun k => wanted table k = false) l.*1 ->
  sync_tables TM fuel table st seq cycle ctx l tm count out = None.
Proof.
  revert l tm count out. induction fuel as [|fuel IH]; intros l tm count out Hex; [done|].
  destruct l as [|[k e] l]; cbn [fmap list_fmap fst] in Hex; [by apply Exists_nil in Hex|].
  cbn [sync_tables]. rewrite not_wanted. destruct (wanted table k) eqn:Ek; cbn [negb].
  - assert (Exists (fun k => wanted table k = false) l.*1) by (apply Exists_cons in Hex as [?|?]; [congruence|done]).
    destruct (_ || _); [|by apply IH]. destruct (T_Send _ _ _ _ _ _). by apply IH.
  - apply IH. cbn [fmap list_fmap fst]. by left.
Qed.

Lemma sync_order_stuck table st seq cycle ctx fuel order cm count out n t :
  n ∈ order -> NoDup order -> is_Some (flat_of cm !! (n, t)) -> wanted table t = false ->
  foldM (sync_round TM fuel table st seq cycle ctx) order (count, out, cm) = None.
Proof.
  revert cm count out. induction order as [|n' order IH]; intros cm count out Hin Hn Hs Ht;
    [by apply not_elem_of_nil in Hin|].
  apply list.NoDup_cons in Hn as [Hnot Hn]. cbn [foldM].
  destruct (cm !! n') as [tm|] eqn:En.
  2: { assert (sync_round TM fuel table st seq cycle ctx n' (count, out, cm) = None) as ->; [|done].
       unfold sync_round. by rewrite En. }
  rewrite (sync_round_eq _ _ _ _ _ _ _ _ _ _ _ En).
  destruct (decide (n' = n)) as [->|Hne].
  - rewrite sync_tables_stuck; [done|]. apply list.Exists_exists. exists t. split; [|done].
    rewrite flat_lookup, En in Hs. destruct Hs as [e He]. apply list_elem_of_fmap. exists (t, e).
    split; [done|]. by apply elem_of_sorted.
  - destruct (sync_tables _ _ _ _ _ _ _ _ _ _ _) as [[[tm' c'] o']|]; [|done]. cbn [mbind option_bind].
    apply IH; [by apply elem_of_cons in Hin as [?|?]|done| |done]. by rewrite flat_put, decide_False.
Qed.

(** ** What is sent *)
Lemma T_Send_message (c : U) lvl st seq cycle ctx msg :
  msg ∈ fst (T_Send c lvl st seq cycle ctx) ->
  same_id (msg_data msg) c /\ msg_level msg = lvl /\ msg_type msg = st /\ msg_seqno msg = seq /\
  msg_cycle msg = cycle /\ msg_context msg = ctx.
Proof.
  unfold T_Send. pose proof (load_message st cycle c) as Hl. destruct (LoadUVE st cycle c) as [[u|] c']; cbn in *.
  - intros ->%list_elem_of_singleton. cbn. by split; [apply Hl|].
  - by intros ?%not_elem_of_nil.
Qed.
Lemma T_Send_sends (c : U) lvl st seq cycle ctx :
  st <> ST_PERIODIC \/ get_deleted c = true ->
  exists msg, fst (T_Send c lvl st seq cycle ctx) = [msg].
Proof.
  intros Hs. unfold T_Send. destruct (load_sends st cycle c Hs) as [u Hu].
  destruct (LoadUVE st cycle c) as [[u'|] c']; [by eexists|done].
Qed.

Lemma wanted_all cm n t : is_Some (flat_of cm !! (n, t)) -> wanted EmptyString t = true.
Proof. done. Qed.

Lemma flat_empty m : wf m -> flat m = ∅ -> cmap_ m = ∅.
Proof.
  intros (Hne&_) He. apply map_empty. intros n. destruct (cmap_ m !! n) as [tm|] eqn:En; [|done].
  destruct (proj1 (nonempty_flat (cmap_ m)) Hne n) as (t&e&Hl); [apply elem_of_dom; by exists tm|].
  change (flat m !! (n, t) = Some e) in Hl. by rewrite He, lookup_empty in Hl.
Qed.

(** A round with seqno 0 in a cycle that is due. *)
Lemma after_due cycle e :
  0 < TM -> cycle mod TM = 0 ->
  after ST_PERIODIC 0 cycle e =
    if get_deleted (data e) then None
    else Some (MkEntry (set_deleted true (snd (LoadUVE ST_PERIODIC cycle (data e)))) (seqno e) (level e)).
Proof.
  intros HT Hc. unfold after, selected. rewrite orb_true_r. unfold due. rewrite Hc.
  replace (TM =? 0) with false by lia. cbn [negb andb bool_decide]. rewrite bool_decide_true by done. cbn [andb Z.eqb].
  by destruct (load_cached ST_PERIODIC cycle (data e)) as (_&_&->).
Qed.

(** An object marked as deleted is sent as such in the next round. *)
Lemma deleted_sent cycle n t e m out :
  out ≡ₚ ((map_to_list (flat m)).*2 ≫= messages ST_PERIODIC 0 cycle EmptyString) ->
  flat m !! (n, t) = Some e -> entry_ok n t e -> get_deleted (data e) = true ->
  exists msg, msg ∈ out /\ get_name (msg_data msg) = n /\ table_ (msg_data msg) = t /\
    get_deleted (msg_data msg) = true /\ msg_seqno msg = seqno e.
Proof.
  intros Hout He (Hn&Ht&_) Hd.
  destruct (T_Send_sends (data e) (level e) ST_PERIODIC (seqno e) cycle EmptyString) as [msg Hm]; [by right|].
  destruct (T_Send_message (data e) (level e) ST_PERIODIC (seqno e) cycle EmptyString msg) as ((H1&H2&H3)&_&_&H4&_).
  { rewrite Hm. by left. }
  exists msg. split_and!; [|congruence..]. rewrite Hout. apply list_elem_of_bind. exists e. split.
  - unfold messages, selected. rewrite orb_true_r, Hm. by left.
  - apply list_elem_of_fmap. exists (n, t, e). split; [done|]. by apply elem_of_map_to_list.
Qed.

End Spec.
End UveMapSpec.
