(* ===== verification/UveGroupSpec.v ===== *)
(** * The caches of a type: native and proxy groups

    Loops over all caches of a type ([fold_places]), the invariant of a group, and what
    can happen to one. *)

From stdpp Require Import sorting.
From S2P Require Import Prelude Uve UveSpec.
Import UveMap UveMapSpec UveGroup.
Local Open Scope Z_scope.

Module UveGroupSpec.
Section Spec.
Context {U : Type} `{!UveType U} `{!UveLaws U}.
Variable TM : Z.
Implicit Types (g : UveGroup.t U) (m : UveMap.t U) (p q : place).

(** ** Places *)
Lemma at_set_same p m g : is_Some (at_place p g) -> at_place p (set_place p m g) = Some m.
Proof.
  destruct p as [[proxy idx]|]; [|done]. cbn [at_place set_place group_map_]. intros [m0 H].
  rewrite lookup_alter_eq. destruct (group_map_ g !! proxy) as [pm|]; [|done].
  cbn [fmap option_fmap option_map mbind option_bind]. by rewrite lookup_insert_eq.
Qed.
Lemma at_set_other p q m g : p <> q -> at_place q (set_place p m g) = at_place q g.
Proof.
  destruct p as [[proxy idx]|], q as [[proxy' idx']|]; cbn [at_place set_place group_map_ native_map_]; try done.
  intros Hne. destruct (decide (proxy' = proxy)) as [->|Hp].
  - rewrite lookup_alter_eq. destruct (group_map_ g !! proxy) as [pm|]; [|done].
    cbn [fmap option_fmap option_map mbind option_bind]. rewrite lookup_insert_ne; [done|congruence].
  - by rewrite lookup_alter_ne.
Qed.

(** Which partitions there are. *)
Definition shape g : gmap string (gset Z) := (fun pm : gmap Z (UveMap.t U) => dom pm) <$> group_map_ g.
Lemma shape_set p m g : is_Some (at_place p g) -> shape (set_place p m g) = shape g.
Proof.
  destruct p as [[proxy idx]|]; [|done]. cbn [at_place set_place]. intros [m0 H]. unfold shape. cbn [group_map_].
  apply map_eq. intros proxy'. rewrite !lookup_fmap. destruct (decide (proxy' = proxy)) as [->|Hp].
  - rewrite lookup_alter_eq. destruct (group_map_ g !! proxy) as [pm|]; [|done].
    cbn in *. f_equal. rewrite dom_insert_L. assert (idx ∈ dom pm) by (apply elem_of_dom; by exists m0). set_solver.
  - by rewrite lookup_alter_ne.
Qed.
Lemma places_shape g g' : shape g' = shape g -> forall p, p ∈ places g' <-> p ∈ places g.
Proof.
  intros Hs p. assert (Hd : dom (group_map_ g') = dom (group_map_ g)).
  { rewrite <- (dom_fmap_L (fun pm : gmap Z (UveMap.t U) => dom pm) (group_map_ g')).
    rewrite <- (dom_fmap_L (fun pm : gmap Z (UveMap.t U) => dom pm) (group_map_ g)). by f_equal. }
  assert (Hp : forall gg proxy, proxy ∈ GetGMaps gg <-> proxy ∈ dom (group_map_ (U := U) gg)).
  { intros gg proxy. unfold GetGMaps. rewrite list_elem_of_fmap, elem_of_dom. split.
    - intros ([k pm]&->&H%elem_of_sorted). by exists pm.
    - intros [pm H]. exists (proxy, pm). split; [done|]. by apply elem_of_sorted. }
  unfold places. rewrite !elem_of_cons, !list_elem_of_bind. setoid_rewrite Hp. by rewrite Hd.
Qed.
Lemma NoDup_places g : NoDup (places g).
Proof.
  unfold places. apply list.NoDup_cons. split.
  - intros (proxy&Hin&_)%list_elem_of_bind. by apply list_elem_of_fmap in Hin as (idx&?&_).
  - assert (NoDup (GetGMaps g)) as Hn by apply NoDup_sorted. revert Hn. generalize (GetGMaps g). intros l.
    induction 1 as [|proxy l Hnot Hn IH]; [constructor|]. cbn [mbind list_bind]. apply list.NoDup_app. split_and!.
    + apply NoDup_fmap_2; [intros ? ? [=]; done|]. apply NoDup_seqZ.
    + intros q H1 (proxy'&H2&Hp')%list_elem_of_bind. apply list_elem_of_fmap in H1 as (?&->&_).
      apply list_elem_of_fmap in H2 as (?&[= ->]&_). done.
    + done.
Qed.

(** The generic loop over caches. *)
Definition place_loop {A X} (acc : A -> X -> A) (F : place -> UveMap.t U -> option (X * UveMap.t U)) (p : place)
    (s : A * UveGroup.t U) : option (A * UveGroup.t U) :=
  m ← at_place p s.2; r ← F p m; Some (acc s.1 r.1, set_place p r.2 s.2).

Lemma fold_places {A X} (acc : A -> X -> A) F (R : place -> UveMap.t U -> X -> UveMap.t U -> Prop) ps a g :
  NoDup ps ->
  (forall p, p ∈ ps -> exists m x m', at_place p g = Some m /\ F p m = Some (x, m') /\ R p m x m') ->
  exists xs g', foldM (place_loop acc F) ps (a, g) = Some (foldl acc a xs, g') /\
    shape g' = shape g /\ lseqnum_ g' = lseqnum_ g /\
    (forall q, q ∉ ps -> at_place q g' = at_place q g) /\
    Forall2 (fun p x => p ∈ ps /\
      exists m m', at_place p g = Some m /\ at_place p g' = Some m' /\ R p m x m') ps xs.
Proof.
  revert a g. induction ps as [|p ps IH]; intros a g Hn HF.
  { exists [], g. by split_and!. }
  apply list.NoDup_cons in Hn as [Hnot Hn]. destruct (HF p ltac:(by left)) as (m&x&m'&Hm&Hx&HR).
  cbn [foldM].
  assert (place_loop acc F p (a, g) = Some (acc a x, set_place p m' g)) as ->.
  { unfold place_loop. cbn [fst snd]. rewrite Hm. cbn [mbind option_bind]. by rewrite Hx. }
  cbn [mbind option_bind].
  destruct (IH (acc a x) (set_place p m' g) Hn) as (xs&g'&E&Hs&Hl&Ho&H2).
  { intros q Hq. destruct (HF q ltac:(by right)) as (mq&xq&mq'&Hmq&?). exists mq, xq, mq'.
    split; [|done]. rewrite at_set_other; [done|]. by intros ->. }
  exists (x :: xs), g'. split; [done|]. split; [by rewrite Hs, shape_set by by exists m|].
  split; [rewrite Hl; by destruct p as [[]|]|]. split.
  - intros q [Hq Hqs]%not_elem_of_cons. rewrite Ho by done. by apply at_set_other.
  - constructor.
    + split; [by left|]. exists m, m'. split; [done|]. split; [|done]. rewrite Ho by done.
      apply at_set_same. by exists m.
    + eapply list.Forall2_impl; [exact H2|]. intros q y [Hq (mq&mq'&Hmq&?)]. split; [by right|]. exists mq, mq'.
      rewrite at_set_other in Hmq by by intros ->. done.
Qed.

(** ** The invariant *)
Definition inv g : Prop :=
  (forall p m, at_place p g = Some m -> wf TM m) /\
  (forall proxy ks, shape g !! proxy = Some ks -> ks = list_to_set partitions).

(** The orders in which the caches can be iterated, and fuel that is enough for all. *)
Definition iterates_all (ord : place -> list string) g : Prop :=
  forall p m, at_place p g = Some m -> iterates (ord p) m.
Definition enough_all (fuel : nat) g : Prop := forall p m, at_place p g = Some m -> enough fuel m.

Lemma elem_of_partitions idx : idx ∈ partitions <-> 0 <= idx < kProxyPartitions.
Proof. unfold partitions. rewrite elem_of_seqZ. lia. Qed.

Lemma at_places g p : inv g -> p ∈ places g <-> is_Some (at_place p g).
Proof.
  intros [_ Hs]. unfold places. rewrite elem_of_cons, list_elem_of_bind. destruct p as [[proxy idx]|].
  - assert (Hg : forall pm, group_map_ g !! proxy = Some pm -> (is_Some (pm !! idx) <-> idx ∈ partitions)).
    { intros pm Hpm. rewrite <- elem_of_dom, (Hs proxy (dom pm)), elem_of_list_to_set; [done|].
      unfold shape. by rewrite lookup_fmap, Hpm. }
    cbn [at_place]. split.
    + intros [?|(proxy'&Hin&Hp)]; [done|]. apply list_elem_of_fmap in Hin as (idx'&[= <- <-]&Hidx).
      apply list_elem_of_fmap in Hp as ([k pm]&->&Hpm%elem_of_sorted). cbn in *. rewrite Hpm. by apply Hg.
    + destruct (group_map_ g !! proxy) as [pm|] eqn:Hpm; [|by intros [? ?]]. cbn [mbind option_bind].
      intros Hi%Hg; [|done]. right. exists proxy. split; [apply list_elem_of_fmap; by exists idx|].
      apply list_elem_of_fmap. exists (proxy, pm). split; [done|]. by apply elem_of_sorted.
  - split; [by eexists|by left].
Qed.

(** A loop over all caches that keeps each of them well-formed. *)
Lemma all_places {A X} (acc : A -> X -> A) F R a g :
  inv g ->
  (forall p m, at_place p g = Some m -> exists x m', F p m = Some (x, m') /\ wf TM m' /\ R p m x m') ->
  exists xs g', foldM (place_loop acc F) (places g) (a, g) = Some (foldl acc a xs, g') /\ inv g' /\
    lseqnum_ g' = lseqnum_ g /\ (forall p, is_Some (at_place p g') <-> is_Some (at_place p g)) /\
    Forall2 (fun p x => exists m m', at_place p g = Some m /\ at_place p g' = Some m' /\ R p m x m') (places g) xs.
Proof.
  intros Hi HF. pose proof Hi as [Hw Hs].
  destruct (fold_places acc F (fun p m x m' => wf TM m' /\ R p m x m') (places g) a g) as (xs&g'&E&Hsh&Hl&Ho&H2).
  { apply NoDup_places. }
  { intros p [m Hm]%(at_places g p Hi). destruct (HF p m Hm) as (x&m'&?&?&?). by exists m, x, m'. }
  assert (Hin : forall p, p ∈ places g -> exists m' x m, at_place p g' = Some m' /\ wf TM m' /\ R p m x m').
  { intros p Hp. apply list_elem_of_lookup in Hp as [i Hp].
    destruct (Forall2_lookup_l _ _ _ _ _ H2 Hp) as (x&_&_&m&m'&_&?&?&?). by exists m', x, m. }
  assert (Hp : forall p, is_Some (at_place p g') <-> is_Some (at_place p g)).
  { intros p. rewrite <- (at_places g p Hi). split.
    - intros Hp. destruct (decide (p ∈ places g)) as [|Hn]; [done|]. rewrite Ho in Hp by done. by apply at_places.
    - intros (m'&?&?&?&_)%Hin. by exists m'. }
  exists xs, g'. split; [done|]. split; [split|split; [done|split; [done|]]].
  - intros p m' Hm'. destruct (Hin p) as (m1&_&_&Hm1&?&_); [|congruence].
    apply (at_places g p Hi), Hp. by exists m'.
  - by rewrite Hsh.
  - eapply list.Forall2_impl; [exact H2|]. intros p x [_ (m&m'&?&?&_&?)]. by exists m, m'.
Qed.

(** ** The operations of a group *)
Lemma set_place_inv p m g : inv g -> is_Some (at_place p g) -> wf TM m -> inv (set_place p m g).
Proof.
  intros [Hw Hs] Hp Hm. split; [|by rewrite shape_set]. intros q m' Hq. destruct (decide (p = q)) as [<-|Hne].
  - rewrite at_set_same in Hq by done. congruence.
  - rewrite at_set_other in Hq by done. by eapply Hw.
Qed.

Definition sync_acc (s x : Z * list (sent U)) : Z * list (sent U) := (u32 (s.1 + x.1), s.2 ++ x.2).
Lemma SyncUVE_loop fuel ord table st seq cycle ctx g :
  UveGroup.SyncUVE TM fuel ord table st seq cycle ctx g =
  foldM (place_loop sync_acc (fun p m => UveMap.SyncUVE TM fuel (ord p) table st seq cycle ctx m)) (places g) ((0, []), g).
Proof.
  apply foldM_ext. intros p [[c o] g']. unfold place_loop. cbn [fst snd]. destruct (at_place p g'); [|done].
  cbn [mbind option_bind]. by destruct (UveMap.SyncUVE _ _ _ _ _ _ _ _ _) as [[[??]?]|].
Qed.
Definition send_acc (s x : bool * list (sent U)) : bool * list (sent U) := (s.1 || x.1, s.2 ++ x.2).
Lemma SendUVE_loop table name ctx g :
  UveGroup.SendUVE table name ctx g =
  foldM (place_loop send_acc (fun p m => Some (UveMap.SendUVE table name ctx m))) (places g) ((false, []), g).
Proof.
  apply foldM_ext. intros p [[c o] g']. unfold place_loop. cbn [fst snd]. destruct (at_place p g'); [|done].
  cbn [mbind option_bind]. by destruct (UveMap.SendUVE _ _ _ _) as [[??]?].
Qed.

Lemma GetGMap_spec proxy g :
  inv g -> inv (GetGMap proxy g) /\ lseqnum_ (GetGMap proxy g) = lseqnum_ g /\
    (forall idx, 0 <= idx < kProxyPartitions -> is_Some (at_place (Some (proxy, idx)) (GetGMap proxy g))) /\
    (forall p m, at_place p g = Some m -> at_place p (GetGMap proxy g) = Some m) /\
    (forall p m, at_place p (GetGMap proxy g) = Some m -> at_place p g = Some m \/ m = new_map).
Proof.
  intros Hi. unfold GetGMap. destruct (group_map_ g !! proxy) as [pm|] eqn:Hpm.
  { split; [done|]. split; [done|]. split; [|split; [done|by left]]. intros idx Hidx. cbn [at_place]. rewrite Hpm.
    cbn [mbind option_bind]. destruct Hi as [_ Hs]. rewrite <- elem_of_dom, (Hs proxy (dom pm)).
    - by apply elem_of_list_to_set, elem_of_partitions.
    - unfold shape. by rewrite lookup_fmap, Hpm. }
  assert (Hnew : forall idx, new_pmap (U := U) !! idx = if decide (idx ∈ partitions) then Some new_map else None).
  { intros idx. unfold new_pmap. case_decide as Hidx.
    - apply elem_of_list_to_map_1; [|apply list_elem_of_fmap; by exists idx].
      rewrite <- list_fmap_compose. change (NoDup ((fun x : Z => x) <$> partitions)). rewrite list_fmap_id. apply NoDup_seqZ.
    - apply not_elem_of_list_to_map_1. intros H. apply Hidx. rewrite <- list_fmap_compose in H.
      apply list_elem_of_fmap in H as (idx'&->&?). done. }
  assert (Hat : forall p, at_place p (Mk (<[proxy:=new_pmap]> (group_map_ g)) (native_map_ g) (lseqnum_ g)) =
    match p with
    | Some (proxy', idx) => if decide (proxy' = proxy) then (if decide (idx ∈ partitions) then Some new_map else None)
                            else at_place p g
    | None => at_place p g
    end).
  { intros [[proxy' idx]|]; [|done]. cbn [at_place group_map_]. case_decide as Hp.
    - subst. rewrite lookup_insert_eq. cbn [mbind option_bind]. apply Hnew.
    - by rewrite lookup_insert_ne. }
  destruct Hi as [Hw Hs]. split_and!; [split| | | |].
  - intros [[proxy' idx]|] m; rewrite Hat; [|apply Hw]. case_decide; [|apply Hw]. case_decide; [|done].
    intros [= <-]. apply wf_new.
  - intros proxy' ks. unfold shape. cbn [group_map_]. rewrite lookup_fmap. destruct (decide (proxy' = proxy)) as [->|Hp].
    + rewrite lookup_insert_eq. cbn [fmap option_fmap option_map]. intros <-%(inj Some). apply set_eq. intros idx. rewrite elem_of_dom, Hnew, elem_of_list_to_set.
      by case_decide; split; try done.
    + rewrite lookup_insert_ne by done. intros H. apply (Hs proxy'). unfold shape. by rewrite lookup_fmap.
  - done.
  - intros idx Hidx. rewrite Hat, decide_True by done. rewrite decide_True by (by apply elem_of_partitions). done.
  - intros [[proxy' idx]|] m H; rewrite Hat; [|done]. case_decide as Hp; [|done]. subst. cbn [at_place] in H. by rewrite Hpm in H.
  - intros [[proxy' idx]|] m; rewrite Hat; [|by left]. case_decide; [|by left]. case_decide; [|done].
    intros [= <-]. by right.
Qed.

(** ** Everything that can happen to a group *)
Inductive operation :=
  | OpSend (u : U) (lvl : Z) (table : string) (mono_usec now partition : Z)
  | OpSync (st : SendType) (seq cycle : Z) (ctx : string)
  | OpSendUVE (table name ctx : string)
  | OpClear (proxy : string) (partition : Z)
  | OpInit (dsconf : ds_conf_elem).

(** An update has a table, and a partition is one of the 30. *)
Definition legal (o : operation) : Prop :=
  match o with
  | OpSend u _ table _ _ partition =>
      (table <> EmptyString \/ table_ u <> EmptyString) /\ -1 <= partition < kProxyPartitions
  | OpClear _ partition => 0 <= partition < kProxyPartitions
  | _ => True
  end.

Definition perform (fuel : nat) (ord : place -> list string) (o : operation) (g : UveGroup.t U)
    : option (UveGroup.t U) :=
  match o with
  | OpSend u lvl table mono now partition => snd <$> UveGroup.Send TM u lvl table mono now partition g
  | OpSync st seq cycle ctx => snd <$> UveGroup.SyncUVE TM fuel ord EmptyString st seq cycle ctx g
  | OpSendUVE table name ctx => snd <$> UveGroup.SendUVE table name ctx g
  | OpClear proxy partition => snd <$> UveGroup.ClearUVEs ord proxy partition g
  | OpInit dsconf => snd <$> UveGroup.InitDerivedStats ord dsconf g
  end.

Lemma Send_ok u lvl table mono now partition g :
  inv g -> legal (OpSend u lvl table mono now partition) ->
  exists r g', UveGroup.Send TM u lvl table mono now partition g = Some (r, g') /\ inv g'.
Proof.
  intros Hi [Ht Hp]. unfold UveGroup.Send. set (g0 := Mk _ _ _). set (u0 := if bool_decide _ then _ else _).
  assert (Hi0 : inv g0) by exact Hi.
  assert (Ht0 : table_ u0 <> EmptyString).
  { unfold u0. case_bool_decide as E; [by destruct Ht|]. by destruct (set_table_fields table u) as (_&->&_). }
  assert (Hloc : forall p g1 m, inv g1 -> at_place p g1 = Some m ->
    exists send u' m', UveMap.UpdateUVE TM u0 (u32 (lseqnum_ g + 1)) mono now lvl m = Some (send, u', m') /\
      inv (set_place p m' g1)).
  { intros p g1 m Hi1 Hm. destruct (UpdateUVE_spec TM m u0 (u32 (lseqnum_ g + 1)) mono now lvl) as (send&u'&e&m'&E&Hw&_);
      [by apply (proj1 Hi1 p)|done|]. exists send, u', m'. split; [done|]. apply set_place_inv; [done|by exists m|done]. }
  unfold UveGroup.UpdateUVE. destruct (partition =? -1) eqn:Ep.
  - destruct (Hloc None g0 (native_map_ g0) Hi0 eq_refl) as (send&u'&m'&->&Hi'). cbn [mbind option_bind]. by eexists _, _.
  - replace (partition <? kProxyPartitions) with true by lia. cbn [negb].
    destruct (GetGMap_spec (get_proxy u0) g0 Hi0) as (Hi1&_&Hpart&_). set (g1 := GetGMap (get_proxy u0) g0) in *.
    destruct (Hpart partition) as [m Hm]; [lia|]. rewrite Hm. cbn [mbind option_bind].
    destruct (Hloc _ g1 m Hi1 Hm) as (send&u'&m'&->&Hi'). cbn [mbind option_bind]. by eexists _, _.
Qed.

(** The entries of all caches. *)
Definition entries_at (p : place) g : list (UVEMapEntry U) :=
  match at_place p g with Some m => (map_to_list (flat m)).*2 | None => [] end.
Definition all_entries g : list (UVEMapEntry U) := places g ≫= fun p => entries_at p g.

Lemma sync_acc_spec seq (msgs : UVEMapEntry U -> list (sent U)) (ent : place -> list (UVEMapEntry U)) ps xs c o :
  c = u32 c ->
  Forall2 (fun p (x : Z * list (sent U)) => x.1 = u32 (selected_count seq (ent p)) /\ x.2 ≡ₚ (ent p ≫= msgs)) ps xs ->
  exists o', foldl sync_acc (c, o) xs = (u32 (c + selected_count seq (ps ≫= ent)), o') /\
    o' ≡ₚ o ++ ((ps ≫= ent) ≫= msgs).
Proof.
  intros Hc H. revert c o Hc. induction H as [|p [n out] ps xs [Hn Ho] H IH]; intros c o Hc.
  { exists o. cbn. unfold selected_count. cbn. by rewrite Z.add_0_r, <- Hc, app_nil_r. }
  cbn [fst snd] in *. cbn [foldl mbind list_bind]. unfold sync_acc at 2. cbn [fst snd].
  destruct (IH (u32 (c + n)) (o ++ out)) as (o'&->&Hp); [unfold wrapU; by rewrite Z.mod_mod|].
  exists o'. split.
  - f_equal. rewrite selected_count_app, Hn. unfold wrapU.
    by rewrite Zplus_mod_idemp_l, <- Z.add_assoc, Z.add_comm, <- Z.add_assoc, Zplus_mod_idemp_l, Z.add_assoc, (Z.add_comm (_ + _) c), Z.add_assoc.
  - rewrite Hp, bind_app, app_assoc. by rewrite Ho.
Qed.

Lemma Sync_ok fuel ord st seq cycle ctx g :
  inv g -> iterates_all ord g -> enough_all fuel g ->
  exists out g', UveGroup.SyncUVE TM fuel ord EmptyString st seq cycle ctx g =
      Some (u32 (selected_count seq (all_entries g)), out, g') /\ inv g' /\
    out ≡ₚ (all_entries g ≫= messages st seq cycle ctx) /\
    (forall p, (flat <$> at_place p g') = (fun m => omap (after TM st seq cycle) (flat m)) <$> at_place p g).
Proof.
  intros Hi Hord Hf. rewrite SyncUVE_loop.
  destruct (all_places sync_acc (fun p m => UveMap.SyncUVE TM fuel (ord p) EmptyString st seq cycle ctx m)
    (fun p m x m' => x.1 = u32 (selected_count seq (map_to_list (flat m)).*2) /\
        x.2 ≡ₚ ((map_to_list (flat m)).*2 ≫= messages st seq cycle ctx) /\
        flat m' = omap (after TM st seq cycle) (flat m)) (0, []) g Hi) as (xs&g'&E&Hi'&_&Hp&H2).
  { intros p m Hm. destruct (SyncUVE_spec TM EmptyString st seq cycle ctx fuel (ord p) m) as (out&m'&E&Hw&_&Ho&Hfl);
      [by apply (proj1 Hi p)|by apply Hord|by apply (Hf p)|done|].
    by exists (u32 (selected_count seq (map_to_list (flat m)).*2), out), m'. }
  destruct (sync_acc_spec seq (messages st seq cycle ctx) (fun p => entries_at p g) (places g) xs 0 []) as (o'&Ex&Ho').
  { done. }
  { eapply list.Forall2_impl; [exact H2|]. intros p x (m&m'&Hm&_&H1&H3&_). unfold entries_at. by rewrite Hm. }
  exists o', g'. rewrite E, Ex, Z.add_0_l. split; [done|]. split; [done|]. split; [done|].
  intros p. destruct (at_place p g) as [m|] eqn:Hm.
  - assert (Hin : p ∈ places g) by (apply (at_places g p Hi); by exists m).
    apply list_elem_of_lookup in Hin as [i Hin].
    destruct (Forall2_lookup_l _ _ _ _ _ H2 Hin) as (x&_&m0&m'&Hm0&Hm'&_&_&Hfl).
    rewrite Hm'. cbn. rewrite Hfl. congruence.
  - destruct (at_place p g') as [m'|] eqn:Hm'; [|done].
    assert (is_Some (at_place p g)) as [? ?] by (apply Hp; by exists m'). congruence.
Qed.

Lemma SendUVE_ok table name ctx g :
  inv g -> exists r g', UveGroup.SendUVE table name ctx g = Some (r, g') /\ inv g'.
Proof.
  intros Hi. rewrite SendUVE_loop.
  destruct (all_places send_acc (fun p m => Some (UveMap.SendUVE table name ctx m)) (fun _ _ _ _ => True) (false, []) g Hi)
    as (xs&g'&E&Hi'&_); [|by eexists _, g'].
  intros p m Hm. destruct (SendUVE_spec TM table name ctx m) as (was&out&m'&->&Hw&_); [by apply (proj1 Hi p)|].
  by exists (was, out), m'.
Qed.

Lemma wf_cleared m : wf TM m -> wf TM (UveMap.Mk ∅ (dsconf_ m)).
Proof.
  intros (_&_&Hd). split; [|split; [|done]].
  - intros n tm. cbn [cmap_]. by rewrite lookup_empty.
  - intros n t e. unfold flat. rewrite flat_lookup. cbn [cmap_]. by rewrite lookup_empty.
Qed.
Lemma Clear_ok ord proxy partition g :
  inv g -> iterates_all ord g -> 0 <= partition < kProxyPartitions ->
  exists out g', UveGroup.ClearUVEs ord proxy partition g =
      Some (u32 (zlen (entries_at (Some (proxy, partition)) g)), out, g') /\ inv g' /\
    out ≡ₚ (entries_at (Some (proxy, partition)) g ≫= clear_messages) /\
    entries_at (Some (proxy, partition)) g' = [] /\
    (forall p, p <> Some (proxy, partition) -> at_place p g' = at_place p g).
Proof.
  intros Hi Hord Hp. unfold UveGroup.ClearUVEs, entries_at at 1 2. destruct (group_map_ g !! proxy) as [pm|] eqn:Hpm.
  - destruct (at_place (Some (proxy, partition)) g) as [m|] eqn:Hm.
    2: { exfalso. cbn [at_place] in Hm. rewrite Hpm in Hm. cbn [mbind option_bind] in Hm. destruct Hi as [_ Hs].
         apply not_elem_of_dom_2 in Hm. rewrite (Hs proxy (dom pm)) in Hm by (unfold shape; by rewrite lookup_fmap, Hpm).
         by apply Hm, elem_of_list_to_set, elem_of_partitions. }
    replace (partition <? kProxyPartitions) with true by lia. cbn [negb mbind option_bind].
    destruct (ClearUVEs_spec (ord (Some (proxy, partition))) m) as (out&->&Ho); [by apply Hord|].
    cbn [mbind option_bind]. eexists out, _. rewrite length_fmap, length_map_to_list. split; [done|].
    split; [apply set_place_inv; [done|by exists m|apply wf_cleared; by apply (proj1 Hi _ m Hm)]|].
    split; [done|]. split; [|intros p Hne; by apply at_set_other].
    unfold entries_at. rewrite at_set_same by by exists m. done.
  - assert (Hnone : at_place (Some (proxy, partition)) g = None) by (cbn [at_place]; by rewrite Hpm).
    rewrite Hnone. exists [], g. split_and!; try done. unfold entries_at. by rewrite Hnone.
Qed.

Lemma Init_ok ord dsconf g :
  inv g -> iterates_all ord g -> exists r g', UveGroup.InitDerivedStats ord dsconf g = Some (r, g') /\ inv g'.
Proof.
  intros Hi Hord. unfold UveGroup.InitDerivedStats.
  destruct (InitDerivedStats_spec TM (ord None) dsconf (native_map_ g)) as (ok&m'&->&Hw&_);
    [by apply (proj1 Hi None)|by apply (Hord None)|].
  cbn [mbind option_bind]. eexists _, _. split; [done|]. apply set_place_inv; [done|by eexists|done].
Qed.

Lemma perform_ok fuel ord o g :
  inv g -> legal o -> iterates_all ord g -> enough_all fuel g ->
  exists g', perform fuel ord o g = Some g' /\ inv g'.
Proof.
  intros Hi Hl Ho Hf. destruct o as [u lvl table mono now partition|st seq cycle ctx|table name ctx|proxy partition|conf]; cbn [perform].
  - destruct (Send_ok u lvl table mono now partition g Hi Hl) as (r&g'&->&?). by exists g'.
  - destruct (Sync_ok fuel ord st seq cycle ctx g Hi Ho Hf) as (out&g'&->&?&_). by exists g'.
  - destruct (SendUVE_ok table name ctx g Hi) as (r&g'&->&?). by exists g'.
  - destruct (Clear_ok ord proxy partition g Hi Ho Hl) as (out&g'&->&?&_). by exists g'.
  - destruct (Init_ok ord conf g Hi Ho) as (r&g'&->&?). by exists g'.
Qed.

Inductive reachable : UveGroup.t U -> Prop :=
  | reach_new : reachable new_group
  | reach_perform fuel ord o g g' :
      reachable g -> legal o -> iterates_all ord g -> enough_all fuel g -> perform fuel ord o g = Some g' ->
      reachable g'.

Lemma group_reachable_inv g : reachable g -> inv g.
Proof.
  induction 1 as [|fuel ord o g g' _ IH Hl Ho Hf E].
  - split.
    + intros [[proxy idx]|] m; cbn [at_place new_group group_map_ native_map_]; [by rewrite lookup_empty|].
      intros [= <-]. apply wf_new.
    + intros proxy ks. unfold shape. cbn [new_group group_map_]. by rewrite fmap_empty, lookup_empty.
  - destruct (perform_ok fuel ord o g IH Hl Ho Hf) as (g2&?&?). congruence.
Qed.

End Spec.
Arguments operation : clear implicits.
End UveGroupSpec.
