(* ===== verification/UveClaims.v ===== *)
(** * What the caches of UVEs guarantee

    The claims on the cache of a type, on its groups, and on the periodic processing
    of all types. *)

From stdpp Require Import sorting.
From S2P Require Import Prelude Uve UveSpec UveGroupSpec.
Local Open Scope Z_scope.

Module UveCache.
Import UveMap UveMapSpec.
Section Claims.
Context {U : Type} `{!UveType U} `{!UveLaws U}.
Variable TM : Z.
Implicit Types (m : UveMap.t U) (e : UVEMapEntry U).

(** An update changes the entry of its name and table and no other: there it leaves
    the object as the generated [UpdateUVE] merges it, with the number of the update
    and the level the entry was made with, or nothing if the update is a deletion; and
    it gives back the generated code's decision to send. *)
Theorem uve_update m u seq mono now lvl :
  wf TM m -> table_ u <> EmptyString ->
  exists send u' e m', UpdateUVE TM u seq mono now lvl m = Some (send, u', m') /\ wf TM m' /\
    updated TM (dsconf_ m) (flat m !! (get_name u, table_ u)) u seq (if mono =? 0 then now else mono) lvl =
      Some (send, u', e) /\
    seqno e = seq /\ (get_deleted u = false -> TM <> 0 -> get_deleted (data e) = false) /\
    forall n t, flat m' !! (n, t) =
      if decide ((n, t) = (get_name u, table_ u)) then (if get_deleted u then None else Some e)
      else flat m !! (n, t).
Proof.
  intros Hw Ht. destruct (UpdateUVE_spec TM m u seq mono now lvl Hw Ht) as (send&u'&e&m'&E&Hw'&Hu&_&Hfl).
  exists send, u', e, m'. split_and!; try done.
  - destruct (updated_spec TM m _ u seq (if mono =? 0 then now else mono) lvl Hw Ht eq_refl)
      as (?&?&?&Hu'&_&Hs&_). rewrite Hu in Hu'. congruence.
  - destruct (updated_spec TM m _ u seq (if mono =? 0 then now else mono) lvl Hw Ht eq_refl)
      as (?&?&?&Hu'&_&_&_&_&_&Hd&_). rewrite Hu in Hu'. intros H1 H2. specialize (Hd H1 H2). congruence.
Qed.

(** C40: a cache that is synchronised for a table returns if and only if no entry is of
    another table: with such an entry the loop skips without advancing and no amount of
    fuel is enough.  The callers pass the empty table, for which it always returns. *)
Theorem uve_sync_returns m order table st seq cycle ctx :
  wf TM m -> iterates order m ->
  (exists fuel r, SyncUVE TM fuel order table st seq cycle ctx m = Some r) <->
  (forall n t e, flat m !! (n, t) = Some e -> table = EmptyString \/ t = table).
Proof.
  intros Hw Ho. assert (Hwt : forall t, wanted table t = true <-> table = EmptyString \/ t = table).
  { intros t. unfold wanted. by rewrite orb_true_iff, !bool_decide_eq_true. }
  split.
  - intros (fuel&r&E) n t e He. apply Hwt. destruct (wanted table t) eqn:Et; [done|].
    exfalso. revert E. unfold SyncUVE.
    erewrite (sync_order_stuck TM table st seq cycle ctx fuel order (cmap_ m) 0 [] n t); [done| | |by exists e|done].
    + rewrite Ho. apply elem_of_elements, elem_of_dom. unfold flat in He. rewrite flat_lookup in He.
      by destruct (cmap_ m !! n).
    + rewrite Ho. apply NoDup_elements.
  - intros Hall.
    set (fuel := S (list_sum (size <$> (map_to_list (cmap_ m)).*2))).
    destruct (SyncUVE_spec TM table st seq cycle ctx fuel order m Hw Ho) as (out&m'&E&_).
    + intros n tm Hn. unfold fuel. apply Nat.lt_succ_r.
      assert (Hin : (n, tm) ∈ map_to_list (cmap_ m)) by by apply elem_of_map_to_list.
      revert Hin. generalize (map_to_list (cmap_ m)). intros l.
      induction l as [|[n' tm'] l IH]; [by intros ?%not_elem_of_nil|].
      intros [[= <- <-]|Hin]%elem_of_cons; cbn [fmap list_fmap snd list_sum fold_right]; [lia|].
      specialize (IH Hin). unfold list_sum in *. lia.
    + intros n t [e He]. apply Hwt. by eapply Hall.
    + by eexists _, _.
Qed.

(** C31: the timeout.  After two rounds of periodic processing in cycles that are multiples
    of the timeout, a cache nobody updated in between is empty, and each object that was
    in it has been sent with its deletion flag; an object updated between the two
    rounds is still there. *)
Theorem uve_timeout m order fuel c1 c2 :
  wf TM m -> 0 < TM -> c1 mod TM = 0 -> c2 mod TM = 0 -> iterates order m -> enough fuel m ->
  exists n1 out1 m1, SyncUVE TM fuel order EmptyString ST_PERIODIC 0 c1 EmptyString m = Some (n1, out1, m1) /\
  (forall order2 fuel2, iterates order2 m1 -> enough fuel2 m1 ->
     exists n2 out2 m2,
       SyncUVE TM fuel2 order2 EmptyString ST_PERIODIC 0 c2 EmptyString m1 = Some (n2, out2, m2) /\
       cmap_ m2 = ∅ /\
       forall n t e, flat m !! (n, t) = Some e ->
         exists msg, msg ∈ out1 ++ out2 /\ get_name (msg_data msg) = n /\ table_ (msg_data msg) = t /\
           get_deleted (msg_data msg) = true /\ msg_seqno msg = seqno e) /\
  (forall u seq mono now lvl, table_ u <> EmptyString -> get_deleted u = false ->
     exists send u' m1', UpdateUVE TM u seq mono now lvl m1 = Some (send, u', m1') /\
       forall order2 fuel2, iterates order2 m1' -> enough fuel2 m1' ->
         exists n2 out2 m2,
           SyncUVE TM fuel2 order2 EmptyString ST_PERIODIC 0 c2 EmptyString m1' = Some (n2, out2, m2) /\
           is_Some (flat m2 !! (get_name u, table_ u))).
Proof.
  intros Hw HT H1 H2 Ho Hf.
  destruct (SyncUVE_spec TM EmptyString ST_PERIODIC 0 c1 EmptyString fuel order m Hw Ho Hf)
    as (out1&m1&E1&Hw1&_&Hout1&Hfl1); [done|].
  eexists _, out1, m1. split; [exact E1|]. split.
  - intros order2 fuel2 Ho2 Hf2.
    destruct (SyncUVE_spec TM EmptyString ST_PERIODIC 0 c2 EmptyString fuel2 order2 m1 Hw1 Ho2 Hf2)
      as (out2&m2&E2&Hw2&_&Hout2&Hfl2); [done|].
    assert (Hgone : forall n t e, flat m1 !! (n, t) = Some e -> get_deleted (data e) = true).
    { intros n t e. rewrite Hfl1, lookup_omap. intros (e0&_&He)%bind_Some. rewrite after_due in He by done.
      destruct (get_deleted (data e0)); [done|]. injection He as <-. cbn [data]. apply set_deleted_fields. }
    eexists _, out2, m2. split; [exact E2|]. split.
    + apply (flat_empty TM m2 Hw2). apply map_empty. intros [n t]. rewrite Hfl2, lookup_omap.
      destruct (flat m1 !! (n, t)) as [e|] eqn:He; [|done]. cbn [mbind option_bind]. rewrite after_due by done.
      by rewrite (Hgone n t e He).
    + intros n t e He. destruct (get_deleted (data e)) eqn:Hd.
      * destruct (deleted_sent TM c1 n t e m out1 Hout1 He) as (msg&Hin&?); [by apply Hw|done|].
        exists msg. split; [|done]. apply elem_of_app. by left.
      * assert (He1 : exists e1, flat m1 !! (n, t) = Some e1 /\ seqno e1 = seqno e).
        { rewrite Hfl1, lookup_omap, He. cbn [mbind option_bind]. rewrite after_due, Hd by done. by eexists. }
        destruct He1 as (e1&He1&<-).
        destruct (deleted_sent TM c2 n t e1 m1 out2 Hout2 He1) as (msg&Hin&?); [by apply Hw1|by eapply Hgone|].
        exists msg. split; [|done]. apply elem_of_app. by right.
  - intros u seq mono now lvl Ht Hd.
    destruct (UpdateUVE_spec TM m1 u seq mono now lvl Hw1 Ht) as (send&u'&e&m1'&E&Hw'&Hu&_&Hfl).
    destruct (updated_spec TM m1 _ u seq (if mono =? 0 then now else mono) lvl Hw1 Ht eq_refl)
      as (?&?&?&Hu'&_&_&_&_&_&Hdel&_). rewrite Hu in Hu'. injection Hu' as <- <- <-.
    exists send, u', m1'. split; [done|]. intros order2 fuel2 Ho2 Hf2.
    destruct (SyncUVE_spec TM EmptyString ST_PERIODIC 0 c2 EmptyString fuel2 order2 m1' Hw' Ho2 Hf2)
      as (out2&m2&E2&_&_&_&Hfl2); [done|].
    eexists _, out2, m2. split; [exact E2|]. rewrite Hfl2, lookup_omap, Hfl, decide_True, Hd by done.
    cbn [mbind option_bind]. rewrite after_due by done. rewrite Hdel by (done || lia). by eexists.
Qed.

End Claims.
End UveCache.

Module UveGroups.
Import UveMap UveMapSpec UveGroup UveGroupSpec.
Section Claims.
Context {U : Type} `{!UveType U} `{!UveLaws U}.
Variable TM : Z.
Implicit Types (g : UveGroup.t U) (m : UveMap.t U).

(** C14: the caches of a type are well typed over every history of updates,
    synchronisations, queries, clearings and reconfigurations: in each of them every
    object is filed under its own name and table, no name is without objects, the
    statistics configured are those of the type, and without a timeout nothing is
    marked as deleted; each proxy group has its 30 partitions.  And whatever comes
    next, with a table and a partition that exist, no assertion fails and no loop
    goes on for ever. *)
Theorem uve_group_typed g :
  reachable TM g ->
  (forall p m, at_place p g = Some m ->
     (forall n tm, cmap_ m !! n = Some tm -> tm <> ∅) /\
     (forall n t e, flat m !! (n, t) = Some e ->
        get_name (data e) = n /\ table_ (data e) = t /\ t <> EmptyString /\
        (TM = 0 -> get_deleted (data e) = false)) /\
     dom (dsconf_ m) = dom (T_DSConf (U := U))) /\
  (forall proxy pm, group_map_ g !! proxy = Some pm ->
     forall idx, is_Some (pm !! idx) <-> 0 <= idx < kProxyPartitions) /\
  (forall o fuel ord, legal o -> iterates_all ord g -> enough_all fuel g -> is_Some (perform TM fuel ord o g)).
Proof.
  intros Hi%group_reachable_inv. split_and!.
  - intros p m Hm. exact (proj1 Hi p m Hm).
  - intros proxy pm Hpm idx. rewrite <- elem_of_dom, (proj2 Hi proxy (dom pm)).
    + by rewrite elem_of_list_to_set, elem_of_partitions.
    + unfold shape. by rewrite lookup_fmap, Hpm.
  - intros o fuel ord Hl Ho Hf. destruct (perform_ok TM fuel ord o g Hi Hl Ho Hf) as (g'&->&_). by eexists.
Qed.

(** C15: synchronising a type sends, for each cached object whose last update is later
    than the number the collector has (for all objects if that is 0), what the
    generated code loads of it, once and in the native cache and every proxy
    partition; the count returned is the number of those objects.  Outside of the
    cycles of a timeout, no object enters or leaves a cache. *)
Theorem uve_sync g fuel ord st seq cycle ctx :
  reachable TM g -> iterates_all ord g -> enough_all fuel g ->
  exists out g', UveGroup.SyncUVE TM fuel ord EmptyString st seq cycle ctx g =
      Some (u32 (selected_count seq (all_entries g)), out, g') /\
    out ≡ₚ (all_entries g ≫= messages st seq cycle ctx) /\
    (st <> ST_PERIODIC -> zlen out = selected_count seq (all_entries g)) /\
    (forall msg, msg ∈ out -> exists e, e ∈ all_entries g /\ selected seq e = true /\
       same_id (msg_data msg) (data e) /\ msg_level msg = level e /\ msg_type msg = st /\
       msg_seqno msg = seqno e /\ msg_cycle msg = cycle /\ msg_context msg = ctx) /\
    (due TM st cycle = false -> forall p m, at_place p g = Some m ->
       exists m', at_place p g' = Some m' /\ dom (flat m') = dom (flat m)).
Proof.
  intros Hi%group_reachable_inv Ho Hf.
  destruct (Sync_ok TM fuel ord st seq cycle ctx g Hi Ho Hf) as (out&g'&E&_&Hout&Hfl).
  exists out, g'. split_and!; try done.
  - intros Hst. rewrite Hout. unfold selected_count. f_equal. clear -Hst UveLaws0.
    induction (all_entries g) as [|e l IH]; [done|]. cbn [mbind list_bind List.filter].
    rewrite length_app. unfold messages at 1. destruct (selected seq e); [|exact IH]. cbn [length].
    destruct (T_Send_sends (data e) (level e) st (seqno e) cycle ctx) as [msg ->]; [by left|].
    cbn [length]. f_equal. exact IH.
  - intros msg Hin. rewrite Hout in Hin. apply list_elem_of_bind in Hin as (e&Hm&He). exists e.
    unfold messages in Hm. destruct (selected seq e); [|by apply not_elem_of_nil in Hm].
    split; [done|]. split; [done|]. by apply T_Send_message in Hm.
  - intros Hdue p m Hm. specialize (Hfl p). rewrite Hm in Hfl. cbn in Hfl.
    apply fmap_Some in Hfl as (m'&Hm'&Hfl). exists m'. split; [done|]. rewrite <- Hfl. apply set_eq. intros k.
    rewrite !elem_of_dom, lookup_omap. destruct (flat m !! k) as [e|]; [|done]. cbn [mbind option_bind].
    unfold after. rewrite Hdue. destruct (selected seq e); by split; eexists.
Qed.

(** A new configuration of derived statistics takes effect as a whole or not at all:
    if it names a statistic the type does not have, nothing changes; otherwise what it
    names is replaced, the rest is kept, and the statistics of every object in the
    native cache start again with it, the proxy groups being left alone. *)
Theorem uve_dsconf g ord conf :
  reachable TM g -> iterates_all ord g ->
  exists ok g', UveGroup.InitDerivedStats ord conf g = Some (ok, g') /\
    ok = bool_decide (dom conf ⊆ dom (T_DSConf (U := U))) /\ group_map_ g' = group_map_ g /\
    (if ok then
       GetDSConf g' = conf ∪ GetDSConf g /\
       forall n t e, flat (native_map_ g) !! (n, t) = Some e ->
         exists c, T_InitDerivedStats (data e) (conf ∪ GetDSConf g) = Some c /\
           flat (native_map_ g') !! (n, t) = Some (MkEntry c (seqno e) (level e))
     else g' = g).
Proof.
  intros Hi%group_reachable_inv Ho. unfold UveGroup.InitDerivedStats.
  destruct (InitDerivedStats_spec TM (ord None) conf (native_map_ g)) as (ok&m'&->&Hw&Hok&Hr);
    [by apply (proj1 Hi None)|by apply (Ho None)|].
  cbn [mbind option_bind]. eexists ok, _. split; [done|]. split; [done|]. split; [done|]. destruct ok.
  - destruct Hr as [Hd Hfl]. cbn [set_place native_map_]. unfold UveGroup.GetDSConf, GetDSConf. split; [done|].
    intros n t e He.
    destruct (init_defined (data e) (conf ∪ dsconf_ (native_map_ g))) as (c&Ec&_).
    { destruct (proj1 Hi None _ eq_refl) as (_&_&<-). rewrite dom_union_L. set_solver. }
    exists c. split; [done|]. rewrite Hfl, lookup_omap, He. cbn [mbind option_bind]. unfold reset_of. by rewrite Ec.
  - rewrite Hr. by destruct g.
Qed.

(** Clearing a partition of a proxy group sends the deletion of each object in it,
    counts them, and empties that partition; every other cache is as before. *)
Theorem uve_clear g ord proxy partition :
  reachable TM g -> iterates_all ord g -> 0 <= partition < kProxyPartitions ->
  exists out g', UveGroup.ClearUVEs ord proxy partition g =
      Some (u32 (zlen (entries_at (Some (proxy, partition)) g)), out, g') /\
    zlen out = zlen (entries_at (Some (proxy, partition)) g) /\
    (forall e, e ∈ entries_at (Some (proxy, partition)) g ->
       exists msg, msg ∈ out /\ get_name (msg_data msg) = get_name (data e) /\
         table_ (msg_data msg) = table_ (data e) /\ get_deleted (msg_data msg) = true) /\
    entries_at (Some (proxy, partition)) g' = [] /\
    (forall p, p <> Some (proxy, partition) -> at_place p g' = at_place p g).
Proof.
  intros Hi%group_reachable_inv Ho Hp. destruct (Clear_ok TM ord proxy partition g Hi Ho Hp) as (out&g'&E&_&Hout&He&Hoth).
  assert (Hone : forall e : UVEMapEntry U, exists msg, clear_messages e = [msg] /\
    get_name (msg_data msg) = get_name (data e) /\ table_ (msg_data msg) = table_ (data e) /\
    get_deleted (msg_data msg) = true).
  { intros e. unfold clear_messages.
    destruct (T_Send_sends (set_deleted true (data e)) (level e) ST_SYNC (seqno e) 0 EmptyString) as [msg Hm]; [by left|].
    destruct (T_Send_message (set_deleted true (data e)) (level e) ST_SYNC (seqno e) 0 EmptyString msg)
      as ((H1&H2&H3)&_); [rewrite Hm; by left|].
    destruct (set_deleted_fields true (data e)) as (H4&H5&H6). exists msg. split_and!; congruence. }
  exists out, g'. split_and!; try done.
  - rewrite Hout. f_equal. clear -Hone. induction (entries_at (Some (proxy, partition)) g) as [|e l IH]; [done|].
    cbn [mbind list_bind]. rewrite length_app. destruct (Hone e) as (msg&->&_). cbn [length]. f_equal. exact IH.
  - intros e Hin. destruct (Hone e) as (msg&Hm&?). exists msg. split; [|done]. rewrite Hout.
    apply list_elem_of_bind. exists e. split; [rewrite Hm; by left|done].
Qed.

End Claims.
End UveGroups.

(** ** All types *)
Module UveSchedule.
Import UveTypes.
Section Claims.
Context {G M : Type} `{!PerTypeMap G M}.
Implicit Types (x : UveTypes.t G).

(** What one call of [SyncAllMaps] does to one type. *)
Lemma sync_types_at inp periodic pcount (l : list (string * (Z * G))) out maps out' maps' :
  NoDup l.*1 -> (forall k v, (k, v) ∈ l -> maps !! k = Some v) ->
  foldM (sync_type inp periodic pcount) l (out, maps) = Some (out', maps') ->
  forall name, (name ∉ l.*1 -> maps' !! name = maps !! name) /\
    (forall period g, (name, (period, g)) ∈ l ->
       exists g', maps' !! name = Some (period, g') /\
       match sync_cycle periodic pcount period (Z.of_nat (size inp)) with
       | None => False
       | Some None => g' = g
       | Some (Some cycle) =>
           exists n msgs, pt_SyncUVE EmptyString (if periodic then ST_PERIODIC else ST_SYNC)
             (default 0 (inp !! name)) cycle EmptyString g = Some (n, msgs, g')
       end).
Proof.
  revert out maps. induction l as [|[k [per gg]] l IH]; intros out maps Hn Hl.
  { cbn [foldM]. intros [= <- <-] name. split; [done|]. by intros ? ? ?%not_elem_of_nil. }
  cbn [fmap list_fmap fst] in Hn |- *. apply list.NoDup_cons in Hn as [Hk Hn]. cbn [foldM].
  destruct (sync_type inp periodic pcount (k, (per, gg)) (out, maps)) as [[out1 maps1]|] eqn:E; [|done].
  cbn [mbind option_bind]. intros Er name.
  assert (Hk1 : exists g', maps1 !! k = Some (per, g') /\ (forall k', k' <> k -> maps1 !! k' = maps !! k') /\
      match sync_cycle periodic pcount per (Z.of_nat (size inp)) with
       | None => False
       | Some None => g' = gg
       | Some (Some cycle) =>
           exists n msgs, pt_SyncUVE EmptyString (if periodic then ST_PERIODIC else ST_SYNC)
             (default 0 (inp !! k)) cycle EmptyString gg = Some (n, msgs, g')
       end).
  { revert E. cbn [sync_type]. destruct (sync_cycle _ _ _ _) as [[cycle|]|]; cbn [mbind option_bind]; [| |done].
    - destruct (pt_SyncUVE _ _ _ _ _ _) as [[[n msgs] g']|] eqn:Eg; [|done]. cbn [mbind option_bind].
      intros [= <- <-]. exists g'. split; [by rewrite lookup_insert_eq|].
      split; [intros; by rewrite lookup_insert_ne|]. by eexists _, _.
    - intros [= <- <-]. exists gg. split; [apply Hl; by left|]. done. }
  destruct Hk1 as (g1&Hm1&Hoth&Hc). assert (Hl1 : forall k' v', (k', v') ∈ l -> maps1 !! k' = Some v').
  { intros k' v' Hkv. assert (k' <> k).
    { intros ->. apply Hk, list_elem_of_fmap. by exists (k, v'). }
    rewrite Hoth by done. apply Hl. by right. }
  destruct (IH out1 maps1 Hn Hl1 Er name) as [Hout Hin]. split.
  - intros [Hne Hnl]%not_elem_of_cons. rewrite Hout by done. by apply Hoth.
  - intros period g [[= -> -> ->]|Hin']%elem_of_cons; [|by apply Hin].
    exists g1. rewrite Hout by done. done.
Qed.

Lemma SyncAllMaps_at inp periodic x out x' name period g :
  SyncAllMaps inp periodic x = Some (out, x') -> map_ x !! name = Some (period, g) ->
  let pcount := if periodic then u64 (periodic_count x + 1) else periodic_count x in
  periodic_count x' = pcount /\
  exists g', map_ x' !! name = Some (period, g') /\
    match sync_cycle periodic pcount period (Z.of_nat (size inp)) with
    | None => False
    | Some None => g' = g
    | Some (Some cycle) =>
        exists n msgs, pt_SyncUVE EmptyString (if periodic then ST_PERIODIC else ST_SYNC)
          (default 0 (inp !! name)) cycle EmptyString g = Some (n, msgs, g')
    end.
Proof.
  intros E Hg pcount. unfold SyncAllMaps in E. cbv zeta in E. fold pcount in E.
  destruct (foldM (sync_type inp periodic pcount) (sorted_entries (map_ x)) ([], map_ x)) as [[o maps]|] eqn:Ef; [|done].
  cbn [mbind option_bind] in E. injection E as <- <-. split; [done|]. cbn [map_].
  destruct (sync_types_at inp periodic pcount _ _ _ _ _ (NoDup_sorted (map_ x)) (fun k v => proj1 (elem_of_sorted _ k v)) Ef name)
    as [_ Hin].
  apply Hin. by apply elem_of_sorted.
Qed.

(** The ticks of the periodic timer. *)
Fixpoint ticks (n : nat) x : option (UveTypes.t G) :=
  match n with
  | O => Some x
  | S n => x ← ticks n x; snd <$> SyncAllMaps ∅ true x
  end.
(** The periodic rounds of one type, in cycles [1] to [n]. *)
Definition rounds (n : Z) (g : G) : option G :=
  foldM (fun cycle g => snd <$> pt_SyncUVE EmptyString ST_PERIODIC 0 cycle EmptyString g) (seqZ 1 n) g.

Lemma rounds_succ n g : 0 <= n -> rounds (n + 1) g =
  (g ← rounds n g; snd <$> pt_SyncUVE EmptyString ST_PERIODIC 0 (n + 1) EmptyString g).
Proof.
  intros Hn. unfold rounds. rewrite seqZ_app by lia. rewrite foldM_app.
  destruct (foldM _ (seqZ 1 n) g) as [g'|]; [|done]. cbn [mbind option_bind].
  rewrite seqZ_cons by lia. change (seqZ (Z.succ (1 + n)) (Z.pred 1)) with (@nil Z).
  rewrite (Z.add_comm 1 n). cbn [foldM].
  by destruct (snd <$> pt_SyncUVE EmptyString ST_PERIODIC 0 (n + 1) EmptyString g').
Qed.

(** The schedule of periodic processing.  A type whose period is [k] ticks of 30
    seconds is processed at every [k]th tick and at no other, with the cycles 1, 2, 3
    and so on: after [n] ticks it is as [n / k] rounds left it.  A type whose period is
    shorter than a tick is never processed. *)
Theorem uve_periodic_schedule x n x' name period g k :
  ticks n x = Some x' -> periodic_count x = 0 -> map_ x !! name = Some (period, g) ->
  target_count period = Some k -> Z.of_nat n < 2 ^ 32 ->
  exists g', map_ x' !! name = Some (period, g') /\
    rounds (if k =? 0 then 0 else Z.of_nat n / k) g = Some g'.
Proof.
  intros Ht Hp Hg Hk Hn. assert (Hk0 : 0 <= k).
  { unfold target_count in Hk. case_bool_decide; [|done]. injection Hk as <-. by apply wrapU_range. }
  enough (periodic_count x' = Z.of_nat n /\ exists g', map_ x' !! name = Some (period, g') /\
    rounds (if k =? 0 then 0 else Z.of_nat n / k) g = Some g') by naive_solver.
  revert x' Ht. induction n as [|n IH]; intros x' Ht; cbn [ticks] in Ht.
  { injection Ht as <-. split; [done|]. exists g. split; [done|].
    replace (if k =? 0 then 0 else Z.of_nat 0 / k) with 0; [done|]. by destruct (k =? 0). }
  destruct (ticks n x) as [x1|] eqn:E1; [|done]. cbn [mbind option_bind] in Ht.
  apply fmap_Some in Ht as ([out x2]&Es&->). cbn [snd].
  destruct (IH ltac:(lia) x1 eq_refl) as (Hc1&g1&Hg1&Hr).
  destruct (SyncAllMaps_at _ _ _ _ _ _ _ _ Es Hg1) as (Hc2&g2&Hg2&Hm). rewrite Hc1 in *.
  rewrite wrapU_small in * by lia. split; [lia|]. exists g2. split; [done|].
  replace (Z.of_nat n + 1) with (Z.of_nat (S n)) in * by lia.
  unfold sync_cycle in Hm. rewrite Hk in Hm. cbn [mbind option_bind] in Hm. rewrite map_size_empty in Hm.
  destruct (Z.eqb_spec k 0) as [->|Hkn]; [by subst g2|].
  assert (Hs : Z.of_nat (S n) = Z.of_nat n + 1) by lia.
  pose proof (Z.div_mod (Z.of_nat (S n)) k Hkn). pose proof (Z.mod_pos_bound (Z.of_nat (S n)) k).
  pose proof (Z.div_mod (Z.of_nat n) k Hkn). pose proof (Z.mod_pos_bound (Z.of_nat n) k).
  destruct (Z.eqb_spec (Z.of_nat (S n) mod k) 0) as [Hz|Hz]; cbn [negb] in Hm.
  - destruct Hm as (c&msgs&Hm). change (default 0 ((∅ : gmap string Z) !! name)) with 0 in Hm.
    replace (Z.of_nat (S n) / k) with (Z.of_nat n / k + 1) in * by nia.
    rewrite rounds_succ by (apply Z.div_pos; lia). rewrite Hr. cbn [mbind option_bind].
    rewrite wrapU_small in Hm; [by rewrite Hm|]. split; [pose proof (Z.div_pos (Z.of_nat n) k); lia|].
    assert (Z.of_nat n / k <= Z.of_nat n) by (apply Z.div_le_upper_bound; nia). lia.
  - subst g2. replace (Z.of_nat (S n) / k) with (Z.of_nat n / k); [done|]. nia.
Qed.

End Claims.
End UveSchedule.

(** ** A concrete type *)
Module UveDemo.
Import UveMap UveMapSpec UveGroup UveGroupSpec.

(** A value that is the sum of what was sent, with one derived statistic. *)
Record gauge := Gauge { g_name : string; g_table : string; g_proxy : string; g_deleted : bool; g_value : Z }.
Definition gauge_conf : ds_conf_elem := {["rate":="10"%string]}.
#[export] Instance gauge_uve : UveType gauge := {|
  get_name := g_name; table_ := g_table; get_proxy := g_proxy; get_deleted := g_deleted;
  set_table t u := Gauge (g_name u) t (g_proxy u) (g_deleted u) (g_value u);
  set_deleted b u := Gauge (g_name u) (g_table u) (g_proxy u) b (g_value u);
  new_uve t := Gauge EmptyString t EmptyString false 0;
  T_DSConf := gauge_conf;
  T_InitDerivedStats u conf := match conf !! "rate"%string with Some _ => Some u | None => None end;
  T_UpdateUVE u c _ _ := (true, u, Gauge (g_name u) (g_table c) (g_proxy u) (g_deleted u || g_deleted c) (g_value c + g_value u));
  LoadUVE st _ u := (Some u, u);
|}.
#[export] Instance gauge_laws : UveLaws gauge.
Proof.
  split; try done.
  - intros u conf Hd. cbn. destruct (conf !! "rate"%string) eqn:E; [by exists u|]. exfalso.
    apply not_elem_of_dom in E. apply E, Hd. cbn. unfold gauge_conf. set_solver.
  - intros u c mono lvl. cbn. split; [done|]. split; [done|]. split; [done|]. by intros -> ->.
  - intros st cycle u m. cbn. by intros [= ->].
Qed.

(** One order of iteration. *)
Definition demo_ord (g : UveGroup.t gauge) (p : place) : list string :=
  match at_place p g with Some m => elements (dom (cmap_ m)) | None => [] end.
Lemma demo_iterates g : iterates_all (demo_ord g) g.
Proof. intros p m Hm. unfold iterates, demo_ord. by rewrite Hm. Qed.
Definition small_tables (fuel : nat) (m : UveMap.t gauge) : bool :=
  forallb (fun q => (size q.2 <? fuel)%nat) (map_to_list (cmap_ m)).
Lemma small_tables_enough fuel m : small_tables fuel m = true -> enough fuel m.
Proof.
  unfold small_tables. rewrite forallb_forall. intros Hf n tm Hn. apply Nat.ltb_lt, (Hf (n, tm)).
  by apply list_elem_of_In, elem_of_map_to_list.
Qed.
Definition fuel_ok (fuel : nat) (g : UveGroup.t gauge) : bool :=
  forallb (fun p => match at_place p g with
                    | Some m => small_tables fuel m
                    | None => true
                    end) (places g).
Lemma fuel_ok_enough TM fuel g : inv TM g -> fuel_ok fuel g = true -> enough_all fuel g.
Proof.
  intros Hi Hf p m Hm. unfold fuel_ok in Hf. rewrite forallb_forall in Hf. specialize (Hf p). rewrite Hm in Hf.
  apply small_tables_enough, Hf. apply list_elem_of_In, (at_places TM g p Hi). by exists m.
Qed.

(** A run that checks that its operations are legal. *)
Definition legal_b (o : operation gauge) : bool :=
  match o with
  | OpSend u _ table _ _ partition =>
      (negb (bool_decide (table = EmptyString)) || negb (bool_decide (g_table u = EmptyString))) &&
      (-1 <=? partition) && (partition <? kProxyPartitions)
  | OpClear _ partition => (0 <=? partition) && (partition <? kProxyPartitions)
  | _ => true
  end.
Lemma legal_b_ok o : legal_b o = true -> legal o.
Proof.
  destruct o; cbn [legal_b legal]; try done.
  - rewrite !andb_true_iff, orb_true_iff, !negb_true_iff, !bool_decide_eq_false. cbn [table_ gauge_uve]. intros [[? ?] ?]. split; [done|lia].
  - rewrite andb_true_iff. lia.
Qed.
Fixpoint history (TM : Z) (os : list (operation gauge)) (g : UveGroup.t gauge) : option (UveGroup.t gauge) :=
  match os with
  | [] => Some g
  | o :: os =>
      if legal_b o && fuel_ok 8 g then g ← perform TM 8 (demo_ord g) o g; history TM os g else None
  end.
Definition after_history (TM : Z) (os : list (operation gauge)) : UveGroup.t gauge :=
  default new_group (history TM os new_group).
Lemma history_reachable TM os : is_Some (history TM os new_group) -> reachable TM (after_history TM os).
Proof.
  intros [g' E]. unfold after_history. rewrite E. cbn [default from_option id].
  assert (Hr : reachable (U := gauge) TM new_group) by constructor. revert Hr E. generalize (new_group (U := gauge)).
  induction os as [|o os IH]; intros g Hr; cbn [history]; [by intros [= <-]|].
  destruct (legal_b o && fuel_ok 8 g) eqn:Eb; [|done]. apply andb_true_iff in Eb as [Hl Hf].
  destruct (perform TM 8 (demo_ord g) o g) as [g1|] eqn:E1; [|done]. cbn [mbind option_bind]. apply IH.
  eapply reach_perform; [done|by apply legal_b_ok|apply demo_iterates|eapply fuel_ok_enough; [by apply group_reachable_inv|done]|done].
Qed.

Definition cpu (v : Z) : gauge := Gauge "cpu" "Host" EmptyString false v.
Definition mem (proxy : string) (v : Z) : gauge := Gauge "mem" "Host" proxy false v.
Definition three_updates : list (operation gauge) :=
  [OpSend (cpu 5) 4 EmptyString 0 1 (-1); OpSend (mem "agent" 7) 4 EmptyString 0 2 4; OpSend (cpu 6) 5 EmptyString 0 3 (-1)].

Abbreviation demo TM := (after_history TM three_updates).
Lemma uve_demo_reachable TM : TM = 0 \/ TM = 2 -> reachable TM (demo TM).
Proof. intros [-> | ->]; apply history_reachable; vm_compute; by eexists. Qed.
Lemma demo_enough TM : TM = 0 \/ TM = 2 -> enough_all 8 (demo TM).
Proof.
  intros H. eapply (fuel_ok_enough TM); [by apply group_reachable_inv, uve_demo_reachable|].
  destruct H as [-> | ->]; by vm_compute.
Qed.
Lemma demo_native_wf TM : TM = 0 \/ TM = 2 -> wf TM (native_map_ (demo TM)).
Proof. intros H. by apply (proj1 (group_reachable_inv TM _ (uve_demo_reachable TM H)) None). Qed.

Lemma uve_update_witness :
  exists send u' m', UveMap.UpdateUVE 0 (cpu 9) 4 0 7 4 (native_map_ (demo 0)) = Some (send, u', m') /\ wf 0 m'.
Proof.
  destruct (UveCache.uve_update 0 (native_map_ (demo 0)) (cpu 9) 4 0 7 4) as (send&u'&e&m'&E&Hw&_).
  - apply demo_native_wf. by left.
  - by vm_compute.
  - exists send, u', m'. split; [exact E|exact Hw].
Defined.

Lemma uve_sync_returns_witness :
  ~ exists fuel r, UveMap.SyncUVE 0 fuel (demo_ord (demo 0) None) "Other" ST_INTROSPECT 0 0 EmptyString
                     (native_map_ (demo 0)) = Some r.
Proof.
  intros H. apply (UveCache.uve_sync_returns 0 (native_map_ (demo 0)) (demo_ord (demo 0) None) "Other" ST_INTROSPECT 0 0 EmptyString)
    with (n := "cpu"%string) (t := "Host"%string) (e := MkEntry (cpu 11) 3 4) in H.
  - by destruct H.
  - apply demo_native_wf. by left.
  - by apply (demo_iterates (demo 0) None).
  - by vm_compute.
Defined.

Lemma uve_timeout_witness :
  exists n1 out1 m1 n2 out2 m2,
    UveMap.SyncUVE 2 8 (demo_ord (demo 2) None) EmptyString ST_PERIODIC 0 2 EmptyString (native_map_ (demo 2)) = Some (n1, out1, m1) /\
    UveMap.SyncUVE 2 8 ["cpu"%string] EmptyString ST_PERIODIC 0 4 EmptyString m1 = Some (n2, out2, m2) /\ cmap_ m2 = ∅ /\
    n1 = 1 /\ n2 = 1.
Proof.
  destruct (UveCache.uve_timeout 2 (native_map_ (demo 2)) (demo_ord (demo 2) None) 8 2 4) as (n1&out1&m1&E1&Hgone&_).
  - apply demo_native_wf. by right.
  - lia.
  - done.
  - done.
  - by apply (demo_iterates (demo 2) None).
  - apply (demo_enough 2) with (p := None); [by right|done].
  - assert (iterates ["cpu"%string] m1 /\ enough 8 m1 /\ n1 = 1) as (Hi&Hf&Hn).
    { vm_compute in E1. injection E1 as <- <- <-. split; [by vm_compute|]. split; [|done].
      apply small_tables_enough. by vm_compute. }
    destruct (Hgone ["cpu"%string] 8%nat Hi Hf) as (n2&out2&m2&E2&He&_).
    exists n1, out1, m1, n2, out2, m2. split; [exact E1|]. split; [exact E2|]. split; [exact He|]. split; [exact Hn|].
    vm_compute in E1. injection E1 as <- <- <-. vm_compute in E2. by injection E2 as <- _ _.
Defined.

Lemma uve_group_typed_witness :
  is_Some (perform 0 8 (demo_ord (demo 0)) (OpSync ST_SYNC 2 0 EmptyString) (demo 0)).
Proof.
  apply (UveGroups.uve_group_typed 0 (demo 0)).
  - apply uve_demo_reachable. by left.
  - done.
  - apply demo_iterates.
  - apply demo_enough. by left.
Defined.

Lemma uve_sync_witness :
  exists out g', UveGroup.SyncUVE 0 8 (demo_ord (demo 0)) EmptyString ST_SYNC 1 0 EmptyString (demo 0) = Some (2, out, g') /\
    zlen out = 2.
Proof.
  destruct (UveGroups.uve_sync 0 (demo 0) 8 (demo_ord (demo 0)) ST_SYNC 1 0 EmptyString) as (out&g'&E&_&Hl&_).
  - apply uve_demo_reachable. by left.
  - apply demo_iterates.
  - apply demo_enough. by left.
  - assert (selected_count 1 (all_entries (demo 0)) = 2) as Hc by by vm_compute. rewrite Hc in *.
    exists out, g'. split; [exact E|]. by apply Hl.
Defined.

Lemma uve_dsconf_witness :
  UveGroup.InitDerivedStats (demo_ord (demo 0)) {["load":="5"%string]} (demo 0) = Some (false, demo 0).
Proof.
  destruct (UveGroups.uve_dsconf 0 (demo 0) (demo_ord (demo 0)) {["load":="5"%string]}) as (ok&g'&E&Hok&_&Hr).
  - apply uve_demo_reachable. by left.
  - apply demo_iterates.
  - assert (ok = false) as Hf by (rewrite Hok; by vm_compute). rewrite Hf in *. rewrite Hr in E. exact E.
Defined.

Lemma uve_clear_witness :
  exists out g', UveGroup.ClearUVEs (demo_ord (demo 0)) "agent" 4 (demo 0) = Some (1, out, g') /\ zlen out = 1.
Proof.
  destruct (UveGroups.uve_clear 0 (demo 0) (demo_ord (demo 0)) "agent" 4) as (out&g'&E&Hl&_).
  - apply uve_demo_reachable. by left.
  - apply demo_iterates.
  - by vm_compute.
  - assert (zlen (entries_at (Some ("agent"%string, 4)) (demo 0)) = 1) as Hc by by vm_compute. rewrite Hc in *.
    exists out, g'. split; [exact E|exact Hl].
Defined.

(** A type that only records its cycles, with a period of two ticks. *)
#[local] Instance log_map : PerTypeMap (list Z) unit := {|
  pt_TypeSeq _ := 0; pt_SyncUVE _ _ _ cycle _ l := Some (0, [], l ++ [cycle]);
  pt_InitDerivedStats _ l := Some (true, l); pt_SendUVE _ _ _ l := Some (true, [], l);
  pt_GetDSConf _ := ∅; pt_GetTimeout _ := 0; pt_ClearUVEs _ _ l := Some (0, [], l);
|}.
Lemma uve_periodic_schedule_witness :
  exists x', UveSchedule.ticks 7 (UveTypes.Mk {["cpu"%string:=(60, [])]} 0) = Some x' /\
    UveTypes.map_ x' !! "cpu"%string = Some (60, [1; 2; 3]).
Proof.
  eexists. split; [vm_compute; reflexivity|].
  destruct (UveSchedule.uve_periodic_schedule (UveTypes.Mk {["cpu"%string:=(60, [])]} 0) 7
    (default (UveTypes.Mk ∅ 0) (UveSchedule.ticks 7 (UveTypes.Mk {["cpu"%string:=(60, [])]} 0))) "cpu" 60 [] 2) as (g'&Hg&Hr).
  - by vm_compute.
  - done.
  - by vm_compute.
  - by vm_compute.
  - lia.
  - vm_compute in Hr. injection Hr as <-. exact Hg.
Defined.

End UveDemo.
