(* ===== verification/Receive.v ===== *)
(** * Messages in the binary encoding, without a session

    library/cpp/sandesh.cc: [WriteBinary], [ReadBinary], [ReceiveBinaryMsgOne] and
    [ReceiveBinaryMsg], with which an agent talks to the module in the kernel.  The code
    generated for a message is a parameter: its reader and writer on a protocol, and
    the factory that makes a message of a name (GeneratedReceive.v gives both).  [Process] is a call of the
    application: the model collects its arguments.

    [None] is undefined behaviour or a loop that does not end. *)

From S2P Require Import Prelude Transport Protocol Wire Binary BinarySpec.
Local Open Scope Z_scope.

Module Receive.
Definition EINVAL : Z := 22.
Abbreviation prot := (TBinaryProtocol.t TMemoryBuffer.t).

Section Receive.
Context `{!Allocator} {X : Type}.

(** A message a factory makes: [Read], and whether it is a [SandeshBuffer]. *)
Record instance := MkInstance { i_Read : M prot (Z * option X); is_buffer : bool }.
Variable CreateInstance : list byte -> option instance.

(** [setWriteBuffer] *)
Definition setWriteBuffer (len : Z) (b : TMemoryBuffer.t) : TMemoryBuffer.t :=
  TMemoryBuffer.Mk (TMemoryBuffer.buffer_ b) (TMemoryBuffer.bufferSize_ b) (TMemoryBuffer.rBase_ b)
    (TMemoryBuffer.rBound_ b) 0 len (TMemoryBuffer.owner_ b).

(** A buffer of the caller's, behind a protocol. *)
Definition over (buf : list byte) : option prot :=
  btrans ← TMemoryBuffer.new_buffer (Some buf) (zlen buf) TMemoryBuffer.OBSERVE;
  Some (TBinaryProtocol.new btrans).

(** The result, the caller's buffer and the error. *)
Definition WriteBinary (Write : M prot Z) (buf : list byte) (error : Z) : option (Z * list byte * Z) :=
  btrans ← TMemoryBuffer.new_buffer (Some buf) (zlen buf) TMemoryBuffer.OBSERVE;
  let btrans := setWriteBuffer (zlen buf) btrans in
  '(xfer, p) ← Write (TBinaryProtocol.new btrans);
  Some (xfer, TMemoryBuffer.mem (TBinaryProtocol.trans_ p), if xfer <? 0 then EINVAL else error).

Definition ReadBinary (Read : M prot (Z * option X)) (buf : list byte) (error : Z) : option (Z * option X * Z) :=
  p ← over buf;
  '((xfer, x), _) ← Read p;
  Some (xfer, x, if xfer <? 0 then EINVAL else error).

(** [*error], the messages processed, and those a failed [Read] leaves allocated. *)
Record rstate := MkR { rerror : Z; rprocessed : list X; leaked : Z }.

Definition ReceiveBinaryMsgOne (buf : list byte) (r : rstate) : option (Z * rstate) :=
  p ← over buf;
  '((xfer, sandesh_name), _) ← TBinaryProtocol.readSandeshBegin p;
  if xfer <? 0 then Some (xfer, MkR EINVAL (rprocessed r) (leaked r))
  else
    match CreateInstance (default [] sandesh_name) with
    | None => Some (-1, MkR EINVAL (rprocessed r) (leaked r))
    | Some sandesh =>
        p ← over buf;
        '((xfer, x), _) ← i_Read sandesh p;
        if xfer <? 0 then Some (xfer, MkR EINVAL (rprocessed r) (leaked r + 1))
        else Some (xfer, MkR (rerror r) (if is_buffer sandesh then rprocessed r ++ option_list x else rprocessed r) (leaked r))
    end.

(** [xfer] is a [u_int32_t]. *)
Fixpoint receive_loop (fuel : nat) (buf : list byte) (xfer : Z) (r : rstate) : option (Z * rstate) :=
  if xfer <? zlen buf then
    match fuel with
    | O => None
    | S fuel =>
        '(ret, r) ← ReceiveBinaryMsgOne (drop (Z.to_nat xfer) buf) r;
        if ret <? 0 then Some (ret, r) else receive_loop fuel buf (u32 (xfer + ret)) r
    end
  else Some (i32 xfer, r).
(** A message takes a byte at least. *)
Definition ReceiveBinaryMsg (buf : list byte) (r : rstate) : option (Z * rstate) :=
  receive_loop (S (length buf)) buf 0 r.

(** *** A buffer of messages *)

(** Code generated for the message [v]: it has a name that the factory knows, and reads
    exactly the encoding, as the object [obj_of v]. *)
Definition rcodec {V} (enc : V -> list byte) (obj_of : V -> X) (v : V) : Prop :=
  exists name body i, enc v = count (zlen name) ++ name ++ body /\ CreateInstance name = Some i /\
    is_buffer i = true /\ reads (i_Read i) (enc v) (obj_of v).

Lemma over_ready buf : zlen buf < 2 ^ 31 -> exists p, over buf = Some p /\ ready p buf.
Proof.
  intros Hb. destruct (TMemoryBuffer.new_observe buf) as (b&E&Hw&Hc); [lia|].
  exists (TBinaryProtocol.new b). unfold over. rewrite E. done.
Qed.

Lemma receive_named name rest r :
  zlen (count (zlen name) ++ name ++ rest) < 2 ^ 31 ->
  ReceiveBinaryMsgOne (count (zlen name) ++ name ++ rest) r =
  match CreateInstance name with
  | None => Some (-1, MkR EINVAL (rprocessed r) (leaked r))
  | Some sandesh =>
      p ← over (count (zlen name) ++ name ++ rest);
      '((xfer, x), _) ← i_Read sandesh p;
      if xfer <? 0 then Some (xfer, MkR EINVAL (rprocessed r) (leaked r + 1))
      else Some (xfer, MkR (rerror r) (if is_buffer sandesh then rprocessed r ++ option_list x else rprocessed r)
                   (leaked r))
  end.
Proof.
  intros Hsz. unfold ReceiveBinaryMsgOne. destruct (over_ready _ Hsz) as (p&E&Hp). rewrite E. cbn [mbind option_bind].
  rewrite app_assoc in Hp. rewrite !length_app in Hsz.
  destruct (readString_reads name ltac:(lia) p rest Hp) as (s&Es&_); [rewrite length_app; lia|].
  unfold TBinaryProtocol.readSandeshBegin. rewrite Es. cbn [mbind option_bind].
  destruct (Z.ltb_spec (zlen (count (zlen name) ++ name)) 0); [lia|]. reflexivity.
Qed.

Section All.
Context {V : Type} (enc : V -> list byte) (obj_of : V -> X).

Lemma receive_one_codec x rest r :
  rcodec enc obj_of x -> zlen (enc x ++ rest) < 2 ^ 31 ->
  ReceiveBinaryMsgOne (enc x ++ rest) r = Some (zlen (enc x), MkR (rerror r) (rprocessed r ++ [obj_of x]) (leaked r)).
Proof.
  intros (name&body&i&E&Hi&Hb&Hr) Hsz. destruct (over_ready _ Hsz) as (p&Ep&Hp).
  destruct (Hr p rest Hp) as (s&Es&_); [rewrite length_app in Hsz; lia|].
  assert (enc x ++ rest = count (zlen name) ++ name ++ body ++ rest) as E' by (rewrite E; by rewrite <- !app_assoc).
  rewrite E' in *. rewrite receive_named by done. rewrite Hi, Ep. cbn [mbind option_bind]. rewrite Es.
  cbn [mbind option_bind]. rewrite Hb. by destruct (Z.ltb_spec (zlen (enc x)) 0); [lia|].
Qed.

Lemma rcodec_pos x : rcodec enc obj_of x -> 0 < zlen (enc x).
Proof. intros (name&body&i&E&_). rewrite E. unfold count. rewrite !length_app, length_be_bytes. lia. Qed.

Lemma receive_loop_all tail : forall xs pre fuel r,
  Forall (rcodec enc obj_of) xs -> (length xs <= fuel)%nat -> zlen (pre ++ concat (map enc xs) ++ tail) < 2 ^ 31 ->
  receive_loop fuel (pre ++ concat (map enc xs) ++ tail) (zlen pre) r =
  receive_loop (fuel - length xs) (pre ++ concat (map enc xs) ++ tail) (zlen (pre ++ concat (map enc xs)))
    (MkR (rerror r) (rprocessed r ++ map obj_of xs) (leaked r)).
Proof.
  induction xs as [|x xs IH]; intros pre fuel r Hxs Hfuel Hsz; cbn [map concat length] in *.
  - rewrite !app_nil_r, Nat.sub_0_r. by destruct r.
  - apply Forall_cons_iff in Hxs as [Hx Hxs]. pose proof (rcodec_pos x Hx) as Hpos.
    destruct fuel as [|fuel]; [lia|]. cbn [receive_loop Nat.sub].
    destruct (Z.ltb_spec (zlen pre) (zlen (pre ++ (enc x ++ concat (map enc xs)) ++ tail)));
      [|rewrite !length_app in *; lia].
    rewrite Nat2Z.id, drop_app_length, <- app_assoc.
    rewrite receive_one_codec by (done || (rewrite !length_app in *; lia)). cbn [mbind option_bind].
    destruct (Z.ltb_spec (zlen (enc x)) 0); [lia|].
    rewrite !length_app in Hsz. rewrite (wrapU_small 32) by lia.
    replace (zlen pre + zlen (enc x)) with (zlen (pre ++ enc x)) by (rewrite length_app; lia).
    rewrite !(app_assoc pre (enc x)). rewrite IH; [|done|lia|rewrite !length_app; lia].
    cbn [rerror rprocessed leaked]. by rewrite <- !app_assoc.
Qed.

(** What [ReceiveBinaryMsg] makes of messages and what follows them. *)
Lemma receive_all xs tail r :
  Forall (rcodec enc obj_of) xs -> zlen (concat (map enc xs) ++ tail) < 2 ^ 31 ->
  ReceiveBinaryMsg (concat (map enc xs) ++ tail) r =
  match tail with
  | [] => Some (zlen (concat (map enc xs)), MkR (rerror r) (rprocessed r ++ map obj_of xs) (leaked r))
  | _ :: _ =>
      receive_loop (S (length tail + (length (concat (map enc xs)) - length xs)))
        (concat (map enc xs) ++ tail) (zlen (concat (map enc xs))) (MkR (rerror r) (rprocessed r ++ map obj_of xs) (leaked r))
  end.
Proof.
  intros Hxs Hsz. assert (length xs <= length (concat (map enc xs)))%nat as Hlen.
  { clear -Hxs. induction Hxs as [|x xs Hx _ IH]; [done|]. cbn [map concat length]. rewrite length_app.
    pose proof (rcodec_pos x Hx). lia. }
  unfold ReceiveBinaryMsg. rewrite length_app.
  pose proof (receive_loop_all tail xs [] (S (length (concat (map enc xs)) + length tail)) r Hxs ltac:(lia) Hsz) as E.
  cbn [app length] in E. change (Z.of_nat 0) with 0 in E. rewrite E. clear E. destruct tail as [|b tail].
  - cbn [length]. rewrite app_nil_r in *. destruct (S (length _ + 0) - length xs)%nat; cbn [receive_loop];
      (destruct (Z.ltb_spec (zlen (concat (map enc xs))) (zlen (concat (map enc xs)))); [lia|]);
      by rewrite wrapS_small by lia.
  - f_equal. cbn [length]. lia.
Qed.

(** A message behind them that fails ends the work. *)
Lemma receive_then xs tail r ret r' :
  Forall (rcodec enc obj_of) xs -> zlen (concat (map enc xs) ++ tail) < 2 ^ 31 -> 0 < zlen tail -> ret < 0 ->
  ReceiveBinaryMsgOne tail (MkR (rerror r) (rprocessed r ++ map obj_of xs) (leaked r)) = Some (ret, r') ->
  ReceiveBinaryMsg (concat (map enc xs) ++ tail) r = Some (ret, r').
Proof.
  intros Hxs Hsz Ht Hret E. rewrite receive_all by done. destruct tail as [|b tail]; [done|]. cbn [receive_loop].
  rewrite length_app. destruct (Z.ltb_spec (zlen (concat (map enc xs)))
    (Z.of_nat (length (concat (map enc xs)) + length (b :: tail)))); [|cbn [length] in *; lia].
  rewrite Nat2Z.id, drop_app_length, E. cbn [mbind option_bind]. by destruct (Z.ltb_spec ret 0); [|lia].
Qed.
End All.

End Receive.
Arguments instance : clear implicits.
Arguments rstate : clear implicits.

End Receive.
