(* ===== verification/FileTransport.v ===== *)
(** * File transports

    library/cpp/transport/TFDTransport.h and .cpp, a transport over a file descriptor,
    TSimpleFileTransport.h and .cpp, one over a file that it opens itself, and
    [WriteBinaryToFile] and [ReadBinaryFromFile] of library/cpp/sandesh.cc.

    The system calls are a parameter, [Posix]; [PosixLaws] is what is documented of them
    for regular files, stated on an abstract file system: a read or a write may fail at any
    time.  What is assumed beyond that where a theorem says that a message gets through is
    the predicate [calm] on the system.  A result [None] is an
    [assert] that fails or an access outside of a buffer.  Logging is left out. *)

From S2P Require Import Prelude Transport Protocol Binary Receive.
Local Open Scope Z_scope.

(** ** The system calls

    [os] is the state behind them.  [sys_read fd len] returns the result, the bytes it
    stored in the buffer and [errno]; [sys_write fd bytes] the result and [errno]. *)
Class Posix := {
  os : Type;
  sys_open : list byte -> Z -> Z -> os -> Z * os;
  sys_read : Z -> Z -> os -> Z * list byte * Z * os;
  sys_write : Z -> list byte -> os -> Z * Z * os;
  sys_close : Z -> os -> Z * os;
}.

Definition EINTR : Z := 4.
Definition O_RDONLY : Z := 0.
Definition O_WRONLY : Z := 1.
Definition O_RDWR : Z := 2.
Definition O_ACCMODE : Z := 3.
Definition O_CREAT : Z := 64.
Definition O_APPEND : Z := 1024.
Definition S_IRUSR : Z := 256.
Definition S_IWUSR : Z := 128.
Definition S_IRGRP : Z := 32.
Definition S_IROTH : Z := 4.

(** ** [TFDTransport] *)
Module TFDTransport.

Inductive ClosePolicy := NO_CLOSE_ON_DESTROY | CLOSE_ON_DESTROY.

Section Operations.
Context `{!Posix}.

(** The object, and the state of the system it works on. *)
Record t := Mk { fd_ : Z; close_policy_ : ClosePolicy; world : os }.

Definition set_world (w : os) (x : t) : t := Mk (fd_ x) (close_policy_ x) w.

Definition isOpen (x : t) : bool := 0 <=? fd_ x.
Definition open (x : t) : t := x.
Definition setFD (fd : Z) (x : t) : t := Mk fd (close_policy_ x) (world x).
Definition getFD (x : t) : Z := fd_ x.

(** The result of the system call is only logged. *)
Definition close (x : t) : t :=
  if negb (isOpen x) then x
  else let '(_, w) := sys_close (fd_ x) (world x) in setFD (-1) (set_world w x).

Definition destroy (x : t) : os :=
  world (match close_policy_ x with CLOSE_ON_DESTROY => close x | NO_CLOSE_ON_DESTROY => x end).

(** [more] is [maxRetries - retries]. *)
Definition maxRetries : nat := 5.
Fixpoint read_loop (more : nat) (len : Z) (x : t) : Z * list byte * t :=
  let '(rv, data, errno, w) := sys_read (fd_ x) len (world x) in
  let x := set_world w x in
  if rv <? 0 then
    match more with
    | S more => if errno =? EINTR then read_loop more len x else (i32 rv, data, x)
    | O => (i32 rv, data, x)
    end
  else (i32 rv, data, x).
Definition read (len : Z) (x : t) : Z * list byte * t := read_loop maxRetries len x.

(** Each turn writes a byte at least. *)
Fixpoint write_loop (fuel : nat) (buf : list byte) (x : t) : option (Z * t) :=
  if 0 <? zlen buf then
    match fuel with
    | O => None
    | S fuel =>
        let '(rv, _, w) := sys_write (fd_ x) buf (world x) in
        let x := set_world w x in
        if rv <? 0 then Some (i32 rv, x)
        else if rv =? 0 then Some (-1, x)
        else if rv <=? zlen buf then write_loop fuel (drop (Z.to_nat rv) buf) x else None
    end
  else Some (0, x).
Definition write (buf : list byte) (x : t) : option (Z * t) := write_loop (length buf) buf x.

#[export] Instance transport : Transport t := {
  tread x len := Some (read len x);
  twrite x buf := write buf x;
}.

(** Inherited of TVirtualTransport and TTransport: [readAll] over [read], whose result goes
    through [uint32_t] and back, a [borrow] that returns a null pointer, and a [consume]
    that asserts. *)
Definition readAll (len : Z) (x : t) : option (Z * list byte * t) := Transport.readAll x len.
Definition borrow (x : t) (len : Z) : option (option (list byte) * t) := Some (None, x).
Definition consume (x : t) (len : Z) : option t := None.

#[global] Instance ttransport : TTransport t := {
  t_readAll x n := readAll n x;
  t_write x d := write d x;
  t_borrow := borrow;
  t_consume := consume;
}.
End Operations.
End TFDTransport.

(** ** [TSimpleFileTransport] and the messages in files *)
Module SimpleFile.
Import TFDTransport.
Section Operations.
Context `{!Posix} `{!Allocator}.
Abbreviation prot := (TBinaryProtocol.t TFDTransport.t).

Definition open_flags (read write : bool) : option Z :=
  flags ← (if read && write then Some O_RDWR
           else if read then Some O_RDONLY
           else if write then Some O_WRONLY
           else None);
  Some (if write then Z.lor flags (Z.lor O_CREAT O_APPEND) else flags).
Definition open_mode : Z := Z.lor (Z.lor (Z.lor S_IRUSR S_IWUSR) S_IRGRP) S_IROTH.

Definition TSimpleFileTransport (path : list byte) (read write : bool) (w : os) : option t :=
  flags ← open_flags read write;
  let x := Mk (-1) CLOSE_ON_DESTROY w in
  let '(fd, w) := sys_open (c_str path) flags open_mode (world x) in
  let x := set_world w x in
  if fd <? 0 then None else Some (open (setFD fd x)).

(** The result, the error and the system after the transport was destroyed. *)
Definition WriteBinaryToFile (Write : M prot Z) (path : list byte) (error : Z) (w : os) : option (Z * Z * os) :=
  btrans ← TSimpleFileTransport path false true w;
  '(xfer, p) ← Write (TBinaryProtocol.new btrans);
  Some (xfer, if xfer <? 0 then Receive.EINVAL else error, destroy (TBinaryProtocol.trans_ p)).

Definition ReadBinaryFromFile {X} (Read : M prot (Z * option X)) (path : list byte) (error : Z) (w : os)
    : option (Z * option X * Z * os) :=
  btrans ← TSimpleFileTransport path true false w;
  '((xfer, x), p) ← Read (TBinaryProtocol.new btrans);
  Some (xfer, x, if xfer <? 0 then Receive.EINVAL else error, destroy (TBinaryProtocol.trans_ p)).
End Operations.
End SimpleFile.

(** ** The abstract file system

    The regular files with their bytes, the open descriptors, and the bytes that the disk
    has left. *)
Record descriptor := MkFd { d_path : list byte; d_flags : Z; d_pos : nat }.
Record fs := MkFs { files : gmap (list byte) (list byte); fds : gmap Z descriptor; free : Z }.

Definition fs_open (fd : Z) (path : list byte) (flags : Z) (f : fs) : fs :=
  MkFs (<[path := default [] (files f !! path)]> (files f)) (<[fd := MkFd path flags 0]> (fds f)) (free f).
Definition fs_close (fd : Z) (f : fs) : fs := MkFs (files f) (delete fd (fds f)) (free f).
(** [n] bytes read through [fd], whose descriptor is [d]. *)
Definition fs_read (fd : Z) (d : descriptor) (n : nat) (f : fs) : fs :=
  MkFs (files f) (<[fd := MkFd (d_path d) (d_flags d) (d_pos d + n)]> (fds f)) (free f).
(** [bytes] appended to [data], the file of the descriptor [d]. *)
Definition fs_append (fd : Z) (d : descriptor) (data bytes : list byte) (f : fs) : fs :=
  MkFs (<[d_path d := data ++ bytes]> (files f))
       (<[fd := MkFd (d_path d) (d_flags d) (length (data ++ bytes))]> (fds f)) (free f - zlen bytes).

Definition reads_flag (flags : Z) : bool := negb (Z.land flags O_ACCMODE =? O_WRONLY).
Definition appends_flag (flags : Z) : bool :=
  negb (Z.land flags O_ACCMODE =? O_RDONLY) && negb (Z.land flags O_APPEND =? 0).

(** What is documented of the system calls for regular files.  [may_open]: there is a
    descriptor left and the permissions are there.  A read fails and leaves the file as it
    is, or takes some bytes, none only at the end of the file; a write in append mode fails
    and leaves the file as it is, or takes some bytes, for which there was space. *)
Class PosixLaws `{!Posix} := {
  view : os -> fs;
  may_open : os -> list byte -> Z -> Prop;
  open_ok w path flags mode :
    may_open w path flags -> is_Some (files (view w) !! path) \/ Z.land flags O_CREAT <> 0 ->
    exists fd w', sys_open path flags mode w = (fd, w') /\ 0 <= fd /\ fds (view w) !! fd = None /\
      view w' = fs_open fd path flags (view w);
  close_ok w fd :
    is_Some (fds (view w) !! fd) ->
    exists rv w', sys_close fd w = (rv, w') /\ view w' = fs_close fd (view w);
  read_ok w fd n d data :
    fds (view w) !! fd = Some d -> reads_flag (d_flags d) = true ->
    files (view w) !! d_path d = Some data -> 0 < n ->
    exists rv bytes errno w', sys_read fd n w = (rv, bytes, errno, w') /\
      (rv = -1 /\ view w' = view w \/
       rv = zlen bytes /\ zlen bytes <= n /\ bytes `prefix_of` drop (d_pos d) data /\
         (bytes = [] -> drop (d_pos d) data = []) /\ view w' = fs_read fd d (length bytes) (view w));
  write_ok w fd d data buf :
    fds (view w) !! fd = Some d -> appends_flag (d_flags d) = true ->
    files (view w) !! d_path d = Some data -> 0 < zlen buf ->
    exists rv errno w', sys_write fd buf w = (rv, errno, w') /\
      (rv = -1 /\ view w' = view w \/
       exists bytes, rv = zlen bytes /\ bytes <> [] /\ bytes `prefix_of` buf /\
         zlen bytes <= free (view w) /\ view w' = fs_append fd d data bytes (view w));
}.

(** ** A calm system: an assumption on the environment, not on the system calls

    From some state on no read on an open file fails but by interruption, and not more than
    five times in a row, the number of times that [TFDTransport::read] tries again; no write
    fails for which the disk has space.  [I k w]: in [w] the next read is interrupted at
    most [k] times. *)
Definition calm_inv `{!Posix} `{!PosixLaws} (I : nat -> os -> Prop) : Prop :=
  (forall k w path flags mode, I k w -> I k (snd (sys_open path flags mode w))) /\
  (forall k w fd, I k w -> I k (snd (sys_close fd w))) /\
  (forall k w fd d n rv bytes errno w',
     I k w -> fds (view w) !! fd = Some d -> sys_read fd n w = (rv, bytes, errno, w') ->
     0 <= rv /\ I 5%nat w' \/ rv < 0 /\ errno = EINTR /\ exists k', k = S k' /\ I k' w') /\
  (forall k w fd d buf rv errno w',
     I k w -> fds (view w) !! fd = Some d -> sys_write fd buf w = (rv, errno, w') ->
     I k w' /\ (0 < zlen buf <= free (view w) -> 0 <= rv)).
Definition calm `{!Posix} `{!PosixLaws} (w : os) : Prop := exists I, calm_inv I /\ I 5%nat w.
