(* ===== verification/Facility.v ===== *)
(** * The facility: what a process sends, and what it drops

    The static part of class Sandesh (library/cpp/sandesh.h and sandesh.cc), the functions
    [Send] that the compiler generates for system logs, object logs and flows
    (compiler/generate/t_cpp_generator.cc), and the introspection requests that change
    its parameters (library/cpp/sandesh_req.cc).

    The client is behind the class [FacClient]; FacilityClient.v makes the client of
    Client.v an instance.  An object of a message is the record [sandesh]; its creation,
    its release, a line of the log and an answer to the HTTP server are kept, in order, in [fx].
    A failed [assert] is [None]. *)

From S2P Require Import Prelude Transport Statistics Protocol Message ClientSM.
Local Open Scope Z_scope.

(** ** Levels *)
Module SandeshLevel.
Definition SYS_UVE : Z := -100.
Definition SYS_EMERG : Z := 0.
Definition SYS_ALERT : Z := 1.
Definition SYS_CRIT : Z := 2.
Definition SYS_ERR : Z := 3.
Definition SYS_WARN : Z := 4.
Definition SYS_NOTICE : Z := 5.
Definition SYS_INFO : Z := 6.
Definition SYS_DEBUG : Z := 7.
Definition UT_START : Z := 200.
Definition UT_END : Z := 207.
Definition INVALID : Z := SandeshLevel_INVALID.

(** The enumeration as it is declared, two pairs of its names being synonyms. *)
Definition declaration : list (Z * string) :=
  [(-100, "SYS_UVE"); (0, "SYS_EMERG"); (1, "SYS_ALERT"); (2, "SYS_CRIT"); (3, "SYS_ERR"); (4, "SYS_WARN");
   (5, "SYS_NOTICE"); (6, "SYS_INFO"); (7, "SYS_DEBUG"); (200, "UT_START"); (200, "UT_EMERG"); (201, "UT_ALERT");
   (202, "UT_CRIT"); (203, "UT_ERR"); (204, "UT_WARN"); (205, "UT_NOTICE"); (206, "UT_INFO"); (207, "UT_DEBUG");
   (207, "UT_END"); (INVALID, "INVALID")]%string.

(** A [std::map] filled in this order: of two values that are equal the first stays. *)
Fixpoint insert_name (k : Z) (n : string) (l : list (Z * string)) : list (Z * string) :=
  match l with
  | [] => [(k, n)]
  | (k', n') :: l' =>
      if k <? k' then (k, n) :: l else if k =? k' then l else (k', n') :: insert_name k n l'
  end.
Definition VALUES_TO_NAMES : list (Z * string) :=
  fold_left (fun l p => insert_name p.1 p.2 l) declaration [].

Fixpoint lookup_name (k : Z) (l : list (Z * string)) : option string :=
  match l with [] => None | (k', n) :: l => if k =? k' then Some n else lookup_name k l end.
Definition LevelToString (level : Z) : string := default "UNKNOWN"%string (lookup_name level VALUES_TO_NAMES).

(** [strncmp(level, name, strlen(name)) == 0] *)
Fixpoint starts_with (level name : string) {struct name} : bool :=
  match name, level with
  | EmptyString, _ => true
  | String c name, String d level => if Ascii.eqb c d then starts_with level name else false
  | _, _ => false
  end.
Fixpoint find_level (level : string) (l : list (Z * string)) : Z :=
  match l with
  | [] => INVALID
  | (k, n) :: l => if starts_with level n then k else find_level level l
  end.
Definition StringToLevel (level : string) : Z := find_level level VALUES_TO_NAMES.

(** The levels of log4cplus that are used, in their order. *)
Inductive LogLevel := ALL | DEBUG | INFO | WARN | ERROR | FATAL.
#[export] Instance LogLevel_eq_dec : EqDecision LogLevel.
Proof. solve_decision. Defined.
Definition rank (l : LogLevel) : Z :=
  match l with ALL => 0 | DEBUG => 10000 | INFO => 20000 | WARN => 30000 | ERROR => 40000 | FATAL => 50000 end.
Definition SandeshLevelTolog4Level (slevel : Z) : LogLevel :=
  if bool_decide (slevel ∈ [SYS_EMERG; SYS_ALERT; SYS_CRIT]) then FATAL
  else if slevel =? SYS_ERR then ERROR
  else if bool_decide (slevel ∈ [SYS_WARN; SYS_NOTICE]) then WARN
  else if slevel =? SYS_INFO then INFO
  else if slevel =? SYS_DEBUG then DEBUG
  else ALL.

Definition IsLevelUT (level : Z) : bool := (UT_START <=? level) && (level <=? UT_END).
End SandeshLevel.
Import SandeshLevel.

(** ** The limit of a rate

    A [boost::circular_buffer<time_t>]: its capacity and its elements, oldest first. *)
Module RateLimit.
Record buffer := MkBuffer { capacity : Z; elems : list Z }.

(** [rresize]: the oldest elements are dropped, or zeros put in front of them; the
    capacity grows with the size if it has to. *)
Definition rresize (n : Z) (b : buffer) : buffer :=
  let size := zlen (elems b) in
  if size <? n
  then MkBuffer (Z.max (capacity b) n) (replicate (Z.to_nat (n - size)) 0 ++ elems b)
  else MkBuffer (capacity b) (drop (Z.to_nat (size - n)) (elems b)).
(** [set_capacity]: the newest elements that have no room are dropped. *)
Definition set_capacity (n : Z) (b : buffer) : buffer := MkBuffer n (take (Z.to_nat n) (elems b)).
Definition push_back (v : Z) (b : buffer) : buffer :=
  if capacity b =? 0 then b
  else if capacity b =? zlen (elems b) then MkBuffer (capacity b) (drop 1 (elems b) ++ [v])
  else MkBuffer (capacity b) (elems b ++ [v]).

(** The static members of a system log: the buffer and whether a drop is to be logged. *)
Record t := Mk { rate_limit_buffer_ : buffer; do_rate_limit_drop_log_ : bool }.
(** [time] is [time(0)]. *)
Definition IsRatelimitPass (send_rate_limit time : Z) (r : t) : bool * t :=
  if send_rate_limit =? 0 then (false, r)
  else
    let b := rate_limit_buffer_ r in
    let b := if capacity b =? send_rate_limit then b
             else set_capacity send_rate_limit (rresize send_rate_limit b) in
    let r := Mk b (do_rate_limit_drop_log_ r) in
    if (capacity b =? zlen (elems b)) &&
       match elems b with first :: _ => first =? time | [] => false end then (false, r)
    else (true, Mk (push_back time b) true).
End RateLimit.

(** ** The client behind an interface

    What the facility asks of a [SandeshClient].  A queue water mark is a count, a level
    and whether it is a high one. *)
Definition QueueWaterMarkInfo : Type := Z * Z * bool.
Class FacClient (C : Type) := {
  (** The constructor and [Initiate]; the flag is [periodicuve]. *)
  fc_new : list ClientSM.Endpoint -> bool -> C;
  fc_SendSandesh : ClientSM.Snh -> C -> bool * C;
  fc_SendSandeshUVE : ClientSM.Snh -> C -> bool * C;
  fc_CloseSMSession : C -> option (bool * C);
  (** [session()->SendingLevel()] and the DSCP value, of the session if there is one. *)
  fc_SendingLevel : C -> option Z;
  fc_GetDscpValue : C -> option Z;
  fc_ReConfigCollectors : list string -> C -> C;
  fc_SetDscpValue : Z -> C -> C;
  fc_MayBeStartRunner : C -> C;
  fc_GetSessionWaterMarkInfo : C -> list QueueWaterMarkInfo;
  fc_SetSessionWaterMarkInfo : QueueWaterMarkInfo -> C -> C;
  fc_ResetSessionWaterMarkInfo : C -> C;
  (** The server and the name of the state. *)
  fc_server : C -> ClientSM.Endpoint * string;
}.

Module Sandesh.

Inductive SandeshRole := Invalid | Generator | Collector | Test.
#[export] Instance SandeshRole_eq_dec : EqDecision SandeshRole.
Proof. solve_decision. Defined.
Definition SandeshRoleToString (role : SandeshRole) : string :=
  match role with
  | Generator => "Generator" | Collector => "Collector" | Test => "Test" | Invalid => "Invalid"
  end.

(** The answers of sandesh_req.cc; other messages are opaque. *)
Inductive content :=
  | Opaque (c : Z)
  | SandeshLoggingParams (enable : bool) (category log_level : string) (trace_print enable_flow_log : bool)
  | SandeshSendingParams (system_logs_rate_limit : Z) (disable_object_logs disable_all_logs disable_flows : bool)
      (dscp : option Z)
  | SandeshSendQueueResponse (enable : bool)
  | CollectorInfoResponse (info : option (ClientSM.Endpoint * string))
  | SandeshSendQueueParamsResponse (info : list (Z * string * bool))
  | SandeshMessageStatsResp (types : list SandeshMessageTypeStats) (agg : SandeshMessageStats)
      (sending_level : option string).

(** A message object.  [is_uve]: of class [SandeshUVE]. *)
Record sandesh := MkSandesh {
  type_ : SandeshType;
  is_uve : bool;
  name_ : string;
  level_ : Z;
  category_ : string;
  context_ : string;
  content_ : content;
}.

(** What happens to objects and what others see. *)
Inductive effect :=
  | Created (m : sandesh)
  | Released (m : sandesh)
  | Logged (l : LogLevel) (m : sandesh)
  | DropLogged (m : sandesh)
  | HttpResponse (m : sandesh)
  | CalledBack (m : sandesh)
  | Unrolled (m : sandesh)
  | RequestReleased (name : string)
  | ClientCreated
  | ClientDeleted
  | HttpUninit.

(** Who the process is. *)
Record Identity := MkIdentity {
  role_ : SandeshRole;
  module_ : string;
  source_ : string;
  node_type_ : string;
  instance_id_ : string;
  http_port_ : Z;
  client_context_ : Z;
}.
Definition set_role v (x : Identity) : Identity :=
  MkIdentity v (module_ x) (source_ x) (node_type_ x) (instance_id_ x) (http_port_ x)
    (client_context_ x).
Definition set_module v (x : Identity) : Identity :=
  MkIdentity (role_ x) v (source_ x) (node_type_ x) (instance_id_ x) (http_port_ x)
    (client_context_ x).
Definition set_source v (x : Identity) : Identity :=
  MkIdentity (role_ x) (module_ x) v (node_type_ x) (instance_id_ x) (http_port_ x)
    (client_context_ x).
Definition set_node_type v (x : Identity) : Identity :=
  MkIdentity (role_ x) (module_ x) (source_ x) v (instance_id_ x) (http_port_ x)
    (client_context_ x).
Definition set_instance_id v (x : Identity) : Identity :=
  MkIdentity (role_ x) (module_ x) (source_ x) (node_type_ x) v (http_port_ x) (client_context_ x).
Definition set_http_port v (x : Identity) : Identity :=
  MkIdentity (role_ x) (module_ x) (source_ x) (node_type_ x) (instance_id_ x) v
    (client_context_ x).
Definition set_client_context v (x : Identity) : Identity :=
  MkIdentity (role_ x) (module_ x) (source_ x) (node_type_ x) (instance_id_ x) (http_port_ x) v.

(** What is logged; the levels of the logger SANDESH and of the root logger. *)
Record Logging := MkLogging {
  enable_local_log_ : bool;
  enable_flow_log_ : bool;
  enable_trace_print_ : bool;
  logging_level_ : Z;
  logging_category_ : string;
  logger_level : LogLevel;
  root_level : LogLevel;
}.
Definition set_enable_local_log v (x : Logging) : Logging :=
  MkLogging v (enable_flow_log_ x) (enable_trace_print_ x) (logging_level_ x) (logging_category_ x)
    (logger_level x) (root_level x).
Definition set_enable_flow_log v (x : Logging) : Logging :=
  MkLogging (enable_local_log_ x) v (enable_trace_print_ x) (logging_level_ x)
    (logging_category_ x) (logger_level x) (root_level x).
Definition set_enable_trace_print v (x : Logging) : Logging :=
  MkLogging (enable_local_log_ x) (enable_flow_log_ x) v (logging_level_ x) (logging_category_ x)
    (logger_level x) (root_level x).
Definition set_logging_level v (x : Logging) : Logging :=
  MkLogging (enable_local_log_ x) (enable_flow_log_ x) (enable_trace_print_ x) v
    (logging_category_ x) (logger_level x) (root_level x).
Definition set_logging_category v (x : Logging) : Logging :=
  MkLogging (enable_local_log_ x) (enable_flow_log_ x) (enable_trace_print_ x) (logging_level_ x) v
    (logger_level x) (root_level x).
Definition set_logger_level v (x : Logging) : Logging :=
  MkLogging (enable_local_log_ x) (enable_flow_log_ x) (enable_trace_print_ x) (logging_level_ x)
    (logging_category_ x) v (root_level x).
Definition set_root_level v (x : Logging) : Logging :=
  MkLogging (enable_local_log_ x) (enable_flow_log_ x) (enable_trace_print_ x) (logging_level_ x)
    (logging_category_ x) (logger_level x) v.

(** What is sent. *)
Record Sending := MkSending {
  send_queue_enabled_ : bool;
  disable_flow_collection_ : bool;
  disable_sending_all_ : bool;
  disable_sending_object_logs_ : bool;
  disable_sending_flows_ : bool;
  sandesh_send_ratelimit_ : Z;
}.
Definition set_send_queue_enabled v (x : Sending) : Sending :=
  MkSending v (disable_flow_collection_ x) (disable_sending_all_ x)
    (disable_sending_object_logs_ x) (disable_sending_flows_ x) (sandesh_send_ratelimit_ x).
Definition set_disable_flow_collection v (x : Sending) : Sending :=
  MkSending (send_queue_enabled_ x) v (disable_sending_all_ x) (disable_sending_object_logs_ x)
    (disable_sending_flows_ x) (sandesh_send_ratelimit_ x).
Definition set_disable_sending_all v (x : Sending) : Sending :=
  MkSending (send_queue_enabled_ x) (disable_flow_collection_ x) v (disable_sending_object_logs_ x)
    (disable_sending_flows_ x) (sandesh_send_ratelimit_ x).
Definition set_disable_sending_object_logs v (x : Sending) : Sending :=
  MkSending (send_queue_enabled_ x) (disable_flow_collection_ x) (disable_sending_all_ x) v
    (disable_sending_flows_ x) (sandesh_send_ratelimit_ x).
Definition set_disable_sending_flows v (x : Sending) : Sending :=
  MkSending (send_queue_enabled_ x) (disable_flow_collection_ x) (disable_sending_all_ x)
    (disable_sending_object_logs_ x) v (sandesh_send_ratelimit_ x).
Definition set_sandesh_send_ratelimit v (x : Sending) : Sending :=
  MkSending (send_queue_enabled_ x) (disable_flow_collection_ x) (disable_sending_all_ x)
    (disable_sending_object_logs_ x) (disable_sending_flows_ x) v.

Section Facility.
Context {C : Type} `{!FacClient C} {Req : Type}.

(** The static members. *)
Record t := Mk {
  identity : Identity;
  logging : Logging;
  sending : Sending;
  recv_queue_ : option (list Req);
  recv_task_id_ : Z;
  client_ : option C;
  connect_to_collector_ : bool;
  module_context_ : gmap string Z;
  msg_stats_ : SandeshMessageStatistics.t;
  response_callback_ : bool;
  fx : list effect;
}.
Definition set_identity v (x : t) : t :=
  Mk v (logging x) (sending x) (recv_queue_ x) (recv_task_id_ x) (client_ x)
    (connect_to_collector_ x) (module_context_ x) (msg_stats_ x) (response_callback_ x) (fx x).
Definition set_logging v (x : t) : t :=
  Mk (identity x) v (sending x) (recv_queue_ x) (recv_task_id_ x) (client_ x)
    (connect_to_collector_ x) (module_context_ x) (msg_stats_ x) (response_callback_ x) (fx x).
Definition set_sending v (x : t) : t :=
  Mk (identity x) (logging x) v (recv_queue_ x) (recv_task_id_ x) (client_ x)
    (connect_to_collector_ x) (module_context_ x) (msg_stats_ x) (response_callback_ x) (fx x).
Definition set_recv_queue v (x : t) : t :=
  Mk (identity x) (logging x) (sending x) v (recv_task_id_ x) (client_ x) (connect_to_collector_ x)
    (module_context_ x) (msg_stats_ x) (response_callback_ x) (fx x).
Definition set_recv_task_id v (x : t) : t :=
  Mk (identity x) (logging x) (sending x) (recv_queue_ x) v (client_ x) (connect_to_collector_ x)
    (module_context_ x) (msg_stats_ x) (response_callback_ x) (fx x).
Definition set_client v (x : t) : t :=
  Mk (identity x) (logging x) (sending x) (recv_queue_ x) (recv_task_id_ x) v
    (connect_to_collector_ x) (module_context_ x) (msg_stats_ x) (response_callback_ x) (fx x).
Definition set_connect_to_collector v (x : t) : t :=
  Mk (identity x) (logging x) (sending x) (recv_queue_ x) (recv_task_id_ x) (client_ x) v
    (module_context_ x) (msg_stats_ x) (response_callback_ x) (fx x).
Definition set_module_context v (x : t) : t :=
  Mk (identity x) (logging x) (sending x) (recv_queue_ x) (recv_task_id_ x) (client_ x)
    (connect_to_collector_ x) v (msg_stats_ x) (response_callback_ x) (fx x).
Definition set_msg_stats v (x : t) : t :=
  Mk (identity x) (logging x) (sending x) (recv_queue_ x) (recv_task_id_ x) (client_ x)
    (connect_to_collector_ x) (module_context_ x) v (response_callback_ x) (fx x).
Definition set_response_callback v (x : t) : t :=
  Mk (identity x) (logging x) (sending x) (recv_queue_ x) (recv_task_id_ x) (client_ x)
    (connect_to_collector_ x) (module_context_ x) (msg_stats_ x) v (fx x).
Definition set_fx v (x : t) : t :=
  Mk (identity x) (logging x) (sending x) (recv_queue_ x) (recv_task_id_ x) (client_ x)
    (connect_to_collector_ x) (module_context_ x) (msg_stats_ x) (response_callback_ x) v.

Definition emit (e : effect) (x : t) : t := set_fx (fx x ++ [e]) x.
Definition on_logging (f : Logging -> Logging) (x : t) : t := set_logging (f (logging x)) x.
Definition on_sending (f : Sending -> Sending) (x : t) : t := set_sending (f (sending x)) x.
Definition on_client (f : C -> C) (x : t) : t := set_client (f <$> client_ x) x.

(** *** Setters: each changes its member if the value is a new one *)
Definition SetLoggingCategory (category : string) (x : t) : t :=
  if negb (bool_decide (logging_category_ (logging x) = category)) then on_logging (set_logging_category category) x
  else x.
Definition SetLocalLogging (enable : bool) (x : t) : t :=
  if negb (Bool.eqb (enable_local_log_ (logging x)) enable) then on_logging (set_enable_local_log enable) x else x.
Definition SetTracePrint (enable : bool) (x : t) : t :=
  if negb (Bool.eqb (enable_trace_print_ (logging x)) enable) then on_logging (set_enable_trace_print enable) x else x.
Definition SetFlowLogging (enable : bool) (x : t) : t :=
  if negb (Bool.eqb (enable_flow_log_ (logging x)) enable) then on_logging (set_enable_flow_log enable) x else x.
Definition SetLoggingLevel (level : Z) (x : t) : t :=
  let log4_new_level := SandeshLevelTolog4Level level in
  if negb (logging_level_ (logging x) =? level) || negb (bool_decide (logger_level (logging x) = log4_new_level)) then
    on_logging (set_root_level log4_new_level) (on_logging (set_logger_level log4_new_level)
      (on_logging (set_logging_level level) x))
  else x.
Definition SetLoggingLevel_string (level : string) (x : t) : t := SetLoggingLevel (StringToLevel level) x.
Definition SetLoggingParams (enable_local_log : bool) (category : string) (level : Z)
    (enable_trace_print enable_flow_log : bool) (x : t) : t :=
  SetFlowLogging enable_flow_log (SetTracePrint enable_trace_print
    (SetLoggingLevel level (SetLoggingCategory category (SetLocalLogging enable_local_log x)))).
Definition SetLoggingParams_string (enable_local_log : bool) (category level : string)
    (enable_trace_print enable_flow_log : bool) (x : t) : t :=
  SetFlowLogging enable_flow_log (SetTracePrint enable_trace_print
    (SetLoggingLevel_string level (SetLoggingCategory category (SetLocalLogging enable_local_log x)))).

Definition DisableFlowCollection (disable : bool) (x : t) : t :=
  if negb (Bool.eqb (disable_flow_collection_ (sending x)) disable)
  then on_sending (set_disable_flow_collection disable) x else x.
Definition DisableSendingAllMessages (disable : bool) (x : t) : t :=
  if negb (Bool.eqb (disable_sending_all_ (sending x)) disable)
  then on_sending (set_disable_sending_all disable) x else x.
Definition DisableSendingObjectLogs (disable : bool) (x : t) : t :=
  if negb (Bool.eqb (disable_sending_object_logs_ (sending x)) disable)
  then on_sending (set_disable_sending_object_logs disable) x else x.
Definition DisableSendingFlows (disable : bool) (x : t) : t :=
  if negb (Bool.eqb (disable_sending_flows_ (sending x)) disable)
  then on_sending (set_disable_sending_flows disable) x else x.
(** The argument is an [int], the member an atomic [uint32_t]. *)
Definition set_send_rate_limit (rate_limit : Z) (x : t) : t :=
  if 0 <=? rate_limit then on_sending (set_sandesh_send_ratelimit (u32 rate_limit)) x else x.
Definition SetSendQueue (enable : bool) (x : t) : t :=
  if negb (Bool.eqb (send_queue_enabled_ (sending x)) enable) then
    let x := on_sending (set_send_queue_enabled enable) x in
    if enable then
      match client_ x with
      | Some c => if fc_SendingLevel c then on_client fc_MayBeStartRunner x else x
      | None => x
      end
    else x
  else x.

Definition IsSendingAllMessagesDisabled (x : t) : bool := disable_sending_all_ (sending x).
Definition IsSendingObjectLogsDisabled (x : t) : bool := disable_sending_object_logs_ (sending x).
Definition IsSendingFlowsDisabled (x : t) : bool := disable_sending_flows_ (sending x).
Definition IsSendingSystemLogsDisabled (x : t) : bool := sandesh_send_ratelimit_ (sending x) =? 0.
Definition IsFlowLoggingEnabled (x : t) : bool := enable_flow_log_ (logging x).

Definition module_context (module_name : string) (x : t) : option Z := module_context_ x !! module_name.
Definition set_module_context_of (module_name : string) (context : Z) (x : t) : t :=
  set_module_context (<[module_name := context]> (module_context_ x)) x.

(** *** What is logged *)
Definition IsUnitTest (x : t) : bool :=
  bool_decide (role_ (identity x) = Invalid) || bool_decide (role_ (identity x) = Test).
Definition HandleTest (level : Z) (x : t) : bool := IsUnitTest x || IsLevelUT level.

Definition IsLevelCategoryLoggingAllowed (type : SandeshType) (level : Z) (category : string) (x : t) : bool :=
  let level := if bool_decide (type = UVE) then INVALID else level in
  let level_allowed := level <=? logging_level_ (logging x) in
  let category_allowed :=
    if negb (bool_decide (logging_category_ (logging x) = EmptyString))
    then bool_decide (logging_category_ (logging x) = category) else true in
  level_allowed && category_allowed.
Definition is_flow (type : SandeshType) : bool := bool_decide (type = FLOW) || bool_decide (type = SESSION).
Definition IsLoggingAllowed (m : sandesh) (x : t) : bool :=
  if is_flow (type_ m) then enable_flow_log_ (logging x)
  else enable_local_log_ (logging x) && IsLevelCategoryLoggingAllowed (type_ m) (level_ m) (category_ m) x.
Definition IsLoggingDroppedAllowed (type : SandeshType) (x : t) : bool :=
  if is_flow type then enable_flow_log_ (logging x) else true.

Definition isEnabledFor (l : LogLevel) (x : t) : bool := rank (logger_level (logging x)) <=? rank l.
(** The generated [Log], static or not: both ask the same. *)
Definition Log (m : sandesh) (x : t) : t :=
  if negb (IsLevelCategoryLoggingAllowed (type_ m) (level_ m) (category_ m) x) then x
  else
    let Xlog4level := SandeshLevelTolog4Level (level_ m) in
    if negb (isEnabledFor Xlog4level x) then x else emit (Logged Xlog4level m) x.
Definition DropLog (m : sandesh) (x : t) : t :=
  let Xlog4level := SandeshLevelTolog4Level SYS_ERR in
  if negb (isEnabledFor Xlog4level x) then x else emit (DropLogged m) x.

(** *** Statistics *)
Definition UpdateTxMsgFailStats (name : string) (reason : Tx.type) (x : t) : option t :=
  s ← SandeshMessageStatistics.UpdateSendFailed name 0 reason (msg_stats_ x); Some (set_msg_stats s x).
Definition UpdateRxMsgFailStats (name : string) (reason : Rx.type) (x : t) : option t :=
  s ← SandeshMessageStatistics.UpdateRecvFailed name 0 reason (msg_stats_ x); Some (set_msg_stats s x).

(** *** Handing a message over *)
Definition SendingLevel (x : t) : Z := default INVALID (c ← client_ x; fc_SendingLevel c).
Definition Release (m : sandesh) (x : t) : t := emit (Released m) x.
Definition to_client (m : sandesh) : ClientSM.Snh := ClientSM.MkSnh (name_ m) (is_uve m).

Definition SendEnqueue (m : sandesh) (x : t) : option (bool * t) :=
  match client_ x with
  | None =>
      let x := if IsLoggingDroppedAllowed (type_ m) x then if connect_to_collector_ x then x else Log m x else x in
      x ← UpdateTxMsgFailStats (name_ m) Tx.NoClient x;
      Some (false, Release m x)
  | Some c =>
      let '(sent, c) := fc_SendSandesh (to_client m) c in
      let x := set_client (Some c) x in
      if negb sent then
        x ← UpdateTxMsgFailStats (name_ m) Tx.ClientSendFailed x;
        Some (false, Release m x)
      else Some (true, x)
  end.

(** [context().find("http%") == 0] or the same of https. *)
Definition http_context (context : string) : bool :=
  starts_with context "http%" || starts_with context "https%".

(** [Dispatch] of the four classes, without a connection. *)
Definition Dispatch (m : sandesh) (x : t) : option (bool * t) := SendEnqueue m x.
Definition SandeshResponse_Dispatch (m : sandesh) (x : t) : option (bool * t) :=
  if http_context (context_ m) then Some (true, emit (HttpResponse m) x)
  else
    let x := if response_callback_ x then emit (CalledBack m) x else x in
    Dispatch m x.
Definition SandeshTrace_Dispatch (m : sandesh) (x : t) : option (bool * t) :=
  if http_context (context_ m) then Some (true, emit (HttpResponse m) x) else Dispatch m x.
Definition SandeshUVE_Dispatch (m : sandesh) (x : t) : option (bool * t) :=
  if http_context (context_ m) then Some (true, emit (HttpResponse m) x)
  else match client_ x with
  | Some c =>
      if IsSendingAllMessagesDisabled x then
        x ← UpdateTxMsgFailStats (name_ m) Tx.SendingDisabled (Log m x);
        Some (false, Release m x)
      else
        c ← if SendingLevel x <=? SYS_UVE then '(_, c) ← fc_CloseSMSession c; Some c else Some c;
        let '(sent, c) := fc_SendSandeshUVE (to_client m) c in
        let x := set_client (Some c) x in
        if negb sent then
          x ← UpdateTxMsgFailStats (name_ m) Tx.ClientSendFailed x;
          Some (false, Release m x)
        else Some (true, x)
  | None =>
      let x := if connect_to_collector_ x then x else Log m x in
      x ← UpdateTxMsgFailStats (name_ m) Tx.NoClient x;
      Some (false, Release m x)
  end.

(** *** The generated [Send]

    [obj]: for an object the caller made with [Create]; [rate]: with a limit of the rate;
    [sys]: of a system log.  The level and the category of [m] are those of the call;
    [time] is [time(0)]. *)
Definition release_if (obj : bool) (m : sandesh) (x : t) : t := if obj then Release m x else x.
Definition Send_async (obj rate sys : bool) (m : sandesh) (time : Z) (r : RateLimit.t) (x : t)
    : option (RateLimit.t * t) :=
  if HandleTest (level_ m) x then Some (r, release_if obj m (Log m x))
  else if IsSendingAllMessagesDisabled x ||
          (if sys then IsSendingSystemLogsDisabled x else IsSendingObjectLogsDisabled x) then
    x ← UpdateTxMsgFailStats (name_ m) Tx.SendingDisabled x;
    Some (r, release_if obj m (Log m x))
  else
    let '(pass, r) :=
      if rate then RateLimit.IsRatelimitPass (sandesh_send_ratelimit_ (sending x)) time r else (true, r) in
    if negb pass then
      x ← UpdateTxMsgFailStats (name_ m) Tx.RatelimitDrop x;
      if RateLimit.do_rate_limit_drop_log_ r then
        Some (RateLimit.Mk (RateLimit.rate_limit_buffer_ r) false, release_if obj m (DropLog m x))
      else Some (r, x)
    else if SendingLevel x <=? level_ m then
      x ← UpdateTxMsgFailStats (name_ m) Tx.QueueLevel x;
      Some (r, release_if obj m (DropLog m x))
    else
      let x := if obj then x else emit (Created m) x in
      '(_, x) ← Dispatch m x;
      Some (r, x).

Definition Send_systemlog : sandesh -> Z -> RateLimit.t -> t -> option (RateLimit.t * t) :=
  Send_async false true true.
Definition Send_objectlog : sandesh -> Z -> RateLimit.t -> t -> option (RateLimit.t * t) :=
  Send_async false false false.
Definition Send_objectlog_object : sandesh -> Z -> RateLimit.t -> t -> option (RateLimit.t * t) :=
  Send_async true false false.

(** Of a flow or a session; [use_syslog] is [LoggingUseSyslog()] of base/logging.h. *)
Definition Send_flow (use_syslog : bool) (m : sandesh) (x : t) : option t :=
  if HandleTest (level_ m) x then Some x
  else if IsFlowLoggingEnabled x && use_syslog then
    x ← UpdateTxMsgFailStats (name_ m) Tx.SendingToSyslog x;
    Some (if bool_decide (type_ m = SESSION) then emit (Unrolled m) x else Log m x)
  else if IsSendingAllMessagesDisabled x || IsSendingFlowsDisabled x then
    x ← UpdateTxMsgFailStats (name_ m) Tx.SendingDisabled x;
    Some (if IsLoggingDroppedAllowed FLOW x then Log m x else x)
  else if SendingLevel x <=? level_ m then
    x ← UpdateTxMsgFailStats (name_ m) Tx.QueueLevel x;
    Some (if IsLoggingDroppedAllowed FLOW x then DropLog m x else x)
  else
    '(_, x) ← Dispatch m (emit (Created m) x);
    Some x.

(** *** Requests *)
Section Requests.
Variable req_name : Req -> string.
Variable HandleRequest : Req -> t -> option t.

(** [SandeshRequest::Enqueue(recv_queue())], which is the callback of the HTTP server. *)
Definition Request_Enqueue (q : Req) (x : t) : option (bool * t) :=
  match recv_queue_ x with
  | None =>
      x ← UpdateRxMsgFailStats (req_name q) Rx.NoQueue x;
      Some (false, emit (RequestReleased (req_name q)) x)
  | Some l => Some (true, set_recv_queue (Some (l ++ [q])) x)
  end.
(** [ProcessRecv] of the next request, in the task of the queue. *)
Definition ProcessRecv (x : t) : option t :=
  match recv_queue_ x with
  | Some (q :: l) =>
      x ← HandleRequest q (set_recv_queue (Some l) x);
      Some (emit (RequestReleased (req_name q)) x)
  | _ => Some x
  end.

(** *** Bring-up *)

(** [SandeshConfig], the part that is used here. *)
Record SandeshConfig := MkConfig { disable_object_logs : bool; system_logs_rate_limit : Z }.

(** [task_id]: what the scheduler numbers the task with. *)
Definition InitReceive (task_id : Z) (x : t) : option t :=
  if negb (recv_task_id_ x =? -1) then None
  else Some (set_recv_queue (Some []) (set_recv_task_id task_id x)).

(** [http]: the result of [SandeshHttp::Init] and the port it reports. *)
Definition Initialize (role : SandeshRole) (module source node_type instance_id : string) (client_context : Z)
    (config : SandeshConfig) (task_id : Z) (http : bool * Z) (x : t) : option (bool * t) :=
  if negb (bool_decide (role_ (identity x) = Invalid)) || bool_decide (role = Invalid) then Some (true, x)
  else
    let x := set_identity (MkIdentity role module source node_type instance_id (http_port_ (identity x))
                             client_context) x in
    let x := set_send_rate_limit (i32 (system_logs_rate_limit config)) x in
    let x := DisableSendingObjectLogs (disable_object_logs config) x in
    x ← InitReceive task_id x;
    let x := set_identity (set_http_port http.2 (identity x)) x in
    Some (http.1, x).

Definition new_client (eps : list ClientSM.Endpoint) (periodicuve : bool) (x : t) : t :=
  emit ClientCreated (set_client (Some (fc_new eps periodicuve)) x).
(** [InitClient] with one server, which asserts that there is no client. *)
Definition InitClient_server (server : ClientSM.Endpoint) (periodicuve : bool) (x : t) : option t :=
  let x := set_connect_to_collector true x in
  match client_ x with Some _ => None | None => Some (new_client [server] periodicuve x) end.
(** [from_string]: [address::from_string]. *)
Definition ConnectToCollector (from_string : string -> option Z) (collector_ip : string) (collector_port : Z)
    (periodicuve : bool) (x : t) : option (bool * t) :=
  match from_string collector_ip with
  | None => Some (false, x)
  | Some a =>
      x ← InitClient_server (ClientSM.MkEndpoint a (u16 collector_port)) periodicuve x;
      Some (true, x)
  end.

(** A function on endpoints: [None] where it is undefined. *)
Variable MakeEndpoint : string -> option (option ClientSM.Endpoint).
Fixpoint endpoints (l : list string) : option (option (list ClientSM.Endpoint)) :=
  match l with
  | [] => Some (Some [])
  | c :: l =>
      ep ← MakeEndpoint c;
      match ep with
      | None => Some None
      | Some ep => eps ← endpoints l; Some (option_map (cons ep) eps)
      end
  end.
Definition InitClient (collectors : list string) (x : t) : option (bool * t) :=
  let x := set_connect_to_collector true x in
  eps ← endpoints collectors;
  match eps with
  | None => Some (false, x)
  | Some eps => Some (true, new_client eps true x)
  end.

(** [ds_ok]: the result of [SandeshUVETypeMaps::InitDerivedStats]. *)
Definition InitGenerator (ds_ok : bool) (module source node_type instance_id : string) (client_context : Z)
    (config : SandeshConfig) (task_id : Z) (http : bool * Z) (x : t) : option (bool * t) :=
  if negb ds_ok then None
  else Initialize Generator module source node_type instance_id client_context config task_id http x.
Definition InitGenerator_collectors (ds_ok : bool) (module source node_type instance_id : string)
    (collectors : list string) (client_context : Z) (config : SandeshConfig) (task_id : Z) (http : bool * Z) (x : t)
    : option (bool * t) :=
  if negb ds_ok then None
  else
    '(success, x) ← Initialize Generator module source node_type instance_id client_context config task_id http x;
    if negb success then Some (false, x) else InitClient collectors x.
Definition InitCollector (from_string : string -> option Z) (module source node_type instance_id : string)
    (collector_ip : string) (collector_port : Z) (client_context : Z) (config : SandeshConfig) (task_id : Z)
    (http : bool * Z) (x : t) : option (bool * t) :=
  '(success, x) ← Initialize Collector module source node_type instance_id client_context config task_id http x;
  if negb success then Some (false, x) else ConnectToCollector from_string collector_ip collector_port true x.
Definition InitGeneratorTest (module source node_type instance_id : string) (client_context : Z)
    (config : SandeshConfig) (task_id : Z) (http : bool * Z) (x : t) : option (bool * t) :=
  Initialize Test module source node_type instance_id client_context config task_id http x.

Definition ReConfigCollectors (collector_list : list string) (x : t) : t :=
  on_client (fc_ReConfigCollectors collector_list) x.
Definition SetDscpValue (value : Z) (x : t) : t := on_client (fc_SetDscpValue value) x.

(** The waits for tasks and sessions to end are left out; the queue that is shut down
    releases its requests, the server manager deletes the client. *)
Definition Uninit (x : t) : option t :=
  let x := emit HttpUninit x in
  let x := set_identity (set_role Invalid (identity x)) x in
  x ← match recv_queue_ x with
      | Some l =>
          let x := fold_left (fun x q => emit (RequestReleased (req_name q)) x) l x in
          let x := set_recv_queue None x in
          if recv_task_id_ x =? -1 then None else Some (set_recv_task_id (-1) x)
      | None => if recv_task_id_ x =? -1 then Some x else None
      end;
  Some match client_ x with
       | Some _ => set_client None (emit ClientDeleted x)
       | None => x
       end.
End Requests.

(** *** The requests of sandesh_req.cc

    An optional field that is not set is [None]. *)
Definition respond (name : string) (c : content) (context : string) (x : t) : option t :=
  let m := MkSandesh RESPONSE false name INVALID EmptyString context c in
  '(_, x) ← SandeshResponse_Dispatch m (emit (Created m) x);
  Some x.
Definition if_set {A} (o : option A) (f : A -> t -> t) (x : t) : t := match o with Some a => f a x | None => x end.

Definition SandeshMessageStatsReq_HandleRequest (context : string) (x : t) : option t :=
  let '(mtype_stats, magg_stats) := SandeshMessageStatistics.GetDetailList (msg_stats_ x) in
  let sending_level := c ← client_ x; level ← fc_SendingLevel c; Some (LevelToString level) in
  respond "SandeshMessageStatsResp" (SandeshMessageStatsResp mtype_stats magg_stats sending_level) context x.

Definition SendSandeshLoggingParams (context : string) (x : t) : option t :=
  let l := logging x in
  let category := if bool_decide (logging_category_ l = EmptyString) then "*"%string else logging_category_ l in
  respond "SandeshLoggingParams"
    (SandeshLoggingParams (enable_local_log_ l) category (LevelToString (logging_level_ l)) (enable_trace_print_ l)
       (enable_flow_log_ l)) context x.
Definition SandeshLoggingParamsSet_HandleRequest (log_level category : option string)
    (enable trace_print enable_flow_log : option bool) (context : string) (x : t) : option t :=
  let x := if_set log_level SetLoggingLevel_string x in
  let x := if_set category (fun c => SetLoggingCategory (if bool_decide (c = "*"%string) then EmptyString else c)) x in
  let x := if_set enable SetLocalLogging x in
  let x := if_set trace_print SetTracePrint x in
  let x := if_set enable_flow_log SetFlowLogging x in
  SendSandeshLoggingParams context x.
Definition SandeshLoggingParamsStatus_HandleRequest : string -> t -> option t := SendSandeshLoggingParams.

Definition SendSandeshSendingParams (context : string) (x : t) : option t :=
  respond "SandeshSendingParams"
    (SandeshSendingParams (sandesh_send_ratelimit_ (sending x)) (IsSendingObjectLogsDisabled x)
       (IsSendingAllMessagesDisabled x) (IsSendingFlowsDisabled x) (c ← client_ x; fc_GetDscpValue c)) context x.
Definition SandeshSendingParamsSet_HandleRequest (system_logs_rate_limit : option Z)
    (disable_object_logs disable_all_logs disable_flows : option bool) (context : string) (x : t) : option t :=
  let x := if_set system_logs_rate_limit (fun n => set_send_rate_limit (i32 n)) x in
  let x := if_set disable_object_logs DisableSendingObjectLogs x in
  let x := if_set disable_all_logs DisableSendingAllMessages x in
  let x := if_set disable_flows DisableSendingFlows x in
  SendSandeshSendingParams context x.
Definition SandeshSendingParamsStatus_HandleRequest : string -> t -> option t := SendSandeshSendingParams.

Definition SendSandeshSendQueueResponse (context : string) (x : t) : option t :=
  respond "SandeshSendQueueResponse" (SandeshSendQueueResponse (send_queue_enabled_ (sending x))) context x.
Definition SandeshSendQueueSet_HandleRequest (enable : option bool) (context : string) (x : t) : option t :=
  SendSandeshSendQueueResponse context (if_set enable SetSendQueue x).
Definition SandeshSendQueueStatus_HandleRequest : string -> t -> option t := SendSandeshSendQueueResponse.

Definition CollectorInfoRequest_HandleRequest (context : string) (x : t) : option t :=
  respond "CollectorInfoResponse" (CollectorInfoResponse (fc_server <$> client_ x)) context x.

Definition SendSandeshSendQueueParamsResponse (context : string) (x : t) : option t :=
  let ssp_info := match client_ x with
                  | Some c => map (fun '(count, level, high) => (count, LevelToString level, high))
                                (fc_GetSessionWaterMarkInfo c)
                  | None => []
                  end in
  respond "SandeshSendQueueParamsResponse" (SandeshSendQueueParamsResponse ssp_info) context x.
Definition SandeshSendQueueParamsSet_HandleRequest (queue_count : option Z) (sending_level : option string)
    (high : option bool) (context : string) (x : t) : option t :=
  match queue_count, sending_level, high with
  | Some qcount, Some slevel, Some high =>
      SendSandeshSendQueueParamsResponse context
        (on_client (fc_SetSessionWaterMarkInfo (qcount, StringToLevel slevel, high)) x)
  | _, _, _ => SendSandeshSendQueueParamsResponse context x
  end.
Definition SandeshSendQueueParamsReset_HandleRequest (context : string) (x : t) : option t :=
  SendSandeshSendQueueParamsResponse context (on_client fc_ResetSessionWaterMarkInfo x).
Definition SandeshSendQueueParamsStatus_HandleRequest : string -> t -> option t := SendSandeshSendQueueParamsResponse.

End Facility.
End Sandesh.
Arguments Sandesh.t : clear implicits.

(** ** Addresses of collectors: library/cpp/sandesh_util.cc

    [tokens] is the tokenizer of boost for one separator: empty tokens are dropped.
    Asking an iterator at its end for a token, and using the port that
    [stringToInteger] did not set, are undefined. *)
Module SandeshUtil.
Fixpoint tokens_from (s cur : list byte) : list (list byte) :=
  match s with
  | [] => match cur with [] => [] | _ => [cur] end
  | c :: s =>
      if bool_decide (c = x3a) then match cur with [] => tokens_from s [] | _ => cur :: tokens_from s [] end
      else tokens_from s (cur ++ [c])
  end.
Definition tokens (s : list byte) : list (list byte) := tokens_from s [].

Section MakeEndpoint.
Variable from_string : list byte -> option Z.
Variable stringToInteger : list byte -> option Z.
Definition MakeEndpoint (epstr : list byte) : option (option ClientSM.Endpoint) :=
  match tokens epstr with
  | sip :: sport :: _ =>
      match from_string sip with
      | None => Some None
      | Some addr => port ← stringToInteger sport; Some (Some (ClientSM.MkEndpoint addr (u16 port)))
      end
  | _ => None
  end.
End MakeEndpoint.
End SandeshUtil.
