(* ===== verification/Trace.v ===== *)
(** * Trace buffers

    library/cpp/sandesh_trace.h and .cc: reading a trace buffer for a web page or for the
    collector, and the requests about trace buffers.  The buffers themselves are base/trace.h,
    which is a parameter ([TraceLib]).

    [None] is a failed assertion. *)

From S2P Require Import Prelude Facility.
Import Sandesh(http_context).
Local Open Scope string_scope.
Local Open Scope list_scope.
Local Open Scope Z_scope.

(** ** base/trace.h

    [TraceState] is the state behind [Trace<SandeshTrace>::GetInstance()], a [TraceBufferPtr]
    points into it.  [TraceRead buf context count] returns the calls of the callback in
    their order: a trace, and whether there are more. *)
Class TraceLib := {
  TraceState : Type;
  TraceBufferPtr : Type;
  SandeshTrace : Type;
  ToString : SandeshTrace -> string;
  TraceOn : TraceState -> TraceState;
  TraceOff : TraceState -> TraceState;
  IsTraceOn : TraceState -> bool;
  TraceBufAdd : string -> Z -> bool -> TraceState -> TraceBufferPtr * TraceState;
  TraceBufGet : string -> TraceState -> option TraceBufferPtr;
  TraceBufListGet : TraceState -> list string;
  BufTraceOn : TraceBufferPtr -> TraceState -> TraceState;
  BufTraceOff : TraceBufferPtr -> TraceState -> TraceState;
  BufIsTraceOn : TraceBufferPtr -> TraceState -> bool;
  TraceBufSizeGet : TraceBufferPtr -> TraceState -> Z;
  TraceRead : TraceBufferPtr -> string -> Z -> TraceState -> list (SandeshTrace * bool) * TraceState;
  TraceReadDone : TraceBufferPtr -> string -> TraceState -> TraceState;
}.

Module Traces.
Section Operations.
Context `{!TraceLib}.

(** The responses, with their contexts. *)
Inductive response :=
  | SandeshTraceTextResponse (context : string) (traces : list string)
  | SandeshTraceBufferListResponse (context : string) (trace_buffer_list : list string)
  | SandeshTraceEnableDisableRes (context : string) (status : string)
  | SandeshTraceBufStatusRes (context : string) (trace_buf_status_list : list (string * string))
  | SandeshTraceBufferEnableDisableRes (context : string) (status : string).

(** What leaves the functions: responses, and traces sent with their context and [more]. *)
Inductive effect := Response (r : response) | SendTrace (tsnh : SandeshTrace) (tcontext : string) (more : bool).

(** [leaked] counts the responses that were made and neither sent nor deleted. *)
Record t := Mk { traces : TraceState; fx : list effect; leaked : Z }.
Definition set_traces (s : TraceState) (x : t) : t := Mk s (fx x) (leaked x).
Definition emit (e : effect) (x : t) : t := Mk (traces x) (fx x ++ [e]) (leaked x).
Definition leak (x : t) : t := Mk (traces x) (fx x) (leaked x + 1).

(** ** The inline functions *)
Definition SandeshTraceEnable (x : t) : t := set_traces (TraceOn (traces x)) x.
Definition SandeshTraceDisable (x : t) : t := set_traces (TraceOff (traces x)) x.
Definition IsSandeshTraceEnabled (x : t) : bool := IsTraceOn (traces x).
Definition SandeshTraceBufferCreate (buf_name : string) (buf_size : Z) (trace_enable : bool) (x : t) : TraceBufferPtr * t :=
  let '(p, s) := TraceBufAdd buf_name buf_size trace_enable (traces x) in (p, set_traces s x).
Definition SandeshTraceBufferGet (buf_name : string) (x : t) : option TraceBufferPtr := TraceBufGet buf_name (traces x).
Definition SandeshTraceBufferEnable (p : TraceBufferPtr) (x : t) : t := set_traces (BufTraceOn p (traces x)) x.
Definition SandeshTraceBufferDisable (p : TraceBufferPtr) (x : t) : t := set_traces (BufTraceOff p (traces x)) x.
Definition IsSandeshTraceBufferEnabled (p : TraceBufferPtr) (x : t) : bool := BufIsTraceOn p (traces x).
Definition SandeshTraceBufferSizeGet (p : TraceBufferPtr) (x : t) : Z := TraceBufSizeGet p (traces x).
(** The [uint32_t] of the caller becomes an [int]. *)
Definition SandeshTraceBufferRead (p : TraceBufferPtr) (read_context : string) (count : Z) (x : t)
    : list (SandeshTrace * bool) * t :=
  let '(l, s) := TraceRead p read_context (i32 count) (traces x) in (l, set_traces s x).
Definition SandeshTraceBufferReadDone (p : TraceBufferPtr) (read_context : string) (x : t) : t :=
  set_traces (TraceReadDone p read_context (traces x)) x.
Definition SandeshTraceBufferListGet (x : t) : list string := TraceBufListGet (traces x).

(** ** [SandeshTraceRequestRunner] *)
Record runner := MkRunner {
  req_buf_ : TraceBufferPtr; req_context_ : string; read_context_ : string; sttr_ : list string;
  req_count_ : Z; read_count_ : Z }.

Definition new_runner (trace_buf : TraceBufferPtr) (req_context read_context : string) (count : Z) (x : t) : runner :=
  MkRunner trace_buf req_context read_context []
    (if count =? 0 then u32 (SandeshTraceBufferSizeGet trace_buf x) else count) 0.

Definition to_collector (r : runner) : bool := bool_decide (read_context_ r = "Collector").

Definition SandeshTraceRead (tsnh : SandeshTrace) (more : bool) (r : runner) (x : t) : runner * t :=
  let r := MkRunner (req_buf_ r) (req_context_ r) (read_context_ r) (sttr_ r) (req_count_ r) (u32 (read_count_ r + 1)) in
  if negb (to_collector r) then
    (MkRunner (req_buf_ r) (req_context_ r) (read_context_ r) (sttr_ r ++ [ToString tsnh]) (req_count_ r) (read_count_ r), x)
  else (r, emit (SendTrace tsnh (req_context_ r) (negb (negb more || (read_count_ r =? req_count_ r)))) x).

Fixpoint callbacks (l : list (SandeshTrace * bool)) (r : runner) (x : t) : runner * t :=
  match l with
  | [] => (r, x)
  | (tsnh, more) :: l => let '(r, x) := SandeshTraceRead tsnh more r x in callbacks l r x
  end.

(** The runner is destroyed afterwards, its response is not. *)
Definition Run (r : runner) (x : t) : t :=
  let '(l, x) := SandeshTraceBufferRead (req_buf_ r) (read_context_ r) (req_count_ r) x in
  let '(r, x) := callbacks l r x in
  if negb (to_collector r) then
    let x := emit (Response (SandeshTraceTextResponse (req_context_ r) (sttr_ r))) x in
    SandeshTraceBufferReadDone (req_buf_ r) (read_context_ r) x
  else leak x.

(** ** The requests *)
Definition SandeshTraceRequest_HandleRequest (context buf_name : string) (count : Z) (x : t) : t :=
  let read_context := if http_context context then "Http" else "Collector" in
  match SandeshTraceBufferGet buf_name x with
  | None =>
      if negb (bool_decide (read_context = "Collector")) then emit (Response (SandeshTraceTextResponse context [])) x else x
  | Some trace_buf => Run (new_runner trace_buf context read_context count x) x
  end.

Definition SandeshTraceSend (buf_name : string) (trace_count : Z) (x : t) : t :=
  match SandeshTraceBufferGet buf_name x with
  | None => x
  | Some trace_buf => Run (new_runner trace_buf EmptyString "Collector" trace_count x) x
  end.

Definition SandeshTraceBufferListRequest_HandleRequest (context : string) (x : t) : t :=
  emit (Response (SandeshTraceBufferListResponse context (SandeshTraceBufferListGet x))) x.

(** [enable] is the member if it is set. *)
Definition SandeshTraceEnableDisableReq_HandleRequest (context : string) (enable : option bool) (x : t) : t :=
  let on := match enable with Some b => b | None => negb (IsSandeshTraceEnabled x) end in
  let '(status, x) := if on : bool then ("Sandesh Trace Enabled", SandeshTraceEnable x)
                      else ("Sandesh Trace Disabled", SandeshTraceDisable x) in
  emit (Response (SandeshTraceEnableDisableRes context status)) x.

Fixpoint buf_status (names : list string) (x : t) : option (list (string * string)) :=
  match names with
  | [] => Some []
  | n :: names =>
      tbp ← SandeshTraceBufferGet n x;
      rest ← buf_status names x;
      Some ((n, if IsSandeshTraceBufferEnabled tbp x then "Enabled" else "Disabled") :: rest)
  end.
Definition SandeshTraceBufStatusReq_HandleRequest (context : string) (x : t) : option t :=
  l ← buf_status (SandeshTraceBufferListGet x) x;
  Some (emit (Response (SandeshTraceBufStatusRes context l)) x).

Definition SandeshTraceBufferEnableDisableReq_HandleRequest (context trace_buf_name : string) (enable : option bool) (x : t) : t :=
  let '(status, x) :=
    match SandeshTraceBufferGet trace_buf_name x with
    | Some trace_buf =>
        let on := match enable with Some b => b | None => negb (IsSandeshTraceBufferEnabled trace_buf x) end in
        if on : bool then ("Trace buffer Enabled", SandeshTraceBufferEnable trace_buf x)
        else ("Trace buffer Disabled", SandeshTraceBufferDisable trace_buf x)
    | None => ("Invalid Trace buffer", x)
    end in
  emit (Response (SandeshTraceBufferEnableDisableRes context status)) x.

(** ** What a reader of a buffer sees *)

(** Each trace announces another one, the last does not. *)
Fixpoint stream (context : string) (l : list SandeshTrace) : list effect :=
  match l with
  | [] => []
  | [tsnh] => [SendTrace tsnh context false]
  | tsnh :: l => SendTrace tsnh context true :: stream context l
  end.

(** The calls of one read: at most [count], and only the last one says that there is no more. *)
Fixpoint read_ok (count : Z) (l : list (SandeshTrace * bool)) : Prop :=
  match l with
  | [] => True
  | [(_, more)] => 1 <= count /\ (more = true -> count = 1)
  | (_, more) :: l => more = true /\ read_ok (count - 1) l
  end.

Lemma read_ok_length l : forall count, read_ok count l -> l = [] \/ zlen l <= count.
Proof.
  induction l as [|[tr more] l IH]; intros count Hl; [by left|right]. destruct l as [|[tr2 m2] l]; [by destruct Hl|].
  destruct Hl as [_ Hl]. destruct (IH (count - 1) Hl) as [?|?]; [done|]. cbn [length] in *. lia.
Qed.

Lemma callbacks_collector l : forall r x, to_collector r = true -> 0 <= read_count_ r -> req_count_ r < 2 ^ 32 ->
  read_ok (req_count_ r - read_count_ r) l ->
  exists r', callbacks l r x = (r', Mk (traces x) (fx x ++ stream (req_context_ r) (map fst l)) (leaked x)) /\ to_collector r' = true.
Proof.
  induction l as [|[tr more] l IH]; intros r x Hc H0 Hq Hl.
  { exists r. cbn. rewrite app_nil_r. by destruct x. }
  pose proof (read_ok_length _ _ Hl) as [?|Hlen]; [done|]. cbn [length] in Hlen.
  cbn [callbacks]. unfold SandeshTraceRead. cbv zeta. cbn [read_count_ req_count_ req_context_ read_context_].
  rewrite (wrapU_small 32) by lia.
  change (to_collector (MkRunner _ _ ?c _ _ _)) with (bool_decide (c = "Collector")). fold (to_collector r). rewrite Hc. cbn [negb].
  destruct l as [|[tr2 m2] l].
  - destruct Hl as [H1 Hm]. exists (MkRunner (req_buf_ r) (req_context_ r) (read_context_ r) (sttr_ r) (req_count_ r) (read_count_ r + 1)). split; [|exact Hc]. replace (negb (negb more || (read_count_ r + 1 =? req_count_ r))) with false; [reflexivity|].
    destruct more; [|done]. specialize (Hm eq_refl). by rewrite (proj2 (Z.eqb_eq _ _)) by lia.
  - destruct Hl as [-> Hl]. destruct (IH (MkRunner (req_buf_ r) (req_context_ r) (read_context_ r) (sttr_ r) (req_count_ r) (read_count_ r + 1))
        (emit (SendTrace tr (req_context_ r) true) x)) as (r'&E&Hr'); [done|cbn; lia|done|cbn; by replace (req_count_ r - (read_count_ r + 1)) with (req_count_ r - read_count_ r - 1) by lia|].
    exists r'. split; [|done]. pose proof (read_ok_length _ _ Hl) as [?|Hlen2]; [done|]. cbn [length] in Hlen2.
    destruct (Z.eqb_spec (read_count_ r + 1) (req_count_ r)); [lia|]. cbn [negb orb]. rewrite E. cbn. by rewrite <- app_assoc.
Qed.

Lemma callbacks_page l : forall r x, to_collector r = false ->
  exists n, callbacks l r x = (MkRunner (req_buf_ r) (req_context_ r) (read_context_ r) (sttr_ r ++ map (fun c => ToString c.1) l) (req_count_ r) n, x).
Proof.
  induction l as [|[tr more] l IH]; intros r x Hc.
  { exists (read_count_ r). cbn. rewrite app_nil_r. by destruct r. }
  cbn [callbacks]. unfold SandeshTraceRead. cbv zeta.
  change (to_collector (MkRunner _ _ (read_context_ ?r) _ _ _)) with (to_collector r). rewrite Hc. cbn [negb].
  destruct (IH (MkRunner (req_buf_ r) (req_context_ r) (read_context_ r) (sttr_ r ++ [ToString tr]) (req_count_ r) (u32 (read_count_ r + 1))) x Hc) as (n&E).
  exists n. etransitivity; [exact E|]. cbn. by rewrite <- app_assoc.
Qed.

(** A read of a trace buffer.  A request of a web page is answered by one response with the
    texts of the traces in their order, and its place in the buffer is reset; for the collector
    each trace is sent, all but the last announcing another one, also when the number asked for ends
    the read.  Without a number the size of the buffer is asked for.  For the collector a
    response is made that nobody gets and nobody deletes. *)
Theorem trace_read_answered (context buf_name : string) (count : Z) (x : t) (p : TraceBufferPtr) l s :
  0 <= count < 2 ^ 32 -> SandeshTraceBufferGet buf_name x = Some p ->
  let n := if count =? 0 then u32 (TraceBufSizeGet p (traces x)) else count in
  let read_context := if http_context context then "Http" else "Collector" in
  TraceRead p read_context (i32 n) (traces x) = (l, s) -> read_ok n l ->
  SandeshTraceRequest_HandleRequest context buf_name count x =
    if http_context context
    then Mk (TraceReadDone p "Http" s)
            (fx x ++ [Response (SandeshTraceTextResponse context (map (fun c => ToString c.1) l))]) (leaked x)
    else Mk s (fx x ++ stream context (map fst l)) (leaked x + 1).
Proof.
  intros Hcount Hp n rc Hread Hok. unfold SandeshTraceRequest_HandleRequest. rewrite Hp. unfold Run, SandeshTraceBufferRead, new_runner.
  cbn [req_buf_ read_context_ req_count_]. unfold SandeshTraceBufferSizeGet. fold n. fold rc. rewrite Hread.
  assert (0 <= n < 2 ^ 32) as Hn by (unfold n; destruct (count =? 0); [by apply wrapU_range|done]).
  destruct (http_context context) eqn:Eh.
  - destruct (callbacks_page l (MkRunner p context rc [] n 0) (set_traces s x)) as (k&E); [done|]. rewrite E. done.
  - destruct (callbacks_collector l (MkRunner p context rc [] n 0) (set_traces s x)) as (r'&E&Hr); [done|cbn; lia|cbn; lia|cbn; by rewrite Z.sub_0_r|].
    rewrite E. rewrite Hr. done.
Qed.
End Operations.
End Traces.
