(* ===== verification/FacilityClaims.v ===== *)
(** * What the facility guarantees

    Which lines are logged, how the rate of a system log is limited, what becomes of a
    message that is sent, and the life of the facility from [Init] to [Uninit]. *)

From stdpp Require Import sorting.
From S2P Require Import Prelude Transport Statistics Protocol Message ClientSM Facility.
Local Open Scope Z_scope.

(** ** Levels *)
Module Levels.
Import SandeshLevel.

(** The name of a level that is in the table is read back as this level, also with text
    behind it.  The synonyms UT_EMERG and UT_END are not in the table: read from a
    string, they are INVALID, the level that logs everything. *)
Theorem level_string_roundtrip k n rest :
  (k, n) ∈ VALUES_TO_NAMES -> StringToLevel (Strings.String.append n rest) = k /\ LevelToString k = n.
Proof.
  intros Hin. let v := eval vm_compute in VALUES_TO_NAMES in change VALUES_TO_NAMES with v in Hin.
  repeat (apply elem_of_cons in Hin as [Hin|Hin]; [injection Hin as -> ->; split; vm_compute; reflexivity|]).
  by apply elem_of_nil in Hin.
Qed.

Lemma level_synonyms : StringToLevel "UT_EMERG" = INVALID /\ StringToLevel "UT_END" = INVALID /\
  LevelToString 200 = "UT_START"%string /\ LevelToString 207 = "UT_DEBUG"%string.
Proof. vm_compute. done. Qed.

End Levels.

(** ** The limit of a rate *)
Module RateLimitSpec.
Import RateLimit.

Definition count_of (s : Z) (l : list Z) : Z := zlen (filter (fun t => t = s) l).

(** The reference: a call passes if fewer than [limit] calls of its second have. *)
Fixpoint allow (limit : Z) (passed ts : list Z) : list bool :=
  match ts with
  | [] => []
  | t :: ts =>
      let ok := count_of t passed <? limit in
      ok :: allow limit (if ok then passed ++ [t] else passed) ts
  end.

Fixpoint calls (limit : Z) (ts : list Z) (r : RateLimit.t) : list bool * RateLimit.t :=
  match ts with
  | [] => ([], r)
  | t :: ts =>
      let '(ok, r) := IsRatelimitPass limit t r in
      let '(oks, r) := calls limit ts r in
      (ok :: oks, r)
  end.

(** The last [n] elements. *)
Definition last_n (n : Z) (l : list Z) : list Z := drop (Z.to_nat (zlen l - n)) l.

Lemma length_last_n n l : 0 <= n -> zlen (last_n n l) = Z.min n (zlen l).
Proof. intros. unfold last_n. rewrite length_drop. lia. Qed.

Lemma last_n_push n l v : 0 < n ->
  last_n n (l ++ [v]) = if zlen (last_n n l) =? n then drop 1 (last_n n l) ++ [v] else last_n n l ++ [v].
Proof.
  intros Hn. rewrite length_last_n by lia. unfold last_n. rewrite length_app. cbn [length].
  destruct (Z.eqb_spec (Z.min n (zlen l)) n).
  - rewrite drop_drop. rewrite drop_app_le by lia. f_equal. f_equal. lia.
  - replace (Z.to_nat (Z.of_nat (length l + 1) - n)) with 0%nat by lia.
    by replace (Z.to_nat (zlen l - n)) with 0%nat by lia.
Qed.

(** The buffer holds the last passes, behind older entries. *)
Definition holds (limit : Z) (b : buffer) (old passed : list Z) : Prop :=
  capacity b = limit /\ elems b = last_n limit (old ++ passed).

Lemma count_of_app s l k : count_of s (l ++ k) = count_of s l + count_of s k.
Proof. unfold count_of. rewrite list.filter_app, length_app. lia. Qed.
Lemma count_of_one s t : count_of s [t] = if decide (t = s) then 1 else 0.
Proof. unfold count_of. rewrite list.filter_cons, list.filter_nil. by case_decide. Qed.
Lemma count_of_le s l : 0 <= count_of s l <= zlen l.
Proof. unfold count_of. pose proof (length_filter (fun t => t = s) l). lia. Qed.
Lemma count_of_none s l : Forall (fun t => t < s) l -> count_of s l = 0.
Proof.
  induction 1 as [|t l Ht _ IH]; [done|]. change (t :: l) with ([t] ++ l). rewrite count_of_app, IH, count_of_one.
  case_decide; lia.
Qed.

Lemma count_of_all s l : Forall (fun t => t = s) l -> count_of s l = zlen l.
Proof.
  induction 1 as [|t l Ht _ IH]; [done|]. change (t :: l) with ([t] ++ l).
  rewrite count_of_app, IH, count_of_one, decide_True, length_app by done. cbn [length]. lia.
Qed.

(** In a sorted list below [s], the first of the last [n] is [s] exactly if [n] are. *)
Lemma sorted_last_n n l s :
  0 < n -> StronglySorted Z.le l -> Forall (fun t => t <= s) l -> n <= zlen l ->
  (exists rest, last_n n l = s :: rest) <-> n <= count_of s l.
Proof.
  intros Hn Hs Hl Hlen. rewrite <- (take_drop (Z.to_nat (zlen l - n)) l) in Hs, Hl. fold (last_n n l) in Hs, Hl.
  pose proof (length_last_n n l ltac:(lia)) as Hk.
  assert (count_of s l = count_of s (take (Z.to_nat (zlen l - n)) l) + count_of s (last_n n l)) as ->.
  { unfold last_n. by rewrite <- count_of_app, take_drop. }
  apply Forall_app in Hl as [Hl1 Hl2]. destruct (last_n n l) as [|t rest] eqn:El; [cbn in Hk; lia|].
  apply Forall_cons_iff in Hl2 as [Ht Hr].
  assert (StronglySorted Z.le (t :: rest)) as Hsr by (by eapply StronglySorted_app_1_r in Hs).
  inversion Hsr as [|? ? _ Htr]; subst. split.
  - intros [r [= -> ->]]. assert (count_of s (s :: r) = zlen (s :: r)) as ->; [|pose proof (count_of_le s (take (Z.to_nat (zlen l - n)) l)); lia].
    apply count_of_all, Forall_cons; [done|]. rewrite list.Forall_forall in *. intros u Hu. pose proof (Htr u Hu). pose proof (Hr u Hu). lia.
  - intros Hc. exists rest. f_equal. destruct (decide (t = s)) as [|Hne]; [done|exfalso].
    assert (count_of s (take (Z.to_nat (zlen l - n)) l) = 0) as E0.
    { apply count_of_none. rewrite list.Forall_forall. intros u Hu.
      pose proof (StronglySorted_app_1_elem_of _ _ _ u t Hs Hu ltac:(left)). lia. }
    change (t :: rest) with ([t] ++ rest) in Hc, Hk. rewrite count_of_app, count_of_one in Hc.
    rewrite decide_False in Hc by done. pose proof (count_of_le s rest). cbn in Hk. lia.
Qed.

(** The buffer after the test of its capacity. *)
Definition fitted (limit : Z) (b : buffer) : buffer :=
  if capacity b =? limit then b else set_capacity limit (rresize limit b).
Lemma fitted_holds limit b old :
  0 < limit -> zlen (elems b) <= capacity b -> Forall (fun t => t < old) (elems b) -> 0 < old ->
  exists l, Forall (fun t => t < old) l /\ holds limit (fitted limit b) l [].
Proof.
  intros Hl Hb Hold H0. unfold fitted. destruct (Z.eqb_spec (capacity b) limit) as [E|E].
  - exists (elems b). split; [done|]. split; [done|]. rewrite app_nil_r. unfold last_n.
    by replace (Z.to_nat (zlen (elems b) - limit)) with 0%nat by lia.
  - unfold rresize. destruct (Z.ltb_spec (zlen (elems b)) limit); unfold set_capacity; cbn [elems].
    + exists (replicate (Z.to_nat (limit - zlen (elems b))) 0 ++ elems b). split.
      * apply Forall_app. split; [|done]. by apply Forall_replicate.
      * split; [done|]. rewrite app_nil_r. cbn [elems]. unfold last_n. rewrite length_app, length_replicate.
        rewrite take_ge by (rewrite length_app, length_replicate; lia).
        match goal with |- _ = drop ?n _ => replace n with 0%nat by lia end. done.
    + exists (elems b). split; [done|]. split; [done|]. rewrite app_nil_r. cbn [elems]. unfold last_n.
      apply take_ge. rewrite length_drop. lia.
Qed.

(** One call with a buffer that holds the passes. *)
Lemma pass_holds limit now b dl old passed :
  0 < limit -> holds limit b old passed -> Forall (fun t => t < now) old -> Forall (fun t => t <= now) passed ->
  StronglySorted Z.le passed ->
  exists b' dl', IsRatelimitPass limit now (Mk b dl) = (count_of now passed <? limit, Mk b' dl') /\
    holds limit b' old (if count_of now passed <? limit then passed ++ [now] else passed).
Proof.
  intros Hl [Hc He] Hold Hp Hs. unfold IsRatelimitPass. cbn [rate_limit_buffer_ do_rate_limit_drop_log_].
  rewrite (proj2 (Z.eqb_neq limit 0)) by lia. rewrite Hc, Z.eqb_refl, Hc, He.
  set (full := limit =? zlen (last_n limit (old ++ passed))).
  assert (full && match last_n limit (old ++ passed) with first :: _ => first =? now | [] => false end
          = negb (count_of now passed <? limit)) as ->.
  { apply Bool.eq_iff_eq_true. rewrite andb_true_iff, negb_true_iff. unfold full. rewrite length_last_n by lia.
    rewrite Z.ltb_ge, Z.eqb_eq. pose proof (count_of_le now passed) as Hcp.
    destruct (decide (limit <= zlen passed)) as [Hle|Hgt].
    - assert (last_n limit (old ++ passed) = last_n limit passed) as ->.
      { unfold last_n. rewrite length_app, drop_app. 
        rewrite (drop_ge old) by lia. cbn [app]. f_equal. lia. }
      rewrite <- (sorted_last_n limit passed now) by done. rewrite length_app.
      destruct (last_n limit passed) as [|first rest]; (split; [|intros [r Er]; split; [lia|]]); try done.
      + by intros [_ ?].
      + intros [_ ?%Z.eqb_eq]. subst. by exists rest.
      + injection Er as -> _. apply Z.eqb_refl.
    - split; [|lia]. intros [Ef Hfirst]. exfalso. rewrite length_app in Ef. unfold last_n in Hfirst.
      rewrite length_app, drop_app_le in Hfirst by lia.
      destruct (drop _ old) as [|first rest] eqn:Ed; [apply (f_equal length) in Ed; rewrite length_drop in Ed; cbn in Ed; lia|].
      cbn [app] in Hfirst. apply Z.eqb_eq in Hfirst. subst first.
      eapply Forall_drop in Hold. rewrite Ed in Hold. inversion Hold. lia. }
  destruct (count_of now passed <? limit); cbn [negb].
  - do 2 eexists. split; [done|]. split.
    + unfold push_back. destruct (capacity b =? 0); [done|]. by destruct (capacity b =? zlen (elems b)).
    + unfold push_back. rewrite Hc, (proj2 (Z.eqb_neq limit 0)) by lia. rewrite app_assoc, last_n_push by done.
      rewrite He, (Z.eqb_sym limit). by destruct (zlen (last_n limit (old ++ passed)) =? limit).
  - do 2 eexists. split; [done|]. done.
Qed.

Lemma IsRatelimitPass_fitted limit now r :
  0 < limit -> IsRatelimitPass limit now r =
    IsRatelimitPass limit now (Mk (fitted limit (rate_limit_buffer_ r)) (do_rate_limit_drop_log_ r)).
Proof.
  intros Hl. unfold IsRatelimitPass. cbn [rate_limit_buffer_ do_rate_limit_drop_log_]. unfold fitted.
  rewrite (proj2 (Z.eqb_neq limit 0)) by lia.
  destruct (capacity (rate_limit_buffer_ r) =? limit) eqn:E; [by rewrite E|].
  unfold set_capacity. cbn [capacity]. by rewrite Z.eqb_refl.
Qed.

Lemma calls_allow limit old : 0 < limit -> forall ts b dl passed,
  holds limit b old passed -> StronglySorted Z.le (passed ++ ts) ->
  Forall (fun t => Forall (fun o => o < t) old) ts ->
  (calls limit ts (Mk b dl)).1 = allow limit passed ts.
Proof.
  intros Hl. induction ts as [|t ts IH]; intros b dl passed Hb Hs Hold; [done|]. cbn [calls allow].
  apply Forall_cons_iff in Hold as [Ho Hold]. pose proof (proj1 (StronglySorted_app _ _ _) Hs) as (Hle&Hp&Hts).
  destruct (pass_holds limit t b dl old passed Hl Hb Ho) as (b'&dl'&E&Hb'); [|done|].
  { apply list.Forall_forall. intros u Hu. apply Hle; [done|by left]. }
  rewrite E. destruct (calls limit ts (Mk b' dl')) as [oks r] eqn:Ec. cbn [fst].
  rewrite <- (IH b' dl' _ Hb'); [by rewrite Ec| |done].
  destruct (_ <? _); [by rewrite <- app_assoc|]. apply StronglySorted_app in Hs as (_&_&_).
  apply StronglySorted_app_2; [|done|by inversion Hts]. intros u v Hu Hv. apply Hle; [done|by right].
Qed.

(** How many calls of the second [s] passed. *)
Definition passes (s : Z) (ts : list Z) (oks : list bool) : Z := count_of s (map fst (filter (fun p => p.2 = true) (zip ts oks))).

Lemma allow_count limit s : forall ts passed, 0 <= limit -> count_of s passed <= limit ->
  count_of s passed + passes s ts (allow limit passed ts) = Z.min limit (count_of s passed + count_of s ts).
Proof.
  induction ts as [|t ts IH]; intros passed Hl Hp; cbn [allow zip zip_with].
  - change (passes s [] []) with 0. change (count_of s []) with 0. lia.
  - unfold passes. cbn [zip zip_with]. rewrite list.filter_cons. cbn [snd].
    assert (count_of s (t :: ts) = (if decide (t = s) then 1 else 0) + count_of s ts) as ->.
    { change (t :: ts) with ([t] ++ ts). by rewrite count_of_app, count_of_one. }
    destruct (Z.ltb_spec (count_of t passed) limit) as [Hlt|Hge].
    + rewrite decide_True by done. cbn [map fst].
      assert (forall l, count_of s (t :: l) = (if decide (t = s) then 1 else 0) + count_of s l) as Hc.
      { intros l. change (t :: l) with ([t] ++ l). by rewrite count_of_app, count_of_one. }
      rewrite Hc. pose proof (IH (passed ++ [t]) Hl) as H'. rewrite count_of_app, count_of_one in H'.
      unfold passes in H'. pose proof (count_of_le s ts). destruct (decide (t = s)) as [->|]; lia.
    + rewrite decide_False by done. pose proof (IH passed Hl Hp) as H'. unfold passes in H'.
      pose proof (count_of_le s ts). destruct (decide (t = s)) as [->|]; lia.
Qed.

(** C32: the limit of a rate.  However the clock moves forward, a call of
    [IsRatelimitPass] passes exactly if fewer calls of the same second than the limit
    have passed before it; so of the calls of a second the first ones pass, as many
    as the limit allows.  This holds from any buffer of earlier seconds on, also one
    that was made for another limit. *)
Theorem rate_limit_exact limit ts r :
  0 < limit -> zlen (elems (rate_limit_buffer_ r)) <= capacity (rate_limit_buffer_ r) -> StronglySorted Z.le ts ->
  Forall (fun t => 0 < t /\ Forall (fun o => o < t) (elems (rate_limit_buffer_ r))) ts ->
  (calls limit ts r).1 = allow limit [] ts /\
  forall s, passes s ts (calls limit ts r).1 = Z.min limit (count_of s ts).
Proof.
  intros Hl Hb Hs Ht. assert ((calls limit ts r).1 = allow limit [] ts) as E.
  { destruct ts as [|t ts]; [done|]. apply Forall_cons_iff in Ht as [[H0 Ho] Ht].
    destruct (fitted_holds limit (rate_limit_buffer_ r) t Hl Hb Ho H0) as (old&Hold&Hh).
    assert (calls limit (t :: ts) r =
      calls limit (t :: ts) (Mk (fitted limit (rate_limit_buffer_ r)) (do_rate_limit_drop_log_ r))) as ->
      by (cbn [calls]; by rewrite <- IsRatelimitPass_fitted).
    apply (calls_allow limit old); [done|done|done|]. constructor; [done|].
    inversion Hs as [|? ? _ Hle]; subst. apply list.Forall_forall. intros u Hu.
    rewrite list.Forall_forall in Hle. pose proof (Hle u Hu). eapply list.Forall_impl; [exact Hold|]. cbn. lia. }
  split; [done|]. intros s. rewrite E. pose proof (allow_count limit s ts []) as H.
  change (count_of s []) with 0 in H. specialize (H ltac:(lia) ltac:(lia)). lia.
Qed.

Lemma rate_limit_exact_witness :
  let ts := [5; 5; 5; 6; 6; 6; 6; 8] in
  (calls 2 ts (Mk (MkBuffer 0 []) true)).1 = [true; true; false; true; true; false; false; true].
Proof.
  intros ts. rewrite (proj1 (rate_limit_exact 2 ts (Mk (MkBuffer 0 []) true) ltac:(lia) ltac:(cbn; lia)
    ltac:(repeat constructor; lia) ltac:(repeat constructor; lia))). reflexivity.
Defined.

End RateLimitSpec.

(** ** Sending *)
(** What a client promises while it exists: a message it answers with success is its
    own, the others are not. *)
Class FacClientLaws (C : Type) `{!FacClient C} := {
  fc_ok : C -> Prop;
  fc_taken : C -> list ClientSM.Snh;
  fc_new_ok eps p : fc_ok (fc_new eps p) /\ fc_taken (fc_new eps p) = [];
  fc_SendSandesh_taken m c : fc_ok c ->
    fc_ok (fc_SendSandesh m c).2 /\
    fc_taken (fc_SendSandesh m c).2 = fc_taken c ++ if (fc_SendSandesh m c).1 then [m] else [];
  fc_SendSandeshUVE_taken m c : fc_ok c ->
    fc_ok (fc_SendSandeshUVE m c).2 /\
    fc_taken (fc_SendSandeshUVE m c).2 = fc_taken c ++ if (fc_SendSandeshUVE m c).1 then [m] else [];
  fc_CloseSMSession_taken c b c' : fc_ok c -> fc_CloseSMSession c = Some (b, c') -> fc_ok c' /\ fc_taken c' = fc_taken c;
}.

Module Sends.
Import Sandesh.
Section Sends.
Context {C : Type} `{!FacClient C} `{!FacClientLaws C} {Req : Type}.
Abbreviation t := (Sandesh.t C Req).

(** *** What is logged *)
Lemma SetLoggingLevel_sets L (x : t) :
  logging_level_ (logging (SetLoggingLevel L x)) = L /\
  logger_level (logging (SetLoggingLevel L x)) = SandeshLevel.SandeshLevelTolog4Level L /\
  logging_category_ (logging (SetLoggingLevel L x)) = logging_category_ (logging x) /\
  fx (SetLoggingLevel L x) = fx x.
Proof.
  unfold SetLoggingLevel. destruct (Z.eqb_spec (logging_level_ (logging x)) L); cbn [negb orb]; [|done].
  by case_bool_decide.
Qed.

Lemma log4_antitone l L : 0 <= l <= L ->
  SandeshLevel.rank (SandeshLevel.SandeshLevelTolog4Level L) <= SandeshLevel.rank (SandeshLevel.SandeshLevelTolog4Level l).
Proof.
  intros Hl. destruct (decide (L <= 7)) as [H7|H7].
  - assert (L ∈ [0; 1; 2; 3; 4; 5; 6; 7] /\ l ∈ [0; 1; 2; 3; 4; 5; 6; 7]) as [HL Hl'].
    { rewrite !elem_of_cons. lia. }
    rewrite !elem_of_cons, elem_of_nil in HL, Hl'.
    repeat destruct HL as [->|HL]; try done; repeat destruct Hl' as [->|Hl']; try done; try lia; vm_compute; discriminate.
  - assert (SandeshLevel.SandeshLevelTolog4Level L = SandeshLevel.ALL) as ->.
    { unfold SandeshLevel.SandeshLevelTolog4Level.
      rewrite !bool_decide_false by (rewrite !elem_of_cons, elem_of_nil; unfold SandeshLevel.SYS_EMERG,
        SandeshLevel.SYS_ALERT, SandeshLevel.SYS_CRIT, SandeshLevel.SYS_WARN, SandeshLevel.SYS_NOTICE; lia).
      unfold SandeshLevel.SYS_ERR, SandeshLevel.SYS_INFO, SandeshLevel.SYS_DEBUG.
      by rewrite !(proj2 (Z.eqb_neq L _)) by lia. }
    by destruct (SandeshLevel.SandeshLevelTolog4Level l).
Qed.

(** The threshold of the log.  After [SetLoggingLevel L], a message with a level of
    syslog or above is logged if and only if its level is at most [L] and its category
    is the one configured, if there is one; a UVE only if [L] is INVALID, whatever its
    level is. *)
Theorem log_threshold L m (x : t) :
  0 <= level_ m -> L <= SandeshLevel.INVALID ->
  let wanted := bool_decide (logging_category_ (logging x) = EmptyString) ||
                bool_decide (logging_category_ (logging x) = category_ m) in
  let threshold := if bool_decide (type_ m = UVE) then SandeshLevel.INVALID else level_ m in
  fx (Log m (SetLoggingLevel L x)) =
    fx x ++ if (threshold <=? L) && wanted then [Logged (SandeshLevel.SandeshLevelTolog4Level (level_ m)) m] else [].
Proof.
  intros Hl HL wanted threshold. destruct (SetLoggingLevel_sets L x) as (E1&E2&E3&E4).
  unfold Log, IsLevelCategoryLoggingAllowed, isEnabledFor. rewrite E1, E2, E3. fold threshold.
  assert ((if negb (bool_decide (logging_category_ (logging x) = EmptyString))
           then bool_decide (logging_category_ (logging x) = category_ m) else true) = wanted) as ->.
  { unfold wanted. by destruct (bool_decide (logging_category_ (logging x) = EmptyString)). }
  destruct (Z.leb_spec threshold L) as [Ht|Ht]; cbn [andb negb]; [|by rewrite E4, app_nil_r].
  destruct wanted; cbn [negb]; [|by rewrite E4, app_nil_r].
  assert (SandeshLevel.rank (SandeshLevel.SandeshLevelTolog4Level L) <=?
          SandeshLevel.rank (SandeshLevel.SandeshLevelTolog4Level (level_ m)) = true) as ->.
  { apply Z.leb_le. unfold threshold in Ht. case_bool_decide; [|apply log4_antitone; lia].
    replace L with SandeshLevel.INVALID by lia. by destruct (SandeshLevel.SandeshLevelTolog4Level (level_ m)). }
  cbn [negb]. unfold emit. cbn [fx set_fx]. by rewrite E4.
Qed.

(** *** What becomes of a message *)
Inductive verdict := Tested | DroppedFor (reason : Tx.type) | Sent.

Definition client_verdict (m : sandesh) (x : t) : verdict :=
  match client_ x with
  | None => DroppedFor Tx.NoClient
  | Some c => if (fc_SendSandesh (to_client m) c).1 then Sent else DroppedFor Tx.ClientSendFailed
  end.
Definition async_verdict (rate sys : bool) (m : sandesh) (time : Z) (r : RateLimit.t) (x : t) : verdict :=
  if HandleTest (level_ m) x then Tested
  else if IsSendingAllMessagesDisabled x ||
          (if sys then IsSendingSystemLogsDisabled x else IsSendingObjectLogsDisabled x)
  then DroppedFor Tx.SendingDisabled
  else if rate && negb (RateLimit.IsRatelimitPass (sandesh_send_ratelimit_ (sending x)) time r).1
  then DroppedFor Tx.RatelimitDrop
  else if SendingLevel x <=? level_ m then DroppedFor Tx.QueueLevel
  else client_verdict m x.
Definition flow_verdict (use_syslog : bool) (m : sandesh) (x : t) : verdict :=
  if HandleTest (level_ m) x then Tested
  else if IsFlowLoggingEnabled x && use_syslog then DroppedFor Tx.SendingToSyslog
  else if IsSendingAllMessagesDisabled x || IsSendingFlowsDisabled x then DroppedFor Tx.SendingDisabled
  else if SendingLevel x <=? level_ m then DroppedFor Tx.QueueLevel
  else client_verdict m x.

(** The objects made and not released in a piece of history. *)
Definition held (l : list effect) : Z :=
  foldr (fun e n => match e with Created _ => n + 1 | Released _ => n - 1 | _ => n end) 0 l.
Definition taken (x : t) : list ClientSM.Snh := default [] (fc_taken <$> client_ x).
Definition client_ok (x : t) : Prop := match client_ x with Some c => fc_ok c | None => True end.

(** [own]: the objects of the message at the start.  A message that is dropped is
    counted once, for its reason; a message that is sent is the client's; no object is
    left or released twice; and nothing else has changed. *)
Definition accounted (m : sandesh) (own : Z) (v : verdict) (x x' : t) : Prop :=
  (exists new, fx x' = fx x ++ new /\ held new + own = match v with Sent => 1 | _ => 0 end) /\
  match v with
  | DroppedFor reason => SandeshMessageStatistics.UpdateSendFailed (name_ m) 0 reason (msg_stats_ x) = Some (msg_stats_ x')
  | _ => msg_stats_ x' = msg_stats_ x
  end /\
  taken x' = taken x ++ match v with Sent => [to_client m] | _ => [] end /\
  sending x' = sending x /\ logging x' = logging x /\ identity x' = identity x /\ (client_ok x -> client_ok x').

(** Steps that write lines of the log at most. *)
Definition quiet (x x' : t) : Prop :=
  (exists new, fx x' = fx x ++ new /\ held new = 0) /\ msg_stats_ x' = msg_stats_ x /\ client_ x' = client_ x /\
  sending x' = sending x /\ logging x' = logging x /\ identity x' = identity x.

Lemma held_app a b : held (a ++ b) = held a + held b.
Proof. induction a as [|e a IH]; [done|]. cbn. unfold held in *. destruct e; lia. Qed.

Lemma quiet_refl x : quiet x x.
Proof. split; [exists []; by rewrite app_nil_r|done]. Qed.
Lemma quiet_emit e x : held [e] = 0 -> quiet x (emit e x).
Proof. intros. split; [by exists [e]|done]. Qed.
Lemma Log_quiet m x : quiet x (Log m x).
Proof.
  unfold Log. destruct (negb _); [apply quiet_refl|]. destruct (negb _); [apply quiet_refl|by apply quiet_emit].
Qed.
Lemma DropLog_quiet m x : quiet x (DropLog m x).
Proof. unfold DropLog. destruct (negb _); [apply quiet_refl|by apply quiet_emit]. Qed.

Lemma fail_stats name reason (x : t) :
  is_Some (SandeshMessageStatistics.tx_field reason) ->
  exists s, SandeshMessageStatistics.UpdateSendFailed name 0 reason (msg_stats_ x) = Some s /\
    UpdateTxMsgFailStats name reason x = Some (set_msg_stats s x).
Proof.
  intros [f Ef]. unfold UpdateTxMsgFailStats, SandeshMessageStatistics.UpdateSendFailed,
    SandeshMessageStatistics.UpdateInternal, SandeshMessageStatistics.UpdateDetailStatsDrops. rewrite Ef.
  eexists. split; [reflexivity|]. reflexivity.
Qed.

Ltac reason name r x :=
  let s := fresh "s" in let Es := fresh "Es" in let Eu := fresh "Eu" in
  destruct (fail_stats name r x ltac:(by eexists)) as (s&Es&Eu); rewrite Eu; cbn [mbind option_bind].

(** Dropping: the failure is counted, lines are written, [n] objects released. *)
Lemma dropped_accounted m (obj : bool) reason s (x y : t) :
  SandeshMessageStatistics.UpdateSendFailed (name_ m) 0 reason (msg_stats_ x) = Some s ->
  quiet (set_msg_stats s x) y ->
  accounted m (if obj then 1 else 0) (DroppedFor reason) x (release_if obj m y).
Proof.
  intros Es ((new&Ef&Hh)&Em&Ec&E1&E2&E3). unfold accounted, taken, client_ok.
  cbn [msg_stats_ client_ sending logging identity fx set_msg_stats] in *.
  destruct obj; cbn [release_if].
  - split; [exists (new ++ [Released m])|].
    { unfold Release, emit. cbn [fx set_fx]. rewrite Ef, app_assoc. split; [done|]. rewrite held_app. cbn. lia. }
    unfold Release, emit. cbn [msg_stats_ client_ sending logging identity set_fx]. rewrite Em, Ec, app_nil_r. done.
  - split; [exists new; split; [exact Ef|lia]|]. rewrite Em, Ec, app_nil_r. done.
Qed.

(** With lines written before the failure is counted. *)
Lemma quiet_stats s (x y : t) : quiet x y -> quiet (set_msg_stats s x) (set_msg_stats s y).
Proof. intros ((new&Ef&Hh)&Em&Ec&E1&E2&E3). split; [by exists new|]. done. Qed.

Lemma SendEnqueue_accounted m (x : t) :
  client_ok x -> exists b x', SendEnqueue m x = Some (b, x') /\ accounted m 1 (client_verdict m x) x x'.
Proof.
  unfold client_ok at 1, SendEnqueue, client_verdict. destruct (client_ x) as [c|] eqn:Ec; intros Hok.
  - destruct (fc_SendSandesh_taken (to_client m) c Hok) as [Hok' Ht].
    destruct (fc_SendSandesh (to_client m) c) as [sent c'] eqn:Es. cbn [fst snd] in *. destruct sent; cbn [negb].
    + do 2 eexists. split; [done|]. split; [exists []; split; [by rewrite app_nil_r|done]|].
      split; [done|]. unfold taken, client_ok. cbn [client_ set_client]. rewrite Ec. cbn. by rewrite Ht.
    + reason (name_ m) Tx.ClientSendFailed (set_client (Some c') x). do 2 eexists. split; [done|].
      cbn [msg_stats_ set_client] in Es0.
      split; [exists [Released m]; done|]. split; [exact Es0|].
      unfold taken, client_ok, Release, emit. cbn [client_ set_client set_msg_stats set_fx]. rewrite Ec. cbn.
      by rewrite Ht.
  - set (y := if IsLoggingDroppedAllowed (type_ m) x then _ else x).
    assert (quiet x y) as Hq.
    { unfold y. destruct (IsLoggingDroppedAllowed _ _); [|apply quiet_refl].
      destruct (connect_to_collector_ x); [apply quiet_refl|apply Log_quiet]. }
    assert (msg_stats_ y = msg_stats_ x) as Em by apply Hq.
    reason (name_ m) Tx.NoClient y. do 2 eexists. split; [done|]. rewrite Em in Es.
    apply (dropped_accounted m true Tx.NoClient s x (set_msg_stats s y)); [done|by apply quiet_stats].
Qed.

(** The object made before it is dispatched. *)
Lemma created_accounted m v x x' : accounted m 1 v (emit (Created m) x) x' -> accounted m 0 v x x'.
Proof.
  intros ((new&Ef&Hh)&Hs&Ht&Hr). split; [|done]. exists (Created m :: new).
  unfold emit in Ef. cbn [fx set_fx] in Ef. rewrite <- app_assoc in Ef. split; [done|]. cbn. fold (held new). lia.
Qed.

Lemma tested_accounted m (obj : bool) (x y : t) :
  quiet x y -> accounted m (if obj then 1 else 0) Tested x (release_if obj m y).
Proof.
  intros ((new&Ef&Hh)&Em&Ec&E1&E2&E3). unfold accounted, taken, client_ok. destruct obj; cbn [release_if].
  - split; [exists (new ++ [Released m])|].
    { unfold Release, emit. cbn [fx set_fx]. rewrite Ef, app_assoc. split; [done|]. rewrite held_app. cbn. lia. }
    unfold Release, emit. cbn [msg_stats_ client_ sending logging identity set_fx]. by rewrite Em, Ec, app_nil_r.
  - split; [exists new; split; [exact Ef|lia]|]. by rewrite Em, Ec, app_nil_r.
Qed.

Lemma Send_async_accounted (obj rate sys : bool) m time r (x : t) :
  client_ok x -> obj && rate = false ->
  exists r' x', Send_async obj rate sys m time r x = Some (r', x') /\
    accounted m (if obj then 1 else 0) (async_verdict rate sys m time r x) x x'.
Proof.
  intros Hok Hor. unfold Send_async, async_verdict.
  destruct (HandleTest (level_ m) x); [do 2 eexists; split; [done|]; apply tested_accounted, Log_quiet|].
  destruct (IsSendingAllMessagesDisabled x || _).
  { reason (name_ m) Tx.SendingDisabled x. do 2 eexists. split; [done|]. by apply (dropped_accounted m obj _ s x), Log_quiet. }
  set (q := if rate then _ else (true, r)).
  assert (q.1 = negb (rate && negb (RateLimit.IsRatelimitPass (sandesh_send_ratelimit_ (sending x)) time r).1)) as Eq.
  { unfold q. destruct rate; [|done]. by destruct (RateLimit.IsRatelimitPass _ _ _) as [[] ?]. }
  destruct q as [pass r'] eqn:Eqq. cbn [fst] in Eq. subst pass. rewrite negb_involutive.
  destruct (rate && _) eqn:Er; cbn [negb].
  { apply andb_prop in Er as [-> _]. rewrite andb_true_r in Hor. subst obj.
    reason (name_ m) Tx.RatelimitDrop x. destruct (RateLimit.do_rate_limit_drop_log_ r'); (do 2 eexists; split; [done|]).
    - by apply (dropped_accounted m false _ s x), DropLog_quiet.
    - by apply (dropped_accounted m false _ s x), quiet_refl. }
  destruct (SendingLevel x <=? level_ m).
  { reason (name_ m) Tx.QueueLevel x. do 2 eexists. split; [done|]. by apply (dropped_accounted m obj _ s x), DropLog_quiet. }
  unfold Dispatch. destruct obj.
  - destruct (SendEnqueue_accounted m x Hok) as (b&x'&->&Ha). by do 2 eexists.
  - destruct (SendEnqueue_accounted m (emit (Created m) x) Hok) as (b&x'&->&Ha). do 2 eexists. split; [done|].
    by apply created_accounted.
Qed.

Lemma Send_flow_accounted use_syslog m (x : t) :
  client_ok x -> exists x', Send_flow use_syslog m x = Some x' /\ accounted m 0 (flow_verdict use_syslog m x) x x'.
Proof.
  intros Hok. unfold Send_flow, flow_verdict.
  destruct (HandleTest (level_ m) x); [eexists; split; [done|]; apply (tested_accounted m false), quiet_refl|].
  destruct (IsFlowLoggingEnabled x && use_syslog).
  { reason (name_ m) Tx.SendingToSyslog x. eexists. split; [done|]. apply (dropped_accounted m false _ s x); [done|].
    case_bool_decide; [by apply quiet_emit|apply Log_quiet]. }
  destruct (IsSendingAllMessagesDisabled x || _).
  { reason (name_ m) Tx.SendingDisabled x. eexists. split; [done|]. apply (dropped_accounted m false _ s x); [done|].
    destruct (IsLoggingDroppedAllowed _ _); [apply Log_quiet|apply quiet_refl]. }
  destruct (SendingLevel x <=? level_ m).
  { reason (name_ m) Tx.QueueLevel x. eexists. split; [done|]. apply (dropped_accounted m false _ s x); [done|].
    destruct (IsLoggingDroppedAllowed _ _); [apply DropLog_quiet|apply quiet_refl]. }
  unfold Dispatch. destruct (SendEnqueue_accounted m (emit (Created m) x) Hok) as (b&x'&->&Ha). eexists. split; [done|].
  by apply created_accounted.
Qed.

(** C16: what becomes of a message.  A system log, an object log (made by the call or
    by the caller) and a flow are, in this order: only logged in a unit test or at a
    level of unit tests; (a flow) written to syslog; dropped if sending is disabled; (a
    system log) dropped above the limit of its rate; dropped if the send queue has
    reached their level; dropped without a client or if the client refuses; else taken
    by the client.  Whatever it is, the call returns, a drop is counted exactly once
    under its reason, and the object is released exactly once or is the client's. *)
Theorem send_accounted (obj rate sys : bool) m time r use_syslog f (x : t) :
  client_ok x -> obj && rate = false ->
  (exists r' x', Send_async obj rate sys m time r x = Some (r', x') /\
     accounted m (if obj then 1 else 0) (async_verdict rate sys m time r x) x x') /\
  (exists x', Send_flow use_syslog f x = Some x' /\ accounted f 0 (flow_verdict use_syslog f x) x x').
Proof. intros Hok Hor. split; [by apply Send_async_accounted|by apply Send_flow_accounted]. Qed.

(** A UVE that does not go to the HTTP server, likewise; while the send queue is at
    its highest mark the session is closed first. *)
Theorem uve_dispatch_accounted m (x x' : t) b :
  client_ok x -> http_context (context_ m) = false -> SandeshUVE_Dispatch m x = Some (b, x') ->
  exists v, accounted m 1 v x x' /\ (b = true <-> v = Sent).
Proof.
  unfold client_ok at 1. intros Hok Hh. unfold SandeshUVE_Dispatch. rewrite Hh. destruct (client_ x) as [c|] eqn:Ec.
  - destruct (IsSendingAllMessagesDisabled x).
    { pose proof (Log_quiet m x) as Hq. set (y := Log m x) in *. assert (msg_stats_ y = msg_stats_ x) as Em by apply Hq.
      reason (name_ m) Tx.SendingDisabled y. intros [= <- <-]. rewrite Em in Es. exists (DroppedFor Tx.SendingDisabled).
      split; [|by split]. by apply (dropped_accounted m true _ s x), quiet_stats. }
    set (oc := if SendingLevel x <=? SandeshLevel.SYS_UVE then _ else Some c).
    destruct oc as [c1|] eqn:Eo; [|done]. cbn [mbind option_bind].
    assert (fc_ok c1 /\ fc_taken c1 = fc_taken c) as [Hok1 Hc1].
    { unfold oc in Eo. destruct (SendingLevel x <=? SandeshLevel.SYS_UVE); [|by injection Eo as <-].
      destruct (fc_CloseSMSession c) as [[b' c']|] eqn:Ecl; [|done]. cbn in Eo. injection Eo as <-.
      exact (fc_CloseSMSession_taken _ _ _ Hok Ecl). }
    destruct (fc_SendSandeshUVE_taken (to_client m) c1 Hok1) as [Hok' Ht].
    destruct (fc_SendSandeshUVE (to_client m) c1) as [sent c'] eqn:Es. cbn [fst snd] in *. rewrite Hc1 in Ht.
    destruct sent; cbn [negb].
    + intros [= <- <-]. exists Sent. split; [|by split]. split; [exists []; split; [by rewrite app_nil_r|done]|].
      split; [done|]. unfold taken, client_ok. cbn [client_ set_client]. rewrite Ec. cbn. by rewrite Ht.
    + reason (name_ m) Tx.ClientSendFailed (set_client (Some c') x). intros [= <- <-].
      exists (DroppedFor Tx.ClientSendFailed). split; [|by split].
      cbn [msg_stats_ set_client] in Es0. split; [by exists [Released m]|]. split; [exact Es0|].
      unfold taken, client_ok, Release, emit. cbn [client_ set_client set_msg_stats set_fx]. rewrite Ec. cbn. by rewrite Ht.
  - set (y := if connect_to_collector_ x then x else Log m x).
    assert (quiet x y) as Hq by (unfold y; destruct (connect_to_collector_ x); [apply quiet_refl|apply Log_quiet]).
    assert (msg_stats_ y = msg_stats_ x) as Em by apply Hq.
    reason (name_ m) Tx.NoClient y. intros [= <- <-]. rewrite Em in Es. exists (DroppedFor Tx.NoClient).
    split; [|by split]. by apply (dropped_accounted m true _ s x), quiet_stats.
Qed.
End Sends.
End Sends.

(** ** From [Init] to [Uninit] *)
Module Lifecycle.
Import Sandesh.
Section Lifecycle.
Context {C : Type} `{!FacClient C} {Req : Type}.
Abbreviation t := (Sandesh.t C Req).
Variable req_name : Req -> string.
Variable from_string : string -> option Z.
Variable MakeEndpoint : string -> option (option ClientSM.Endpoint).

(** The arguments that the initialisations have in common. *)
Record args := MkArgs {
  a_module : string; a_source : string; a_node_type : string; a_instance_id : string;
  a_context : Z; a_config : SandeshConfig; a_task_id : Z; a_http : bool * Z }.

Inductive op :=
  | OpGenerator (ds_ok : bool) (a : args)
  | OpGeneratorCollectors (ds_ok : bool) (a : args) (collectors : list string)
  | OpCollector (a : args) (ip : string) (port : Z)
  | OpTest (a : args)
  | OpConnect (ip : string) (port : Z) (periodicuve : bool)
  | OpRequest (q : Req)
  | OpUninit.

Definition with_args {A} (f : string -> string -> string -> string -> A) (a : args) : A :=
  f (a_module a) (a_source a) (a_node_type a) (a_instance_id a).
Definition start (role : SandeshRole) (a : args) : t -> option (bool * t) :=
  with_args (Initialize role) a (a_context a) (a_config a) (a_task_id a) (a_http a).
Definition step (o : op) (x : t) : option t :=
  '(_, x) ← match o with
            | OpGenerator ds_ok a =>
                with_args (InitGenerator ds_ok) a (a_context a) (a_config a) (a_task_id a) (a_http a) x
            | OpGeneratorCollectors ds_ok a l =>
                with_args (InitGenerator_collectors MakeEndpoint ds_ok) a l (a_context a) (a_config a) (a_task_id a)
                  (a_http a) x
            | OpCollector a ip port =>
                with_args (InitCollector from_string) a ip port (a_context a) (a_config a) (a_task_id a) (a_http a) x
            | OpTest a => with_args InitGeneratorTest a (a_context a) (a_config a) (a_task_id a) (a_http a) x
            | OpConnect ip port periodicuve => ConnectToCollector from_string ip port periodicuve x
            | OpRequest q => Request_Enqueue req_name q x
            | OpUninit => x ← Uninit req_name x; Some (true, x)
            end;
  Some x.

(** The scheduler numbers tasks from 0. *)
Definition op_ok (o : op) : Prop :=
  match o with
  | OpGenerator _ a | OpGeneratorCollectors _ a _ | OpCollector a _ _ | OpTest a => 0 <= a_task_id a
  | _ => True
  end.

(** Before the first call. *)
Definition initial (s : Logging) (l : Sending) : t :=
  Mk (MkIdentity Invalid "" "" "" "" 0 0) s l None (-1) None false ∅ SandeshMessageStatistics.init false [].

Inductive reachable : t -> Prop :=
  | reachable_initial s l : reachable (initial s l)
  | reachable_op o x y : reachable x -> op_ok o -> step o x = Some y -> reachable y.

Definition ready (x : t) : bool := negb (bool_decide (role_ (identity x) = Invalid)).
Definition live (x : t) : Z := if client_ x then 1 else 0.
(** Clients made, less those deleted. *)
Definition clients (l : list effect) : Z :=
  foldr (fun e n => match e with ClientCreated => n + 1 | ClientDeleted => n - 1 | _ => n end) 0 l.
Definition lost (x : t) : Z := clients (fx x) - live x.

(** The receive queue and its task are there exactly while the facility has a role. *)
Definition fits (x : t) : Prop :=
  (recv_task_id_ x = -1 <-> ready x = false) /\ (recv_queue_ x = None <-> ready x = false).

Lemma clients_app a b : clients (a ++ b) = clients a + clients b.
Proof. induction a as [|e a IH]; [done|]. cbn. unfold clients in *. destruct e; lia. Qed.

(** The setters of an initialisation. *)
Lemma setters_frame a (x : t) :
  let y := DisableSendingObjectLogs (disable_object_logs (a_config a))
             (set_send_rate_limit (i32 (system_logs_rate_limit (a_config a))) x) in
  identity y = identity x /\ recv_queue_ y = recv_queue_ x /\ recv_task_id_ y = recv_task_id_ x /\
  client_ y = client_ x /\ fx y = fx x.
Proof. unfold DisableSendingObjectLogs, set_send_rate_limit. repeat (case_match; cbn); done. Qed.

Lemma start_spec role a (x : t) :
  fits x -> role <> Invalid -> 0 <= a_task_id a ->
  exists x', start role a x = Some (ready x || (a_http a).1, x') /\ fits x' /\ ready x' = true /\
    client_ x' = client_ x /\ fx x' = fx x.
Proof.
  intros [H1 H2] Hr Ha. unfold start, with_args, Initialize.
  fold (ready x). rewrite (bool_decide_false (role = Invalid)) by done. rewrite orb_false_r.
  destruct (ready x) eqn:Er; cbn [orb]; [exists x; split; [done|]; split; [unfold fits; by rewrite Er|done]|].
  set (x1 := set_identity _ x). destruct (setters_frame a x1) as (E1&E2&E3&E4&E5).
  set (y := DisableSendingObjectLogs _ _) in *. unfold InitReceive. rewrite E3. change (recv_task_id_ x1) with (recv_task_id_ x).
  rewrite (proj2 H1 eq_refl). cbn [Z.eqb negb mbind option_bind]. eexists. split; [done|].
  cbn [client_ fx set_identity set_recv_queue set_recv_task_id]. rewrite E4, E5. unfold fits, ready.
  cbn [identity role_ recv_task_id_ recv_queue_ set_identity set_recv_queue set_recv_task_id set_http_port].
  rewrite E1. cbn [identity x1 set_identity role_]. rewrite (bool_decide_false (role = Invalid)) by done.
  cbn [negb]. split_and!; try done; split; (discriminate || lia || done).
Qed.

(** What goes wrong: an assertion or an address without a port; and the client that is
    replaced without being shut down. *)
Definition fails (o : op) (x : t) : Prop :=
  match o with
  | OpGenerator ds_ok _ => ds_ok = false
  | OpGeneratorCollectors ds_ok a l =>
      ds_ok = false \/ (ready x || (a_http a).1 = true /\ endpoints MakeEndpoint l = None)
  | OpCollector a ip _ => ready x || (a_http a).1 = true /\ is_Some (from_string ip) /\ is_Some (client_ x)
  | OpConnect ip _ _ => is_Some (from_string ip) /\ is_Some (client_ x)
  | _ => False
  end.
Definition replaces (o : op) (x : t) : bool :=
  match o with
  | OpGeneratorCollectors _ a l =>
      (ready x || (a_http a).1) && (if client_ x then true else false) &&
      match endpoints MakeEndpoint l with Some (Some _) => true | _ => false end
  | _ => false
  end.

(** An operation fails, or it leaves a facility that fits and as many clients as it should. *)
Definition outcome (P : Prop) (r : option (bool * t)) (n : Z) (x : t) : Prop :=
  (P /\ r = None) \/ (~ P /\ exists b y, r = Some (b, y) /\ fits y /\ lost y = lost x + n).

Lemma outcome_same (P : Prop) b (x y : t) : ~ P -> fits y -> client_ y = client_ x -> fx y = fx x -> outcome P (Some (b, y)) 0 x.
Proof. intros ? ? Ec Ef. right. split; [done|]. exists b, y. unfold lost, live. rewrite Ec, Ef. split_and!; (done || lia). Qed.

Lemma fits_client eps p (x : t) : fits x -> fits (new_client eps p (set_connect_to_collector true x)).
Proof. done. Qed.
Lemma lost_client eps p (x : t) : lost (new_client eps p (set_connect_to_collector true x)) = lost x + live x.
Proof.
  unfold lost, new_client, emit, live. cbn [fx client_ set_fx set_client set_connect_to_collector].
  rewrite clients_app. cbn. destruct (client_ x); lia.
Qed.

Lemma connect_outcome ip port p (x : t) :
  fits x -> outcome (is_Some (from_string ip) /\ is_Some (client_ x)) (ConnectToCollector from_string ip port p x) 0 x.
Proof.
  intros Hf. unfold ConnectToCollector, InitClient_server. cbn [client_ set_connect_to_collector].
  destruct (from_string ip) as [a|]; [|by apply outcome_same; [intros [[? ?] _]|..]].
  destruct (client_ x) as [c|] eqn:Ec; cbn [mbind option_bind]; [by left|]. right.
  split; [by intros [_ [? ?]]|]. do 2 eexists. split; [done|]. split; [by apply fits_client|]. rewrite lost_client.
  unfold live. rewrite Ec. lia.
Qed.

Lemma InitClient_outcome l (x : t) :
  fits x -> outcome (endpoints MakeEndpoint l = None) (InitClient MakeEndpoint l x)
    (if (if client_ x then true else false) && match endpoints MakeEndpoint l with Some (Some _) => true | _ => false end
     then 1 else 0) x.
Proof.
  intros Hf. unfold InitClient. destruct (endpoints MakeEndpoint l) as [[eps|]|]; cbn [mbind option_bind]; [| |by left].
  - right. split; [done|]. do 2 eexists. split; [done|]. split; [by apply fits_client|]. rewrite lost_client. unfold live.
    by destruct (client_ x).
  - rewrite andb_false_r. by apply outcome_same.
Qed.

(** An operation that starts the facility and goes on if that succeeds. *)
Lemma start_outcome role a (x : t) (P : t -> Prop) (f : t -> option (bool * t)) (n : t -> Z) :
  fits x -> role <> Invalid -> 0 <= a_task_id a ->
  (forall y, fits y -> outcome (P y) (f y) (n y) y) ->
  (forall y, client_ y = client_ x -> P y = P x /\ n y = n x) ->
  outcome (ready x || (a_http a).1 = true /\ P x)
    ('(success, y) ← start role a x; if negb success then Some (false, y) else f y)
    (if ready x || (a_http a).1 then n x else 0) x.
Proof.
  intros Hf Hr Ha Hg Hn. destruct (start_spec role a x Hf Hr Ha) as (y&->&Hfy&_&Ec&Ex). cbn [mbind option_bind].
  destruct (ready x || (a_http a).1); cbn [negb].
  - destruct (Hn y Ec) as [EP En]. specialize (Hg y Hfy). rewrite EP, En in Hg.
    destruct Hg as [[? ->]|(?&b&z&->&?&El)]; [by left|]. right. split; [by intros [_ ?]|]. exists b, z.
    split; [done|]. split; [done|]. rewrite El. unfold lost, live. by rewrite Ec, Ex.
  - apply outcome_same; [by intros []|done..].
Qed.

Lemma fold_released l (x : t) :
  let y := fold_left (fun x q => emit (RequestReleased (req_name q)) x) l x in
  clients (fx y) = clients (fx x) /\ client_ y = client_ x /\ recv_task_id_ y = recv_task_id_ x /\ identity y = identity x.
Proof.
  revert x. induction l as [|q l IH]; intros x; [done|]. cbn [fold_left].
  destruct (IH (emit (RequestReleased (req_name q)) x)) as (E1&E2&E3&E4). cbv zeta. rewrite E1, E2, E3, E4.
  unfold emit. cbn [fx client_ recv_task_id_ identity set_fx]. rewrite clients_app. cbn. split_and!; (done || lia).
Qed.

Lemma Uninit_outcome (x : t) :
  fits x -> exists y, Uninit req_name x = Some y /\ fits y /\ lost y = lost x /\ client_ y = None /\ ready y = false.
Proof.
  intros [H1 H2]. unfold Uninit. cbn [identity set_identity emit recv_queue_ set_fx].
  set (x1 := set_identity _ _). assert (lost x1 = lost x /\ recv_task_id_ x1 = recv_task_id_ x /\ ready x1 = false) as (L1&T1&R1).
  { unfold lost, live, x1, emit. cbn [fx client_ set_identity set_fx]. rewrite clients_app. cbn. split_and!; (done || lia). }
  assert (forall z : t, recv_queue_ z = None -> recv_task_id_ z = -1 -> ready z = false -> lost z = lost x ->
    exists y, Some match client_ z with Some _ => set_client None (emit ClientDeleted z) | None => z end = Some y /\
      fits y /\ lost y = lost x /\ client_ y = None /\ ready y = false) as Hend.
  { intros z Hq Ht Hr Hl. eexists. split; [done|]. destruct (client_ z) as [c|] eqn:Ec.
    - split; [by unfold fits|]. split; [|done]. rewrite <- Hl. unfold lost, live, emit. rewrite Ec.
      cbn [fx client_ set_client set_fx]. rewrite clients_app. cbn. lia.
    - by unfold fits. }
  destruct (recv_queue_ x) as [l|] eqn:Eq.
  - destruct (fold_released l x1) as (E1&E2&E3&E4). set (x2 := fold_left _ l x1) in *.
    change (recv_task_id_ (set_recv_queue None x2)) with (recv_task_id_ x2). rewrite E3, T1.
    destruct (Z.eqb_spec (recv_task_id_ x) (-1)) as [E|E]; [apply H1, H2 in E; done|]. cbn [mbind option_bind].
    apply Hend; [done|done|unfold ready; cbn [identity set_recv_task_id set_recv_queue]; by rewrite E4|].
    unfold lost, live. cbn [fx client_ set_recv_task_id set_recv_queue]. rewrite E1, E2. exact L1.
  - rewrite T1. rewrite (proj2 H1 (proj1 H2 eq_refl)). cbn [Z.eqb mbind option_bind]. change (-1 =? -1) with true.
    cbn iota. apply Hend; [done|rewrite T1; by apply H1, H2|done|done].
Qed.

Lemma step_outcome o (x : t) :
  fits x -> op_ok o ->
  (fails o x /\ step o x = None) \/
  (~ fails o x /\ exists y, step o x = Some y /\ fits y /\ lost y = lost x + if replaces o x then 1 else 0).
Proof.
  intros Hf Ho. assert (forall P r n, outcome P r n x ->
    (P /\ ('(_, y) ← r; Some y) = None) \/ (~ P /\ exists y, ('(_, y) ← r; Some y) = Some y /\ fits y /\ lost y = lost x + n))
    as Hout.
  { intros P r n [[? ->]|(?&b&y&->&?&?)]; [by left|right]. split; [done|]. by exists y. }
  assert (forall P ds_ok r n, outcome P r n x -> outcome (ds_ok = false \/ P) (if negb ds_ok then None else r) n x) as Hds.
  { intros P [] r n H; cbn [negb]; [|by left; split; [left|]].
    destruct H as [[? ->]|(Hn&?)]; [by left; split; [right|]|]. right. split; [by intros [|]|done]. }
  assert (forall role a, role <> Invalid -> 0 <= a_task_id a -> outcome False (start role a x) 0 x) as Hst.
  { intros role a Hr Ha. destruct (start_spec role a x Hf Hr Ha) as (y&E&Hy&_&Ec&Ex). rewrite E. apply outcome_same; [by intros []|done..]. }
  destruct o as [ds a|ds a l|a ip port|a|ip port p|q|]; cbn [op_ok] in Ho; cbn [fails replaces]; unfold step.
  - destruct (Hout _ _ _ (Hds False ds _ _ (Hst Generator a ltac:(done) Ho))) as [[[?|[]] ?]|[? ?]]; [by left|].
    right. split; [naive_solver|done].
  - pose proof (start_outcome Generator a x (fun _ => endpoints MakeEndpoint l = None) (InitClient MakeEndpoint l) _ Hf
      ltac:(done) Ho (InitClient_outcome l)) as Hs.
    specialize (Hs ltac:(intros y Ey; cbn beta; by rewrite Ey)). apply (Hds _ ds) in Hs. apply Hout in Hs.
    destruct Hs as [?|(?&y&?&?&El)]; [by left|]. right. split; [done|]. exists y. split; [done|]. split; [done|].
    rewrite El. destruct (ready x || _); [|done]. by rewrite andb_true_l.
  - pose proof (start_outcome Collector a x (fun y => is_Some (from_string ip) /\ is_Some (client_ y))
      (ConnectToCollector from_string ip port true) (fun _ => 0) Hf ltac:(done) Ho (connect_outcome ip port true)) as Hs.
    specialize (Hs ltac:(intros y Ey; cbn beta; by rewrite Ey)). apply Hout in Hs.
    destruct Hs as [?|(?&y&?&?&El)]; [by left|]. right. split; [done|]. exists y. split; [done|]. split; [done|].
    rewrite El. by destruct (ready x || _).
  - exact (Hout _ _ _ (Hst Test a ltac:(done) Ho)).
  - exact (Hout _ _ _ (connect_outcome ip port p x Hf)).
  - right. split; [naive_solver|]. unfold Request_Enqueue. destruct (recv_queue_ x) as [l|] eqn:Eq.
    + eexists. split; [done|]. split; [|unfold lost, live; cbn [fx client_ set_recv_queue]; by rewrite Z.add_0_r]. destruct Hf as [H1 H2]. split; [done|].
      split; [done|]. intros Hr. apply (proj2 H2) in Hr. congruence.
    + eexists. split; [done|]. split; [exact Hf|]. unfold lost, live, emit. cbn [fx client_ set_fx set_msg_stats].
      rewrite clients_app. cbn. lia.
  - right. split; [naive_solver|]. destruct (Uninit_outcome x Hf) as (y&->&?&?&_). exists y. split; [done|]. split; [done|]. lia.
Qed.

(** C20: the life of the facility.  Over every history of initialisations, connects,
    requests and ends, the receive queue and its task exist exactly while there is a
    role, so that none of their assertions fails; an operation fails exactly when it
    connects to a collector although there is a client, is given derived statistics
    that do not exist, or an address without a port.  Every client that is made is the
    current one or has been deleted, with one exception: [InitGenerator] with
    collectors replaces a client that is there, and nothing ever shuts it down. *)
Theorem facility_lifecycle o (x : t) :
  reachable x -> op_ok o ->
  fits x /\ (step o x = None <-> fails o x) /\
  forall y, step o x = Some y -> lost y = lost x + if replaces o x then 1 else 0.
Proof.
  intros Hr Ho. assert (fits x) as Hf.
  { clear o Ho. induction Hr as [s l|o x y _ IH Ho E]; [by split|].
    destruct (step_outcome o x IH Ho) as [[_ E']|(_&z&E'&?&_)]; rewrite E' in E; [done|]. by injection E as <-. }
  split; [done|]. destruct (step_outcome o x Hf Ho) as [[Hfail E]|(Hn&z&E&_&El)]; rewrite E.
  - by split.
  - split; [split; [done|by intros ?%Hn]|]. by intros y [= <-].
Qed.
End Lifecycle.
End Lifecycle.
