(* ===== verification/FacilityClient.v ===== *)
(** * The facility with the client of Client.v

    The state machine of ClientSM.v with the manager of Client.v behind the interface of
    the facility: its laws, the way of a message from the generated [Send] to the send
    queue of a session, and concrete facilities. *)

From stdpp Require Import sorting.
From S2P Require Import Prelude Transport Statistics Protocol Xml Message ClientSM Client Facility FacilityClaims.
Local Open Scope Z_scope.

(** ** [SandeshClient]: the machine, the throttle of closes, the members of the class *)
Module MachineClient.
Record t := Mk {
  sm_ : ClientSM.t;
  throttle : SandeshClient.t;
  session_wm_info_ : list QueueWaterMarkInfo;
  dscp_value_ : Z;
  (** The [sending_level_] of the session. *)
  sending_level : Z;
}.
Definition on_sm (f : ClientSM.t -> ClientSM.t) (c : t) : t :=
  Mk (f (sm_ c)) (throttle c) (session_wm_info_ c) (dscp_value_ c) (sending_level c).
Definition set_wm (w : list QueueWaterMarkInfo) (c : t) : t := Mk (sm_ c) (throttle c) w (dscp_value_ c) (sending_level c).
Definition has_session (c : t) : bool := if ClientSM.session_ (sm_ c) then true else false.

(** The marks a client starts with. *)
Definition kSessionWaterMarkInfo : list QueueWaterMarkInfo :=
  [(50 * 1024 * 1024, SandeshLevel.SYS_UVE, true); (30 * 1024 * 1024, SandeshLevel.SYS_EMERG, true);
   (20 * 1024 * 1024, SandeshLevel.SYS_ERR, true); (1 * 1024 * 1024, SandeshLevel.SYS_DEBUG, true);
   (35 * 1024 * 1024, SandeshLevel.SYS_EMERG, false); (25 * 1024 * 1024, SandeshLevel.SYS_ERR, false);
   (15 * 1024 * 1024, SandeshLevel.SYS_DEBUG, false); (2 * 1024, SandeshLevel.INVALID, false)].

Definition CloseSMSession (c : t) : option (bool * t) :=
  '(b, th) ← SandeshClient.CloseSMSession (ClientSM.clock (sm_ c)) (has_session c) (throttle c);
  Some (b, Mk (sm_ c) th (session_wm_info_ c) (dscp_value_ c) (sending_level c)).
Definition SetDscpValue (value : Z) (c : t) : t :=
  if value =? dscp_value_ c then c else Mk (sm_ c) (throttle c) (session_wm_info_ c) value (sending_level c).
Definition SetSessionWaterMarkInfo (scwm : QueueWaterMarkInfo) (c : t) : t := set_wm (session_wm_info_ c ++ [scwm]) c.
Definition ResetSessionWaterMarkInfo (c : t) : t := set_wm [] c.

Section Instance.
(** The clock and the memory at construction, and [MakeEndpoint] where it is defined. *)
Variables now junk : Z.
Variable MakeEndpoint : string -> option ClientSM.Endpoint.

#[export] Instance machine_client : FacClient t := {|
  fc_new eps p :=
    Mk (SandeshClient.Initiate eps (ClientSM.init now junk)) SandeshClient.init kSessionWaterMarkInfo 0
      SandeshLevel.INVALID;
  fc_SendSandesh m c := (true, on_sm (ClientSM.SendSandesh m) c);
  fc_SendSandeshUVE m c := (true, on_sm (ClientSM.SendSandeshUVE m) c);
  fc_CloseSMSession := CloseSMSession;
  fc_SendingLevel c := if has_session c then Some (sending_level c) else None;
  fc_GetDscpValue c := if has_session c then Some (dscp_value_ c) else None;
  fc_ReConfigCollectors l c := on_sm (SandeshClient.ReConfigCollectors MakeEndpoint l) c;
  fc_SetDscpValue := SetDscpValue;
  fc_MayBeStartRunner c := c;
  fc_GetSessionWaterMarkInfo := session_wm_info_;
  fc_SetSessionWaterMarkInfo := SetSessionWaterMarkInfo;
  fc_ResetSessionWaterMarkInfo := ResetSessionWaterMarkInfo;
  fc_server c := (ClientSM.server_ (sm_ c), ClientSM.StateName (sm_ c));
|}.

Definition send_of (e : ClientSM.event) : list ClientSM.Snh :=
  match e with ClientSM.EvSandeshSend m => [m] | _ => [] end.
Definition queued (c : t) : list ClientSM.Snh := concat (map send_of (ClientSM.queue_ (sm_ c))).

Lemma queued_send m c :
  ClientSM.deleted_ (sm_ c) = false ->
  ClientSM.deleted_ (ClientSM.SendSandesh m (sm_ c)) = false /\
  ClientSM.queue_ (ClientSM.SendSandesh m (sm_ c)) = ClientSM.queue_ (sm_ c) ++ [ClientSM.EvSandeshSend m].
Proof. intros Hd. unfold ClientSM.SendSandesh, ClientSM.Enqueue. rewrite Hd. done. Qed.

(** The client keeps the promises of [FacClientLaws]: its queue holds what it took. *)
#[export] Instance machine_client_laws : FacClientLaws t.
Proof.
  refine {| fc_ok c := ClientSM.deleted_ (sm_ c) = false; fc_taken := queued |}.
  - intros [|ep eps] p; done.
  - intros m c Hd. destruct (queued_send m c Hd) as [H1 H2]. cbn [fc_SendSandesh machine_client fst snd]. split; [done|].
    unfold queued, on_sm. cbn [sm_]. rewrite H2, map_app, concat_app. done.
  - intros m c Hd. destruct (queued_send m c Hd) as [H1 H2]. cbn [fc_SendSandeshUVE machine_client fst snd]. split; [done|].
    unfold queued, on_sm. cbn [sm_]. change ClientSM.SendSandeshUVE with ClientSM.SendSandesh.
    rewrite H2, map_app, concat_app. done.
  - intros c b c' Hd. cbn [fc_CloseSMSession machine_client]. unfold CloseSMSession.
    destruct (SandeshClient.CloseSMSession _ _ _) as [[b' th]|]; [|done]. cbn. by intros [= _ <-].
Defined.

End Instance.
End MachineClient.

(** ** Witnesses *)
Module FacilityDemo.
Import Sandesh Sends Lifecycle.

Definition demo_from_string (s : string) : option Z := if bool_decide (s = "10.0.0.1"%string) then Some 167772161 else None.
Definition demo_endpoint (s : string) : option (option ClientSM.Endpoint) :=
  Some (flip ClientSM.MkEndpoint 8086 <$> demo_from_string s).
Definition demo_args : args :=
  MkArgs "agent" "host" "Compute" "0" 0 (MkConfig false 2) 7 (true, 8085).
Definition demo_start : Sandesh.t MachineClient.t unit :=
  initial (MkLogging false false false SandeshLevel.INVALID "" SandeshLevel.ALL SandeshLevel.ALL)
    (MkSending true false false false false 0).
#[export] Instance demo_client : FacClient MachineClient.t := MachineClient.machine_client 0 0 (fun _ => None).
#[export] Instance demo_laws : FacClientLaws MachineClient.t := MachineClient.machine_client_laws 0 0 (fun _ => None).
Definition demo_step : op -> Sandesh.t MachineClient.t unit -> option (Sandesh.t MachineClient.t unit) :=
  step (fun _ => EmptyString) demo_from_string demo_endpoint.
Definition demo_up : Sandesh.t MachineClient.t unit :=
  default demo_start (demo_step (OpGeneratorCollectors true demo_args ["10.0.0.1"%string]) demo_start).
Definition demo_log (level : Z) : sandesh := MkSandesh SYSTEM false "Hello" level "cat" "" (Opaque 1).
Definition demo_rate : RateLimit.t := RateLimit.Mk (RateLimit.MkBuffer 0 []) true.

(** The first logs of a second reach the machine's queue, the third one is over the limit. *)
Lemma send_accounted_witness :
  exists r x', Send_systemlog (demo_log 3) 100 demo_rate demo_up = Some (r, x') /\
    taken x' = taken demo_up ++ [to_client (demo_log 3)].
Proof.
  destruct (send_accounted false true true (demo_log 3) 100 demo_rate false (demo_log 3) demo_up) as [(r&x'&E&Ha) _].
  - vm_compute. reflexivity.
  - reflexivity.
  - exists r, x'. split; [exact E|]. destruct Ha as (_&_&Ht&_).
    assert (async_verdict true true (demo_log 3) 100 demo_rate demo_up = Sent) as Ev by (vm_compute; reflexivity).
    rewrite Ev in Ht. exact Ht.
Defined.

Lemma facility_lifecycle_witness :
  fits demo_up /\ demo_step (OpConnect "10.0.0.1" 8086 true) demo_up = None /\
  exists y, demo_step (OpGeneratorCollectors true demo_args ["10.0.0.1"%string]) demo_up = Some y /\ lost y = 1.
Proof.
  assert (reachable (fun _ => EmptyString) demo_from_string demo_endpoint demo_up) as Hr.
  { apply (reachable_op _ _ _ (OpGeneratorCollectors true demo_args ["10.0.0.1"%string]) demo_start).
    - apply reachable_initial.
    - cbn. lia.
    - vm_compute. reflexivity. }
  destruct (facility_lifecycle (fun _ => EmptyString) demo_from_string demo_endpoint (OpConnect "10.0.0.1" 8086 true)
    demo_up Hr I) as (Hf&He&_).
  split; [exact Hf|]. split; [apply He; split; eexists; vm_compute; reflexivity|].
  destruct (facility_lifecycle (fun _ => EmptyString) demo_from_string demo_endpoint
    (OpGeneratorCollectors true demo_args ["10.0.0.1"%string]) demo_up Hr ltac:(cbn; lia)) as (_&_&Hl).
  destruct (demo_step (OpGeneratorCollectors true demo_args ["10.0.0.1"%string]) demo_up) as [y|] eqn:E;
    [|vm_compute in E; discriminate].
  exists y. split; [reflexivity|]. rewrite (Hl y E). vm_compute. reflexivity.
Defined.

Lemma log_threshold_witness :
  fx (Log (demo_log 3) (SetLoggingLevel 4 demo_start)) = [Logged SandeshLevel.ERROR (demo_log 3)] /\
  fx (Log (demo_log 5) (SetLoggingLevel 4 demo_start)) = [].
Proof.
  split.
  - rewrite (log_threshold 4 (demo_log 3) demo_start) by (vm_compute; discriminate). reflexivity.
  - rewrite (log_threshold 4 (demo_log 5) demo_start) by (vm_compute; discriminate). reflexivity.
Defined.

End FacilityDemo.
