(* ===== verification/Generated.v ===== *)
(** * The code that is generated for a message

    The readers and writers that the compiler emits for a struct and a sandesh
    (compiler/generate/t_cpp_generator.cc: [generate_struct_reader],
    [generate_sandesh_reader], [generate_deserialize_field] and what it calls, and the
    same for writing), as functions of the definition they are emitted for.  A definition
    is a [ttype]; an object of a generated class is an [obj], a member with the flag that
    [__isset] holds for it.  The protocol is the binary one (Binary.v).

    Field annotations, which only the XML protocol writes, and default values in a
    definition are left out. *)

From S2P Require Import Prelude Transport Protocol Wire Binary BinarySpec.
Import TBinaryProtocol.
Local Open Scope Z_scope.

Module Generated.

(** ** Definitions *)
Inductive e_req := T_REQUIRED | T_OPTIONAL | T_OPT_IN_REQ_OUT.
#[export] Instance e_req_eq_dec : EqDecision e_req.
Proof. solve_decision. Defined.

(** [t_field]: what is known of a member besides its type. *)
Record t_field := MkField { get_key : Z; get_name : list byte; get_req : e_req }.

(** [t_type].  A base type is named by the constant it is written with. *)
Inductive ttype :=
  | TBase (ty : TType)
  | TEnum
  | TStruct (name : list byte) (members : list (t_field * ttype))
  | TList (elem : ttype)
  | TSet (elem : ttype)
  | TMap (key val : ttype).

Definition type_to_enum (ty : ttype) : TType :=
  match ty with
  | TBase b => b
  | TEnum => T_I32
  | TStruct _ _ => T_STRUCT
  | TList _ => T_LIST
  | TSet _ => T_SET
  | TMap _ _ => T_MAP
  end.

(** ** Objects

    The value of a base type or of an enumeration is a [value].  The elements of a set and
    of a map are in the order of the container. *)
Inductive obj :=
  | OBase (v : value)
  | OStruct (members : list (bool * obj))
  | OList (l : list obj)
  | OSet (l : list obj)
  | OMap (l : list (obj * obj)).

Definition base_default (ty : TType) : value :=
  match ty with
  | T_BOOL => VBool false
  | T_IPADDR => VIp (IPv4 (replicate 4 x00))
  | T_DOUBLE => VDouble 0
  | T_STRING | T_XML => VBytes ty []
  | T_UUID => VUuid (replicate 16 x00)
  | _ => VInt ty 0
  end.
(** What the default constructor leaves. *)
Fixpoint default_obj (ty : ttype) : obj :=
  match ty with
  | TBase b => OBase (base_default b)
  | TEnum => OBase (VInt T_I32 0)
  | TStruct _ ms => OStruct (map (fun m => (false, default_obj m.2)) ms)
  | TList _ => OList []
  | TSet _ => OSet []
  | TMap _ _ => OMap []
  end.

Section Code.
Context `{!Allocator} {T : Type} `{!TTransport T}.
Abbreviation S := (TBinaryProtocol.t T).

(** The [operator<] of the elements of sets and of the keys of maps. *)
Variable lt : obj -> obj -> bool.

Fixpoint set_insert (x : obj) (l : list obj) : list obj :=
  match l with
  | [] => [x]
  | y :: l' => if lt x y then x :: l else if lt y x then y :: set_insert x l' else l
  end.
(** [m[k]], made with the default object if it is not there, and its assignment. *)
Fixpoint map_slot (k d : obj) (l : list (obj * obj)) : obj :=
  match l with
  | [] => d
  | (k', v) :: l => if lt k k' then d else if lt k' k then map_slot k d l else v
  end.
Fixpoint map_put (k v : obj) (l : list (obj * obj)) : list (obj * obj) :=
  match l with
  | [] => [(k, v)]
  | (k', v') :: l' => if lt k k' then (k, v) :: l else if lt k' k then (k', v') :: map_put k v l' else (k', v) :: l'
  end.

(** ** Reading *)

Definition read_base (ty : TType) : M S (Z * option value) :=
  match ty with
  | T_BOOL => built VBool readBool
  | T_BYTE => built (VInt ty) readByte
  | T_I16 => built (VInt ty) readI16
  | T_I32 => built (VInt ty) readI32
  | T_I64 => built (VInt ty) readI64
  | T_U16 => built (VInt ty) readU16
  | T_U32 => built (VInt ty) readU32
  | T_U64 => built (VInt ty) readU64
  | T_IPV4 => built (VInt ty) readIPV4
  | T_IPADDR => built VIp readIPADDR
  | T_DOUBLE => built VDouble readDouble
  | T_STRING => built (VBytes ty) readString
  | T_XML => built (VBytes ty) readXML
  | T_UUID => built VUuid readUUID
  | _ => mret (-1, None)
  end.

(** Around an element of a container whose type is a base type or an enumeration. *)
Definition is_simple (ty : ttype) : bool := match ty with TBase _ | TEnum => true | _ => false end.
Definition read_element (ty : ttype) (m : M S (Z * option obj)) : M S (Z * option obj) :=
  if is_simple ty then
    chk readContainerElementBegin (fun r1 =>
    chkV m (fun r2 o =>
    chk readContainerElementEnd (fun r3 => mret (i32 (i32 (r1 + r2) + r3), Some o))))
  else m.

(** [for (i = 0; i < size; ++i)] around what reads one element into [acc]. *)
Fixpoint read_times {A} (step : A -> M S (Z * option A)) (n : nat) (xfer : Z) (acc : A) : M S (Z * option A) :=
  match n with
  | O => mret (xfer, Some acc)
  | Datatypes.S n => chkV (step acc) (fun ret acc => read_times step n (i32 (xfer + ret)) acc)
  end.

(** The code of one [case] of the [switch]: the member, the type it must have on the
    wire, and what reads it into its object. *)
Record read_case := MkCase { c_field : t_field; c_type : TType; c_read : obj -> M S (Z * option obj) }.
Fixpoint find_case {A} (key : A -> Z) (fid : Z) (cs : list A) : option (nat * A) :=
  match cs with
  | [] => None
  | c :: cs => if key c =? fid then Some (O, c) else (fun p => (Datatypes.S p.1, p.2)) <$> find_case key fid cs
  end.

(** The loop over the fields on the wire. *)
Fixpoint read_members (fuel n : nat) (cs : list read_case) (xfer : Z) (ms : list (bool * obj))
    : M S (Z * option (list (bool * obj))) :=
  match n with
  | O => undefined
  | Datatypes.S n =>
      chkV readFieldBegin (fun ret '(ftype, fid) =>
      let xfer := i32 (xfer + ret) in
      if bool_decide (ftype = T_STOP) then mret (xfer, Some ms)
      else
        let skip_it :=
          chk (skip fuel ftype) (fun ret => let xfer := i32 (xfer + ret) in
          chk readFieldEnd (fun ret => read_members fuel n cs (i32 (xfer + ret)) ms)) in
        match find_case (fun c => get_key (c_field c)) fid cs with
        | Some (i, c) =>
            if bool_decide (ftype = c_type c) then
              m ← get (ms !! i);
              chkV (c_read c m.2) (fun ret o => let xfer := i32 (xfer + ret) in
              chk readFieldEnd (fun ret => read_members fuel n cs (i32 (xfer + ret)) (<[i := (true, o)]> ms)))
            else skip_it
        | None => skip_it
        end)
  end.

(** [isset_...] of the required members is false at the start and tested at the end. *)
Definition required (f : t_field) : bool := bool_decide (get_req f = T_REQUIRED).
Definition start_members (fs : list t_field) (ms : list (bool * obj)) : list (bool * obj) :=
  zip_with (fun f m => (if required f then false else m.1, m.2)) fs ms.
Definition all_required (fs : list t_field) (ms : list (bool * obj)) : bool :=
  forallb id (zip_with (fun f m => negb (required f) || m.1) fs ms).

(** The body of a struct or a sandesh between its begin, which took [xfer] bytes, and
    its end. *)
Definition read_body (fuel : nat) (cs : list read_case) (end_ : M S Z) (xfer : Z) (o : obj) : M S (Z * option obj) :=
  match o with
  | OStruct ms =>
      chkV (read_members fuel fuel cs xfer (start_members (map c_field cs) ms)) (fun xfer ms =>
      chk end_ (fun ret =>
        if all_required (map c_field cs) ms then mret (i32 (xfer + ret), Some (OStruct ms)) else mret (-1, None)))
  | _ => undefined
  end.

(** [read] of a struct. *)
Definition read_struct (fuel : nat) (cs : list read_case) (o : obj) : M S (Z * option obj) :=
  r ← readStructBegin;
  if r.1 <? 0 then mret (r.1, None) else read_body fuel cs readStructEnd r.1 o.

Definition read_into_list (ty : ttype) (rd : obj -> M S (Z * option obj)) (acc : list obj) : M S (Z * option (list obj)) :=
  built (fun o => acc ++ [o]) (read_element ty (rd (default_obj ty))).
Definition read_into_set (ty : ttype) (rd : obj -> M S (Z * option obj)) (acc : list obj) : M S (Z * option (list obj)) :=
  built (fun o => set_insert o acc) (read_element ty (rd (default_obj ty))).
Definition read_into_map (kty vty : ttype) (rk rv : obj -> M S (Z * option obj)) (acc : list (obj * obj))
    : M S (Z * option (list (obj * obj))) :=
  chkV (read_element kty (rk (default_obj kty))) (fun n k =>
  chkV (read_element vty (rv (map_slot k (default_obj vty) acc))) (fun m v =>
  mret (i32 (n + m), Some (map_put k v acc)))).

(** Reads an object of type [ty] into an object; the types of the elements on the wire
    are read and not looked at. *)
Fixpoint gen_read (fuel : nat) (ty : ttype) : obj -> M S (Z * option obj) :=
  match ty with
  | TBase b => fun _ => built OBase (read_base b)
  | TEnum => fun _ => built OBase (built (VInt T_I32) readI32)
  | TStruct _ ms => read_struct fuel (map (fun m => MkCase m.1 (type_to_enum m.2) (gen_read fuel m.2)) ms)
  | TList e => fun _ =>
      chkV readListBegin (fun ret '(_, size) =>
        built OList (chkV (read_times (read_into_list e (gen_read fuel e)) (Z.to_nat size) ret [])
          (fun xfer l => chk readListEnd (fun ret => mret (i32 (xfer + ret), Some l)))))
  | TSet e => fun _ =>
      chkV readSetBegin (fun ret '(_, size) =>
        built OSet (chkV (read_times (read_into_set e (gen_read fuel e)) (Z.to_nat size) ret [])
          (fun xfer l => chk readSetEnd (fun ret => mret (i32 (xfer + ret), Some l)))))
  | TMap k v => fun _ =>
      chkV readMapBegin (fun ret '(_, _, size) =>
        built OMap (chkV (read_times (read_into_map k v (gen_read fuel k) (gen_read fuel v)) (Z.to_nat size) ret [])
          (fun xfer l => chk readMapEnd (fun ret => mret (i32 (xfer + ret), Some l)))))
  end.

(** [Read] of a sandesh. *)
Definition gen_Read (fuel : nat) (ms : list (t_field * ttype)) (o : obj) : M S (Z * option obj) :=
  chkV readSandeshBegin (fun ret _ =>
    read_body fuel (map (fun m => MkCase m.1 (type_to_enum m.2) (gen_read fuel m.2)) ms) readSandeshEnd ret o).

(** ** Writing *)
Definition write_base (ty : TType) (v : value) : M S Z :=
  match ty, v with
  | T_BOOL, VBool b => writeBool b
  | T_BYTE, VInt _ z => writeByte z
  | T_I16, VInt _ z => writeI16 z
  | T_I32, VInt _ z => writeI32 z
  | T_I64, VInt _ z => writeI64 z
  | T_U16, VInt _ z => writeU16 z
  | T_U32, VInt _ z => writeU32 z
  | T_U64, VInt _ z => writeU64 z
  | T_IPV4, VInt _ z => writeIPV4 z
  | T_IPADDR, VIp a => writeIPADDR a
  | T_DOUBLE, VDouble bits => writeDouble bits
  | T_STRING, VBytes _ l => writeString l
  | T_XML, VBytes _ l => writeXML l
  | T_UUID, VUuid l => writeUUID l
  | _, _ => undefined
  end.

Definition write_element (ty : ttype) (m : M S Z) : list (M S Z) :=
  if is_simple ty then [writeContainerElementBegin; m; writeContainerElementEnd] else [m].

(** The calls for one member: none if it is optional and not set. *)
Definition write_member (f : t_field) (ty : ttype) (set : bool) (m : M S Z) : list (M S Z) :=
  if bool_decide (get_req f = T_OPTIONAL) && negb set then []
  else [writeFieldBegin (get_name f) (type_to_enum ty) (get_key f) None; m; writeFieldEnd].

(** A struct or a sandesh: its begin, its members, the stop and its end. *)
Definition write_body (begin : M S Z) (members : list (list (M S Z))) (end_ : M S Z) : M S Z :=
  calls ([begin] ++ concat members ++ [writeFieldStop; end_]) 0.

Fixpoint gen_write (ty : ttype) : obj -> M S Z :=
  match ty with
  | TBase b => fun o => match o with OBase v => write_base b v | _ => undefined end
  | TEnum => fun o => match o with OBase v => write_base T_I32 v | _ => undefined end
  | TStruct name ms => fun o =>
      match o with
      | OStruct vs =>
          write_body (writeStructBegin name)
            (zip_with (fun w v => w v) (map (fun m v => write_member m.1 m.2 v.1 (gen_write m.2 v.2)) ms) vs)
            writeStructEnd
      | _ => undefined
      end
  | TList e => fun o =>
      match o with
      | OList l => calls ([writeListBegin (type_to_enum e) (u32 (zlen l))] ++
                          concat (map (fun v => write_element e (gen_write e v)) l) ++ [writeListEnd]) 0
      | _ => undefined
      end
  | TSet e => fun o =>
      match o with
      | OSet l => calls ([writeSetBegin (type_to_enum e) (u32 (zlen l))] ++
                         concat (map (fun v => write_element e (gen_write e v)) l) ++ [writeSetEnd]) 0
      | _ => undefined
      end
  | TMap k v => fun o =>
      match o with
      | OMap l => calls ([writeMapBegin (type_to_enum k) (type_to_enum v) (u32 (zlen l))] ++
                         concat (map (fun kv => write_element k (gen_write k kv.1) ++ write_element v (gen_write v kv.2)) l) ++
                         [writeMapEnd]) 0
      | _ => undefined
      end
  end.
(** [Write] of a sandesh. *)
Definition gen_Write (name : list byte) (ms : list (t_field * ttype)) (o : obj) : M S Z :=
  match o with
  | OStruct vs =>
      write_body (writeSandeshBegin name)
        (zip_with (fun w v => w v) (map (fun m v => write_member m.1 m.2 v.1 (gen_write m.2 v.2)) ms) vs) writeSandeshEnd
  | _ => undefined
  end.

End Code.
End Generated.
