(* ===== verification/GeneratedSpec.v ===== *)
(** * What generated readers make of a message

    [conv] says, without the protocol, which object a reader for one definition makes of
    a value that some other definition may have written: members are found by their
    numbers, those of another type or without a member are skipped, those that do not
    come keep what they had, and a required member must come.  The proofs relate the
    generated code to it, and to [to_value], the value a writer writes. *)

From S2P Require Import Prelude Transport Protocol Wire Binary BinarySpec Generated.
Import TBinaryProtocol Generated.
Local Open Scope Z_scope.

Module GeneratedSpec.

(** Induction on definitions. *)
Lemma ttype_parts_ind (P : ttype -> Prop) :
  (forall b, P (TBase b)) -> P TEnum ->
  (forall n ms, Forall (fun m => P m.2) ms -> P (TStruct n ms)) ->
  (forall e, P e -> P (TList e)) -> (forall e, P e -> P (TSet e)) ->
  (forall k v, P k -> P v -> P (TMap k v)) -> forall ty, P ty.
Proof.
  intros P1 P2 P3 P4 P5 P6. fix IH 1. intros [].
  - apply P1.
  - apply P2.
  - apply P3. induction members; constructor; [apply IH|done].
  - apply P4, IH.
  - apply P5, IH.
  - apply P6; apply IH.
Qed.

Section Spec.
Variable lt : obj -> obj -> bool.

(** ** The reference *)
Record conv_case := MkConv { v_field : t_field; v_type : TType; v_conv : obj -> value -> option obj }.
Definition conv_member (cs : list conv_case) (f : Z * value) (ms : list (bool * obj)) : option (list (bool * obj)) :=
  match find_case (fun c => get_key (v_field c)) f.1 cs with
  | Some (i, c) =>
      if bool_decide (type_of f.2 = v_type c) then
        m ← ms !! i;
        o ← v_conv c m.2 f.2;
        Some (<[i := (true, o)]> ms)
      else Some ms
  | None => Some ms
  end.
Definition conv_body (cs : list conv_case) (fs : list (Z * value)) (o : obj) : option obj :=
  match o with
  | OStruct ms =>
      ms ← foldM (conv_member cs) fs (start_members (map v_field cs) ms);
      if all_required (map v_field cs) ms then Some (OStruct ms) else None
  | _ => None
  end.

Fixpoint conv (ty : ttype) : obj -> value -> option obj :=
  match ty with
  | TBase _ | TEnum => fun _ v => Some (OBase v)
  | TStruct _ ms => fun o v =>
      match v with
      | VStruct fs => conv_body (map (fun m => MkConv m.1 (type_to_enum m.2) (conv m.2)) ms) fs o
      | _ => None
      end
  | TList e => fun _ v =>
      match v with
      | VList _ vs => OList <$> foldM (fun v acc => o ← conv e (default_obj e) v; Some (acc ++ [o])) vs []
      | _ => None
      end
  | TSet e => fun _ v =>
      match v with
      | VSet _ vs => OSet <$> foldM (fun v acc => o ← conv e (default_obj e) v; Some (set_insert lt o acc)) vs []
      | _ => None
      end
  | TMap kt vt => fun _ v =>
      match v with
      | VMap _ _ kvs =>
          OMap <$> foldM (fun kv acc =>
            k ← conv kt (default_obj kt) kv.1;
            v ← conv vt (map_slot lt k (default_obj vt) acc) kv.2;
            Some (map_put lt k v acc)) kvs []
      | _ => None
      end
  end.
Definition conv_sandesh (ms : list (t_field * ttype)) (o : obj) (fs : list (Z * value)) : option obj :=
  conv_body (map (fun m => MkConv m.1 (type_to_enum m.2) (conv m.2)) ms) fs o.

(** ** Values that a reader takes

    In a container, which the reader reads without a look at the type of its elements,
    they must be of the reader's type; a field of another type than its member is
    skipped whatever it is. *)
Definition base_type (ty : TType) : bool :=
  match ty with
  | T_BOOL | T_BYTE | T_I16 | T_I32 | T_I64 | T_U16 | T_U32 | T_U64 | T_IPV4 | T_IPADDR | T_DOUBLE | T_STRING | T_XML
  | T_UUID => true
  | _ => false
  end.
Definition members_compat (cs : list (t_field * TType * (value -> bool))) (fs : list (Z * value)) : bool :=
  forallb (fun f : Z * value =>
    match find_case (fun c : t_field * TType * (value -> bool) => get_key c.1.1) f.1 cs with
    | Some (_, c) => if bool_decide (type_of f.2 = c.1.2) then c.2 f.2 else true
    | None => true
    end) fs.
Fixpoint compat (ty : ttype) : value -> bool :=
  match ty with
  | TBase b => fun v => base_type b && bool_decide (type_of v = b)
  | TEnum => fun v => bool_decide (type_of v = T_I32)
  | TStruct _ ms => fun v =>
      match v with
      | VStruct fs => members_compat (map (fun m => (m.1, type_to_enum m.2, compat m.2)) ms) fs
      | _ => false
      end
  | TList e => fun v =>
      match v with VList ety vs => bool_decide (ety = type_to_enum e) && forallb (compat e) vs | _ => false end
  | TSet e => fun v =>
      match v with VSet ety vs => bool_decide (ety = type_to_enum e) && forallb (compat e) vs | _ => false end
  | TMap k v => fun w =>
      match w with
      | VMap kty vty kvs =>
          bool_decide (kty = type_to_enum k) && bool_decide (vty = type_to_enum v) &&
          forallb (fun kv => compat k kv.1 && compat v kv.2) kvs
      | _ => false
      end
  end.

(** Objects of a type: as many members as the definition, each of its type. *)
Fixpoint shaped (ty : ttype) : obj -> Prop :=
  match ty with
  | TStruct _ ms => fun o =>
      match o with OStruct vs => Forall2 (fun (P : obj -> Prop) (v : bool * obj) => P v.2) (map (fun m => shaped m.2) ms) vs | _ => False end
  | _ => fun _ => True
  end.

Lemma compat_type ty v : compat ty v = true -> type_of v = type_to_enum ty.
Proof. destruct ty; cbn [compat type_to_enum]; intros Hc; zify_bools; try done; by destruct v. Qed.

(** ** Members by number *)
Lemma find_case_map {A B} (g : A -> B) (key : B -> Z) fid l :
  find_case key fid (map g l) = (fun p => (p.1, g p.2)) <$> find_case (fun a => key (g a)) fid l.
Proof.
  induction l as [|a l IH]; [done|]. cbn [map find_case]. destruct (key (g a) =? fid); [done|].
  rewrite IH. by destruct (find_case _ fid l).
Qed.
Lemma find_case_lookup {A} (key : A -> Z) fid l i c :
  find_case key fid l = Some (i, c) -> l !! i = Some c /\ key c = fid.
Proof.
  revert i. induction l as [|a l IH]; intros i E; [done|]. cbn [find_case] in E.
  destruct (Z.eqb_spec (key a) fid) as [Hk|Hk]; [by injection E as <- <-|].
  destruct (find_case key fid l) as [[j c']|] eqn:Ej; [|done]. injection E as <- <-. by apply IH.
Qed.
Lemma find_case_none {A} (key : A -> Z) fid l c : find_case key fid l = None -> In c l -> key c <> fid.
Proof.
  induction l as [|a l IH]; intros E Hin; [done|]. cbn [find_case] in E.
  destruct (Z.eqb_spec (key a) fid) as [Hk|Hk]; [done|]. destruct Hin as [<-|Hin]; [done|].
  apply IH; [|done]. by destruct (find_case key fid l).
Qed.

(** ** Converted objects keep their shape *)
Abbreviation members_shaped ms vs := (Forall2 (fun (m : t_field * ttype) (v : bool * obj) => shaped m.2 v.2) ms vs).
Lemma shaped_struct n ms vs : shaped (TStruct n ms) (OStruct vs) <-> members_shaped ms vs.
Proof. cbn [shaped]. by rewrite Forall2_fmap_l. Qed.

Lemma default_shaped ty : shaped ty (default_obj ty).
Proof.
  induction ty as [| |n ms IH| | |] using ttype_parts_ind; try done.
  cbn [default_obj]. apply shaped_struct. rewrite Forall2_fmap_r. by induction IH; constructor.
Qed.

Lemma start_shaped ms vs : members_shaped ms vs -> members_shaped ms (start_members (map fst ms) vs).
Proof. intros H. induction H as [|m v ms vs Hm _ IH]; constructor; [done|exact IH]. Qed.

Abbreviation conv_cases ms := (map (fun m => MkConv m.1 (type_to_enum m.2) (conv m.2)) ms).

Lemma conv_member_shaped ms f vs vs' :
  Forall (fun m => forall o v o', shaped m.2 o -> conv m.2 o v = Some o' -> shaped m.2 o') ms ->
  members_shaped ms vs -> conv_member (conv_cases ms) f vs = Some vs' -> members_shaped ms vs'.
Proof.
  intros IH Hvs. unfold conv_member. rewrite find_case_map. cbn [v_field].
  destruct (find_case _ f.1 ms) as [[i m]|] eqn:Ei; cbn [fmap option_fmap option_map fst snd v_type v_conv];
    [|by intros [= <-]].
  apply find_case_lookup in Ei as [Hi _]. case_bool_decide; [|by intros [= <-]].
  destruct (Forall2_lookup_l _ _ _ _ _ Hvs Hi) as (v&Ev&Hv). rewrite Ev. cbn [mbind option_bind].
  destruct (conv m.2 v.2 f.2) as [o|] eqn:Eo; [|done]. cbn [mbind option_bind]. intros [= <-].
  rewrite <- (list_insert_id ms i m Hi). apply Forall2_insert; [done|]. cbn [snd].
  eapply Forall_lookup_1 in IH; [|exact Hi]. by eapply IH.
Qed.

Lemma foldM_inv {A B} (f : A -> B -> option B) (P : B -> Prop) l s s' :
  (forall a s s', P s -> f a s = Some s' -> P s') -> P s -> foldM f l s = Some s' -> P s'.
Proof.
  intros Hf. revert s. induction l as [|a l IH]; intros s Hs E; [by injection E as <-|].
  cbn [foldM] in E. destruct (f a s) as [s1|] eqn:E1; [|done]. eapply IH; [by eapply Hf|exact E].
Qed.

Lemma conv_shaped ty : forall o v o', shaped ty o -> conv ty o v = Some o' -> shaped ty o'.
Proof.
  induction ty as [| |n ms IH| | |] using ttype_parts_ind; try done.
  intros o v o' Ho E. cbn [conv] in E. destruct v as [| | | | | |fs| | | |]; try done.
  destruct o as [|vs| | |]; try done. apply shaped_struct in Ho. unfold conv_body in E.
  rewrite map_map in E. cbn [v_field] in E.
  destruct (foldM _ fs _) as [vs'|] eqn:Ef; [|done]. cbn [mbind option_bind] in E.
  destruct (all_required _ vs'); [|done]. injection E as <-. apply shaped_struct.
  eapply (foldM_inv _ (fun vs => members_shaped ms vs)); [|by apply start_shaped|exact Ef].
  intros f s s' Hs Ec. by eapply conv_member_shaped.
Qed.

(** ** The generated readers

    [runs_from m n d r]: in front of [d], with [n] bytes counted before, [m] returns the
    count and the result in [r], or a negative code if there is none. *)
Context `{!Allocator} {T : Type} `{TT : TTransport T} `{TL : !TransportLaws T}.
Abbreviation S := (TBinaryProtocol.t T).

Definition runs_from {A} (m : M S (Z * option A)) (n : Z) (d : list byte) (r : option A) : Prop :=
  match r with
  | Some a => reads_from m n d a
  | None => forall s rest, ready s (d ++ rest) -> 0 <= n -> n + zlen d < 2 ^ 31 ->
      exists c s', m s = Some ((c, None), s') /\ c < 0
  end.

Lemma reads_runs {A} (m : M S (Z * option A)) d a : reads m d a -> runs_from m 0 d (Some a).
Proof. apply reads_from_0. Qed.

Lemma built_runs {A B} (f : A -> B) (m : M S (Z * option A)) n d r :
  runs_from m n d r -> runs_from (built f m) n d (f <$> r).
Proof.
  destruct r as [a|]; [apply built_reads|]. intros Hm s rest Hr Hn0 Hsz.
  destruct (Hm s rest Hr Hn0 Hsz) as (c&s'&E&Hc). exists c, s'. split; [|done].
  unfold built. by rewrite (bind_run _ _ _ _ _ E).
Qed.

Lemma ret_runs {A} n k (a : A) : 0 <= n < 2 ^ 31 -> k = i32 n -> runs_from (mret (k, Some a) : M S _) n [] (Some a).
Proof.
  intros Hn -> s rest Hr _ _. exists s. split; [|done]. unfold mret, M_ret. by rewrite (wrapS_small 32), Z.add_0_r by lia.
Qed.

(** A part that is read first, behind [n1] of the [n] bytes counted. *)
Lemma chkV_runs {A B} (m : M S (Z * option A)) n1 n d ra (k : Z -> A -> M S (Z * option B)) e (f : A -> option B) :
  runs_from m n1 d ra -> 0 <= n1 <= n ->
  (forall a, ra = Some a -> n + zlen d < 2 ^ 31 -> runs_from (k (n1 + zlen d) a) (n + zlen d) e (f a)) ->
  runs_from (chkV m k) n (d ++ e) (ra ≫= f).
Proof.
  intros Hm Hn Hk. destruct ra as [a|]; cbn [mbind option_bind].
  - assert (forall s rest, ready s ((d ++ e) ++ rest) -> n + zlen (d ++ e) < 2 ^ 31 ->
      exists s', chkV m k s = k (n1 + zlen d) a s' /\ ready s' (e ++ rest)) as Hrun.
    { intros s rest Hr Hsz. rewrite <- app_assoc in Hr. rewrite length_app, Nat2Z.inj_add in Hsz.
      destruct (Hm s (e ++ rest) Hr) as (s'&E&Hr'); [lia..|]. exists s'. split; [|done].
      unfold chkV. rewrite (bind_run _ _ _ _ _ E). cbn [fst snd].
      destruct (Z.ltb_spec (n1 + zlen d) 0); [lia|]. done. }
    assert (n + zlen (d ++ e) = (n + zlen d) + zlen e) as El by (rewrite length_app; lia).
    unfold runs_from, reads_from in *. destruct (f a) as [b|] eqn:Ef; intros s rest Hr Hn0 Hsz;
      destruct (Hrun s rest Hr Hsz) as (s1&->&Hr1); specialize (Hk a eq_refl ltac:(lia)); rewrite Ef in Hk;
      rewrite El in *; (apply (Hk s1 rest Hr1); lia).
  - intros s rest Hr Hn0 Hsz. rewrite <- app_assoc in Hr. rewrite length_app, Nat2Z.inj_add in Hsz.
    destruct (Hm s (e ++ rest) Hr) as (c&s'&E&Hc); [lia..|]. exists c, s'. split; [|done].
    unfold chkV. rewrite (bind_run _ _ _ _ _ E). cbn [fst snd]. by destruct (Z.ltb_spec c 0); [|lia].
Qed.

Lemma begin_runs {A B} (m : M S (Z * option A)) d a (k : Z -> A -> M S (Z * option B)) e r :
  reads m d a -> (zlen d < 2 ^ 31 -> runs_from (k (zlen d) a) (zlen d) e r) -> runs_from (chkV m k) 0 (d ++ e) r.
Proof.
  intros Hm Hk. apply (chkV_runs m 0 0 d (Some a) k e (fun _ => r)); [by apply reads_runs|lia|]. by intros a' [= <-].
Qed.

Lemma chk_runs {B} m n d (k : Z -> M S (Z * option B)) e r :
  takes m d -> 0 <= n -> (n + zlen d < 2 ^ 31 -> runs_from (k (zlen d)) (n + zlen d) e r) ->
  runs_from (chk m k) n (d ++ e) r.
Proof.
  intros Hm Hn Hk.
  assert (forall s rest, ready s ((d ++ e) ++ rest) -> n + zlen (d ++ e) < 2 ^ 31 ->
    exists s', chk m k s = k (zlen d) s' /\ ready s' (e ++ rest)) as Hrun.
  { intros s rest Hr Hsz. rewrite <- app_assoc in Hr. rewrite length_app, Nat2Z.inj_add in Hsz.
    destruct (Hm s (e ++ rest) Hr) as (s'&E&Hr'); [lia..|]. exists s'. split; [|done].
    unfold chk. rewrite (bind_run _ _ _ _ _ E). by destruct (Z.ltb_spec (zlen d) 0); [lia|]. }
  assert (n + zlen (d ++ e) = (n + zlen d) + zlen e) as El by (rewrite length_app; lia).
  unfold runs_from, reads_from in *. destruct r as [b|]; intros s rest Hr Hn0 Hsz;
    destruct (Hrun s rest Hr Hsz) as (s1&->&Hr1); specialize (Hk ltac:(lia)); rewrite El in *;
    (apply (Hk s1 rest Hr1); lia).
Qed.
Lemma ret0_takes : takes (mret 0 : M S Z) [].
Proof. intros s rest Hr _. by exists s. Qed.
Lemma chk_ret0_runs {B} n (k : Z -> M S (Z * option B)) e r :
  0 <= n -> (n < 2 ^ 31 -> runs_from (k 0) n e r) -> runs_from (chk (mret 0) k) n e r.
Proof.
  intros Hn Hk. apply (chk_runs _ n [] k e r ret0_takes Hn). cbn [length]. rewrite Z.add_0_r. exact Hk.
Qed.

(** *** Base types, elements, loops *)
Lemma read_base_runs b v :
  base_type b = true -> type_of v = b -> value_ok v = true -> runs_from (built OBase (read_base b)) 0 (encode v) (Some (OBase v)).
Proof.
  intros Hb Et Hv. apply (built_runs OBase _ _ _ (Some v)), reads_runs. pose proof (read_base_reads v 0 Hv) as Hr.
  destruct v as [|ty z|a|bits|ty l|l| | | | |]; cbn [type_of] in *; subst b; try done; destruct ty; done.
Qed.

Lemma read_element_runs ty m d r : runs_from m 0 d r -> runs_from (read_element ty m) 0 d r.
Proof.
  intros Hm. unfold read_element. destruct (is_simple ty); [|done].
  apply chk_ret0_runs; [done|]. intros _.
  rewrite <- (app_nil_r d). replace r with (r ≫= Some) by by destruct r.
  eapply chkV_runs; [exact Hm|done|]. intros a _ Hsz.
  apply chk_ret0_runs; [lia|]. intros _. apply ret_runs; [lia|].
  rewrite !Z.add_0_l, Z.add_0_r. by rewrite !(wrapS_small 32 (zlen d)) by lia.
Qed.

Lemma read_times_runs {A V} (step : A -> M S (Z * option A)) (enc : V -> list byte) (cv : V -> A -> option A) (P : A -> Prop) vs :
  (forall v a a', In v vs -> P a -> cv v a = Some a' -> P a') ->
  (forall v a, In v vs -> P a -> runs_from (step a) 0 (enc v) (cv v a)) ->
  forall n a, 0 <= n -> P a -> runs_from (read_times step (length vs) n a) n (concat (map enc vs)) (foldM cv vs a).
Proof.
  induction vs as [|v vs IH]; intros HP Hs n a Hn Ha; cbn [length read_times map concat foldM].
  - intros s rest Hr _ Hsz. exists s. rewrite Z.add_0_r. done.
  - eapply chkV_runs; [apply Hs; [by left|done]|lia|]. intros a' Ea Hsz. rewrite Z.add_0_l, (wrapS_small 32) by lia.
    apply IH; [| |lia|by eapply HP; [left| |]]; intros; [eapply HP|apply Hs]; try done; by right.
Qed.

(** What follows the loop of a container. *)
Lemma container_runs {A B} (f : A -> B) (m : M S (Z * option A)) n d r :
  runs_from m n d r -> 0 <= n ->
  runs_from (built f (chkV m (fun xfer l => chk (mret 0) (fun ret => mret (i32 (xfer + ret), Some l))))) n d (f <$> r).
Proof.
  intros Hm Hn. apply built_runs. rewrite <- (app_nil_r d). replace r with (r ≫= Some) by by destruct r.
  eapply chkV_runs; [exact Hm|lia|]. intros a _ Hsz. apply chk_ret0_runs; [lia|]. intros _.
  apply ret_runs; [lia|]. by rewrite Z.add_0_r.
Qed.

(** *** Members *)
Abbreviation read_cases fuel ms := (map (fun m => MkCase m.1 (type_to_enum m.2) (gen_read lt fuel m.2)) ms).
Abbreviation compat_cases ms := (map (fun m => (m.1, type_to_enum m.2, compat m.2)) ms).

Lemma skip_field_runs fuel (next : Z -> list (bool * obj) -> M S (Z * option (list (bool * obj)))) x vs v fs r :
  value_ok v = true -> (fuel_for v <= fuel)%nat -> 0 <= x ->
  (x + zlen (encode v) < 2 ^ 31 -> runs_from (next (x + zlen (encode v)) vs) (x + zlen (encode v)) (encode_fields fs) r) ->
  runs_from (chk (skip fuel (type_of v)) (fun ret => chk readFieldEnd (fun ret' => next (i32 (i32 (x + ret) + ret')) vs))) x
    (encode v ++ encode_fields fs) r.
Proof.
  intros Hv Hf Hx Hnext. apply chk_runs; [by apply skip_takes|lia|]. intros Hsz. apply chk_ret0_runs; [lia|]. intros _.
  rewrite Z.add_0_r, (wrapS_small 32), (wrapS_small 32) by (try rewrite (wrapS_small 32); lia). by apply Hnext.
Qed.

Lemma encode_fields_cons f fs :
  encode_fields (f :: fs) = (byte_code (type_of f.2) ++ be_bytes 2 f.1) ++ encode f.2 ++ encode_fields fs.
Proof. unfold encode_fields. cbn [map concat]. unfold encode_field at 1. by rewrite <- !app_assoc. Qed.

Lemma read_members_runs fuel ms :
  Forall (fun m => forall o v, shaped m.2 o -> compat m.2 v = true -> value_ok v = true -> (fuel_for v <= fuel)%nat ->
    runs_from (gen_read lt fuel m.2 o) 0 (encode v) (conv m.2 o v)) ms ->
  forall fs n xfer vs, members_shaped ms vs -> members_compat (compat_cases ms) fs = true ->
  forallb (fun f : Z * value => int_fits 2 true f.1 && value_ok f.2) fs = true ->
  (list_max (map (fun f => fuel_for f.2) fs) <= fuel)%nat -> (length fs < n)%nat -> 0 <= xfer ->
  runs_from (read_members fuel n (read_cases fuel ms) xfer vs) xfer (encode_fields fs)
    (foldM (conv_member (conv_cases ms)) fs vs).
Proof.
  intros IHms. induction fs as [|f fs IH]; intros n xfer vs Hvs Hc Hok Hfuel Hn Hx;
    (destruct n as [|n]; [simpl in Hn; lia|]); cbn [read_members foldM].
  - rewrite <- (app_nil_r (encode_fields [])).
    apply (chkV_runs _ 0 _ _ (Some (T_STOP, 0)) _ [] (fun _ => Some vs)); [apply reads_runs, readFieldBegin_stop|lia|].
    intros a [= <-] Hsz. cbn beta iota zeta. rewrite bool_decide_eq_true_2 by done. apply ret_runs; [lia|]. by rewrite Z.add_0_l.
  - change (list_max (map (fun f => fuel_for f.2) (f :: fs)))
      with (Nat.max (fuel_for f.2) (list_max (map (fun f => fuel_for f.2) fs))) in Hfuel.
    cbn [length forallb] in *. unfold members_compat in Hc. cbn [forallb] in Hc.
    apply andb_true_iff in Hok as [[Hid Hv]%andb_true_iff Hok]. apply andb_true_iff in Hc as [Hcf Hc].
    destruct (value_ok_type f.2 Hv) as [Hd Hns].
    rewrite encode_fields_cons.
    apply (chkV_runs _ 0 _ _ (Some (type_of f.2, f.1)) _ _
      (fun _ => conv_member (conv_cases ms) f vs ≫= foldM (conv_member (conv_cases ms)) fs));
      [by apply reads_runs, readFieldBegin_reads|lia|].
    intros a [= <-] Hsz. cbn beta iota zeta. rewrite bool_decide_eq_false_2 by done.
    set (x := i32 (xfer + _)). assert (x = xfer + zlen (byte_code (type_of f.2) ++ be_bytes 2 f.1)) as Ex.
    { unfold x. rewrite Z.add_0_l. by rewrite (wrapS_small 32) by lia. }
    rewrite <- Ex in *. clearbody x.
    pose proof (skip_field_runs fuel (read_members fuel n (read_cases fuel ms)) x vs f.2 fs _ Hv ltac:(lia) ltac:(lia)
      (fun Hsz2 => IH n (x + zlen (encode f.2)) vs Hvs Hc Hok ltac:(lia) ltac:(lia) ltac:(lia))) as Hskip.
    unfold conv_member at 2. rewrite !find_case_map. rewrite find_case_map in Hcf. cbn [c_field v_field fst] in *.
    destruct (find_case _ f.1 ms) as [[i m]|] eqn:Ei;
      cbn [fmap option_fmap option_map fst snd c_type v_type c_read v_conv] in *; [|exact Hskip].
    case_bool_decide as Ety; [|exact Hskip].
    apply find_case_lookup in Ei as [Hi _]. destruct (Forall2_lookup_l _ _ _ _ _ Hvs Hi) as (v&Ev&Hsv).
    rewrite Ev. cbn [mbind option_bind]. pose proof (Forall_lookup_1 _ _ _ _ IHms Hi v.2 f.2 Hsv Hcf Hv ltac:(lia)) as Hrd.
    replace ((conv m.2 v.2 f.2 ≫= (fun o => Some (<[i:=(true, o)]> vs))) ≫= foldM (conv_member (conv_cases ms)) fs)
      with (conv m.2 v.2 f.2 ≫= (fun o => foldM (conv_member (conv_cases ms)) fs (<[i:=(true, o)]> vs)))
      by by destruct (conv m.2 v.2 f.2).
    change ((get (Some v) ≫= ?k)) with (fun s => k v s). cbn beta.
    eapply chkV_runs; [exact Hrd|lia|]. intros o Eo Hsz2. apply chk_ret0_runs; [lia|]. intros _.
    rewrite Z.add_0_l, Z.add_0_r, (wrapS_small 32), (wrapS_small 32) by (try rewrite (wrapS_small 32); lia).
    apply IH; try done; try lia. rewrite <- (list_insert_id ms i m Hi). apply Forall2_insert; [done|].
    by eapply conv_shaped.
Qed.

Lemma read_body_runs fuel ms fs n o :
  Forall (fun m => forall o v, shaped m.2 o -> compat m.2 v = true -> value_ok v = true -> (fuel_for v <= fuel)%nat ->
    runs_from (gen_read lt fuel m.2 o) 0 (encode v) (conv m.2 o v)) ms ->
  shaped (TStruct [] ms) o -> members_compat (compat_cases ms) fs = true ->
  forallb (fun f : Z * value => int_fits 2 true f.1 && value_ok f.2) fs = true ->
  (Nat.max (Datatypes.S (length fs)) (list_max (map (fun f => fuel_for f.2) fs)) <= fuel)%nat -> 0 <= n ->
  runs_from (read_body fuel (read_cases fuel ms) (mret 0) n o) n (encode_fields fs) (conv_body (conv_cases ms) fs o).
Proof.
  intros IH Ho Hc Hok Hfuel Hn. destruct o as [|vs| | |]; try done. apply shaped_struct in Ho.
  unfold read_body, conv_body. rewrite !map_map. cbn [c_field v_field]. rewrite <- (app_nil_r (encode_fields fs)).
  eapply chkV_runs; [apply (read_members_runs fuel ms IH fs); try done; [by apply start_shaped|lia|lia]|lia|].
  intros vs' _ Hsz. apply chk_ret0_runs; [lia|]. intros _. destruct (all_required _ vs').
  - apply ret_runs; [lia|]. by rewrite Z.add_0_r.
  - intros s rest Hr _ _. by exists (-1), s.
Qed.

(** What one element of a container gives. *)
Lemma part_runs fuel ty o v :
  (forall o v, shaped ty o -> compat ty v = true -> value_ok v = true -> (fuel_for v <= fuel)%nat ->
    runs_from (gen_read lt fuel ty o) 0 (encode v) (conv ty o v)) ->
  shaped ty o -> compat ty v = true -> value_ok v = true -> (fuel_for v <= fuel)%nat ->
  runs_from (read_element ty (gen_read lt fuel ty o)) 0 (encode v) (conv ty o v).
Proof. intros IH Ho Hc Hv Hf. apply read_element_runs. by apply IH. Qed.

Lemma elements_ok ety e vs fuel v :
  forallb (fun v => bool_decide (type_of v = ety) && value_ok v) vs = true -> forallb (compat e) vs = true ->
  (list_max (map fuel_for vs) <= fuel)%nat -> In v vs ->
  compat e v = true /\ value_ok v = true /\ (fuel_for v <= fuel)%nat.
Proof.
  intros Hok Hc Hf Hin. apply forallb_forall with (x := v) in Hok; [|done]. apply forallb_forall with (x := v) in Hc; [|done].
  zify_bools. pose proof (list_max_le_in fuel_for vs v Hin). repeat split; (done || lia).
Qed.

(** A loop that puts what it reads into the elements [acc]. *)
Lemma elements_runs fuel e ety vs (put : obj -> list obj -> list obj) n :
  (forall o v, shaped e o -> compat e v = true -> value_ok v = true -> (fuel_for v <= fuel)%nat ->
    runs_from (gen_read lt fuel e o) 0 (encode v) (conv e o v)) ->
  forallb (fun v => bool_decide (type_of v = ety) && value_ok v) vs = true -> forallb (compat e) vs = true ->
  (list_max (map fuel_for vs) <= fuel)%nat -> 0 <= n ->
  runs_from (read_times (fun acc => built (fun o => put o acc) (read_element e (gen_read lt fuel e (default_obj e))))
      (Z.to_nat (zlen vs)) n []) n (concat (map encode vs))
    (foldM (fun v acc => o ← conv e (default_obj e) v; Some (put o acc)) vs []).
Proof.
  intros IH Hok Hc Hf Hn. rewrite Nat2Z.id. apply (read_times_runs _ encode _ (fun _ => True)); [done| |done|done].
  intros v acc Hin _. destruct (elements_ok ety e vs fuel v Hok Hc Hf Hin) as (?&?&?).
  apply (built_runs (fun o => put o acc)). by apply part_runs; [|apply default_shaped|..].
Qed.

Abbreviation slots_shaped ty acc := (Forall (fun kv : obj * obj => shaped ty kv.2) acc).
Lemma map_slot_shaped ty k d acc : shaped ty d -> slots_shaped ty acc -> shaped ty (map_slot lt k d acc).
Proof.
  intros Hd Ha. induction Ha as [|[k' v] acc Hv _ IH]; [done|]. cbn [map_slot].
  destruct (lt k k'); [done|]. by destruct (lt k' k).
Qed.
Lemma map_put_shaped ty k v acc : shaped ty v -> slots_shaped ty acc -> slots_shaped ty (map_put lt k v acc).
Proof.
  intros Hd Ha. induction Ha as [|[k' v'] acc Hv Ha IH]; [by constructor|]. cbn [map_put].
  destruct (lt k k'); [by repeat constructor|]. destruct (lt k' k); by constructor.
Qed.

(** The readers agree with the reference. *)
Lemma gen_read_runs fuel ty : forall o v, shaped ty o -> compat ty v = true -> value_ok v = true -> (fuel_for v <= fuel)%nat ->
  runs_from (gen_read lt fuel ty o) 0 (encode v) (conv ty o v).
Proof.
  induction ty as [b| |name ms IH|e IH|e IH|k v IHk IHv] using ttype_parts_ind; intros o w Ho Hc Hw Hf.
  - cbn [compat] in Hc. zify_bools. by apply read_base_runs.
  - cbn [compat] in Hc. zify_bools. pose proof (read_base_runs T_I32 w eq_refl Hc Hw) as Hb. exact Hb.
  - cbn [compat gen_read conv] in *. destruct w as [| | | | | |fs| | | |]; try done. cbn [value_ok fuel_for] in *.
    apply (read_body_runs fuel ms fs 0 o IH); (done || lia).
  - cbn [compat gen_read conv] in *. destruct w as [| | | | | | | |ety vs| |]; try done. cbn [value_ok fuel_for encode] in *.
    zify_bools. rewrite app_assoc.
    apply (begin_runs _ _ (ety, zlen vs)); [apply elements_begin_reads; (done || lia)|]. intros Hsz. apply (container_runs OList); [|lia]. eapply (elements_runs fuel e ety vs (fun o acc => acc ++ [o])); (done || lia).
  - cbn [compat gen_read conv] in *. destruct w as [| | | | | | | | |ety vs|]; try done. cbn [value_ok fuel_for encode] in *.
    zify_bools. rewrite app_assoc.
    apply (begin_runs _ _ (ety, zlen vs)); [apply elements_begin_reads; (done || lia)|]. intros Hsz. apply (container_runs OSet); [|lia]. eapply (elements_runs fuel e ety vs (set_insert lt)); (done || lia).
  - cbn [compat gen_read conv] in *. destruct w as [| | | | | | | | | |kty vty kvs]; try done. cbn [value_ok fuel_for encode] in *.
    zify_bools. rewrite (app_assoc (byte_code vty)), (app_assoc (byte_code kty)).
    apply (begin_runs _ _ (kty, vty, zlen kvs)); [apply readMapBegin_reads; (done || lia)|]. intros Hsz. apply (container_runs OMap); [|lia]. rewrite Nat2Z.id.
    match goal with Hok : forallb _ kvs = true, Hcs : forallb _ kvs = true |- _ => rename Hok into Hvals; rename Hcs into Hcomp end.
    apply (read_times_runs _ (fun kv => encode kv.1 ++ encode kv.2) _ (fun acc => slots_shaped v acc)); [| |lia|constructor].
    + intros kv acc acc' _ Hacc E. destruct (conv k _ kv.1) as [ko|]; [|done]. cbn [mbind option_bind] in E.
      destruct (conv v _ kv.2) as [vo|] eqn:Ev; [|done]. injection E as <-. apply map_put_shaped; [|done].
      eapply conv_shaped; [|exact Ev]. apply map_slot_shaped; [apply default_shaped|done].
    + intros kv acc Hin Hacc. apply forallb_forall with (x := kv) in Hvals; [|done].
      apply forallb_forall with (x := kv) in Hcomp; [|done].
      pose proof (list_max_le_in (fun kv => Nat.max (fuel_for kv.1) (fuel_for kv.2)) kvs kv Hin).
      zify_bools. cbn beta in *.
      eapply (chkV_runs _ 0 0); [apply part_runs; [exact IHk|apply default_shaped|done|done|lia]|lia|].
      intros ko _ Hs1. rewrite <- (app_nil_r (encode kv.2)).
      eapply (chkV_runs _ 0); [apply part_runs; [exact IHv|apply map_slot_shaped; [apply default_shaped|done]|done|done|lia]|lia|].
      intros vo _ Hs2. apply ret_runs; [lia|]. by rewrite !Z.add_0_l.
Qed.

Lemma gen_Read_runs fuel ms o name fs :
  shaped (TStruct [] ms) o -> members_compat (compat_cases ms) fs = true -> value_ok (VSandesh name fs) = true ->
  (fuel_for (VSandesh name fs) <= fuel)%nat ->
  runs_from (gen_Read lt fuel ms o) 0 (encode (VSandesh name fs)) (conv_sandesh ms o fs).
Proof.
  intros Ho Hc Hv Hf. cbn [value_ok fuel_for] in *. zify_bools.
  apply (begin_runs _ _ name _ (encode_fields fs)); [by apply readString_reads|]. intros Hsz. apply read_body_runs; try done; try lia. apply Forall_forall. intros m _. apply gen_read_runs.
Qed.
End Spec.
End GeneratedSpec.
