(* ===== verification/GeneratedWrite.v ===== *)
(** * What generated writers write, and what a reader of another version gets

    [to_value] is the value that the code generated for a definition writes for an
    object, and [received] the object that the code generated for the same definition
    reads back: members that were written are set, optional members that were not have
    their default.  [carried] is what a reader generated from another version of the
    definition finds in one of its members. *)

From stdpp Require Import sorting.
From S2P Require Import Prelude Transport Protocol Wire Binary BinarySpec Generated GeneratedSpec.
Import TBinaryProtocol Generated GeneratedSpec.
Local Open Scope Z_scope.

Module GeneratedWrite.

(** ** The values of objects *)

(** [__isset] is looked at for optional members only. *)
Definition written (f : t_field) (set : bool) : bool := negb (bool_decide (get_req f = T_OPTIONAL) && negb set).

Fixpoint to_value (ty : ttype) : obj -> value :=
  match ty with
  | TBase _ | TEnum => fun o => match o with OBase v => v | _ => VBool false end
  | TStruct _ ms => fun o =>
      match o with
      | OStruct vs =>
          VStruct (concat (zip_with (fun w v => w v)
            (map (fun m (v : bool * obj) => if written m.1 v.1 then [(get_key m.1, to_value m.2 v.2)] else []) ms) vs))
      | _ => VStruct []
      end
  | TList e => fun o => match o with OList l => VList (type_to_enum e) (map (to_value e) l) | _ => VList T_STOP [] end
  | TSet e => fun o => match o with OSet l => VSet (type_to_enum e) (map (to_value e) l) | _ => VSet T_STOP [] end
  | TMap k v => fun o =>
      match o with
      | OMap l => VMap (type_to_enum k) (type_to_enum v) (map (fun kv => (to_value k kv.1, to_value v kv.2)) l)
      | _ => VMap T_STOP T_STOP []
      end
  end.

Fixpoint received (ty : ttype) : obj -> obj :=
  match ty with
  | TBase _ | TEnum => fun o => o
  | TStruct _ ms => fun o =>
      match o with
      | OStruct vs =>
          OStruct (zip_with (fun w v => w v)
            (map (fun m (v : bool * obj) => if written m.1 v.1 then (true, received m.2 v.2) else (false, default_obj m.2)) ms) vs)
      | _ => o
      end
  | TList e => fun o => match o with OList l => OList (map (received e) l) | _ => o end
  | TSet e => fun o => match o with OSet l => OSet (map (received e) l) | _ => o end
  | TMap k v => fun o => match o with OMap l => OMap (map (fun kv => (received k kv.1, received v kv.2)) l) | _ => o end
  end.

(** The fields of a struct or a sandesh, member by member. *)
Abbreviation pairs := (list ((t_field * ttype) * (bool * obj))).
Definition field_of (p : (t_field * ttype) * (bool * obj)) : list (Z * value) :=
  if written p.1.1 p.2.1 then [(get_key p.1.1, to_value p.1.2 p.2.2)] else [].
Definition fields_of (ps : pairs) : list (Z * value) := concat (map field_of ps).
Definition received_member (p : (t_field * ttype) * (bool * obj)) : bool * obj :=
  if written p.1.1 p.2.1 then (true, received p.1.2 p.2.2) else (false, default_obj p.1.2).

(** What a member [m] of the reader holds after it reads a message with the members [ps]. *)
Definition key_of (p : (t_field * ttype) * (bool * obj)) : Z := get_key p.1.1.
Definition carried (ps : pairs) (m : t_field * ttype) : bool * obj :=
  match find_case key_of (get_key m.1) ps with
  | Some (_, p) =>
      if written p.1.1 p.2.1 && bool_decide (type_to_enum p.1.2 = type_to_enum m.2) then (true, received m.2 p.2.2)
      else (false, default_obj m.2)
  | None => (false, default_obj m.2)
  end.

(** ** Definitions that the compiler accepts: types that can be members, numbers that
    fit and are not used twice *)
Definition keys_ok (ms : list (t_field * ttype)) : Prop :=
  NoDup (map (fun m => get_key m.1) ms) /\ Forall (fun m => int_fits 2 true (get_key m.1) = true) ms.
Fixpoint type_ok (ty : ttype) : Prop :=
  match ty with
  | TBase b => base_type b = true
  | TEnum => True
  | TStruct _ ms => keys_ok ms /\ Forall id (map (fun m => type_ok m.2) ms)
  | TList e | TSet e => type_ok e
  | TMap k v => type_ok k /\ type_ok v
  end.

Section Objects.
Variable lt : obj -> obj -> bool.
Definition before (a b : obj) : Prop := lt a b = true /\ lt b a = false.

(** ** Objects of a type: values in range, sizes below 2^31, elements and keys in
    increasing order *)
Fixpoint typed (ty : ttype) : obj -> Prop :=
  match ty with
  | TBase b => fun o => match o with OBase v => type_of v = b /\ value_ok v = true | _ => False end
  | TEnum => fun o => match o with OBase v => type_of v = T_I32 /\ value_ok v = true | _ => False end
  | TStruct _ ms => fun o =>
      match o with OStruct vs => Forall2 (fun (P : obj -> Prop) (v : bool * obj) => P v.2) (map (fun m => typed m.2) ms) vs | _ => False end
  | TList e => fun o => match o with OList l => zlen l < 2 ^ 31 /\ Forall (typed e) l | _ => False end
  | TSet e => fun o =>
      match o with
      | OSet l => zlen l < 2 ^ 31 /\ Forall (typed e) l /\ StronglySorted before (map (received e) l)
      | _ => False
      end
  | TMap k v => fun o =>
      match o with
      | OMap l => zlen l < 2 ^ 31 /\ Forall (fun kv => typed k kv.1 /\ typed v kv.2) l /\
                  StronglySorted before (map (fun kv => received k kv.1) l)
      | _ => False
      end
  end.

Definition pair_typed (p : (t_field * ttype) * (bool * obj)) : Prop := typed p.1.2 p.2.2.

Lemma zip_apply {A B C} (f : A -> B -> C) l k : zip_with (fun w v => w v) (map f l) k = map (fun p => f p.1 p.2) (zip l k).
Proof. revert k. induction l as [|a l IH]; intros [|b k]; [done..|]. cbn. f_equal. apply IH. Qed.

Lemma to_value_struct n ms vs : to_value (TStruct n ms) (OStruct vs) = VStruct (fields_of (zip ms vs)).
Proof. cbn [to_value]. by rewrite zip_apply. Qed.
Lemma received_struct n ms vs : received (TStruct n ms) (OStruct vs) = OStruct (map received_member (zip ms vs)).
Proof. cbn [received]. by rewrite zip_apply. Qed.
Lemma typed_struct n ms vs :
  typed (TStruct n ms) (OStruct vs) <-> length ms = length vs /\ Forall pair_typed (zip ms vs).
Proof.
  cbn [typed]. rewrite Forall2_fmap_l. split.
  - intros H. induction H as [|m v ms vs Hm _ [IH1 IH2]]; [done|]. split; [cbn; by rewrite IH1|by constructor].
  - intros [Hl Hp]. revert vs Hl Hp. induction ms as [|m ms IH]; intros [|v vs] Hl Hp; try done.
    cbn in Hp. apply Forall_cons_iff in Hp as [Hm Hp]. constructor; [done|]. apply IH; [by injection Hl|done].
Qed.

Lemma to_value_type ty o : typed ty o -> type_of (to_value ty o) = type_to_enum ty.
Proof. destruct ty; destruct o; try done; by intros []. Qed.
Lemma type_declared ty : type_ok ty -> declared (type_to_enum ty) = true.
Proof. destruct ty as [b| | | | |]; try done. cbn [type_ok type_to_enum]. by destruct b. Qed.

Lemma members_typed ms (P : t_field * ttype -> Prop) (vs : list (bool * obj)) :
  Forall P ms -> Forall (fun p => P p.1) (zip ms vs).
Proof.
  intros H. revert vs. induction H as [|m ms Hm _ IH]; intros [|v vs]; constructor; [done|apply IH].
Qed.
Lemma type_ok_members (ms : list (t_field * ttype)) : Forall id (map (fun m => type_ok m.2) ms) -> Forall (fun m => type_ok m.2) ms.
Proof. by rewrite Forall_fmap. Qed.

Lemma fields_of_ok ps :
  Forall (fun p => int_fits 2 true (get_key p.1.1) = true /\ value_ok (to_value p.1.2 p.2.2) = true) ps ->
  forallb (fun f : Z * value => int_fits 2 true f.1 && value_ok f.2) (fields_of ps) = true.
Proof.
  intros H. apply forallb_forall. intros f Hf. unfold fields_of in Hf. apply in_concat in Hf as (fs&Hfs&Hf).
  apply in_map_iff in Hfs as (p&<-&Hp). rewrite Forall_forall in H. destruct (H p Hp) as [H1 H2].
  unfold field_of in Hf. destruct (written _ _); [|done]. destruct Hf as [<-|[]]. cbn [fst snd]. by rewrite H1, H2.
Qed.

Lemma to_value_ok ty : forall o, type_ok ty -> typed ty o -> value_ok (to_value ty o) = true.
Proof.
  induction ty as [b| |n ms IH|e IH|e IH|k v IHk IHv] using ttype_parts_ind; intros o Hty Ho.
  - by destruct o; try done; destruct Ho.
  - by destruct o; try done; destruct Ho.
  - destruct o as [|vs| | |]; try done. apply typed_struct in Ho as [_ Ho]. rewrite to_value_struct. cbn [value_ok].
    apply fields_of_ok. destruct Hty as [[_ Hkeys] Hms%type_ok_members].
    apply (members_typed ms _ vs) in IH. apply (members_typed ms _ vs) in Hms. apply (members_typed ms _ vs) in Hkeys.
    rewrite Forall_forall in *. intros p Hp. split; [by apply Hkeys|]. apply IH; [done|by apply Hms|by apply Ho].
  - destruct o as [| |l| |]; try done. destruct Ho as [Hlen Hl]. cbn [to_value value_ok type_ok] in *.
    rewrite length_map, type_declared, (proj2 (Z.ltb_lt _ _) Hlen) by done. cbn [andb]. apply forallb_forall.
    intros w (x&<-&Hx)%in_map_iff. rewrite Forall_forall in Hl. by rewrite bool_decide_eq_true_2, IH by eauto using to_value_type.
  - destruct o as [| | |l|]; try done. destruct Ho as (Hlen&Hl&_). cbn [to_value value_ok type_ok] in *.
    rewrite length_map, type_declared, (proj2 (Z.ltb_lt _ _) Hlen) by done. cbn [andb]. apply forallb_forall.
    intros w (x&<-&Hx)%in_map_iff. rewrite Forall_forall in Hl. by rewrite bool_decide_eq_true_2, IH by eauto using to_value_type.
  - destruct o as [| | | |l]; try done. destruct Ho as (Hlen&Hl&_). cbn [to_value value_ok type_ok] in *. destruct Hty as [Hk Hv].
    rewrite length_map, !type_declared, (proj2 (Z.ltb_lt _ _) Hlen) by done. cbn [andb]. apply forallb_forall.
    intros w (x&<-&Hx)%in_map_iff. rewrite Forall_forall in Hl. destruct (Hl x Hx). cbn [fst snd].
    by rewrite !bool_decide_eq_true_2, IHk, IHv by eauto using to_value_type.
Qed.

(** ** Fields by number *)
Lemma fields_of_key ps f : In f (fields_of ps) -> In f.1 (map key_of ps).
Proof.
  intros Hf. apply in_concat in Hf as (fs&Hfs&Hf). apply in_map_iff in Hfs as (p&<-&Hp).
  unfold field_of in Hf. destruct (written _ _); [|done]. destruct Hf as [<-|[]]. by apply (in_map key_of).
Qed.
Lemma find_case_absent {A} (key : A -> Z) k l : (forall a, In a l -> key a <> k) -> find_case key k l = None.
Proof.
  induction l as [|a l IH]; intros H; [done|]. cbn [find_case].
  destruct (Z.eqb_spec (key a) k) as [E|_]; [by destruct (H a (or_introl eq_refl))|].
  rewrite IH; [done|]. intros b Hb. apply H. by right.
Qed.
Lemma fields_of_keys ps : NoDup (map key_of ps) -> NoDup (map fst (fields_of ps)).
Proof.
  induction ps as [|p ps IH]; intros Hnd; [constructor|]. cbn [map] in Hnd. apply list.NoDup_cons in Hnd as [Hp Hnd].
  unfold fields_of. cbn [map concat]. unfold field_of at 1. destruct (written _ _); [|by apply IH].
  cbn [app map fst]. apply list.NoDup_cons. split; [|by apply IH].
  intros (f&E&Hf)%list_elem_of_In%in_map_iff. apply Hp, list_elem_of_In. unfold key_of at 1. rewrite <- E.
  by apply fields_of_key in Hf.
Qed.

Lemma fields_lookup ps k : NoDup (map key_of ps) ->
  snd <$> find_case fst k (fields_of ps) =
  match find_case key_of k ps with
  | Some (_, p) => if written p.1.1 p.2.1 then Some (k, to_value p.1.2 p.2.2) else None
  | None => None
  end.
Proof.
  induction ps as [|p ps IH]; intros Hnd; [done|]. cbn [map] in Hnd. apply list.NoDup_cons in Hnd as [Hp Hnd].
  specialize (IH Hnd). unfold fields_of. cbn [map concat find_case]. unfold field_of at 1. fold (fields_of ps).
  destruct (Z.eqb_spec (key_of p) k) as [E|E].
  - destruct (written p.1.1 p.2.1).
    + cbn [app find_case fst]. unfold key_of in E. by rewrite E, Z.eqb_refl.
    + cbn [app]. rewrite find_case_absent; [done|]. intros f Hf Ef. apply Hp, list_elem_of_In.
      rewrite E, <- Ef. by apply fields_of_key.
  - destruct (find_case key_of k ps) as [[j q]|]; destruct (written p.1.1 p.2.1); cbn [app find_case fst fmap option_fmap option_map snd] in *;
      try (unfold key_of in E; rewrite (proj2 (Z.eqb_neq _ _) E)); rewrite <- IH; by destruct (find_case _ k (fields_of ps)).
Qed.

(** ** What each member of a reader gets *)
Abbreviation case_key := (fun c : conv_case => get_key (v_field c)).
Definition pick (c : conv_case) (m : bool * obj) (fs : list (Z * value)) : option (bool * obj) :=
  match snd <$> find_case fst (case_key c) fs with
  | Some f => if bool_decide (type_of f.2 = v_type c) then pair true <$> v_conv c m.2 f.2 else Some m
  | None => Some m
  end.

Lemma pick_other c m f fs : case_key c <> f.1 -> pick c m (f :: fs) = pick c m fs.
Proof.
  intros Hk. unfold pick. cbn [find_case]. rewrite (proj2 (Z.eqb_neq _ _)) by done.
  by destruct (find_case fst _ fs).
Qed.
Lemma pick_absent c m fs : case_key c ∉ map fst fs -> pick c m fs = Some m.
Proof.
  intros Hk. unfold pick. rewrite find_case_absent; [done|]. intros f Hf Ef. apply Hk, list_elem_of_In.
  rewrite <- Ef. by apply in_map.
Qed.
Lemma lookup_map {A B} (f : A -> B) l i : map f l !! i = f <$> l !! i.
Proof. apply list_lookup_fmap. Qed.
Lemma nodup_key {A} (key : A -> Z) l i j a b :
  NoDup (map key l) -> l !! i = Some a -> l !! j = Some b -> key a = key b -> i = j.
Proof.
  intros Hnd Hi Hj E. apply (NoDup_lookup _ i j (key a) Hnd); [|rewrite E]; by apply list_lookup_fmap_Some_2.
Qed.

Lemma conv_members_pick cs vs' : NoDup (map case_key cs) -> length vs' = length cs -> forall fs vs,
  NoDup (map fst fs) -> length vs = length cs ->
  (forall i c m, cs !! i = Some c -> vs !! i = Some m -> pick c m fs = vs' !! i) ->
  foldM (conv_member cs) fs vs = Some vs'.
Proof.
  intros Hcs Hlen'. induction fs as [|f fs IH]; intros vs Hnd Hlen Hp; cbn [foldM].
  - f_equal. apply list_eq_same_length with (length cs); [done..|]. intros i v v' Hi Hv Hv'.
    destruct (lookup_lt_is_Some_2 cs i Hi) as [c Hc]. specialize (Hp i c v Hc Hv). rewrite Hv' in Hp. by injection Hp.
  - cbn [map] in Hnd. apply list.NoDup_cons in Hnd as [Hf Hnd]. unfold conv_member at 2.
    destruct (find_case case_key f.1 cs) as [[i c]|] eqn:Ei.
    + apply find_case_lookup in Ei as [Hi Ek]. destruct (lookup_lt_is_Some_2 vs i) as [m Hm];
        [rewrite Hlen; by eapply lookup_lt_Some|].
      pose proof (Hp i c m Hi Hm) as Hpi. unfold pick in Hpi. cbn [find_case] in Hpi.
      rewrite Ek, Z.eqb_refl in Hpi. cbn [fmap option_fmap option_map snd] in Hpi.
      destruct (lookup_lt_is_Some_2 vs' i) as [m' Hm']; [rewrite Hlen'; by eapply lookup_lt_Some|]. rewrite Hm' in Hpi.
      case_bool_decide.
      * rewrite Hm. cbn [mbind option_bind]. destruct (v_conv c m.2 f.2) as [o|]; [|done]. injection Hpi as <-.
        cbn [mbind option_bind]. apply IH; [done|by rewrite length_insert|]. intros j c' m' Hj Hm2.
        destruct (decide (i = j)) as [<-|Hij].
        -- rewrite list_lookup_insert_eq in Hm2 by (rewrite Hlen; by eapply lookup_lt_Some). injection Hm2 as <-.
           rewrite Hm'. rewrite Hi in Hj. injection Hj as <-. apply pick_absent. by rewrite Ek.
        -- rewrite list_lookup_insert_ne in Hm2 by done. rewrite <- (Hp j c' m' Hj Hm2). symmetry. apply pick_other.
           intros E. apply Hij. eapply (nodup_key case_key); [done..|congruence].
      * cbn [mbind option_bind]. injection Hpi as <-. apply IH; [done..|]. intros j c' m' Hj Hm2.
        destruct (decide (i = j)) as [<-|Hij].
        -- rewrite Hi in Hj. injection Hj as <-. rewrite Hm in Hm2. injection Hm2 as <-. rewrite Hm'.
           apply pick_absent. by rewrite Ek.
        -- rewrite <- (Hp j c' m' Hj Hm2). symmetry. apply pick_other.
           intros E. apply Hij. eapply (nodup_key case_key); [done..|congruence].
    + cbn [mbind option_bind]. apply IH; [done..|]. intros j c' m' Hj Hm. rewrite <- (Hp j c' m' Hj Hm). symmetry.
      apply pick_other. apply (find_case_none _ _ _ _ Ei). apply list_elem_of_In. by eapply list_elem_of_lookup_2.
Qed.

Abbreviation conv_cases ms := (map (fun m => MkConv m.1 (type_to_enum m.2) (conv lt m.2)) ms).
Abbreviation member_keys ms := (map (fun m : t_field * ttype => get_key m.1) ms).

Lemma start_default (ms : list (t_field * ttype)) :
  start_members (map fst ms) (map (fun m => (false, default_obj m.2)) ms) = map (fun m => (false, default_obj m.2)) ms.
Proof. induction ms as [|m ms IH]; [done|]. cbn. rewrite <- IH at 2. by destruct (required m.1). Qed.

Lemma all_required_members (g : t_field * ttype -> bool * obj) ms :
  all_required (map fst ms) (map g ms) = forallb (fun m => negb (required m.1) || (g m).1) ms.
Proof. unfold all_required. induction ms as [|m ms IH]; [done|]. cbn. by rewrite IH. Qed.

(** The required members of a reader with the members [ms] came. *)
Definition complete (ps : list ((t_field * ttype) * (bool * obj))) (ms : list (t_field * ttype)) : bool :=
  forallb (fun m => negb (required m.1) || (carried ps m).1) ms.
Lemma complete_all ps ms :
  (forall m, In m ms -> required m.1 = true -> (carried ps m).1 = true) -> complete ps ms = true.
Proof.
  intros Hreq. apply forallb_forall. intros m Hm. destruct (required m.1) eqn:E; [by rewrite Hreq|done].
Qed.

(** A reader with the members [ms] in front of the fields of another version. *)
Lemma conv_carried n ms ps :
  NoDup (member_keys ms) -> NoDup (map key_of ps) -> Forall pair_typed ps ->
  (forall m p, In m ms -> In p ps -> key_of p = get_key m.1 -> type_to_enum p.1.2 = type_to_enum m.2 ->
     conv lt m.2 (default_obj m.2) (to_value p.1.2 p.2.2) = Some (received m.2 p.2.2)) ->
  conv_body (conv_cases ms) (fields_of ps) (default_obj (TStruct n ms)) =
    if complete ps ms then Some (OStruct (map (carried ps) ms)) else None.
Proof.
  intros Hms Hps Htyped Hconv. cbn [default_obj]. unfold conv_body. rewrite map_map. cbn [v_field].
  rewrite start_default, (conv_members_pick _ (map (carried ps) ms)).
  - cbn [mbind option_bind]. by rewrite all_required_members.
  - rewrite map_map. exact Hms.
  - by rewrite !length_map.
  - by apply fields_of_keys.
  - by rewrite !length_map.
  - intros i c v Hc Hv. rewrite lookup_map in Hc. rewrite lookup_map in Hv. rewrite lookup_map. destruct (ms !! i) as [m|] eqn:Hi; [|done].
    injection Hc as <-. injection Hv as <-. cbn [fmap option_fmap option_map]. unfold pick, carried. cbn [v_field v_type v_conv].
    rewrite (fields_lookup ps _ Hps). destruct (find_case key_of _ ps) as [[j p]|] eqn:Ej; [|done].
    apply find_case_lookup in Ej as [Hj Ek]. destruct (written p.1.1 p.2.1); [|done]. cbn [snd andb].
    assert (In p ps) as Hp by (apply list_elem_of_In; by eapply list_elem_of_lookup_2).
    assert (In m ms) as Hm by (apply list_elem_of_In; by eapply list_elem_of_lookup_2).
    rewrite to_value_type by (by eapply Forall_forall in Htyped). case_bool_decide; [|done].
    by rewrite (Hconv m p).
Qed.

(** *** The same definition on both sides *)
Lemma carried_same ps p : NoDup (map key_of ps) -> In p ps -> carried ps p.1 = received_member p.
Proof.
  intros Hnd Hp. unfold carried. destruct (find_case key_of (get_key p.1.1) ps) as [[i q]|] eqn:Ei.
  - apply find_case_lookup in Ei as [Hi Ek]. apply list_elem_of_In, list_elem_of_lookup_1 in Hp as [j Hj].
    rewrite (nodup_key key_of ps i j q p Hnd Hi Hj Ek) in Hi. rewrite Hj in Hi. injection Hi as ->.
    rewrite bool_decide_eq_true_2, andb_true_r by done. done.
  - by destruct (find_case_none _ _ _ _ Ei Hp).
Qed.

Lemma zip_fst {A B} (l : list A) (k : list B) : length l = length k -> map fst (zip l k) = l.
Proof. revert k. induction l as [|a l IH]; intros [|b k] E; try done. cbn. f_equal. apply IH. by injection E. Qed.

Lemma conv_same n ms vs :
  NoDup (member_keys ms) -> typed (TStruct n ms) (OStruct vs) ->
  Forall (fun m => forall o, typed m.2 o -> conv lt m.2 (default_obj m.2) (to_value m.2 o) = Some (received m.2 o)) ms ->
  conv_body (conv_cases ms) (fields_of (zip ms vs)) (default_obj (TStruct n ms)) = Some (OStruct (map received_member (zip ms vs))).
Proof.
  intros Hms [Hl Ho]%typed_struct IH. set (ps := zip ms vs) in *.
  assert (map fst ps = ms) as Efst by by apply zip_fst.
  assert (NoDup (map key_of ps)) as Hps by (rewrite <- Efst, map_map in Hms; exact Hms).
  assert (map (carried ps) ms = map received_member ps) as <-.
  { rewrite <- Efst, map_map. apply map_ext_in. intros p Hp. by apply carried_same. }
  rewrite conv_carried; [|done..|].
  { rewrite complete_all; [done|]. intros m Hm Hr. rewrite <- Efst in Hm. apply in_map_iff in Hm as (p&<-&Hp).
    rewrite carried_same by done. unfold received_member, written, required in *. zify_bools.
    by rewrite bool_decide_eq_false_2 by congruence. }
  - intros m p Hm Hp Ek _. rewrite Forall_forall in IH, Ho. assert (p.1 = m) as <-.
    { rewrite <- Efst in Hm. apply in_map_iff in Hm as (q&<-&Hq).
      apply list_elem_of_In, list_elem_of_lookup_1 in Hp as [i Hi]. apply list_elem_of_In, list_elem_of_lookup_1 in Hq as [j Hj].
      rewrite (nodup_key key_of ps i j p q Hps Hi Hj Ek) in Hi. congruence. }
    apply IH; [done|]. by apply Ho.
Qed.

(** *** Containers *)
Lemma foldM_append (f : value -> option obj) (g : obj -> obj) (tv : obj -> value) l acc :
  Forall (fun a => f (tv a) = Some (g a)) l ->
  foldM (fun v acc => b ← f v; Some (acc ++ [b])) (map tv l) acc = Some (acc ++ map g l).
Proof.
  intros H. revert acc. induction H as [|a l Ha _ IH]; intros acc; cbn [foldM map]; [by rewrite app_nil_r|].
  rewrite Ha. cbn [mbind option_bind]. by rewrite IH, <- app_assoc.
Qed.
Lemma set_insert_last x acc : Forall (fun y => before y x) acc -> set_insert lt x acc = acc ++ [x].
Proof. induction 1 as [|y acc [H1 H2] _ IH]; [done|]. cbn. by rewrite H2, H1, IH. Qed.
Lemma map_last k d v acc : Forall (fun kv => before kv.1 k) acc ->
  map_slot lt k d acc = d /\ map_put lt k v acc = acc ++ [(k, v)].
Proof.
  induction 1 as [|[k' v'] acc [H1 H2] _ [IH1 IH2]]; [done|]. cbn in *. by rewrite H2, H1, IH1, IH2.
Qed.

Lemma foldM_set (f : value -> option obj) (g : obj -> obj) (tv : obj -> value) l acc :
  Forall (fun a => f (tv a) = Some (g a)) l -> StronglySorted before (acc ++ map g l) ->
  foldM (fun a acc => b ← f a; Some (set_insert lt b acc)) (map tv l) acc = Some (acc ++ map g l).
Proof.
  intros H. revert acc. induction H as [|a l Ha _ IH]; intros acc Hs; cbn [foldM map] in *; [by rewrite app_nil_r|].
  rewrite Ha. cbn [mbind option_bind]. rewrite set_insert_last.
  - rewrite IH, <- app_assoc; [done|]. by rewrite <- app_assoc.
  - apply Forall_forall. intros y Hy. eapply StronglySorted_app_1_elem_of; [exact Hs|by apply list_elem_of_In|by left].
Qed.
Lemma foldM_map_obj (fk : value -> option obj) (fv : obj -> value -> option obj) (gk gv : obj -> obj) (tk tv : obj -> value) d l acc :
  Forall (fun kv => fk (tk kv.1) = Some (gk kv.1) /\ fv d (tv kv.2) = Some (gv kv.2)) l ->
  StronglySorted before (map fst acc ++ map (fun kv => gk kv.1) l) ->
  foldM (fun kv acc => k ← fk kv.1; v ← fv (map_slot lt k d acc) kv.2; Some (map_put lt k v acc))
    (map (fun kv => (tk kv.1, tv kv.2)) l) acc = Some (acc ++ map (fun kv => (gk kv.1, gv kv.2)) l).
Proof.
  intros H. revert acc. induction H as [|a l [Hk Hv] _ IH]; intros acc Hs; cbn [foldM map fst snd] in *; [by rewrite app_nil_r|].
  rewrite Hk. cbn [mbind option_bind]. destruct (map_last (gk a.1) d (gv a.2) acc) as [-> E].
  - apply Forall_forall. intros y Hy. eapply StronglySorted_app_1_elem_of; [exact Hs| |by left].
    apply list_elem_of_In. by apply in_map.
  - rewrite Hv. cbn [mbind option_bind]. rewrite E, IH, <- app_assoc; [done|]. by rewrite map_app, <- app_assoc.
Qed.

(** A reader of the same definition gets what [received] says. *)
Lemma conv_received ty : forall o, type_ok ty -> typed ty o ->
  conv lt ty (default_obj ty) (to_value ty o) = Some (received ty o).
Proof.
  induction ty as [b| |n ms IH|e IH|e IH|k v IHk IHv] using ttype_parts_ind; intros o Hty Ho.
  - by destruct o.
  - by destruct o.
  - destruct o as [|vs| | |]; try done. destruct Hty as [[Hkeys _] Hms%type_ok_members].
    rewrite to_value_struct, received_struct. apply (conv_same n); [done..|].
    rewrite Forall_forall in *. intros m Hm o Hom. apply IH; [done|by apply Hms|done].
  - destruct o as [| |l| |]; try done. destruct Ho as [_ Hl]. cbn [to_value conv received default_obj type_ok] in *.
    rewrite (foldM_append (conv lt e (default_obj e)) (received e) (to_value e) l []); [done|].
    rewrite Forall_forall in *. auto.
  - destruct o as [| | |l|]; try done. destruct Ho as (_&Hl&Hs). cbn [to_value conv received default_obj type_ok] in *.
    rewrite (foldM_set (conv lt e (default_obj e)) (received e) (to_value e) l []); [done| |done].
    rewrite Forall_forall in *. auto.
  - destruct o as [| | | |l]; try done. destruct Ho as (_&Hl&Hs). cbn [to_value conv received default_obj type_ok] in *.
    destruct Hty as [Hk Hv].
    rewrite (foldM_map_obj (conv lt k (default_obj k)) (conv lt v) (received k) (received v) (to_value k) (to_value v) (default_obj v) l []);
      [done| |done].
    rewrite Forall_forall in *. intros kv Hin. destruct (Hl kv Hin). auto.
Qed.

(** ** A reader takes what a writer of the same definition writes *)
Lemma members_compat_fields ms ps :
  Forall pair_typed ps ->
  (forall m p, In m ms -> In p ps -> key_of p = get_key m.1 -> type_to_enum p.1.2 = type_to_enum m.2 ->
     compat m.2 (to_value p.1.2 p.2.2) = true) ->
  members_compat (map (fun m => (m.1, type_to_enum m.2, compat m.2)) ms) (fields_of ps) = true.
Proof.
  intros Ht Hc. apply forallb_forall. intros f Hf. apply in_concat in Hf as (fs&Hfs&Hf).
  apply in_map_iff in Hfs as (p&<-&Hp). unfold field_of in Hf. destruct (written _ _); [|done].
  destruct Hf as [<-|[]]. cbn [fst snd]. rewrite find_case_map. cbn [fst].
  destruct (find_case _ _ ms) as [[i m]|] eqn:Ei; cbn [fmap option_fmap option_map fst snd]; [|done].
  apply find_case_lookup in Ei as [Hi Ek]. rewrite Forall_forall in Ht. rewrite to_value_type by by apply Ht.
  case_bool_decide; [|done]. apply Hc; [|done..]. apply list_elem_of_In. by eapply list_elem_of_lookup_2.
Qed.

Lemma same_member ms vs m p :
  NoDup (member_keys ms) -> length ms = length vs -> In m ms -> In p (zip ms vs) -> key_of p = get_key m.1 -> p.1 = m.
Proof.
  intros Hms Hl Hm Hp Ek. assert (In p.1 ms) as Hp1 by (rewrite <- (zip_fst ms vs Hl); by apply in_map).
  apply list_elem_of_In, list_elem_of_lookup_1 in Hp1 as [i Hi]. apply list_elem_of_In, list_elem_of_lookup_1 in Hm as [j Hj].
  rewrite (nodup_key (fun m : t_field * ttype => get_key m.1) ms i j p.1 m Hms Hi Hj Ek) in Hi. congruence.
Qed.

Lemma to_value_compat ty : forall o, type_ok ty -> typed ty o -> compat ty (to_value ty o) = true.
Proof.
  induction ty as [b| |n ms IH|e IH|e IH|k v IHk IHv] using ttype_parts_ind; intros o Hty Ho; cbn [type_ok] in Hty.
  - destruct o; try done. destruct Ho as [E _]. cbn [to_value compat]. by rewrite Hty, bool_decide_eq_true_2 by done.
  - destruct o; try done. destruct Ho as [E _]. cbn [to_value compat]. by rewrite bool_decide_eq_true_2 by done.
  - destruct o as [|vs| | |]; try done. destruct Hty as [[Hkeys _] Hms%type_ok_members].
    rewrite to_value_struct. cbn [compat]. apply typed_struct in Ho as [Hl Ho]. apply members_compat_fields; [done|].
    intros m p Hm Hp Ek _. pose proof (same_member ms vs m p Hkeys Hl Hm Hp Ek) as <-. rewrite Forall_forall in *.
    apply IH; [done|by apply Hms|by apply Ho].
  - destruct o as [| |l| |]; try done. destruct Ho as [_ Hl]. cbn [to_value compat]. rewrite bool_decide_eq_true_2 by done.
    apply forallb_forall. intros w (x&<-&Hx)%in_map_iff. rewrite Forall_forall in Hl. auto.
  - destruct o as [| | |l|]; try done. destruct Ho as (_&Hl&_). cbn [to_value compat]. rewrite bool_decide_eq_true_2 by done.
    apply forallb_forall. intros w (x&<-&Hx)%in_map_iff. rewrite Forall_forall in Hl. auto.
  - destruct o as [| | | |l]; try done. destruct Ho as (_&Hl&_). cbn [to_value compat]. rewrite !bool_decide_eq_true_2 by done.
    cbn [andb]. apply forallb_forall. intros w (x&<-&Hx)%in_map_iff. rewrite Forall_forall in Hl. destruct (Hl x Hx), Hty. cbn [fst snd].
    by rewrite IHk, IHv.
Qed.

(** ** What a writer emits *)
Lemma concat_flat {A B C} (f : A -> list B) (g : B -> list C) l :
  concat (map g (concat (map f l))) = concat (map (fun a => concat (map g (f a))) l).
Proof. induction l as [|a l IH]; [done|]. cbn. by rewrite map_app, concat_app, IH. Qed.

Section Emits.
Context `{!Allocator} {T : Type} `{TT : TTransport T} `{TL : !TransportLaws T}.
Abbreviation S := (TBinaryProtocol.t T).

(** Calls in a row, and the bytes they emit one after the other. *)
Definition emits_list (ms : list (M S Z)) (d : list byte) : Prop := exists ds, Forall2 emits ms ds /\ concat ds = d.
Lemma emits_list_app ms ns d e : emits_list ms d -> emits_list ns e -> emits_list (ms ++ ns) (d ++ e).
Proof.
  intros (ds&Hm&<-) (es&Hn&<-). exists (ds ++ es). split; [by apply Forall2_app|apply concat_app].
Qed.
Lemma emits_list_cons m ms d e : emits m d -> emits_list ms e -> emits_list (m :: ms) (d ++ e).
Proof. intros Hm (es&Hn&<-). exists (d :: es). split; [by constructor|done]. Qed.
Lemma emits_list_nil : emits_list [] [].
Proof. by exists []. Qed.
Lemma emits_list_end ms d (last : M S Z) : emits_list ms d -> emits last [] -> emits_list (ms ++ [last]) d.
Proof.
  intros Hm Hl. rewrite <- (app_nil_r d). apply emits_list_app; [done|].
  exists [[]]. by repeat constructor.
Qed.
Lemma emits_list_concat {A} (f : A -> list (M S Z)) (g : A -> list byte) l :
  Forall (fun a => emits_list (f a) (g a)) l -> emits_list (concat (map f l)) (concat (map g l)).
Proof. induction 1; [apply emits_list_nil|]. cbn. by apply emits_list_app. Qed.
Lemma emits_list_calls ms d : emits_list ms d -> emits (calls ms 0) d.
Proof. intros (ds&Hm&<-). by apply calls_emits. Qed.

Lemma write_element_emits ty m d : emits m d -> emits_list (write_element ty m) d.
Proof.
  intros Hm. unfold write_element. destruct (is_simple ty); [exists [[]; d; []]|exists [d]].
  - split; [repeat constructor; [apply ret_emits|done|apply ret_emits]|]. cbn. by rewrite app_nil_r.
  - split; [by constructor|]. cbn. by rewrite app_nil_r.
Qed.

Lemma write_member_emits p (m : M S Z) :
  emits m (encode (to_value p.1.2 p.2.2)) -> pair_typed p ->
  emits_list (write_member p.1.1 p.1.2 p.2.1 m) (concat (map encode_field (field_of p))).
Proof.
  intros Hm Hp. unfold write_member, field_of, written. destruct (_ && _); [apply emits_list_nil|]. cbn [negb map concat].
  rewrite app_nil_r. unfold encode_field. cbn [fst snd]. rewrite to_value_type by done.
  exists [byte_code (type_to_enum p.1.2) ++ be_bytes 2 (get_key p.1.1); encode (to_value p.1.2 p.2.2); []].
  split; [|cbn [concat]; by rewrite app_nil_r, <- app_assoc]. repeat constructor; [|done|apply ret_emits].
  apply (header_emits _ [byte_code (type_to_enum p.1.2); be_bytes 2 (get_key p.1.1)]); [|cbn [concat]; by rewrite app_nil_r].
  repeat constructor; [apply write_code_emits|]. apply emit_emits. by rewrite length_be_bytes.
Qed.

Lemma write_members_emits ms vs (first last : M S Z) d :
  emits first d -> emits last [] -> Forall pair_typed (zip ms vs) ->
  Forall (fun p => emits (gen_write p.1.2 p.2.2 : M S Z) (encode (to_value p.1.2 p.2.2))) (zip ms vs) ->
  emits (write_body first (zip_with (fun w v => w v) (map (fun m v => write_member m.1 m.2 v.1 (gen_write m.2 v.2)) ms) vs) last)
    (d ++ encode_fields (fields_of (zip ms vs))).
Proof.
  intros Hf Hl Ht Hw. apply emits_list_calls, emits_list_cons; [done|]. rewrite zip_apply. unfold encode_fields, fields_of.
  apply emits_list_app.
  - rewrite concat_flat. apply emits_list_concat. rewrite Forall_forall in *. intros p Hp. apply write_member_emits; auto.
  - exists [byte_code T_STOP; []]. split; [repeat constructor; [apply write_code_emits|done]|]. done.
Qed.

Lemma write_base_emits b v : type_of v = b -> base_type b = true -> value_ok v = true -> emits (write_base b v : M S Z) (encode v).
Proof.
  intros <- Hb Hv. pose proof (write_value_emits v Hv) as Hw. destruct v; cbn [type_of] in *; try done; by destruct ty.
Qed.
Lemma write_elements_emits ty n : 0 <= n < 2 ^ 31 ->
  emits (writeListBegin ty (u32 n) : M S Z) (byte_code ty ++ count n) /\
  emits (writeSetBegin ty (u32 n) : M S Z) (byte_code ty ++ count n).
Proof. intros Hn. rewrite (wrapU_small 32) by lia. split; apply elements_begin_emits. Qed.

(** The code generated for a definition writes the value of the object. *)
Lemma gen_write_emits ty : forall o, type_ok ty -> typed ty o -> emits (gen_write ty o : M S Z) (encode (to_value ty o)).
Proof.
  induction ty as [b| |n ms IH|e IH|e IH|k v IHk IHv] using ttype_parts_ind; intros o Hty Ho; cbn [type_ok] in Hty.
  - destruct o; try done. destruct Ho. by apply write_base_emits.
  - destruct o; try done. destruct Ho. by apply (write_base_emits T_I32).
  - destruct o as [|vs| | |]; try done. rewrite to_value_struct. apply typed_struct in Ho as [Hl Ho].
    apply (write_members_emits ms vs _ _ []); [apply ret_emits..|done|]. destruct Hty as [_ Hms%type_ok_members].
    apply (members_typed ms _ vs) in IH. apply (members_typed ms _ vs) in Hms. rewrite Forall_forall in *.
    intros p Hp. apply IH; [done|by apply Hms|by apply Ho].
  - destruct o as [| |l| |]; try done. destruct Ho as [Hlen Hl]. cbn [gen_write to_value encode]. rewrite length_map, map_map, (app_assoc (byte_code _)).
    apply emits_list_calls, emits_list_cons; [apply write_elements_emits; lia|].
    apply emits_list_end; [|apply ret_emits].
    apply emits_list_concat. rewrite Forall_forall in *. intros x Hx. apply write_element_emits; auto.
  - destruct o as [| | |l|]; try done. destruct Ho as (Hlen&Hl&_). cbn [gen_write to_value encode]. rewrite length_map, map_map, (app_assoc (byte_code _)).
    apply emits_list_calls, emits_list_cons; [apply write_elements_emits; lia|].
    apply emits_list_end; [|apply ret_emits].
    apply emits_list_concat. rewrite Forall_forall in *. intros x Hx. apply write_element_emits; auto.
  - destruct o as [| | | |l]; try done. destruct Ho as (Hlen&Hl&_). cbn [gen_write to_value encode]. rewrite length_map, map_map.
    rewrite (app_assoc (byte_code (type_to_enum v))), (app_assoc (byte_code (type_to_enum k))).
    apply emits_list_calls, emits_list_cons.
    + rewrite (wrapU_small 32) by lia.
      apply (header_emits _ [byte_code (type_to_enum k); byte_code (type_to_enum v); count (zlen l)]);
        [repeat constructor; [apply write_code_emits..|apply write_count_emits]|cbn [concat]; by rewrite app_nil_r].
    + apply emits_list_end; [|apply ret_emits].
      apply emits_list_concat. rewrite Forall_forall in *. intros x Hx. destruct (Hl x Hx), Hty.
      apply emits_list_app; apply write_element_emits; auto.
Qed.

Lemma gen_Write_emits name ms vs :
  zlen name < 2 ^ 31 -> type_ok (TStruct name ms) -> typed (TStruct name ms) (OStruct vs) ->
  emits (gen_Write name ms (OStruct vs) : M S Z) (encode (VSandesh name (fields_of (zip ms vs)))).
Proof.
  intros Hn Hty Ho. apply typed_struct in Ho as [Hl Ho].
  apply (write_members_emits ms vs _ _ (count (zlen name) ++ name)); [by apply writeString_emits|apply ret_emits|done|].
  destruct Hty as [_ Hms%type_ok_members]. apply (members_typed ms _ vs) in Hms. rewrite Forall_forall in *.
  intros p Hp. apply gen_write_emits; [by apply Hms|by apply Ho].
Qed.
End Emits.
End Objects.
End GeneratedWrite.
