(* ===== verification/GeneratedClaims.v ===== *)
(** * What the generated readers and writers promise

    The reader of one definition in front of any message it can be given, and messages
    between programs whose definitions are of different versions. *)

From stdpp Require Import sorting.
From S2P Require Import Prelude Transport Protocol Wire Binary BinarySpec BinaryClaims Generated GeneratedSpec GeneratedWrite.
Import TBinaryProtocol BinaryProtocol Generated GeneratedSpec GeneratedWrite.
Local Open Scope Z_scope.

Module GeneratedCode.

(** C5: a generated reader agrees with its reference.  In front of a sandesh with
    fields in any order, repeated, unknown or of other types than the members, in which the
    containers of the reader's members hold elements of the reader's types (the generated
    code does not look at the type of elements: see [elements_misread]), [Read] into an object ends with the
    object that the reference makes of the fields, the length of the message and the
    reader behind it; and if the reference makes none, because a required member of the
    sandesh or of a struct in it did not come, with a negative code. *)
Theorem generated_reader `{!Allocator} {T : Type} `{TT : TTransport T} `{TL : !TransportLaws T} (lt : obj -> obj -> bool)
    (ms : list (t_field * ttype)) (o : obj) (name : list byte) (fs : list (Z * value)) (r : T) (rest : list byte) (fuel : nat) :
  let d := encode (VSandesh name fs) in
  t_readable r -> t_contents r = d ++ rest -> zlen d < 2 ^ 31 -> value_ok (VSandesh name fs) = true ->
  (fuel_for (VSandesh name fs) <= fuel)%nat -> shaped (TStruct name ms) o ->
  members_compat (map (fun m => (m.1, type_to_enum m.2, compat m.2)) ms) fs = true ->
  match conv_sandesh lt ms o fs with
  | Some o' => exists s, gen_Read lt fuel ms o (new r) = Some ((zlen d, Some o'), s) /\ t_contents (trans_ s) = rest
  | None => exists c s, gen_Read lt fuel ms o (new r) = Some ((c, None), s) /\ c < 0
  end.
Proof.
  intros d Hr Hc Hsz Hv Hf Ho Hcompat.
  pose proof (gen_Read_runs lt fuel ms o name fs Ho Hcompat Hv Hf) as Hruns. fold d in Hruns.
  destruct (conv_sandesh lt ms o fs) as [o'|].
  - destruct (Hruns (new r) rest) as (s&E&Hs); [by apply ready_new|lia|lia|]. exists s. split; [exact E|]. by destruct Hs as (_&?&_).
  - apply (Hruns (new r) rest); [by apply ready_new|lia|lia].
Qed.

(** In front of a message of one version the reader of another makes of it what it carries. *)
Lemma carried_runs `{!Allocator} {T : Type} `{TT : TTransport T} `{TL : !TransportLaws T} (lt : obj -> obj -> bool)
    (name : list byte) (msW msR : list (t_field * ttype)) (vs : list (bool * obj)) (fuel : nat) :
  let ps := zip msW vs in
  type_ok (TStruct name msW) -> typed lt (TStruct name msW) (OStruct vs) -> type_ok (TStruct name msR) ->
  (forall m p, In m msR -> In p ps -> key_of p = get_key m.1 -> type_to_enum p.1.2 = type_to_enum m.2 -> p.1.2 = m.2) ->
  zlen name < 2 ^ 31 -> (fuel_for (VSandesh name (fields_of ps)) <= fuel)%nat ->
  runs_from (T := T) (gen_Read lt fuel msR (default_obj (TStruct name msR))) 0 (encode (VSandesh name (fields_of ps)))
    (if complete ps msR then Some (OStruct (map (carried ps) msR)) else None).
Proof.
  intros ps HtyW Ho HtyR Hsame Hname Hf.
  pose proof (proj1 (typed_struct lt name msW vs) Ho) as [Hl Ht]. pose proof HtyW as [[Hkeys Hfits] Hms%type_ok_members].
  destruct HtyR as [[HkeysR _] HmsR%type_ok_members]. assert (NoDup (map key_of ps)) as Hps.
  { rewrite <- (zip_fst msW vs Hl), map_map in Hkeys. exact Hkeys. }
  assert (Forall (fun p => type_ok p.1.2) ps) as Hpsok by (by apply (members_typed msW _ vs) in Hms).
  assert (conv_sandesh lt msR (default_obj (TStruct name msR)) (fields_of ps) =
    if complete ps msR then Some (OStruct (map (carried ps) msR)) else None) as Ec.
  { apply (conv_carried lt); try done. intros m p Hm Hp Ek Et. rewrite <- (Hsame m p Hm Hp Ek Et).
    rewrite Forall_forall in Hpsok, Ht. apply conv_received; [by apply Hpsok|by apply Ht]. }
  rewrite <- Ec. apply gen_Read_runs; [apply (default_shaped (TStruct [] msR))| | |done].
  - apply (members_compat_fields lt); [done|]. intros m p Hm Hp Ek Et. rewrite <- (Hsame m p Hm Hp Ek Et).
    rewrite Forall_forall in Hpsok, Ht. apply (to_value_compat lt); [by apply Hpsok|by apply Ht].
  - cbn [value_ok]. rewrite (proj2 (Z.ltb_lt _ _) Hname). apply fields_of_ok.
    apply (members_typed msW _ vs) in Hfits. rewrite Forall_forall in *. intros p Hp. split; [by apply Hfits|].
    apply (to_value_ok lt); [by apply Hpsok|by apply Ht].
Qed.

(** C4: programs with different versions of a sandesh understand each other.  The
    code generated from one definition writes an object as one message and returns its
    length; the code generated from another definition, in which members were added,
    removed, renamed or given another type, reads that message to its end, if the members
    that it requires came, and returns a negative code if one did not.  Each member of
    the reader holds what the writer's member with its number and type held, and is set;
    a member that was not written, is not in the writer's definition or has another type
    there keeps its default and is not set.  Where both have a container, or both a struct,
    with the same number, it must have the same definition in both (the types of the
    elements are not looked at: see [elements_misread]).  With the same definition on both
    sides every member comes back. *)
Theorem generated_evolution `{!Allocator} {T : Type} `{TT : TTransport T} `{TL : !TransportLaws T} (lt : obj -> obj -> bool)
    (name : list byte) (msW msR : list (t_field * ttype)) (vs : list (bool * obj)) (w : T) (fuel : nat) :
  let ps := zip msW vs in
  let d := encode (VSandesh name (fields_of ps)) in
  type_ok (TStruct name msW) -> typed lt (TStruct name msW) (OStruct vs) -> type_ok (TStruct name msR) ->
  (forall m p, In m msR -> In p ps -> key_of p = get_key m.1 -> type_to_enum p.1.2 = type_to_enum m.2 -> p.1.2 = m.2) ->
  t_ok w -> t_room w (zlen d) -> zlen name < 2 ^ 31 -> zlen d < 2 ^ 31 ->
  (fuel_for (VSandesh name (fields_of ps)) <= fuel)%nat ->
  (exists s, gen_Write name msW (OStruct vs) (new w) = Some (zlen d, s) /\ t_ok (trans_ s) /\
    t_contents (trans_ s) = t_contents w ++ d) /\
  (forall (r : T) rest, t_readable r -> t_contents r = d ++ rest ->
    if complete ps msR
    then exists s, gen_Read lt fuel msR (default_obj (TStruct name msR)) (new r) =
        Some ((zlen d, Some (OStruct (map (carried ps) msR))), s) /\ t_contents (trans_ s) = rest
    else exists c s, gen_Read lt fuel msR (default_obj (TStruct name msR)) (new r) = Some ((c, None), s) /\ c < 0) /\
  (msR = msW -> complete ps msR = true /\ OStruct (map (carried ps) msR) = received (TStruct name msW) (OStruct vs)).
Proof.
  intros ps d HtyW Ho HtyR Hsame Hw Hroom Hname Hsz Hf. split; [|split].
  - destruct (gen_Write_emits lt name msW vs Hname HtyW Ho (new w)) as (s&E&W); [done|]. exists s. by destruct W as (?&?&_&_).
  - intros r rest Hr Hc. pose proof (carried_runs lt name msW msR vs fuel HtyW Ho HtyR Hsame Hname Hf) as Hruns.
    fold ps d in Hruns. destruct (complete ps msR); cbn [runs_from] in Hruns.
    + destruct (Hruns (new r) rest) as (s&E&Hs); [by apply ready_new|lia|done|]. exists s. split; [exact E|]. by destruct Hs as (_&?&_).
    + destruct (Hruns (new r) rest) as (c&s&E&Hs); [by apply ready_new|lia|lia|]. by exists c, s.
  - intros ->. pose proof (proj1 (typed_struct lt name msW vs) Ho) as [Hl _].
    assert (NoDup (map key_of ps)) as Hps.
    { destruct HtyW as [[Hkeys _] _]. rewrite <- (zip_fst msW vs Hl), map_map in Hkeys. exact Hkeys. }
    rewrite received_struct. split.
    { apply complete_all. intros m Hm Hq. rewrite <- (zip_fst msW vs Hl) in Hm. apply in_map_iff in Hm as (p&<-&Hp).
      rewrite carried_same by done. unfold received_member, written, required in *. zify_bools.
      by rewrite bool_decide_eq_false_2 by congruence. }
    f_equal. transitivity (map (carried ps) (map fst ps)); [unfold ps; by rewrite (zip_fst msW vs Hl)|].
    rewrite map_map. apply map_ext_in. intros p Hp. by apply carried_same.
Qed.

(** A list of numbers that another version calls a list of strings is not left alone: its
    elements are taken as lengths of strings. *)
Example elements_misread :
  let _ := TMemoryBuffer.total_allocator in
  let m ty := [(MkField 1 (bs "ids") T_OPTIONAL, TList (TBase ty))] in
  (b ← TMemoryBuffer.new_size 64;
   '(_, s) ← gen_Write (bs "Msg") (m T_I32) (OStruct [(true, OList [OBase (VInt T_I32 0); OBase (VInt T_I32 0)])]) (new b);
   fst <$> gen_Read (fun _ _ => false) 10 (m T_STRING) (default_obj (TStruct (bs "Msg") (m T_STRING))) (new (trans_ s))) =
  Some (24, Some (OStruct [(true, OList [OBase (VBytes T_STRING []); OBase (VBytes T_STRING [])])])).
Proof. vm_compute. reflexivity. Qed.

(** ** Two versions of a definition *)
Definition int_lt (a b : obj) : bool :=
  match a, b with OBase (VInt _ x), OBase (VInt _ y) => x <? y | _, _ => false end.
Definition v1 : list (t_field * ttype) :=
  [(MkField 1 (bs "name") T_REQUIRED, TBase T_STRING); (MkField 2 (bs "count") T_OPTIONAL, TBase T_U64);
   (MkField 3 (bs "table") T_OPT_IN_REQ_OUT, TMap (TBase T_I16) (TList TEnum)); (MkField 4 (bs "state") T_OPTIONAL, TBase T_BOOL)].
Definition v2 : list (t_field * ttype) :=
  [(MkField 1 (bs "name") T_REQUIRED, TBase T_STRING); (MkField 4 (bs "state") T_OPTIONAL, TBase T_I32);
   (MkField 3 (bs "table") T_OPTIONAL, TMap (TBase T_I16) (TList TEnum));
   (MkField 5 (bs "more") T_OPTIONAL, TStruct (bs "More") [(MkField 1 (bs "x") T_OPTIONAL, TBase T_DOUBLE)])].
Definition table : obj :=
  OMap [(OBase (VInt T_I16 (-2)), OList [OBase (VInt T_I32 7)]); (OBase (VInt T_I16 5), OList [])].
Definition sent : list (bool * obj) :=
  [(false, OBase (VBytes T_STRING (bs "uve"))); (false, OBase (VInt T_U64 0)); (false, table); (true, OBase (VBool true))].
Definition got : obj :=
  OStruct [(true, OBase (VBytes T_STRING (bs "uve"))); (false, OBase (VInt T_I32 0)); (true, table);
           (false, OStruct [(false, OBase (VDouble 0))])].

Lemma generated_evolution_witness :
  let _ := TMemoryBuffer.total_allocator in
  exists b s r, TMemoryBuffer.new_size 16 = Some b /\
    gen_Write (bs "Msg") v1 (OStruct sent) (new b) = Some (49, s) /\
    gen_Read int_lt 10 v2 (default_obj (TStruct (bs "Msg") v2)) (new (trans_ s)) = Some ((49, Some got), r).
Proof.
  intros A. destruct (TMemoryBuffer.new_size 16) as [b|] eqn:Eb; [|discriminate Eb].
  destruct (TMemoryBuffer.new_size_ok 16 b) as (Hb&Ec&Ho); [lia|exact Eb|].
  destruct (generated_evolution (T := TMemoryBuffer.t) int_lt (bs "Msg") v1 v2 sent b 10) as [(s&Ew&Hs&Es) [Hread _]].
  - repeat split; try (apply (bool_decide_unpack _)); repeat constructor.
  - repeat constructor.
  - repeat split; try (apply (bool_decide_unpack _)); repeat constructor. apply not_elem_of_nil.
  - intros m p Hm Hp Ek Et. repeat (destruct Hm as [<-|Hm]; [repeat (destruct Hp as [<-|Hp]; [try done|]); done|]). done.
  - exact Hb.
  - right. split; [exact Ho|]. injection Eb as <-. split; [vm_compute; discriminate|reflexivity].
  - reflexivity.
  - reflexivity.
  - apply Nat.leb_le. reflexivity.
  - change (TMemoryBuffer.contents b = []) in Ec. change (t_contents b) with (TMemoryBuffer.contents b) in Es.
    rewrite Ec in Es. destruct (Hread (trans_ s) []) as (r&Er&_); [exact Hs|by rewrite Es, app_nil_r|].
    exists b, s, r. split; [reflexivity|]. split; [exact Ew|exact Er].
Defined.

(** A message with the fields of [v2] out of order and one twice. *)
Definition mixed : list (Z * value) :=
  [(9, VList T_BYTE [VInt T_BYTE 1]); (4, VInt T_I32 3); (1, VBytes T_STRING (bs "a")); (4, VInt T_I32 4); (3, VBool false)].

Lemma generated_reader_witness :
  let _ := TMemoryBuffer.total_allocator in
  exists b s, TMemoryBuffer.new_buffer (Some (encode (VSandesh (bs "Msg") mixed) ++ bs "xy")) 45 TMemoryBuffer.OBSERVE = Some b /\
    gen_Read int_lt 10 v2 (default_obj (TStruct (bs "Msg") v2)) (new b) =
      Some ((43, Some (OStruct [(true, OBase (VBytes T_STRING (bs "a"))); (true, OBase (VInt T_I32 4)); (false, OMap []);
                                (false, OStruct [(false, OBase (VDouble 0))])])), s) /\
    TMemoryBuffer.contents (trans_ s) = bs "xy".
Proof.
  intros A. destruct (TMemoryBuffer.new_observe (encode (VSandesh (bs "Msg") mixed) ++ bs "xy")) as (b&Eb&Hb&Ec); [reflexivity|].
  destruct (generated_reader (T := TMemoryBuffer.t) int_lt v2 (default_obj (TStruct (bs "Msg") v2)) (bs "Msg") mixed b (bs "xy") 10)
    as (s&Es&Er).
  - exact Hb.
  - exact Ec.
  - reflexivity.
  - reflexivity.
  - apply Nat.leb_le. reflexivity.
  - apply default_shaped.
  - reflexivity.
  - exists b, s. split; [exact Eb|]. split; [exact Es|exact Er].
Defined.
End GeneratedCode.
