(* ===== verification/CGenerated.v ===== *)
(** * The C code that is generated for a message

    compiler/generate/t_c_generator.cc emits, for a struct and for a sandesh, a writer and
    a reader that call the C library's protocol ([_write], [_read]), a writer and a reader
    that work on a block of bytes without it ([_write_binary_to_buffer],
    [_read_binary_from_buffer]) and [_free].  As functions of the definition they are
    emitted for, with the definitions of Generated.v.  The emitted text of a step is a
    definition with the name of the function that emits it, without [generate_].

    [None] is undefined behaviour: a null pointer that is followed, an allocation that
    failed, a sum of [int]s beyond [INT_MAX].  It is also the meaning of text that a C
    compiler refuses: lists of anything but base types, and in the functions on blocks
    optional members (the writer's brace is never closed) and required ones (the reader
    assigns to a variable it does not have).  Members that the compiler adds itself are
    not generated and have no place here. *)

From S2P Require Import Prelude Transport Protocol Wire CThrift CThriftSpec CSandesh Generated.
Import ThriftBinaryProtocol.
Import Generated(e_req(..), t_field(..), get_key, get_name, get_req, ttype(..), type_to_enum, find_case, required).
#[local] Existing Instance Generated.e_req_eq_dec.
Local Open Scope Z_scope.

Definition THRIFT_PROTOCOL_ERROR_INVALID_DATA : Z := 1.

Module CGenerated.

(** ** Objects

    A string is a pointer: null, or to the bytes in front of a NUL.  A member that is a
    struct or a list is a pointer too; a list has its size beside it, which is 0 when the
    pointer is null.  The address of no family is [CIp None]. *)
Inductive cobj :=
  | CNum (v : value)
  | CIp (a : option ip_address)
  | CStr (p : option (list byte))
  | CNull
  | CStruct (members : list (bool * cobj))
  | CArray (l : list cobj).

(** What [os_zalloc] leaves. *)
Definition zero_base (ty : TType) : cobj :=
  match ty with
  | T_STRING | T_XML => CStr None
  | T_IPADDR => CIp None
  | T_BOOL => CNum (VBool false)
  | T_DOUBLE => CNum (VDouble 0)
  | T_UUID => CNum (VUuid (replicate 16 x00))
  | _ => CNum (VInt ty 0)
  end.
Definition zero_obj (ty : ttype) : cobj :=
  match ty with
  | TBase b => zero_base b
  | TEnum => CNum (VInt T_I32 0)
  | _ => CNull
  end.
Definition zero_members (ms : list (t_field * ttype)) : list (bool * cobj) :=
  map (fun m => (false, zero_obj m.2)) ms.

Definition optional (f : t_field) : bool := bool_decide (get_req f = T_OPTIONAL).

(** ** Through the protocol *)
Section Protocol.
Context `{!Allocator} {T : Type} `{!CTransport T}.
Abbreviation S := (t T).

(** *** Writing *)
Definition serialize_base (ty : TType) (o : cobj) : M S Z :=
  match ty, o with
  | T_BOOL, CNum (VBool b) => write_bool (if b then 1 else 0)
  | T_BYTE, CNum (VInt _ z) => write_byte z
  | T_I16, CNum (VInt _ z) => write_i16 z
  | T_I32, CNum (VInt _ z) => write_i32 z
  | T_I64, CNum (VInt _ z) => write_i64 z
  | T_U16, CNum (VInt _ z) => write_u16 z
  | T_U32, CNum (VInt _ z) => write_u32 z
  | T_U64, CNum (VInt _ z) => write_u64 z
  | T_DOUBLE, CNum (VDouble bits) => write_double bits
  | T_IPV4, CNum (VInt _ z) => write_ipv4 z
  | T_IPADDR, CIp (Some a) => write_ipaddr a
  | T_IPADDR, CIp None => mret (-1)
  | T_STRING, CStr p => write_string p
  | T_XML, CStr p => write_xml p
  | T_UUID, CNum (VUuid l) => write_uuid_t l
  | _, _ => undefined
  end.

Definition serialize_container (b : TType) (o : cobj) : list (M S Z) :=
  let l := match o with CArray l => l | _ => [] end in
  [write_list_begin b (u32 (zlen l))] ++ map (serialize_base b) l ++ [write_list_end].

Definition struct_writer (begin : M S Z) (members : list (list (M S Z))) (end_ : M S Z) : M S Z :=
  xfers ([begin] ++ concat members ++ [write_field_stop; end_]) 0.
Definition write_member (f : t_field) (ty : ttype) (v : bool * cobj) (field : cobj -> list (M S Z)) : list (M S Z) :=
  if optional f && negb v.1 then []
  else [write_field_begin (type_to_enum ty) (get_key f)] ++ field v.2 ++ [write_field_end].

(** The calls for the member of a struct. *)
Fixpoint serialize_field (ty : ttype) : cobj -> list (M S Z) :=
  match ty with
  | TBase b => fun o => [serialize_base b o]
  | TEnum => fun o => [serialize_base T_I32 o]
  | TStruct _ ms => fun o =>
      match o with
      | CStruct vs =>
          [struct_writer write_struct_begin
             (zip_with (fun w v => w v) (map (fun m v => write_member m.1 m.2 v (serialize_field m.2)) ms) vs)
             write_struct_end]
      | _ => [undefined]
      end
  | TList (TBase b) => serialize_container b
  | _ => fun _ => [undefined]
  end.
(** [_write] of a sandesh. *)
Definition sandesh_write (name : list byte) (ms : list (t_field * ttype)) (o : cobj) : M S Z :=
  match o with
  | CStruct vs =>
      struct_writer (write_sandesh_begin (Some name))
        (zip_with (fun w v => w v) (map (fun m v => write_member m.1 m.2 v (serialize_field m.2)) ms) vs)
        write_sandesh_end
  | _ => undefined
  end.

(** *** Reading

    [xfer] is threaded; a result without an object is a [return] with its value. *)
Definition as_obj {A B} (f : A -> B) (m : M S (Z * option A)) : M S (Z * option B) := r ← m; mret (r.1, f <$> r.2).
Definition chk0 {B} (m : M S Z) (k : Z -> M S (Z * option B)) : M S (Z * option B) :=
  ret ← m; if ret <? 0 then mret (-1, None) else k ret.
Definition andthen {A B} (m : M S (Z * option A)) (k : Z -> A -> M S (Z * option B)) : M S (Z * option B) :=
  r ← m; match r.2 with Some a => k r.1 a | None => mret (r.1, None) end.

Definition deserialize_base (ty : TType) : M S (Z * option cobj) :=
  match ty with
  | T_BOOL => as_obj (fun b => CNum (VBool b)) read_bool
  | T_BYTE => as_obj (fun z => CNum (VInt ty z)) read_byte
  | T_I16 => as_obj (fun z => CNum (VInt ty z)) read_i16
  | T_I32 => as_obj (fun z => CNum (VInt ty z)) read_i32
  | T_I64 => as_obj (fun z => CNum (VInt ty z)) read_i64
  | T_U16 => as_obj (fun z => CNum (VInt ty z)) read_u16
  | T_U32 => as_obj (fun z => CNum (VInt ty z)) read_u32
  | T_U64 => as_obj (fun z => CNum (VInt ty z)) read_u64
  | T_DOUBLE => as_obj (fun z => CNum (VDouble z)) read_double
  | T_IPV4 => as_obj (fun z => CNum (VInt ty z)) read_ipv4
  | T_IPADDR => as_obj (fun a => CIp (Some a)) read_ipaddr
  | T_STRING => as_obj CStr read_string
  | T_XML => as_obj CStr read_xml
  | T_UUID => as_obj (fun l => CNum (VUuid l)) read_uuid_t
  | _ => undefined
  end.
(** A call and [xfer += ret]. *)
Definition counted {A} (m : M S (Z * option A)) (xfer : Z) : M S (Z * option A) :=
  chk2 m (fun ret a => mret (i32 (xfer + ret), Some a)).

Fixpoint deserialize_list_elements (rd : M S (Z * option cobj)) (n : nat) (xfer : Z) (acc : list cobj)
    : M S (Z * option (list cobj)) :=
  match n with
  | O => mret (xfer, Some acc)
  | Datatypes.S n => chk2 rd (fun ret o => deserialize_list_elements rd n (i32 (xfer + ret)) (acc ++ [o]))
  end.
(** [size_of] is the size of an element; the type on the wire is not looked at. *)
Definition deserialize_container (size_of : Z) (b : TType) (xfer : Z) : M S (Z * option cobj) :=
  chk2 read_list_begin (fun ret '(_, size) =>
    if alloc_ok (u64 (size_of * size)) then
      andthen (deserialize_list_elements (deserialize_base b) (Z.to_nat size) (i32 (xfer + ret)) []) (fun xfer l =>
      chk0 read_list_end (fun ret => mret (i32 (xfer + ret), Some (CArray l))))
    else undefined).

Definition field_begin : M S (Z * option (TType * Z)) :=
  '(ret, ty, id) ← read_field_begin None;
  mret (ret, match ty, id with Some ty, Some id => Some (ty, id) | _, _ => None end).

Record c_case := MkCCase { cc_field : t_field; cc_type : TType; cc_read : Z -> M S (Z * option cobj) }.
Definition case_key (c : c_case) : Z := get_key (cc_field c).

(** [while (1) { ... switch (fid) { ... } ... }] *)
Fixpoint read_members (fuel n : nat) (cs : list c_case) (xfer : Z) (ms : list (bool * cobj))
    : M S (Z * option (list (bool * cobj))) :=
  match n with
  | O => undefined
  | Datatypes.S n =>
      chk2 field_begin (fun ret '(ftype, fid) =>
      let xfer := i32 (xfer + ret) in
      if bool_decide (ftype = T_STOP) then mret (xfer, Some ms)
      else
        let skip_it :=
          chk0 (thrift_protocol_skip fuel ftype) (fun ret => let xfer := i32 (xfer + ret) in
          chk0 read_field_end (fun ret => read_members fuel n cs (i32 (xfer + ret)) ms)) in
        match find_case case_key fid cs with
        | Some (i, c) =>
            if bool_decide (ftype = cc_type c) then
              andthen (cc_read c xfer) (fun xfer o =>
              chk0 read_field_end (fun ret => read_members fuel n cs (i32 (xfer + ret)) (<[i := (true, o)]> ms)))
            else skip_it
        | None => skip_it
        end)
  end.

(** The flag of a required member is a local variable. *)
Definition start_flags (fs : list t_field) (ms : list (bool * cobj)) : list (bool * cobj) :=
  zip_with (fun f m => (if required f then false else m.1, m.2)) fs ms.
Definition none_missing (fs : list t_field) (ms : list (bool * cobj)) : bool :=
  forallb id (zip_with (fun f m => negb (required f) || m.1) fs ms).
Definition struct_reader (fuel : nat) (cs : list c_case) (end_ : M S Z) (xfer : Z) (ms : list (bool * cobj))
    : M S (Z * option cobj) :=
  andthen (read_members fuel fuel cs xfer (start_flags (map cc_field cs) ms)) (fun xfer ms =>
  chk0 end_ (fun ret =>
    if none_missing (map cc_field cs) ms then mret (i32 (xfer + ret), Some (CStruct ms))
    else fail_with THRIFT_PROTOCOL_ERROR_INVALID_DATA (-1, None))).

(** [sizeof], which is the C compiler's. *)
Variable sizeof : ttype -> Z.

(** The code of a [case]. *)
Fixpoint deserialize_field (fuel : nat) (ty : ttype) : Z -> M S (Z * option cobj) :=
  match ty with
  | TBase b => counted (deserialize_base b)
  | TEnum => counted (deserialize_base T_I32)
  | TStruct _ ms => fun xfer =>
      if alloc_ok (sizeof ty) then
        counted (chk0 read_struct_begin (fun ret =>
          struct_reader fuel (map (fun m => MkCCase m.1 (type_to_enum m.2) (deserialize_field fuel m.2)) ms)
            read_struct_end (i32 (0 + ret)) (zero_members ms))) xfer
      else undefined
  | TList (TBase b) => deserialize_container (sizeof (TBase b)) b
  | _ => fun _ => undefined
  end.
Abbreviation cases fuel ms := (map (fun m => MkCCase m.1 (type_to_enum m.2) (deserialize_field fuel m.2)) ms).

(** [_read] of a sandesh into the object [vs].  [name] is uninitialised, and when the
    length of the name cannot be read, it still is when it is tested and freed. *)
Definition name_unset (s : S) : bool := match read_i32 s with Some ((ret, _), _) => ret <? 0 | None => false end.
Definition sandesh_read (fuel : nat) (ms : list (t_field * ttype)) (vs : list (bool * cobj)) : M S (Z * option cobj) :=
  fun s =>
    if name_unset s then None
    else chk2 read_sandesh_begin (fun ret _ =>
           struct_reader fuel (cases fuel ms) read_sandesh_end (i32 (0 + ret)) vs) s.

End Protocol.
Arguments c_case T : clear implicits.

(** ** On a block of bytes

    [Xbuf] is where the bytes of a function begin in the block, [Xbuflen] how many they
    are: a [size_t].  [Xoffset] is an [int32_t]. *)
Record frame := MkFrame { Xbuf : Z; Xbuflen : Z }.
Definition inner (fr : frame) (off : Z) : frame := MkFrame (Xbuf fr + off) (u64 (Xbuflen fr - off)).

(** [if (Xbuflen < Xoffset + length) return -1;]: the sum is an [int], the comparison
    one of [size_t]s. *)
Definition buffer_bounds_chk (fr : frame) (off len : Z) : option bool :=
  if INT_MAX <? off + len then None else Some (u64 (off + len) <=? Xbuflen fr).
Definition buffer_incr_offset (off len : Z) : option Z :=
  if INT_MAX <? off + len then None else Some (off + len).

(** *** Writing *)
Inductive outcome := Return (r : Z) | Next (Xoffset : Z).
Definition W : Type := frame -> list byte -> Z -> option (outcome * list byte).

Definition write_buffer_memcpy_incr_offset (source : list byte) (len : Z) : W := fun fr mem off =>
  src ← mread source 0 len;
  mem ← memcpy mem (Xbuf fr + off) src;
  off ← buffer_incr_offset off len;
  Some (Next off, mem).
Definition write_buffer_chk_memcpy_incr_offset (source : list byte) (len : Z) : W := fun fr mem off =>
  ok ← buffer_bounds_chk fr off len;
  if (ok : bool) then write_buffer_memcpy_incr_offset source len fr mem off else Some (Return (-1), mem).

Fixpoint run_all (ws : list W) : W := fun fr mem off =>
  match ws with
  | [] => Some (Next off, mem)
  | w :: ws =>
      '(o, mem) ← w fr mem off;
      match o with Return r => Some (Return r, mem) | Next off => run_all ws fr mem off end
  end.

Definition put_bytes (source : list byte) : W := write_buffer_chk_memcpy_incr_offset source (zlen source).
Definition write_buffer_binary (buf : list byte) (buf_len : Z) : list W :=
  [put_bytes (be_bytes 4 buf_len); write_buffer_chk_memcpy_incr_offset buf buf_len].

Definition serialize_bool_to_buffer (b : bool) : list W := [put_bytes (be_bytes 1 (if b then 1 else 0))].
Definition serialize_byte_to_buffer (z : Z) : list W := [put_bytes (be_bytes 1 z)].
Definition serialize_i16_to_buffer (z : Z) : list W := [put_bytes (be_bytes 2 z)].
Definition serialize_u16_to_buffer (z : Z) : list W := [put_bytes (be_bytes 2 z)].
Definition serialize_i32_to_buffer (z : Z) : list W := [put_bytes (be_bytes 4 z)].
Definition serialize_u32_to_buffer (z : Z) : list W := [put_bytes (be_bytes 4 z)].
Definition serialize_i64_to_buffer (z : Z) : list W := [put_bytes (os_put_value64 (u64 z))].
Definition serialize_u64_to_buffer (z : Z) : list W := [put_bytes (os_put_value64 z)].
(** The length of the string is an [int32_t]. *)
Definition serialize_string_to_buffer (p : option (list byte)) : list W :=
  let s := cstr (default [] p) in write_buffer_binary s (i32 (zlen s)).
Definition serialize_ipaddr_to_buffer (a : option ip_address) : list W :=
  match a with
  | Some (IPv4 b) => [put_bytes (be_bytes 1 AF_INET); write_buffer_chk_memcpy_incr_offset b 4]
  | Some (IPv6 b) => [put_bytes (be_bytes 1 AF_INET6); write_buffer_chk_memcpy_incr_offset b 16]
  | None => [fun _ mem _ => Some (Return (-1), mem)]
  end.
Definition serialize_uuid_t_to_buffer (l : list byte) : list W := [write_buffer_chk_memcpy_incr_offset l 16].
Definition serialize_double_to_buffer : list W := [fun _ mem _ => Some (Return (-1), mem)].

Definition serialize_base_to_buffer (ty : TType) (o : cobj) : list W :=
  match ty, o with
  | T_BOOL, CNum (VBool b) => serialize_bool_to_buffer b
  | T_BYTE, CNum (VInt _ z) => serialize_byte_to_buffer z
  | T_I16, CNum (VInt _ z) => serialize_i16_to_buffer z
  | T_I32, CNum (VInt _ z) => serialize_i32_to_buffer z
  | T_I64, CNum (VInt _ z) => serialize_i64_to_buffer z
  | T_U16, CNum (VInt _ z) => serialize_u16_to_buffer z
  | T_U32, CNum (VInt _ z) => serialize_u32_to_buffer z
  | T_U64, CNum (VInt _ z) => serialize_u64_to_buffer z
  | T_DOUBLE, CNum (VDouble _) => serialize_double_to_buffer
  | T_IPV4, CNum (VInt _ z) => serialize_i32_to_buffer z
  | T_IPADDR, CIp a => serialize_ipaddr_to_buffer a
  | T_STRING, CStr p | T_XML, CStr p => serialize_string_to_buffer p
  | T_UUID, CNum (VUuid l) => serialize_uuid_t_to_buffer l
  | _, _ => [fun _ _ _ => None]
  end.

Definition type_code (ty : TType) : list byte := be_bytes 1 (i8 (ttype_code ty)).
Definition field_begin_writer_to_buffer (key : Z) (ty : TType) : list W :=
  [put_bytes (type_code ty); put_bytes (be_bytes 2 key)].
Definition field_stop_writer_to_buffer : list W := [put_bytes (type_code T_STOP)].
Definition list_begin_writer_to_buffer (ty : TType) (len : Z) : list W :=
  [put_bytes (type_code ty); put_bytes (be_bytes 4 len)].
Definition serialize_container_to_buffer (b : TType) (o : cobj) : list W :=
  let l := match o with CArray l => l | _ => [] end in
  list_begin_writer_to_buffer b (u32 (zlen l)) ++ concat (map (serialize_base_to_buffer b) l).

(** The body of a [_write_binary_to_buffer] from its begin. *)
Definition struct_writer_to_buffer (begin : list W) (fs : list t_field) (members : list (list W))
    (fr : frame) (mem : list byte) : option (Z * list byte) :=
  if existsb optional fs then None
  else
    '(o, mem) ← run_all (begin ++ concat members ++ field_stop_writer_to_buffer) fr mem 0;
    Some (match o with Return r => r | Next off => off end, mem).
Definition serialize_struct_to_buffer (f : frame -> list byte -> option (Z * list byte)) : W := fun fr mem off =>
  '(Xret, mem) ← f (inner fr off) mem;
  if Xret <? 0 then Some (Return (-1), mem)
  else (off ← buffer_incr_offset off Xret; Some (Next off, mem)).

Fixpoint serialize_field_to_buffer (ty : ttype) : cobj -> list W :=
  match ty with
  | TBase b => serialize_base_to_buffer b
  | TEnum => serialize_base_to_buffer T_I32
  | TStruct _ ms => fun o =>
      match o with
      | CStruct vs =>
          [serialize_struct_to_buffer (struct_writer_to_buffer [] (map fst ms)
             (zip_with (fun w v => w v) (map (fun m (v : bool * cobj) =>
                field_begin_writer_to_buffer (get_key m.1) (type_to_enum m.2) ++ serialize_field_to_buffer m.2 v.2) ms) vs))]
      | _ => [fun _ _ _ => None]
      end
  | TList (TBase b) => serialize_container_to_buffer b
  | _ => fun _ => [fun _ _ _ => None]
  end.
(** [_write_binary_to_buffer] of a sandesh. *)
Definition sandesh_write_binary_to_buffer (name : list byte) (ms : list (t_field * ttype)) (o : cobj)
    (fr : frame) (mem : list byte) : option (Z * list byte) :=
  match o with
  | CStruct vs =>
      struct_writer_to_buffer (write_buffer_binary name (zlen name)) (map fst ms)
        (zip_with (fun w v => w v) (map (fun m (v : bool * cobj) =>
           field_begin_writer_to_buffer (get_key m.1) (type_to_enum m.2) ++ serialize_field_to_buffer m.2 v.2) ms) vs) fr mem
  | _ => None
  end.

(** *** Reading *)
Inductive rd (A : Type) := RReturn (r : Z) | RNext (Xoffset : Z) (a : A).
Arguments RReturn {A}.
Arguments RNext {A}.
Definition R (A : Type) : Type := frame -> list byte -> Z -> option (rd A).

Definition rret {A} (a : A) : R A := fun _ _ off => Some (RNext off a).
Definition rbind {A B} (m : R A) (k : A -> R B) : R B := fun fr mem off =>
  r ← m fr mem off;
  match r with RReturn r => Some (RReturn r) | RNext off a => k a fr mem off end.
Definition rmap {A B} (f : A -> B) (m : R A) : R B := rbind m (fun a => rret (f a)).
Definition rfail {A} : R A := fun _ _ _ => Some (RReturn (-1)).
Definition rundefined {A} : R A := fun _ _ _ => None.

Definition read_buffer_memcpy_incr_offset (len : Z) : R (list byte) := fun fr mem off =>
  b ← mread mem (Xbuf fr + off) len;
  off ← buffer_incr_offset off len;
  Some (RNext off b).
Definition read_buffer_chk_memcpy_incr_offset (len : Z) : R (list byte) := fun fr mem off =>
  ok ← buffer_bounds_chk fr off len;
  if (ok : bool) then read_buffer_memcpy_incr_offset len fr mem off else Some (RReturn (-1)).

Definition deserialize_bool_from_buffer : R bool :=
  rmap (fun b => negb (int_value 1 true b =? 0)) (read_buffer_chk_memcpy_incr_offset 1).
Definition deserialize_byte_from_buffer : R Z := rmap (int_value 1 true) (read_buffer_chk_memcpy_incr_offset 1).
Definition deserialize_i16_from_buffer : R Z := rmap (int_value 2 true) (read_buffer_chk_memcpy_incr_offset 2).
Definition deserialize_u16_from_buffer : R Z := rmap (int_value 2 false) (read_buffer_chk_memcpy_incr_offset 2).
Definition deserialize_i32_from_buffer : R Z := rmap (int_value 4 true) (read_buffer_chk_memcpy_incr_offset 4).
Definition deserialize_u32_from_buffer : R Z := rmap (int_value 4 false) (read_buffer_chk_memcpy_incr_offset 4).
Definition deserialize_i64_from_buffer : R Z := rmap (fun b => i64 (os_get_value64 b)) (read_buffer_chk_memcpy_incr_offset 8).
Definition deserialize_u64_from_buffer : R Z := rmap os_get_value64 (read_buffer_chk_memcpy_incr_offset 8).
Definition deserialize_ipaddr_from_buffer : R ip_address :=
  rbind deserialize_byte_from_buffer (fun iptype =>
  if u8 iptype =? AF_INET then rmap IPv4 (read_buffer_chk_memcpy_incr_offset 4)
  else if u8 iptype =? AF_INET6 then rmap IPv6 (read_buffer_chk_memcpy_incr_offset 16)
  else rfail).
Definition deserialize_uuid_t_from_buffer : R (list byte) := read_buffer_chk_memcpy_incr_offset 16.

Section Buffer.
Context `{!Allocator}.

Definition deserialize_string_from_buffer : R (option (list byte)) :=
  rbind deserialize_i32_from_buffer (fun read_len fr mem off =>
  if 0 <? read_len then
    ok ← buffer_bounds_chk fr off read_len;
    if (ok : bool) then
      if alloc_ok (read_len + 1) then rmap Some (read_buffer_memcpy_incr_offset read_len) fr mem off else None
    else Some (RReturn (-1))
  else Some (RNext off None)).

(** An address of the family IPV4 is assigned to a [uint32_t]. *)
Definition deserialize_base_from_buffer (ty : TType) : R cobj :=
  match ty with
  | T_BOOL => rmap (fun b => CNum (VBool b)) deserialize_bool_from_buffer
  | T_BYTE => rmap (fun z => CNum (VInt ty z)) deserialize_byte_from_buffer
  | T_I16 => rmap (fun z => CNum (VInt ty z)) deserialize_i16_from_buffer
  | T_I32 => rmap (fun z => CNum (VInt ty z)) deserialize_i32_from_buffer
  | T_I64 => rmap (fun z => CNum (VInt ty z)) deserialize_i64_from_buffer
  | T_U16 => rmap (fun z => CNum (VInt ty z)) deserialize_u16_from_buffer
  | T_U32 => rmap (fun z => CNum (VInt ty z)) deserialize_u32_from_buffer
  | T_U64 => rmap (fun z => CNum (VInt ty z)) deserialize_u64_from_buffer
  | T_DOUBLE => rfail
  | T_IPV4 => rmap (fun z => CNum (VInt ty (u32 z))) deserialize_i32_from_buffer
  | T_IPADDR => rmap (fun a => CIp (Some a)) deserialize_ipaddr_from_buffer
  | T_STRING | T_XML => rmap CStr deserialize_string_from_buffer
  | T_UUID => rmap (fun l => CNum (VUuid l)) deserialize_uuid_t_from_buffer
  | _ => rundefined
  end.

(** The size is a [u_int32_t]: a negative count is a large one. *)
Definition list_begin_reader_from_buffer : R Z :=
  rbind deserialize_byte_from_buffer (fun _ => rmap (fun size => u32 size) deserialize_i32_from_buffer).
Fixpoint deserialize_list_elements_from_buffer (rd : R cobj) (n : nat) (acc : list cobj) : R (list cobj) :=
  match n with
  | O => rret acc
  | S n => rbind rd (fun o => deserialize_list_elements_from_buffer rd n (acc ++ [o]))
  end.
Definition deserialize_container_from_buffer (size_of : Z) (b : TType) : R cobj :=
  rbind list_begin_reader_from_buffer (fun size =>
  if alloc_ok (u64 (size_of * size)) then
    rmap CArray (deserialize_list_elements_from_buffer (deserialize_base_from_buffer b) (Z.to_nat size) [])
  else rundefined).

(** The field that stops has no number. *)
Definition field_begin_reader_from_buffer : R (TType * Z) :=
  rbind deserialize_byte_from_buffer (fun b =>
  let field_type := ttype_of b in
  if bool_decide (field_type = T_STOP) then rret (field_type, 0)
  else rmap (pair field_type) deserialize_i16_from_buffer).

(** [upper] is what [thrift_binary_protocol_skip_from_buffer] finds on its stack. *)
Variable upper : Z.
Definition skip_from_buffer (fuel : nat) (ftype : TType) : R unit := fun fr mem off =>
  Xret ← thrift_binary_protocol_skip_from_buffer upper mem fuel (Xbuf fr + off) (u32 (Xbuflen fr - off)) ftype;
  if Xret <? 0 then Some (RReturn (-1)) else (off ← buffer_incr_offset off Xret; Some (RNext off tt)).

Record b_case := MkBCase { bc_field : t_field; bc_type : TType; bc_read : R cobj }.
Definition bcase_key (c : b_case) : Z := get_key (bc_field c).

Fixpoint read_members_from_buffer (fuel n : nat) (cs : list b_case) (ms : list (bool * cobj)) : R (list (bool * cobj)) :=
  match n with
  | O => rundefined
  | S n =>
      rbind field_begin_reader_from_buffer (fun '(ftype, fid) =>
      if bool_decide (ftype = T_STOP) then rret ms
      else
        let skip_it := rbind (skip_from_buffer fuel ftype) (fun _ => read_members_from_buffer fuel n cs ms) in
        match find_case bcase_key fid cs with
        | Some (i, c) =>
            if bool_decide (ftype = bc_type c) then
              rbind (bc_read c) (fun o => read_members_from_buffer fuel n cs (<[i := (true, o)]> ms))
            else skip_it
        | None => skip_it
        end)
  end.

(** The body of a [_read_binary_from_buffer] from its begin. *)
Definition struct_reader_from_buffer (begin : R unit) (fuel : nat) (cs : list b_case) (ms : list (bool * cobj))
    (fr : frame) (mem : list byte) : option (Z * option cobj) :=
  if existsb required (map bc_field cs) then None
  else
    r ← rbind begin (fun _ => read_members_from_buffer fuel fuel cs ms) fr mem 0;
    Some (match r with RReturn r => (r, None) | RNext off ms => (off, Some (CStruct ms)) end).
Definition deserialize_struct_from_buffer (f : frame -> list byte -> option (Z * option cobj)) : R cobj := fun fr mem off =>
  '(Xret, o) ← f (inner fr off) mem;
  if Xret <? 0 then Some (RReturn (-1))
  else (o ← o; off ← buffer_incr_offset off Xret; Some (RNext off o)).

Variable sizeof : ttype -> Z.
Fixpoint deserialize_field_from_buffer (fuel : nat) (ty : ttype) : R cobj :=
  match ty with
  | TBase b => deserialize_base_from_buffer b
  | TEnum => deserialize_base_from_buffer T_I32
  | TStruct _ ms =>
      if alloc_ok (sizeof ty) then
        deserialize_struct_from_buffer (struct_reader_from_buffer (rret tt) fuel
          (map (fun m => MkBCase m.1 (type_to_enum m.2) (deserialize_field_from_buffer fuel m.2)) ms) (zero_members ms))
      else rundefined
  | TList (TBase b) => deserialize_container_from_buffer (sizeof (TBase b)) b
  | _ => rundefined
  end.
Abbreviation bcases fuel ms :=
  (map (fun m => MkBCase m.1 (type_to_enum m.2) (deserialize_field_from_buffer fuel m.2)) ms).

(** [_read_binary_from_buffer] of a sandesh into the object [vs]; the name is freed. *)
Definition sandesh_read_binary_from_buffer (fuel : nat) (ms : list (t_field * ttype)) (vs : list (bool * cobj))
    (fr : frame) (mem : list byte) : option (Z * option cobj) :=
  struct_reader_from_buffer (rmap (fun _ => tt) deserialize_string_from_buffer) fuel (bcases fuel ms) vs fr mem.

(** ** The table of a program *)
Definition sandesh_infos_entry (fuel : nat) (d : list byte * list (t_field * ttype)) : sandesh_info cobj := {|
  info_name := d.1;
  info_size := sizeof (TStruct d.1 d.2);
  read_binary_from_buffer := fun buf =>
    '(ret, o) ← sandesh_read_binary_from_buffer fuel d.2 (zero_members d.2) (MkFrame 0 (zlen buf)) buf; Some (ret, o, None);
  info_write := sandesh_write d.1 d.2;
  write_binary_to_buffer := fun o buf =>
    '(ret, buf) ← sandesh_write_binary_to_buffer d.1 d.2 o (MkFrame 0 (zlen buf)) buf; Some (ret, buf, None);
|}.
Definition find_sandesh_info (fuel : nat) (ds : list (list byte * list (t_field * ttype))) : find_fn cobj :=
  sandesh_find_info (map (sandesh_infos_entry fuel) ds).

End Buffer.

(** ** [_free]: the number of blocks it releases, and the object afterwards *)
Fixpoint free_field (ty : ttype) : cobj -> Z * cobj :=
  match ty with
  | TStruct _ ms => fun o =>
      match o with
      | CStruct vs =>
          (foldr Z.add 0 (zip_with (fun f v => fst (f (snd v))) (map (fun m => free_field m.2) ms) vs) + 1, CNull)
      | _ => (0, o)
      end
  | TList _ => fun o => match o with CNull => (0, CNull) | _ => (1, CNull) end
  | TBase T_STRING | TBase T_XML => fun o => match o with CStr (Some _) => (1, CStr None) | _ => (0, o) end
  | _ => fun o => (0, o)
  end.
Definition free_members (ms : list (t_field * ttype)) (vs : list (bool * cobj)) : Z * list (bool * cobj) :=
  let rs := zip_with (fun m v => (v.1, free_field m.2 v.2)) ms vs in
  (foldr Z.add 0 (map (fun r => r.2.1) rs), map (fun r => (r.1, r.2.2)) rs).

End CGenerated.
