(* ===== verification/CGeneratedWrite.v ===== *)
(** * What the generated C writers write

    [c_to_value] is the value that the code generated for a definition writes for an
    object.  Both writers are related to its encoding: the one through the protocol with
    [CWriter.writes], the one on a block with [wputs]. *)

From S2P Require Import Prelude Transport Protocol Wire CThrift CThriftSpec CSandesh Generated GeneratedSpec GeneratedWrite CGenerated.
Import ThriftBinaryProtocol CGenerated.
Import Generated(e_req(..), t_field(..), get_key, get_name, get_req, ttype(..), type_to_enum, find_case, required).
Local Open Scope Z_scope.

Module CGeneratedWrite.

(** ** The values of objects *)
Definition c_base_value (b : TType) (o : cobj) : value :=
  match o with
  | CNum v => v
  | CIp (Some a) => VIp a
  | CStr p => VBytes b (cstr (default [] p))
  | _ => VBool false
  end.
Fixpoint c_to_value (ty : ttype) : cobj -> value :=
  match ty with
  | TBase b => c_base_value b
  | TEnum => c_base_value T_I32
  | TStruct _ ms => fun o =>
      match o with
      | CStruct vs =>
          VStruct (zip_with (fun w v => w v) (map (fun m (v : bool * cobj) => (get_key m.1, c_to_value m.2 v.2)) ms) vs)
      | _ => VStruct []
      end
  | TList (TBase b) => fun o => VList b (match o with CArray l => map (c_base_value b) l | _ => [] end)
  | _ => fun _ => VBool false
  end.
Abbreviation cpairs := (list ((t_field * ttype) * (bool * cobj))).
Definition c_field_of (p : (t_field * ttype) * (bool * cobj)) : Z * value := (get_key p.1.1, c_to_value p.1.2 p.2.2).
Definition c_fields (ms : list (t_field * ttype)) (vs : list (bool * cobj)) : list (Z * value) :=
  map c_field_of (zip ms vs).

(** ** Definitions whose code is C, without doubles, which the functions on blocks refuse *)
Definition c_base (b : TType) : bool := GeneratedSpec.base_type b && negb (bool_decide (b = T_DOUBLE)).
Definition plain (f : t_field) : Prop := get_req f = T_OPT_IN_REQ_OUT.
Fixpoint c_type_ok (ty : ttype) : Prop :=
  match ty with
  | TBase b => c_base b = true
  | TEnum => True
  | TStruct _ ms => GeneratedWrite.keys_ok ms /\ Forall (fun m => plain m.1) ms /\ Forall id (map (fun m => c_type_ok m.2) ms)
  | TList (TBase b) => c_base b = true
  | _ => False
  end.
Definition c_members_ok (ms : list (t_field * ttype)) : Prop := c_type_ok (TStruct [] ms).

(** ** Objects of a type: numbers in range, an address of a family, lengths below 2^31, no
    null pointer to a struct *)
Definition c_base_typed (b : TType) (o : cobj) : Prop :=
  match o with
  | CNum v => type_of v = b /\ value_ok v = true /\ match v with VBool _ | VInt _ _ | VUuid _ => True | _ => False end
  | CIp (Some a) => b = T_IPADDR /\ value_ok (VIp a) = true
  | CStr p => (b = T_STRING \/ b = T_XML) /\ zlen (default [] p) < 2 ^ 31
  | _ => False
  end.
Fixpoint c_typed (ty : ttype) : cobj -> Prop :=
  match ty with
  | TBase b => c_base_typed b
  | TEnum => c_base_typed T_I32
  | TStruct _ ms => fun o =>
      match o with CStruct vs => Forall2 (fun (P : cobj -> Prop) (v : bool * cobj) => P v.2) (map (fun m => c_typed m.2) ms) vs | _ => False end
  | TList (TBase b) => fun o =>
      match o with CArray l => zlen l < 2 ^ 31 /\ Forall (c_base_typed b) l | CNull => True | _ => False end
  | _ => fun _ => False
  end.
Definition c_members_typed (ms : list (t_field * ttype)) (vs : list (bool * cobj)) : Prop := c_typed (TStruct [] ms) (CStruct vs).

Lemma c_typed_struct n ms vs :
  c_typed (TStruct n ms) (CStruct vs) <-> length ms = length vs /\ Forall (fun p : (t_field * ttype) * (bool * cobj) => c_typed p.1.2 p.2.2) (zip ms vs).
Proof.
  cbn [c_typed]. rewrite Forall2_fmap_l. split.
  - intros H. induction H as [|m v ms vs Hm _ [IH1 IH2]]; [done|]. split; [cbn; by rewrite IH1|by constructor].
  - intros [Hl Hp]. revert vs Hl Hp. induction ms as [|m ms IH]; intros [|v vs] Hl Hp; try done.
    cbn in Hp. apply Forall_cons_iff in Hp as [Hm Hp]. constructor; [done|]. apply IH; [by injection Hl|done].
Qed.
Lemma c_to_value_struct n ms vs : c_to_value (TStruct n ms) (CStruct vs) = VStruct (c_fields ms vs).
Proof. cbn [c_to_value]. by rewrite GeneratedWrite.zip_apply. Qed.

Lemma cstr_prefix l : cstr l = take (length (cstr l)) l.
Proof. induction l as [|c l IH]; [done|]. cbn [cstr]. case_bool_decide; [done|]. cbn. by f_equal. Qed.
Lemma cstr_length l : (length (cstr l) <= length l)%nat.
Proof. induction l as [|c l IH]; [done|]. cbn [cstr]. case_bool_decide; cbn; lia. Qed.
Lemma cstr_no_nul l : x00 ∉ cstr l.
Proof.
  induction l as [|c l IH]; [by apply not_elem_of_nil|]. cbn [cstr]. case_bool_decide; [by apply not_elem_of_nil|].
  by apply not_elem_of_cons.
Qed.

Lemma c_base_value_ok b o : c_base b = true -> c_base_typed b o ->
  type_of (c_base_value b o) = b /\ value_ok (c_base_value b o) = true.
Proof.
  intros Hb. destruct o as [v|[a|]|p| | |]; try done; cbn [c_base_typed c_base_value].
  - by intros (?&?&?).
  - by intros [-> ?].
  - intros [Hs Hl]. split; [done|]. cbn [value_ok]. pose proof (cstr_length (default [] p)).
    destruct Hs as [-> | ->]; cbn; apply Z.ltb_lt; lia.
Qed.

Lemma c_value_type ty o : c_type_ok ty -> c_typed ty o -> type_of (c_to_value ty o) = type_to_enum ty.
Proof.
  destruct ty as [b| |n ms|[b| | | | |]| |]; try done; intros Hty Ho; cbn [c_to_value type_to_enum].
  - by apply c_base_value_ok.
  - by apply (c_base_value_ok T_I32).
  - by destruct o.
Qed.

Lemma c_base_declared b : c_base b = true -> declared b = true.
Proof. by destruct b. Qed.

Lemma c_value_ok ty : forall o, c_type_ok ty -> c_typed ty o -> value_ok (c_to_value ty o) = true.
Proof.
  induction ty as [b| |n ms IH|e _|e _|k v _ _] using GeneratedSpec.ttype_parts_ind; intros o Hty Ho; try done.
  - by apply c_base_value_ok.
  - by apply (c_base_value_ok T_I32).
  - destruct o as [| | | |vs|]; try done. apply c_typed_struct in Ho as [_ Ho]. rewrite c_to_value_struct. cbn [value_ok].
    apply forallb_forall. intros f (p&<-&Hp)%in_map_iff. destruct Hty as ([_ Hk]&_&Hms). rewrite Forall_fmap in Hms.
    destruct p as [m v]. pose proof (in_combine_l _ _ _ _ Hp) as Hm. rewrite Forall_forall in *.
    cbn [fst snd c_field_of]. rewrite (Hk m Hm), IH; [done|done|by apply Hms|by apply (Ho (m, v))].
  - destruct e as [b| | | | |]; try done. cbn [c_to_value value_ok c_type_ok c_typed] in *.
    rewrite (c_base_declared b Hty). destruct o as [| | | | |l]; try done. destruct Ho as [Hl Ho].
    rewrite length_map, (proj2 (Z.ltb_lt _ _) Hl). cbn [andb]. apply forallb_forall. intros v (x&<-&Hx)%in_map_iff.
    rewrite Forall_forall in Ho. destruct (c_base_value_ok b x Hty (Ho x Hx)) as [-> ->]. by rewrite bool_decide_eq_true_2.
Qed.

(** ** Through the protocol *)
Section Protocol.
Context `{!Allocator} {T : Type} `{CL : CWriteLaws T}.
Import CWriter.

Lemma write_string_cstr p (st : t T) : write_string p st = write_string (Some (cstr (default [] p))) st.
Proof.
  destruct p as [l|]; [|done]. unfold write_string. change (default [] (Some l)) with l. change (default [] (Some (cstr l))) with (cstr l).
  rewrite (cstr_id (cstr l)) by apply cstr_no_nul. unfold write_binary, chk1, mbind, M_bind.
  destruct (write_i32 _ st) as [[ret st']|]; [|done]. cbn [mbind option_bind]. destruct (ret <? 0); [done|].
  destruct (Z.ltb_spec 0 (u32 (zlen (cstr l)))) as [Hp|]; [|done].
  assert (u32 (zlen (cstr l)) <= zlen (cstr l)) as Hle by (apply Z.mod_le; lia).
  pose proof (cstr_length l). rewrite !mread_Some by lia. change (Z.to_nat 0) with 0%nat. rewrite !drop_0.
  assert (take (Z.to_nat (u32 (zlen (cstr l)))) l = take (Z.to_nat (u32 (zlen (cstr l)))) (cstr l)) as ->; [|done].
  rewrite (cstr_prefix l) at 3. by rewrite take_take_le by lia.
Qed.
Lemma write_string_any_writes p :
  zlen (default [] p) < 2 ^ 31 -> writes (write_string p) (count (zlen (cstr (default [] p))) ++ cstr (default [] p)).
Proof.
  intros Hl s Hok Hsz. rewrite write_string_cstr. pose proof (cstr_length (default [] p)).
  apply write_string_writes; [lia|apply cstr_no_nul|done|done].
Qed.

Lemma serialize_base_writes b o : c_base b = true -> c_base_typed b o -> writes (serialize_base b o) (encode (c_base_value b o)).
Proof.
  intros Hb Ho. destruct o as [v|[a|]|p| | |]; try done; cbn [c_base_typed c_base_value] in *.
  - destruct Ho as (<-&Hv&Hn). destruct v as [x|ty z| | | |l| | | | |]; try done.
    + destruct x; apply write_byte_writes.
    + cbn [type_of] in *. destruct ty; try done; exact (write_int_writes _ z Hv).
    + cbn [value_ok encode type_of serialize_base] in *. zify_bools. apply put_writes. lia.
  - destruct Ho as [-> Hv]. by apply write_ipaddr_writes.
  - destruct Ho as [[-> | ->] Hl]; by apply write_string_any_writes.
Qed.

(** Calls one after the other that emit [d]. *)
Definition emits (ms : list (M (t T) Z)) (d : list byte) : Prop := exists ds, Forall2 writes ms ds /\ concat ds = d.
Lemma emits_one m d : writes m d -> emits [m] d.
Proof. intros Hm. exists [d]. split; [by repeat constructor|]. by cbn; rewrite app_nil_r. Qed.
Lemma emits_app ms ms' d d' : emits ms d -> emits ms' d' -> emits (ms ++ ms') (d ++ d').
Proof. intros (ds&Hd&<-) (ds'&Hd'&<-). exists (ds ++ ds'). split; [by apply Forall2_app|apply concat_app]. Qed.
Lemma emits_concat {A} (f : A -> list (M (t T) Z)) (g : A -> list byte) l :
  Forall (fun a => emits (f a) (g a)) l -> emits (concat (map f l)) (concat (map g l)).
Proof. induction 1; [by exists []|]. cbn [map concat]. by apply emits_app. Qed.
Lemma emits_map {A} (f : A -> M (t T) Z) (g : A -> list byte) l :
  Forall (fun a => writes (f a) (g a)) l -> emits (map f l) (concat (map g l)).
Proof. intros Hl. exists (map g l). split; [by apply Forall2_map_writes|done]. Qed.
Lemma emits_xfers ms d : emits ms d -> writes (xfers ms 0) d.
Proof. intros (ds&Hds&E). by eapply calls_writes. Qed.

Lemma field_begin_writes ty id : writes (write_field_begin ty id) (byte_code ty ++ be_bytes 2 id).
Proof.
  apply (calls_writes _ [byte_code ty; be_bytes 2 id]); [|cbn [concat]; by rewrite app_nil_r].
  repeat constructor; [apply write_code_writes|]. apply put_writes. by rewrite length_be_bytes.
Qed.

Lemma plain_not_optional f : plain f -> optional f = false.
Proof. unfold plain, optional. intros ->. done. Qed.

(** A struct or a sandesh from the text of its begin. *)
Lemma struct_writer_writes begin dbegin end_ ms vs :
  writes begin dbegin -> writes end_ [] -> Forall (fun m : t_field * ttype => plain m.1 /\ c_type_ok m.2) ms ->
  Forall (fun p => c_typed p.1.2 p.2.2 /\ emits (serialize_field p.1.2 p.2.2) (encode (c_to_value p.1.2 p.2.2))) (zip ms vs) ->
  writes (struct_writer begin (zip_with (fun w v => w v) (map (fun m v => write_member m.1 m.2 v (serialize_field m.2)) ms) vs) end_)
    (dbegin ++ encode_fields (c_fields ms vs)).
Proof.
  intros Hb He Hms Hp. apply emits_xfers, emits_app; [by apply emits_one|]. rewrite GeneratedWrite.zip_apply.
  apply emits_app.
  - unfold c_fields. rewrite map_map. apply emits_concat. rewrite Forall_forall in *. intros [m v] Hin.
    pose proof (in_combine_l _ _ _ _ Hin) as Hm. destruct (Hms m Hm) as [Hpl Hty]. destruct (Hp _ Hin) as [Ht He'].
    cbn [fst snd] in *. unfold write_member. rewrite (plain_not_optional _ Hpl). cbn [andb].
    unfold encode_field, c_field_of. cbn [fst snd]. rewrite (c_value_type _ _ Hty Ht), (app_assoc (byte_code _)).
    apply emits_app; [apply emits_one, field_begin_writes|].
    rewrite <- (app_nil_r (encode _)). apply emits_app; [done|]. apply emits_one, ret_writes.
  - exists [byte_code T_STOP; []]. split; [|done]. repeat constructor; [apply write_code_writes|done].
Qed.

Lemma serialize_field_emits ty : forall o, c_type_ok ty -> c_typed ty o ->
  emits (serialize_field ty o) (encode (c_to_value ty o)).
Proof.
  induction ty as [b| |n ms IH|e _|e _|k v _ _] using GeneratedSpec.ttype_parts_ind; intros o Hty Ho; try done.
  - by apply emits_one, serialize_base_writes.
  - by apply emits_one, (serialize_base_writes T_I32).
  - destruct o as [| | | |vs|]; try done. apply c_typed_struct in Ho as [_ Ho]. rewrite c_to_value_struct.
    destruct Hty as (_&Hpl&Hms). rewrite Forall_fmap in Hms. apply emits_one.
    apply (struct_writer_writes _ [] _ ms vs); [apply ret_writes..| |]; rewrite Forall_forall in *.
    + intros m Hm. split; [by apply Hpl|by apply Hms].
    + intros [m v] Hin. pose proof (in_combine_l _ _ _ _ Hin) as Hm. specialize (Ho _ Hin). split; [done|].
      apply IH; [done|by apply Hms|done].
  - destruct e as [b| | | | |]; try done. cbn [serialize_field c_to_value encode c_type_ok] in *.
    set (l := match o with CArray l => l | _ => [] end).
    assert (zlen l < 2 ^ 31 /\ Forall (c_base_typed b) l) as [Hl Hb] by (destruct o; try done; by repeat constructor).
    assert (match o with CArray l => map (c_base_value b) l | _ => [] end = map (c_base_value b) l) as -> by (by destruct o).
    rewrite length_map, (app_assoc (byte_code _)), <- (app_nil_r (concat _)). unfold serialize_container. fold l.
    apply emits_app; [|apply emits_app; [|by apply emits_one, ret_writes]].
    + apply emits_one. rewrite (wrapU_small 32) by lia.
      apply (calls_writes _ [byte_code b; count (zlen l)]); [|cbn [concat]; by rewrite app_nil_r].
      repeat constructor; [apply write_code_writes|apply write_count_writes].
    + rewrite map_map. apply emits_map. rewrite Forall_forall in *. intros x Hx. apply serialize_base_writes; auto.
Qed.

Lemma sandesh_write_writes name ms vs :
  zlen name < 2 ^ 31 -> x00 ∉ name -> c_members_ok ms -> c_members_typed ms vs ->
  writes (sandesh_write name ms (CStruct vs)) (encode (VSandesh name (c_fields ms vs))).
Proof.
  intros Hn Hnul (_&Hpl&Hms) Ho. apply (c_typed_struct []) in Ho as [_ Ho]. rewrite Forall_fmap in Hms.
  change (encode (VSandesh name (c_fields ms vs))) with (count (zlen name) ++ name ++ encode_fields (c_fields ms vs)).
  rewrite app_assoc. apply (struct_writer_writes _ (count (zlen name) ++ name)); [by apply write_sandesh_begin_writes|apply ret_writes| |]; rewrite Forall_forall in *.
  - intros m Hm. split; [by apply Hpl|by apply Hms].
  - intros [m v] Hin. pose proof (in_combine_l _ _ _ _ Hin) as Hm. specialize (Ho _ Hin). split; [done|].
    apply serialize_field_emits; [by apply Hms|done].
Qed.
End Protocol.

(** ** On a block *)

(** The bytes of the frame are in the block. *)
Definition frame_ok (fr : frame) (mem : list byte) : Prop :=
  0 <= Xbuf fr /\ 0 <= Xbuflen fr < 2 ^ 64 /\ Xbuf fr + Xbuflen fr <= zlen mem.
(** The block as before, but for the bytes of the frame. *)
Definition outside (fr : frame) (mem mem' : list byte) : Prop :=
  length mem' = length mem /\ take (Z.to_nat (Xbuf fr)) mem' = take (Z.to_nat (Xbuf fr)) mem /\
  drop (Z.to_nat (Xbuf fr + Xbuflen fr)) mem' = drop (Z.to_nat (Xbuf fr + Xbuflen fr)) mem.

(** [w] copies [d] to the offset, or returns -1 because it does not fit. *)
Definition wputs (w : W) (d : list byte) : Prop := forall fr mem off,
  frame_ok fr mem -> 0 <= off <= Xbuflen fr -> off + zlen d <= INT_MAX ->
  if off + zlen d <=? Xbuflen fr
  then exists mem', w fr mem off = Some (Next (off + zlen d), mem') /\ memcpy mem (Xbuf fr + off) d = Some mem'
  else exists mem', w fr mem off = Some (Return (-1), mem') /\ outside fr mem mem'.

Lemma outside_refl fr mem : outside fr mem mem.
Proof. done. Qed.
Lemma outside_trans fr m1 m2 m3 : outside fr m1 m2 -> outside fr m2 m3 -> outside fr m1 m3.
Proof. intros (E1&E2&E3) (F1&F2&F3). split; [congruence|]. split; congruence. Qed.
Lemma memcpy_outside fr mem off d mem' :
  frame_ok fr mem -> 0 <= off -> off + zlen d <= Xbuflen fr -> memcpy mem (Xbuf fr + off) d = Some mem' -> outside fr mem mem'.
Proof.
  intros (?&?&?) Ho Hd E. split; [by eapply memcpy_length|]. split; [eapply memcpy_take_below; [exact E|lia]|].
  apply memcpy_inv in E as (_&_&->). rewrite app_assoc, drop_app_ge; rewrite length_app, length_take; [|lia].
  rewrite drop_drop. f_equal. lia.
Qed.
Lemma outside_ok fr mem mem' : outside fr mem mem' -> frame_ok fr mem -> frame_ok fr mem'.
Proof. intros (E&_) (?&?&?). split; [done|]. split; [done|]. by rewrite E. Qed.
Lemma memcpy_nil mem off : 0 <= off <= zlen mem -> memcpy mem off [] = Some mem.
Proof. intros. rewrite memcpy_Some by (cbn; lia). cbn. by rewrite Nat.add_0_r, take_drop. Qed.

Lemma bounds_chk_ok fr off n : 0 <= off + n <= INT_MAX -> buffer_bounds_chk fr off n = Some (off + n <=? Xbuflen fr).
Proof.
  unfold buffer_bounds_chk, INT_MAX. intros Hn. destruct (Z.ltb_spec (2 ^ 31 - 1) (off + n)); [lia|].
  by rewrite (wrapU_small 64) by lia.
Qed.
Lemma incr_offset_ok off n : off + n <= INT_MAX -> buffer_incr_offset off n = Some (off + n).
Proof. unfold buffer_incr_offset. intros. by destruct (Z.ltb_spec INT_MAX (off + n)); [lia|]. Qed.

Lemma chk_memcpy_puts d n : n = zlen d -> wputs (write_buffer_chk_memcpy_incr_offset d n) d.
Proof.
  intros -> fr mem off Hf Ho Hi. unfold write_buffer_chk_memcpy_incr_offset, write_buffer_memcpy_incr_offset.
  rewrite bounds_chk_ok by lia. cbn [mbind option_bind]. destruct (Z.leb_spec (off + zlen d) (Xbuflen fr)); [|by eexists].
  rewrite mread_Some by lia. change (Z.to_nat 0) with 0%nat. rewrite drop_0, Nat2Z.id, firstn_all. cbn [mbind option_bind].
  destruct Hf as (?&?&?). rewrite memcpy_Some by lia. cbn [mbind option_bind]. rewrite incr_offset_ok by done. by eexists.
Qed.
Lemma put_bytes_puts d : wputs (put_bytes d) d.
Proof. by apply chk_memcpy_puts. Qed.

(** Steps one after the other that put [d]. *)
Definition puts (ws : list W) (d : list byte) : Prop := exists ds, Forall2 wputs ws ds /\ concat ds = d.
Lemma puts_one w d : wputs w d -> puts [w] d.
Proof. intros H. exists [d]. split; [by repeat constructor|]. by cbn; rewrite app_nil_r. Qed.
Lemma puts_app ws ws' d d' : puts ws d -> puts ws' d' -> puts (ws ++ ws') (d ++ d').
Proof. intros (ds&H1&<-) (ds'&H2&<-). exists (ds ++ ds'). split; [by apply Forall2_app|apply concat_app]. Qed.
Lemma puts_concat {A} (f : A -> list W) (g : A -> list byte) l :
  Forall (fun a => puts (f a) (g a)) l -> puts (concat (map f l)) (concat (map g l)).
Proof. induction 1; [by exists []|]. cbn [map concat]. by apply puts_app. Qed.
Lemma puts_two a b d e : wputs a d -> wputs b e -> puts [a; b] (d ++ e).
Proof. intros. exists [d; e]. split; [by repeat constructor|]. by cbn; rewrite app_nil_r. Qed.

Lemma run_all_puts ws d : puts ws d -> wputs (run_all ws) d.
Proof.
  intros (ds&Hws&<-). induction Hws as [|w d ws ds Hw _ IH]; intros fr mem off Hf Ho Hi; cbn [run_all concat] in *.
  - cbn. rewrite Z.add_0_r. destruct (Z.leb_spec off (Xbuflen fr)); [|lia]. exists mem. split; [done|].
    apply memcpy_nil. destruct Hf as (?&?&?). lia.
  - rewrite length_app, Nat2Z.inj_add in *. specialize (Hw fr mem off Hf Ho ltac:(lia)).
    destruct (Z.leb_spec (off + zlen d) (Xbuflen fr)) as [Hd|Hd].
    + destruct Hw as (m1&->&E1). cbn [mbind option_bind].
      assert (outside fr mem m1) as Ho1 by (eapply memcpy_outside; [done| |exact Hd|done]; lia).
      specialize (IH fr m1 (off + zlen d) (outside_ok _ _ _ Ho1 Hf) ltac:(lia) ltac:(lia)).
      rewrite Z.add_assoc. destruct (Z.leb_spec (off + zlen d + zlen (concat ds)) (Xbuflen fr)).
      * destruct IH as (m2&->&E2). exists m2. split; [done|]. rewrite <- E2, Z.add_assoc. symmetry.
        apply memcpy_app; [done|]. destruct Hf as (?&?&?). lia.
      * destruct IH as (m2&->&E2). exists m2. split; [done|by eapply outside_trans].
    + destruct Hw as (m1&->&E1). cbn [mbind option_bind].
      destruct (Z.leb_spec (off + (zlen d + zlen (concat ds))) (Xbuflen fr)); [lia|]. by exists m1.
Qed.

Lemma binary_puts l : zlen l < 2 ^ 31 -> puts (write_buffer_binary l (zlen l)) (count (zlen l) ++ l).
Proof. intros. apply puts_two; [apply put_bytes_puts|by apply chk_memcpy_puts]. Qed.

Lemma serialize_base_puts b o : c_base b = true -> c_base_typed b o ->
  puts (serialize_base_to_buffer b o) (encode (c_base_value b o)).
Proof.
  intros Hb Ho. destruct o as [v|[a|]|p| | |]; try done; cbn [c_base_typed c_base_value] in *.
  - destruct Ho as (<-&Hv&Hn). destruct v as [x|ty z| | | |l| | | | |]; try done.
    + destruct x; apply puts_one, put_bytes_puts.
    + cbn [type_of] in *. destruct ty; try done; cbn [serialize_base_to_buffer encode int_info]; apply puts_one;
        rewrite ?os_put_value64_be; try apply put_bytes_puts.
      rewrite (be_bytes_low 8 (u64 z) z) by (unfold wrapU; by rewrite Z.mod_mod). apply put_bytes_puts.
    + cbn [value_ok encode type_of serialize_base_to_buffer] in *. zify_bools. apply puts_one, chk_memcpy_puts. lia.
  - destruct Ho as [-> Hv]. destruct a; cbn [value_ok serialize_base_to_buffer serialize_ipaddr_to_buffer encode] in *;
      zify_bools; (apply puts_two; [apply put_bytes_puts|apply chk_memcpy_puts; lia]).
  - destruct Ho as [Hs Hl]. pose proof (cstr_length (default [] p)).
    assert (puts (serialize_string_to_buffer p) (encode (VBytes b (cstr (default [] p))))) as Hp.
    { unfold serialize_string_to_buffer. rewrite (wrapS_small 32) by lia. apply binary_puts. lia. }
    by destruct Hs as [-> | ->].
Qed.

Lemma type_code_eq ty : type_code ty = byte_code ty.
Proof. unfold type_code, byte_code. apply be_bytes_low. by apply (wrapU_wrapS (8 * Z.of_nat 1)). Qed.
Lemma code_and_puts ty e : puts [put_bytes (type_code ty); put_bytes e] (byte_code ty ++ e).
Proof. apply puts_two; [rewrite type_code_eq|]; apply put_bytes_puts. Qed.

(** The body of a struct or a sandesh, as a step of a function on a frame of its own. *)
Abbreviation member_steps ms := (map (fun m (v : bool * cobj) =>
  field_begin_writer_to_buffer (get_key m.1) (type_to_enum m.2) ++ serialize_field_to_buffer m.2 v.2) ms).
Definition fputs (f : frame -> list byte -> option (Z * list byte)) (d : list byte) : Prop := forall fr mem,
  frame_ok fr mem -> zlen d <= INT_MAX ->
  if zlen d <=? Xbuflen fr
  then exists mem', f fr mem = Some (zlen d, mem') /\ memcpy mem (Xbuf fr) d = Some mem'
  else exists mem', f fr mem = Some (-1, mem') /\ outside fr mem mem'.

Lemma struct_writer_fputs begin dbegin ms vs :
  puts begin dbegin -> Forall (fun m : t_field * ttype => plain m.1 /\ c_type_ok m.2) ms ->
  Forall (fun p => c_typed p.1.2 p.2.2 /\ puts (serialize_field_to_buffer p.1.2 p.2.2) (encode (c_to_value p.1.2 p.2.2))) (zip ms vs) ->
  fputs (struct_writer_to_buffer begin (map fst ms) (zip_with (fun w v => w v) (member_steps ms) vs))
    (dbegin ++ encode_fields (c_fields ms vs)).
Proof.
  intros Hb Hms Hp. assert (puts (begin ++ concat (zip_with (fun w v => w v) (member_steps ms) vs) ++ field_stop_writer_to_buffer)
    (dbegin ++ encode_fields (c_fields ms vs))) as Hall.
  { apply puts_app; [done|]. rewrite GeneratedWrite.zip_apply. apply puts_app.
    - unfold c_fields. rewrite map_map. apply puts_concat. rewrite Forall_forall in *. intros [m v] Hin.
      pose proof (in_combine_l _ _ _ _ Hin) as Hm. destruct (Hms m Hm) as [Hpl Hty]. destruct (Hp _ Hin) as [Ht He'].
      cbn [fst snd] in *. unfold encode_field, c_field_of. cbn [fst snd].
      rewrite (c_value_type _ _ Hty Ht), (app_assoc (byte_code _)). apply puts_app; [apply code_and_puts|done].
    - apply puts_one. rewrite type_code_eq. apply put_bytes_puts. }
  set (d := dbegin ++ _) in *. clearbody d. intros fr mem Hf Hd. unfold struct_writer_to_buffer.
  assert (existsb optional (map fst ms) = false) as ->.
  { apply not_true_iff_false. intros (f&(m&<-&Hm)%in_map_iff&E)%existsb_exists. rewrite Forall_forall in Hms.
    destruct (Hms m Hm) as [Hpl _]. by rewrite plain_not_optional in E. }
  pose proof (run_all_puts _ _ Hall fr mem 0 Hf) as Hr. rewrite Z.add_0_l, Z.add_0_r in Hr. destruct Hf as (?&?&?).
  specialize (Hr ltac:(lia) Hd). destruct (zlen d <=? Xbuflen fr); destruct Hr as (mem'&->&Hr); by exists mem'.
Qed.

Lemma struct_step_puts f d : fputs f d -> wputs (serialize_struct_to_buffer f) d.
Proof.
  intros Hf fr mem off (?&?&?) Ho Hi. unfold serialize_struct_to_buffer.
  assert (Xbuflen (inner fr off) = Xbuflen fr - off) as El by (cbn; apply (wrapU_small 64); lia).
  assert (frame_ok (inner fr off) mem) as Hfr by (split; [cbn; lia|]; rewrite El; cbn; lia).
  specialize (Hf (inner fr off) mem Hfr ltac:(lia)). rewrite El in Hf.
  destruct (Z.leb_spec (zlen d) (Xbuflen fr - off)), (Z.leb_spec (off + zlen d) (Xbuflen fr)); try lia;
    destruct Hf as (mem'&->&Hm); cbn [mbind option_bind].
  - destruct (Z.ltb_spec (zlen d) 0); [lia|]. rewrite incr_offset_ok by done. by exists mem'.
  - cbn. exists mem'. split; [done|]. destruct Hm as (E1&E2&E3). rewrite El in E3. cbn [inner Xbuf] in *.
    replace (Xbuf fr + off + (Xbuflen fr - off)) with (Xbuf fr + Xbuflen fr) in E3 by lia.
    split; [done|]. split; [|done]. apply (f_equal (take (Z.to_nat (Xbuf fr)))) in E2.
    by rewrite !take_take_le in E2 by lia.
Qed.

Lemma serialize_field_puts ty : forall o, c_type_ok ty -> c_typed ty o ->
  puts (serialize_field_to_buffer ty o) (encode (c_to_value ty o)).
Proof.
  induction ty as [b| |n ms IH|e _|e _|k v _ _] using GeneratedSpec.ttype_parts_ind; intros o Hty Ho; try done.
  - by apply serialize_base_puts.
  - by apply (serialize_base_puts T_I32).
  - destruct o as [| | | |vs|]; try done. apply c_typed_struct in Ho as [_ Ho]. rewrite c_to_value_struct.
    destruct Hty as (_&Hpl&Hms). rewrite Forall_fmap in Hms. apply puts_one, struct_step_puts.
    apply (struct_writer_fputs [] [] ms vs); [by exists []| |]; rewrite Forall_forall in *.
    + intros m Hm. split; [by apply Hpl|by apply Hms].
    + intros [m v] Hin. pose proof (in_combine_l _ _ _ _ Hin) as Hm. specialize (Ho _ Hin). split; [done|].
      apply IH; [done|by apply Hms|done].
  - destruct e as [b| | | | |]; try done. cbn [serialize_field_to_buffer c_to_value encode c_type_ok] in *.
    set (l := match o with CArray l => l | _ => [] end).
    assert (zlen l < 2 ^ 31 /\ Forall (c_base_typed b) l) as [Hl Hb] by (destruct o; try done; by repeat constructor).
    assert (match o with CArray l => map (c_base_value b) l | _ => [] end = map (c_base_value b) l) as -> by (by destruct o).
    rewrite length_map, (app_assoc (byte_code _)). unfold serialize_container_to_buffer. fold l.
    apply puts_app; [rewrite (wrapU_small 32) by lia; apply code_and_puts|].
    rewrite map_map. apply puts_concat. rewrite Forall_forall in *. intros x Hx. apply serialize_base_puts; auto.
Qed.

Lemma sandesh_write_fputs name ms vs :
  zlen name < 2 ^ 31 -> c_members_ok ms -> c_members_typed ms vs ->
  fputs (sandesh_write_binary_to_buffer name ms (CStruct vs)) (encode (VSandesh name (c_fields ms vs))).
Proof.
  intros Hn (_&Hpl&Hms) Ho. apply (c_typed_struct []) in Ho as [_ Ho]. rewrite Forall_fmap in Hms.
  change (encode (VSandesh name (c_fields ms vs))) with (count (zlen name) ++ name ++ encode_fields (c_fields ms vs)).
  rewrite app_assoc. apply struct_writer_fputs; [by apply binary_puts| |]; rewrite Forall_forall in *.
  - intros m Hm. split; [by apply Hpl|by apply Hms].
  - intros [m v] Hin. pose proof (in_combine_l _ _ _ _ Hin) as Hm. specialize (Ho _ Hin). split; [done|].
    apply serialize_field_puts; [by apply Hms|done].
Qed.

(** *** Doubles: the function on a block gives up when it comes to one *)
Lemma run_all_app ws ws' fr mem off :
  run_all (ws ++ ws') fr mem off =
  ('(o, mem) ← run_all ws fr mem off;
   match o with Return r => Some (Return r, mem) | Next off => run_all ws' fr mem off end).
Proof.
  revert mem off. induction ws as [|w ws IH]; intros mem off; [done|]. cbn [app run_all].
  destruct (w fr mem off) as [[[r|off'] mem']|]; [done|apply IH|done].
Qed.
Lemma refused_steps ws d ws' fr mem :
  puts ws d -> frame_ok fr mem -> zlen d <= INT_MAX ->
  exists mem', run_all (ws ++ (fun _ mem _ => Some (Return (-1), mem)) :: ws') fr mem 0 = Some (Return (-1), mem') /\
    outside fr mem mem'.
Proof.
  intros Hws Hf Hd. rewrite run_all_app. pose proof Hf as (?&?&?).
  pose proof (run_all_puts ws d Hws fr mem 0 Hf ltac:(lia) ltac:(lia)) as Hr. rewrite Z.add_0_l in Hr.
  destruct (Z.leb_spec (zlen d) (Xbuflen fr)); destruct Hr as (mem'&->&Hm); cbn [mbind option_bind run_all];
    exists mem'; (split; [done|]); [|done]. apply (memcpy_outside fr mem 0 d); [done..|by rewrite Z.add_0_r in *].
Qed.
Lemma sandesh_write_double name ms vs m ms2 vs2 set bits fr mem :
  let d := encode (VSandesh name (c_fields ms vs)) in
  zlen name < 2 ^ 31 -> c_members_ok ms -> c_members_typed ms vs -> Forall (fun m : t_field * ttype => plain m.1) ((m, TBase T_DOUBLE) :: ms2) ->
  frame_ok fr mem -> zlen d + 2 <= INT_MAX ->
  exists mem', sandesh_write_binary_to_buffer name (ms ++ (m, TBase T_DOUBLE) :: ms2)
      (CStruct (vs ++ (set, CNum (VDouble bits)) :: vs2)) fr mem = Some (-1, mem') /\ outside fr mem mem'.
Proof.
  intros d Hn (_&Hpl&Hms) Ho Hpl2 Hf Hd. apply (c_typed_struct []) in Ho as [Hl Ho]. rewrite Forall_fmap in Hms.
  unfold sandesh_write_binary_to_buffer, struct_writer_to_buffer.
  assert (existsb optional (map fst (ms ++ (m, TBase T_DOUBLE) :: ms2)) = false) as ->.
  { apply not_true_iff_false. intros (f&(x&<-&Hx)%in_map_iff&E)%existsb_exists. rewrite Forall_forall in *.
    assert (plain x.1) as Hp by (apply in_app_or in Hx as [Hx|Hx]; auto). by rewrite plain_not_optional in E. }
  rewrite map_app, zip_with_app by (rewrite length_map; lia). cbn [map zip_with].
  rewrite concat_app. cbn [concat fst snd serialize_field_to_buffer serialize_base_to_buffer serialize_double_to_buffer].
  unfold serialize_double_to_buffer.
  set (w1 := concat (zip_with _ _ vs)). set (w3 := concat (zip_with _ _ vs2)).
  replace (write_buffer_binary name (zlen name) ++ (w1 ++ (field_begin_writer_to_buffer (get_key m) (type_to_enum (TBase T_DOUBLE)) ++
      [fun _ mem _ => Some (Return (-1), mem)]) ++ w3) ++ field_stop_writer_to_buffer)
    with ((write_buffer_binary name (zlen name) ++ w1 ++ field_begin_writer_to_buffer (get_key m) (type_to_enum (TBase T_DOUBLE))) ++
      (fun (_ : frame) (mem : list byte) (_ : Z) => Some (Return (-1), mem)) :: w3 ++ field_stop_writer_to_buffer)
    by (by rewrite <- !app_assoc).
  edestruct (refused_steps (write_buffer_binary name (zlen name) ++ w1 ++ field_begin_writer_to_buffer (get_key m) (type_to_enum (TBase T_DOUBLE)))
    ((count (zlen name) ++ name) ++ concat (map encode_field (c_fields ms vs)) ++ (byte_code T_DOUBLE ++ be_bytes 2 (get_key m)))) as (mem'&->&Hm);
    [|exact Hf| |exists mem'; by split].
  - apply puts_app; [by apply binary_puts|]. apply puts_app; [|apply code_and_puts].
    unfold w1. rewrite GeneratedWrite.zip_apply. unfold c_fields. rewrite map_map. apply puts_concat.
    rewrite Forall_forall in *. intros [x v] Hin. pose proof (in_combine_l _ _ _ _ Hin) as Hm. specialize (Ho _ Hin).
    unfold encode_field, c_field_of. cbn [fst snd] in *. rewrite (c_value_type _ _ (Hms x Hm) Ho), (app_assoc (byte_code _)).
    apply puts_app; [apply code_and_puts|]. apply serialize_field_puts; [by apply Hms|done].
  - unfold d in Hd. change (encode (VSandesh name (c_fields ms vs))) with
      (count (zlen name) ++ name ++ concat (map encode_field (c_fields ms vs)) ++ byte_code T_STOP) in Hd.
    rewrite !length_app in *. rewrite length_be_bytes. change (length (byte_code T_STOP)) with 1%nat in Hd.
    change (length (byte_code T_DOUBLE)) with 1%nat. lia.
Qed.
End CGeneratedWrite.
