(* ===== verification/CGeneratedRead.v ===== *)
(** * What the generated C readers make of a message

    [c_conv] says, without the protocol and the block, which object the code generated for
    one definition makes of a value that another definition may have written.  Both readers
    are related to it: on a whole message, with fields that must be skipped, and on a message
    that was cut short, if nothing in it must be skipped. *)

From S2P Require Import Prelude Transport Protocol Wire CThrift CThriftSpec CReaderSpec CSandesh.
From S2P Require Import Generated GeneratedSpec GeneratedWrite CGenerated CGeneratedWrite.
Import ThriftBinaryProtocol CGenerated CGeneratedWrite.
Import Generated(e_req(..), t_field(..), get_key, get_name, get_req, ttype(..), type_to_enum, find_case, required).
Local Open Scope Z_scope.

Module CGeneratedRead.

(** ** The reference *)
Definition c_base_obj (v : value) : cobj :=
  match v with
  | VBytes _ l => CStr (match l with [] => None | _ => Some l end)
  | VIp a => CIp (Some a)
  | _ => CNum v
  end.
Record k_case := MkK { k_field : t_field; k_type : TType; k_conv : value -> cobj }.
Definition k_key (c : k_case) : Z := get_key (k_field c).
Definition c_conv_member (cs : list k_case) (vs : list (bool * cobj)) (f : Z * value) : list (bool * cobj) :=
  match find_case k_key f.1 cs with
  | Some (i, c) => if bool_decide (type_of f.2 = k_type c) then <[i := (true, k_conv c f.2)]> vs else vs
  | None => vs
  end.
Definition c_conv_members (cs : list k_case) (fs : list (Z * value)) (vs : list (bool * cobj)) : list (bool * cobj) :=
  foldl (c_conv_member cs) vs fs.
Fixpoint c_conv (ty : ttype) : value -> cobj :=
  match ty with
  | TStruct _ ms => fun v =>
      match v with
      | VStruct fs => CStruct (c_conv_members (map (fun m => MkK m.1 (type_to_enum m.2) (c_conv m.2)) ms) fs (zero_members ms))
      | _ => CNull
      end
  | TList _ => fun v => match v with VList _ vs => CArray (map c_base_obj vs) | _ => CNull end
  | _ => c_base_obj
  end.
Abbreviation kcases ms := (map (fun m => MkK m.1 (type_to_enum m.2) (c_conv m.2)) ms).
(** A sandesh read into an object of zeros. *)
Definition c_conv_sandesh (ms : list (t_field * ttype)) (fs : list (Z * value)) : cobj :=
  CStruct (c_conv_members (kcases ms) fs (zero_members ms)).

(** ** Values that a reader takes: elements of lists of its type, fields of a member that
    are of its type, and other fields that can be skipped whatever the stack holds, or
    with [strict] no others *)
Definition field_compat (strict : bool) (cs : list (t_field * TType * (value -> bool))) (f : Z * value) : bool :=
  match find_case (fun c : t_field * TType * (value -> bool) => get_key c.1.1) f.1 cs with
  | Some (_, c) => if bool_decide (type_of f.2 = c.1.2) then c.2 f.2 else negb strict && CSkip.skippable false f.2
  | None => negb strict && CSkip.skippable false f.2
  end.
Fixpoint c_compat (strict : bool) (ty : ttype) : value -> bool :=
  match ty with
  | TBase b => fun v => bool_decide (type_of v = b)
  | TEnum => fun v => bool_decide (type_of v = T_I32)
  | TStruct _ ms => fun v =>
      match v with
      | VStruct fs => forallb (field_compat strict (map (fun m => (m.1, type_to_enum m.2, c_compat strict m.2)) ms)) fs
      | _ => false
      end
  | TList (TBase b) => fun v => match v with VList ety _ => bool_decide (ety = b) | _ => false end
  | _ => fun _ => false
  end.
Definition c_fields_compat (strict : bool) (ms : list (t_field * ttype)) (fs : list (Z * value)) : bool :=
  c_compat strict (TStruct [] ms) (VStruct fs).

(** Fields that can be written and that [fuel] is enough for. *)
Definition field_ok (fuel : nat) (f : Z * value) : Prop :=
  int_fits 2 true f.1 = true /\ value_ok f.2 = true /\ (fuel_for f.2 <= fuel)%nat.
Lemma fields_ok fuel fs :
  forallb (fun f : Z * value => int_fits 2 true f.1 && value_ok f.2) fs = true ->
  (fuel_for (VStruct fs) <= S fuel)%nat -> Forall (field_ok fuel) fs /\ (length fs < fuel)%nat.
Proof.
  intros Hok Hf. cbn [fuel_for] in Hf. split; [|lia]. apply Forall_forall. intros f Hin.
  apply forallb_forall with (x := f) in Hok; [|done]. zify_bools. split; [done|]. split; [done|].
  pose proof (list_max_le_in (fun f => fuel_for f.2) fs f Hin). cbn beta in *. lia.
Qed.

(** What [field_compat] says of a field, in terms of the reader's members. *)
Lemma field_compat_cases strict ms f :
  field_compat strict (map (fun m => (m.1, type_to_enum m.2, c_compat strict m.2)) ms) f = true ->
  (exists i m, find_case (fun m => get_key m.1) f.1 ms = Some (i, m) /\ type_of f.2 = type_to_enum m.2 /\ c_compat strict m.2 f.2 = true /\ In m ms) \/
  (strict = false /\ CSkip.skippable false f.2 = true /\
   (find_case (fun m => get_key m.1) f.1 ms = None \/
    exists i m, find_case (fun m => get_key m.1) f.1 ms = Some (i, m) /\ type_of f.2 <> type_to_enum m.2)).
Proof.
  unfold field_compat. rewrite GeneratedSpec.find_case_map. cbn [fst].
  destruct (find_case _ f.1 ms) as [[i m]|] eqn:E; cbn [fmap option_fmap option_map fst snd].
  - case_bool_decide as Ht.
    + intros Hc. left. exists i, m. split; [done|]. split; [done|]. split; [done|].
      apply GeneratedSpec.find_case_lookup in E as [E _]. apply list_elem_of_In. by eapply list_elem_of_lookup_2.
    + intros Hc. right. zify_bools. split; [done|]. split; [done|]. right. by exists i, m.
  - intros Hc. right. zify_bools. split; [done|]. split; [done|]. by left.
Qed.

Lemma conv_member_eq ms vs f :
  c_conv_member (kcases ms) vs f =
  match find_case (fun m => get_key m.1) f.1 ms with
  | Some (i, m) => if bool_decide (type_of f.2 = type_to_enum m.2) then <[i := (true, c_conv m.2 f.2)]> vs else vs
  | None => vs
  end.
Proof.
  unfold c_conv_member. rewrite GeneratedSpec.find_case_map. unfold k_key. cbn [k_field].
  by destruct (find_case _ f.1 ms) as [[i m]|].
Qed.

(** ** Through the protocol *)
Section Protocol.
Context `{!Allocator} (Halloc : forall k, alloc_ok k = true).
Import CReader.
Abbreviation S := (t ThriftMemoryBuffer.t).

(** All of [e] is there, behind [n] bytes that were counted: [a].  With [strict], a part of
    it is there: -1 and the error. *)
Definition creads (strict : bool) {A} (m : M S (Z * option A)) (n : Z) (e : list byte) (a : A) : Prop :=
  forall s, n + zlen e < 2 ^ 31 ->
  (forall rest, ready s (e ++ rest) ->
     exists s', m s = Some ((n + zlen e, Some a), s') /\ ready s' rest /\ error s' = error s) /\
  (strict = true -> forall l, ready s l -> cut l e ->
     exists s', m s = Some ((-1, None), s') /\ error s' = THRIFT_TRANSPORT_ERROR_RECEIVE).

Lemma creads_i32 strict {A} (m : Z -> M S (Z * option A)) n n' e a :
  creads strict (m n') n' e a -> n = n' -> 0 <= n -> creads strict (m (i32 n)) n' e a.
Proof.
  intros Hm <- Hn s Hsz. assert (i32 n = n) as -> by (apply (wrapS_small 32); lia). by apply Hm.
Qed.
Lemma ret_creads strict {A} n (a : A) : creads strict (mret (n, Some a)) n [] a.
Proof.
  intros s Hsz. split.
  - intros rest Hr. rewrite Z.add_0_r. by exists s.
  - intros _ l _ Hl. apply cut_shorter in Hl. cbn in Hl. lia.
Qed.

Lemma chk2_creads strict {A B} (m : M S (Z * option A)) d a (k : Z -> A -> M S (Z * option B)) n e b :
  reads m d a -> creads strict (k (zlen d) a) (n + zlen d) e b -> 0 <= n -> creads strict (chk2 m k) n (d ++ e) b.
Proof.
  intros Hm Hk Hn s Hsz. rewrite length_app, Nat2Z.inj_add in *. unfold chk2, mbind, M_bind.
  assert (forall rest, ready s (d ++ rest) -> exists s1, ready s1 rest /\ error s1 = error s /\
    chk2 m k s = k (zlen d) a s1) as Hall.
  { intros rest Hr. destruct (run_reads _ _ _ s _ Hm ltac:(lia) Hr) as (s1&E&Hr1&Ee). exists s1. split; [done|]. split; [done|].
    unfold chk2, mbind, M_bind. rewrite E. cbn [mbind option_bind fst snd]. by destruct (Z.ltb_spec (zlen d) 0); [lia|]. }
  unfold chk2, mbind, M_bind in Hall. split.
  - intros rest Hr. rewrite <- app_assoc in Hr. destruct (Hall _ Hr) as (s1&Hr1&Ee&->).
    destruct (Hk s1 ltac:(lia)) as [Hk1 _]. destruct (Hk1 rest Hr1) as (s2&->&Hr2&Ee2).
    exists s2. split; [by do 3 f_equal; lia|]. split; [done|congruence].
  - intros Hs l Hr [Hl|(l'&->&Hl)]%cut_app.
    + destruct (run_cut _ _ _ s l Hm ltac:(lia) Hr Hl) as (s1&o&->&Ee). by eexists.
    + destruct (Hall _ Hr) as (s1&Hr1&Ee&->). destruct (Hk s1 ltac:(lia)) as [_ Hk2]. by apply (Hk2 Hs l').
Qed.

Lemma andthen_creads strict {A B} (m : M S (Z * option A)) n d a (k : Z -> A -> M S (Z * option B)) e b :
  creads strict m n d a -> creads strict (k (n + zlen d) a) (n + zlen d) e b -> 0 <= n ->
  creads strict (andthen m k) n (d ++ e) b.
Proof.
  intros Hm Hk Hn s Hsz. rewrite length_app, Nat2Z.inj_add in *. unfold andthen, mbind, M_bind.
  destruct (Hm s ltac:(lia)) as [Hm1 Hm2]. split.
  - intros rest Hr. rewrite <- app_assoc in Hr. destruct (Hm1 _ Hr) as (s1&->&Hr1&Ee). cbn [mbind option_bind fst snd].
    destruct (Hk s1 ltac:(lia)) as [Hk1 _]. destruct (Hk1 rest Hr1) as (s2&->&Hr2&Ee2).
    exists s2. split; [by do 3 f_equal; lia|]. split; [done|congruence].
  - intros Hs l Hr [Hl|(l'&->&Hl)]%cut_app.
    + destruct (Hm2 Hs l Hr Hl) as (s1&->&Ee). by eexists.
    + destruct (Hm1 _ Hr) as (s1&->&Hr1&Ee). cbn [mbind option_bind fst snd].
      destruct (Hk s1 ltac:(lia)) as [_ Hk2]. by apply (Hk2 Hs l').
Qed.
(** A call that reads nothing. *)
Lemma chk0_creads strict {B} (k : Z -> M S (Z * option B)) n e b :
  creads strict (k 0) n e b -> creads strict (chk0 (mret 0) k) n e b.
Proof. done. Qed.

Lemma counted_creads strict {A} (m : M S (Z * option A)) n d a : reads m d a -> 0 <= n -> creads strict (counted m n) n d a.
Proof.
  intros Hm Hn. rewrite <- (app_nil_r d). eapply chk2_creads; [exact Hm| |done].
  apply (creads_i32 strict (fun n => mret (n, Some a))); [apply ret_creads|done|lia].
Qed.
(** A function of its own, whose result is added. *)
Lemma counted_creads_0 strict {A} (m : M S (Z * option A)) n d a : creads strict m 0 d a -> 0 <= n -> creads strict (counted m n) n d a.
Proof.
  intros Hm Hn s Hsz. unfold counted, chk2, mbind, M_bind. destruct (Hm s ltac:(lia)) as [Hm1 Hm2]. split.
  - intros rest Hr. destruct (Hm1 rest Hr) as (s1&->&Hr1&Ee). cbn [mbind option_bind fst snd]. rewrite Z.add_0_l.
    destruct (Z.ltb_spec (zlen d) 0); [lia|]. cbn. rewrite (wrapS_small 32) by lia. by exists s1.
  - intros Hs l Hr Hl. destruct (Hm2 Hs l Hr Hl) as (s1&->&Ee). by eexists.
Qed.

Lemma as_obj_reads {A B} (f : A -> B) (m : M S (Z * option A)) d a : reads m d a -> reads (as_obj f m) d (f a).
Proof. apply (c_built_reads_0 f m d a). Qed.

Lemma deserialize_base_reads b v : c_base b = true -> value_ok v = true -> type_of v = b ->
  reads (deserialize_base b) (encode v) (c_base_obj v).
Proof.
  intros Hb Hv <-. destruct v as [x|ty z|a|bits|ty l|l| | | | |]; try done; cbn [type_of c_base_obj] in *.
  - apply (as_obj_reads (fun b => CNum (VBool b))). eapply reads_eq; [by apply (fetch_reads 1 _ [if x then x01 else x00])|done|]. by destruct x.
  - cbn [value_ok encode] in *.
    destruct ty; try done; match goal with |- reads (deserialize_base ?ty) _ _ => apply (as_obj_reads (fun z => CNum (VInt ty z))) end;
      first [exact (read_i64_reads z Hv)|exact (read_u64_reads z Hv)
            |exact (fetch_int 1 true z ltac:(lia) Hv)|exact (fetch_int 2 true z ltac:(lia) Hv)
            |exact (fetch_int 2 false z ltac:(lia) Hv)|exact (fetch_int 4 true z ltac:(lia) Hv)
            |exact (fetch_int 4 false z ltac:(lia) Hv)].
  - by apply (as_obj_reads (fun a => CIp (Some a))), read_ipaddr_reads.
  - cbn [value_ok encode] in *. zify_bools. pose proof (read_string_reads Halloc l).
    destruct ty; try done; by apply (as_obj_reads CStr).
  - cbn [value_ok encode] in *. zify_bools. apply (as_obj_reads (fun l => CNum (VUuid l))), fetch_reads. lia.
Qed.

Lemma list_elements_creads strict rd vs :
  Forall (fun v => reads rd (encode v) (c_base_obj v)) vs -> forall n acc, 0 <= n ->
  creads strict (deserialize_list_elements rd (length vs) n acc) n (concat (map encode vs)) (acc ++ map c_base_obj vs).
Proof.
  induction 1 as [|v vs Hv _ IH]; intros n acc Hn; cbn [length deserialize_list_elements map concat].
  - rewrite app_nil_r. apply ret_creads.
  - eapply chk2_creads; [exact Hv| |done].
    apply (creads_i32 strict (fun x => deserialize_list_elements rd (length vs) x (acc ++ [c_base_obj v]))); [|done|lia].
    replace (acc ++ c_base_obj v :: map c_base_obj vs) with ((acc ++ [c_base_obj v]) ++ map c_base_obj vs) by (by rewrite <- app_assoc).
    apply IH. lia.
Qed.

Lemma container_creads strict sz b vs n :
  c_base b = true -> zlen vs < 2 ^ 31 -> Forall (fun v => value_ok v = true /\ type_of v = b) vs -> 0 <= n ->
  creads strict (deserialize_container sz b n) n (encode (VList b vs)) (CArray (map c_base_obj vs)).
Proof.
  intros Hb Hl Hvs Hn. unfold deserialize_container. cbn [encode]. rewrite (app_assoc (byte_code b)).
  eapply chk2_creads; [apply read_list_begin_reads; [by apply c_base_declared|lia]| |done]. cbn beta iota. rewrite Halloc, Nat2Z.id.
  rewrite <- (app_nil_r (concat _)).
  apply (creads_i32 strict (fun x => andthen (deserialize_list_elements (deserialize_base b) (length vs) x [])
    (fun xfer l => chk0 read_list_end (fun ret => mret (i32 (xfer + ret), Some (CArray l)))))); [|done|lia].
  eapply andthen_creads; [apply (list_elements_creads strict (deserialize_base b) vs)| |lia].
  - eapply list.Forall_impl; [exact Hvs|]. intros v []. by apply deserialize_base_reads.
  - lia.
  - apply chk0_creads. apply (creads_i32 strict (fun x => mret (x, Some (CArray ([] ++ map c_base_obj vs))))); [apply ret_creads|lia|lia].
Qed.

(** *** [thrift_protocol_skip] in front of a whole value *)
Definition skips_all (m : M S Z) (d : list byte) : Prop := forall s rest,
  ready s (d ++ rest) -> zlen d < 2 ^ 31 -> exists s', m s = Some (zlen d, s') /\ ready s' rest /\ error s' = error s.

Lemma code_skips {A} (m : M S (Z * option A)) d a : reads m d a -> skips_all (code m) d.
Proof.
  intros Hm s rest Hr Hsz. destruct (run_reads _ _ _ s rest Hm Hsz Hr) as (s'&E&Hr'&Ee). exists s'. split; [|done].
  unfold code. by rewrite (bind_run _ _ _ _ _ E).
Qed.

Lemma read_binary_skips l :
  zlen l < 2 ^ 31 -> skips_all (r ← read_binary; _ ← get r.2; mret r.1) (count (zlen l) ++ l).
Proof.
  intros Hl s rest Hr Hsz. rewrite length_app, Nat2Z.inj_add in Hsz. rewrite <- app_assoc in Hr.
  destruct (run_reads _ _ _ s _ (c_read_count_reads (zlen l) ltac:(lia)) ltac:(lia) Hr) as (s1&E1&Hr1&Ee1).
  unfold read_binary, mbind, M_bind. rewrite E1. cbn [mbind option_bind fst snd].
  destruct (Z.ltb_spec (zlen (count (zlen l))) 0); [lia|]. cbn [get]. unfold mret, M_ret. cbn [mbind option_bind].
  rewrite length_app, Nat2Z.inj_add. destruct (Z.ltb_spec 0 (zlen l)).
  - rewrite Halloc. destruct (run_reads _ _ _ s1 rest (fetch_reads (zlen l) (fun b => b) l eq_refl) ltac:(lia) Hr1) as (s2&->&Hr2&Ee2).
    cbn [mbind option_bind fst snd]. destruct (Z.ltb_spec (zlen l) 0); [lia|]. cbn [mbind option_bind fst snd get].
    rewrite (wrapS_small 32) by lia. exists s2. split; [done|]. split; [done|congruence].
  - destruct l; [|cbn in *; lia]. cbn [length]. rewrite Z.add_0_r. cbn. by exists s1.
Qed.

Lemma skip_list_loop_ok (sk : M S Z) ds : Forall (skips_all sk) ds -> forall fuel i result s rest,
  (length ds <= fuel)%nat -> ready s (concat ds ++ rest) -> 0 <= i -> i + zlen ds < 2 ^ 31 -> 0 <= result ->
  result + zlen (concat ds) < 2 ^ 31 ->
  exists s', skip_list_loop sk fuel i (i + zlen ds) result s = Some (result + zlen (concat ds), s') /\ ready s' rest /\ error s' = error s.
Proof.
  induction 1 as [|d ds Hd _ IH]; intros fuel i result s rest Hf Hr Hi Hn Hres Hsz; cbn [length concat] in *.
  - rewrite !Z.add_0_r. exists s. split; [|done].
    destruct fuel; cbn [skip_list_loop]; (destruct (Z.ltb_spec i i); [lia|]);
      rewrite (bind_run _ _ _ _ _ (eq_refl (Some (0, s)))); unfold mret, M_ret; rewrite Z.add_0_r, (wrapU_small 32), (wrapS_small 32) by (cbn in Hsz; lia); done.
  - destruct fuel as [|fuel]; [lia|]. cbn [skip_list_loop]. rewrite length_app, Nat2Z.inj_add in *. rewrite <- app_assoc in Hr.
    destruct (Z.ltb_spec i (i + Z.of_nat (Datatypes.S (length ds)))); [|lia].
    destruct (Hd s _ Hr ltac:(lia)) as (s1&E1&Hr1&Ee1). rewrite (bind_run _ _ _ _ _ E1).
    rewrite (wrapU_small 32 (i + 1)), (wrapU_small 32 (result + zlen d)) by lia.
    replace (i + Z.of_nat (Datatypes.S (length ds))) with (i + 1 + zlen ds) by lia.
    destruct (IH fuel (i + 1) (result + zlen d) s1 rest) as (s2&->&Hr2&Ee2); [lia|done|lia..|].
    exists s2. split; [by do 2 f_equal; lia|]. split; [done|congruence].
Qed.

Lemma field_begin_old old (f : Z * value) s rest :
  value_ok f.2 = true -> int_fits 2 true f.1 = true -> ready s (byte_code (type_of f.2) ++ be_bytes 2 f.1 ++ rest) ->
  exists s', read_field_begin old s = Some ((3, Some (type_of f.2), Some f.1), s') /\ ready s' rest /\ error s' = error s.
Proof.
  intros Hv Hid Hr. destruct (value_ok_type f.2 Hv) as [Hd Hns].
  assert (zlen (byte_code (type_of f.2)) = 1 /\ zlen (be_bytes 2 f.1) = 2) as [E1 E2]
    by (destruct (byte_code_1 _ Hd) as (b&->&_); by rewrite length_be_bytes).
  unfold read_field_begin.
  destruct (run_reads _ _ _ s _ (read_code_reads _ Hd) ltac:(lia) Hr) as (s1&Es1&Hr1&Ee1).
  rewrite (bind_run _ _ _ _ _ Es1). rewrite E1. cbn [fst snd Z.ltb Z.compare].
  rewrite (bind_run _ _ _ _ _ (eq_refl (Some (ttype_code (type_of f.2), s1)))).
  rewrite ttype_of_code, bool_decide_eq_false_2 by done.
  assert (reads read_i16 (be_bytes 2 f.1) f.1) as Hi by (by apply (fetch_int 2 true); [lia|]).
  destruct (run_reads _ _ _ s1 _ Hi ltac:(lia) Hr1) as (s2&Es2&Hr2&Ee2). rewrite (bind_run _ _ _ _ _ Es2), E2. cbn.
  exists s2. split; [done|]. split; [done|congruence].
Qed.

Lemma skip_struct_loop_ok (sk : TType -> M S Z) fs :
  Forall (fun f => int_fits 2 true f.1 = true /\ value_ok f.2 = true /\ skips_all (sk (type_of f.2)) (encode f.2)) fs ->
  forall fuel old result s rest, (length fs < fuel)%nat -> ready s (encode_fields fs ++ rest) -> 0 <= result ->
  result + zlen (encode_fields fs) < 2 ^ 31 ->
  exists s', skip_struct_loop sk fuel old result s = Some (result + zlen (encode_fields fs), s') /\ ready s' rest /\ error s' = error s.
Proof.
  unfold encode_fields. induction 1 as [|f fs (Hid&Hv&Hsk) _ IH]; intros fuel old result s rest Hf Hr Hres Hsz;
    (destruct fuel as [|fuel]; [simpl in Hf; lia|]); cbn [skip_struct_loop map concat] in *.
  - rewrite app_nil_l in *. change (zlen (byte_code T_STOP)) with 1 in *.
    destruct (run_reads _ _ _ s _ (read_code_reads T_STOP eq_refl) ltac:(done) Hr) as (s1&Es1&Hr1&Ee1).
    assert (read_field_begin old s = Some ((1, Some T_STOP, Some 0), s1)) as E
      by (unfold read_field_begin; by rewrite (bind_run _ _ _ _ _ Es1)).
    rewrite (bind_run _ _ _ _ _ E). rewrite (bind_run _ _ _ _ _ (eq_refl (Some (T_STOP, s1)))).
    rewrite bool_decide_eq_true_2 by done. rewrite (bind_run _ _ _ _ _ (eq_refl (Some (0, s1)))).
    rewrite (wrapU_small 32 (result + 1)), Z.add_0_r, (wrapU_small 32), (wrapS_small 32) by lia. by exists s1.
  - assert ((encode_field f ++ concat (map encode_field fs)) ++ byte_code T_STOP =
            byte_code (type_of f.2) ++ be_bytes 2 f.1 ++ encode f.2 ++ concat (map encode_field fs) ++ byte_code T_STOP) as Ee
      by (unfold encode_field at 1; by rewrite <- !app_assoc).
    rewrite Ee in *. clear Ee. destruct (value_ok_type f.2 Hv) as [Hd Hns].
    set (d := concat (map encode_field fs) ++ byte_code T_STOP) in *.
    assert (zlen (byte_code (type_of f.2)) = 1 /\ zlen (be_bytes 2 f.1) = 2) as [E1 E2]
      by (destruct (byte_code_1 _ Hd) as (b&->&_); by rewrite length_be_bytes).
    rewrite !length_app, !Nat2Z.inj_add, E1, E2 in *. rewrite <- !app_assoc in Hr.
    destruct (field_begin_old old f s _ Hv Hid Hr) as (s1&Es1&Hr1&Ee1). rewrite (bind_run _ _ _ _ _ Es1).
    rewrite (bind_run _ _ _ _ _ (eq_refl (Some (type_of f.2, s1)))). rewrite bool_decide_eq_false_2 by done.
    destruct (Hsk s1 _ Hr1 ltac:(lia)) as (s2&Es2&Hr2&Ee2). rewrite (bind_run _ _ _ _ _ Es2).
    rewrite (bind_run _ _ _ _ _ (eq_refl (Some (0, s2)))).
    rewrite (wrapU_small 32 (result + 3)), (wrapU_small 32 (result + 3 + _)), Z.add_0_r, (wrapU_small 32) by lia.
    destruct (IH fuel (Some (type_of f.2)) (result + 3 + zlen (encode f.2)) s2 rest) as (s3&->&Hr3&Ee3); [simpl in Hf; lia|done|lia|lia|].
    exists s3. split; [by do 2 f_equal; lia|]. split; [done|congruence].
Qed.

Lemma protocol_skips v : forall fuel, value_ok v = true -> CSkip.skippable false v = true -> (fuel_for v <= fuel)%nat ->
  skips_all (thrift_protocol_skip fuel (type_of v)) (encode v).
Proof.
  induction v as [b|ty z|a|bits|ty l|l|fs IH|name fs IH|ety vs IH|ety vs IH|kty vty kvs IH]
    using value_parts_ind; intros fuel Hv Hs Hfuel; try done; (destruct fuel as [|fuel]; [simpl in Hfuel; lia|]).
  - eapply code_skips, (fetch_reads 1). by destruct b.
  - cbn [value_ok encode type_of] in *. destruct ty; try done; cbn [int_info] in *;
      eapply code_skips, fetch_reads; by rewrite length_be_bytes.
  - eapply code_skips, fetch_reads. cbn [encode]. by rewrite length_be_bytes.
  - cbn [value_ok encode type_of] in *. zify_bools. pose proof (read_binary_skips l ltac:(lia)). by destruct ty.
  - cbn [value_ok encode type_of] in *. zify_bools. eapply code_skips, fetch_reads. lia.
  - intros s rest Hr Hsz. destruct (fields_ok fuel fs Hv) as [Hok Hlen]; [cbn [fuel_for] in *; lia|].
    cbn [type_of thrift_protocol_skip]. change (encode (VStruct fs)) with (encode_fields fs) in *.
    rewrite (bind_run _ _ _ _ _ (eq_refl (Some (0, s)))).
    destruct (skip_struct_loop_ok (thrift_protocol_skip fuel) fs) with (fuel := fuel) (old := @None TType) (result := 0) (s := s) (rest := rest)
      as (s'&E&Hr'&Ee); [|lia|done|lia|lia|by exists s'].
    cbn [CSkip.skippable] in Hs. rewrite Forall_forall in *. intros f Hin. destruct (Hok f Hin) as (?&?&?).
    split; [done|]. split; [done|]. apply IH; try done. by apply forallb_forall with (x := f) in Hs.
  - intros s rest Hr Hsz. cbn [type_of thrift_protocol_skip value_ok CSkip.skippable fuel_for] in *. zify_bools.
    change (encode (VList ety vs)) with (byte_code ety ++ count (zlen vs) ++ concat (map encode vs)) in *.
    rewrite (app_assoc (byte_code ety)) in *. rewrite (length_app (byte_code ety ++ _)), Nat2Z.inj_add in *.
    rewrite <- (app_assoc (byte_code ety ++ _)) in Hr.
    destruct (run_reads _ _ _ s _ (read_list_begin_reads ety (zlen vs) ltac:(done) ltac:(lia)) ltac:(lia) Hr) as (s1&Es1&Hr1&Ee1).
    rewrite (bind_run _ _ _ _ _ Es1). cbn [fst snd]. rewrite (bind_run _ _ _ _ _ (eq_refl (Some ((ety, zlen vs), s1)))).
    pose proof (skip_list_loop_ok (thrift_protocol_skip fuel ety) (map encode vs)) as Hloop. rewrite length_map in Hloop.
    rewrite Z.add_0_l, (wrapU_small 32) by lia.
    specialize (Hloop) with (fuel := fuel) (i := 0) (result := zlen (byte_code ety ++ count (zlen vs))) (s := s1) (rest := rest).
    rewrite Z.add_0_l in Hloop. destruct Hloop as (s2&->&Hr2&Ee2); [|lia|done|lia..|exists s2; split; [done|]; split; [done|congruence]].
    rewrite Forall_forall in *. intros d (v&<-&Hin)%in_map_iff.
    repeat match goal with Hf : forallb ?p vs = true |- _ => apply forallb_forall with (x := v) in Hf; [|done] end.
    zify_bools. subst ety. apply IH; [done..|]. pose proof (list_max_le_in fuel_for vs v Hin). lia.
Qed.

(** *** Structs and messages *)
Variable sizeof : ttype -> Z.
Abbreviation cases fuel ms := (map (fun m => MkCCase m.1 (type_to_enum m.2) (deserialize_field sizeof fuel m.2)) ms).
Definition reads_as (strict : bool) (fuel : nat) (ty : ttype) : Prop := forall v n,
  value_ok v = true -> c_compat strict ty v = true -> (fuel_for v <= fuel)%nat -> 0 <= n ->
  creads strict (deserialize_field sizeof fuel ty n) n (encode v) (c_conv ty v).

Lemma skip_creads {A} (m : M S Z) d (k : Z -> M S (Z * option A)) n e a :
  skips_all m d -> creads false (k (zlen d)) (n + zlen d) e a -> 0 <= n -> creads false (chk0 m k) n (d ++ e) a.
Proof.
  intros Hm Hk Hn s Hsz. rewrite length_app, Nat2Z.inj_add in *. split; [|done]. intros rest Hr. rewrite <- app_assoc in Hr.
  destruct (Hm s _ Hr ltac:(lia)) as (s1&E1&Hr1&Ee1). unfold chk0. rewrite (bind_run _ _ _ _ _ E1).
  destruct (Z.ltb_spec (zlen d) 0); [lia|]. destruct (Hk s1 ltac:(lia)) as [Hk1 _].
  destruct (Hk1 rest Hr1) as (s2&->&Hr2&Ee2). exists s2. split; [by do 3 f_equal; lia|]. split; [done|congruence].
Qed.

Lemma read_members_creads strict fuel ms :
  Forall (fun m => reads_as strict fuel m.2) ms -> forall fs n xfer vs,
  Forall (fun f => field_ok fuel f /\ field_compat strict (map (fun m => (m.1, type_to_enum m.2, c_compat strict m.2)) ms) f = true) fs ->
  (length fs < n)%nat -> 0 <= xfer ->
  creads strict (read_members fuel n (cases fuel ms) xfer vs) xfer (encode_fields fs) (c_conv_members (kcases ms) fs vs).
Proof.
  intros Hms. unfold encode_fields. induction fs as [|f fs IH]; intros n xfer vs Hfs Hn Hx;
    (destruct n as [|n]; [simpl in Hn; lia|]); cbn [read_members map concat c_conv_members foldl].
  - rewrite app_nil_l, <- (app_nil_r (byte_code T_STOP)). eapply chk2_creads; [apply field_begin_stop| |done].
    cbn beta iota zeta. rewrite bool_decide_eq_true_2 by done.
    apply (creads_i32 strict (fun n => mret (n, Some vs))); [apply ret_creads|done|lia].
  - apply Forall_cons_iff in Hfs as [[(Hid&Hv&Hfu) Hc] Hfs]. destruct (value_ok_type f.2 Hv) as [_ Hns].
    set (d := concat (map encode_field fs) ++ byte_code T_STOP) in *.
    assert ((encode_field f ++ concat (map encode_field fs)) ++ byte_code T_STOP =
            (byte_code (type_of f.2) ++ be_bytes 2 f.1) ++ encode f.2 ++ d) as ->.
    { unfold d, encode_field at 1. by rewrite <- !app_assoc. }
    eapply chk2_creads; [by apply field_begin_reads| |done]. cbn beta iota zeta.
    rewrite bool_decide_eq_false_2 by done. rewrite GeneratedSpec.find_case_map.
    change (fun a : t_field * ttype => case_key (MkCCase a.1 (type_to_enum a.2) (deserialize_field sizeof fuel a.2)))
      with (fun m : t_field * ttype => get_key m.1).
    fold (c_conv_members (kcases ms) fs (c_conv_member (kcases ms) vs f)).
    rewrite conv_member_eq.
    assert (forall x vs', 0 <= x -> creads strict (read_members fuel n (cases fuel ms) x vs') x d (c_conv_members (kcases ms) fs vs'))
      as IH' by (intros; apply IH; [done|simpl in Hn; lia|done]).
    assert (forall x vs', 0 <= x -> creads strict (chk0 read_field_end (fun ret => read_members fuel n (cases fuel ms) (i32 (x + ret)) vs'))
      x d (c_conv_members (kcases ms) fs vs')) as Hend.
    { intros x vs' Hx'. apply chk0_creads. apply (creads_i32 strict (fun x => read_members fuel n (cases fuel ms) x vs')); [by apply IH'|lia|lia]. }
    clear IH IH'. set (x0 := xfer + zlen (byte_code (type_of f.2) ++ be_bytes 2 f.1)).
    assert (0 <= x0) as Hx0 by (unfold x0; lia). 
    destruct (field_compat_cases strict ms f Hc) as [(i&m&Hf&Ht&Hcm&Hin)|(->&Hsk&Hother)].
    + rewrite Hf. cbn [fmap option_fmap option_map fst snd cc_type cc_read]. rewrite !bool_decide_eq_true_2 by done.
      apply (creads_i32 strict (fun x => andthen (deserialize_field sizeof fuel m.2 x) (fun xfer o =>
        chk0 read_field_end (fun ret => read_members fuel n (cases fuel ms) (i32 (xfer + ret)) (<[i := (true, o)]> vs))))); [|done|lia].
      rewrite Forall_forall in Hms. eapply andthen_creads; [by apply (Hms m Hin)|apply Hend; lia|done].
    + assert (creads false (chk0 (thrift_protocol_skip fuel (type_of f.2)) (fun ret =>
        chk0 read_field_end (fun ret0 => read_members fuel n (cases fuel ms) (i32 (i32 (i32 x0 + ret) + ret0)) vs)))
        x0 (encode f.2 ++ d) (c_conv_members (kcases ms) fs vs)) as Hskip.
      { apply (creads_i32 false (fun x => chk0 (thrift_protocol_skip fuel (type_of f.2)) (fun ret =>
          chk0 read_field_end (fun ret0 => read_members fuel n (cases fuel ms) (i32 (i32 (x + ret) + ret0)) vs)))); [|done|done].
        eapply skip_creads; [by apply protocol_skips| |done].
        apply (creads_i32 false (fun x => chk0 read_field_end (fun ret0 => read_members fuel n (cases fuel ms) (i32 (x + ret0)) vs)));
          [apply Hend; lia|done|lia]. }
      destruct Hother as [-> | (i&m&->&Hne)]; [exact Hskip|].
      cbn [fmap option_fmap option_map fst snd cc_type cc_read]. rewrite !bool_decide_eq_false_2 by done. exact Hskip.
Qed.

Lemma plain_flags fs (vs : list (bool * cobj)) : Forall plain fs -> length fs = length vs ->
  start_flags fs vs = vs /\ (forall vs', none_missing fs vs' = true).
Proof.
  intros Hp Hl. split.
  - revert vs Hl. induction Hp as [|f fs Hf _ IH]; intros [|v vs] Hl; try done. unfold start_flags in *. cbn [zip_with].
    rewrite IH by (by injection Hl). unfold plain, required in *. rewrite Hf. cbn. by destruct v.
  - clear vs Hl. unfold none_missing. induction Hp as [|f fs Hf _ IH]; intros [|v vs]; try done. cbn [zip_with forallb].
    rewrite IH. unfold plain, required in *. by rewrite Hf.
Qed.

(** The body of a struct or a sandesh behind [n] bytes. *)
Lemma struct_reader_creads strict fuel ms fs n :
  Forall (fun m => reads_as strict fuel m.2) ms -> Forall (fun m : t_field * ttype => plain m.1) ms ->
  forallb (fun f : Z * value => int_fits 2 true f.1 && value_ok f.2) fs = true -> c_fields_compat strict ms fs = true ->
  (fuel_for (VStruct fs) <= Datatypes.S fuel)%nat -> 0 <= n ->
  creads strict (struct_reader fuel (cases fuel ms) (mret 0) n (zero_members ms)) n (encode_fields fs)
    (CStruct (c_conv_members (kcases ms) fs (zero_members ms))).
Proof.
  intros Hms Hpl Hok Hc Hf Hn. destruct (fields_ok fuel fs Hok Hf) as [Hfs Hlen]. unfold struct_reader. rewrite map_map. cbn [cc_field].
  change (map (fun x : t_field * ttype => x.1) ms) with (map fst ms).
  destruct (plain_flags (map fst ms) (zero_members ms)) as [Est Hnm]; [by rewrite Forall_fmap|unfold zero_members; by rewrite !length_map|].
  rewrite Est, <- (app_nil_r (encode_fields fs)). eapply andthen_creads; [apply (read_members_creads strict fuel ms Hms fs)| |done].
  - cbn [c_fields_compat c_compat] in Hc. unfold c_fields_compat in Hc. cbn [c_compat] in Hc.
    rewrite Forall_forall in *. intros f Hin. split; [by apply Hfs|]. by apply forallb_forall with (x := f) in Hc.
  - done.
  - done.
  - apply chk0_creads. rewrite Hnm.
    apply (creads_i32 strict (fun x => mret (x, Some (CStruct (c_conv_members (kcases ms) fs (zero_members ms)))))); [apply ret_creads|lia|lia].
Qed.

Lemma deserialize_field_creads strict fuel ty : c_type_ok ty -> reads_as strict fuel ty.
Proof.
  induction ty as [b| |n ms IH|e _|e _|kt vt _ _] using GeneratedSpec.ttype_parts_ind; intros Hty v x Hv Hc Hf Hx; try done.
  - cbn [c_compat] in Hc. zify_bools. by apply counted_creads, Hx; apply deserialize_base_reads.
  - cbn [c_compat] in Hc. zify_bools. by apply counted_creads, Hx; apply (deserialize_base_reads T_I32).
  - destruct v as [| | | | | |fs| | | |]; try done. destruct Hty as (_&Hpl&Hms). rewrite Forall_fmap in Hms.
    cbn [deserialize_field c_conv]. rewrite Halloc. apply counted_creads_0; [|done]. apply (chk0_creads strict _ 0).
    change (encode (VStruct fs)) with (encode_fields fs). apply struct_reader_creads; try done; [|lia].
    rewrite Forall_forall in *. intros m Hm. apply IH; [done|by apply Hms].
  - destruct e as [b| | | | |]; try done. destruct v as [| | | | | | | |ety vs| |]; try done. cbn [c_compat value_ok c_type_ok] in *.
    zify_bools. subst ety. apply container_creads; [done..| |done]. apply Forall_forall. intros w Hw.
    match goal with Hf : forallb ?p vs = true |- _ => apply forallb_forall with (x := w) in Hf; [|done] end. by zify_bools.
Qed.

(** [_read] of a sandesh in front of a message: whole, or cut behind the length of its name. *)
Lemma sandesh_read_spec strict fuel ms name fs s :
  let v := VSandesh name fs in
  c_members_ok ms -> value_ok v = true -> c_fields_compat strict ms fs = true -> (fuel_for v <= Datatypes.S fuel)%nat ->
  zlen (encode v) < 2 ^ 31 ->
  (forall rest, ready s (encode v ++ rest) -> exists s', sandesh_read sizeof fuel ms (zero_members ms) s
     = Some ((zlen (encode v), Some (c_conv_sandesh ms fs)), s') /\ ready s' rest /\ error s' = error s) /\
  (strict = true -> forall l, ready s l -> cut l (encode v) -> if zlen l <? 4 then sandesh_read sizeof fuel ms (zero_members ms) s = None
     else exists s', sandesh_read sizeof fuel ms (zero_members ms) s = Some ((-1, None), s') /\ error s' = THRIFT_TRANSPORT_ERROR_RECEIVE).
Proof.
  intros v (_&Hpl&Hms) Hv Hc Hf Hsz. cbn [v value_ok] in Hv. apply andb_true_iff in Hv as [Hn Hok]. zify_bools.
  assert (encode v = (count (zlen name) ++ name) ++ encode_fields fs) as Ee by (cbn [v encode]; by rewrite <- app_assoc).
  assert (creads strict (chk2 read_sandesh_begin (fun ret _ =>
           struct_reader fuel (cases fuel ms) read_sandesh_end (i32 (0 + ret)) (zero_members ms))) 0 (encode v) (c_conv_sandesh ms fs)) as Hr.
  { rewrite Ee. eapply chk2_creads; [apply (read_sandesh_begin_reads Halloc name)| |lia].
    apply (creads_i32 strict (fun x => struct_reader fuel (cases fuel ms) read_sandesh_end x (zero_members ms))); [|done|lia].
    rewrite Forall_fmap in Hms. apply struct_reader_creads; try done. eapply list.Forall_impl; [exact Hms|].
    intros m Hm. by apply deserialize_field_creads. }
  destruct (Hr s Hsz) as [H1 H2]. rewrite Z.add_0_l in H1. unfold sandesh_read, name_unset.
  pose proof (c_read_count_reads (zlen name) ltac:(lia)) as Hcount.
  assert (zlen (count (zlen name)) = 4) as E4 by (unfold count; by rewrite length_be_bytes).
  assert (encode v = count (zlen name) ++ name ++ encode_fields fs) as Ee' by (by rewrite Ee, <- app_assoc). split.
  - intros rest Hrd. pose proof Hrd as Hrd'. rewrite Ee', <- app_assoc in Hrd'.
    destruct (run_reads _ _ _ s _ Hcount ltac:(lia) Hrd') as (s1&->&_&_). rewrite E4. by apply H1.
  - intros Hs l Hrd Hl. specialize (H2 Hs l Hrd Hl). rewrite Ee' in Hl. apply cut_app in Hl as [Hl|(l'&->&Hl)].
    + pose proof (cut_shorter _ _ Hl). destruct (Z.ltb_spec (zlen l) 4); [|lia].
      by destruct (run_cut _ _ _ s l Hcount ltac:(lia) Hrd Hl) as (s1&o&->&_).
    + rewrite length_app. destruct (Z.ltb_spec (Z.of_nat (length (count (zlen name)) + length l')) 4); [lia|].
      destruct (run_reads _ _ _ s _ Hcount ltac:(lia) Hrd) as (s1&->&_&_). by rewrite E4.
Qed.
End Protocol.

(** ** On a block *)
Section Block.
Context `{!Allocator} (Halloc : forall k, alloc_ok k = true).

(** All of [d] is in the frame at the offset: [a].  With [strict], the frame ends in the
    middle of it: -1. *)
Definition rgets (strict : bool) {A} (m : R A) (d : list byte) (a : A) : Prop := forall fr mem off,
  frame_ok fr mem -> Xbuflen fr < 2 ^ 32 -> 0 <= off <= Xbuflen fr -> off + zlen d <= INT_MAX ->
  (off + zlen d <= Xbuflen fr -> CSkip.holds mem (Xbuf fr + off) d -> m fr mem off = Some (RNext (off + zlen d) a)) /\
  (strict = true -> forall l, CReader.cut l d -> zlen l = Xbuflen fr - off -> CSkip.holds mem (Xbuf fr + off) l ->
     m fr mem off = Some (RReturn (-1))).

Lemma rret_gets strict {A} (a : A) : rgets strict (rret a) [] a.
Proof.
  intros fr mem off Hf Hl Ho Hi. split.
  - intros _ _. unfold rret. by rewrite Z.add_0_r.
  - intros _ l Hc. apply CReader.cut_shorter in Hc. cbn in Hc. lia.
Qed.
Lemma rgets_eq strict {A} (m : R A) d a a' d' : rgets strict m d a -> d = d' -> a = a' -> rgets strict m d' a'.
Proof. by intros ? <- <-. Qed.
Lemma rbind_gets strict {A B} (m : R A) d a (k : A -> R B) e b :
  rgets strict m d a -> rgets strict (k a) e b -> rgets strict (rbind m k) (d ++ e) b.
Proof.
  intros Hm Hk fr mem off Hf Hl Ho Hi. rewrite length_app, Nat2Z.inj_add in *. unfold rbind.
  destruct (Hm fr mem off Hf Hl Ho ltac:(lia)) as [Hm1 Hm2]. split.
  - intros Hfit Hh. apply CSkip.holds_app in Hh as [Hh1 Hh2]. rewrite Hm1 by (done || lia). cbn [mbind option_bind].
    destruct (Hk fr mem (off + zlen d) Hf Hl ltac:(lia) ltac:(lia)) as [Hk1 _]. rewrite Z.add_assoc. apply Hk1; [lia|].
    by rewrite Z.add_assoc.
  - intros Hs l Hc Hlen Hh. apply CReader.cut_app in Hc as [Hc|(l'&->&Hc)].
    + by rewrite (Hm2 Hs l Hc Hlen Hh).
    + apply CSkip.holds_app in Hh as [Hh1 Hh2]. rewrite length_app, Nat2Z.inj_add in Hlen. rewrite Hm1 by (done || lia).
      cbn [mbind option_bind]. destruct (Hk fr mem (off + zlen d) Hf Hl ltac:(lia) ltac:(lia)) as [_ Hk2].
      apply (Hk2 Hs l' Hc); [lia|]. by rewrite Z.add_assoc.
Qed.
Lemma rmap_gets strict {A B} (f : A -> B) (m : R A) d a : rgets strict m d a -> rgets strict (rmap f m) d (f a).
Proof. intros Hm. rewrite <- (app_nil_r d). eapply rbind_gets; [exact Hm|]. apply rret_gets. Qed.

Lemma memcpy_gets strict n d : n = zlen d -> rgets strict (read_buffer_chk_memcpy_incr_offset n) d d.
Proof.
  intros -> fr mem off Hf Hl Ho Hi. unfold read_buffer_chk_memcpy_incr_offset, read_buffer_memcpy_incr_offset.
  rewrite bounds_chk_ok by lia. cbn [mbind option_bind]. split.
  - intros Hfit Hh. destruct (Z.leb_spec (off + zlen d) (Xbuflen fr)); [|lia].
    rewrite (CSkip.mread_holds _ _ _ _ Hh) by done. cbn [mbind option_bind]. by rewrite incr_offset_ok.
  - intros _ l Hc Hlen _. apply CReader.cut_shorter in Hc. by destruct (Z.leb_spec (off + zlen d) (Xbuflen fr)); [lia|].
Qed.
Lemma int_gets strict n sg z : (0 < n)%nat -> int_fits n sg z = true ->
  rgets strict (rmap (int_value n sg) (read_buffer_chk_memcpy_incr_offset (Z.of_nat n))) (be_bytes n z) z.
Proof.
  intros Hn Hz. eapply rgets_eq; [apply rmap_gets, memcpy_gets; by rewrite length_be_bytes|done|]. by apply int_value_bytes.
Qed.
Lemma count_gets strict n : 0 <= n < 2 ^ 31 -> rgets strict deserialize_i32_from_buffer (count n) n.
Proof. intros. apply (int_gets strict 4 true n); [lia|]. unfold int_fits. change (8 * Z.of_nat 4 - 1) with 31. lia. Qed.

Lemma string_gets strict l : zlen l < 2 ^ 31 ->
  rgets strict deserialize_string_from_buffer (count (zlen l) ++ l) (match l with [] => None | _ => Some l end).
Proof.
  intros Hl. apply (rbind_gets strict _ _ _ _ _ _ (count_gets strict (zlen l) ltac:(lia))).
  destruct (Z.ltb_spec 0 (zlen l)) as [Hpos|Hz].
  - intros fr mem off Hf Hb Ho Hi. destruct (memcpy_gets strict (zlen l) l eq_refl fr mem off Hf Hb Ho Hi) as [H1 H2].
    unfold read_buffer_chk_memcpy_incr_offset in *. rewrite Halloc. rewrite bounds_chk_ok in * by lia.
    cbn [mbind option_bind] in *. unfold rmap, rbind. split.
    + intros Hfit Hh. specialize (H1 Hfit Hh). destruct (_ <=? _); [|done]. rewrite H1. by destruct l.
    + intros Hs l' Hc Hlen Hh. specialize (H2 Hs l' Hc Hlen Hh). destruct (_ <=? _); [|done]. by rewrite H2.
  - destruct l; [|cbn in *; lia]. apply rret_gets.
Qed.

Lemma ipaddr_gets strict a : value_ok (VIp a) = true -> rgets strict deserialize_ipaddr_from_buffer (encode (VIp a)) a.
Proof.
  intros Ha. destruct a as [b|b]; cbn [value_ok encode] in *; apply bool_decide_eq_true_1 in Ha;
    (eapply rbind_gets; [by apply (int_gets strict 1 true); [lia|]|]); cbn [u8 AF_INET AF_INET6].
  - apply (rmap_gets strict IPv4), memcpy_gets. lia.
  - apply (rmap_gets strict IPv6), memcpy_gets. lia.
Qed.

Lemma base_gets strict b v : c_base b = true -> value_ok v = true -> type_of v = b ->
  rgets strict (deserialize_base_from_buffer b) (encode v) (c_base_obj v).
Proof.
  intros Hb Hv <-. destruct v as [x|ty z|a|bits|ty l|l| | | | |]; try done; cbn [type_of c_base_obj] in *.
  - apply (rmap_gets strict (fun b => CNum (VBool b))).
    eapply rgets_eq; [by apply rmap_gets, (memcpy_gets strict 1 [if x then x01 else x00])|by destruct x|by destruct x].
  - cbn [value_ok encode] in *. destruct ty; try done; cbn [int_info] in *.
    all: try (match goal with |- rgets _ (deserialize_base_from_buffer ?ty) _ _ => apply (rmap_gets strict (fun z => CNum (VInt ty z))) end;
      first [exact (int_gets strict 1 true z ltac:(lia) Hv)|exact (int_gets strict 2 true z ltac:(lia) Hv)
            |exact (int_gets strict 2 false z ltac:(lia) Hv)|exact (int_gets strict 4 true z ltac:(lia) Hv)
            |exact (int_gets strict 4 false z ltac:(lia) Hv)]).
    + eapply rgets_eq; [apply (rmap_gets strict (fun z => CNum (VInt T_U64 z))), rmap_gets, (memcpy_gets strict 8 (be_bytes 8 z)); by rewrite length_be_bytes|done|].
      rewrite os_get_value64_be by (rewrite length_be_bytes; lia). rewrite be_value_bytes. unfold int_fits in Hv. zify_bools.
      do 2 f_equal. apply wrapU_small. lia.
    + eapply rgets_eq; [apply (rmap_gets strict (fun z => CNum (VInt T_I64 z))), rmap_gets, (memcpy_gets strict 8 (be_bytes 8 z)); by rewrite length_be_bytes|done|].
      cbn beta. rewrite os_get_value64_be by (rewrite length_be_bytes; lia).
      do 2 f_equal. exact (int_value_bytes 8 true z ltac:(lia) Hv).
    + eapply rgets_eq; [apply (rmap_gets strict (fun z => CNum (VInt T_IPV4 (u32 z)))), rmap_gets, (memcpy_gets strict 4 (be_bytes 4 z)); by rewrite length_be_bytes|done|].
      cbn beta. do 2 f_equal. unfold int_value. rewrite be_value_bytes. unfold int_fits in Hv. zify_bools.
      change (8 * Z.of_nat 4) with 32 in *. rewrite wrapU_wrapS by lia. rewrite (wrapU_small 32 z) by lia. apply wrapU_small. lia.
  - by apply (rmap_gets strict (fun a => CIp (Some a))), ipaddr_gets.
  - cbn [value_ok encode] in *. zify_bools. pose proof (string_gets strict l ltac:(lia)). destruct ty; try done; by apply (rmap_gets strict CStr).
  - cbn [value_ok encode] in *. zify_bools. apply (rmap_gets strict (fun l => CNum (VUuid l))), memcpy_gets. lia.
Qed.

Lemma code_gets strict ty : declared ty = true -> rgets strict deserialize_byte_from_buffer (byte_code ty) (ttype_code ty).
Proof. intros Hd. apply (int_gets strict 1 true); [lia|]. by destruct ty. Qed.

Lemma elements_gets strict rd vs : Forall (fun v => rgets strict rd (encode v) (c_base_obj v)) vs -> forall acc,
  rgets strict (deserialize_list_elements_from_buffer rd (length vs) acc) (concat (map encode vs)) (acc ++ map c_base_obj vs).
Proof.
  induction 1 as [|v vs Hv _ IH]; intros acc; cbn [length deserialize_list_elements_from_buffer map concat].
  - rewrite app_nil_r. apply rret_gets.
  - eapply rbind_gets; [exact Hv|].
    replace (acc ++ c_base_obj v :: map c_base_obj vs) with ((acc ++ [c_base_obj v]) ++ map c_base_obj vs) by (by rewrite <- app_assoc).
    apply IH.
Qed.
Lemma container_gets strict sz b vs :
  c_base b = true -> zlen vs < 2 ^ 31 -> Forall (fun v => value_ok v = true /\ type_of v = b) vs ->
  rgets strict (deserialize_container_from_buffer sz b) (encode (VList b vs)) (CArray (map c_base_obj vs)).
Proof.
  intros Hb Hl Hvs. cbn [encode]. rewrite (app_assoc (byte_code b)). unfold deserialize_container_from_buffer.
  eapply rbind_gets.
  - eapply rbind_gets; [by apply code_gets, c_base_declared|]. apply (rmap_gets strict (fun size => u32 size)), count_gets. lia.
  - cbn beta. rewrite (wrapU_small 32), Halloc, Nat2Z.id by lia. apply (rmap_gets strict CArray), (elements_gets strict _ vs).
    eapply list.Forall_impl; [exact Hvs|]. intros v []. by apply base_gets.
Qed.

Lemma field_begin_gets strict (f : Z * value) :
  value_ok f.2 = true -> int_fits 2 true f.1 = true ->
  rgets strict field_begin_reader_from_buffer (byte_code (type_of f.2) ++ be_bytes 2 f.1) (type_of f.2, f.1).
Proof.
  intros Hv Hid. destruct (value_ok_type f.2 Hv) as [Hd Hns]. eapply rbind_gets; [by apply code_gets|].
  cbn zeta. rewrite ttype_of_code, bool_decide_eq_false_2 by done. apply (rmap_gets strict (pair (type_of f.2))).
  by apply (int_gets strict 2 true); [lia|].
Qed.
Lemma field_stop_gets strict : rgets strict field_begin_reader_from_buffer (byte_code T_STOP) (T_STOP, 0).
Proof.
  rewrite <- (app_nil_r (byte_code T_STOP)). eapply rbind_gets; [by apply (code_gets strict T_STOP)|]. apply rret_gets.
Qed.

(** Whatever the three bytes hold that [thrift_binary_protocol_skip_from_buffer] does not set. *)
Variable upper : Z.
Lemma skip_gets fuel v : value_ok v = true -> CSkip.skippable false v = true -> (fuel_for v <= fuel)%nat ->
  rgets false (skip_from_buffer upper fuel (type_of v)) (encode v) tt.
Proof.
  intros Hv Hs Hf fr mem off (?&?&?) Hl Ho Hi. split; [|done]. intros Hfit Hh. unfold skip_from_buffer.
  rewrite (wrapU_small 32) by lia.
  rewrite (CSkip.skip_ok upper mem false v ltac:(done) fuel Hv Hs Hf) by (done || (unfold INT_MAX in *; lia)). cbn [mbind option_bind].
  destruct (Z.ltb_spec (zlen (encode v)) 0); [lia|]. by rewrite incr_offset_ok.
Qed.

Variable sizeof : ttype -> Z.
Abbreviation bcases fuel ms := (map (fun m => MkBCase m.1 (type_to_enum m.2) (deserialize_field_from_buffer upper sizeof fuel m.2)) ms).
Definition gets_as (strict : bool) (fuel : nat) (ty : ttype) : Prop := forall v,
  value_ok v = true -> c_compat strict ty v = true -> (fuel_for v <= fuel)%nat ->
  rgets strict (deserialize_field_from_buffer upper sizeof fuel ty) (encode v) (c_conv ty v).

Lemma read_members_gets strict fuel ms :
  Forall (fun m => gets_as strict fuel m.2) ms -> forall fs n vs,
  Forall (fun f => field_ok fuel f /\ field_compat strict (map (fun m => (m.1, type_to_enum m.2, c_compat strict m.2)) ms) f = true) fs ->
  (length fs < n)%nat ->
  rgets strict (read_members_from_buffer upper fuel n (bcases fuel ms) vs) (encode_fields fs) (c_conv_members (kcases ms) fs vs).
Proof.
  intros Hms. unfold encode_fields. induction fs as [|f fs IH]; intros n vs Hfs Hn;
    (destruct n as [|n]; [simpl in Hn; lia|]); cbn [read_members_from_buffer map concat c_conv_members foldl].
  - rewrite app_nil_l, <- (app_nil_r (byte_code T_STOP)). eapply rbind_gets; [apply field_stop_gets|]. apply rret_gets.
  - apply Forall_cons_iff in Hfs as [[(Hid&Hv&Hfu) Hc] Hfs]. destruct (value_ok_type f.2 Hv) as [_ Hns].
    set (d := concat (map encode_field fs) ++ byte_code T_STOP) in *.
    assert ((encode_field f ++ concat (map encode_field fs)) ++ byte_code T_STOP =
            (byte_code (type_of f.2) ++ be_bytes 2 f.1) ++ encode f.2 ++ d) as ->.
    { unfold d, encode_field at 1. by rewrite <- !app_assoc. }
    eapply rbind_gets; [by apply field_begin_gets|]. cbn beta iota.
    rewrite bool_decide_eq_false_2 by done. rewrite GeneratedSpec.find_case_map.
    change (fun a : t_field * ttype => bcase_key (MkBCase a.1 (type_to_enum a.2) (deserialize_field_from_buffer upper sizeof fuel a.2)))
      with (fun m : t_field * ttype => get_key m.1).
    fold (c_conv_members (kcases ms) fs (c_conv_member (kcases ms) vs f)). rewrite conv_member_eq.
    assert (forall vs', rgets strict (read_members_from_buffer upper fuel n (bcases fuel ms) vs') d (c_conv_members (kcases ms) fs vs'))
      as IH' by (intros; apply IH; [done|simpl in Hn; lia]).
    destruct (field_compat_cases strict ms f Hc) as [(i&m&Hf&Ht&Hcm&Hin)|(->&Hsk&Hother)].
    + rewrite Hf. cbn [fmap option_fmap option_map fst snd bc_type bc_read]. rewrite !bool_decide_eq_true_2 by done.
      rewrite Forall_forall in Hms. eapply rbind_gets; [by apply (Hms m Hin)|apply IH'].
    + assert (rgets false (rbind (skip_from_buffer upper fuel (type_of f.2)) (fun _ => read_members_from_buffer upper fuel n (bcases fuel ms) vs))
        (encode f.2 ++ d) (c_conv_members (kcases ms) fs vs)) as Hskip by (eapply rbind_gets; [by apply skip_gets|apply IH']).
      destruct Hother as [-> | (i&m&->&Hne)]; [exact Hskip|].
      cbn [fmap option_fmap option_map fst snd bc_type bc_read]. rewrite !bool_decide_eq_false_2 by done. exact Hskip.
Qed.

(** A function on a frame of its own. *)
Definition fgets (strict : bool) (f : frame -> list byte -> option (Z * option cobj)) (d : list byte) (o : cobj) : Prop :=
  forall fr mem, frame_ok fr mem -> Xbuflen fr < 2 ^ 32 -> zlen d <= INT_MAX ->
  (zlen d <= Xbuflen fr -> CSkip.holds mem (Xbuf fr) d -> f fr mem = Some (zlen d, Some o)) /\
  (strict = true -> forall l, CReader.cut l d -> zlen l = Xbuflen fr -> CSkip.holds mem (Xbuf fr) l -> f fr mem = Some (-1, None)).

Lemma struct_reader_fgets strict begin dbegin fuel ms fs :
  rgets strict begin dbegin tt ->
  Forall (fun m => gets_as strict fuel m.2) ms -> Forall (fun m : t_field * ttype => plain m.1) ms ->
  forallb (fun f : Z * value => int_fits 2 true f.1 && value_ok f.2) fs = true -> c_fields_compat strict ms fs = true ->
  (fuel_for (VStruct fs) <= S fuel)%nat ->
  fgets strict (struct_reader_from_buffer upper begin fuel (bcases fuel ms) (zero_members ms)) (dbegin ++ encode_fields fs)
    (CStruct (c_conv_members (kcases ms) fs (zero_members ms))).
Proof.
  intros Hb Hms Hpl Hok Hc Hf. destruct (fields_ok fuel fs Hok Hf) as [Hfs Hlen].
  assert (rgets strict (rbind begin (fun _ => read_members_from_buffer upper fuel fuel (bcases fuel ms) (zero_members ms)))
    (dbegin ++ encode_fields fs) (c_conv_members (kcases ms) fs (zero_members ms))) as Hr.
  { eapply rbind_gets; [exact Hb|]. apply read_members_gets; [done| |done]. unfold c_fields_compat in Hc. cbn [c_compat] in Hc.
    rewrite Forall_forall in *. intros f Hin. split; [by apply Hfs|]. by apply forallb_forall with (x := f) in Hc. }
  set (d := dbegin ++ _) in *. clearbody d. intros fr mem Hfr Hl Hi. unfold struct_reader_from_buffer. rewrite map_map. cbn [bc_field].
  assert (existsb required (map (fun x : t_field * ttype => x.1) ms) = false) as ->.
  { apply not_true_iff_false. intros (f&(m&<-&Hm)%in_map_iff&E)%existsb_exists. rewrite Forall_forall in Hpl.
    specialize (Hpl m Hm). unfold plain, required in *. by rewrite Hpl in E. }
  pose proof Hfr as (?&?&?). destruct (Hr fr mem 0 Hfr Hl ltac:(lia) ltac:(lia)) as [Hget Hcut]. rewrite Z.add_0_l, Z.add_0_r in Hget. split.
  - intros Hfit Hh. by rewrite Hget.
  - intros Hs l Hc' Hlen' Hh. rewrite (Hcut Hs l Hc'); [done|lia|by rewrite Z.add_0_r].
Qed.

Lemma struct_step_gets strict f d o : fgets strict f d o -> rgets strict (deserialize_struct_from_buffer f) d o.
Proof.
  intros Hf fr mem off (?&?&?) Hl Ho Hi. unfold deserialize_struct_from_buffer.
  assert (Xbuflen (inner fr off) = Xbuflen fr - off) as El by (cbn; apply (wrapU_small 64); lia).
  assert (frame_ok (inner fr off) mem) as Hfr by (split; [cbn; lia|]; rewrite El; cbn; lia).
  destruct (Hf (inner fr off) mem Hfr) as [Hget Hcut]; [lia|lia|]. rewrite El in *. split.
  - intros Hfit Hh. rewrite Hget by (done || lia). cbn [mbind option_bind]. destruct (Z.ltb_spec (zlen d) 0); [lia|].
    by rewrite incr_offset_ok.
  - intros Hs l Hc Hlen Hh. by rewrite (Hcut Hs l Hc Hlen Hh).
Qed.

Lemma deserialize_field_gets strict fuel ty : c_type_ok ty -> gets_as strict fuel ty.
Proof.
  induction ty as [b| |n ms IH|e _|e _|kt vt _ _] using GeneratedSpec.ttype_parts_ind; intros Hty v Hv Hc Hf; try done.
  - cbn [c_compat] in Hc. zify_bools. by apply base_gets.
  - cbn [c_compat] in Hc. zify_bools. by apply (base_gets strict T_I32).
  - destruct v as [| | | | | |fs| | | |]; try done. destruct Hty as (_&Hpl&Hms). rewrite Forall_fmap in Hms.
    cbn [deserialize_field_from_buffer c_conv]. rewrite Halloc. apply struct_step_gets.
    change (encode (VStruct fs)) with ([] ++ encode_fields fs). apply struct_reader_fgets; try done; [apply rret_gets| |lia].
    rewrite Forall_forall in *. intros m Hm. apply IH; [done|by apply Hms].
  - destruct e as [b| | | | |]; try done. destruct v as [| | | | | | | |ety vs| |]; try done. cbn [c_compat value_ok c_type_ok] in *.
    zify_bools. subst ety. apply container_gets; [done..|]. apply Forall_forall. intros w Hw.
    match goal with Hf : forallb ?p vs = true |- _ => apply forallb_forall with (x := w) in Hf; [|done] end. by zify_bools.
Qed.

Lemma sandesh_read_fgets strict fuel ms name fs :
  let v := VSandesh name fs in
  c_members_ok ms -> value_ok v = true -> c_fields_compat strict ms fs = true -> (fuel_for v <= S fuel)%nat ->
  fgets strict (sandesh_read_binary_from_buffer upper sizeof fuel ms (zero_members ms)) (encode v) (c_conv_sandesh ms fs).
Proof.
  intros v (_&Hpl&Hms) Hv Hc Hf. cbn [v value_ok] in Hv. apply andb_true_iff in Hv as [Hn Hok]. zify_bools.
  assert (encode v = (count (zlen name) ++ name) ++ encode_fields fs) as -> by (cbn [v encode]; by rewrite <- app_assoc).
  rewrite Forall_fmap in Hms. apply struct_reader_fgets; try done.
  - apply (rmap_gets strict (fun _ => tt) _ _ (match name with [] => None | _ => Some name end)), string_gets. lia.
  - eapply list.Forall_impl; [exact Hms|]. intros m Hm. by apply deserialize_field_gets.
Qed.
End Block.
End CGeneratedRead.
