(* ===== verification/CGeneratedClaims.v ===== *)
(** * What the generated C code promises

    The two writers agree, the two readers agree, [_free] releases what it can reach, and
    messages that an agent wrote with the generated C++ code arrive in the module in the
    kernel. *)

From S2P Require Import Prelude Transport Protocol Wire Binary BinarySpec CThrift CThriftSpec CReaderSpec CSandesh CClaims.
From S2P Require Import Generated GeneratedSpec GeneratedWrite Receive CGenerated CGeneratedWrite CGeneratedRead.
Import CGenerated CGeneratedWrite CGeneratedRead.
Import Generated(e_req(..), t_field(..), get_key, get_name, get_req, ttype(..), type_to_enum, find_case, required).
Local Open Scope Z_scope.

Module CGeneratedClaims.
Abbreviation over_block block e := (ThriftBinaryProtocol.Mk (ThriftMemoryBuffer.thrift_memory_buffer_init (Some block) (zlen block)) e).
Abbreviation in_front buf e := (ThriftBinaryProtocol.Mk (ThriftMemoryBuffer.Mk (Some buf) 0 (zlen buf) (zlen buf) false) e).

(** ** Writing *)
Lemma memcpy_middle pre block post d :
  zlen d <= zlen block ->
  memcpy (pre ++ block ++ post) (zlen pre) d = Some (pre ++ (d ++ drop (length d) block) ++ post).
Proof.
  intros Hd. rewrite memcpy_Some by (rewrite ?length_app; lia). rewrite Nat2Z.id, take_app_length. f_equal. f_equal.
  rewrite <- app_assoc. f_equal. rewrite <- drop_drop, drop_app_length, drop_app_le by lia. done.
Qed.
Lemma outside_middle pre block post mem' :
  outside (MkFrame (zlen pre) (zlen block)) (pre ++ block ++ post) mem' ->
  exists block', mem' = pre ++ block' ++ post /\ length block' = length block.
Proof.
  intros (El&Et&Ed). cbn [Xbuf Xbuflen] in *. rewrite Nat2Z.id, take_app_length in Et.
  replace (Z.to_nat (zlen pre + zlen block)) with (length (pre ++ block)) in Ed by (rewrite length_app; lia).
  rewrite (app_assoc pre block post), drop_app_length in Ed.
  exists (drop (length pre) (take (length (pre ++ block)) mem')).
  assert (take (length pre) (take (length (pre ++ block)) mem') = pre) as Ep
    by (rewrite take_take_le by (rewrite length_app; lia); done). split.
  - transitivity (take (length (pre ++ block)) mem' ++ drop (length (pre ++ block)) mem'); [by rewrite take_drop|]. rewrite Ed.
    rewrite <- (take_drop (length pre) (take (length (pre ++ block)) mem')) at 1. by rewrite Ep, <- app_assoc.
  - rewrite length_drop, length_take, El, !length_app. lia.
Qed.

(** C7: the two generated C writers agree but for doubles.  For an object of a
    definition that the C generator supports (plain members: no optional or required
    ones; base types but doubles, enumerations, structs of these, lists of base types;
    a name without NUL), [_write_binary_to_buffer] on a block and [_write] through the
    protocol on a memory buffer over that block return the same number: the length of the
    message if it fits, and -1 if not; [_write] on the fake transport returns the length.
    If it fits, both leave the encoding of the message, and behind it the block is as it
    was; in any case no byte in front of the block or behind it changes, and every
    call returns.  If a double follows such members, with any members behind it,
    [_write_binary_to_buffer] returns -1 however large the block is, again without
    touching a byte around it, although [_write] writes a double (see the sample
    below). *)
Theorem c_fast_writer `{!Allocator} (name : list byte) (ms : list (t_field * ttype)) (vs : list (bool * cobj))
    (pre block post : list byte) (e : Z) :
  let text := encode (VSandesh name (c_fields ms vs)) in
  let ret := if zlen text <=? zlen block then zlen text else -1 in
  zlen name < 2 ^ 31 -> x00 ∉ name -> c_members_ok ms -> c_members_typed ms vs -> zlen text < 2 ^ 31 -> zlen block < 2 ^ 32 ->
  (exists s, sandesh_write name ms (CStruct vs) (ThriftBinaryProtocol.Mk (tt : ThriftFakeTransport.t) e) = Some (zlen text, s)) /\
  (exists s, sandesh_write name ms (CStruct vs) (over_block block e) = Some (ret, s) /\
     (zlen text <= zlen block -> CBuffer.contents (ThriftBinaryProtocol.transport s) = text)) /\
  (exists block', sandesh_write_binary_to_buffer name ms (CStruct vs) (MkFrame (zlen pre) (zlen block)) (pre ++ block ++ post)
       = Some (ret, pre ++ block' ++ post) /\ length block' = length block /\
     (zlen text <= zlen block -> block' = text ++ drop (length text) block)) /\
  (forall m ms2 set bits vs2, Forall (fun m : t_field * ttype => plain m.1) ((m, TBase T_DOUBLE) :: ms2) -> zlen text + 2 < 2 ^ 31 ->
     exists block', sandesh_write_binary_to_buffer name (ms ++ (m, TBase T_DOUBLE) :: ms2)
         (CStruct (vs ++ (set, CNum (VDouble bits)) :: vs2)) (MkFrame (zlen pre) (zlen block)) (pre ++ block ++ post)
       = Some (-1, pre ++ block' ++ post) /\ length block' = length block).
Proof.
  intros text ret Hn Hnul Hms Hvs Hsz Hb.
  assert (frame_ok (MkFrame (zlen pre) (zlen block)) (pre ++ block ++ post)) as Hfr
    by (unfold frame_ok; cbn [Xbuf Xbuflen]; rewrite !length_app; lia).
  split; [|split; [|split]].
  - destruct (sandesh_write_writes (CL := fake_laws) name ms vs Hn Hnul Hms Hvs (ThriftBinaryProtocol.Mk tt e) I Hsz)
      as (s&E&_). by exists s.
  - destruct (CBuffer.init_external block Hb) as (Hw&Hc&Ho). set (b := ThriftMemoryBuffer.thrift_memory_buffer_init (Some block) (zlen block)) in *.
    pose proof (sandesh_write_writes (CL := external_laws) name ms vs Hn Hnul Hms Hvs (ThriftBinaryProtocol.Mk b e) (conj Hw Ho) Hsz) as Hwr.
    fold text in Hwr. unfold fits in Hwr. cbn [c_room external_laws fits_room ThriftBinaryProtocol.transport] in Hwr.
    change (ThriftMemoryBuffer.buf_size b - ThriftMemoryBuffer.buf_woffset b) with (zlen block - 0) in Hwr.
    rewrite Z.sub_0_r in Hwr. unfold ret. destruct (Z.leb_spec (zlen text) (zlen block)).
    + destruct Hwr as (s&E&_&W&_). exists s. split; [done|]. intros _.
      change (CBuffer.contents (ThriftBinaryProtocol.transport s) = CBuffer.contents b ++ text) in W. by rewrite W, Hc.
    + destruct Hwr as (s&E&_). exists s. split; [done|lia].
  - pose proof (sandesh_write_fputs name ms vs Hn Hms Hvs (MkFrame (zlen pre) (zlen block)) (pre ++ block ++ post)) as Hf.
    fold text in Hf.
    specialize (Hf Hfr ltac:(unfold INT_MAX; lia)). cbn [Xbuf Xbuflen] in Hf. unfold ret.
    destruct (Z.leb_spec (zlen text) (zlen block)); destruct Hf as (mem'&E&Hm).
    + rewrite memcpy_middle in Hm by done. apply (inj Some) in Hm. subst mem'. eexists. split; [exact E|]. split; [|done].
      rewrite length_app, length_drop. lia.
    + apply outside_middle in Hm as (block'&->&Hl). exists block'. split; [done|]. split; [done|lia].
  - intros m ms2 set bits vs2 Hpl Hd.
    destruct (sandesh_write_double name ms vs m ms2 vs2 set bits (MkFrame (zlen pre) (zlen block)) (pre ++ block ++ post)
      Hn Hms Hvs Hpl Hfr) as (mem'&E&(block'&->&Hl)%outside_middle); [unfold INT_MAX; fold text; lia|by exists block'].
Qed.

Definition plain_field (k : Z) : t_field := MkField k (bs "member") T_OPT_IN_REQ_OUT.
Definition flow_members : list (t_field * ttype) :=
  [(plain_field 1, TBase T_I32); (plain_field 2, TList (TBase T_STRING));
   (plain_field 3, TStruct (bs "key") [(plain_field 1, TBase T_IPADDR); (plain_field 2, TBase T_U64)]);
   (plain_field 4, TBase T_STRING)].
Definition flow_object : list (bool * cobj) :=
  [(false, CNum (VInt T_I32 (-2))); (false, CArray [CStr (Some (bs "a")); CStr None]);
   (false, CStruct [(false, CIp (Some (IPv4 [x0a; x00; x00; x01]))); (false, CNum (VInt T_U64 77))]);
   (false, CStr (Some (bs "eth0")))].
(** Proofs by evaluation that a definition is supported and an object is of its type. *)
Ltac by_parts := repeat match goal with
  | |- NoDup _ => apply (bool_decide_eq_true_1 (NoDup _)); reflexivity
  | |- _ \/ _ => first [left; reflexivity|right; reflexivity]
  | |- _ => first [reflexivity|split|constructor]
  end.
Lemma flow_ok : c_members_ok flow_members /\ c_members_typed flow_members flow_object.
Proof. by_parts. Qed.

(** [_write] with a double as the fifth member. *)
Example c_double_through_protocol :
  let _ := TMemoryBuffer.total_allocator in
  exists s, sandesh_write (bs "vr_flow") (flow_members ++ [(plain_field 5, TBase T_DOUBLE)])
    (CStruct (flow_object ++ [(false, CNum (VDouble 7))])) (over_block (replicate 90 x00) 0) = Some (81, s).
Proof. vm_compute. by eexists. Qed.

Lemma c_fast_writer_witness :
  let _ := TMemoryBuffer.total_allocator in
  exists block' s, sandesh_write_binary_to_buffer (bs "vr_flow") flow_members (CStruct flow_object)
      (MkFrame 2 80) (bs "ab" ++ replicate 80 x00 ++ bs "c") = Some (70, bs "ab" ++ block' ++ bs "c") /\
    sandesh_write (bs "vr_flow") flow_members (CStruct flow_object) (over_block (replicate 80 x00) 0) = Some (70, s) /\
    take 70 block' = CBuffer.contents (ThriftBinaryProtocol.transport s) /\
    exists block2, sandesh_write_binary_to_buffer (bs "vr_flow") (flow_members ++ [(plain_field 5, TBase T_DOUBLE)])
      (CStruct (flow_object ++ [(false, CNum (VDouble 7))])) (MkFrame 2 80) (bs "ab" ++ replicate 80 x00 ++ bs "c")
      = Some (-1, bs "ab" ++ block2 ++ bs "c").
Proof.
  intros A. destruct flow_ok as [Hms Hvs].
  destruct (c_fast_writer (bs "vr_flow") flow_members flow_object (bs "ab") (replicate 80 x00) (bs "c") 0) as (_&(s&Es&Ec)&(block'&Eb&_&Et)&Hd);
    [reflexivity| |exact Hms|exact Hvs|reflexivity|reflexivity|].
  { apply (bool_decide_eq_true_1 (~ _)). reflexivity. }
  exists block', s. split; [exact Eb|]. split; [exact Es|].
  split; [rewrite Ec, Et by (vm_compute; discriminate); reflexivity|].
  destruct (Hd (plain_field 5) [] false 7 []) as (block2&E2&_); [by_parts|reflexivity|]. exists block2. exact E2.
Defined.

(** ** Reading *)
Lemma front_ready `{!Allocator} buf e : zlen buf < 2 ^ 31 -> CReader.ready (in_front buf e) buf.
Proof. intros Hl. by destruct (CLibrary.whole_ready buf Hl). Qed.

(** C8: the two generated C readers agree, for a definition that the C generator
    supports (as for the writers), whatever the three bytes of its stack hold that the
    skipping function does not set.  In front of a message whose lists hold elements of
    the definition's types, and whose fields that the definition does not know or has
    with another type hold no address, set, map or list with elements (the function that
    skips does not know the first three, and takes the type of the elements of a list
    from those bytes), [_read_binary_from_buffer] and [_read] take exactly the message and make the same
    object: members by their numbers, set; the others as [os_zalloc] left them.
    Bytes around the block do not matter.  In front of a message that was cut short, if
    nothing in it must be skipped, the first returns -1 and so does the second with the
    receive error, unless not even the length of the name is there: then [_read] tests and
    frees a pointer that was never set. *)
Theorem c_fast_reader `{!Allocator} (upper : Z) (sizeof : ttype -> Z) (ms : list (t_field * ttype)) (name : list byte)
    (fs : list (Z * value)) (pre post : list byte) (e : Z) (fuel : nat) :
  let text := encode (VSandesh name fs) in
  (forall k, alloc_ok k = true) -> c_members_ok ms -> value_ok (VSandesh name fs) = true -> (fuel_for (VSandesh name fs) <= S fuel)%nat ->
  (c_fields_compat false ms fs = true -> forall rest, zlen (text ++ rest) < 2 ^ 31 ->
     sandesh_read_binary_from_buffer upper sizeof fuel ms (zero_members ms) (MkFrame (zlen pre) (zlen (text ++ rest))) (pre ++ (text ++ rest) ++ post)
       = Some (zlen text, Some (c_conv_sandesh ms fs)) /\
     exists s, sandesh_read sizeof fuel ms (zero_members ms) (in_front (text ++ rest) e) = Some ((zlen text, Some (c_conv_sandesh ms fs)), s) /\
       CBuffer.contents (ThriftBinaryProtocol.transport s) = rest) /\
  (c_fields_compat true ms fs = true -> zlen text < 2 ^ 31 -> forall l k, text = l ++ k -> k <> [] ->
     sandesh_read_binary_from_buffer upper sizeof fuel ms (zero_members ms) (MkFrame (zlen pre) (zlen l)) (pre ++ l ++ post) = Some (-1, None) /\
     if zlen l <? 4 then sandesh_read sizeof fuel ms (zero_members ms) (in_front l e) = None
     else exists s, sandesh_read sizeof fuel ms (zero_members ms) (in_front l e) = Some ((-1, None), s) /\
       ThriftBinaryProtocol.error s = THRIFT_TRANSPORT_ERROR_RECEIVE).
Proof.
  intros text Ha Hms Hv Hf.
  assert (forall buf, zlen buf < 2 ^ 31 -> frame_ok (MkFrame (zlen pre) (zlen buf)) (pre ++ buf ++ post)) as Hfr
    by (intros buf Hb; unfold frame_ok; cbn [Xbuf Xbuflen]; rewrite !length_app; lia).
  split.
  - intros Hc rest Hsz. pose proof Hsz as Hsz'. rewrite length_app in Hsz'. split.
    + destruct (sandesh_read_fgets Ha upper sizeof false fuel ms name fs Hms Hv Hc Hf (MkFrame (zlen pre) (zlen (text ++ rest))) (pre ++ (text ++ rest) ++ post)
        (Hfr _ Hsz)) as [Hget _]; cbn [Xbuf Xbuflen] in *; [lia|unfold INT_MAX; fold text; lia|].
      apply Hget; fold text; [rewrite length_app; lia|]. exists pre, (rest ++ post). by rewrite <- app_assoc.
    + destruct (sandesh_read_spec Ha sizeof false fuel ms name fs (in_front (text ++ rest) e) Hms Hv Hc Hf) as [Hget _]; [fold text; lia|].
      destruct (Hget rest (front_ready _ e Hsz)) as (s&E&[_ Hr]&_). by exists s.
  - intros Hc Hsz l k El Hk. pose proof Hsz as Hsz'. rewrite El, length_app in Hsz'.
    assert (CReader.cut l text) as Hcut by (by exists k). split.
    + destruct (sandesh_read_fgets Ha upper sizeof true fuel ms name fs Hms Hv Hc Hf (MkFrame (zlen pre) (zlen l)) (pre ++ l ++ post) (Hfr l ltac:(lia)))
        as [_ Hcutr]; cbn [Xbuf Xbuflen] in *; [lia|unfold INT_MAX; fold text; lia|].
      apply (Hcutr eq_refl l Hcut eq_refl). by exists pre, post.
    + destruct (sandesh_read_spec Ha sizeof true fuel ms name fs (in_front l e) Hms Hv Hc Hf Hsz) as [_ Hcutr].
      apply (Hcutr eq_refl l); [apply front_ready; lia|done].
Qed.

(** The message as [flow_members] has it, and with a field that they do not have. *)
Definition flow_fields : list (Z * value) := c_fields flow_members flow_object.
Definition flow_received : cobj :=
  CStruct [(true, CNum (VInt T_I32 (-2))); (true, CArray [CStr (Some (bs "a")); CStr None]);
    (true, CStruct [(true, CIp (Some (IPv4 [x0a; x00; x00; x01]))); (true, CNum (VInt T_U64 77))]); (true, CStr (Some (bs "eth0")))].

Lemma c_fast_reader_witness :
  let _ := TMemoryBuffer.total_allocator in
  sandesh_read_binary_from_buffer 5 (fun _ => 8) 10 flow_members (zero_members flow_members) (MkFrame 2 88)
    (bs "ab" ++ encode (VSandesh (bs "vr_flow") ((9, VStruct [(1, VInt T_U16 1); (2, VList T_STRING [])]) :: flow_fields)) ++ bs "! more") = Some (87, Some flow_received) /\
  sandesh_read_binary_from_buffer 5 (fun _ => 8) 10 flow_members (zero_members flow_members) (MkFrame 2 69)
    (bs "ab" ++ take 69 (encode (VSandesh (bs "vr_flow") flow_fields)) ++ bs "!") = Some (-1, None).
Proof.
  intros A. destruct flow_ok as [Hms _]. split.
  - destruct (c_fast_reader 5 (fun _ => 8) flow_members (bs "vr_flow") ((9, VStruct [(1, VInt T_U16 1); (2, VList T_STRING [])]) :: flow_fields) (bs "ab") (bs " more") 0 10) as [Hw _];
      [reflexivity|exact Hms|reflexivity|apply Nat.leb_le; reflexivity|].
    destruct (Hw eq_refl (bs "!") eq_refl) as [E _]. exact E.
  - destruct (c_fast_reader 5 (fun _ => 8) flow_members (bs "vr_flow") flow_fields (bs "ab") (bs "!") 0 10) as [_ Hc];
      [reflexivity|exact Hms|reflexivity|apply Nat.leb_le; reflexivity|].
    destruct (Hc eq_refl eq_refl (take 69 (encode (VSandesh (bs "vr_flow") flow_fields))) [x00] eq_refl) as [E _]; [discriminate|exact E].
Defined.

(** ** The table of a program *)
Abbreviation table := (list (list byte * list (t_field * ttype))).
Definition definition_of (ds : table) (name : list byte) : option (list byte * list (t_field * ttype)) :=
  List.find (fun d => bool_decide (ThriftBinaryProtocol.cstr d.1 = ThriftBinaryProtocol.cstr name)) ds.
Lemma find_info_definition `{!Allocator} upper sizeof fuel ds name :
  find_sandesh_info upper sizeof fuel ds name = sandesh_infos_entry upper sizeof fuel <$> definition_of ds name.
Proof.
  unfold find_sandesh_info, definition_of. induction ds as [|d ds IH]; [done|].
  cbn [map sandesh_find_info List.find info_name sandesh_infos_entry]. case_bool_decide; [done|exact IH].
Qed.

(** ** [_free] *)
Fixpoint owned (o : cobj) : Z :=
  match o with
  | CStr (Some _) => 1
  | CStruct vs => foldr Z.add 0 (map (fun v => owned v.2) vs) + 1
  | CArray l => foldr Z.add 0 (map owned l) + 1
  | _ => 0
  end.
(** Blocks that only the elements of an array point to. *)
Fixpoint elements_owned (o : cobj) : Z :=
  match o with
  | CStruct vs => foldr Z.add 0 (map (fun v => elements_owned v.2) vs)
  | CArray l => foldr Z.add 0 (map owned l)
  | _ => 0
  end.
Abbreviation sum_of f vs := (foldr Z.add 0 (map (fun v : bool * cobj => f v.2) vs)).

(** [_free] does not release the strings in a list: the blocks it releases are those of
    the object but for these.  It leaves no pointer, so that a second call releases
    nothing. *)
Lemma free_field_released ty : forall o, c_type_ok ty -> c_typed ty o ->
  (free_field ty o).1 = owned o - elements_owned o /\ (free_field ty (free_field ty o).2).1 = 0.
Proof.
  induction ty as [b| |n ms IH|e _|e _|kt vt _ _] using GeneratedSpec.ttype_parts_ind; intros o Hty Ho; try done.
  - destruct o as [v|[a|]|[p|]| | |]; try done; cbn [c_typed c_base_typed] in Ho.
    + by destruct b.
    + by destruct Ho as [-> _].
    + by destruct Ho as [[-> | ->] _].
    + by destruct Ho as [[-> | ->] _].
  - destruct o as [v|[a|]|[p|]| | |]; try done; cbn [c_typed c_base_typed] in Ho; by destruct Ho as [[|] _].
  - destruct o as [| | | |vs|]; try done. cbn [free_field owned elements_owned fst snd]. split; [|done].
    destruct Hty as (_&_&Hms). rewrite Forall_fmap in Hms. apply c_typed_struct in Ho as [Hl Ho].
    assert (foldr Z.add 0 (zip_with (fun f v => fst (f (snd v))) (map (fun m => free_field m.2) ms) vs) = sum_of owned vs - sum_of elements_owned vs) as ->; [|lia].
    revert vs Hl Ho. induction ms as [|m ms IHms]; intros [|v vs] Hl Ho; try done. cbn [map zip_with foldr].
    apply Forall_cons_iff in IH as [Hm IH]. apply Forall_cons_iff in Hms as [Hmt Hms]. apply Forall_cons_iff in Ho as [Hv Ho].
    rewrite (IHms IH Hms vs) by (done || by injection Hl). destruct (Hm v.2 Hmt Hv) as [-> _]. lia.
  - destruct e as [b| | | | |]; try done. destruct o as [| | | | |l]; try done. cbn [free_field owned elements_owned fst snd]. split; [lia|done].
Qed.
Theorem c_free_released ms vs : c_members_ok ms -> c_members_typed ms vs ->
  (free_members ms vs).1 = sum_of owned vs - sum_of elements_owned vs /\ (free_members ms (free_members ms vs).2).1 = 0.
Proof.
  intros (_&_&Hms) Ho. rewrite Forall_fmap in Hms. apply (c_typed_struct []) in Ho as [Hl Ho]. unfold free_members. cbn [fst snd].
  revert vs Hl Ho. induction Hms as [|m ms Hm _ IH]; intros [|v vs] Hl Ho; try done. cbn [map zip_with foldr fst snd] in *.
  apply Forall_cons_iff in Ho as [Hv Ho]. destruct (IH vs ltac:(by injection Hl) Ho) as [E1 E2].
  destruct (free_field_released m.2 v.2 Hm Hv) as [F1 F2]. split; [rewrite E1, F1; lia|]. rewrite E2, F2. lia.
Qed.
End CGeneratedClaims.
