(* ===== verification/AgentKernel.v ===== *)
(** * From the generated code of the agent to the module in the kernel

    The whole way of a message: written by the generated C++ code into a block of the
    caller's ([WriteBinary]), put into one buffer with others, taken apart by the C library
    ([sandesh_decode]) and read by the C code that was generated for its name. *)

From S2P Require Import Prelude Transport Protocol Wire Binary BinarySpec CThrift CThriftSpec CReaderSpec CSandesh.
From S2P Require Import Generated GeneratedSpec GeneratedWrite Receive CGenerated CGeneratedWrite CGeneratedRead CGeneratedClaims.
Import Receive CGenerated CGeneratedWrite CGeneratedRead CGeneratedClaims.
Import Generated(e_req(..), t_field(..), get_key, get_name, get_req, ttype(..), type_to_enum, find_case, required, obj(..), gen_Write).
Local Open Scope Z_scope.

Module AgentKernel.

(** ** A block that is only written

    [setWriteBuffer] gives the memory buffer a block of the caller's with the whole block as
    bytes to be read, too.  Nothing reads while a message is written: the block keeps the
    promises of a transport that is not readable, its contents are the bytes written. *)
Section Block.
Context `{!Allocator}.
Import TMemoryBuffer.

Definition written_bytes (b : t) : list byte := take (Z.to_nat (wBase_ b)) (mem b).
Definition block_ok (b : t) : Prop :=
  0 <= wBase_ b /\ wBase_ b <= wBound_ b /\ wBound_ b <= zlen (mem b) /\ wBound_ b < 2 ^ 32 /\ owner_ b = false /\ is_Some (buffer_ b).

Local Definition block_laws : TransportLaws t.
Proof.
  refine {| t_ok := block_ok; t_readable := fun _ => False; t_contents := written_bytes;
            t_room := fun b n => wBase_ b + n <= wBound_ b |}; try done.
  - intros. lia.
  - intros b d (?&?&?&?&?&[m Hm]) Hr. cbn [t_write ttransport]. unfold write.
    destruct (Z.leb_spec (wBase_ b + zlen d) (wBound_ b)); [|lia].
    destruct (memcpy (mem b) (wBase_ b) d) as [m'|] eqn:E; [|rewrite memcpy_Some in E by lia; done]. cbn [mbind option_bind].
    assert (mem (set_wBase (wBase_ b + zlen d) (set_mem m' b)) = m') as Em by (unfold mem, set_mem; cbn; by rewrite Hm).
    eexists. split; [done|]. pose proof (memcpy_length _ _ _ _ E) as El. pose proof (memcpy_take _ _ _ _ E) as Et.
    split; [|split; [done|split]].
    + unfold block_ok. rewrite Em. cbn. split_and!; try done; try lia. rewrite Hm. by eexists.
    + unfold written_bytes. rewrite Em. cbn. rewrite <- Et. f_equal. lia.
    + intros n Hn. cbn. lia.
Defined.

(** A message that fits is at the front of the block. *)
Lemma WriteBinary_front (Write : M prot Z) (d block : list byte) (error : Z) :
  @BinarySpec.emits _ t _ block_laws Write d -> zlen d <= zlen block < 2 ^ 31 ->
  exists block', WriteBinary Write block error = Some (zlen d, block', error) /\ take (length d) block' = d.
Proof.
  intros Hw Hb. unfold WriteBinary, new_buffer, initCommon. cbn [mbind option_bind].
  set (b := setWriteBuffer (zlen block) (Mk (Some block) (zlen block) 0 (zlen block) (zlen block) (zlen block) false)).
  assert (block_ok b) as Hok by (unfold block_ok, b, mem; cbn; split_and!; try done; try lia; by eexists).
  destruct (Hw (TBinaryProtocol.new b)) as (p&E&Hp&Hc&_).
  { split; [exact Hok|]. split; [cbn; lia|lia]. }
  rewrite E. cbn [mbind option_bind]. destruct (Z.ltb_spec (zlen d) 0); [lia|]. eexists. split; [done|].
  change (written_bytes (TBinaryProtocol.trans_ p) = written_bytes b ++ d) in Hc.
  change (written_bytes b) with (take 0 block) in Hc. rewrite take_0, app_nil_l in Hc. unfold written_bytes in Hc.
  pose proof (f_equal length Hc) as Hl. rewrite length_take in Hl.
  rewrite <- (take_take_le _ _ (Z.to_nat (wBase_ (TBinaryProtocol.trans_ p)))) by lia. rewrite Hc. apply firstn_all.
Qed.
End Block.

(** ** Messages of the agent *)

(** The name, the definition compiled into the agent, and an object. *)
Record message := MkMessage { m_name : list byte; m_members : list (t_field * ttype); m_object : list (bool * obj) }.
Definition m_fields (a : message) : list (Z * value) := GeneratedWrite.fields_of (zip (m_members a) (m_object a)).
Definition m_text (a : message) : list byte := encode (VSandesh (m_name a) (m_fields a)).
Definition message_ok (lt : obj -> obj -> bool) (a : message) : Prop :=
  m_name a <> [] /\ x00 ∉ m_name a /\ zlen (m_name a) < 2 ^ 31 - 4 /\
  GeneratedWrite.type_ok (TStruct (m_name a) (m_members a)) /\
  GeneratedWrite.typed lt (TStruct (m_name a) (m_members a)) (OStruct (m_object a)).

(** The module has a definition of the message that it can read it with. *)
Definition understood (strict : bool) (ds : table) (fuel : nat) (a : message) : Prop :=
  exists d, definition_of ds (m_name a) = Some d /\ c_members_ok d.2 /\ c_fields_compat strict d.2 (m_fields a) = true /\
    (fuel_for (VSandesh (m_name a) (m_fields a)) <= S fuel)%nat.
Definition kernel_object (ds : table) (a : message) : cobj :=
  match definition_of ds (m_name a) with Some d => c_conv_sandesh d.2 (m_fields a) | None => CNull end.

Section Decode.
Context `{!Allocator} (Halloc : forall k, alloc_ok k = true) (sizeof : ttype -> Z) (lt : obj -> obj -> bool) (fuel : nat) (ds : table) (upper : Z).
Abbreviation find := (find_sandesh_info upper sizeof fuel ds).

Lemma message_value a : message_ok lt a -> value_ok (VSandesh (m_name a) (m_fields a)) = true.
Proof.
  intros (_&_&Hn&Hty&Ho). cbn [value_ok]. apply andb_true_iff. split; [apply Z.ltb_lt; lia|]. 
  apply (GeneratedWrite.typed_struct lt) in Ho as [_ Ho]. destruct Hty as [[_ Hk] Hms%GeneratedWrite.type_ok_members].
  apply GeneratedWrite.fields_of_ok. apply (GeneratedWrite.members_typed _ _ (m_object a)) in Hk, Hms.
  rewrite Forall_forall in *. intros p Hp. split; [by apply Hk|].
  apply (GeneratedWrite.to_value_ok lt); [by apply Hms|by apply Ho].
Qed.

Lemma message_codec a : message_ok lt a -> understood false ds fuel a -> codec find m_text (kernel_object ds) a.
Proof.
  intros Ha (def&Hm&Hms&Hc&Hf). pose proof (message_value a Ha) as Hv. destruct Ha as (Hne&Hnul&Hn&_&_).
  assert (find (m_name a) = Some (sandesh_infos_entry upper sizeof fuel def)) as Hfind by (by rewrite find_info_definition, Hm).
  exists (m_name a), (encode_fields (m_fields a)), (sandesh_infos_entry upper sizeof fuel def).
  split; [done|].
  do 4 (split; [done|]). intros rest Hsz. cbn [read_binary_from_buffer sandesh_infos_entry fst snd]. unfold kernel_object. rewrite Hm.
  pose proof Hsz as Hsz'. rewrite length_app in Hsz'.
  destruct (sandesh_read_fgets Halloc upper sizeof false fuel def.2 (m_name a) (m_fields a) Hms Hv Hc Hf
    (MkFrame 0 (zlen (m_text a ++ rest))) (m_text a ++ rest)) as [Hget _].
  - unfold frame_ok. cbn [Xbuf Xbuflen]. lia.
  - cbn [Xbuflen]. lia.
  - unfold INT_MAX. fold (m_text a). lia.
  - cbn [Xbuf Xbuflen] in Hget. fold (m_text a) in Hget. rewrite Hget; [done|rewrite length_app; lia|]. by exists [], rest.
Qed.

(** A message that was cut short. *)
Lemma decode_cut a l k d : message_ok lt a -> understood true ds fuel a -> m_text a = l ++ k -> k <> [] -> zlen (m_text a) < 2 ^ 31 ->
  sandesh_decode_one l find d = Some (-1, d).
Proof.
  intros Ha (def&Hm&Hms&Hc&Hf) El Hk Hsz. pose proof (message_value a Ha) as Hv. destruct Ha as (Hne&Hnul&Hn&_&_).
  assert (find (m_name a) = Some (sandesh_infos_entry upper sizeof fuel def)) as Hfind by (by rewrite find_info_definition, Hm).
  assert (CReader.cut l (m_text a)) as Hcut by (by exists k).
  assert (zlen (count (zlen (m_name a))) = 4) as E4 by (unfold count; by rewrite length_be_bytes).
  assert (0 < zlen (m_name a)) as Hpos by (destruct (m_name a); [done|cbn; lia]).
  assert (m_text a = count (zlen (m_name a)) ++ m_name a ++ encode_fields (m_fields a)) as Ee
    by done.
  pose proof Hcut as Hc1. rewrite Ee in Hc1. apply CReader.cut_app in Hc1 as [Hc1|(l1&->&Hc1)].
  { apply CReader.cut_shorter in Hc1. unfold sandesh_decode_one. by destruct (Z.ltb_spec (zlen l) 4); [|lia]. }
  apply CReader.cut_app in Hc1 as [Hc1|(l2&->&Hc1)].
  { apply CReader.cut_shorter in Hc1. unfold sandesh_decode_one. rewrite length_app, Nat2Z.inj_add, E4.
    destruct (Z.ltb_spec (4 + zlen l1) 4); [lia|].
    rewrite (CSkip.mread_holds _ 0 (count (zlen (m_name a))) 4) by (done || by exists [], l1). cbn [mbind option_bind].
    rewrite int_value_count by lia. destruct (Z.ltb_spec 0 (zlen (m_name a))); [|lia]. unfold INT_MAX.
    destruct (Z.ltb_spec (2 ^ 31 - 1) (4 + zlen (m_name a))); [lia|]. by destruct (Z.ltb_spec (4 + zlen l1) (4 + zlen (m_name a))); [|lia]. }
  rewrite decode_one_named by (done || lia). rewrite Hfind. cbn [read_binary_from_buffer sandesh_infos_entry fst snd].
  set (l := count (zlen (m_name a)) ++ m_name a ++ l2) in *.
  destruct (sandesh_read_fgets Halloc upper sizeof true fuel def.2 (m_name a) (m_fields a) Hms Hv Hc Hf (MkFrame 0 (zlen l)) l) as [_ Hcutr].
  - unfold frame_ok. cbn [Xbuf Xbuflen]. apply CReader.cut_shorter in Hcut. lia.
  - cbn [Xbuflen]. apply CReader.cut_shorter in Hcut. lia.
  - unfold INT_MAX. fold (m_text a). lia.
  - cbn [Xbuf Xbuflen] in Hcutr. rewrite (Hcutr eq_refl l Hcut eq_refl) by (exists [], []; by rewrite app_nil_r). cbn. by destruct d.
Qed.

Lemma message_written a block error : message_ok lt a -> zlen (m_text a) <= zlen block < 2 ^ 31 ->
  exists block', WriteBinary (gen_Write (m_name a) (m_members a) (OStruct (m_object a))) block error
    = Some (zlen (m_text a), block', error) /\ take (length (m_text a)) block' = m_text a.
Proof.
  intros (_&_&Hn&Hty&Ho) Hb. apply WriteBinary_front; [|done].
  exact (@GeneratedWrite.gen_Write_emits lt _ _ _ block_laws (m_name a) (m_members a) (m_object a) ltac:(lia) Hty Ho).
Qed.

(** C9: from the generated code of the agent to the module in the kernel.  Messages that
    the agent wrote, each with [WriteBinary] on a block with room for it, and that the
    module finds in one buffer, one behind the other, are processed in order, each as the
    object that the module's version of its definition makes of it: members by their
    numbers and types, others skipped, what did not come zero.  The module's definitions
    are ones the C generator supports; where a list is a member of both versions, its
    elements are of the same type, and the members that must be skipped hold no address,
    set, map or list with elements; nothing depends on the three bytes of its stack that
    the skipping function does not set.  All bytes are taken, and the error is not
    touched.  If a message of a name without a definition follows, those
    before it have been processed, the result is -1 and the error EINVAL; if one follows
    that was cut short, wherever that was, and has no field that must be skipped, the
    result is -1 too. *)
Theorem agent_to_kernel (ams : list message) (blocks : list (list byte)) (d : dstate cobj) (e : Z) :
  Forall (fun a => message_ok lt a /\ understood false ds fuel a) ams ->
  Forall2 (fun a block => zlen (m_text a) <= zlen block < 2 ^ 31) ams blocks ->
  zlen (concat (map m_text ams)) < 2 ^ 31 ->
  exists texts, Forall2 (fun ab text => exists block',
      WriteBinary (gen_Write (m_name ab.1) (m_members ab.1) (OStruct (m_object ab.1))) ab.2 e = Some (zlen text, block', e) /\
      take (length text) block' = text) (zip ams blocks) texts /\
    sandesh_decode (concat texts) find d =
      Some (zlen (concat texts), MkD (derror d) (processed d ++ map (kernel_object ds) ams)) /\
    (forall name rest, definition_of ds name = None -> name <> [] -> x00 ∉ name ->
       zlen (concat texts ++ count (zlen name) ++ name ++ rest) < 2 ^ 31 ->
       sandesh_decode (concat texts ++ count (zlen name) ++ name ++ rest) find d =
       Some (-1, MkD C_EINVAL (processed d ++ map (kernel_object ds) ams))) /\
    (forall a l k, message_ok lt a -> understood true ds fuel a -> m_text a = l ++ k -> l <> [] -> k <> [] ->
       zlen (concat texts ++ m_text a) < 2 ^ 31 ->
       sandesh_decode (concat texts ++ l) find d = Some (-1, MkD (derror d) (processed d ++ map (kernel_object ds) ams))).
Proof.
  intros Hams Hblocks Hsz. assert (Forall (codec find m_text (kernel_object ds)) ams) as Hc.
  { eapply list.Forall_impl; [exact Hams|]. intros a []. by apply message_codec. }
  exists (map m_text ams). split; [|split; [|split]].
  - clear Hsz Hc. revert Hams. induction Hblocks as [|a b ams blocks Hab _ IH]; intros Hams; cbn [zip zip_with map]; constructor;
      apply Forall_cons_iff in Hams as [[Ha _] Hams]; [by apply message_written|by apply IH].
  - by apply decode_to_end.
  - intros name rest Hm Hne Hnul Hl. assert (length (count (zlen name)) = 4%nat) as E4 by (unfold count; by rewrite length_be_bytes).
    eapply decode_then; [done|done|done| |lia|]; [by destruct (count (zlen name))|].
    rewrite !length_app in Hl. rewrite decode_one_named by (done || lia). by rewrite find_info_definition, Hm.
  - intros a l k Ha Hu El Hl Hk Hsz'. rewrite length_app in Hsz'. eapply decode_then; [done|done| |done|lia|].
    + rewrite length_app. rewrite El, length_app in Hsz'. lia.
    + eapply decode_cut; [done|done|done|done|lia].
Qed.
End Decode.

(** ** An agent and a module with another version of the definition *)
Definition member (k : Z) (r : e_req) : t_field := MkField k (bs "member") r.
Definition agent_members : list (t_field * ttype) :=
  [(member 1 T_REQUIRED, TBase T_I32); (member 2 T_OPTIONAL, TBase T_STRING); (member 5 T_OPT_IN_REQ_OUT, TStruct (bs "key") [(member 1 T_OPT_IN_REQ_OUT, TBase T_U16)]);
   (member 6 T_OPT_IN_REQ_OUT, TBase T_BOOL)].
Definition module_table : table :=
  [(bs "vr_route", [(member 1 T_OPT_IN_REQ_OUT, TBase T_I32); (member 2 T_OPT_IN_REQ_OUT, TBase T_STRING);
                    (member 6 T_OPT_IN_REQ_OUT, TBase T_BYTE); (member 7 T_OPT_IN_REQ_OUT, TBase T_U64)])].
Definition route : message := MkMessage (bs "vr_route") agent_members
  [(false, OBase (VInt T_I32 7)); (true, OBase (VBytes T_STRING (bs "ten"))); (false, OStruct [(false, OBase (VInt T_U16 3))]); (false, OBase (VBool true))].

Lemma agent_to_kernel_witness :
  let _ := TMemoryBuffer.total_allocator in
  exists texts, length texts = 1%nat /\
    sandesh_decode (concat texts) (find_sandesh_info 5 (fun _ => 8) 10 module_table) (MkD 0 []) =
      Some (zlen (concat texts), MkD 0 [CStruct [(true, CNum (VInt T_I32 7)); (true, CStr (Some (bs "ten")));
        (false, CNum (VInt T_BYTE 0)); (false, CNum (VInt T_U64 0))]]).
Proof.
  intros A. assert (forall k, @alloc_ok A k = true) as Ha by reflexivity.
  destruct (agent_to_kernel Ha (fun _ => 8) (fun _ _ => false) 10 module_table 5 [route] [replicate 80 x00] (MkD 0 []) 0)
    as (texts&Ht&E&_).
  - constructor; [|constructor]. split.
    + split; [discriminate|]. split; [apply (bool_decide_eq_true_1 (~ _)); reflexivity|]. split; [reflexivity|]. by_parts.
    + eexists. split; [reflexivity|]. split; [by_parts|]. split; [reflexivity|]. apply Nat.leb_le. reflexivity.
  - repeat constructor; (vm_compute; (discriminate || reflexivity)).
  - vm_compute. reflexivity.
  - exists texts. split; [|exact E]. apply Forall2_length in Ht. cbn in Ht. lia.
Defined.
End AgentKernel.
