(* ===== verification/GeneratedReceive.v ===== *)
(** * From the module in the kernel to the generated code of the agent

    The factory of messages (SandeshBaseFactory and SandeshDerivedRegister of
    library/cpp/sandesh.h) over the definitions that were compiled into a program, and
    the whole way of a message: written by the generated C code into a block
    ([sandesh_encode]), put into one buffer with others, taken apart by [ReceiveBinaryMsg],
    read by the code generated for its name. *)

From S2P Require Import Prelude Transport Protocol Wire Binary BinarySpec CThrift CThriftSpec CReaderSpec CSandesh.
From S2P Require Import Generated GeneratedSpec Receive CGenerated CGeneratedWrite CGeneratedClaims.
Import Generated GeneratedSpec Receive.
Import CGenerated(cobj(..), find_sandesh_info, sandesh_infos_entry, frame(..), Xbuf, Xbuflen).
Import CGeneratedWrite(c_fields, c_members_ok, c_members_typed) CGeneratedClaims(definition_of).
Local Open Scope Z_scope.

Module GeneratedReceive.

(** What is compiled into a program for a name: the members, and whether the class is
    derived from SandeshBuffer. *)
Record definition := MkDef { d_buffer : bool; d_members : list (t_field * ttype) }.

(** ** SandeshBaseFactory *)
Abbreviation map_type := (gmap (list byte) definition).

Definition new_object (name : list byte) (d : definition) : obj := default_obj (TStruct name (d_members d)).
Definition CreateInstance `{!Allocator} (lt : obj -> obj -> bool) (fuel : nat) (m : map_type) (s : list byte) : option (instance obj) :=
  d ← m !! s;
  Some (MkInstance (gen_Read lt fuel (d_members d) (new_object s d)) (d_buffer d)).

(** Each entry of [map] takes the place of the one with its name. *)
Definition Update (map m : map_type) : map_type :=
  map_fold (fun s d m => <[s := d]> (match m !! s with Some _ => delete s m | None => m end)) m map.

(** A static object registers its name when it is made, unless it is there, and erases it
    when it is destroyed; erasing a name that is not there is undefined. *)
Definition SandeshDerivedRegister (s : list byte) (d : definition) (m : map_type) : map_type :=
  match m !! s with Some _ => m | None => <[s := d]> m end.
Definition SandeshDerivedRegister_destroy (s : list byte) (m : map_type) : option map_type :=
  _ ← m !! s; Some (delete s m).

Lemma Update_union map m : Update map m = map ∪ m.
Proof.
  unfold Update. apply (map_fold_weak_ind (fun r (map : map_type) => r = map ∪ m)).
  - by rewrite (left_id_L ∅ (∪)).
  - intros s d map' r Hs ->. rewrite <- insert_union_l. destruct ((map' ∪ m) !! s); [|done]. apply insert_delete_eq.
Qed.

(** ** Messages *)

(** What the program [m] makes of a message, if it knows it and all that is required came. *)
Definition read_as (lt : obj -> obj -> bool) (m : map_type) (v : value) : option obj :=
  match v with
  | VSandesh name fs => d ← m !! name; conv_sandesh lt (d_members d) (new_object name d) fs
  | _ => None
  end.
(** A message of a name the program knows, with elements of containers of the types it has. *)
Definition known (m : map_type) (v : value) : Prop :=
  match v with
  | VSandesh name fs =>
      exists d, m !! name = Some d /\ d_buffer d = true /\
        members_compat (map (fun m => (m.1, type_to_enum m.2, compat m.2)) (d_members d)) fs = true
  | _ => False
  end.

(** A message of the module in the kernel: its name, its definition there, and an object. *)
Record kmessage := MkKernel { k_name : list byte; k_members : list (t_field * ttype); k_object : list (bool * cobj) }.
Definition k_value (k : kmessage) : value := VSandesh (k_name k) (c_fields (k_members k) (k_object k)).
Definition kernel_ok (ds : list (list byte * list (t_field * ttype))) (k : kmessage) : Prop :=
  definition_of ds (k_name k) = Some (k_name k, k_members k) /\ zlen (k_name k) < 2 ^ 31 /\
  c_members_ok (k_members k) /\ c_members_typed (k_members k) (k_object k).

Lemma k_value_ok ds k : kernel_ok ds k -> value_ok (k_value k) = true.
Proof.
  intros (_&Hn&Hms&Hvs). pose proof (CGeneratedWrite.c_value_ok _ _ Hms Hvs) as Hv.
  rewrite CGeneratedWrite.c_to_value_struct in Hv. cbn [value_ok k_value] in *. by rewrite (proj2 (Z.ltb_lt _ _) Hn).
Qed.

Section Receive.
Context `{!Allocator} (sizeof : ttype -> Z) (lt : obj -> obj -> bool) (fuel : nat) (m : map_type)
  (ds : list (list byte * list (t_field * ttype))).
Abbreviation pair_ok := (fun ko : kmessage * obj =>
  kernel_ok ds ko.1 /\ known m (k_value ko.1) /\ read_as lt m (k_value ko.1) = Some ko.2 /\ (fuel_for (k_value ko.1) <= fuel)%nat).
Abbreviation k_text := (fun ko : kmessage * obj => encode (k_value ko.1)).

Lemma gen_runs name fs d :
  m !! name = Some d -> value_ok (VSandesh name fs) = true -> (fuel_for (VSandesh name fs) <= fuel)%nat ->
  members_compat (map (fun m => (m.1, type_to_enum m.2, compat m.2)) (d_members d)) fs = true ->
  runs_from (T := TMemoryBuffer.t) (gen_Read lt fuel (d_members d) (new_object name d)) 0 (encode (VSandesh name fs))
    (conv_sandesh lt (d_members d) (new_object name d) fs).
Proof. intros Hd Hv Hf Hc. apply gen_Read_runs; try done. apply (default_shaped (TStruct [] (d_members d))). Qed.

Lemma gen_rcodec ko : pair_ok ko -> rcodec (CreateInstance lt fuel m) k_text snd ko.
Proof.
  destruct ko as [k o]. cbn [fst snd]. intros (Hk&(d&Hd&Hb&Hc)&Hr&Hf). pose proof (k_value_ok ds k Hk) as Hv.
  unfold k_value in *. cbn [read_as] in Hr. rewrite Hd in Hr. set (fs := c_fields (k_members k) (k_object k)) in *.
  exists (k_name k), (encode_fields fs), (MkInstance (gen_Read lt fuel (d_members d) (new_object (k_name k) d)) (d_buffer d)).
  split; [done|]. unfold CreateInstance. rewrite Hd. split; [done|]. split; [done|].
  pose proof (gen_runs (k_name k) fs d Hd Hv Hf Hc) as Hruns. cbn [mbind option_bind] in Hr. rewrite Hr in Hruns. by apply reads_from_0.
Qed.

(** A message of which a required member is missing. *)
Lemma receive_incomplete v rest r :
  value_ok v = true -> known m v -> read_as lt m v = None -> (fuel_for v <= fuel)%nat -> zlen (encode v ++ rest) < 2 ^ 31 ->
  exists c, c < 0 /\ ReceiveBinaryMsgOne (CreateInstance lt fuel m) (encode v ++ rest) r = Some (c, MkR EINVAL (rprocessed r) (leaked r + 1)).
Proof.
  destruct v as [| | | | | | |name fs| | |]; try (by intros ? []). intros Hv (d&Hd&Hb&Hc) Hr Hf Hsz.
  cbn [read_as] in Hr. rewrite Hd in Hr. cbn [mbind option_bind] in Hr.
  destruct (over_ready _ Hsz) as (p&Ep&Hp). pose proof (gen_runs name fs d Hd Hv Hf Hc) as Hruns. rewrite Hr in Hruns.
  destruct (Hruns p rest Hp) as (c&s&E&Hlt); [lia|rewrite length_app in Hsz; lia|]. exists c. split; [done|].
  assert (encode (VSandesh name fs) ++ rest = count (zlen name) ++ name ++ encode_fields fs ++ rest) as Ee
    by (cbn [encode]; by rewrite <- !(app_assoc (count _)), <- !(app_assoc name)).
  rewrite Ee in *. rewrite receive_named by done. unfold CreateInstance. rewrite Hd. cbn [mbind option_bind i_Read].
  rewrite Ep. cbn [mbind option_bind]. rewrite E. cbn [mbind option_bind]. by destruct (Z.ltb_spec c 0); [|lia].
Qed.

Lemma receive_unknown name fs rest r :
  m !! name = None -> zlen (encode (VSandesh name fs) ++ rest) < 2 ^ 31 ->
  ReceiveBinaryMsgOne (CreateInstance lt fuel m) (encode (VSandesh name fs) ++ rest) r = Some (-1, MkR EINVAL (rprocessed r) (leaked r)).
Proof.
  intros Hn Hsz.
  assert (encode (VSandesh name fs) ++ rest = count (zlen name) ++ name ++ encode_fields fs ++ rest) as Ee
    by (cbn [encode]; by rewrite <- !(app_assoc (count _)), <- !(app_assoc name)).
  rewrite Ee in *. rewrite receive_named by done. unfold CreateInstance. by rewrite Hn.
Qed.

(** What [sandesh_encode] leaves in a block. *)
Lemma kernel_text k block e : kernel_ok ds k -> zlen (encode (k_value k)) <= zlen block < 2 ^ 31 ->
  exists block', sandesh_encode (CStruct (k_object k)) (k_name k) (find_sandesh_info 0 sizeof fuel ds) block e
      = Some (zlen (encode (k_value k)), block', e) /\ take (length (encode (k_value k))) block' = encode (k_value k).
Proof.
  intros (Hd&Hn&Hms&Hvs) Hb. unfold sandesh_encode. rewrite CGeneratedClaims.find_info_definition, Hd.
  cbn [fmap option_fmap option_map write_binary_to_buffer sandesh_infos_entry fst snd].
  pose proof (CGeneratedWrite.sandesh_write_fputs (k_name k) (k_members k) (k_object k) Hn Hms Hvs (MkFrame 0 (zlen block)) block) as Hw.
  unfold k_value. set (d := encode (VSandesh (k_name k) (c_fields (k_members k) (k_object k)))) in *.
  change (zlen d <= zlen block < 2 ^ 31) in Hb. clearbody d. specialize (Hw ltac:(unfold CGeneratedWrite.frame_ok; cbn [Xbuf Xbuflen]; lia) ltac:(unfold INT_MAX; lia)).
  cbn [Xbuf Xbuflen] in Hw. destruct (Z.leb_spec (zlen d) (zlen block)); [|lia]. destruct Hw as (block'&->&Hm). cbn [mbind option_bind].
  exists block'. destruct (Z.ltb_spec (zlen d) 0); [lia|]. split; [done|]. apply memcpy_take in Hm. done.
Qed.
Lemma sandesh_bytes_pos name fs (rest : list byte) : 0 < zlen (encode (VSandesh name fs) ++ rest).
Proof. cbn [encode]. unfold count. rewrite !length_app, length_be_bytes. lia. Qed.

(** C10: from the module in the kernel to the generated code of the agent.  Messages that
    the module wrote with the generated C code, each by [sandesh_encode] on a block with room
    for it, and that the agent finds in one buffer, one behind the other, are processed in
    order, each as the object that the agent's version of its definition makes of it, and
    all bytes are taken.  If a message of an unknown name follows, those before it have been
    processed, the result is -1 and the error EINVAL; if one follows of which a required
    member is missing, the result is negative, the error EINVAL, and its object is never
    released. *)
Theorem kernel_to_agent kos blocks r e :
  Forall pair_ok kos -> Forall2 (fun ko block => zlen (k_text ko) <= zlen block < 2 ^ 31) kos blocks ->
  zlen (concat (map k_text kos)) < 2 ^ 31 ->
  exists texts, Forall2 (fun kb text => exists block',
      sandesh_encode (CStruct (k_object kb.1.1)) (k_name kb.1.1) (find_sandesh_info 0 sizeof fuel ds) kb.2 e = Some (zlen text, block', e) /\
      take (length text) block' = text) (zip kos blocks) texts /\
    ReceiveBinaryMsg (CreateInstance lt fuel m) (concat texts) r =
      Some (zlen (concat texts), MkR (rerror r) (rprocessed r ++ map snd kos) (leaked r)) /\
    (forall name fs rest, m !! name = None -> zlen (concat texts ++ encode (VSandesh name fs) ++ rest) < 2 ^ 31 ->
       ReceiveBinaryMsg (CreateInstance lt fuel m) (concat texts ++ encode (VSandesh name fs) ++ rest) r =
       Some (-1, MkR EINVAL (rprocessed r ++ map snd kos) (leaked r))) /\
    (forall v rest, value_ok v = true -> known m v -> read_as lt m v = None -> (fuel_for v <= fuel)%nat ->
       zlen (concat texts ++ encode v ++ rest) < 2 ^ 31 ->
       exists c, c < 0 /\ ReceiveBinaryMsg (CreateInstance lt fuel m) (concat texts ++ encode v ++ rest) r =
         Some (c, MkR EINVAL (rprocessed r ++ map snd kos) (leaked r + 1))).
Proof.
  intros Hp Hb Hsz. assert (Forall (rcodec (CreateInstance lt fuel m) k_text snd) kos) as Hc.
  { eapply list.Forall_impl; [exact Hp|]. apply gen_rcodec. }
  exists (map k_text kos). split; [|split; [|split]].
  - clear Hsz Hc. revert Hp. induction Hb as [|ko b kos blocks Hab _ IH]; intros Hp; cbn [zip zip_with map]; constructor;
      apply Forall_cons_iff in Hp as [[Hk _] Hp]; [by apply kernel_text|by apply IH].
  - pose proof (receive_all _ _ _ kos [] r Hc) as E. rewrite app_nil_r in E. by apply E.
  - intros name fs rest Hn Hl. eapply receive_then; [done|done|by apply sandesh_bytes_pos|lia|].
    rewrite receive_unknown; [done|done|rewrite length_app in Hl; lia].
  - intros v rest Hk Hkn Hr Hf Hl. destruct (receive_incomplete v rest
      (MkR (rerror r) (rprocessed r ++ map snd kos) (leaked r)) Hk Hkn Hr Hf) as (c&Hneg&E); [rewrite length_app in Hl; lia|].
    exists c. split; [done|]. eapply receive_then; [done|done|by destruct v; try done; apply sandesh_bytes_pos|lia|exact E].
Qed.
End Receive.

(** ** A program with two definitions *)
Definition agent_map : map_type :=
  SandeshDerivedRegister (bs "vr_flow") (MkDef true
      [(MkField 1 (bs "op") T_OPT_IN_REQ_OUT, TBase T_BOOL)])
  (SandeshDerivedRegister (bs "vr_nexthop") (MkDef true
      [(MkField 1 (bs "id") T_REQUIRED, TBase T_I32); (MkField 2 (bs "labels") T_OPT_IN_REQ_OUT, TList (TBase T_U32))]) ∅).
(** The module has members that the agent does not know, and not all that it knows. *)
Definition kernel_members : list (t_field * ttype) :=
  [(MkField 1 (bs "id") T_OPT_IN_REQ_OUT, TBase T_I32); (MkField 9 (bs "flags") T_OPT_IN_REQ_OUT, TBase T_BOOL)].
Definition nexthop : kmessage :=
  MkKernel (bs "vr_nexthop") kernel_members [(false, CNum (VInt T_I32 7)); (false, CNum (VBool true))].

Lemma kernel_to_agent_witness :
  let _ := TMemoryBuffer.total_allocator in
  exists texts, length texts = 1%nat /\
    ReceiveBinaryMsg (CreateInstance (fun _ _ => false) 10 agent_map) (concat texts) (MkR 0 [] 0) =
      Some (zlen (concat texts), MkR 0 [OStruct [(true, OBase (VInt T_I32 7)); (false, OList [])]] 0).
Proof.
  intros A.
  destruct (kernel_to_agent (fun _ => 8) (fun _ _ => false) 10 agent_map [(bs "vr_nexthop", kernel_members)]
    [(nexthop, OStruct [(true, OBase (VInt T_I32 7)); (false, OList [])])] [replicate 80 x00] (MkR 0 [] 0) 0) as (texts&Ht&E&_).
  - constructor; [|constructor]. split.
    + split; [reflexivity|]. split; [reflexivity|]. split; CGeneratedClaims.by_parts.
    + split; [eexists; repeat split; vm_compute; reflexivity|]. split; [vm_compute; reflexivity|]. apply Nat.leb_le. reflexivity.
  - repeat constructor; (vm_compute; (discriminate || reflexivity)).
  - vm_compute. reflexivity.
  - exists texts. split; [|exact E]. apply Forall2_length in Ht. cbn in Ht. lia.
Defined.
End GeneratedReceive.
