(* ===== verification/FileClaims.v ===== *)
(** * What the file transports promise

    A transport over a file that was opened for reading, and one over a file opened for
    appending, keep the promises of [TransportLaws] while the system is calm, however it
    cuts reads and writes into pieces and interrupts reads up to five times in a row; so
    the generated code works over files. *)

From S2P Require Import Prelude Transport Protocol Wire Binary BinarySpec BinaryClaims Receive FileTransport.
From S2P Require Import Generated GeneratedSpec GeneratedWrite GeneratedClaims.
Import TFDTransport SimpleFile.
Local Open Scope Z_scope.

Module FileSpec.
Section Laws.
Context `{!Posix} `{!PosixLaws} `{!Allocator}.

(** The system before a file was opened, and the descriptor and the path of the file. *)
Variables (f0 : fs) (fd : Z) (path : list byte).
Hypothesis Hfresh : fds f0 !! fd = None.
(** The system is calm. *)
Variable I : nat -> os -> Prop.
Hypothesis HI : calm_inv I.

Definition own (x : t) : Prop := fd_ x = fd /\ close_policy_ x = CLOSE_ON_DESTROY.

(** ** Reading *)
Variable data : list byte.
Hypothesis Hdata : files f0 !! path = Some data.

(** The system with the file open for reading at [pos]. *)
Definition at_pos (pos : nat) : fs := MkFs (files f0) (<[fd := MkFd path O_RDONLY pos]> (fds f0)) (free f0).
Definition reader (pos : nat) (x : t) : Prop := own x /\ view (world x) = at_pos pos /\ I 5 (world x).
Definition reader_pos (x : t) : nat := default O (d_pos <$> fds (view (world x)) !! fd).

Lemma reader_pos_eq pos x : reader pos x -> reader_pos x = pos.
Proof. intros (_&E&_). unfold reader_pos. rewrite E. cbn. by rewrite lookup_insert_eq. Qed.

(** A read is interrupted at most as often as it is tried again. *)
Lemma read_loop_ok pos n : 0 < n < 2 ^ 31 -> forall more k x,
  own x -> view (world x) = at_pos pos -> I k (world x) -> (k <= more)%nat ->
  exists bytes x', read_loop more n x = (zlen bytes, bytes, x') /\ zlen bytes <= n /\
    bytes `prefix_of` drop pos data /\ (bytes = [] -> drop pos data = []) /\ reader (pos + length bytes) x'.
Proof.
  intros Hn. destruct HI as (_&_&Hread&_).
  induction more as [|more IH]; intros k x [Efd Ecp] Ev Hk Hle; cbn [read_loop];
    (assert (fds (view (world x)) !! fd = Some (MkFd path O_RDONLY pos)) as Hd by (rewrite Ev; apply lookup_insert_eq));
    destruct (read_ok (world x) fd n (MkFd path O_RDONLY pos) data Hd) as (rv&bytes&errno&w'&E&Hcase);
    [done|by rewrite Ev|lia| |done|by rewrite Ev|lia|];
    rewrite Efd, E; destruct (Hread k (world x) fd _ n rv bytes errno w' Hk Hd E) as [[Hrv Hk']|(Hrv&->&k'&->&Hk')]; try lia.
  1,2: destruct Hcase as [[? _]|(->&Hlen&Hpre&Hnil&Ev')]; [lia|]; (destruct (Z.ltb_spec (zlen bytes) 0); [lia|]);
    rewrite (wrapS_small 32) by lia; exists bytes; eexists; (split; [done|]); do 3 (split; [done|]);
    (split; [by split|split; [|done]]); cbn [world set_world]; rewrite Ev', Ev; unfold fs_read, at_pos; cbn; by rewrite insert_insert_eq.
  destruct (Z.ltb_spec rv 0); [|lia]. rewrite Z.eqb_refl. destruct Hcase as [[_ Ev']|(->&_)]; [|lia].
  apply (IH k'); [by split|cbn; by rewrite Ev', Ev|done|lia].
Qed.

(** [readAll] puts the pieces together. *)
Lemma file_readAll_loop len : 0 <= len < 2 ^ 31 -> forall fuel pos x got,
  reader pos x -> zlen got <= len -> (Z.to_nat (len - zlen got) < fuel)%nat ->
  let front := take (Z.to_nat (len - zlen got)) (drop pos data) in
  exists x', readAll_loop fuel x got (zlen got) len =
      Some (if len - zlen got <=? zlen (drop pos data) then len else -1, got ++ front, x') /\ reader (pos + length front) x'.
Proof.
  intros Hlen. induction fuel as [|fuel IH]; intros pos x got Hx Hg Hf; [lia|]. cbn [readAll_loop].
  destruct (Z.ltb_spec (zlen got) len).
  2:{ replace (len - zlen got) with 0 by lia. cbn. rewrite (wrapS_small 32), app_nil_r, Nat.add_0_r by lia.
      exists x. split; [|done]. replace (zlen got) with len by lia. by destruct (Z.leb_spec 0 (zlen (drop pos data))); [|lia]. }
  rewrite (wrapU_small 32 (len - _)) by lia. cbn [tread transport mbind option_bind]. unfold read.
  destruct (read_loop_ok pos (len - zlen got) ltac:(lia) maxRetries 5%nat x (proj1 Hx) (proj1 (proj2 Hx)) (proj2 (proj2 Hx)) (le_n 5)) as (bytes&x'&->&Hle&[rest Hpre]&Hnil&Hx').
  cbn [mbind option_bind]. rewrite overlay_end, (wrapU_small 32 (zlen bytes)) by lia. rewrite Hpre in *.
  destruct (Z.eqb_spec (zlen bytes) 0) as [E0|].
  - destruct bytes; [|done]. rewrite app_nil_l in *. rewrite (Hnil eq_refl), app_nil_r in *. exists x'.
    cbn [length]. destruct (Z.leb_spec (len - zlen got) (Z.of_nat 0)); [lia|]. by rewrite take_nil, app_nil_r.
  - rewrite (wrapU_small 32 (_ + _)) by lia.
    destruct (IH (pos + length bytes)%nat x' (got ++ bytes) Hx') as (x2&E2&Hx2); [rewrite length_app; lia|rewrite length_app; lia|].
    rewrite length_app, Nat2Z.inj_add in *. rewrite E2. exists x2.
    assert (drop (pos + length bytes) data = rest) as Er by (by rewrite <- drop_drop, Hpre, drop_app_length).
    rewrite Er in *. rewrite take_app_ge, <- app_assoc, length_app, Nat.add_assoc by lia.
    replace (Z.to_nat (len - zlen got) - length bytes)%nat with (Z.to_nat (len - (zlen got + zlen bytes))) by lia.
    split; [|done]. do 3 f_equal. rewrite ?length_app, ?Nat2Z.inj_add. destruct (Z.leb_spec (len - (zlen got + zlen bytes)) (zlen rest)),
      (Z.leb_spec (len - zlen got) (zlen bytes + zlen rest)); (done || lia).
Qed.

Lemma file_readAll pos x len : 0 <= len < 2 ^ 31 -> reader pos x ->
  let front := take (Z.to_nat len) (drop pos data) in
  exists x', readAll len x = Some (if len <=? zlen (drop pos data) then len else -1, front, x') /\ reader (pos + length front) x'.
Proof.
  intros Hlen Hx. pose proof (file_readAll_loop len Hlen (S (Z.to_nat len)) pos x [] Hx) as Hl.
  cbn [length] in Hl. rewrite Z.sub_0_r in Hl. unfold readAll. apply Hl; [lia|lia].
Qed.

(** A file that is read is a queue of bytes; strings come through memory of the protocol. *)
Definition reading_laws : plenty -> TransportLaws t.
Proof.
  intros Hp.
  refine {| t_ok := fun x => exists pos, reader pos x; t_readable := fun x => exists pos, reader pos x;
            t_contents := fun x => drop (reader_pos x) data; t_room := fun _ _ => False |}; try done.
  - intros x n [pos Hx] Hn Hle. destruct (file_readAll pos x n Hn Hx) as (x'&E&Hx').
    rewrite (reader_pos_eq pos x Hx) in *. exists x'. cbn [t_readAll ttransport]. rewrite E.
    destruct (Z.leb_spec n (zlen (drop pos data))); [|lia]. split; [done|]. split; [by eexists|].
    rewrite (reader_pos_eq _ x' Hx'), drop_drop, length_take. f_equal. lia.
  - intros x n [pos Hx] Hn Hlt. destruct (file_readAll pos x n Hn Hx) as (x'&E&Hx').
    rewrite (reader_pos_eq pos x Hx) in *. exists x'. cbn [t_readAll ttransport]. rewrite E.
    destruct (Z.leb_spec n (zlen (drop pos data))); [lia|]. rewrite firstn_all2 in * by lia. split; [done|]. split; [by eexists|].
    rewrite (reader_pos_eq _ x' Hx'), <- drop_drop. by apply drop_ge.
  - intros x n Hx Hn. exists None, x. cbn. split_and!; [done..|by right].
Defined.

(** ** Writing *)
Definition w_flags : Z := Z.lor O_WRONLY (Z.lor O_CREAT O_APPEND).
Definition old : list byte := default [] (files f0 !! path).

(** The system with the file open for appending, after [d] was written. *)
Definition after (d : list byte) (pos : nat) : fs :=
  MkFs (<[path := old ++ d]> (files f0)) (<[fd := MkFd path w_flags pos]> (fds f0)) (free f0 - zlen d).
Definition writer (d : list byte) (x : t) : Prop :=
  own x /\ I 5 (world x) /\ exists pos, view (world x) = after d pos.

Lemma write_loop_ok : forall fuel buf d x, writer d x -> zlen buf <= free f0 - zlen d -> (length buf <= fuel)%nat ->
  exists x', write_loop fuel buf x = Some (0, x') /\ writer (d ++ buf) x'.
Proof.
  induction fuel as [|fuel IH]; intros buf d x Hx Hfree Hf; cbn [write_loop].
  { destruct buf; [|simpl in *; lia]. exists x. split; [done|]. by rewrite app_nil_r. }
  destruct (Z.ltb_spec 0 (zlen buf)).
  2:{ destruct buf; [|simpl in *; lia]. exists x. split; [done|]. by rewrite app_nil_r. }
  destruct Hx as ((Efd&Ecp)&Hk&pos&Ev).
  assert (fds (view (world x)) !! fd = Some (MkFd path w_flags pos)) as Hd by (rewrite Ev; apply lookup_insert_eq).
  destruct (write_ok (world x) fd (MkFd path w_flags pos) (old ++ d) buf Hd) as (rv&errno&w'&E&Hcase);
    [done|by rewrite Ev; cbn; rewrite lookup_insert_eq|done|].
  destruct (proj2 (proj2 (proj2 HI)) 5%nat (world x) fd _ buf rv errno w' Hk Hd E) as [Hk' Hrv].
  destruct Hcase as [[-> _]|(bytes&->&Hne&[rest ->]&Hle&Ev')]; [rewrite Ev in Hrv; cbn in Hrv; lia|].
  rewrite Efd, E. assert (0 < zlen bytes) by (destruct bytes; [done|simpl; lia]). rewrite length_app in *.
  destruct (Z.ltb_spec (zlen bytes) 0); [lia|]. destruct (Z.eqb_spec (zlen bytes) 0); [lia|].
  destruct (Z.leb_spec (zlen bytes) (Z.of_nat (length bytes + length rest))); [|lia].
  rewrite Nat2Z.id, drop_app_length, app_assoc. apply IH; [|rewrite length_app; lia|lia].
  split; [by split|]. split; [exact Hk'|]. cbn [world set_world]. rewrite Ev', Ev. unfold after, fs_append. cbn.
  eexists. rewrite !insert_insert_eq, <- app_assoc, (length_app d bytes), Nat2Z.inj_add, Z.sub_add_distr. done.
Qed.

(** A file that is appended to takes bytes as long as the disk has space. *)
Definition writing_laws : TransportLaws t.
Proof.
  refine {| t_ok := fun x => exists d, writer d x; t_readable := fun _ => False;
            t_contents := fun x => default [] (files (view (world x)) !! path);
            t_room := fun x n => n <= free (view (world x)) |}; try done.
  - intros. lia.
  - intros x d [d0 Hx] Hr. destruct (write_loop_ok (length d) d d0 x Hx) as (x'&E&Hx');
      [destruct Hx as (_&_&pos&Ev); rewrite Ev in Hr; cbn in Hr; lia|done|].
    exists x'. split; [exact E|]. split; [by eexists|]. split; [done|].
    destruct Hx as (_&_&pos&Ev), Hx' as (_&_&pos'&Ev'). rewrite Ev, Ev'. cbn. rewrite !lookup_insert_eq. cbn.
    split; [by rewrite app_assoc|]. rewrite length_app. lia.
Defined.

(** ** Closing *)
Lemma destroy_closes (x : t) : own x -> 0 <= fd -> is_Some (fds (view (world x)) !! fd) ->
  view (destroy x) = fs_close fd (view (world x)).
Proof.
  intros (Efd&Ecp) Hfd Hs. unfold destroy, close, isOpen. rewrite Ecp, Efd. destruct (Z.leb_spec 0 fd); [|lia]. cbn [negb].
  by destruct (close_ok (world x) fd Hs) as (rv&w'&->&Ev).
Qed.
End Laws.

(** ** Messages in files *)
Section Messages.
Context `{!Posix} `{!PosixLaws} `{!Allocator}.
Abbreviation prot := (TBinaryProtocol.t TFDTransport.t).

Lemma WriteBinaryToFile_appends (Write : M prot Z) (path d : list byte) (error : Z) (w : os) :
  (forall fd I HI, @emits _ t _ (writing_laws (view w) fd path I HI) Write d) ->
  calm w -> c_str path = path -> may_open w path w_flags -> zlen d < 2 ^ 31 -> zlen d <= free (view w) ->
  exists w', WriteBinaryToFile Write path error w = Some (zlen d, error, w') /\
    view w' = MkFs (<[path := default [] (files (view w) !! path) ++ d]> (files (view w))) (fds (view w)) (free (view w) - zlen d).
Proof.
  intros Hw (I&HI&Hk) Hpath Hopen Hsz Hfree. pose proof (proj1 HI 5%nat w path w_flags open_mode Hk) as Hk1. unfold WriteBinaryToFile, TSimpleFileTransport. cbn [open_flags andb mbind option_bind world].
  fold w_flags. rewrite Hpath.
  destruct (open_ok w path w_flags open_mode Hopen) as (fd&w1&Eo&Hfd&Hfresh&Ev1); [by right|]. rewrite Eo in *. cbn [snd] in Hk1.
  destruct (Z.ltb_spec fd 0); [lia|]. unfold open, setFD, set_world. cbn [mbind option_bind fd_ close_policy_ world].
  destruct (Hw fd I HI (TBinaryProtocol.new (Mk fd CLOSE_ON_DESTROY w1))) as (p&E&([d' Hp]&Ec&_)).
  { split; [exists []; split; [by split|]; split; [exact Hk1|]; exists O|split; [|done]]; cbn; rewrite Ev1; [|done].
    unfold fs_open, after, old. cbn. by rewrite app_nil_r, Z.sub_0_r. }
  rewrite E. cbn [mbind option_bind]. destruct (Z.ltb_spec (zlen d) 0); [lia|]. eexists. split; [done|].
  destruct Hp as (Hown&_&pos&Ev). cbn in Ec. rewrite Ev, Ev1 in Ec. cbn in Ec. rewrite !lookup_insert_eq in Ec. cbn in Ec.
  apply (inj (app _)) in Ec as ->. rewrite (destroy_closes fd) by (done || by rewrite Ev; cbn; rewrite lookup_insert_eq).
  rewrite Ev. unfold fs_close, after, old. cbn. by rewrite delete_insert_id.
Qed.

Lemma ReadBinaryFromFile_front {X} (Read : M prot (Z * option X)) (path d rest : list byte) (a : X) (error : Z) (w : os) :
  plenty -> (forall fd I HI Hd Hp, reads_from (TL := reading_laws (view w) fd path I HI (d ++ rest) Hd Hp) Read 0 d a) ->
  calm w -> c_str path = path -> may_open w path O_RDONLY -> files (view w) !! path = Some (d ++ rest) -> zlen d < 2 ^ 31 ->
  exists w', ReadBinaryFromFile Read path error w = Some (zlen d, Some a, error, w') /\ view w' = view w.
Proof.
  intros Hplenty Hr (I&HI&Hk) Hpath Hopen Hdata Hsz. pose proof (proj1 HI 5%nat w path O_RDONLY open_mode Hk) as Hk1. unfold ReadBinaryFromFile, TSimpleFileTransport.
  cbn [open_flags andb mbind option_bind world]. rewrite Hpath.
  destruct (open_ok w path O_RDONLY open_mode Hopen) as (fd&w1&Eo&Hfd&Hfresh&Ev1); [left; by eexists|]. rewrite Eo in *. cbn [snd] in Hk1.
  destruct (Z.ltb_spec fd 0); [lia|]. unfold open, setFD, set_world. cbn [mbind option_bind fd_ close_policy_ world].
  assert (view w1 = at_pos (view w) fd path 0) as Ev2
    by (rewrite Ev1; unfold fs_open, at_pos; rewrite Hdata; cbn; by rewrite insert_id).
  destruct (Hr fd I HI Hdata Hplenty (TBinaryProtocol.new (Mk fd CLOSE_ON_DESTROY w1)) rest) as (p&E&Hp).
  { split; [exists O; by split|]. split; [|split_and!; [cbn; lia|done|unfold string_room; cbn; lia]].
    cbn [TBinaryProtocol.trans_ TBinaryProtocol.new t_contents reading_laws].
    rewrite (reader_pos_eq (view w) fd path I O) by done. by rewrite drop_0. }
  { lia. }
  { lia. }
  rewrite E. cbn [mbind option_bind]. rewrite Z.add_0_l. destruct (Z.ltb_spec (zlen d) 0); [lia|]. eexists. split; [done|].
  destruct Hp as ([pos (Hown&Ev&_)]&_). rewrite (destroy_closes fd) by (done || by rewrite Ev; cbn; rewrite lookup_insert_eq).
  rewrite Ev. unfold fs_close, at_pos. cbn. rewrite delete_insert_id by done. by destruct (view w).
Qed.
End Messages.
End FileSpec.

Module FileClaims.
Import FileSpec Generated GeneratedSpec GeneratedWrite.

(** C11: a message written to a file comes back from it.  [WriteBinaryToFile] of the code
    generated from one definition appends the message to the file, which it makes if there
    is none, and returns its length; [ReadBinaryFromFile] of the code generated from another
    version, on a file that begins with the message, returns the length and the object
    with what the message carries for that version.  Both leave the error code alone and
    close the descriptor they opened; no other file or descriptor changes.  It does not
    matter into which pieces the system cuts reads and writes.  The system is assumed to be
    calm: reads fail by interruption only and not more than five times in a row, which is
    how often the transport tries again, and writes do not fail or are interrupted while
    the disk has space.  As everywhere, the two versions of the definition agree on the
    members of containers and structs that both have, and the members that the reader's
    version requires were sent. *)
Theorem file_roundtrip `{!Allocator} `{!Posix} `{!PosixLaws} (lt : obj -> obj -> bool) (name : list byte)
    (msW msR : list (t_field * ttype)) (vs : list (bool * obj)) (path : list byte) (error : Z) (w : os) (fuel : nat) :
  let ps := zip msW vs in
  let d := encode (VSandesh name (fields_of ps)) in
  plenty -> type_ok (TStruct name msW) -> typed lt (TStruct name msW) (OStruct vs) -> type_ok (TStruct name msR) ->
  (forall m p, In m msR -> In p ps -> key_of p = get_key m.1 -> type_to_enum p.1.2 = type_to_enum m.2 -> p.1.2 = m.2) ->
  (forall m, In m msR -> required m.1 = true -> (carried ps m).1 = true) ->
  zlen name < 2 ^ 31 -> zlen d < 2 ^ 31 -> (fuel_for (VSandesh name (fields_of ps)) <= fuel)%nat -> c_str path = path ->
  (calm w -> may_open w path w_flags -> zlen d <= free (view w) ->
    exists w', WriteBinaryToFile (gen_Write name msW (OStruct vs)) path error w = Some (zlen d, error, w') /\
      view w' = MkFs (<[path := default [] (files (view w) !! path) ++ d]> (files (view w))) (fds (view w))
                     (free (view w) - zlen d)) /\
  (forall r rest, calm r -> may_open r path O_RDONLY -> files (view r) !! path = Some (d ++ rest) ->
    exists r', ReadBinaryFromFile (gen_Read lt fuel msR (default_obj (TStruct name msR))) path error r =
        Some (zlen d, Some (OStruct (map (carried ps) msR)), error, r') /\ view r' = view r).
Proof.
  intros ps d Hp HtyW Ho HtyR Hsame Hreq Hname Hsz Hf Hpath. split.
  - intros Hcalm Hopen Hfree. apply WriteBinaryToFile_appends; try done.
    intros fd I HI. by apply (gen_Write_emits (TL := writing_laws (view w) fd path I HI) lt).
  - intros r rest Hcalm Hopen Hdata. eapply ReadBinaryFromFile_front; try done.
    intros fd I HI Hd Hp'. pose proof (GeneratedCode.carried_runs (TL := reading_laws (view r) fd path I HI _ Hd Hp')
      lt name msW msR vs fuel HtyW Ho HtyR Hsame Hname Hf) as Hruns. fold ps in Hruns.
    by rewrite (complete_all ps msR Hreq) in Hruns.
Qed.

(** ** A system

    One descriptor, number 3; reads of at most three bytes, writes of at most four.  The
    next reads are interrupted as often as [m_signals] says, and then each read behind two
    interruptions.  A write that finds no space fails. *)
Record machine := MkMachine { m_fs : fs; m_signals : nat }.
Definition m_read (fd n : Z) (w : machine) : Z * list byte * Z * machine :=
  match m_signals w with
  | S k => (-1, [], EINTR, MkMachine (m_fs w) k)
  | O =>
      match fds (m_fs w) !! fd with
      | Some d =>
          let bytes := take (Z.to_nat (Z.min 3 n)) (drop (d_pos d) (default [] (files (m_fs w) !! d_path d))) in
          (zlen bytes, bytes, 0, MkMachine (fs_read fd d (length bytes) (m_fs w)) 2)
      | None => (-1, [], 9, w)
      end
  end.
Definition m_write (fd : Z) (buf : list byte) (w : machine) : Z * Z * machine :=
  match fds (m_fs w) !! fd with
  | Some d =>
      match take (Z.to_nat (Z.min 4 (free (m_fs w)))) buf with
      | [] => (-1, 28, w)
      | bytes => (zlen bytes, 0,
          MkMachine (fs_append fd d (default [] (files (m_fs w) !! d_path d)) bytes (m_fs w)) (m_signals w))
      end
  | None => (-1, 9, w)
  end.

Definition machine_posix : Posix := {|
  os := machine;
  sys_open path flags _ w := (3, MkMachine (fs_open 3 path flags (m_fs w)) (m_signals w));
  sys_read := m_read;
  sys_write := m_write;
  sys_close fd w := (0, MkMachine (fs_close fd (m_fs w)) (m_signals w));
|}.

Definition machine_laws : @PosixLaws machine_posix.
Proof.
  refine (Build_PosixLaws machine_posix m_fs (fun w _ _ => fds (m_fs w) !! 3 = None) _ _ _ _);
    cbn [os sys_open sys_read sys_write sys_close machine_posix].
  - intros w path flags _ Hfd _. by eexists _, _.
  - intros w fd _. by eexists _, _.
  - intros w fd n d data Hd _ Hdata Hn. unfold m_read. destruct (m_signals w) as [|k].
    2: { eexists _, _, _, _. split; [done|]. by left. }
    rewrite Hd, Hdata. cbn [default]. eexists _, _, _, _. split; [done|]. right. split; [done|].
    split; [rewrite length_take; lia|]. split; [apply prefix_take|]. split; [|done].
    intros E%(f_equal length). rewrite length_take in E. apply nil_length_inv. cbn in E. lia.
  - intros w fd d data buf Hd _ Hdata Hb. unfold m_write. rewrite Hd, Hdata. cbn [default].
    destruct (take (Z.to_nat (Z.min 4 (free (m_fs w)))) buf) as [|b bytes] eqn:E.
    { eexists _, _, _. split; [done|]. by left. }
    eexists _, _, _. split; [done|]. right. eexists. split; [done|]. split; [done|]. rewrite <- E.
    split; [apply prefix_take|]. split; [|done]. rewrite length_take.
    assert (0 < free (m_fs w)) by (destruct (Z.ltb_spec 0 (free (m_fs w))); [done|]; replace (Z.to_nat _) with O in E by lia; done). lia.
Defined.

(** It is calm with at most five interruptions ahead. *)
Lemma machine_calm (w : machine) : (m_signals w <= 5)%nat -> @calm machine_posix machine_laws w.
Proof.
  intros Hw. exists (fun k x => (m_signals x <= k)%nat). split; [|done].
  split; [intros k x path flags mode; done|]. split; [intros k x fd; done|]. split.
  - intros k x fd d n rv bytes errno x' Hk Hd. cbn [sys_read machine_posix]. unfold m_read.
    destruct (m_signals x) as [|j] eqn:Ej.
    + change (fds (m_fs x) !! fd = Some d) in Hd. rewrite Hd. intros [= <- <- <- <-]. left. cbn. lia.
    + intros [= <- <- <- <-]. right. split; [lia|]. split; [done|]. exists (k - 1)%nat. cbn. lia.
  - intros k x fd d buf rv errno x' Hk Hd. change (fds (m_fs x) !! fd = Some d) in Hd.
    cbn [sys_write machine_posix]. unfold m_write. rewrite Hd.
    destruct (take (Z.to_nat (Z.min 4 (free (m_fs x)))) buf) as [|b bytes] eqn:E; intros [= <- <- <-]; (split; [done|]).
    + change (view x) with (m_fs x). intros Hb. apply (f_equal length) in E. rewrite length_take in E. cbn in E. lia.
    + lia.
Qed.

Definition log_path : list byte := bs "/var/log/msg".
Definition empty_disk (space : Z) : @os machine_posix := MkMachine (MkFs ∅ ∅ space) 5.

(** Six interruptions in a row are too many: the read fails. *)
Example six_interruptions :
  let _ := machine_posix in
  let w := MkMachine (MkFs {[log_path := bs "data"]} {[3 := MkFd log_path O_RDONLY 0]} 0) in
  (read 4 (Mk 3 CLOSE_ON_DESTROY (w 5%nat))).1 = (3, bs "dat") /\ (read 4 (Mk 3 CLOSE_ON_DESTROY (w 6%nat))).1 = (-1, []).
Proof. by vm_compute. Qed.

Lemma file_roundtrip_witness :
  let _ := TMemoryBuffer.total_allocator in
  let _ := machine_posix in
  let _ := machine_laws in
  exists w r, WriteBinaryToFile (gen_Write (bs "Msg") GeneratedCode.v1 (OStruct GeneratedCode.sent)) log_path 0 (empty_disk 60) = Some (49, 0, w) /\
    ReadBinaryFromFile (gen_Read GeneratedCode.int_lt 10 GeneratedCode.v2 (default_obj (TStruct (bs "Msg") GeneratedCode.v2)))
      log_path 0 w = Some (49, Some GeneratedCode.got, 0, r).
Proof.
  intros A P L.
  destruct (file_roundtrip GeneratedCode.int_lt (bs "Msg") GeneratedCode.v1 GeneratedCode.v2 GeneratedCode.sent log_path 0 (empty_disk 60) 10)
    as [Hw Hr].
  - by intros n _.
  - repeat split; try (apply (bool_decide_unpack _)); repeat constructor.
  - repeat constructor.
  - repeat split; try (apply (bool_decide_unpack _)); repeat constructor. apply not_elem_of_nil.
  - intros m p Hm Hp Ek Et. repeat (destruct Hm as [<-|Hm]; [repeat (destruct Hp as [<-|Hp]; [try done|]); done|]). done.
  - intros m Hm Hq. repeat (destruct Hm as [<-|Hm]; [done|]). done.
  - reflexivity.
  - reflexivity.
  - apply Nat.leb_le. reflexivity.
  - reflexivity.
  - destruct Hw as (w&Ew&Ev); [by apply machine_calm|reflexivity|vm_compute; discriminate|].
    destruct (Hr w []) as (r&Er&_); [| |rewrite Ev; reflexivity|].
    + apply machine_calm. vm_compute in Ew. injection Ew as <-. apply Nat.leb_le. reflexivity.
    + change (fds (view w) !! 3 = None). rewrite Ev. reflexivity.
    + exists w, r. split; [exact Ew|exact Er].
Defined.

(** *** Errors *)

(** The protocol drops the results of writes.  On a disk with space for 20 of the 49 bytes,
    [WriteBinaryToFile] returns 49 and no error, and the file holds 20 bytes. *)
Example full_disk_unnoticed :
  let _ := TMemoryBuffer.total_allocator in
  let _ := machine_posix in
  exists w d, WriteBinaryToFile (gen_Write (bs "Msg") GeneratedCode.v1 (OStruct GeneratedCode.sent)) log_path 0 (empty_disk 20) = Some (49, 0, w) /\
    files (m_fs w) !! log_path = Some d /\ zlen d = 20.
Proof. eexists _, _. split; [vm_compute; reflexivity|]. split; [vm_compute; reflexivity|reflexivity]. Qed.

(** [readAll] takes the result of a read as an unsigned number.  A read that fails behind
    [k] bytes steps back by one byte instead of ending the loop: the next read goes over the
    last byte that came, and all [len] bytes are reported. *)
Lemma readAll_steps_back `{Transport T} (t1 t2 t3 t4 : T) (len k : Z) (d d' : list byte) :
  0 < k < len -> len < 2 ^ 31 -> zlen d = k -> zlen d' = len - k + 1 ->
  tread t1 len = Some (k, d, t2) -> tread t2 (len - k) = Some (-1, [], t3) ->
  tread t3 (len - k + 1) = Some (len - k + 1, d', t4) ->
  Transport.readAll t1 len = Some (len, take (Z.to_nat (k - 1)) d ++ d', t4).
Proof.
  intros Hk Hlen Hd Hd' E1 E2 E3. unfold Transport.readAll. destruct (Z.to_nat len) as [|[|n]] eqn:En; [lia|lia|].
  cbn [readAll_loop]. destruct (Z.ltb_spec 0 len); [|lia]. rewrite Z.sub_0_r, (wrapU_small 32 len), E1 by lia.
  cbn [mbind option_bind]. rewrite (wrapU_small 32 k) by lia. destruct (Z.eqb_spec k 0); [lia|].
  replace (overlay [] 0 d) with d by (symmetry; apply (overlay_end [])). rewrite Z.add_0_l, (wrapU_small 32 k) by lia.
  destruct (Z.ltb_spec k len); [|lia]. rewrite (wrapU_small 32 (len - k)), E2 by lia. cbn [mbind option_bind].
  change (u32 (-1)) with (2 ^ 32 - 1). change (2 ^ 32 - 1 =? 0) with false. cbn iota.
  replace (u32 (k + (2 ^ 32 - 1))) with (k - 1)
    by (unfold wrapU; replace (k + (2 ^ 32 - 1)) with (k - 1 + 1 * 2 ^ 32) by lia; rewrite Z.mod_add, Z.mod_small; lia).
  rewrite <- Hd, overlay_end, app_nil_r, Hd.
  destruct (Z.ltb_spec (k - 1) len); [|lia]. replace (len - (k - 1)) with (len - k + 1) by lia.
  rewrite (wrapU_small 32 (len - k + 1)), E3 by lia. cbn [mbind option_bind]. rewrite (wrapU_small 32 (len - k + 1)) by lia.
  destruct (Z.eqb_spec (len - k + 1) 0); [lia|]. replace (k - 1 + (len - k + 1)) with len by lia. rewrite (wrapU_small 32 len) by lia.
  destruct n as [|n]; cbn [readAll_loop]; rewrite Z.ltb_irrefl, (wrapS_small 32) by lia;
    unfold overlay; by rewrite (drop_ge d), app_nil_r by lia.
Qed.
End FileClaims.
